(* ===== verification/_CoqProject ===== *)
-Q . S2P
Prelude.v
Ring.v
Monad.v
Pmm.v
Vmm.v
Alloc.v
Heap.v
Paging.v
Keyboard.v
Vga.v
Vfs.v
VfsTree.v
VfsCalls.v
FdTable.v
Sched.v
SchedRun.v
Sync.v
Elf.v
Bytes.v
Syscall.v
SyscallRun.v
UserStack.v
Spawn.v
Block.v
Ports.v
Serial.v
Pci.v
Ata.v
AtaDisk.v
Desc.v
Fault.v
Irq.v
Cpuid.v
TaskList.v
Shell.v
ShellEdit.v
ShellArgs.v
UserInit.v
Launch.v
Fat.v
FatName.v
FatDir.v
FatFs.v
