(* ===== verification/Prelude.v ===== *)
(** * Knail: a verification library for the Knail x86-64 kernel

    Knail is a small kernel in C++: a physical frame allocator, page tables, a heap,
    a keyboard driver and a text console, a virtual file system with RAM files,
    a terminal and pipes, per-task descriptor tables, a round-robin scheduler with
    [fork], [exit] and [wait], locks, an ELF loader and the creation of user programs,
    a FAT32 file system on block devices, drivers for the disk, the serial port, the
    PCI bus, the interrupt controllers and the timer, the processor's descriptor
    tables, the system calls through which user programs use the kernel, and two user
    programs, a shell and the first program.  The library translates these parts into
    executable definitions, one file per component, and proves what each promises to
    the parts that call it.

    ** Files

    - [Prelude]: machine integers ([u8] ... [u64], [i32], [i64]) with their wrap-around,
      bit notations, results and error codes (kernel/include/types.hpp), loops over
      integer ranges ([for_range], [find_range]) and lemmas the components share.
    - [Ring]: a bounded ring buffer as a list.
    - [Monad]: operations that return a result and a state, or do not return.
    - [Pmm] (arch/x86_64/pmm.cpp): the frame bitmap.  [init] walks the multiboot2
      information in memory; [alloc_frame] and [free_frame] act on the bitmap and the
      counters.
    - [Vmm] (arch/x86_64/vmm.cpp): four-level page tables in a physical memory of
      64-bit words, with frames from [Pmm]: table creation, splitting of 2 MiB pages,
      [map_page], [unmap_page], [virt_to_phys], user spaces and their copies.
    - [Alloc]: what [kmalloc] and [kfree] promise, as a class; [Bump] is a small second
      implementation on which clients are evaluated.
    - [Heap] (kernel/heap.cpp): the kernel heap over [Vmm] and [Pmm]; it implements
      [Alloc].
    - [Paging]: a heap whose state also holds the memory manager's, as a class.
    - [Keyboard] (drivers/keyboard.cpp), [Vga] (drivers/vga.cpp): scancodes to
      events, the escape parser and the screen.
    - [Vfs] (fs/vfs.cpp): nodes, descriptors, pipes, the terminal device and every
      operation of the file system, over any [Alloc] heap; [VfsTree] has the shape of
      the tree and the invariant, [VfsCalls] what the calls on descriptors do to it.
    - [FdTable] (proc/fdtable.cpp): descriptor tables over [Vfs].
    - [Sched] (kernel/scheduler.cpp): tasks, queues and every scheduling operation
      over [FdTable] and [Paging]; [SchedRun] has runs of calls and their theorems.
    - [Sync] (kernel/mutex.cpp, kernel/include/mutex.hpp): spinlock and mutex over
      [Sched].
    - [Elf] (proc/elf.cpp): the loader over [Vfs].
    - [Bytes]: little-endian words in byte buffers.
    - [Syscall] (kernel/syscall.cpp, kernel/asm/syscall.asm, kernel/timer.cpp): every
      handler, the dispatch table, the entry from user mode and back, and the timer
      interrupt, over [Sched], [FdTable] and [Vfs], with the user memory of every
      address space as bytes; [SyscallRun] has the invariant of the kernel's state
      and the theorems about calls.
    - [UserStack] (kernel/scheduler.cpp, [spawn_user]): the argument block of a new
      program.
    - [Spawn] (kernel/scheduler.cpp, [init_stdio], [spawn_user], [spawn_elf]): the
      creation of a user program from an ELF image, over [Vmm], the heap, [FdTable],
      [Sched] and [Elf].
    - [Block] (drivers/block.cpp): what a block device promises, as a class, a RAM disk
      that implements it, and the registry of devices.
    - [Ports]: a machine with ports, as a class; the drivers below are functions of any
      such machine.  What a driver relies on of its device is a class of laws in the
      driver's file, with an executable device as instance.
    - [Serial] (kernel/serial.cpp): the serial port, and reports as lists of calls to
      the console and the port.
    - [Pci] (kernel/pci.cpp): enumeration of the bus and its listing.
    - [Ata] (drivers/ata.cpp): the disk driver; [AtaDisk] has the protocol of a drive,
      the theorems, and the driver on a reliable drive as an instance of the block
      device of [Block].
    - [Desc] (drivers/gdt.cpp, drivers/idt.cpp): segments, gates, the task state, and
      the handlers of interrupts; [Fault] (drivers/idt.cpp) the reports of exceptions.
    - [Irq] (kernel/pic.cpp, kernel/timer.cpp, drivers/rtc.cpp): the interrupt
      controllers, the timer, the digits of the clock.
    - [Cpuid] (drivers/cpuid.cpp): identification of the processor.
    - [TaskList] (kernel/scheduler.cpp, [dump]): the listing of tasks.
    - [Shell] (shell.c): the line editor, the argument parser and the commands, over
      system calls as a class; [ShellEdit] has the theorems of the editor, [ShellArgs]
      those of the parser; [UserInit] (init.c) is the first program.
    - [Launch] (kernel/main.cpp): the reports of the kernel's entry, and the launch of
      the first programs over [Elf] and [Spawn].
    - [Fat], [FatName], [FatDir], [FatFs] (fs/fat32.cpp): over any block device, the
      allocation table with cluster chains; directory entries and 8.3 names;
      directories; and the mounted file system with its operations, built on [Vfs] and
      a heap that also carries the disk.

    A pointer is its address; objects of one C++ type live in a map keyed by address
    inside the state of their component, and heap blocks are tracked by an ownership
    map in the invariants, so that two live objects never share a block.  Fields and
    functions keep the source's names.  Operations on a state take it as an argument
    and return the new one; an operation that may spin, halt or loop returns [None]
    when it does.

    ** What the theorems show

    - Frames and pages: no frame is handed out twice; after boot the free frames are
      exactly the usable ones; [map_page] and [unmap_page] change the translation of
      one page and no other, through table creation and splitting.
    - Heap: [kmalloc] refines first-fit placement on the list of blocks, [kfree] the
      release with merging, [krealloc] keeps the bytes; for every sequence of calls
      the blocks in use are disjoint, inside the heap and mapped.
    - Devices: the keyboard refines a bounded queue of decoded keys; no text can move
      the cursor or a store off the screen; printed numbers read back.
    - Files: resolution agrees with the tree; what was created resolves; what was
      written is read back; a pipe is a bounded queue; no descriptor ever refers to a
      missing node, over all sequences of calls.
    - Tasks: queues and zombies stay well formed and memory stays owned by one task
      over all sequences of calls, and every call returns; the choice is round robin;
      no ready task starves; exit codes reach a waiting parent; a mutex excludes, and
      loses no wake-up.
    - System calls: any sequence of calls with any arguments, and timer interrupts,
      keeps every component's invariant (no descriptor slot dangles, no block of the
      heap has two owners), and every call ends; what is written into a pipe's one end
      is read from the other end through the descriptors; a bad descriptor is
      answered with an error and changes nothing; numbers outside the table are
      refused; the structure [fstat] fills in has the layout of the ABI.
    - Programs: the ELF checks equal a declarative specification, and loading leaves
      nothing behind but the image; the argument block reads as the ABI lays it out,
      and stays inside its buffer when the strings leave room for the words; every page
      of a program has a frame of its own; a spawned program is a ready task whose
      memory holds its segments and arguments and whose first three descriptors are
      the terminal; launching a file of the RAM file system puts its bytes where its
      program headers say.
    - Disk: reading a cluster chain gives the bytes of its clusters; writing extends
      it and what was written is read back, every other file untouched; a short name
      survives its encoding; a created entry is found and an unlinked one's clusters
      are free; mounting computes the geometry of the boot sector; a write through the
      virtual file system persists on the disk; the disk driver, on any drive that
      follows the protocol, reports success only for what the medium holds.
    - Machine: the selectors the kernel uses select, in the bytes of the table, the
      segments it means; exceptions and interrupts reach their handlers; the lines of
      the controllers are enabled and disabled one by one; the timer divides to the
      rate asked for; the enumeration of the PCI bus ends on every machine and finds
      every device that is reached; what is printed on the serial port reads back.
    - Shell: for every sequence of keys the line editor refines a text with a cursor,
      in its buffer and on the console; the parser yields the words of the line.

    ** Fuel

    Loops over linked lists get one step more than there are objects of the kind in
    memory; a duplicate-free list is shorter, so the fuel is never used up in a
    well-formed state, and the theorems prove that the operations return.  The walk
    of [Pmm.init] gets fuel from the theorem's caller and is proved to end; the ELF
    reading loop gets one step per byte.  The walks of a cluster chain get two steps
    more than the volume has clusters, and the tree built at mount one step per level;
    a string in user memory gets one step more than there are bytes in it.  The scan of
    the PCI bus may nest once more than its table has entries; the loops that wait for
    the serial port get more steps than the port is slow; the parser of the shell gets
    one step per character.  [wait] and [lock] are modelled one turn at a time, because
    between two turns other tasks run; the shell is modelled one line at a time.

    ** Not modelled

    Assembly (boot, interrupt entry, the saved registers of a context switch; the entry
    of system calls is modelled), page faults (an access to unmapped user memory reads
    zero), the translation lookaside buffer, and messages on the serial line in the
    midst of the operations of [Elf], [Fat] and [Heap].  Interrupts are off inside the
    operations of [Sched] and between acquire and release in [Sync], so these are
    atomic steps; where the source enables interrupts inside an operation
    ([Keyboard.read_event], [Mutex::lock]) the model splits it.  The operations of a
    mounted foreign file system are parameters of [Vfs], which [FatFs] instantiates; it
    models one mounted volume.  The shell's system calls are a parameter of [Shell].
    The order in which kernel/main.cpp calls the initialisers is not composed into one
    definition; the test programs under tests/ run on the kernel from outside and are
    left out.  The clock of drivers/rtc.cpp is declared there but has no definition. *)
From Stdlib Require Export ZArith Lia.
From stdpp Require Export base numbers list gmap.

#[global] Open Scope Z_scope.

(** ** Machine integers *)

Declare Scope mach_scope.

Definition wrap (w x : Z) : Z := x mod 2 ^ w.
Definition u8 (x : Z) : Z := wrap 8 x.
Definition u16 (x : Z) : Z := wrap 16 x.
Definition u32 (x : Z) : Z := wrap 32 x.
Definition u64 (x : Z) : Z := wrap 64 x.

(** Two's complement reinterpretation of a value at width [w]. *)
Definition sgn (w x : Z) : Z := (x + 2 ^ (w - 1)) mod 2 ^ w - 2 ^ (w - 1).
Definition i32 (x : Z) : Z := sgn 32 x.
Definition i64 (x : Z) : Z := sgn 64 x.

Notation "x .& y" := (Z.land x y) (at level 40, left associativity) : mach_scope.
Notation "x .| y" := (Z.lor x y) (at level 50, left associativity) : mach_scope.
Notation "x .<< y" := (Z.shiftl x y) (at level 34, left associativity) : mach_scope.
Notation "x .>> y" := (Z.shiftr x y) (at level 34, left associativity) : mach_scope.
#[global] Open Scope mach_scope.

Definition U8 (x : Z) : Prop := 0 <= x < 2 ^ 8.
Definition U32 (x : Z) : Prop := 0 <= x < 2 ^ 32.
Definition U64 (x : Z) : Prop := 0 <= x < 2 ^ 64.

(** ** kernel/include/types.hpp: error codes and results *)

Inductive kError : Type :=
| ENone
| InvalidArgument | NullPointer | OutOfMemory | NotImplemented | Overflow
| IOError | Timeout | DeviceNotReady | DeviceError
| NotFound | NotADirectory | NotAFile | EndOfFile | FilesystemCorrupt
| ReadOnly | AlreadyExists | NoSpace | IsDirectory | BadFileDescriptor
| OutOfFileDescriptors | PermissionDenied | Busy.

#[global] Instance kError_eq_dec : EqDecision kError.
Proof. solve_decision. Defined.

Inductive kResult (T : Type) : Type :=
| Ok (m_value : T)
| Err (m_error : kError).
Arguments Ok {T} m_value.
Arguments Err {T} m_error.

Definition is_ok {T} (r : kResult T) : bool :=
  match r with Ok _ => true | Err _ => false end.
Definition is_err {T} (r : kResult T) : bool := negb (is_ok r).

(** [kResult<void, kError>]. *)
Abbreviation kStatus := (kResult unit).

(** ** Loops

    [for (i = a; i < b; i++) s = body i s;] and
    [for (i = a; i < b; i++) if (P i) return i;], with the trip count as the
    structural argument. *)
Fixpoint for_loop {S : Type} (n : nat) (i : Z) (body : Z -> S -> S) (s : S) : S :=
  match n with
  | O => s
  | Datatypes.S n' => for_loop n' (i + 1) body (body i s)
  end.

Definition for_range {S : Type} (a b : Z) (body : Z -> S -> S) (s : S) : S :=
  for_loop (Z.to_nat (b - a)) a body s.

(** A counted loop whose body may leave the function with a value. *)
Fixpoint for_exit_loop {S R : Type} (n : nat) (i : Z) (body : Z -> S -> option R * S) (s : S) :
    option R * S :=
  match n with
  | O => (None, s)
  | Datatypes.S n' =>
      match body i s with
      | (Some r, s') => (Some r, s')
      | (None, s') => for_exit_loop n' (i + 1) body s'
      end
  end.

Definition for_exit {S R : Type} (a b : Z) (body : Z -> S -> option R * S) (s : S) :
    option R * S :=
  for_exit_loop (Z.to_nat (b - a)) a body s.

Fixpoint find_loop (n : nat) (i : Z) (P : Z -> bool) : option Z :=
  match n with
  | O => None
  | S n' => if P i then Some i else find_loop n' (i + 1) P
  end.

Definition find_range (a b : Z) (P : Z -> bool) : option Z :=
  find_loop (Z.to_nat (b - a)) a P.

(** Number of indices of [a, b) that satisfy [P]. *)
Fixpoint count_loop (n : nat) (i : Z) (P : Z -> bool) : Z :=
  match n with
  | O => 0
  | S n' => Z.b2z (P i) + count_loop n' (i + 1) P
  end.

Definition count_range (a b : Z) (P : Z -> bool) : Z :=
  count_loop (Z.to_nat (b - a)) a P.

(** ** Little-endian reads from byte-addressed memory *)

Fixpoint read_le (mem : Z -> Z) (a : Z) (n : nat) : Z :=
  match n with
  | O => 0
  | S n' => Z.lor (u8 (mem a)) (Z.shiftl (read_le mem (a + 1) n') 8)
  end.
Definition read32 (mem : Z -> Z) (a : Z) : Z := read_le mem a 4.
Definition read64 (mem : Z -> Z) (a : Z) : Z := read_le mem a 8.

(** ** Logic *)

(** Two conjunctions agree when their right sides do under the left one. *)
Lemma and_iff_ctx (P Q R : Prop) : (P -> Q <-> R) -> P /\ Q <-> P /\ R.
Proof. tauto. Qed.

(** ** Arithmetic facts *)

Create HintDb knail discriminated.

Ltac pow2 :=
  change (2 ^ 3) with 8 in *;
  change (2 ^ 8) with 256 in *;
  change (2 ^ 9) with 512 in *;
  change (2 ^ 12) with 4096 in *;
  change (2 ^ 16) with 65536 in *;
  change (2 ^ 21) with 2097152 in *;
  change (2 ^ 32) with 4294967296 in *;
  change (2 ^ 52) with 4503599627370496 in *;
  change (2 ^ 63) with 9223372036854775808 in *;
  change (2 ^ 64) with 18446744073709551616 in *.

Ltac mach := unfold U8, U32, U64, u8, u16, u32, u64, wrap in *; pow2.

(** Euclidean division facts for every [div]/[mod] in sight, then [lia]. *)
Ltac divlia := Z.to_euclidean_division_equations; lia.

Lemma wrap_small w x : 0 <= x < 2 ^ w -> wrap w x = x.
Proof. apply Z.mod_small. Qed.

Lemma wrap_bound w x : 0 <= w -> 0 <= wrap w x < 2 ^ w.
Proof. intros. apply Z.mod_pos_bound, Z.pow_pos_nonneg; lia. Qed.

Lemma u64_small x : U64 x -> u64 x = x.
Proof. apply wrap_small. Qed.
Lemma u64_bound x : U64 (u64 x).
Proof. apply wrap_bound; lia. Qed.
Lemma u32_small x : U32 x -> u32 x = x.
Proof. apply wrap_small. Qed.
Lemma u32_bound x : U32 (u32 x).
Proof. apply wrap_bound; lia. Qed.
Lemma u8_small x : U8 x -> u8 x = x.
Proof. apply wrap_small. Qed.
Lemma u8_bound x : U8 (u8 x).
Proof. apply wrap_bound; lia. Qed.
Lemma i64_small x : - 2 ^ 63 <= x < 2 ^ 63 -> i64 x = x.
Proof. intros. unfold i64, sgn. change (64 - 1) with 63. pow2. rewrite Z.mod_small; lia. Qed.
#[export] Hint Resolve u64_bound u32_bound u8_bound : knail.

(** ** Bits *)

Lemma shiftl_1 k : 0 <= k -> Z.shiftl 1 k = 2 ^ k.
Proof. intros. rewrite Z.shiftl_mul_pow2; lia. Qed.

Lemma u8_bit k : 0 <= k < 8 -> u8 (1 .<< k) = 2 ^ k.
Proof.
  intros. rewrite shiftl_1 by lia. apply wrap_small.
  split; [lia | apply Z.pow_lt_mono_r; lia].
Qed.

Lemma testbit_pow2 k j : 0 <= k -> Z.testbit (2 ^ k) j = (j =? k).
Proof. intros. rewrite Z.pow2_bits_eqb by lia. apply Z.eqb_sym. Qed.

(** Bits at or above the width of a bounded value are clear. *)
Lemma testbit_high w x j : 0 <= x < 2 ^ w -> 0 <= w <= j -> Z.testbit x j = false.
Proof.
  intros Hx Hj. rewrite <- (Z.mod_small x (2 ^ w)) by lia.
  apply Z.mod_pow2_bits_high. lia.
Qed.

(** A value whose high bits are clear is bounded. *)
Lemma bounded_bits w x : 0 <= w -> 0 <= x ->
  (forall j, w <= j -> Z.testbit x j = false) -> x < 2 ^ w.
Proof.
  intros Hw Hx Hb. enough (x = x mod 2 ^ w) as ->.
  { apply Z.mod_pos_bound, Z.pow_pos_nonneg; lia. }
  apply Z.bits_inj'. intros j Hj. destruct (decide (j < w)).
  - by rewrite Z.mod_pow2_bits_low by lia.
  - rewrite Z.mod_pow2_bits_high by lia. apply Hb; lia.
Qed.

Lemma lor_bound w a b : 0 <= w -> 0 <= a < 2 ^ w -> 0 <= b < 2 ^ w -> 0 <= Z.lor a b < 2 ^ w.
Proof.
  intros Hw Ha Hb. split; [apply Z.lor_nonneg; lia |].
  apply bounded_bits; [lia | apply Z.lor_nonneg; lia |].
  intros j Hj. rewrite Z.lor_spec, !(testbit_high w) by lia. done.
Qed.

Lemma land_bound_l w a b : 0 <= w -> 0 <= a < 2 ^ w -> 0 <= Z.land a b < 2 ^ w.
Proof.
  intros Hw Ha. split; [apply Z.land_nonneg; lia |].
  apply bounded_bits; [lia | apply Z.land_nonneg; lia |].
  intros j Hj. by rewrite Z.land_spec, (testbit_high w a) by lia.
Qed.

Lemma land_1_testbit b k : 0 <= k -> Z.land (Z.shiftr b k) 1 = Z.b2z (Z.testbit b k).
Proof.
  intros. change 1 with (Z.ones 1). rewrite Z.land_ones by lia.
  rewrite Z.testbit_spec' by lia. by rewrite Z.shiftr_div_pow2 by lia.
Qed.

(** Masking with a single bit tests it. *)
Lemma land_pow2_testbit x k : 0 <= k -> Z.land x (2 ^ k) = if Z.testbit x k then 2 ^ k else 0.
Proof.
  intros. apply Z.bits_inj'. intros j Hj. rewrite Z.land_spec, testbit_pow2 by lia.
  destruct (Z.eqb_spec j k) as [-> |].
  - rewrite andb_true_r. destruct (Z.testbit x k); [by rewrite Z.pow2_bits_true by lia | by rewrite Z.testbit_0_l].
  - rewrite andb_false_r. destruct (Z.testbit x k); [by rewrite Z.pow2_bits_false by lia | by rewrite Z.testbit_0_l].
Qed.

(** Rounding with [~(2^k - 1)] at width [w]. *)
Lemma land_align w k x : 0 <= k <= w -> 0 <= x < 2 ^ w ->
  Z.land x (wrap w (Z.lnot (2 ^ k - 1))) = x - x mod 2 ^ k.
Proof.
  intros Hk Hx.
  assert (Hones : 2 ^ k - 1 = Z.ones k) by (rewrite Z.ones_equiv; lia).
  assert (Z.ldiff x (Z.ones k) = x - x mod 2 ^ k) as <-.
  { rewrite Z.ldiff_ones_r by lia. rewrite Z.shiftr_div_pow2, Z.shiftl_mul_pow2 by lia.
    pose proof (Z.div_mod x (2 ^ k)). lia. }
  rewrite Hones. apply Z.bits_inj'. intros j Hj.
  rewrite Z.land_spec, Z.ldiff_spec. unfold wrap.
  destruct (decide (j < w)).
  - rewrite Z.mod_pow2_bits_low by lia. by rewrite Z.lnot_spec by lia.
  - by rewrite (testbit_high w x) by lia.
Qed.

(** [|] of a multiple of [2^k] and a value below [2^k] is their sum. *)
Lemma lor_disjoint k a b : 0 <= k -> a mod 2 ^ k = 0 -> 0 <= b < 2 ^ k -> Z.lor a b = a + b.
Proof.
  intros Hk Ha Hb. symmetry. rewrite <- Z.lxor_lor; [apply Z.add_nocarry_lxor |];
    (apply Z.bits_inj'; intros j Hj; rewrite Z.land_spec, Z.testbit_0_l;
     destruct (decide (j < k));
     [ rewrite <- (Z.mod_pow2_bits_low a k j) by lia; by rewrite Ha, Z.testbit_0_l
     | rewrite (testbit_high k b j) by lia; apply andb_false_r ]).
Qed.

(** ** Counted loops *)

Lemma for_range_done {S} a b (body : Z -> S -> S) s : b <= a -> for_range a b body s = s.
Proof. intros. unfold for_range. by replace (Z.to_nat (b - a)) with 0%nat by lia. Qed.

Lemma for_range_cons {S} a b (body : Z -> S -> S) s : a < b ->
  for_range a b body s = for_range (a + 1) b body (body a s).
Proof.
  intros. unfold for_range.
  by replace (Z.to_nat (b - a)) with (Datatypes.S (Z.to_nat (b - (a + 1)))) by lia.
Qed.

(** Induction on the distance between the bounds of a range. *)
Lemma range_ind (P : Z -> Prop) b :
  (forall a, b <= a -> P a) -> (forall a, a < b -> P (a + 1) -> P a) -> forall a, P a.
Proof.
  intros H0 HS a. remember (Z.to_nat (b - a)) as n eqn:Hn. revert a Hn.
  induction n; intros a Hn; [apply H0; lia |].
  apply HS; [lia | apply IHn; lia].
Qed.

(** Invariant rule of a counted loop. *)
Lemma for_range_ind {S} (I : Z -> S -> Prop) (body : Z -> S -> S) b a s :
  a <= b -> I a s -> (forall i x, a <= i < b -> I i x -> I (i + 1) (body i x)) ->
  I b (for_range a b body s).
Proof.
  revert s. pattern a. apply range_ind with b; clear a.
  - intros a ? s ? H0 _. assert (a = b) as -> by lia. by rewrite for_range_done.
  - intros a ? IH s ? H0 HS. rewrite for_range_cons by lia. apply IH; [lia | apply HS; [lia | done] |].
    intros; apply HS; [lia | done].
Qed.

Lemma for_exit_done {S R} a b (body : Z -> S -> option R * S) s : b <= a -> for_exit a b body s = (None, s).
Proof. intros. unfold for_exit. by replace (Z.to_nat (b - a)) with 0%nat by lia. Qed.

Lemma for_exit_cons {S R} a b (body : Z -> S -> option R * S) s : a < b ->
  for_exit a b body s =
  match body a s with (Some r, s') => (Some r, s') | (None, s') => for_exit (a + 1) b body s' end.
Proof.
  intros. unfold for_exit.
  by replace (Z.to_nat (b - a)) with (Datatypes.S (Z.to_nat (b - (a + 1)))) by lia.
Qed.

(** Invariant rule of a counted loop with an early exit: the invariant holds at
    the end, or the exit was taken from a state that satisfies it. *)
Lemma for_exit_ind {S R} (I : Z -> S -> Prop) (body : Z -> S -> option R * S) b a s :
  a <= b -> I a s ->
  (forall i x x', a <= i < b -> I i x -> body i x = (None, x') -> I (i + 1) x') ->
  match for_exit a b body s with
  | (None, s') => I b s'
  | (Some r, s') => exists i x, a <= i < b /\ I i x /\ body i x = (Some r, s')
  end.
Proof.
  revert s. pattern a. apply range_ind with b; clear a.
  - intros a ? s ? H0 _. assert (a = b) as -> by lia. by rewrite for_exit_done.
  - intros a ? IH s ? H0 HS. rewrite for_exit_cons by lia.
    destruct (body a s) as [[r |] s'] eqn:Hb; [by exists a, s |].
    assert (I (a + 1) s') as HI1 by (by apply (HS a s s')).
    specialize (IH s' ltac:(lia) HI1).
    destruct (for_exit (a + 1) b body s') as [[r |] s2].
    + destruct IH as (i & x & Hi & HI & Hr); [| exists i, x; by split_and!; try lia].
      intros i x x' Hi. apply HS. lia.
    + apply IH. intros i x x' Hi. apply HS. lia.
Qed.

Lemma find_range_done a b P : b <= a -> find_range a b P = None.
Proof. intros. unfold find_range. by replace (Z.to_nat (b - a)) with 0%nat by lia. Qed.

Lemma find_range_cons a b P : a < b ->
  find_range a b P = if P a then Some a else find_range (a + 1) b P.
Proof.
  intros. unfold find_range.
  by replace (Z.to_nat (b - a)) with (Datatypes.S (Z.to_nat (b - (a + 1)))) by lia.
Qed.

Lemma find_range_Some a b P i : find_range a b P = Some i <->
  a <= i < b /\ P i = true /\ forall j, a <= j < i -> P j = false.
Proof.
  pattern a. apply range_ind with b; clear a.
  { intros a ?. rewrite find_range_done by lia. split; [done | lia]. }
  intros a ? IH. rewrite find_range_cons by lia. destruct (P a) eqn:HP.
  - split.
    + intros [= <-]. repeat split; [lia | lia | done | intros; lia].
    + intros (? & ? & Hj). destruct (decide (i = a)) as [-> | Hne]; [done |].
      rewrite Hj in HP by lia. done.
  - rewrite IH. split.
    + intros (? & ? & Hj). repeat split; [lia | lia | done |]. intros j ?.
      destruct (decide (j = a)) as [-> |]; [done | apply Hj; lia].
    + intros (? & HPi & Hj). assert (i <> a) by congruence. repeat split; [lia | lia | done |].
      intros; apply Hj; lia.
Qed.

Lemma find_range_None a b P : find_range a b P = None <-> forall j, a <= j < b -> P j = false.
Proof.
  pattern a. apply range_ind with b; clear a.
  { intros a ?. rewrite find_range_done by lia. split; [lia | done]. }
  intros a ? IH. rewrite find_range_cons by lia. destruct (P a) eqn:HP.
  - split; [done |]. intros Hj. rewrite Hj in HP by lia. done.
  - rewrite IH. split; intros Hj j ?; [| apply Hj; lia].
    destruct (decide (j = a)) as [-> |]; [done | apply Hj; lia].
Qed.

Lemma count_range_done a b P : b <= a -> count_range a b P = 0.
Proof. intros. unfold count_range. by replace (Z.to_nat (b - a)) with 0%nat by lia. Qed.

Lemma count_range_cons a b P : a < b ->
  count_range a b P = Z.b2z (P a) + count_range (a + 1) b P.
Proof.
  intros. unfold count_range.
  by replace (Z.to_nat (b - a)) with (Datatypes.S (Z.to_nat (b - (a + 1)))) by lia.
Qed.

Lemma count_range_ext a b P Q : (forall i, a <= i < b -> P i = Q i) ->
  count_range a b P = count_range a b Q.
Proof.
  pattern a. apply range_ind with b; clear a.
  - intros. by rewrite !count_range_done by lia.
  - intros a ? IH HPQ. rewrite (count_range_cons a b P), (count_range_cons a b Q), HPQ by lia. f_equal. apply IH.
    intros; apply HPQ; lia.
Qed.

Lemma count_range_bound a b P : 0 <= count_range a b P <= Z.max 0 (b - a).
Proof.
  pattern a. apply range_ind with b; clear a.
  - intros. rewrite count_range_done by lia. lia.
  - intros a ? IH. rewrite count_range_cons by lia. destruct (P a); simpl; lia.
Qed.

(** Changing the predicate at one index of the range. *)
Lemma count_range_update a b P Q k : a <= k < b ->
  (forall i, a <= i < b -> i <> k -> P i = Q i) ->
  count_range a b Q = count_range a b P - Z.b2z (P k) + Z.b2z (Q k).
Proof.
  pattern a. apply range_ind with b; clear a; [intros; lia |].
  intros a ? IH ? HPQ. rewrite (count_range_cons a b P), (count_range_cons a b Q) by lia.
  destruct (decide (k = a)) as [-> |].
  - rewrite (count_range_ext _ _ Q P); [lia |]. intros; symmetry; apply HPQ; lia.
  - rewrite (HPQ a), IH by lia || (intros; apply HPQ; lia). lia.
Qed.

(** ** Little-endian reads *)

Lemma read_le_bound mem n a : 0 <= read_le mem a n < 2 ^ (8 * Z.of_nat n).
Proof.
  revert a. induction n as [| n IH]; intros a; [simpl; lia |].
  cbn [read_le]. specialize (IH (a + 1)).
  replace (8 * Z.of_nat (S n)) with (8 + 8 * Z.of_nat n) by lia.
  apply lor_bound; [lia | |].
  - pose proof (u8_bound (mem a)) as Hb. unfold U8 in Hb. split; [lia |].
    eapply Z.lt_le_trans; [apply Hb |]. apply Z.pow_le_mono_r; lia.
  - rewrite Z.shiftl_mul_pow2 by lia. rewrite Z.pow_add_r by lia. nia.
Qed.

Lemma read32_bound mem a : U32 (read32 mem a).
Proof. apply (read_le_bound mem 4). Qed.
Lemma read64_bound mem a : U64 (read64 mem a).
Proof. apply (read_le_bound mem 8). Qed.
#[export] Hint Resolve read32_bound read64_bound : knail.

(** Clients reason about loops through the lemmas above; evaluation by
    [vm_compute] is not affected. *)
#[global] Opaque for_range for_exit find_range count_range.
