(* ===== verification/Ring.v ===== *)
(** * Circular buffers

    The kernel has three: the keyboard event queue, the pipe and the terminal
    push-back.  An array is a finite map from index to element with a default for
    the slots that were never written; the contents of a buffer are the [n]
    elements from [tail] on, modulo the capacity. *)
From S2P Require Import Prelude.

Section ring.
Context {A : Type} (dflt : A) (cap : Z).
Hypothesis Hcap : 0 < cap.

Definition slot (b : gmap Z A) (i : Z) : A := default dflt (b !! i).

Definition contents (b : gmap Z A) (tail n : Z) : list A :=
  (fun i => slot b ((tail + i) mod cap)) <$> seqZ 0 n.

Lemma contents_length b tail n : 0 <= n -> Z.of_nat (length (contents b tail n)) = n.
Proof. intros. unfold contents. rewrite length_fmap, length_seqZ. lia. Qed.

(** Storing behind the last element appends. *)
Lemma contents_push b tail n x : 0 <= n < cap ->
  contents (<[(tail + n) mod cap := x]> b) tail (n + 1) = contents b tail n ++ [x].
Proof.
  intros Hn. unfold contents. rewrite (seqZ_app 0 n 1) by lia. rewrite fmap_app. simpl. f_equal.
  - apply list_fmap_ext. intros k i Hk. apply lookup_seqZ in Hk as [-> Hk]. unfold slot.
    rewrite lookup_insert_ne; [done |]. intros Heq.
    assert ((tail + n - (tail + (0 + Z.of_nat k))) mod cap = 0) as Hm.
    { rewrite Zminus_mod, Heq, Z.sub_diag. apply Z.mod_0_l. lia. }
    rewrite Z.mod_small in Hm by lia. lia.
  - unfold slot. by rewrite Z.add_0_l, lookup_insert_eq.
Qed.

(** Advancing the tail drops the first element. *)
Lemma contents_pop b tail n : 0 < n ->
  contents b tail n = slot b (tail mod cap) :: contents b ((tail + 1) mod cap) (n - 1).
Proof.
  intros Hn. unfold contents. rewrite (seqZ_cons 0 n) by lia. simpl. rewrite Z.add_0_r. f_equal.
  apply list_eq. intros i. rewrite !list_lookup_fmap.
  destruct (decide (Z.of_nat i < n - 1)).
  - rewrite !lookup_seqZ_lt by lia. simpl. do 2 f_equal. rewrite Zplus_mod_idemp_l. f_equal. lia.
  - rewrite !lookup_seqZ_ge by lia. done.
Qed.

Lemma contents_nil b tail : contents b tail 0 = [].
Proof. done. Qed.

(** The tail matters modulo the capacity only. *)
Lemma contents_mod b tail n : contents b (tail mod cap) n = contents b tail n.
Proof. unfold contents. apply list_fmap_ext. intros _ i _. by rewrite Zplus_mod_idemp_l. Qed.
End ring.
