(* ===== verification/Monad.v ===== *)
(** * The effect of a kernel operation

    A result and a new state, or [None] when the operation does not return.
    Operations of one component run inside the state of another through a pair of
    a projection and an update. *)
From S2P Require Import Prelude.

Definition St (S A : Type) : Type := S -> option (A * S).

#[global] Instance St_ret S : MRet (St S) := fun A x s => Some (x, s).
#[global] Instance St_bind S : MBind (St S) := fun A B k m s => match m s with Some (x, s) => k x s | None => None end.

Definition gets {S A} (f : S -> A) : St S A := fun s => Some (f s, s).
Definition modify {S} (f : S -> S) : St S unit := fun s => Some (tt, f s).
Definition skip {S} : St S unit := mret tt.

(** The processor halts, or a loop does not end. *)
Definition halt {S A} : St S A := fun _ => None.

(** [m] run on the part of the state that [get] reads and [put] writes. *)
Definition run_on {S T A} (get : S -> T) (put : T -> S -> S) (m : St T A) : St S A := fun s =>
  match m (get s) with Some (x, t) => Some (x, put t s) | None => None end.

Definition when {S} (b : bool) (m : St S unit) : St S unit := if b then m else skip.

Lemma bind_Some {S A B} (m : St S A) (k : A -> St S B) s x s' : m s = Some (x, s') -> (m ≫= k) s = k x s'.
Proof. unfold mbind, St_bind. by intros ->. Qed.

(** Unfolds one layer of a sequence of effects. *)
Ltac step_st := unfold when, skip, gets, modify, mbind, St_bind, mret, St_ret; cbv beta iota zeta.
