(* ===== verification/Pmm.v ===== *)
(** * arch/x86_64/pmm.cpp: the physical memory manager

    The bitmap allocator of 4 KiB frames: one bit per frame, 1 = used.  The
    static byte array [bitmap_storage] is a finite map from index to byte whose
    missing entries read as the zero of [.bss]; [total_frames] and
    [used_frames] are the two static counters. *)
From S2P Require Import Prelude.

(** ** Constants *)

Definition PAGE_SIZE : Z := 4096.
Definition MAX_FRAMES : Z := 1024 * 1024.
Definition BITMAP_BYTES : Z := MAX_FRAMES / 8.
Definition MB2_TAG_MMAP : Z := 6.
Definition MB2_MMAP_USABLE : Z := 1.
Definition IDENTITY_MAP_LIMIT_FRAMES : Z := (1 .<< 30) / PAGE_SIZE.

(** ** State *)

Record state := State {
  bitmap : gmap Z Z;
  total_frames : Z;
  used_frames : Z;
}.

Definition boot_state : state := State ∅ 0 0.

(** ** Bitmap accessors *)

Definition byte_at (b : gmap Z Z) (i : Z) : Z := default 0 (b !! i).

Definition set_used (f : Z) (b : gmap Z Z) : gmap Z Z :=
  <[f / 8 := u8 (byte_at b (f / 8) .| u8 (1 .<< (f mod 8)))]> b.

Definition set_free (f : Z) (b : gmap Z Z) : gmap Z Z :=
  <[f / 8 := u8 (byte_at b (f / 8) .& Z.lnot (u8 (1 .<< (f mod 8))))]> b.

Definition is_used (f : Z) (b : gmap Z Z) : bool :=
  negb ((byte_at b (f / 8) .>> (f mod 8)) .& 1 =? 0).

(** ** init: the multiboot2 walk *)

Record MB2MmapEntry := MmapEntry { base : Z; length : Z; type : Z }.

Definition read_entry (mem : Z -> Z) (ep : Z) : MB2MmapEntry :=
  {| base := read64 mem ep; length := read64 mem (ep + 8); type := read32 mem (ep + 16) |}.

(** The body of the entry loop: raise [top_addr], free the whole frames of a
    usable region. *)
Definition add_entry (e : MB2MmapEntry) (acc : gmap Z Z * Z) : gmap Z Z * Z :=
  let '(b, top_addr) := acc in
  let end_ := u64 (base e + length e) in
  let top_addr := if end_ >? top_addr then end_ else top_addr in
  let b :=
    if type e =? MB2_MMAP_USABLE then
      let fs := u64 (base e + PAGE_SIZE - 1) / PAGE_SIZE in
      let fe := u64 (base e + length e) / PAGE_SIZE in
      for_range fs (Z.min fe MAX_FRAMES) set_free b
    else b in
  (b, top_addr).

(** [None]: the loop has not ended within [fuel] iterations. *)
Fixpoint mmap_loop (fuel : nat) (mem : Z -> Z) (entry_size ep ee : Z)
    (acc : gmap Z Z * Z) : option (gmap Z Z * Z) :=
  match fuel with
  | O => None
  | S n =>
      if ep + 24 <=? ee then
        mmap_loop n mem entry_size (ep + entry_size) ee (add_entry (read_entry mem ep) acc)
      else Some acc
  end.

Definition tag_type (mem : Z -> Z) (tptr : Z) : Z := read32 mem tptr.
Definition tag_size (mem : Z -> Z) (tptr : Z) : Z := read32 mem (tptr + 4).
Definition next_tag (mem : Z -> Z) (tptr : Z) : Z :=
  tptr + (u32 (tag_size mem tptr + 7) .& u32 (Z.lnot 7)).

Fixpoint tag_loop (fuel efuel : nat) (mem : Z -> Z) (tptr tend : Z)
    (acc : gmap Z Z * Z) : option (gmap Z Z * Z) :=
  match fuel with
  | O => None
  | S n =>
      if tptr <? tend then
        if tag_type mem tptr =? 0 then Some acc
        else if tag_size mem tptr =? 0 then Some acc
        else
          acc' ← (if tag_type mem tptr =? MB2_TAG_MMAP
                  then mmap_loop efuel mem (read32 mem (tptr + 8)) (tptr + 16)
                         (tptr + tag_size mem tptr) acc
                  else Some acc);
          tag_loop n efuel mem (next_tag mem tptr) tend acc'
      else Some acc
  end.

Definition fill_used : gmap Z Z -> gmap Z Z :=
  for_range 0 BITMAP_BYTES (fun i b => <[i := 0xFF]> b).

Definition round_up (kernel_end : Z) : Z :=
  u64 (kernel_end + PAGE_SIZE - 1) .& u64 (Z.lnot (PAGE_SIZE - 1)).

Definition reserve_end (kernel_end : Z) : Z :=
  u64 (round_up kernel_end + PAGE_SIZE - 1) / PAGE_SIZE.

Definition clamp_frames (top_addr : Z) : Z :=
  let total := top_addr / PAGE_SIZE in
  let total := if total >? MAX_FRAMES then MAX_FRAMES else total in
  if total >? IDENTITY_MAP_LIMIT_FRAMES then IDENTITY_MAP_LIMIT_FRAMES else total.

Definition init (fuel efuel : nat) (mem : Z -> Z) (mb2_info_phys kernel_end : Z)
    (s : state) : option state :=
  let b := fill_used (bitmap s) in
  let mb2_addr := u32 mb2_info_phys in
  let mb2_total_size := read32 mem mb2_addr in
  if (mb2_total_size =? 0) || (mb2_total_size >? 65536) then
    Some (State b (total_frames s) (used_frames s))
  else
    '(b, top_addr) ← tag_loop fuel efuel mem (mb2_addr + 8) (mb2_addr + mb2_total_size) (b, 0);
    let total := clamp_frames top_addr in
    let b := for_range 0 (reserve_end kernel_end) set_used b in
    let used := for_range 0 total (fun f n => if is_used f b then u64 (n + 1) else n) 0 in
    Some (State b total used).

(** ** alloc_frame, free_frame, stats *)

Definition alloc_frame (s : state) : Z * state :=
  match find_range 1 (total_frames s) (fun f => negb (is_used f (bitmap s))) with
  | Some f =>
      (u64 (f * PAGE_SIZE),
       State (set_used f (bitmap s)) (total_frames s) (u64 (used_frames s + 1)))
  | None => (0, s)
  end.

Definition free_frame (phys : Z) (s : state) : state :=
  let f := phys / PAGE_SIZE in
  if (f =? 0) || (f >=? total_frames s) || negb (is_used f (bitmap s)) then s
  else State (set_free f (bitmap s)) (total_frames s) (u64 (used_frames s - 1)).

Record Stats := MkStats {
  s_total_bytes : Z; s_usable_bytes : Z; s_used_frames : Z; s_free_frames : Z; s_total_frames : Z;
}.

Definition stats (s : state) : Stats :=
  let free_f := u64 (total_frames s - used_frames s) in
  {| s_total_bytes := u64 (total_frames s * PAGE_SIZE);
     s_usable_bytes := u64 (free_f * PAGE_SIZE);
     s_used_frames := used_frames s;
     s_free_frames := free_f;
     s_total_frames := total_frames s |}.

(** ** Bit-level lemmas *)

Definition bytes_ok (b : gmap Z Z) : Prop := forall i, U8 (byte_at b i).

Lemma byte_at_insert b i j v :
  byte_at (<[i := v]> b) j = if decide (i = j) then v else byte_at b j.
Proof. unfold byte_at. rewrite lookup_insert. by case_decide. Qed.

Lemma is_used_testbit f b : is_used f b = Z.testbit (byte_at b (f / 8)) (f mod 8).
Proof.
  unfold is_used. rewrite land_1_testbit by (apply Z.mod_pos_bound; lia).
  by destruct (Z.testbit _ _).
Qed.

Lemma frame_pos f g : f / 8 = g / 8 -> f mod 8 = g mod 8 -> f = g.
Proof. intros. divlia. Qed.

Lemma set_used_bytes f b : bytes_ok b -> bytes_ok (set_used f b).
Proof. intros H i. unfold set_used. rewrite byte_at_insert. case_decide; eauto with knail. Qed.

Lemma set_free_bytes f b : bytes_ok b -> bytes_ok (set_free f b).
Proof. intros H i. unfold set_free. rewrite byte_at_insert. case_decide; eauto with knail. Qed.
#[export] Hint Resolve set_used_bytes set_free_bytes : knail.

Lemma is_used_set_used f g b : bytes_ok b ->
  is_used g (set_used f b) = (g =? f) || is_used g b.
Proof.
  intros Hb. rewrite !is_used_testbit. unfold set_used. rewrite byte_at_insert.
  assert (0 <= f mod 8 < 8 /\ 0 <= g mod 8 < 8) as [Hf Hg] by (split; apply Z.mod_pos_bound; lia).
  rewrite u8_bit by lia. case_decide as Hd.
  - rewrite u8_small.
    + rewrite Z.lor_spec, testbit_pow2, Hd, orb_comm by lia. f_equal.
      destruct (Z.eqb_spec (g mod 8) (f mod 8)), (Z.eqb_spec g f); try done.
      * destruct n. by apply frame_pos.
      * by subst.
    + apply lor_bound; [lia | apply Hb |]. split; [lia | apply Z.pow_lt_mono_r; lia].
  - assert (g <> f) as Hne by congruence. by rewrite (proj2 (Z.eqb_neq g f) Hne).
Qed.

Lemma is_used_set_free f g b : bytes_ok b ->
  is_used g (set_free f b) = negb (g =? f) && is_used g b.
Proof.
  intros Hb. rewrite !is_used_testbit. unfold set_free. rewrite byte_at_insert.
  assert (0 <= f mod 8 < 8 /\ 0 <= g mod 8 < 8) as [Hf Hg] by (split; apply Z.mod_pos_bound; lia).
  rewrite u8_bit by lia. case_decide as Hd.
  - rewrite u8_small by (apply land_bound_l; [lia | apply Hb]).
    rewrite Z.land_spec, Z.lnot_spec, testbit_pow2, Hd, andb_comm by lia. f_equal. f_equal.
    destruct (Z.eqb_spec (g mod 8) (f mod 8)), (Z.eqb_spec g f); try done.
    * destruct n. by apply frame_pos.
    * by subst.
  - assert (g <> f) as Hne by congruence. by rewrite (proj2 (Z.eqb_neq g f) Hne).
Qed.

(** ** Invariant *)

Definition used (s : state) (f : Z) : bool := is_used f (bitmap s).

(** [used_frames] counts the used bits of the managed range, and the range
    stays inside the static array. *)
Record wf (s : state) : Prop := {
  wf_bytes : bytes_ok (bitmap s);
  wf_total : 0 <= total_frames s <= MAX_FRAMES;
  wf_count : used_frames s = count_range 0 (total_frames s) (used s);
}.

(** The abstract state of the allocator: the set of frames it can hand out. *)
Definition frames (s : state) : gset Z :=
  list_to_set (filter (fun f => used s f = false) (seqZ 1 (total_frames s - 1))).

Lemma elem_of_frames s f :
  f ∈ frames s <-> 1 <= f < total_frames s /\ used s f = false.
Proof.
  unfold frames. rewrite elem_of_list_to_set, list_elem_of_filter, elem_of_seqZ.
  split; intros [? ?]; split; try done; lia.
Qed.

Lemma wf_used_bound s : wf s -> 0 <= used_frames s <= total_frames s.
Proof.
  intros [_ Ht ->]. pose proof (count_range_bound 0 (total_frames s) (used s)). lia.
Qed.

Lemma max_frames_val : MAX_FRAMES = 1048576.
Proof. done. Qed.

Ltac pmm_unfold :=
  rewrite ?max_frames_val in *; unfold PAGE_SIZE in *.

(** Setting or clearing one bit of the managed range keeps the count exact. *)
Lemma wf_update s f b v : wf s -> 0 <= f < total_frames s -> bytes_ok b ->
  (forall g, g <> f -> is_used g b = used s g) -> is_used f b = v -> used s f = negb v ->
  wf (State b (total_frames s) (u64 (used_frames s + if v then 1 else -1))).
Proof.
  intros Hwf Hf Hb Hg Hv Hu. pose proof Hwf as [_ Ht Hc].
  assert (count_range 0 (total_frames s) (fun g => is_used g b) =
          used_frames s + (if v then 1 else -1)) as Hcount.
  { rewrite (count_range_update 0 (total_frames s) (used s) (fun g => is_used g b) f).
    - rewrite <- Hc, Hu, Hv. by destruct v; simpl; lia.
    - lia.
    - intros. symmetry. by apply Hg. }
  pose proof (count_range_bound 0 (total_frames s) (fun g => is_used g b)).
  split; simpl; [done | done |]. unfold used; simpl.
  rewrite Hcount, u64_small; [done |]. pmm_unfold. mach. lia.
Qed.

(** The two outcomes of [alloc_frame], in the form its callers use. *)
Lemma alloc_frame_ok s r s' : wf s -> alloc_frame s = (r, s') -> r <> 0 ->
  exists f, r = f * PAGE_SIZE /\ 1 <= f < total_frames s /\ used s f = false /\
    (forall g, 1 <= g < f -> used s g = true) /\
    (forall g, used s' g = (g =? f) || used s g) /\
    total_frames s' = total_frames s /\ wf s'.
Proof.
  intros Hwf. unfold alloc_frame.
  destruct (find_range _ _ _) as [f |] eqn:Hfind; intros [= <- <-] Hr; [| done].
  apply find_range_Some in Hfind as (Hf & Hu & Hmin). rewrite negb_true_iff in Hu.
  assert (forall g, is_used g (set_used f (bitmap s)) = (g =? f) || used s g) as Hset.
  { intros g. by apply is_used_set_used, Hwf. }
  pose proof (wf_total _ Hwf).
  exists f. split_and!; try done; try lia.
  - apply u64_small. pmm_unfold. mach. lia.
  - intros g Hg. specialize (Hmin g Hg). by apply negb_false_iff.
  - apply (wf_update s f _ true); [done | lia | apply set_used_bytes, Hwf | | | done].
    + intros g Hne. rewrite Hset. by rewrite (proj2 (Z.eqb_neq g f) Hne).
    + by rewrite Hset, Z.eqb_refl.
Qed.

Lemma alloc_frame_fail s s' : wf s -> alloc_frame s = (0, s') ->
  s' = s /\ forall g, 1 <= g < total_frames s -> used s g = true.
Proof.
  intros Hwf. pose proof (wf_total _ Hwf). unfold alloc_frame.
  destruct (find_range _ _ _) as [f |] eqn:Hfind.
  - intros [= Hr _]. apply find_range_Some in Hfind as (Hf & _). rewrite u64_small in Hr by (pmm_unfold; mach; lia).
    unfold PAGE_SIZE in Hr. lia.
  - intros [= <-]. split; [done |]. intros g Hg. rewrite find_range_None in Hfind.
    by apply negb_false_iff, Hfind.
Qed.

Lemma free_frame_used s phys g : wf s -> 0 <= phys ->
  used (free_frame phys s) g =
  used s g && negb ((g =? phys / PAGE_SIZE) && (1 <=? g) && (g <? total_frames s)).
Proof.
  intros Hwf Hp. unfold free_frame.
  assert (0 <= phys / PAGE_SIZE) by (apply Z.div_pos; unfold PAGE_SIZE; lia).
  destruct (Z.eqb_spec (phys / PAGE_SIZE) 0); simpl.
  { destruct (Z.eqb_spec g (phys / PAGE_SIZE)), (Z.leb_spec 1 g); simpl; try lia; by rewrite andb_true_r. }
  destruct (Z.geb_spec (phys / PAGE_SIZE) (total_frames s)); simpl.
  { destruct (Z.eqb_spec g (phys / PAGE_SIZE)), (Z.leb_spec 1 g), (Z.ltb_spec g (total_frames s));
      simpl; try lia; by rewrite andb_true_r. }
  destruct (is_used _ _) eqn:Hu; simpl.
  - unfold used; simpl. rewrite is_used_set_free by apply Hwf.
    destruct (Z.eqb_spec g (phys / PAGE_SIZE)), (Z.leb_spec 1 g), (Z.ltb_spec g (total_frames s));
      simpl; try lia; by rewrite ?andb_false_r, ?andb_true_r.
  - destruct (Z.eqb_spec g (phys / PAGE_SIZE)) as [-> |]; simpl; [| by rewrite andb_true_r].
    unfold used. by rewrite Hu.
Qed.

Lemma free_frame_wf s phys : wf s -> 0 <= phys ->
  wf (free_frame phys s) /\ total_frames (free_frame phys s) = total_frames s.
Proof.
  intros Hwf Hp. unfold free_frame.
  assert (0 <= phys / PAGE_SIZE) by (apply Z.div_pos; unfold PAGE_SIZE; lia).
  destruct (Z.eqb_spec (phys / PAGE_SIZE) 0); simpl; [done |].
  destruct (Z.geb_spec (phys / PAGE_SIZE) (total_frames s)); simpl; [done |].
  destruct (is_used _ _) eqn:Hu; simpl; [| done]. split; [| done].
  apply (wf_update s (phys / PAGE_SIZE) _ false); [done | lia | apply set_free_bytes, Hwf | | | done].
  - intros g Hne. rewrite is_used_set_free by apply Hwf. by rewrite (proj2 (Z.eqb_neq g _) Hne).
  - rewrite is_used_set_free by apply Hwf. by rewrite Z.eqb_refl.
Qed.

(** Allocation succeeds while the set of free frames is not empty, and takes one
    frame out of it. *)
Lemma alloc_frame_avail s r s' n : wf s -> alloc_frame s = (r, s') -> (S n <= size (frames s))%nat ->
  r <> 0 /\ (n <= size (frames s'))%nat.
Proof.
  intros Hwf Ha Hn.
  assert (r <> 0) as Hr.
  { intros ->. destruct (alloc_frame_fail _ _ Hwf Ha) as [_ Hall].
    enough (frames s ≡ ∅) as He by (rewrite He, size_empty in Hn; lia).
    intros g. rewrite elem_of_frames. split; [| set_solver].
    intros [Hg Hgu]. by rewrite (Hall g Hg) in Hgu. }
  split; [done |].
  destruct (alloc_frame_ok _ _ _ Hwf Ha Hr) as (f & _ & Hf & Hu & _ & Hset & Ht & _).
  enough (frames s' ≡ frames s ∖ {[f]}) as ->.
  { rewrite size_difference by (apply singleton_subseteq_l, elem_of_frames; done).
    rewrite size_singleton. lia. }
  intros g. rewrite elem_of_difference, elem_of_singleton, !elem_of_frames, Ht, Hset, orb_false_iff.
  rewrite Z.eqb_neq. tauto.
Qed.

(** [alloc_frame] refines removing the least element of the set of free
    frames.  From a well-formed state it either fails with 0, changing nothing,
    exactly when the set is empty, or returns the address of the lowest free
    frame, which leaves the set; the invariant is kept in both cases. *)
Theorem alloc_frame_refines s r s' : wf s -> alloc_frame s = (r, s') ->
  wf s' /\ total_frames s' = total_frames s /\
  ((frames s = ∅ /\ r = 0 /\ s' = s) \/
   (exists f, f ∈ frames s /\ (forall g, g ∈ frames s -> f <= g) /\
      r = f * PAGE_SIZE /\ 0 < r < total_frames s * PAGE_SIZE /\
      frames s' = frames s ∖ {[f]})).
Proof.
  intros Hwf Ha. destruct (decide (r = 0)) as [-> | Hr].
  - destruct (alloc_frame_fail _ _ Hwf Ha) as [-> Hall].
    split; [done | split; [done |]]. left. split; [| done].
    apply set_eq. intros g. rewrite elem_of_frames. split; [| set_solver].
    intros [Hg Hgu]. rewrite (Hall g Hg) in Hgu. done.
  - destruct (alloc_frame_ok _ _ _ Hwf Ha Hr) as (f & -> & Hf & Hu & Hmin & Hset & Ht & Hwf').
    split; [done | split; [done |]]. right. exists f. unfold PAGE_SIZE. split_and!; try lia.
    + by apply elem_of_frames.
    + intros g [Hg Hgu]%elem_of_frames. destruct (decide (f <= g)); [done |].
      rewrite Hmin in Hgu by lia. done.
    + apply set_eq. intros g. rewrite elem_of_difference, elem_of_singleton, !elem_of_frames.
      rewrite Hset, Ht, orb_false_iff, Z.eqb_neq. tauto.
Qed.

(** [free_frame] refines adding the frame to the set of free frames.  Only
    frame 0 and frames outside the managed range are ignored, and freeing a
    frame that is already free changes nothing. *)
Theorem free_frame_refines s phys : wf s -> 0 <= phys ->
  let f := phys / PAGE_SIZE in
  wf (free_frame phys s) /\
  frames (free_frame phys s) =
    (if decide (1 <= f < total_frames s) then {[f]} ∪ frames s else frames s) /\
  (f ∈ frames s -> free_frame phys s = s).
Proof.
  intros Hwf Hp f. destruct (free_frame_wf s phys Hwf Hp) as [Hwf' Ht]. split; [done |]. split.
  - apply set_eq. intros g. rewrite elem_of_frames, Ht, free_frame_used by done. fold f.
    case_decide; rewrite ?elem_of_union, ?elem_of_singleton, elem_of_frames;
      destruct (Z.eqb_spec g f), (Z.leb_spec 1 g), (Z.ltb_spec g (total_frames s)), (used s g);
      simpl; intuition (try lia; try done).
  - intros [Hf Hu]%elem_of_frames. unfold free_frame. fold f. unfold used in Hu. rewrite Hu.
    by rewrite !orb_true_r.
Qed.

(** ** Sequences of operations *)

Inductive op := OpAlloc | OpFree (phys : Z).

Definition run_op (s : state) (o : op) : state :=
  match o with OpAlloc => snd (alloc_frame s) | OpFree phys => free_frame phys s end.

Lemma alloc_frame_keeps s g : wf s -> used s g = true ->
  wf (snd (alloc_frame s)) /\ used (snd (alloc_frame s)) g = true.
Proof.
  intros Hwf Hu. destruct (alloc_frame s) as [r s'] eqn:Ha. simpl.
  destruct (decide (r = 0)) as [-> | Hr].
  - by destruct (alloc_frame_fail _ _ Hwf Ha) as [-> _].
  - destruct (alloc_frame_ok _ _ _ Hwf Ha Hr) as (f & _ & _ & _ & _ & Hset & _ & Hwf').
    by rewrite Hset, Hu, orb_true_r.
Qed.

Lemma run_ops_keep ops s g : wf s -> used s g = true ->
  Forall (fun o => match o with OpAlloc => True | OpFree p => 0 <= p /\ p / PAGE_SIZE <> g end) ops ->
  wf (foldl run_op s ops) /\ used (foldl run_op s ops) g = true.
Proof.
  intros Hwf Hu Hops. revert s Hwf Hu. induction Hops as [| o ops Ho _ IH]; intros s Hwf Hu; [done |].
  simpl. destruct o as [| p]; simpl.
  - destruct (alloc_frame_keeps s g Hwf Hu). by apply IH.
  - destruct Ho as [Hp Hne]. apply IH; [by apply free_frame_wf |].
    rewrite free_frame_used, Hu by done. destruct (Z.eqb_spec g (p / PAGE_SIZE)); [congruence | done].
Qed.

(** C7: A frame is owned exclusively.  Once [alloc_frame] has returned [r], no
    later call returns [r] again, whatever calls happen in between, as long as
    none of them frees that frame. *)
Theorem alloc_frame_exclusive s r s1 ops r2 s2 : wf s -> alloc_frame s = (r, s1) -> r <> 0 ->
  Forall (fun o => match o with
                   | OpAlloc => True
                   | OpFree p => 0 <= p /\ p / PAGE_SIZE <> r / PAGE_SIZE
                   end) ops ->
  alloc_frame (foldl run_op s1 ops) = (r2, s2) -> r2 <> r.
Proof.
  intros Hwf Ha Hr Hops Ha2 ->.
  destruct (alloc_frame_ok _ _ _ Hwf Ha Hr) as (f & -> & _ & _ & _ & Hset & _ & Hwf1).
  rewrite Z.div_mul in Hops by done.
  destruct (run_ops_keep ops s1 f Hwf1) as [Hwf2 Hu2]; [by rewrite Hset, Z.eqb_refl | done |].
  destruct (alloc_frame_ok _ _ _ Hwf2 Ha2 Hr) as (f' & Heq & _ & Hu' & _).
  unfold PAGE_SIZE in Heq. assert (f' = f) as -> by lia. congruence.
Qed.

(** The counters [stats] reports are exact: nothing wraps. *)
Lemma stats_exact s : wf s ->
  s_used_frames (stats s) + s_free_frames (stats s) = total_frames s /\
  s_free_frames (stats s) = total_frames s - count_range 0 (total_frames s) (used s) /\
  s_usable_bytes (stats s) = s_free_frames (stats s) * PAGE_SIZE /\
  s_total_bytes (stats s) = total_frames s * PAGE_SIZE.
Proof.
  intros Hwf. pose proof (wf_used_bound s Hwf). pose proof (wf_total s Hwf).
  unfold stats; simpl. rewrite <- (wf_count s Hwf).
  assert (u64 (total_frames s - used_frames s) = total_frames s - used_frames s) as ->.
  { apply u64_small. pmm_unfold. mach. lia. }
  split_and!; [lia | lia | |]; apply u64_small; pmm_unfold; mach; lia.
Qed.

(** ** init: the entries the walk visits *)

Fixpoint mmap_entries (fuel : nat) (mem : Z -> Z) (entry_size ep ee : Z) : option (list MB2MmapEntry) :=
  match fuel with
  | O => None
  | S n =>
      if ep + 24 <=? ee then
        l ← mmap_entries n mem entry_size (ep + entry_size) ee; Some (read_entry mem ep :: l)
      else Some []
  end.

Fixpoint tag_entries (fuel efuel : nat) (mem : Z -> Z) (tptr tend : Z) : option (list MB2MmapEntry) :=
  match fuel with
  | O => None
  | S n =>
      if (tptr <? tend) && negb (tag_type mem tptr =? 0) && negb (tag_size mem tptr =? 0) then
        l1 ← (if tag_type mem tptr =? MB2_TAG_MMAP
              then mmap_entries efuel mem (read32 mem (tptr + 8)) (tptr + 16)
                     (tptr + tag_size mem tptr)
              else Some []);
        l2 ← tag_entries n efuel mem (next_tag mem tptr) tend;
        Some (l1 ++ l2)
      else Some []
  end.

Definition add_entries (acc : gmap Z Z * Z) (l : list MB2MmapEntry) : gmap Z Z * Z :=
  foldl (fun a e => add_entry e a) acc l.

Lemma mmap_loop_entries fuel mem es ep ee acc :
  mmap_loop fuel mem es ep ee acc = add_entries acc <$> mmap_entries fuel mem es ep ee.
Proof.
  revert ep acc. induction fuel as [| n IH]; intros ep acc; simpl; [done |].
  destruct (ep + 24 <=? ee); [| done]. rewrite IH. by destruct (mmap_entries _ _ _ _ _).
Qed.

Lemma tag_loop_entries fuel efuel mem tptr tend acc :
  tag_loop fuel efuel mem tptr tend acc = add_entries acc <$> tag_entries fuel efuel mem tptr tend.
Proof.
  revert tptr acc. induction fuel as [| n IH]; intros tptr acc; simpl; [done |].
  destruct (tptr <? tend); simpl; [| done].
  destruct (tag_type mem tptr =? 0); simpl; [done |].
  destruct (tag_size mem tptr =? 0); simpl; [done |].
  destruct (tag_type mem tptr =? MB2_TAG_MMAP).
  - rewrite mmap_loop_entries. destruct (mmap_entries _ _ _ _ _) as [l1 |]; simpl; [| done].
    rewrite IH. destruct (tag_entries _ _ _ _ _) as [l2 |]; simpl; [| done].
    unfold add_entries. by rewrite foldl_app.
  - simpl. rewrite IH. by destruct (tag_entries _ _ _ _ _).
Qed.

(** ** init: effect on the bitmap *)

Lemma for_set_free a b g m : bytes_ok m ->
  bytes_ok (for_range a b set_free m) /\
  is_used g (for_range a b set_free m) = is_used g m && negb ((a <=? g) && (g <? b)).
Proof.
  revert m. pattern a. apply range_ind with b; clear a.
  - intros a ? m Hm. rewrite for_range_done by lia. split; [done |].
    destruct (Z.leb_spec a g), (Z.ltb_spec g b); simpl; try lia; by rewrite andb_true_r.
  - intros a ? IH m Hm. rewrite for_range_cons by lia.
    destruct (IH (set_free a m)) as [? ->]; [by apply set_free_bytes |]. split; [done |].
    rewrite is_used_set_free by done.
    destruct (Z.leb_spec (a + 1) g), (Z.leb_spec a g), (Z.ltb_spec g b), (Z.eqb_spec g a);
      simpl; try lia; by rewrite ?andb_true_r, ?andb_false_r.
Qed.

Lemma for_set_used a b g m : bytes_ok m ->
  bytes_ok (for_range a b set_used m) /\
  is_used g (for_range a b set_used m) = is_used g m || ((a <=? g) && (g <? b)).
Proof.
  revert m. pattern a. apply range_ind with b; clear a.
  - intros a ? m Hm. rewrite for_range_done by lia. split; [done |].
    destruct (Z.leb_spec a g), (Z.ltb_spec g b); simpl; try lia; by rewrite orb_false_r.
  - intros a ? IH m Hm. rewrite for_range_cons by lia.
    destruct (IH (set_used a m)) as [? ->]; [by apply set_used_bytes |]. split; [done |].
    rewrite is_used_set_used by done.
    destruct (Z.leb_spec (a + 1) g), (Z.leb_spec a g), (Z.ltb_spec g b), (Z.eqb_spec g a);
      simpl; try lia; by rewrite ?orb_true_r, ?orb_false_r.
Qed.

Lemma fill_used_spec m i : byte_at (fill_used m) i =
  if decide (0 <= i < BITMAP_BYTES) then 0xFF else byte_at m i.
Proof.
  unfold fill_used.
  assert (forall a, 0 <= a ->
    byte_at (for_range a BITMAP_BYTES (fun i b => <[i := 0xFF]> b) m) i =
    if decide (a <= i < BITMAP_BYTES) then 0xFF else byte_at m i) as H; [| by apply H].
  intros a. generalize BITMAP_BYTES as b. intros b. revert m. pattern a. apply range_ind with b; clear a.
  - intros a ? m ?. rewrite for_range_done by lia. case_decide; [lia | done].
  - intros a ? IH m ?. rewrite for_range_cons, IH by lia. rewrite byte_at_insert.
    repeat case_decide; try lia; done.
Qed.

Lemma fill_used_used m g : 0 <= g < MAX_FRAMES -> is_used g (fill_used m) = true.
Proof.
  intros Hg. rewrite is_used_testbit, fill_used_spec. rewrite decide_True.
  - change 0xFF with (Z.ones 8). apply Z.ones_spec_low, Z.mod_pos_bound. lia.
  - unfold BITMAP_BYTES. pmm_unfold. divlia.
Qed.

(** The frames one entry of the memory map releases. *)
Definition releases (e : MB2MmapEntry) (g : Z) : bool :=
  (type e =? MB2_MMAP_USABLE) && (u64 (base e + PAGE_SIZE - 1) / PAGE_SIZE <=? g) &&
  (g <? Z.min (u64 (base e + length e) / PAGE_SIZE) MAX_FRAMES).

Lemma add_entries_spec es b top g : bytes_ok b ->
  bytes_ok (fst (add_entries (b, top) es)) /\
  is_used g (fst (add_entries (b, top) es)) =
    is_used g b && negb (existsb (fun e => releases e g) es).
Proof.
  revert b top. induction es as [| e es IH]; intros b top Hb; simpl.
  { by rewrite andb_true_r. }
  set (top' := if u64 (base e + length e) >? top then _ else _).
  destruct (type e =? MB2_MMAP_USABLE) eqn:Ht.
  - destruct (for_set_free (u64 (base e + PAGE_SIZE - 1) / PAGE_SIZE)
      (Z.min (u64 (base e + length e) / PAGE_SIZE) MAX_FRAMES) g b Hb) as [Hb' Hg].
    edestruct (IH _ top' Hb') as [? ->]. split; [done |]. rewrite Hg.
    unfold releases at 2. rewrite Ht. simpl. by rewrite negb_orb, andb_assoc.
  - edestruct (IH b top' Hb) as [? ->]. split; [done |]. unfold releases at 2. by rewrite Ht.
Qed.

(** The end of the highest region, which does not depend on the bitmap. *)
Definition top_of (es : list MB2MmapEntry) : Z :=
  foldl (fun top e => Z.max top (u64 (base e + length e))) 0 es.

Lemma add_entries_top es b top :
  snd (add_entries (b, top) es) =
  foldl (fun top e => Z.max top (u64 (base e + length e))) top es.
Proof.
  revert b top. induction es as [| e es IH]; intros b top; simpl; [done |].
  rewrite IH. f_equal. destruct (Z.gtb_spec (u64 (base e + length e)) top); lia.
Qed.

Lemma top_of_nonneg es : 0 <= top_of es.
Proof.
  unfold top_of. assert (forall t, 0 <= t ->
    0 <= foldl (fun top e => Z.max top (u64 (base e + length e))) t es) as H; [| by apply H].
  induction es as [| e es IH]; intros t Ht; simpl; [done | apply IH; lia].
Qed.

(** [init] after a walk that visits [es]. *)
Definition applied (es : list MB2MmapEntry) (kernel_end : Z) : state :=
  let b := for_range 0 (reserve_end kernel_end) set_used
             (fst (add_entries (fill_used ∅, 0) es)) in
  let total := clamp_frames (top_of es) in
  State b total (for_range 0 total (fun f n => if is_used f b then u64 (n + 1) else n) 0).

Lemma init_applied fuel efuel mem mb2_info_phys kernel_end es :
  let addr := u32 mb2_info_phys in
  0 < read32 mem addr <= 65536 ->
  tag_entries fuel efuel mem (addr + 8) (addr + read32 mem addr) = Some es ->
  init fuel efuel mem mb2_info_phys kernel_end boot_state = Some (applied es kernel_end).
Proof.
  intros addr Hsize Hes. unfold init. fold addr.
  rewrite (proj2 (Z.eqb_neq (read32 mem addr) 0)) by lia.
  destruct (Z.gtb_spec (read32 mem addr) 65536); [lia |]. cbn [orb].
  rewrite tag_loop_entries, Hes. cbn [fmap option_fmap option_map mbind option_bind].
  unfold applied, top_of. rewrite <- (add_entries_top es (fill_used ∅) 0).
  change (bitmap boot_state) with (∅ : gmap Z Z).
  by destruct (add_entries (fill_used ∅, 0) es).
Qed.

Lemma tally_spec (P : Z -> bool) a b n : 0 <= n -> n + (b - a) < 2 ^ 64 -> a <= b ->
  for_range a b (fun f n => if P f then u64 (n + 1) else n) n = n + count_range a b P.
Proof.
  revert n. pattern a. apply range_ind with b; clear a.
  - intros a ? n ? ? ?. rewrite for_range_done, count_range_done by lia. lia.
  - intros a ? IH n ? ? ?. rewrite for_range_cons, count_range_cons by lia.
    destruct (P a); simpl; [rewrite u64_small by (mach; lia) |]; rewrite IH by (mach; lia); lia.
Qed.

Lemma reserve_end_spec kernel_end : 0 <= kernel_end <= MAX_FRAMES * PAGE_SIZE ->
  reserve_end kernel_end = (kernel_end + PAGE_SIZE - 1) / PAGE_SIZE.
Proof.
  intros Hk. unfold reserve_end, round_up. pmm_unfold.
  rewrite (u64_small (kernel_end + 4096 - 1)) by (mach; lia).
  change (Z.lnot (4096 - 1)) with (Z.lnot (2 ^ 12 - 1)). unfold u64 at 2.
  rewrite land_align by (pow2; lia).
  rewrite u64_small by (mach; divlia). pow2. divlia.
Qed.

Lemma clamp_frames_bound top : 0 <= top -> 0 <= clamp_frames top <= IDENTITY_MAP_LIMIT_FRAMES.
Proof.
  intros. unfold clamp_frames. assert (0 <= top / PAGE_SIZE) by (apply Z.div_pos; unfold PAGE_SIZE; lia).
  change IDENTITY_MAP_LIMIT_FRAMES with 262144. rewrite max_frames_val.
  destruct (Z.gtb_spec (top / PAGE_SIZE) 1048576); simpl; [lia |].
  destruct (Z.gtb_spec (top / PAGE_SIZE) 262144); lia.
Qed.

(** A frame is usable memory when some entry of type 1 covers all of it. *)
Definition usable (es : list MB2MmapEntry) (f : Z) : Prop :=
  exists e, e ∈ es /\ type e = MB2_MMAP_USABLE /\
    base e <= f * PAGE_SIZE /\ (f + 1) * PAGE_SIZE <= base e + length e.

Definition entry_fits (e : MB2MmapEntry) : Prop :=
  0 <= base e /\ 0 <= length e /\ base e + length e + PAGE_SIZE <= 2 ^ 64.

Lemma releases_usable es g : Forall entry_fits es -> 0 <= g < MAX_FRAMES ->
  existsb (fun e => releases e g) es = true <-> usable es g.
Proof.
  intros Hfit Hg. unfold usable. rewrite existsb_exists. setoid_rewrite list_elem_of_In.
  apply exist_proper; intros e. apply and_iff_ctx. intros Hin.
  rewrite <- list_elem_of_In in Hin. rewrite Forall_forall in Hfit. apply Hfit in Hin as (? & ? & Hsum).
  unfold releases. rewrite !andb_true_iff, Z.eqb_eq, Z.leb_le, Z.ltb_lt.
  pmm_unfold. rewrite !u64_small by (mach; lia). split.
  - intros [[? ?] ?]. split_and!; [done | divlia | divlia].
  - intros (? & ? & ?). split_and!; [done | divlia |].
    assert (g < (base e + length e) / 4096) by divlia. lia.
Qed.


(** ** init: termination *)

(** The addresses at which the walk reads a tag. *)
Inductive tag_at (mem : Z -> Z) (first tend : Z) : Z -> Prop :=
| tag_first : tag_at mem first tend first
| tag_next t : tag_at mem first tend t -> t < tend ->
    tag_type mem t <> 0 -> tag_size mem t <> 0 -> tag_at mem first tend (next_tag mem t).

(** A tag the walk gets past: its size does not wrap when rounded up to 8, and
    a memory map has entries of non-zero size. *)
Definition tag_sane (mem : Z -> Z) (t : Z) : Prop :=
  tag_size mem t <= 65536 /\ (tag_type mem t = MB2_TAG_MMAP -> 0 < read32 mem (t + 8)).

Lemma next_tag_advance mem t : tag_size mem t <= 65536 -> tag_size mem t <> 0 ->
  t + 8 <= next_tag mem t.
Proof.
  intros Hs Hn. unfold next_tag. pose proof (read32_bound mem (t + 4)) as Hb. fold (tag_size mem t) in Hb.
  unfold U32 in Hb. rewrite u32_small by (mach; lia). change (Z.lnot 7) with (Z.lnot (2 ^ 3 - 1)).
  unfold u32. rewrite land_align by (mach; lia). pow2. divlia.
Qed.

Lemma mmap_loop_total fuel mem es ep ee acc : 0 < es -> ee - ep < Z.of_nat fuel -> (0 < fuel)%nat ->
  is_Some (mmap_loop fuel mem es ep ee acc).
Proof.
  intros Hes. revert ep acc. induction fuel as [| n IH]; intros ep acc Hlt ?; [lia |]. simpl.
  destruct (Z.leb_spec (ep + 24) ee); [| eauto]. apply IH; lia.
Qed.

Lemma tag_loop_total efuel mem first tend fuel t acc : 65536 < Z.of_nat efuel ->
  (forall t, tag_at mem first tend t -> t < tend -> tag_sane mem t) ->
  tag_at mem first tend t -> tend - t <= 8 * (Z.of_nat fuel - 1) -> (0 < fuel)%nat ->
  is_Some (tag_loop fuel efuel mem t tend acc).
Proof.
  intros He Hsane. revert t acc. induction fuel as [| n IH]; intros t acc Hat Hfuel ?; [lia |].
  simpl. destruct (Z.ltb_spec t tend); [| eauto].
  destruct (Z.eqb_spec (tag_type mem t) 0); [eauto |].
  destruct (Z.eqb_spec (tag_size mem t) 0); [eauto |].
  destruct (Hsane t Hat) as [Hsz Hent]; [done |].
  pose proof (next_tag_advance mem t Hsz n1).
  assert (is_Some (if tag_type mem t =? MB2_TAG_MMAP
    then mmap_loop efuel mem (read32 mem (t + 8)) (t + 16) (t + tag_size mem t) acc
    else Some acc)) as [acc' ->].
  { destruct (Z.eqb_spec (tag_type mem t) MB2_TAG_MMAP); [| eauto].
    apply mmap_loop_total; [by apply Hent | lia | lia]. }
  simpl. apply IH; [by apply tag_next | lia | lia].
Qed.

(** [init] terminates.  If every tag the walk reaches has a size of at most
    64 KiB and every memory map it reaches has a non-zero entry size, the walk
    ends within 8192 tags and 65537 entries per tag, and [init] returns a state. *)
Theorem init_terminates fuel efuel mem mb2_info_phys kernel_end s :
  let addr := u32 mb2_info_phys in
  let tend := addr + read32 mem addr in
  8192 < Z.of_nat fuel -> 65536 < Z.of_nat efuel ->
  (forall t, tag_at mem (addr + 8) tend t -> t < tend -> tag_sane mem t) ->
  is_Some (init fuel efuel mem mb2_info_phys kernel_end s).
Proof.
  intros addr tend Hf He Hsane. unfold init. fold addr.
  destruct (Z.eqb_spec (read32 mem addr) 0); simpl; [eauto |].
  destruct (Z.gtb_spec (read32 mem addr) 65536); simpl; [eauto |]. fold tend.
  destruct (tag_loop_total efuel mem (addr + 8) tend fuel (addr + 8) (fill_used (bitmap s), 0))
    as [[b top] ->]; [done | done | constructor | lia | lia |].
  simpl. eauto.
Qed.

(** A memory map whose entry size is 0 and which has room for one entry keeps
    the entry loop running for ever. *)
Lemma mmap_loop_hangs fuel mem ep ee acc : ep + 24 <= ee -> mmap_loop fuel mem 0 ep ee acc = None.
Proof.
  intros H. revert acc. induction fuel as [| n IH]; intros acc; simpl; [done |].
  destruct (Z.leb_spec (ep + 24) ee); [| lia]. rewrite Z.add_0_r. apply IH.
Qed.

(** ** Concrete runs *)

(** Eight frames, of which 0, 1 and 3 are used. *)
Definition demo : state := State {[0 := 0x0B]} 8 3.

Lemma pmm_demo_wf : wf demo.
Proof.
  split; [| done | done]. intros i. unfold demo; simpl. unfold byte_at.
  destruct (decide (i = 0)) as [-> |]; [by vm_compute |].
  rewrite lookup_singleton_ne by done. by vm_compute.
Qed.

Lemma alloc_frame_refines_witness :
  alloc_frame demo = (8192, snd (alloc_frame demo)) /\ wf (snd (alloc_frame demo)) /\
  frames (snd (alloc_frame demo)) = frames demo ∖ {[2]}.
Proof.
  split; [by vm_compute |].
  destruct (alloc_frame_refines demo 8192 (snd (alloc_frame demo)) pmm_demo_wf ltac:(by vm_compute))
    as (Hwf & _ & [(_ & H & _) | (f & _ & _ & Hr & _ & Hset)]); [discriminate H |].
  split; [done |]. rewrite Hset. unfold PAGE_SIZE in Hr. by assert (f = 2) as -> by lia.
Defined.

Lemma free_frame_refines_witness :
  wf (free_frame 0x3abc demo) /\ frames (free_frame 0x3abc demo) = {[3]} ∪ frames demo.
Proof.
  destruct (free_frame_refines demo 0x3abc pmm_demo_wf ltac:(lia)) as (Hwf & Hf & _).
  split; [done |]. rewrite Hf. by vm_compute.
Defined.

Lemma alloc_frame_exclusive_witness :
  fst (alloc_frame (foldl run_op (snd (alloc_frame demo)) [OpFree 0x3000; OpAlloc])) <> 8192.
Proof.
  apply (alloc_frame_exclusive demo 8192 (snd (alloc_frame demo)) [OpFree 0x3000; OpAlloc]
           (fst (alloc_frame (foldl run_op (snd (alloc_frame demo)) [OpFree 0x3000; OpAlloc])))
           (snd (alloc_frame (foldl run_op (snd (alloc_frame demo)) [OpFree 0x3000; OpAlloc])))).
  - apply pmm_demo_wf.
  - by vm_compute.
  - done.
  - repeat constructor; vm_compute; congruence.
  - by vm_compute.
Defined.

(** A multiboot2 information block at 0x9000: one memory map with 639 KiB of low
    memory, 3 MiB of high memory and a reserved region, then the end tag. *)
Fixpoint le_bytes (n : nat) (x : Z) : list Z :=
  match n with O => [] | S n' => u8 x :: le_bytes n' (Z.shiftr x 8) end.

Definition demo_info : list Z :=
  le_bytes 4 104 ++ le_bytes 4 0 ++
  le_bytes 4 6 ++ le_bytes 4 88 ++ le_bytes 4 24 ++ le_bytes 4 0 ++
  le_bytes 8 0 ++ le_bytes 8 0x9FC00 ++ le_bytes 4 1 ++ le_bytes 4 0 ++
  le_bytes 8 0x100000 ++ le_bytes 8 0x300000 ++ le_bytes 4 1 ++ le_bytes 4 0 ++
  le_bytes 8 0xF0000 ++ le_bytes 8 0x10000 ++ le_bytes 4 2 ++ le_bytes 4 0 ++
  le_bytes 4 0 ++ le_bytes 4 8.

Definition demo_mem (a : Z) : Z :=
  if a <? 0x9000 then 0 else default 0 (demo_info !! Z.to_nat (a - 0x9000)).

Definition demo_entries : list MB2MmapEntry :=
  [MmapEntry 0 0x9FC00 1; MmapEntry 0x100000 0x300000 1; MmapEntry 0xF0000 0x10000 2].


Lemma init_terminates_witness :
  is_Some (init (Z.to_nat 8193) (Z.to_nat 65537) demo_mem 0x9000 0x2FF123 boot_state).
Proof.
  apply (init_terminates (Z.to_nat 8193) (Z.to_nat 65537) demo_mem 0x9000 0x2FF123 boot_state);
    [lia | lia |].
  assert (forall t, tag_at demo_mem 0x9008 0x9068 t -> t = 0x9008 \/ t = 0x9060) as Hat.
  { induction 1 as [| t _ IH Hlt Hty _]; [by left |].
    destruct IH as [-> | ->]; [right; by vm_compute | exfalso; apply Hty; by vm_compute]. }
  change (u32 0x9000) with 0x9000. change (0x9000 + 8) with 0x9008.
  change (0x9000 + read32 demo_mem 0x9000) with 0x9068.
  intros t Ht _. destruct (Hat t Ht) as [-> | ->]; split; vm_compute; congruence.
Defined.
