(* ===== verification/Vmm.v ===== *)
(** * arch/x86_64/vmm.cpp: the virtual memory manager

    Four-level page tables.  A [PageTable*] is the physical address of the
    table, dereferenced through the identity map of the low 1 GiB, so the tables
    live in a physical memory of 64-bit words, a finite map from word address to
    value; a word that was never written reads as 0.  [AddressSpace] is its one
    field, the address of the PML4.  [invlpg] and the log lines have no
    counterpart in the state; loading [cr3] does. *)
From S2P Require Import Prelude.
From S2P Require Pmm.

(** ** Flags and constants *)

Definition FLAG_PRESENT : Z := 1 .<< 0.
Definition FLAG_WRITE : Z := 1 .<< 1.
Definition FLAG_USER : Z := 1 .<< 2.
Definition FLAG_HUGE : Z := 1 .<< 7.
Definition FLAG_NX : Z := 1 .<< 63.
Definition KERNEL_RW : Z := FLAG_PRESENT .| FLAG_WRITE.
Definition USER_RW : Z := FLAG_PRESENT .| FLAG_WRITE .| FLAG_USER.
Definition KERNEL_VIRT_BASE : Z := 0xFFFFFFFF80000000.
Definition USER_CODE_BASE : Z := 0x400000.
Definition USER_STACK_TOP : Z := 0x7FFFFFF000.
Definition USER_STACK_SIZE : Z := 0x40000.

(** ** State *)

Record state := State {
  pmm : Pmm.state;
  mem : gmap Z Z;
  kernel_pml4 : Z;
  cr3 : Z;
}.

Definition set_pmm (p : Pmm.state) (s : state) : state :=
  State p (mem s) (kernel_pml4 s) (cr3 s).
Definition set_cr3 (r : Z) (s : state) : state :=
  State (pmm s) (mem s) (kernel_pml4 s) r.
Definition set_kernel_pml4 (r : Z) (s : state) : state :=
  State (pmm s) (mem s) r (cr3 s).

Definition rd (s : state) (a : Z) : Z := default 0 (mem s !! a).
Definition wr (a v : Z) (s : state) : state :=
  State (pmm s) (<[a := v]> (mem s)) (kernel_pml4 s) (cr3 s).

(** [&t->entries[i]] *)
Definition entry (t i : Z) : Z := t + 8 * i.

(** [x & flag] as a condition *)
Definition has (x flag : Z) : bool := negb (x .& flag =? 0).

(** ** Address decomposition *)

Definition pml4_idx (v : Z) : Z := (v .>> 39) .& 0x1FF.
Definition pdpt_idx (v : Z) : Z := (v .>> 30) .& 0x1FF.
Definition pd_idx (v : Z) : Z := (v .>> 21) .& 0x1FF.
Definition pt_idx (v : Z) : Z := (v .>> 12) .& 0x1FF.

Definition entry_phys (e : Z) : Z := e .& 0x000FFFFFFFFFF000.

(** [e & ~0xFFFULL] *)
Definition strip_flags (e : Z) : Z := e .& u64 (Z.lnot 0xFFF).

(** ** Tables *)

Definition alloc_table (s : state) : Z * state :=
  let '(phys, p) := Pmm.alloc_frame (pmm s) in
  let s := set_pmm p s in
  if phys =? 0 then (0, s)
  else (phys, for_range 0 512 (fun i s => wr (entry phys i) 0 s) s).

Definition get_or_create (e : Z) (flags : Z) (s : state) : Z * state :=
  if has (rd s e) FLAG_PRESENT then
    let s := if has flags FLAG_USER then wr e (rd s e .| FLAG_USER) s else s in
    if has (rd s e) FLAG_HUGE then
      let '(pt, s) := alloc_table s in
      if pt =? 0 then (0, s)
      else
        let huge_phys := entry_phys (rd s e) in
        let eflags := rd s e .& 0xFFF .& u64 (Z.lnot FLAG_HUGE) in
        let s := for_range 0 512
                   (fun i s => wr (entry pt i) (u64 (huge_phys + i * 0x1000) .| eflags) s) s in
        let split_flags := FLAG_PRESENT .| FLAG_WRITE in
        let split_flags := if has flags FLAG_USER then split_flags .| FLAG_USER else split_flags in
        let s := wr e (pt .| split_flags) s in
        (entry_phys (rd s e), s)
    else (entry_phys (rd s e), s)
  else
    let '(child, s) := alloc_table s in
    if child =? 0 then (0, s)
    else (child, wr e (child .| flags) s).

Definition table_flags (flags : Z) : Z :=
  if has flags FLAG_USER then FLAG_PRESENT .| FLAG_WRITE .| FLAG_USER
  else FLAG_PRESENT .| FLAG_WRITE.

Definition map_page (pml4 virt phys flags : Z) (s : state) : bool * state :=
  let tf := table_flags flags in
  let '(pdpt, s) := get_or_create (entry pml4 (pml4_idx virt)) tf s in
  if pdpt =? 0 then (false, s) else
  let '(pd, s) := get_or_create (entry pdpt (pdpt_idx virt)) tf s in
  if pd =? 0 then (false, s) else
  let '(pt, s) := get_or_create (entry pd (pd_idx virt)) tf s in
  if pt =? 0 then (false, s) else
  (true, wr (entry pt (pt_idx virt)) ((phys .& 0x000FFFFFFFFFF000) .| flags) s).

Definition unmap_page (pml4 virt : Z) (s : state) : state :=
  let l4e := rd s (entry pml4 (pml4_idx virt)) in
  if negb (has l4e FLAG_PRESENT) then s else
  let l3e := rd s (entry (entry_phys l4e) (pdpt_idx virt)) in
  if negb (has l3e FLAG_PRESENT) then s else
  let l2e := rd s (entry (entry_phys l3e) (pd_idx virt)) in
  if negb (has l2e FLAG_PRESENT) then s else
  wr (entry (entry_phys l2e) (pt_idx virt)) 0 s.

Definition virt_to_phys (pml4 virt : Z) (s : state) : Z :=
  let l4e := rd s (entry pml4 (pml4_idx virt)) in
  if negb (has l4e FLAG_PRESENT) then 0 else
  let l3e := rd s (entry (entry_phys l4e) (pdpt_idx virt)) in
  if negb (has l3e FLAG_PRESENT) then 0 else
  let l2e := rd s (entry (entry_phys l3e) (pd_idx virt)) in
  if negb (has l2e FLAG_PRESENT) then 0 else
  if has l2e FLAG_HUGE then u64 (entry_phys l2e + (virt .& 0x1FFFFF)) else
  let l1e := rd s (entry (entry_phys l2e) (pt_idx virt)) in
  if negb (has l1e FLAG_PRESENT) then 0 else
  u64 (entry_phys l1e + (virt .& 0xFFF)).

(** ** init *)

(** The 512 huge-page entries that map the first 1 GiB onto itself. *)
Definition fill_identity (pd : Z) : state -> state :=
  for_range 0 512 (fun i s =>
    wr (entry pd i) (i * 0x200000 .| FLAG_PRESENT .| FLAG_WRITE .| FLAG_HUGE) s).

Definition init (s : state) : state :=
  let '(pml4, s) := alloc_table s in
  if pml4 =? 0 then s else
  let s := set_kernel_pml4 pml4 s in
  let '(pdpt, s) := alloc_table s in
  let s := wr (entry pml4 0) (pdpt .| FLAG_PRESENT .| FLAG_WRITE) s in
  let '(pd, s) := alloc_table s in
  let s := wr (entry pdpt 0) (pd .| FLAG_PRESENT .| FLAG_WRITE) s in
  let s := fill_identity pd s in
  let '(hi_pdpt, s) := alloc_table s in
  let s := wr (entry pml4 511) (hi_pdpt .| FLAG_PRESENT .| FLAG_WRITE) s in
  let '(hi_pd, s) := alloc_table s in
  let s := wr (entry hi_pdpt 510) (hi_pd .| FLAG_PRESENT .| FLAG_WRITE) s in
  let s := fill_identity hi_pd s in
  set_cr3 pml4 s.

(** ** User address spaces *)

Definition create_user_space (s : state) : Z * state :=
  let '(pml4, s) := alloc_table s in
  if pml4 =? 0 then (0, s) else
  let s := for_range 0 256 (fun i s => wr (entry pml4 i) 0 s) s in
  let '(low_pdpt, s) := alloc_table s in
  if low_pdpt =? 0 then (pml4, s) else
  let '(low_pd, s) := alloc_table s in
  if low_pd =? 0 then (pml4, set_pmm (Pmm.free_frame low_pdpt (pmm s)) s) else
  let s := wr (entry pml4 0) (low_pdpt .| FLAG_PRESENT .| FLAG_WRITE) s in
  let s := wr (entry low_pdpt 0) (low_pd .| FLAG_PRESENT .| FLAG_WRITE) s in
  let s := fill_identity low_pd s in
  let s := for_range 256 512
             (fun i s => wr (entry pml4 i) (rd s (entry (kernel_pml4 s) i)) s) s in
  (pml4, s).

Definition free_phys (phys : Z) (s : state) : state := set_pmm (Pmm.free_frame phys (pmm s)) s.

(** The new value of [space.pml4] is 0. *)
Definition destroy_user_space (pml4 : Z) (s : state) : state :=
  if pml4 =? 0 then s else
  let s := for_range 0 256 (fun i s =>
    let e := rd s (entry pml4 i) in
    if negb (has e FLAG_PRESENT) then s else
    let pdpt := strip_flags e in
    let s := for_range 0 512 (fun j s =>
      let pe := rd s (entry pdpt j) in
      if negb (has pe FLAG_PRESENT) || has pe FLAG_HUGE then s else
      let pd := strip_flags pe in
      let s := for_range 0 512 (fun k s =>
        let pde := rd s (entry pd k) in
        if negb (has pde FLAG_PRESENT) || has pde FLAG_HUGE then s
        else free_phys (strip_flags pde) s) s in
      free_phys pd s) s in
    free_phys pdpt s) s in
  free_phys pml4 s.

(** The byte loop of the frame copy, word by word: both addresses are 4 KiB
    aligned. *)
Definition copy_frame (src dst : Z) : state -> state :=
  for_range 0 512 (fun i s => wr (dst + 8 * i) (rd s (src + 8 * i)) s).

Definition make_va (i4 i3 i2 i1 : Z) : Z :=
  (i4 .<< 39) .| (i3 .<< 30) .| (i2 .<< 21) .| (i1 .<< 12).

(** The body of the innermost loop of [clone_user_space]; [Some 0] is
    [return {nullptr}]. *)
Definition clone_pte (dst va pte : Z) (s : state) : option Z * state :=
  if negb (has pte FLAG_PRESENT) then (None, s) else
  if negb (has pte FLAG_USER) then (None, s) else
  let src_phys := strip_flags pte in
  let '(dst_phys, p) := Pmm.alloc_frame (pmm s) in
  let s := set_pmm p s in
  if dst_phys =? 0 then (Some 0, destroy_user_space dst s) else
  let '(ok, s) := map_page dst va dst_phys
                    (pte .& (FLAG_PRESENT .| FLAG_WRITE .| FLAG_USER .| FLAG_NX)) s in
  if negb ok then (Some 0, destroy_user_space dst (free_phys dst_phys s)) else
  (None, copy_frame src_phys dst_phys s).

Definition clone_user_space (src : Z) (s : state) : Z * state :=
  let '(dst, s) := create_user_space s in
  if (dst =? 0) || (src =? 0) then (dst, s) else
  let '(r, s) := for_exit 0 256 (fun i4 s =>
    let pml4e := rd s (entry src i4) in
    if negb (has pml4e FLAG_PRESENT) || has pml4e FLAG_HUGE then (None, s) else
    let src_pdpt := strip_flags pml4e in
    for_exit 0 512 (fun i3 s =>
      let pdpte := rd s (entry src_pdpt i3) in
      if negb (has pdpte FLAG_PRESENT) || has pdpte FLAG_HUGE then (None, s) else
      let src_pd := strip_flags pdpte in
      for_exit 0 512 (fun i2 s =>
        let pde := rd s (entry src_pd i2) in
        if negb (has pde FLAG_PRESENT) || has pde FLAG_HUGE then (None, s) else
        let src_pt := strip_flags pde in
        for_exit 0 512 (fun i1 s =>
          clone_pte dst (make_va i4 i3 i2 i1) (rd s (entry src_pt i1)) s) s) s) s) s in
  match r with Some v => (v, s) | None => (dst, s) end.

Definition activate (pml4 : Z) (s : state) : state :=
  let s :=
    if negb (pml4 =? 0) && negb (pml4 =? kernel_pml4 s) then
      let s := if negb (has (rd s (entry pml4 0)) FLAG_PRESENT)
               then wr (entry pml4 0) (rd s (entry (kernel_pml4 s) 0)) s else s in
      for_range 256 512
        (fun i s => wr (entry pml4 i) (rd s (entry (kernel_pml4 s) i)) s) s
    else s in
  set_cr3 pml4 s.

(** ** Entries bit by bit *)

Lemma has_bit x k : 0 <= k -> has x (1 .<< k) = Z.testbit x k.
Proof.
  intros. unfold has. rewrite shiftl_1, land_pow2_testbit by lia.
  destruct (Z.testbit x k); simpl; [| done].
  pose proof (Z.pow_pos_nonneg 2 k). destruct (Z.eqb_spec (2 ^ k) 0); [lia | done].
Qed.

Definition present (e : Z) : bool := Z.testbit e 0.
Definition user (e : Z) : bool := Z.testbit e 2.
Definition huge (e : Z) : bool := Z.testbit e 7.
Arguments present : simpl never.
Arguments user : simpl never.
Arguments huge : simpl never.
Arguments entry_phys : simpl never.

Lemma has_present e : has e FLAG_PRESENT = present e.
Proof. by apply has_bit. Qed.
Lemma has_user e : has e FLAG_USER = user e.
Proof. by apply has_bit. Qed.
Lemma has_huge e : has e FLAG_HUGE = huge e.
Proof. by apply has_bit. Qed.

Lemma entry_phys_bits e j : 0 <= j ->
  Z.testbit (entry_phys e) j = Z.testbit e j && ((12 <=? j) && (j <? 52)).
Proof.
  intros Hj. unfold entry_phys. rewrite Z.land_spec. f_equal.
  change 0x000FFFFFFFFFF000 with (Z.shiftl (Z.ones 40) 12). rewrite Z.shiftl_spec by lia.
  destruct (Z.leb_spec 12 j); simpl.
  - destruct (Z.ltb_spec j 52); [apply Z.ones_spec_low | apply Z.ones_spec_high]; lia.
  - apply Z.testbit_neg_r. lia.
Qed.

Lemma entry_phys_bound e : 0 <= entry_phys e < 2 ^ 52.
Proof.
  assert (0 <= entry_phys e) by (apply Z.land_nonneg; lia). split; [done |].
  apply bounded_bits; [lia | done |]. intros j Hj. rewrite entry_phys_bits by lia.
  destruct (Z.ltb_spec j 52); [lia |]. by rewrite !andb_false_r.
Qed.

(** Low bits of a multiple of [2^k]. *)
Lemma testbit_mod0 k x j : 0 <= j < k -> x mod 2 ^ k = 0 -> Z.testbit x j = false.
Proof.
  intros Hj Hx. rewrite <- (Z.mod_pow2_bits_low x k j) by lia. by rewrite Hx, Z.testbit_0_l.
Qed.

Lemma mod0_testbit k x : 0 <= k -> (forall j, 0 <= j < k -> Z.testbit x j = false) -> x mod 2 ^ k = 0.
Proof.
  intros Hk Hb. apply Z.bits_inj'. intros j Hj. rewrite Z.testbit_0_l.
  destruct (decide (j < k)).
  - rewrite Z.mod_pow2_bits_low by lia. apply Hb. lia.
  - apply Z.mod_pow2_bits_high. lia.
Qed.

Lemma entry_phys_aligned e : entry_phys e mod 2 ^ 12 = 0.
Proof.
  apply mod0_testbit; [lia |]. intros j Hj. rewrite entry_phys_bits by lia.
  destruct (Z.leb_spec 12 j); [lia |]. by rewrite andb_false_r.
Qed.

(** An aligned address or-ed with bits outside the address field. *)
Lemma entry_phys_lor c fl : 0 <= c < 2 ^ 52 -> c mod 2 ^ 12 = 0 -> entry_phys fl = 0 ->
  entry_phys (c .| fl) = c.
Proof.
  intros Hc Hal Hfl. apply Z.bits_inj'. intros j Hj.
  assert (Z.testbit (entry_phys fl) j = false) as Hb by (by rewrite Hfl, Z.testbit_0_l).
  rewrite entry_phys_bits in * by lia. rewrite Z.lor_spec.
  destruct (Z.leb_spec 12 j), (Z.ltb_spec j 52); simpl in *; rewrite ?andb_true_r, ?andb_false_r in *.
  - by rewrite Hb, orb_false_r.
  - symmetry. apply testbit_high with 52; lia.
  - symmetry. apply testbit_mod0 with 12; [lia | done].
  - lia.
Qed.

Lemma entry_phys_idem c : 0 <= c < 2 ^ 52 -> c mod 2 ^ 12 = 0 -> entry_phys c = c.
Proof. intros. rewrite <- (Z.lor_0_r c) at 1. by apply entry_phys_lor. Qed.

Lemma entry_phys_flags fl : 0 <= fl < 2 ^ 12 -> entry_phys fl = 0.
Proof.
  intros. apply Z.bits_inj'. intros j Hj. rewrite entry_phys_bits, Z.testbit_0_l by lia.
  destruct (Z.leb_spec 12 j); [| by rewrite andb_false_r].
  by rewrite (testbit_high 12 fl) by lia.
Qed.

Lemma lor_low_bit c fl j : c mod 2 ^ 12 = 0 -> 0 <= j < 12 ->
  Z.testbit (c .| fl) j = Z.testbit fl j.
Proof. intros Hc Hj. by rewrite Z.lor_spec, (testbit_mod0 12 c) by done. Qed.

Lemma u64_lor a b : U64 a -> U64 b -> U64 (a .| b).
Proof. intros. apply lor_bound; [lia | done | done]. Qed.

(** Indices *)

Lemma land_ones_mod x k : 0 <= k -> Z.land x (2 ^ k - 1) = x mod 2 ^ k.
Proof. intros. rewrite <- Z.land_ones by lia. by rewrite Z.ones_equiv, Z.sub_1_r. Qed.

Lemma pml4_idx_val v : pml4_idx v = (v / 2 ^ 39) mod 512.
Proof. unfold pml4_idx. change 0x1FF with (2 ^ 9 - 1). rewrite land_ones_mod, Z.shiftr_div_pow2 by lia. done. Qed.
Lemma pdpt_idx_val v : pdpt_idx v = (v / 2 ^ 30) mod 512.
Proof. unfold pdpt_idx. change 0x1FF with (2 ^ 9 - 1). rewrite land_ones_mod, Z.shiftr_div_pow2 by lia. done. Qed.
Lemma pd_idx_val v : pd_idx v = (v / 2 ^ 21) mod 512.
Proof. unfold pd_idx. change 0x1FF with (2 ^ 9 - 1). rewrite land_ones_mod, Z.shiftr_div_pow2 by lia. done. Qed.
Lemma pt_idx_val v : pt_idx v = (v / 2 ^ 12) mod 512.
Proof. unfold pt_idx. change 0x1FF with (2 ^ 9 - 1). rewrite land_ones_mod, Z.shiftr_div_pow2 by lia. done. Qed.

Definition idx_ok (i : Z) : Prop := 0 <= i < 512.

Lemma pml4_idx_ok v : idx_ok (pml4_idx v).
Proof. rewrite pml4_idx_val. apply Z.mod_pos_bound. lia. Qed.
Lemma pdpt_idx_ok v : idx_ok (pdpt_idx v).
Proof. rewrite pdpt_idx_val. apply Z.mod_pos_bound. lia. Qed.
Lemma pd_idx_ok v : idx_ok (pd_idx v).
Proof. rewrite pd_idx_val. apply Z.mod_pos_bound. lia. Qed.
Lemma pt_idx_ok v : idx_ok (pt_idx v).
Proof. rewrite pt_idx_val. apply Z.mod_pos_bound. lia. Qed.
#[export] Hint Resolve pml4_idx_ok pdpt_idx_ok pd_idx_ok pt_idx_ok : knail.

(** The four indices and the page offset determine the low 48 bits. *)
Lemma idx_decompose v : v mod 2 ^ 48 =
  pml4_idx v * 2 ^ 39 + pdpt_idx v * 2 ^ 30 + pd_idx v * 2 ^ 21 + pt_idx v * 2 ^ 12 + v mod 2 ^ 12.
Proof.
  rewrite pml4_idx_val, pdpt_idx_val, pd_idx_val, pt_idx_val.
  change (2 ^ 48) with 281474976710656. change (2 ^ 39) with 549755813888.
  change (2 ^ 30) with 1073741824. pow2. divlia.
Qed.

(** ** Memory *)

Lemma rd_wr a v s b : rd (wr a v s) b = if decide (a = b) then v else rd s b.
Proof. unfold rd, wr; simpl. rewrite lookup_insert. by case_decide. Qed.

Lemma rd_wr_eq a v s : rd (wr a v s) a = v.
Proof. rewrite rd_wr. by rewrite decide_True. Qed.
Lemma rd_wr_ne a v s b : a <> b -> rd (wr a v s) b = rd s b.
Proof. intros. rewrite rd_wr. by rewrite decide_False. Qed.

(** Everything but the memory. *)
Definition same_ctl (s s' : state) : Prop :=
  pmm s' = pmm s /\ kernel_pml4 s' = kernel_pml4 s /\ cr3 s' = cr3 s.

Lemma same_ctl_trans s1 s2 s3 : same_ctl s1 s2 -> same_ctl s2 s3 -> same_ctl s1 s3.
Proof. unfold same_ctl. intuition congruence. Qed.

(** Filling a slice of a table. *)
Lemma rd_fill t (g : Z -> Z) a b s :
  let s' := for_range a b (fun i s => wr (entry t i) (g i) s) s in
  (forall i, a <= i < b -> rd s' (entry t i) = g i) /\
  (forall x, (forall i, a <= i < b -> x <> entry t i) -> rd s' x = rd s x) /\
  same_ctl s s'.
Proof.
  cbv zeta. revert s. pattern a. apply range_ind with b; clear a.
  - intros a ? s. rewrite for_range_done by lia. split_and!; [lia | done | done].
  - intros a ? IH s. rewrite for_range_cons by lia.
    destruct (IH (wr (entry t a) (g a) s)) as (Hin & Hout & Hctl). split_and!.
    + intros i Hi. destruct (decide (i = a)) as [-> |]; [| apply Hin; lia].
      rewrite Hout; [apply rd_wr_eq |]. intros j Hj. unfold entry. lia.
    + intros x Hx. rewrite Hout by (intros; apply Hx; lia).
      apply rd_wr_ne. intros <-. apply (Hx a); [lia | done].
    + done.
Qed.

Definition table_ok (s : state) (t : Z) : Prop :=
  exists f, t = f * 4096 /\ 1 <= f < Pmm.total_frames (pmm s) /\ Pmm.used (pmm s) f = true.

(** [s'] differs from [s] by the allocation of the frame at [t]. *)
Record fresh (s s' : state) (t : Z) : Prop := {
  fr_wf : Pmm.wf (pmm s');
  fr_ok : table_ok s' t;
  fr_mono : forall t', table_ok s t' -> table_ok s' t' /\ t' <> t;
}.

Lemma table_ok_range s t : Pmm.wf (pmm s) -> table_ok s t ->
  0 < t < 2 ^ 32 /\ t mod 2 ^ 12 = 0.
Proof.
  intros Hwf (f & -> & Hf & _). pose proof (Pmm.wf_total _ Hwf) as Ht.
  rewrite Pmm.max_frames_val in Ht. pow2. rewrite Z.mod_mul by done. lia.
Qed.

(** Slots of two tables coincide only when the tables and the indices do. *)
Lemma entry_inj t t' i j : t mod 2 ^ 12 = 0 -> t' mod 2 ^ 12 = 0 -> idx_ok i -> idx_ok j ->
  entry t i = entry t' j -> t = t' /\ i = j.
Proof.
  unfold entry, idx_ok. pow2. intros Ht Ht' ? ? ?.
  pose proof (Z.div_mod t 4096). pose proof (Z.div_mod t' 4096). rewrite Ht, Ht' in *. lia.
Qed.

Lemma alloc_table_ok s t s' : Pmm.wf (pmm s) -> alloc_table s = (t, s') -> t <> 0 ->
  fresh s s' t /\
  (forall i, idx_ok i -> rd s' (entry t i) = 0) /\
  (forall x, (forall i, idx_ok i -> x <> entry t i) -> rd s' x = rd s x) /\
  kernel_pml4 s' = kernel_pml4 s /\ cr3 s' = cr3 s.
Proof.
  intros Hwf. unfold alloc_table. destruct (Pmm.alloc_frame (pmm s)) as [r p] eqn:Ha.
  destruct (Z.eqb_spec r 0) as [-> | Hr]; [congruence |].
  pose proof (rd_fill r (fun _ => 0) 0 512 (set_pmm p s)) as Hfill. cbv beta zeta in Hfill. revert Hfill.
  generalize (for_range 0 512 (fun i s => wr (entry r i) 0 s) (set_pmm p s)) as s2.
  intros s2 (Hin & Hout & Hp & Hk & Hc) Heq Ht. injection Heq as <- <-.
  destruct (Pmm.alloc_frame_ok _ _ _ Hwf Ha Hr) as (f & -> & Hf & Hu & _ & Hset & Htot & Hwf').
  split_and!; [| exact Hin | exact Hout | exact Hk | exact Hc].
  split; [by rewrite Hp | |].
  - exists f. rewrite Hp; simpl. rewrite Htot, Hset, Z.eqb_refl. done.
  - intros t' (f' & -> & Hf' & Hu'). split.
    + exists f'. rewrite Hp; simpl. by rewrite Htot, Hset, Hu', orb_true_r.
    + unfold Pmm.PAGE_SIZE. assert (f' <> f) by congruence. lia.
Qed.

(** No frame is left to allocate. *)
Definition out_of_frames (s : state) : Prop := fst (Pmm.alloc_frame (pmm s)) = 0.

Lemma alloc_table_fail s s' : Pmm.wf (pmm s) -> alloc_table s = (0, s') -> s' = s /\ out_of_frames s.
Proof.
  intros Hwf. unfold alloc_table. destruct (Pmm.alloc_frame (pmm s)) as [r p] eqn:Ha.
  destruct (Z.eqb_spec r 0) as [-> | Hr].
  - destruct (Pmm.alloc_frame_fail _ _ Hwf Ha) as [-> _]. intros [= <-].
    split; [by destruct s |]. unfold out_of_frames. by rewrite Ha.
  - generalize (for_range 0 512 (fun i s => wr (entry r i) 0 s) (set_pmm p s)). congruence.
Qed.

(** ** The tree of tables *)

(** The table that entry [i] of table [t] points to. *)
Definition child (s : state) (t i : Z) : option Z :=
  let e := rd s (entry t i) in
  if present e && negb (huge e) then Some (entry_phys e) else None.

(** The table at the end of a path of indices from the root. *)
Definition tab (s : state) (root : Z) (p : list Z) : option Z :=
  foldl (fun o i => t ← o; child s t i) (Some root) p.

Definition path_ok (p : list Z) : Prop := Forall idx_ok p /\ (length p <= 3)%nat.

(** A well-formed address space: a tree of distinct, allocated tables, with huge
    entries only in page directories. *)
Record pt_wf (s : state) (root : Z) : Prop := {
  pw_pmm : Pmm.wf (pmm s);
  pw_mem : forall a, U64 (rd s a);
  pw_tab : forall p t, path_ok p -> tab s root p = Some t -> table_ok s t;
  pw_inj : forall p q t, path_ok p -> path_ok q ->
    tab s root p = Some t -> tab s root q = Some t -> p = q;
  pw_huge : forall p t i, path_ok p -> idx_ok i -> (length p <= 1)%nat ->
    tab s root p = Some t -> present (rd s (entry t i)) = true -> huge (rd s (entry t i)) = false;
  pw_2m : forall p t i, path_ok p -> idx_ok i -> length p = 2%nat ->
    tab s root p = Some t -> present (rd s (entry t i)) = true -> huge (rd s (entry t i)) = true ->
    entry_phys (rd s (entry t i)) mod 2 ^ 21 = 0;
}.

Lemma tab_snoc s root p i : tab s root (p ++ [i]) = (t ← tab s root p; child s t i).
Proof. unfold tab. by rewrite foldl_app. Qed.

Lemma tab_app_None s root p q : tab s root p = None -> tab s root (p ++ q) = None.
Proof.
  intros H. unfold tab in *. rewrite foldl_app, H. clear H.
  induction q as [| i q IH]; simpl; [done | apply IH].
Qed.

Lemma path_ok_snoc p i : path_ok (p ++ [i]) <-> Forall idx_ok p /\ idx_ok i /\ (length p <= 2)%nat.
Proof.
  unfold path_ok. rewrite Forall_app, Forall_singleton, length_app. simpl.
  split; intros; destruct_and!; split_and!; try done; lia.
Qed.

Lemma path_ok_prefix p q : path_ok q -> p `prefix_of` q -> path_ok p.
Proof.
  intros [Hf Hl] [k ->]. apply Forall_app in Hf as [? _]. rewrite length_app in Hl.
  split; [done | lia].
Qed.

Lemma path_ok_3 a b c : idx_ok a -> idx_ok b -> idx_ok c -> path_ok [a; b; c].
Proof. intros. split; [by rewrite ?Forall_cons, Forall_nil | simpl; lia]. Qed.
Lemma path_ok_2 a b : idx_ok a -> idx_ok b -> path_ok [a; b].
Proof. intros. split; [by rewrite ?Forall_cons, Forall_nil | simpl; lia]. Qed.
Lemma path_ok_1 a : idx_ok a -> path_ok [a].
Proof. intros. split; [by rewrite ?Forall_cons, Forall_nil | simpl; lia]. Qed.
Lemma path_ok_0 : path_ok [].
Proof. split; [constructor | simpl; lia]. Qed.
#[export] Hint Resolve path_ok_0 path_ok_1 path_ok_2 path_ok_3 : knail.

(** All table slots but slot [i] at path [p] hold the same entry. *)
Definition slot_frame (s s' : state) (root : Z) (p : list Z) (i : Z) : Prop :=
  forall q t j, path_ok q -> idx_ok j -> tab s root q = Some t -> (q, j) <> (p, i) ->
    rd s' (entry t j) = rd s (entry t j).

Lemma tab_frame s s' root p i q : slot_frame s s' root p i -> path_ok q ->
  ~ (p ++ [i]) `prefix_of` q -> tab s' root q = tab s root q.
Proof.
  intros Hfr. induction q as [| j q IH] using rev_ind; intros Hq Hn; [done |].
  rewrite !tab_snoc. assert (path_ok q) as Hq' by (eapply path_ok_prefix; [done | by exists [j]]).
  apply path_ok_snoc in Hq as (_ & Hj & _).
  rewrite IH; [| done | intros [k ->]; apply Hn; exists (k ++ [j]); by rewrite !app_assoc].
  destruct (tab s root q) as [t |] eqn:Ht; simpl; [| done].
  unfold child. rewrite (Hfr q t j); try done. intros [= -> ->]. by apply Hn.
Qed.

(** Entries the walk cannot tell apart. *)
Definition eqv (e e' : Z) : Prop :=
  present e = present e' /\ huge e = huge e' /\ entry_phys e = entry_phys e'.

Lemma child_eqv s s' t i : eqv (rd s (entry t i)) (rd s' (entry t i)) -> child s' t i = child s t i.
Proof. intros (Hp & Hh & Ha). unfold child. by rewrite Hp, Hh, Ha. Qed.

Lemma tab_eqv s s' root q :
  (forall q t j, path_ok q -> idx_ok j -> tab s root q = Some t ->
    eqv (rd s (entry t j)) (rd s' (entry t j))) ->
  path_ok q -> tab s' root q = tab s root q.
Proof.
  intros He. induction q as [| j q IH] using rev_ind; intros Hq; [done |].
  rewrite !tab_snoc. assert (path_ok q) as Hq' by (eapply path_ok_prefix; [done | by exists [j]]).
  apply path_ok_snoc in Hq as (_ & Hj & _). rewrite IH by done.
  destruct (tab s root q) as [t |] eqn:Ht; simpl; [| done]. apply child_eqv. by eapply He.
Qed.

(** ** Translation in terms of the tree *)

Definition page_path (v : Z) : list Z := [pml4_idx v; pdpt_idx v; pd_idx v].
Definition dir_path (v : Z) : list Z := [pml4_idx v; pdpt_idx v].

Definition leaf_4k (e v : Z) : Z := if present e then u64 (entry_phys e + (v .& 0xFFF)) else 0.
Definition leaf_2m (e v : Z) : Z :=
  if present e && huge e then u64 (entry_phys e + (v .& 0x1FFFFF)) else 0.

Definition translate (s : state) (root v : Z) : Z :=
  match tab s root (page_path v) with
  | Some t => leaf_4k (rd s (entry t (pt_idx v))) v
  | None =>
      match tab s root (dir_path v) with
      | Some t => leaf_2m (rd s (entry t (pd_idx v))) v
      | None => 0
      end
  end.

Lemma page_path_ok v : path_ok (page_path v).
Proof. unfold page_path. auto with knail. Qed.
Lemma dir_path_ok v : path_ok (dir_path v).
Proof. unfold dir_path. auto with knail. Qed.
Lemma page_path_dir v : page_path v = dir_path v ++ [pd_idx v].
Proof. done. Qed.
#[export] Hint Resolve page_path_ok dir_path_ok : knail.

(** Above the page directories an entry is absent or points to a table. *)
Lemma child_upper s root q t i : pt_wf s root -> path_ok q -> (length q <= 1)%nat ->
  tab s root q = Some t -> idx_ok i ->
  child s t i = if present (rd s (entry t i)) then Some (entry_phys (rd s (entry t i))) else None.
Proof.
  intros Hwf Hq Hl Ht Hi. unfold child. destruct (present _) eqn:Hp; [| done].
  by rewrite (pw_huge s root Hwf q t i).
Qed.

Lemma virt_to_phys_translate s root v : pt_wf s root -> virt_to_phys root v s = translate s root v.
Proof.
  intros Hwf. unfold virt_to_phys, translate, page_path, dir_path, tab; simpl.
  rewrite !has_present, !has_huge.
  rewrite (child_upper s root [] root (pml4_idx v)) by (auto with knail || (simpl; lia)).
  set (e4 := rd s (entry root (pml4_idx v))).
  destruct (present e4) eqn:Hp4; simpl; [| done].
  assert (tab s root [pml4_idx v] = Some (entry_phys e4)) as Ht3.
  { unfold tab; simpl. rewrite (child_upper s root [] root) by (auto with knail || (simpl; lia)).
    fold e4. by rewrite Hp4. }
  rewrite (child_upper s root [pml4_idx v] (entry_phys e4)) by (auto with knail || (simpl; lia)).
  set (e3 := rd s (entry (entry_phys e4) (pdpt_idx v))).
  destruct (present e3) eqn:Hp3; simpl; [| done].
  set (e2 := rd s (entry (entry_phys e3) (pd_idx v))).
  unfold child. fold e2. destruct (present e2) eqn:Hp2, (huge e2) eqn:Hh2; simpl;
    unfold leaf_2m, leaf_4k; rewrite ?Hp2, ?Hh2; simpl; try done.
  set (e1 := rd s (entry (entry_phys e2) (pt_idx v))). by destruct (present e1).
Qed.

(** ** Changing the tree *)

(** What [map_page] keeps of an address space: well-formedness and every
    translation. *)
Definition keeps (s s' : state) (root : Z) : Prop :=
  pt_wf s' root /\ forall v, translate s' root v = translate s root v.

Lemma keeps_refl s root : pt_wf s root -> keeps s s root.
Proof. by split. Qed.
Lemma keeps_trans s1 s2 s3 root : keeps s1 s2 root -> keeps s2 s3 root -> keeps s1 s3 root.
Proof. intros [_ H1] [Hwf H2]. split; [done |]. intros v. by rewrite H2. Qed.

(** Rewriting entries up to [eqv] changes nothing. *)
Lemma keeps_eqv s s' root : pt_wf s root -> pmm s' = pmm s -> (forall a, U64 (rd s' a)) ->
  (forall q t j, path_ok q -> idx_ok j -> tab s root q = Some t ->
    eqv (rd s (entry t j)) (rd s' (entry t j))) ->
  keeps s s' root /\ forall q, path_ok q -> tab s' root q = tab s root q.
Proof.
  intros Hwf Hpmm Hmem He.
  assert (forall q, path_ok q -> tab s' root q = tab s root q) as Htab by (intros; by apply tab_eqv).
  split; [| done]. split.
  - split; [by rewrite Hpmm; apply Hwf | done | | | |].
    + intros p t Hp. rewrite Htab by done. intros Ht.
      destruct (pw_tab s root Hwf p t Hp Ht) as (f & ? & ?). exists f. by rewrite Hpmm.
    + intros p q t Hp Hq. rewrite !Htab by done. by apply Hwf.
    + intros p t i Hp Hi Hl. rewrite Htab by done. intros Ht.
      destruct (He p t i Hp Hi Ht) as (<- & <- & _). by apply (pw_huge s root Hwf p).
    + intros p t i Hp Hi Hl. rewrite Htab by done. intros Ht.
      destruct (He p t i Hp Hi Ht) as (<- & <- & <-). by apply (pw_2m s root Hwf p).
  - intros v. unfold translate. rewrite !Htab by auto with knail.
    destruct (tab s root (page_path v)) as [t |] eqn:Ht.
    + destruct (He _ t (pt_idx v) (page_path_ok v) (pt_idx_ok v) Ht) as (Hp & _ & Ha).
      unfold leaf_4k. by rewrite Hp, Ha.
    + destruct (tab s root (dir_path v)) as [t |] eqn:Ht2; [| done].
      destruct (He _ t (pd_idx v) (dir_path_ok v) (pd_idx_ok v) Ht2) as (Hp & Hh & Ha).
      unfold leaf_2m. by rewrite Hp, Hh, Ha.
Qed.

Section insert_table.
Context (s s' : state) (root : Z) (p : list Z) (t i c fl : Z).
Hypothesis Hwf : pt_wf s root.
Hypothesis Hpi : path_ok (p ++ [i]).
Hypothesis Ht : tab s root p = Some t.
Hypothesis Hnone : child s t i = None.
Hypothesis Hfresh : fresh s s' c.
Hypothesis Hmem : forall a, U64 (rd s' a).
Hypothesis Hframe : slot_frame s s' root p i.
Hypothesis Hslot : rd s' (entry t i) = c .| fl.
Hypothesis Hfl : 0 <= fl < 2 ^ 12.
Hypothesis Hflp : present fl = true.
Hypothesis Hflh : huge fl = false.
Hypothesis Hempty : (length p < 2)%nat -> forall j, idx_ok j -> present (rd s' (entry c j)) = false.

Lemma insert_path : path_ok p /\ idx_ok i /\ (length p <= 2)%nat.
Proof.
  split; [eapply path_ok_prefix; [done | by exists [i]] |]. by destruct (proj1 (path_ok_snoc p i) Hpi) as (_ & ? & ?).
Qed.

Lemma insert_c : 0 <= c < 2 ^ 52 /\ c mod 2 ^ 12 = 0.
Proof.
  destruct (table_ok_range s' c (fr_wf _ _ _ Hfresh) (fr_ok _ _ _ Hfresh)) as [? ?].
  pow2. split; [lia | done].
Qed.

Lemma insert_old q : path_ok q -> ~ (p ++ [i]) `prefix_of` q -> tab s' root q = tab s root q.
Proof. apply tab_frame, Hframe. Qed.

Lemma insert_entry : present (c .| fl) = true /\ huge (c .| fl) = false /\ entry_phys (c .| fl) = c.
Proof.
  destruct insert_c as [Hc Hal]. unfold present, huge. rewrite !lor_low_bit by (done || lia).
  split_and!; [done | done |]. apply entry_phys_lor; [done | done | by apply entry_phys_flags].
Qed.

Lemma insert_tab : tab s' root p = Some t /\ tab s' root (p ++ [i]) = Some c.
Proof.
  destruct insert_path as (Hp & _). destruct insert_entry as (H1 & H2 & H3).
  assert (tab s' root p = Some t) as Htp.
  { rewrite insert_old; [done | done |]. intros Hpre%prefix_length. rewrite length_app in Hpre.
    simpl in Hpre. lia. }
  split; [done |]. rewrite tab_snoc, Htp. simpl. unfold child. by rewrite Hslot, H1, H2, H3.
Qed.

(** Below the new table there is nothing. *)
Lemma insert_below q : path_ok q -> (p ++ [i]) `prefix_of` q ->
  q = p ++ [i] \/ ((length p < 2)%nat /\ tab s' root q = None).
Proof.
  intros [Hq Hl] [[| j k] ->]; [left; by rewrite app_nil_r | right].
  rewrite !length_app in Hl. simpl in Hl. split; [lia |].
  replace ((p ++ [i]) ++ j :: k) with (((p ++ [i]) ++ [j]) ++ k) by by rewrite <- !app_assoc.
  apply tab_app_None. rewrite tab_snoc. destruct insert_tab as [_ ->]. simpl. unfold child.
  apply Forall_app in Hq as [_ [Hj _]%Forall_cons].
  by rewrite Hempty by (done || lia).
Qed.

(** Every table of [s'] is an old one at the same path, or the new one. *)
Lemma insert_cases q t' : path_ok q -> tab s' root q = Some t' ->
  (q = p ++ [i] /\ t' = c) \/
  (~ (p ++ [i]) `prefix_of` q /\ tab s root q = Some t' /\ t' <> c /\ table_ok s t').
Proof.
  intros Hq Hq'. destruct (decide ((p ++ [i]) `prefix_of` q)) as [Hpre | Hpre].
  - left. destruct (insert_below q Hq Hpre) as [-> | [_ Hn]]; [| congruence].
    destruct insert_tab as [_ Hc]. split; congruence.
  - right. rewrite insert_old in Hq' by done.
    assert (table_ok s t') as Hok by (by apply (pw_tab s root Hwf q)).
    split_and!; try done. by apply (fr_mono _ _ _ Hfresh).
Qed.

Lemma insert_pt_wf : pt_wf s' root.
Proof.
  destruct insert_entry as (He1 & He2 & _). split; [apply Hfresh | done | | | |].
  - intros q t' Hq Hq'. destruct (insert_cases q t' Hq Hq') as [(-> & ->) | (_ & _ & _ & Hok)].
    + apply Hfresh.
    + by apply (fr_mono _ _ _ Hfresh).
  - intros q1 q2 t' Hq1 Hq2 H1 H2.
    destruct (insert_cases q1 t' Hq1 H1) as [(-> & ->) | (_ & Ho1 & Hn1 & _)],
      (insert_cases q2 _ Hq2 H2) as [(-> & ?) | (_ & Ho2 & Hn2 & _)]; try done.
    by apply (pw_inj s root Hwf q1 q2 t').
  - intros q t' j Hq Hj Hl Hq' Hpres.
    destruct (insert_cases q t' Hq Hq') as [(-> & ->) | (_ & Ho & _ & _)].
    + rewrite length_app in Hl; simpl in Hl. rewrite Hempty in Hpres by (done || lia). done.
    + destruct (decide ((q, j) = (p, i))) as [[= -> ->] | Hne].
      * assert (t' = t) as -> by congruence. by rewrite Hslot.
      * rewrite (Hframe q t' j) in * by done. by apply (pw_huge s root Hwf q).
  - intros q t' j Hq Hj Hl Hq' Hpres Hh.
    destruct (insert_cases q t' Hq Hq') as [(-> & ->) | (_ & Ho & _ & _)].
    + rewrite length_app in Hl; simpl in Hl. rewrite Hempty in Hpres by (done || lia). done.
    + destruct (decide ((q, j) = (p, i))) as [[= -> ->] | Hne].
      * assert (t' = t) as -> by congruence. rewrite Hslot in Hh. congruence.
      * rewrite (Hframe q t' j) in * by done. by apply (pw_2m s root Hwf q).
Qed.

(** Addresses whose walk does not use the slot translate as before. *)
Lemma insert_translate_other v : ~ (p ++ [i]) `prefix_of` page_path v ->
  translate s' root v = translate s root v.
Proof.
  intros Hn. unfold translate. destruct insert_path as (_ & _ & Hlen).
  assert (~ (p ++ [i]) `prefix_of` dir_path v) as Hn2.
  { intros Hpre. apply Hn. rewrite page_path_dir. by apply prefix_app_r. }
  rewrite !insert_old by auto with knail.
  destruct (tab s root (page_path v)) as [t' |] eqn:Ht'.
  - rewrite (Hframe (page_path v) t'); auto with knail. intros [= Heq _].
    apply (f_equal length) in Heq. unfold page_path in Heq. simpl in Heq. lia.
  - destruct (tab s root (dir_path v)) as [t' |] eqn:Ht2; [| done].
    rewrite (Hframe (dir_path v) t'); auto with knail. intros [= Heq1 Heq2].
    apply Hn. by rewrite <- Heq1, <- Heq2, page_path_dir.
Qed.
End insert_table.

(** A slot on the walk of [v] is its page-directory slot or one above it. *)
Lemma prefix_page_path p i v : (p ++ [i]) `prefix_of` page_path v ->
  (p = dir_path v /\ i = pd_idx v) \/
  ((length p < 2)%nat /\ (p ++ [i]) `prefix_of` dir_path v).
Proof.
  unfold page_path, dir_path. intros [k Hk].
  destruct p as [| a [| b [| d p]]]; simpl in *; simplify_eq/=.
  - right. split; [lia |]. by exists [pdpt_idx v].
  - right. split; [lia |]. by exists [].
  - by left.
  - destruct p; discriminate.
Qed.

Lemma slot_frame_write s s1 root p t i c w : pt_wf s root -> path_ok (p ++ [i]) ->
  tab s root p = Some t -> c mod 2 ^ 12 = 0 ->
  (forall t', table_ok s t' -> t' <> c) ->
  (forall x, (forall j, idx_ok j -> x <> entry c j) -> rd s1 x = rd s x) ->
  slot_frame s (wr (entry t i) w s1) root p i.
Proof.
  intros Hwf Hpi Ht Hc Hne Hout q t' j Hq Hj Hq' Hqj.
  apply path_ok_snoc in Hpi as Hpi'. destruct Hpi' as (_ & Hi & _).
  assert (path_ok p) as Hp by (apply (path_ok_prefix p (p ++ [i])); [done | by exists [i]]).
  assert (Hal : forall x, table_ok s x -> x mod 2 ^ 12 = 0).
  { intros x Hx. by destruct (table_ok_range s x (pw_pmm _ _ Hwf) Hx). }
  assert (table_ok s t) as Hokt by (by apply (pw_tab s root Hwf p)).
  assert (table_ok s t') as Hok' by (by apply (pw_tab s root Hwf q)).
  rewrite rd_wr_ne.
  - apply Hout. intros k Hk Heq. apply entry_inj in Heq as [Heq _]; auto. by apply (Hne t').
  - intros Heq. apply entry_inj in Heq as [-> ->]; auto. apply Hqj. f_equal.
    by apply (pw_inj s root Hwf q p t').
Qed.

(** Flags a table entry gets: the low twelve bits, present, not huge. *)
Definition tflags (fl : Z) : Prop := 0 <= fl < 2 ^ 12 /\ present fl = true /\ huge fl = false.

Lemma fresh_wr s s' t a v : fresh s s' t -> fresh s (wr a v s') t.
Proof. intros [H1 H2 H3]. by split. Qed.

Lemma rd_wr_u64 s a v : U64 v -> (forall x, U64 (rd s x)) -> forall x, U64 (rd (wr a v s) x).
Proof. intros Hv Hs x. rewrite rd_wr. by case_decide. Qed.

Lemma alloc_table_mem s c s1 : (forall a, U64 (rd s a)) ->
  (forall i, idx_ok i -> rd s1 (entry c i) = 0) ->
  (forall x, (forall i, idx_ok i -> x <> entry c i) -> rd s1 x = rd s x) ->
  forall a, U64 (rd s1 a).
Proof.
  intros Hm Hz Ho a.
  destruct (decide (a mod 8 = c mod 8 /\ c <= a < c + 4096)) as [[Hm8 Hr] | Hn].
  - assert (a = entry c ((a - c) / 8)) as -> by (unfold entry; divlia).
    rewrite Hz by (unfold idx_ok; divlia). mach. lia.
  - rewrite Ho; [apply Hm |]. intros i Hi ->. apply Hn. unfold entry, idx_ok in *. split; [divlia | lia].
Qed.

Lemma tflags_u64 c fl : 0 <= c < 2 ^ 52 -> tflags fl -> U64 (c .| fl).
Proof. intros Hc [Hf _]. apply u64_lor; mach; lia. Qed.

Lemma create_keeps s root p t i c s1 fl : pt_wf s root -> path_ok (p ++ [i]) ->
  tab s root p = Some t -> present (rd s (entry t i)) = false -> tflags fl ->
  alloc_table s = (c, s1) -> c <> 0 ->
  keeps s (wr (entry t i) (c .| fl) s1) root /\
  tab (wr (entry t i) (c .| fl) s1) root (p ++ [i]) = Some c.
Proof.
  intros Hwf Hpi Ht Hpres Hfl Ha Hc0.
  destruct (alloc_table_ok s c s1 (pw_pmm _ _ Hwf) Ha Hc0) as (Hfr & Hz & Ho & _).
  destruct (table_ok_range s1 c (fr_wf _ _ _ Hfr) (fr_ok _ _ _ Hfr)) as [Hcr Hcal].
  assert (path_ok p) as Hp by (apply (path_ok_prefix p (p ++ [i])); [done | by exists [i]]).
  destruct (proj1 (path_ok_snoc p i) Hpi) as (_ & Hi & Hlen).
  assert (t <> c) as Htc.
  { apply (fr_mono _ _ _ Hfr). by apply (pw_tab s root Hwf p). }
  assert (t mod 2 ^ 12 = 0) as Htal.
  { by destruct (table_ok_range s t (pw_pmm _ _ Hwf) (pw_tab s root Hwf p t Hp Ht)). }
  set (s' := wr (entry t i) (c .| fl) s1).
  assert (Hempty : forall j, idx_ok j -> rd s' (entry c j) = 0).
  { intros j Hj. unfold s'. rewrite rd_wr_ne; [by apply Hz |].
    intros Heq. apply entry_inj in Heq as [? _]; done. }
  assert (Hframe : slot_frame s s' root p i).
  { apply slot_frame_write with c; try done. intros t' Hok. by apply (fr_mono _ _ _ Hfr). }
  assert (child s t i = None) as Hnone by (unfold child; by rewrite Hpres).
  pose proof Hfl as (Hf1 & Hf2 & Hf3).
  assert (forall a, U64 (rd s' a)) as Hmem.
  { apply rd_wr_u64; [apply tflags_u64; [mach; lia | done] |].
    by apply (alloc_table_mem s c s1); [apply Hwf | |]. }
  assert (fresh s s' c) as Hfr' by (by apply fresh_wr).
  assert (rd s' (entry t i) = c .| fl) as Hslot by apply rd_wr_eq.
  assert (Hempty' : (length p < 2)%nat -> forall j, idx_ok j -> present (rd s' (entry c j)) = false).
  { intros _ j Hj. by rewrite Hempty. }
  destruct (insert_tab s s' root p t i c fl) as [_ Hnew]; try done.
  split; [| done]. split; [by apply (insert_pt_wf s s' root p t i c fl) |].
  intros v. destruct (decide ((p ++ [i]) `prefix_of` page_path v)) as [Hpre | Hpre];
    [| by apply (insert_translate_other s s' root p i c)].
  assert (translate s root v = 0) as ->.
  { unfold translate. assert (tab s root (p ++ [i]) = None) as Hn by (by rewrite tab_snoc, Ht).
    destruct Hpre as [k Hk]. rewrite Hk, tab_app_None by done.
    destruct (prefix_page_path p i v (ex_intro _ k Hk)) as [[-> ->] | [_ [k' ->]]].
    - rewrite Ht. unfold leaf_2m. by rewrite Hpres.
    - by rewrite tab_app_None. }
  assert (Hbelow : forall q, path_ok q -> (p ++ [i]) `prefix_of` q ->
    q = p ++ [i] \/ ((length p < 2)%nat /\ tab s' root q = None))
    by (intros; by apply (insert_below s s' root p t i c fl)).
  unfold translate.
  destruct (Hbelow (page_path v)) as [-> | [Hl ->]]; auto with knail.
  { rewrite Hnew, Hempty by auto with knail. done. }
  destruct (prefix_page_path p i v Hpre) as [[-> _] | [_ Hpre2]]; [unfold dir_path in Hl; simpl in Hl; lia |].
  destruct (Hbelow (dir_path v)) as [-> | [_ ->]]; auto with knail.
  rewrite Hnew, Hempty by auto with knail. done.
Qed.

(** ** Splitting a 2 MiB page *)

Lemma eflags_ok e : let fl := e .& 0xFFF .& u64 (Z.lnot FLAG_HUGE) in
  0 <= fl < 2 ^ 12 /\ present fl = present e /\ huge fl = false.
Proof.
  cbv zeta. split_and!.
  - apply Z.land_nonneg. left. apply Z.land_nonneg. lia.
  - apply (land_bound_l 12); [lia |]. rewrite Z.land_comm. apply (land_bound_l 12); lia.
  - unfold present. rewrite !Z.land_spec. by rewrite !andb_true_r.
  - unfold huge. rewrite !Z.land_spec. by rewrite andb_false_r.
Qed.

Lemma off_2m v : v .& 0x1FFFFF = pt_idx v * 4096 + (v .& 0xFFF).
Proof.
  rewrite pt_idx_val. change 0x1FFFFF with (2 ^ 21 - 1). change 0xFFF with (2 ^ 12 - 1).
  rewrite !land_ones_mod by lia. pow2. divlia.
Qed.

Lemma off_4k_bound v : 0 <= (v .& 0xFFF) < 4096.
Proof.
  change 0xFFF with (2 ^ 12 - 1). rewrite land_ones_mod by lia. pow2. apply Z.mod_pos_bound. lia.
Qed.

(** The page-table entry that replaces slice [j] of a huge entry [e]. *)
Definition slice (e j : Z) : Z :=
  u64 (entry_phys e + j * 0x1000) .| (e .& 0xFFF .& u64 (Z.lnot FLAG_HUGE)).

Lemma slice_addr e j : entry_phys e mod 2 ^ 21 = 0 -> idx_ok j ->
  0 <= entry_phys e + j * 4096 < 2 ^ 52 /\ (entry_phys e + j * 4096) mod 2 ^ 12 = 0 /\
  u64 (entry_phys e + j * 4096) = entry_phys e + j * 4096.
Proof.
  pose proof (entry_phys_bound e). unfold idx_ok. pow2. intros Hal Hj.
  assert (0 <= entry_phys e + j * 4096 < 4503599627370496) by divlia.
  split_and!; [lia | lia | divlia |]. apply u64_small. mach. lia.
Qed.

Lemma slice_ok e j : entry_phys e mod 2 ^ 21 = 0 -> idx_ok j ->
  U64 (slice e j) /\ present (slice e j) = present e /\
  entry_phys (slice e j) = entry_phys e + j * 4096.
Proof.
  intros Hal Hj. destruct (slice_addr e j Hal Hj) as (Hb & Ha & Hs).
  destruct (eflags_ok e) as (Hf & Hp & _). unfold slice. change 0x1000 with 4096. rewrite Hs.
  split_and!.
  - apply u64_lor; mach; lia.
  - rewrite <- Hp. unfold present. by rewrite lor_low_bit by (done || lia).
  - by apply entry_phys_lor; [| | apply entry_phys_flags].
Qed.

Lemma leaf_slice e v : entry_phys e mod 2 ^ 21 = 0 -> present e = true -> huge e = true ->
  leaf_4k (slice e (pt_idx v)) v = leaf_2m e v.
Proof.
  intros Hal Hp Hh. destruct (slice_ok e (pt_idx v) Hal (pt_idx_ok v)) as (_ & Hp' & Ha).
  unfold leaf_4k, leaf_2m. rewrite Hp', Hp, Hh, Ha, off_2m. simpl. f_equal. lia.
Qed.

Lemma split_keeps s root p t i c s1 fl e : pt_wf s root -> path_ok (p ++ [i]) -> length p = 2%nat ->
  tab s root p = Some t -> e = rd s (entry t i) -> present e = true -> huge e = true -> tflags fl ->
  alloc_table s = (c, s1) -> c <> 0 ->
  let s' := wr (entry t i) (c .| fl) (for_range 0 512 (fun j s => wr (entry c j) (slice e j) s) s1) in
  keeps s s' root /\ tab s' root (p ++ [i]) = Some c.
Proof.
  intros Hwf Hpi Hlen Ht He Hpres Hh Hfl Ha Hc0. cbv zeta.
  destruct (alloc_table_ok s c s1 (pw_pmm _ _ Hwf) Ha Hc0) as (Hfr & Hz & Ho & _).
  destruct (table_ok_range s1 c (fr_wf _ _ _ Hfr) (fr_ok _ _ _ Hfr)) as [Hcr Hcal].
  assert (path_ok p) as Hp by (apply (path_ok_prefix p (p ++ [i])); [done | by exists [i]]).
  destruct (proj1 (path_ok_snoc p i) Hpi) as (_ & Hi & _).
  assert (t <> c) as Htc by (apply (fr_mono _ _ _ Hfr); by apply (pw_tab s root Hwf p)).
  assert (entry_phys e mod 2 ^ 21 = 0) as Hal
    by (subst e; by apply (pw_2m s root Hwf p)).
  assert (t mod 2 ^ 12 = 0) as Htal.
  { by destruct (table_ok_range s t (pw_pmm _ _ Hwf) (pw_tab s root Hwf p t Hp Ht)). }
  pose proof (rd_fill c (slice e) 0 512 s1) as Hfill. cbv beta zeta in Hfill. revert Hfill.
  generalize (for_range 0 512 (fun j s => wr (entry c j) (slice e j) s) s1) as s2.
  intros s2 (Hin & Hout & Hpm & Hk & Hcr3). set (s' := wr (entry t i) (c .| fl) s2).
  assert (Hnew : forall j, idx_ok j -> rd s' (entry c j) = slice e j).
  { intros j Hj. unfold s'. rewrite rd_wr_ne; [by apply Hin |].
    intros Heq. apply entry_inj in Heq as [? _]; done. }
  assert (Hframe : slot_frame s s' root p i).
  { apply slot_frame_write with c; try done.
    - intros t' Hok. by apply (fr_mono _ _ _ Hfr).
    - intros x Hx. rewrite Hout by done. by apply Ho. }
  pose proof Hfl as (Hf1 & Hf2 & Hf3).
  assert (forall a, U64 (rd s' a)) as Hmem.
  { apply rd_wr_u64; [apply tflags_u64; [mach; lia | done] |]. intros a.
    destruct (decide (Exists (fun j => a = entry c j) (seqZ 0 512))) as [Hex | Hex].
    - apply Exists_exists in Hex as (j & Hj%elem_of_seqZ & ->). rewrite Hin by lia.
      apply slice_ok; [done | unfold idx_ok; lia].
    - rewrite Hout.
      + by apply (alloc_table_mem s c s1); [apply Hwf | |].
      + intros j Hj ->. apply Hex, Exists_exists. exists j. split; [apply elem_of_seqZ; lia | done]. }
  assert (fresh s s' c) as Hfr'.
  { apply fresh_wr. destruct Hfr as [F1 F2 F3]. unfold table_ok in *. by split; unfold table_ok; rewrite ?Hpm. }
  assert (rd s' (entry t i) = c .| fl) as Hslot by apply rd_wr_eq.
  assert (Hempty : (length p < 2)%nat -> forall j, idx_ok j -> present (rd s' (entry c j)) = false) by lia.
  destruct (insert_tab s s' root p t i c fl) as [_ Htab]; try done.
  split; [| done]. split; [by apply (insert_pt_wf s s' root p t i c fl) |].
  intros v. destruct (decide ((p ++ [i]) `prefix_of` page_path v)) as [Hpre | Hpre];
    [| by apply (insert_translate_other s s' root p i c)].
  destruct (prefix_page_path p i v Hpre) as [[-> ->] | [? _]]; [| lia].
  unfold translate. rewrite page_path_dir, Htab, Hnew by auto with knail.
  rewrite tab_snoc, Ht. simpl. unfold child. rewrite <- He, Hpres, Hh. simpl. by apply leaf_slice.
Qed.

(** ** get_or_create *)

Lemma eqv_user e : eqv e (e .| FLAG_USER).
Proof.
  unfold eqv, present, huge. rewrite !Z.lor_spec.
  change (Z.testbit FLAG_USER 0) with false. change (Z.testbit FLAG_USER 7) with false.
  rewrite !orb_false_r. split_and!; [done | done |].
  apply Z.bits_inj'. intros j Hj. rewrite !entry_phys_bits, Z.lor_spec by lia.
  destruct (Z.leb_spec 12 j); [| by rewrite !andb_false_r].
  rewrite (testbit_high 12 FLAG_USER); [by rewrite orb_false_r | done | lia].
Qed.

Lemma set_user_keeps s root a : pt_wf s root ->
  let s' := wr a (rd s a .| FLAG_USER) s in
  keeps s s' root /\ forall q, path_ok q -> tab s' root q = tab s root q.
Proof.
  intros Hwf. apply keeps_eqv; [done | done | |].
  - apply rd_wr_u64; [| apply Hwf]. apply u64_lor; [apply Hwf | done].
  - intros q t j Hq Hj _. rewrite rd_wr. case_decide as Ha; [subst a; apply eqv_user | by split_and!].
Qed.

(** The flags [map_page] passes for intermediate tables. *)
Definition tf_val (fl : Z) : Prop := fl = KERNEL_RW \/ fl = USER_RW.

Lemma table_flags_val fl : tf_val (table_flags fl).
Proof. unfold table_flags, tf_val. destruct (has fl FLAG_USER); [by right | by left]. Qed.

Lemma tf_val_ok fl : tf_val fl -> tflags fl /\
  (if has fl FLAG_USER then FLAG_PRESENT .| FLAG_WRITE .| FLAG_USER else FLAG_PRESENT .| FLAG_WRITE) = fl.
Proof. intros [-> | ->]; (split; [unfold tflags; by split_and! |]); done. Qed.

Lemma alloc_table_rd_old s c s1 root p t i : pt_wf s root -> path_ok (p ++ [i]) ->
  tab s root p = Some t -> alloc_table s = (c, s1) -> c <> 0 -> rd s1 (entry t i) = rd s (entry t i).
Proof.
  intros Hwf Hpi Ht Ha Hc0.
  destruct (alloc_table_ok s c s1 (pw_pmm _ _ Hwf) Ha Hc0) as (Hfr & _ & Ho & _).
  destruct (table_ok_range s1 c (fr_wf _ _ _ Hfr) (fr_ok _ _ _ Hfr)) as [_ Hcal].
  assert (path_ok p) as Hp by (apply (path_ok_prefix p (p ++ [i])); [done | by exists [i]]).
  pose proof (pw_tab s root Hwf p t Hp Ht) as Hok.
  destruct (table_ok_range s t (pw_pmm _ _ Hwf) Hok) as [_ Htal].
  destruct (proj1 (path_ok_snoc p i) Hpi) as (_ & Hi & _).
  apply Ho. intros j Hj Heq. apply entry_inj in Heq as [-> _]; try done.
  by apply (fr_mono _ _ _ Hfr c).
Qed.

Lemma get_or_create_spec s root p t i fl r s' : pt_wf s root -> path_ok (p ++ [i]) ->
  tab s root p = Some t -> tf_val fl -> get_or_create (entry t i) fl s = (r, s') ->
  keeps s s' root /\ (if r =? 0 then out_of_frames s' else tab s' root (p ++ [i]) = Some r).
Proof.
  intros Hwf Hpi Ht Hfl. destruct (tf_val_ok fl Hfl) as [Htf Hsplit].
  destruct (proj1 (path_ok_snoc p i) Hpi) as (_ & Hi & Hlen).
  assert (path_ok p) as Hp by (apply (path_ok_prefix p (p ++ [i])); [done | by exists [i]]).
  unfold get_or_create. rewrite has_present. destruct (present (rd s (entry t i))) eqn:Hpr.
  - (* the entry is present: pick up the state with the USER bit set *)
    set (s0 := if has fl FLAG_USER then _ else s).
    assert (keeps s s0 root /\ (forall q, path_ok q -> tab s0 root q = tab s root q) /\
            present (rd s0 (entry t i)) = true) as ([Hwf0 Htr0] & Htab0 & Hpr0).
    { unfold s0. destruct (has fl FLAG_USER); [| by split_and!; [apply keeps_refl | |]].
      destruct (set_user_keeps s root (entry t i) Hwf) as [Hk Htab].
      split_and!; [done | done |]. rewrite rd_wr_eq. by rewrite <- (proj1 (eqv_user _)). }
    clearbody s0. rewrite <- (Htab0 p Hp) in Ht. rewrite has_huge.
    destruct (huge (rd s0 (entry t i))) eqn:Hh; cbv beta iota zeta.
    + assert (length p = 2%nat) as Hl2.
      { destruct (decide (length p <= 1)%nat); [| lia].
        rewrite (pw_huge s0 root Hwf0 p t i) in Hh; done. }
      destruct (alloc_table s0) as [c s1] eqn:Ha. destruct (Z.eqb_spec c 0) as [-> | Hc0].
      * intros [= <- <-]. apply alloc_table_fail in Ha as [-> ?]; [| apply Hwf0]. split; [by split | done].
      * rewrite Hsplit. rewrite (alloc_table_rd_old s0 c s1 root p t i) by done.
        pose proof (split_keeps s0 root p t i c s1 fl _ Hwf0 Hpi Hl2 Ht eq_refl Hpr0 Hh Htf Ha Hc0)
          as [[Hwf2 Htr2] Htab2].
        change (fun i0 s => wr (entry c i0) (u64 (entry_phys (rd s0 (entry t i)) + i0 * 0x1000)
          .| (rd s0 (entry t i) .& 0xFFF .& u64 (Z.lnot FLAG_HUGE))) s)
          with (fun j s => wr (entry c j) (slice (rd s0 (entry t i)) j) s).
        intros [= <- <-]. rewrite rd_wr_eq. split.
        -- split; [done |]. intros v. by rewrite Htr2.
        -- destruct (alloc_table_ok s0 c s1 (pw_pmm _ _ Hwf0) Ha Hc0) as (Hfr & _).
           destruct (table_ok_range s1 c (fr_wf _ _ _ Hfr) (fr_ok _ _ _ Hfr)) as [Hcr Hcal].
           rewrite entry_phys_lor; [| pow2; lia | done | apply entry_phys_flags, Htf].
           by rewrite (proj2 (Z.eqb_neq c 0) Hc0).
    + intros [= <- <-]. split; [by split |].
      assert (tab s0 root (p ++ [i]) = Some (entry_phys (rd s0 (entry t i)))) as Hch.
      { rewrite tab_snoc, Ht. simpl. unfold child. by rewrite Hpr0, Hh. }
      destruct (table_ok_range s0 _ (pw_pmm _ _ Hwf0) (pw_tab s0 root Hwf0 _ _ Hpi Hch)) as [Hr _].
      destruct (Z.eqb_spec (entry_phys (rd s0 (entry t i))) 0); [lia | done].
  - destruct (alloc_table s) as [c s1] eqn:Ha. destruct (Z.eqb_spec c 0) as [-> | Hc0]; intros [= <- <-].
    + apply alloc_table_fail in Ha as [-> ?]; [| apply Hwf]. split; [by apply keeps_refl | done].
    + rewrite (proj2 (Z.eqb_neq c 0) Hc0). by apply create_keeps.
Qed.

(** ** map_page and unmap_page *)

(** The number of the page of a canonical address. *)
Definition vpage (v : Z) : Z := v mod 2 ^ 48 / 2 ^ 12.

Lemma vpage_idx v w : page_path v = page_path w -> pt_idx v = pt_idx w -> vpage v = vpage w.
Proof.
  unfold page_path. intros [= H4 H3 H2] H1. unfold vpage. rewrite !idx_decompose, H4, H3, H2, H1.
  change (2 ^ 39) with (134217728 * 2 ^ 12). change (2 ^ 30) with (262144 * 2 ^ 12).
  change (2 ^ 21) with (512 * 2 ^ 12). pow2. divlia.
Qed.

Lemma idx_vpage v w : vpage v = vpage w -> page_path v = page_path w /\ pt_idx v = pt_idx w.
Proof.
  unfold vpage, page_path. intros H. rewrite !pml4_idx_val, !pdpt_idx_val, !pd_idx_val, !pt_idx_val.
  change (2 ^ 48) with 281474976710656 in H. change (2 ^ 39) with 549755813888.
  change (2 ^ 30) with 1073741824. pow2.
  split; [f_equal; [| f_equal; [| f_equal]] |]; divlia.
Qed.

(** Writing a page-table slot changes the translation of its page only. *)
Lemma leaf_write s root virt t w : pt_wf s root -> tab s root (page_path virt) = Some t -> U64 w ->
  let s' := wr (entry t (pt_idx virt)) w s in
  pt_wf s' root /\ translate s' root virt = leaf_4k w virt /\
  forall v, vpage v <> vpage virt -> translate s' root v = translate s root v.
Proof.
  intros Hwf Ht Hw s'.
  assert (forall x, table_ok s x -> x mod 2 ^ 12 = 0) as Hal.
  { intros x Hx. by destruct (table_ok_range s x (pw_pmm _ _ Hwf) Hx). }
  assert (slot_frame s s' root (page_path virt) (pt_idx virt)) as Hfr.
  { intros q t' j Hq Hj Hq' Hne. unfold s'. apply rd_wr_ne. intros Heq.
    apply entry_inj in Heq as [<- <-]; auto with knail.
    - apply Hne. f_equal. apply (pw_inj s root Hwf q _ t); auto with knail.
    - apply Hal, (pw_tab s root Hwf _ _ (page_path_ok virt) Ht).
    - apply Hal, (pw_tab s root Hwf _ _ Hq Hq'). }
  assert (forall q, path_ok q -> tab s' root q = tab s root q) as Htab.
  { intros q Hq. apply (tab_frame s s' root _ _ q Hfr Hq). intros Hpre%prefix_length.
    destruct Hq as [_ Hl]. simpl in Hpre. lia. }
  assert (forall q t' j, path_ok q -> idx_ok j -> (length q <= 2)%nat -> tab s root q = Some t' ->
    rd s' (entry t' j) = rd s (entry t' j)) as Hup.
  { intros q t' j Hq Hj Hl Hq'. apply (Hfr q t' j); try done. intros [= -> _]. simpl in Hl. lia. }
  split_and!.
  - split; [apply Hwf | apply rd_wr_u64; [done | apply Hwf] | | | |].
    + intros q t' Hq. rewrite Htab by done. by apply (pw_tab s root Hwf).
    + intros p q t' Hp Hq. rewrite !Htab by done. by apply (pw_inj s root Hwf).
    + intros q t' i Hq Hi Hl. rewrite Htab by done. intros Hq'.
      rewrite (Hup q) by (done || lia). by apply (pw_huge s root Hwf q).
    + intros q t' i Hq Hi Hl. rewrite Htab by done. intros Hq'.
      rewrite (Hup q) by (done || lia). by apply (pw_2m s root Hwf q).
  - unfold translate. rewrite Htab, Ht by auto with knail. unfold s'. by rewrite rd_wr_eq.
  - intros v Hv. unfold translate. rewrite !Htab by auto with knail.
    destruct (tab s root (page_path v)) as [t' |] eqn:Ht'.
    + rewrite (Hfr (page_path v) t'); auto with knail. intros [=]. apply Hv. apply vpage_idx; [| done].
      unfold page_path. congruence.
    + destruct (tab s root (dir_path v)) as [t' |] eqn:Ht2; [| done].
      by rewrite (Hup (dir_path v)) by (auto with knail || (simpl; lia)).
Qed.

(** The three [get_or_create] steps of [map_page]. *)
Definition walk_create (pml4 virt fl : Z) (s : state) : Z * state :=
  let '(pdpt, s) := get_or_create (entry pml4 (pml4_idx virt)) fl s in
  if pdpt =? 0 then (0, s) else
  let '(pd, s) := get_or_create (entry pdpt (pdpt_idx virt)) fl s in
  if pd =? 0 then (0, s) else
  get_or_create (entry pd (pd_idx virt)) fl s.

Lemma map_page_walk pml4 virt phys flags s : map_page pml4 virt phys flags s =
  let '(pt, s) := walk_create pml4 virt (table_flags flags) s in
  if pt =? 0 then (false, s)
  else (true, wr (entry pt (pt_idx virt)) ((phys .& 0x000FFFFFFFFFF000) .| flags) s).
Proof.
  unfold map_page, walk_create. destruct (get_or_create _ _ s) as [pdpt s1].
  destruct (pdpt =? 0); [done |]. destruct (get_or_create _ _ s1) as [pd s2].
  by destruct (pd =? 0).
Qed.

Lemma walk_create_spec s root virt fl r s' : pt_wf s root -> tf_val fl ->
  walk_create root virt fl s = (r, s') ->
  keeps s s' root /\ (if r =? 0 then out_of_frames s' else tab s' root (page_path virt) = Some r).
Proof.
  intros Hwf Hfl. unfold walk_create.
  destruct (get_or_create _ _ s) as [pdpt s1] eqn:H1.
  destruct (get_or_create_spec s root [] root (pml4_idx virt) fl pdpt s1) as [Hk1 Ht1]; auto with knail.
  { apply path_ok_1; auto with knail. }
  destruct (pdpt =? 0); [by intros [= <- <-] |].
  destruct (get_or_create _ _ s1) as [pd s2] eqn:H2.
  destruct (get_or_create_spec s1 root [pml4_idx virt] pdpt (pdpt_idx virt) fl pd s2)
    as [Hk2 Ht2]; auto with knail.
  { apply Hk1. } { apply path_ok_2; auto with knail. }
  pose proof (keeps_trans _ _ _ _ Hk1 Hk2) as Hk12.
  destruct (pd =? 0); [by intros [= <- <-] |]. intros H3.
  destruct (get_or_create_spec s2 root (dir_path virt) pd (pd_idx virt) fl r s')
    as [Hk3 Ht3]; auto with knail.
  { apply Hk2. } { apply path_ok_3; auto with knail. }
  split; [by apply (keeps_trans _ s2) | done].
Qed.

(** Flags a caller of [map_page] passes: a 64-bit value with the present bit and
    no bit of the address field. *)
Definition page_flags (fl : Z) : Prop := U64 fl /\ present fl = true /\ entry_phys fl = 0.

Lemma pte_val phys fl : page_flags fl -> let w := (phys .& 0x000FFFFFFFFFF000) .| fl in
  U64 w /\ forall v, leaf_4k w v = entry_phys phys + (v .& 0xFFF).
Proof.
  intros (Hu & Hp & Ha). change (phys .& 0x000FFFFFFFFFF000) with (entry_phys phys). cbv zeta.
  pose proof (entry_phys_bound phys) as Hb. pose proof (entry_phys_aligned phys) as Hal. split.
  - apply u64_lor; [mach; lia | done].
  - intros v. unfold leaf_4k, present. rewrite lor_low_bit by (done || lia).
    unfold present in Hp. rewrite Hp, entry_phys_lor by done. apply u64_small.
    pose proof (off_4k_bound v). mach. divlia.
Qed.

(** [map_page] in terms of the tree of tables. *)
Lemma map_page_spec s root virt phys flags ok s' : pt_wf s root -> page_flags flags ->
  map_page root virt phys flags s = (ok, s') ->
  pt_wf s' root /\
  (if ok then
     (forall v, vpage v = vpage virt -> translate s' root v = entry_phys phys + (v .& 0xFFF)) /\
     (forall v, vpage v <> vpage virt -> translate s' root v = translate s root v)
   else out_of_frames s' /\ forall v, translate s' root v = translate s root v).
Proof.
  intros Hwf Hfl. rewrite map_page_walk.
  destruct (walk_create root virt (table_flags flags) s) as [pt s1] eqn:Hw.
  destruct (walk_create_spec s root virt _ pt s1 Hwf (table_flags_val flags) Hw) as [[Hwf1 Htr1] Ht].
  destruct (pt =? 0); intros [= <- <-]; [by split_and! |].
  destruct (pte_val phys flags Hfl) as [Hu Hleaf].
  destruct (leaf_write s1 root virt pt _ Hwf1 Ht Hu) as (Hwf2 & Hin & Hout).
  split_and!; [done | |].
  - intros v [Hp Hi]%idx_vpage.
    rewrite <- Hp in Ht. destruct (leaf_write s1 root v pt _ Hwf1 Ht Hu) as (_ & Hv & _).
    rewrite Hi in Hv. by rewrite Hv, Hleaf.
  - intros v Hv. by rewrite Hout, Htr1.
Qed.

(** C2: [map_page] on a well-formed address space.  On success every address of
    the page of [virt] translates into the frame of [phys] and every other page
    keeps its translation, through table creation and the splitting of 2 MiB
    pages alike; on failure no translation changes and the frame allocator is
    exhausted.  The address space stays well formed either way. *)
Theorem map_page_correct s root virt phys flags ok s' :
  pt_wf s root -> page_flags flags -> map_page root virt phys flags s = (ok, s') ->
  pt_wf s' root /\
  (if ok then
     (forall v, vpage v = vpage virt -> virt_to_phys root v s' = entry_phys phys + (v .& 0xFFF)) /\
     (forall v, vpage v <> vpage virt -> virt_to_phys root v s' = virt_to_phys root v s)
   else
     out_of_frames s' /\ forall v, virt_to_phys root v s' = virt_to_phys root v s).
Proof.
  intros Hwf Hfl Hm. destruct (map_page_spec _ _ _ _ _ _ _ Hwf Hfl Hm) as [Hwf' H].
  split; [done |]. destruct ok; destruct H as [H1 H2]; (split; [try done |]); intros v;
    rewrite !virt_to_phys_translate by done; auto.
Qed.

(** The address lies in a 2 MiB page. *)
Definition huge_mapped (s : state) (root v : Z) : bool :=
  match tab s root (dir_path v) with
  | Some t => let e := rd s (entry t (pd_idx v)) in present e && huge e
  | None => false
  end.

Lemma unmap_page_walk s root v : pt_wf s root -> huge_mapped s root v = false ->
  unmap_page root v s = match tab s root (page_path v) with
                        | Some t => wr (entry t (pt_idx v)) 0 s
                        | None => s
                        end.
Proof.
  intros Hwf. unfold huge_mapped, unmap_page, page_path, dir_path, tab; simpl. rewrite !has_present.
  rewrite (child_upper s root [] root (pml4_idx v)) by (auto with knail || (simpl; lia)).
  set (e4 := rd s (entry root (pml4_idx v))).
  destruct (present e4) eqn:Hp4; simpl; [| done].
  assert (tab s root [pml4_idx v] = Some (entry_phys e4)) as Ht3.
  { unfold tab; simpl. rewrite (child_upper s root [] root) by (auto with knail || (simpl; lia)).
    fold e4. by rewrite Hp4. }
  rewrite (child_upper s root [pml4_idx v] (entry_phys e4)) by (auto with knail || (simpl; lia)).
  set (e3 := rd s (entry (entry_phys e4) (pdpt_idx v))).
  destruct (present e3) eqn:Hp3; simpl; [| done].
  unfold child. set (e2 := rd s (entry (entry_phys e3) (pd_idx v))).
  destruct (present e2); simpl; [| done]. by intros ->.
Qed.

(** A page without a page table or a 2 MiB entry is unmapped. *)
Lemma translate_none s root v : tab s root (page_path v) = None -> huge_mapped s root v = false ->
  translate s root v = 0.
Proof.
  intros Ht. unfold translate, huge_mapped. rewrite Ht. destruct (tab s root (dir_path v)); [| done].
  unfold leaf_2m. by intros ->.
Qed.

(** [unmap_page] on a page that is not part of a 2 MiB page makes every
    address of that page untranslatable, leaves every other translation as it
    was and keeps the address space well formed. *)
Theorem unmap_page_correct s root virt : pt_wf s root -> huge_mapped s root virt = false ->
  let s' := unmap_page root virt s in
  pt_wf s' root /\
  (forall v, vpage v = vpage virt -> virt_to_phys root v s' = 0) /\
  (forall v, vpage v <> vpage virt -> virt_to_phys root v s' = virt_to_phys root v s).
Proof.
  intros Hwf Hh. cbv zeta. rewrite unmap_page_walk by done.
  destruct (tab s root (page_path virt)) as [t |] eqn:Ht.
  - assert (U64 0) as Hu by (mach; lia).
    destruct (leaf_write s root virt t 0 Hwf Ht Hu) as (Hwf' & _ & Hout). split_and!; [done | |].
    + intros v [Hp Hi]%idx_vpage. rewrite virt_to_phys_translate by done. rewrite <- Hp in Ht.
      destruct (leaf_write s root v t 0 Hwf Ht Hu) as (_ & Hv & _). by rewrite Hi in Hv.
    + intros v Hv. rewrite !virt_to_phys_translate by done. by apply Hout.
  - split_and!; [done | | done]. intros v [Hp _]%idx_vpage.
    rewrite virt_to_phys_translate by done. apply translate_none; [by rewrite Hp |].
    unfold huge_mapped in *. unfold page_path in Hp. unfold dir_path in *.
    injection Hp as H4 H3 H2. by rewrite H4, H3, H2.
Qed.

(** ** init *)

Definition identity_entry (j : Z) : Z := j * 0x200000 .| FLAG_PRESENT .| FLAG_WRITE .| FLAG_HUGE.

Lemma identity_entry_ok j : idx_ok j -> let e := identity_entry j in
  U64 e /\ present e = true /\ huge e = true /\ entry_phys e = j * 2097152.
Proof.
  unfold idx_ok. intros Hj. cbv zeta. unfold identity_entry. rewrite <- !Z.lor_assoc.
  change (FLAG_PRESENT .| (FLAG_WRITE .| FLAG_HUGE)) with 131. change 0x200000 with 2097152.
  assert ((j * 2097152) mod 2 ^ 12 = 0) as Hal by (pow2; divlia).
  split_and!.
  - apply u64_lor; mach; lia.
  - unfold present. by rewrite lor_low_bit by (done || lia).
  - unfold huge. by rewrite lor_low_bit by (done || lia).
  - apply entry_phys_lor; [pow2; lia | done | by apply entry_phys_flags].
Qed.

Lemma identity_leaf v : leaf_2m (identity_entry (pd_idx v)) v = v .& 0x3FFFFFFF.
Proof.
  destruct (identity_entry_ok (pd_idx v) (pd_idx_ok v)) as (_ & Hp & Hh & Ha).
  unfold leaf_2m. rewrite Hp, Hh, Ha. simpl. rewrite pd_idx_val.
  change 0x1FFFFF with (2 ^ 21 - 1). change 0x3FFFFFFF with (2 ^ 30 - 1).
  rewrite !land_ones_mod by lia. change (2 ^ 30) with 1073741824. pow2.
  replace (v / 2097152 mod 512 * 2097152 + v mod 2097152) with (v mod 1073741824) by divlia.
  apply u64_small. mach. pose proof (Z.mod_pos_bound v 1073741824). lia.
Qed.

(** Filling an empty page directory with identity entries. *)
Lemma fill_identity_spec s root p t : pt_wf s root -> path_ok p -> length p = 2%nat ->
  tab s root p = Some t -> (forall j, idx_ok j -> present (rd s (entry t j)) = false) ->
  let s' := fill_identity t s in
  pt_wf s' root /\ (forall q, path_ok q -> tab s' root q = tab s root q) /\
  (forall v, translate s' root v = if decide (dir_path v = p) then v .& 0x3FFFFFFF else translate s root v) /\
  same_ctl s s' /\ (forall x, (forall i, idx_ok i -> x <> entry t i) -> rd s' x = rd s x).
Proof.
  intros Hwf Hp Hl Ht Hnp. pose proof (rd_fill t identity_entry 0 512 s) as Hfill.
  change (fill_identity t s) with (for_range 0 512 (fun i s => wr (entry t i) (identity_entry i) s) s).
  cbv beta zeta in *. revert Hfill.
  generalize (for_range 0 512 (fun i s => wr (entry t i) (identity_entry i) s) s) as s'.
  intros s' (Hin & Hout & Hctl).
  assert (forall x, table_ok s x -> x mod 2 ^ 12 = 0) as Hal.
  { intros x Hx. by destruct (table_ok_range s x (pw_pmm _ _ Hwf) Hx). }
  pose proof (Hal t (pw_tab s root Hwf p t Hp Ht)) as Halt.
  assert (forall q t' j, path_ok q -> tab s root q = Some t' -> idx_ok j -> q <> p ->
    rd s' (entry t' j) = rd s (entry t' j)) as Hoth.
  { intros q t' j Hq Hq' Hj Hne. apply Hout. intros i Hi Heq.
    apply entry_inj in Heq as [-> _]; auto; [| by apply Hal, (pw_tab s root Hwf q)].
    by apply Hne, (pw_inj s root Hwf q p t). }
  assert (forall q, path_ok q -> tab s' root q = tab s root q) as Htab.
  { induction q as [| j q IH] using rev_ind; intros Hq; [done |].
    assert (path_ok q) as Hq' by (apply (path_ok_prefix q (q ++ [j])); [done | by exists [j]]).
    apply path_ok_snoc in Hq as (_ & Hj & _). rewrite !tab_snoc, IH by done.
    destruct (tab s root q) as [t' |] eqn:Htq; simpl; [| done]. unfold child.
    destruct (decide (q = p)) as [-> |]; [| by rewrite (Hoth q)].
    assert (t' = t) as -> by congruence. rewrite Hnp, Hin by done.
    destruct (identity_entry_ok j Hj) as (_ & -> & -> & _). done. }
  split_and!; [split | done | | done | done].
  - destruct Hctl as [-> _]. apply Hwf.
  - intros a. destruct (decide (Exists (fun j => a = entry t j) (seqZ 0 512))) as [Hex | Hex].
    + apply Exists_exists in Hex as (j & Hj%elem_of_seqZ & ->). rewrite Hin by lia.
      apply identity_entry_ok. unfold idx_ok. lia.
    + rewrite Hout; [apply Hwf |]. intros j Hj ->. apply Hex, Exists_exists.
      exists j. split; [apply elem_of_seqZ; lia | done].
  - intros q t' Hq. rewrite Htab by done. intros Hq'.
    destruct (pw_tab s root Hwf q t' Hq Hq') as (f & ? & ?). exists f. by destruct Hctl as [-> _].
  - intros q r t' Hq Hr. rewrite !Htab by done. by apply (pw_inj s root Hwf).
  - intros q t' i Hq Hi Hlq. rewrite Htab by done. intros Hq'.
    rewrite (Hoth q) by (done || (intros ->; lia)). by apply (pw_huge s root Hwf q).
  - intros q t' i Hq Hi Hlq. rewrite Htab by done. intros Hq'.
    destruct (decide (q = p)) as [-> | Hne].
    + assert (t' = t) as -> by congruence. rewrite Hin by done. intros _ _.
      destruct (identity_entry_ok i Hi) as (_ & _ & _ & ->). by apply Z.mod_mul.
    + rewrite (Hoth q) by done. by apply (pw_2m s root Hwf q).
  - intros v. unfold translate. rewrite !Htab by auto with knail.
    destruct (decide (dir_path v = p)) as [<- | Hne].
    + rewrite page_path_dir, tab_snoc, Ht. simpl. unfold child. rewrite Hnp by auto with knail. simpl.
      rewrite Hin by apply pd_idx_ok. apply identity_leaf.
    + destruct (tab s root (page_path v)) as [t' |] eqn:Ht'.
      * rewrite (Hoth (page_path v)); auto with knail. intros Heq. subst p. simpl in Hl. lia.
      * destruct (tab s root (dir_path v)) as [t' |] eqn:Ht2; [| done].
        rewrite (Hoth (dir_path v)); auto with knail.
Qed.

(** [n] frames are left. *)
Definition avail (n : nat) (s : state) : Prop := (n <= size (Pmm.frames (pmm s)))%nat.

Lemma alloc_table_avail s n c s' : Pmm.wf (pmm s) -> avail (S n) s -> alloc_table s = (c, s') ->
  c <> 0 /\ avail n s'.
Proof.
  unfold avail, alloc_table. intros Hwf Hn. destruct (Pmm.alloc_frame (pmm s)) as [r p] eqn:Ha.
  destruct (Pmm.alloc_frame_avail _ _ _ n Hwf Ha Hn) as [Hr Hn'].
  rewrite (proj2 (Z.eqb_neq r 0) Hr). pose proof (rd_fill r (fun _ => 0) 0 512 (set_pmm p s)) as Hfill.
  cbv beta zeta in Hfill. revert Hfill.
  generalize (for_range 0 512 (fun i s => wr (entry r i) 0 s) (set_pmm p s)) as s2.
  intros s2 (_ & _ & Hp & _) Heq. injection Heq as <- <-. rewrite Hp. done.
Qed.

(** An address space that consists of its zeroed root. *)
Lemma root_spec s c s1 : Pmm.wf (pmm s) -> (forall a, U64 (rd s a)) -> alloc_table s = (c, s1) -> c <> 0 ->
  pt_wf s1 c /\ (forall v, translate s1 c v = 0) /\ (forall j, idx_ok j -> rd s1 (entry c j) = 0).
Proof.
  intros Hwf Hm Ha Hc. destruct (alloc_table_ok s c s1 Hwf Ha Hc) as (Hfr & Hz & Ho & _).
  assert (forall q, path_ok q -> q = [] \/ tab s1 c q = None) as Htab.
  { intros [| j q] [Hq _]; [by left | right]. apply Forall_cons in Hq as [Hj _].
    change (j :: q) with ([j] ++ q). apply tab_app_None. unfold tab; simpl. unfold child. by rewrite Hz. }
  split_and!; [split | | done].
  - apply Hfr.
  - by apply (alloc_table_mem s c s1).
  - intros p t Hp Ht. destruct (Htab p Hp) as [-> | Hn]; [| congruence].
    injection Ht as <-. apply Hfr.
  - intros p q t Hp Hq H1 H2. destruct (Htab p Hp) as [-> |], (Htab q Hq) as [-> |]; congruence.
  - intros p t i Hp Hi _ Ht. destruct (Htab p Hp) as [-> | Hn]; [| congruence].
    injection Ht as <-. by rewrite Hz.
  - intros p t i Hp Hi Hl. destruct (Htab p Hp) as [-> | Hn]; [done | congruence].
  - intros v. unfold translate. destruct (Htab (page_path v)) as [? | ->]; [auto with knail | done |].
    destruct (Htab (dir_path v)) as [? | ->]; [auto with knail | done | done].
Qed.

(** One [alloc_table] and the store that links it, as [init] does them. *)
Lemma create_step s root p t i n fl : pt_wf s root -> path_ok (p ++ [i]) -> tab s root p = Some t ->
  present (rd s (entry t i)) = false -> tflags fl -> avail (S n) s ->
  exists c s1, alloc_table s = (c, s1) /\
    let s' := wr (entry t i) (c .| fl) s1 in
    keeps s s' root /\ tab s' root (p ++ [i]) = Some c /\
    (forall j, idx_ok j -> rd s' (entry c j) = 0) /\ slot_frame s s' root p i /\ avail n s' /\
    kernel_pml4 s' = kernel_pml4 s /\ cr3 s' = cr3 s.
Proof.
  intros Hwf Hpi Ht Hpr Hfl Hav. destruct (alloc_table s) as [c s1] eqn:Ha. exists c, s1.
  split; [done |]. cbv zeta.
  destruct (alloc_table_avail s n c s1 (pw_pmm _ _ Hwf) Hav Ha) as [Hc0 Hav'].
  destruct (create_keeps s root p t i c s1 fl) as [Hk Htab]; try done.
  destruct (alloc_table_ok s c s1 (pw_pmm _ _ Hwf) Ha Hc0) as (Hfr & Hz & Ho & Hkp & Hcr).
  destruct (table_ok_range s1 c (fr_wf _ _ _ Hfr) (fr_ok _ _ _ Hfr)) as [_ Hcal].
  assert (path_ok p) as Hp by (apply (path_ok_prefix p (p ++ [i])); [done | by exists [i]]).
  pose proof (pw_tab s root Hwf p t Hp Ht) as Htok.
  destruct (table_ok_range s t (pw_pmm _ _ Hwf) Htok) as [_ Htal].
  destruct (proj1 (path_ok_snoc p i) Hpi) as (_ & Hi & _).
  split_and!; try done.
  - intros j Hj. rewrite rd_wr_ne; [by apply Hz |]. intros Heq.
    apply entry_inj in Heq as [-> _]; try done. by apply (fr_mono _ _ _ Hfr c).
  - apply slot_frame_write with c; try done. intros t' Hok. by apply (fr_mono _ _ _ Hfr).
Qed.

(** Setting [kernel_pml4] or [cr3] does not touch the tables. *)
Lemma tab_mem s s' root p : mem s' = mem s -> tab s' root p = tab s root p.
Proof.
  intros Hm. induction p as [| i p IH] using rev_ind; [done |]. rewrite !tab_snoc, IH.
  unfold child, rd. by rewrite Hm.
Qed.

Lemma pt_wf_ctl s s' root : mem s' = mem s -> pmm s' = pmm s -> pt_wf s root -> pt_wf s' root.
Proof.
  intros Hm Hp [H1 H2 H3 H4 H5 H6].
  split; intros *; unfold table_ok, rd in *; rewrite ?(tab_mem s s' root), ?Hm, ?Hp by done; eauto.
Qed.

Lemma translate_ctl s s' root v : mem s' = mem s -> translate s' root v = translate s root v.
Proof. intros Hm. unfold translate, rd. by rewrite !(tab_mem s s' root), Hm. Qed.

(** A create step that links a table at slot [i], then one below it at slot [j],
    then the identity fill: how both windows are built. *)
Definition link_identity (root i j : Z) (s : state) : state :=
  let '(pdpt, s) := alloc_table s in
  let s := wr (entry root i) (pdpt .| FLAG_PRESENT .| FLAG_WRITE) s in
  let '(pd, s) := alloc_table s in
  let s := wr (entry pdpt j) (pd .| FLAG_PRESENT .| FLAG_WRITE) s in
  fill_identity pd s.

Lemma init_link s : init s =
  let '(pml4, s) := alloc_table s in
  if pml4 =? 0 then s
  else set_cr3 pml4 (link_identity pml4 511 510 (link_identity pml4 0 0 (set_kernel_pml4 pml4 s))).
Proof.
  unfold init, link_identity. destruct (alloc_table s) as [pml4 s1]. destruct (pml4 =? 0); [done |].
  destruct (alloc_table (set_kernel_pml4 pml4 s1)) as [pdpt s2]. cbv zeta.
  destruct (alloc_table (wr (entry pml4 0) _ s2)) as [pd s3].
  destruct (alloc_table (fill_identity pd _)) as [hi_pdpt s4].
  destruct (alloc_table (wr (entry pml4 511) _ s4)) as [hi_pd s5]. reflexivity.
Qed.

Lemma link_identity_spec s root i j n : pt_wf s root -> idx_ok i -> idx_ok j ->
  present (rd s (entry root i)) = false -> avail (S (S n)) s ->
  let s' := link_identity root i j s in
  pt_wf s' root /\
  (forall v, translate s' root v = if decide (dir_path v = [i; j]) then v .& 0x3FFFFFFF else translate s root v) /\
  (forall k, idx_ok k -> k <> i -> rd s' (entry root k) = rd s (entry root k)) /\
  avail n s' /\ kernel_pml4 s' = kernel_pml4 s /\ cr3 s' = cr3 s.
Proof.
  intros Hwf Hi Hj Hpr Hav. cbv zeta. unfold link_identity. assert (tflags 3) as Htf by done.
  destruct (create_step s root [] root i (S n) 3 Hwf (path_ok_1 i Hi) eq_refl Hpr Htf Hav)
    as (pdpt & s1 & -> & Hk1 & Ht1 & Hz1 & Hf1 & Hav1 & Hkp1 & Hcr1).
  rewrite <- Z.lor_assoc. change (FLAG_PRESENT .| FLAG_WRITE) with 3.
  remember (wr (entry root i) (pdpt .| 3) s1) as s2 eqn:Hs2. clear Hs2.
  simpl app in Ht1. destruct Hk1 as [Hwf2 Htr2].
  assert (present (rd s2 (entry pdpt j)) = false) as Hpr2 by (by rewrite Hz1).
  destruct (create_step s2 root [i] pdpt j n 3 Hwf2 (path_ok_2 i j Hi Hj) Ht1 Hpr2 Htf Hav1)
    as (pd & s3 & -> & Hk3 & Ht3 & Hz3 & Hf3 & Hav3 & Hkp3 & Hcr3).
  rewrite <- Z.lor_assoc. change (FLAG_PRESENT .| FLAG_WRITE) with 3.
  remember (wr (entry pdpt j) (pd .| 3) s3) as s4 eqn:Hs4. clear Hs4. simpl app in Ht3.
  destruct Hk3 as [Hwf4 Htr4].
  assert (forall k, idx_ok k -> present (rd s4 (entry pd k)) = false) as Hnp by (intros; by rewrite Hz3).
  destruct (fill_identity_spec s4 root [i; j] pd Hwf4 (path_ok_2 i j Hi Hj) eq_refl Ht3 Hnp)
    as (Hwf5 & Htab5 & Htr5 & (Hp5 & Hkp5 & Hcr5) & Ho5).
  split_and!; [done | | | | congruence | congruence].
  - intros v. rewrite Htr5. case_decide; [done |]. by rewrite Htr4, Htr2.
  - intros k Hk Hne. rewrite Ho5.
    + rewrite (Hf3 [] root k path_ok_0 Hk eq_refl) by congruence.
      apply (Hf1 [] root k path_ok_0 Hk eq_refl). congruence.
    + intros l Hl Heq. pose proof (pw_tab s4 root Hwf4) as Htok.
      assert (table_ok s4 root) as Hr by (apply (Htok [] root); auto with knail).
      assert (table_ok s4 pd) as Hpd by (apply (Htok [i; j] pd); auto with knail).
      destruct (table_ok_range s4 root (pw_pmm _ _ Hwf4) Hr) as [_ Hra].
      destruct (table_ok_range s4 pd (pw_pmm _ _ Hwf4) Hpd) as [_ Hpa].
      destruct (entry_inj _ _ _ _ Hra Hpa Hk Hl Heq) as [Hrp _].
      assert ([] = [i; j]); [| done].
      apply (pw_inj s4 root Hwf4 _ _ pd); auto with knail. by rewrite <- Hrp.
  - unfold avail. by rewrite Hp5.
Qed.

Definition canonical (v : Z) : Prop := 0 <= v < 2 ^ 47 \/ 2 ^ 64 - 2 ^ 47 <= v < 2 ^ 64.

Lemma low_window v : canonical v -> dir_path v = [0; 0] <-> 0 <= v < 2 ^ 30.
Proof.
  unfold canonical, dir_path. rewrite pml4_idx_val, pdpt_idx_val.
  change (2 ^ 47) with 140737488355328. change (2 ^ 39) with 549755813888. change (2 ^ 30) with 1073741824.
  pow2. intros Hc. split.
  - intros [= H1 H2]. divlia.
  - intros H. rewrite !Z.div_small by lia. done.
Qed.

Lemma high_window v : canonical v ->
  dir_path v = [511; 510] <-> KERNEL_VIRT_BASE <= v < KERNEL_VIRT_BASE + 2 ^ 30.
Proof.
  unfold canonical, dir_path, KERNEL_VIRT_BASE. rewrite pml4_idx_val, pdpt_idx_val.
  change (2 ^ 47) with 140737488355328. change (2 ^ 39) with 549755813888. change (2 ^ 30) with 1073741824.
  pow2. intros Hc. split.
  - intros [= H1 H2]. divlia.
  - intros H. f_equal; [| f_equal]; divlia.
Qed.

Lemma land_1g v : v .& 0x3FFFFFFF = v mod 1073741824.
Proof. change 0x3FFFFFFF with (2 ^ 30 - 1). by rewrite land_ones_mod by lia. Qed.

(** [init], given five free frames, loads [cr3] with the kernel PML4, a
    well-formed address space that maps the first 1 GiB onto itself, the 1 GiB
    window at [KERNEL_VIRT_BASE] onto the same frames, and no other canonical
    address. *)
Theorem init_maps_kernel s : Pmm.wf (pmm s) -> (forall a, U64 (rd s a)) -> avail 5 s ->
  let s' := init s in
  kernel_pml4 s' <> 0 /\ cr3 s' = kernel_pml4 s' /\ pt_wf s' (kernel_pml4 s') /\
  forall v, canonical v -> virt_to_phys (kernel_pml4 s') v s' =
    if decide (0 <= v < 2 ^ 30) then v
    else if decide (KERNEL_VIRT_BASE <= v < KERNEL_VIRT_BASE + 2 ^ 30) then v - KERNEL_VIRT_BASE
    else 0.
Proof.
  intros Hwf Hm Hav. cbv zeta. rewrite init_link. destruct (alloc_table s) as [k s1] eqn:Ha.
  destruct (alloc_table_avail s 4 k s1 Hwf Hav Ha) as [Hk0 Hav1].
  destruct (root_spec s k s1 Hwf Hm Ha Hk0) as (Hwf1 & Htr1 & Hz1).
  rewrite (proj2 (Z.eqb_neq k 0) Hk0).
  assert (pt_wf (set_kernel_pml4 k s1) k) as Hwf2 by (by apply (pt_wf_ctl s1)).
  destruct (link_identity_spec (set_kernel_pml4 k s1) k 0 0 2 Hwf2)
    as (Hwf3 & Htr3 & Hr3 & Hav3 & Hkp3 & _); try done.
  { change (present (rd s1 (entry k 0)) = false). by rewrite Hz1. }
  revert Hwf3 Htr3 Hr3 Hav3 Hkp3. generalize (link_identity k 0 0 (set_kernel_pml4 k s1)) as s3.
  intros s3 Hwf3 Htr3 Hr3 Hav3 Hkp3.
  destruct (link_identity_spec s3 k 511 510 0 Hwf3) as (Hwf4 & Htr4 & _ & _ & Hkp4 & _); try done.
  { rewrite Hr3 by done. change (present (rd s1 (entry k 511)) = false). by rewrite Hz1. }
  revert Hwf4 Htr4 Hkp4. generalize (link_identity k 511 510 s3) as s4. intros s4 Hwf4 Htr4 Hkp4.
  assert (kernel_pml4 (set_cr3 k s4) = k) as -> by (simpl; rewrite Hkp4, Hkp3; done).
  assert (pt_wf (set_cr3 k s4) k) as Hwf5 by (by apply (pt_wf_ctl s4)).
  split_and!; [done | done | done |]. intros v Hv.
  rewrite virt_to_phys_translate by done. rewrite (translate_ctl s4) by done.
  rewrite Htr4, Htr3, (translate_ctl s1), Htr1, land_1g by done.
  pose proof (low_window v Hv) as Hlow. pose proof (high_window v Hv) as Hhigh.
  change (2 ^ 30) with 1073741824 in *. unfold KERNEL_VIRT_BASE in *.
  repeat case_decide; try tauto; try lia; divlia.
Qed.

(** ** What mapping leaves alone *)

(** Allocating a frame keeps every address space well formed. *)
Lemma pt_wf_alloc s root r p : pt_wf s root -> Pmm.alloc_frame (pmm s) = (r, p) -> r <> 0 ->
  pt_wf (set_pmm p s) root.
Proof.
  intros Hwf Ha Hr. destruct (Pmm.alloc_frame_ok _ _ _ (pw_pmm _ _ Hwf) Ha Hr)
    as (f & _ & _ & _ & _ & Hset & Htot & Hwf').
  assert (forall q, tab (set_pmm p s) root q = tab s root q) as Htab by (intros; by apply tab_mem).
  split; [done | apply Hwf | | | |]; intros *; rewrite ?Htab; try apply Hwf.
  intros Hp Ht. destruct (pw_tab s root Hwf _ _ Hp Ht) as (g & -> & Hg & Hu). exists g. simpl.
  by rewrite Htot, Hset, Hu, orb_true_r.
Qed.


Lemma alloc_table_kernel s : kernel_pml4 (snd (alloc_table s)) = kernel_pml4 s.
Proof.
  unfold alloc_table. destruct (Pmm.alloc_frame (pmm s)) as [r p]. destruct (r =? 0); [done |].
  by destruct (rd_fill r (fun _ => 0) 0 512 (set_pmm p s)) as (_ & _ & _ & Hk & _).
Qed.

Lemma get_or_create_kernel e fl s : kernel_pml4 (snd (get_or_create e fl s)) = kernel_pml4 s.
Proof.
  unfold get_or_create. set (s0 := if has fl FLAG_USER then _ else s).
  assert (kernel_pml4 s0 = kernel_pml4 s) as Hs0 by (unfold s0; by destruct (has fl FLAG_USER)).
  destruct (has (rd s e) FLAG_PRESENT).
  - clearbody s0. cbv zeta. destruct (has (rd s0 e) FLAG_HUGE); [| done].
    pose proof (alloc_table_kernel s0) as Hk. destruct (alloc_table s0) as [pt s1].
    destruct (pt =? 0); simpl in *; [congruence |].
    pose proof (rd_fill pt (slice (rd s1 e)) 0 512 s1) as (_ & _ & _ & Hf & _).
    transitivity (kernel_pml4 s1); [exact Hf | congruence].
  - pose proof (alloc_table_kernel s) as Hk. destruct (alloc_table s) as [c s1]. by destruct (c =? 0).
Qed.

Lemma map_page_kernel root virt phys fl s : kernel_pml4 (snd (map_page root virt phys fl s)) = kernel_pml4 s.
Proof.
  unfold map_page.
  pose proof (get_or_create_kernel (entry root (pml4_idx virt)) (table_flags fl) s) as H1.
  destruct (get_or_create _ _ s) as [pdpt s1]. destruct (pdpt =? 0); [done |].
  pose proof (get_or_create_kernel (entry pdpt (pdpt_idx virt)) (table_flags fl) s1) as H2.
  destruct (get_or_create _ _ s1) as [pd s2]. simpl in *. destruct (pd =? 0); [simpl; congruence |].
  pose proof (get_or_create_kernel (entry pd (pd_idx virt)) (table_flags fl) s2) as H3.
  destruct (get_or_create _ _ s2) as [pt s3]. simpl in *. destruct (pt =? 0); simpl; congruence.
Qed.

(** ** Virtual addresses from indices *)

Lemma land_fff v : v .& 0xFFF = v mod 4096.
Proof. change 0xFFF with (2 ^ 12 - 1). by rewrite land_ones_mod by lia. Qed.

Lemma make_va_sum i4 i3 i2 i1 : 0 <= i4 -> idx_ok i3 -> idx_ok i2 -> idx_ok i1 ->
  make_va i4 i3 i2 i1 = i4 * 549755813888 + i3 * 1073741824 + i2 * 2097152 + i1 * 4096.
Proof.
  unfold idx_ok, make_va. intros. rewrite !Z.shiftl_mul_pow2 by lia.
  rewrite (lor_disjoint 39 _ (i3 * _)), (lor_disjoint 30 _ (i2 * _)), (lor_disjoint 21 _ (i1 * _));
    change (2 ^ 39) with 549755813888; change (2 ^ 30) with 1073741824; pow2; try lia; divlia.
Qed.

(** The address [clone_user_space] assembles from four table indices has
    exactly these indices and page offset 0, and every low-half address is
    rebuilt from its own indices and offset. *)
Theorem make_va_indices :
  (forall i4 i3 i2 i1, 0 <= i4 < 256 -> idx_ok i3 -> idx_ok i2 -> idx_ok i1 ->
    let v := make_va i4 i3 i2 i1 in
    pml4_idx v = i4 /\ pdpt_idx v = i3 /\ pd_idx v = i2 /\ pt_idx v = i1 /\ v .& 0xFFF = 0 /\ v < 2 ^ 47) /\
  (forall v, 0 <= v < 2 ^ 47 ->
    make_va (pml4_idx v) (pdpt_idx v) (pd_idx v) (pt_idx v) + (v .& 0xFFF) = v).
Proof.
  change (2 ^ 47) with 140737488355328. split; intros *; [intros H4 H3 H2 H1; cbv zeta | intros Hv].
  - rewrite land_fff, pml4_idx_val, pdpt_idx_val, pd_idx_val, pt_idx_val, make_va_sum by (done || lia).
    change (2 ^ 39) with 549755813888. change (2 ^ 30) with 1073741824.
    unfold idx_ok in *. pow2. split_and!; divlia.
  - rewrite land_fff, make_va_sum; auto with knail; [| apply pml4_idx_ok].
    rewrite pml4_idx_val, pdpt_idx_val, pd_idx_val, pt_idx_val.
    change (2 ^ 39) with 549755813888. change (2 ^ 30) with 1073741824. pow2. divlia.
Qed.

(** ** Examples *)

(** Sixteen frames, of which frame 0 is reserved, and an address space that
    consists of the low identity window. *)
Definition demo_boot : state := State (Pmm.State {[0 := 1]} 16 1) ∅ 0 0.
Definition demo_root : Z := 4096.
Definition demo : state := link_identity demo_root 0 0 (snd (alloc_table demo_boot)).

Lemma demo_boot_ok : Pmm.wf (pmm demo_boot) /\ (forall a, U64 (rd demo_boot a)) /\ avail 15 demo_boot.
Proof.
  split_and!.
  - split; [| by compute | by vm_compute]. intros i. unfold Pmm.byte_at; simpl.
    destruct (decide (i = 0)) as [-> |].
    + rewrite lookup_singleton_eq. simpl. mach. lia.
    + rewrite lookup_singleton_ne by done. simpl. mach. lia.
  - intros a. unfold rd, demo_boot; simpl. rewrite lookup_empty. simpl. mach. lia.
  - apply Nat.leb_le. by vm_compute.
Qed.

Lemma vmm_demo_wf : pt_wf demo demo_root.
Proof.
  destruct demo_boot_ok as (Hwf & Hm & Hav). unfold demo.
  destruct (alloc_table demo_boot) as [c s1] eqn:Ha.
  assert (c = demo_root) as -> by (change c with (fst (c, s1)); rewrite <- Ha; by vm_compute).
  destruct (alloc_table_avail _ 14 _ _ Hwf Hav Ha) as [Hc Hav1].
  destruct (root_spec _ _ _ Hwf Hm Ha Hc) as (Hwf1 & _ & Hz).
  apply (link_identity_spec s1 demo_root 0 0 12); try done. by rewrite Hz.
Qed.

Lemma user_rw_flags : page_flags USER_RW.
Proof. by split_and!. Qed.

(** Mapping one user page splits the 2 MiB identity entry around it. *)
Lemma map_page_correct_witness :
  let s' := snd (map_page demo_root 0x400000 0xA000 USER_RW demo) in
  fst (map_page demo_root 0x400000 0xA000 USER_RW demo) = true /\
  virt_to_phys demo_root 0x400123 s' = 0xA123 /\ virt_to_phys demo_root 0x401123 s' = 0x401123.
Proof.
  assert (fst (map_page demo_root 0x400000 0xA000 USER_RW demo) = true) as Hok by (by vm_compute).
  pose proof (map_page_correct demo demo_root 0x400000 0xA000 USER_RW _ _ vmm_demo_wf user_rw_flags
    (surjective_pairing _)) as [_ H].
  rewrite Hok in H. destruct H as [Hin Hout]. split_and!; [exact Hok | |].
  - rewrite Hin; [by vm_compute | by vm_compute].
  - rewrite Hout; [by vm_compute |]. intros Heq. vm_compute in Heq. discriminate Heq.
Defined.

Definition demo_mapped : state := snd (map_page demo_root 0x400000 0xA000 USER_RW demo).

Lemma unmap_page_correct_witness :
  let s' := unmap_page demo_root 0x400000 demo_mapped in
  virt_to_phys demo_root 0x400123 s' = 0 /\ virt_to_phys demo_root 0x401123 s' = 0x401123.
Proof.
  assert (pt_wf demo_mapped demo_root) as Hwf.
  { unfold demo_mapped. destruct (map_page demo_root 0x400000 0xA000 USER_RW demo) as [ok s'] eqn:Hm.
    exact (proj1 (map_page_spec demo demo_root 0x400000 0xA000 USER_RW ok s' vmm_demo_wf user_rw_flags Hm)). }
  assert (huge_mapped demo_mapped demo_root 0x400000 = false) as Hh by (by vm_compute).
  destruct (unmap_page_correct demo_mapped demo_root 0x400000 Hwf Hh) as (_ & Hin & Hout). split.
  - apply Hin. by vm_compute.
  - rewrite Hout; [by vm_compute |]. intros Heq. vm_compute in Heq. discriminate Heq.
Defined.

(** The processor lets user mode reach [v]: USER at every level of the walk. *)
Definition user_reachable (root v : Z) (s : state) : bool :=
  let l4e := rd s (entry root (pml4_idx v)) in
  let l3e := rd s (entry (entry_phys l4e) (pdpt_idx v)) in
  let l2e := rd s (entry (entry_phys l3e) (pd_idx v)) in
  let l1e := rd s (entry (entry_phys l2e) (pt_idx v)) in
  user l4e && user l3e && user l2e && (huge l2e || user l1e).

(** Mapping one user page inside the identity window opens the other 511 pages
    of its 2 MiB region to user mode: [get_or_create] sets USER on the huge entry
    before it copies the entry's flags to the 512 slices. *)
Lemma user_split_exposes_region :
  user_reachable demo_root 0x401000 demo = false /\
  user_reachable demo_root 0x401000 demo_mapped = true /\
  virt_to_phys demo_root 0x401000 demo_mapped = 0x401000.
Proof. by vm_compute. Qed.

(** [unmap_page] inside a 2 MiB page leaves the translation and clears a word of
    the page's data. *)
Lemma unmap_huge_clears_data :
  let s := wr 0x400000 0xABCD demo in
  let s' := unmap_page demo_root 0x400000 s in
  virt_to_phys demo_root 0x400000 s' = 0x400000 /\ rd s 0x400000 = 0xABCD /\ rd s' 0x400000 = 0.
Proof. by vm_compute. Qed.

Lemma init_maps_kernel_witness :
  let s' := init demo_boot in
  kernel_pml4 s' = 4096 /\ virt_to_phys 4096 0x12345678 s' = 0x12345678 /\
  virt_to_phys 4096 0xFFFFFFFF80100000 s' = 0x100000 /\ virt_to_phys 4096 0x40000000 s' = 0.
Proof.
  destruct demo_boot_ok as (Hwf & Hm & Hav).
  assert (avail 5 demo_boot) as Hav5 by (unfold avail in *; lia).
  destruct (init_maps_kernel demo_boot Hwf Hm Hav5) as (_ & _ & _ & H).
  assert (kernel_pml4 (init demo_boot) = 4096) as Hk by (by vm_compute). rewrite Hk in H.
  split_and!; [exact Hk | | |]; (rewrite H; [reflexivity | unfold canonical; lia]).
Defined.
