(* ===== verification/Alloc.v ===== *)
(** * What the kernel heap promises to its clients

    [kmalloc] and [kfree] (kernel/include/heap.hpp) as an interface: a state, the
    two operations, and the map from user pointer to block size that a state
    stands for.  The virtual file system and the scheduler are proved against
    this interface; [Heap] provides the instance. *)
From S2P Require Import Prelude.

(** The largest request the interface speaks about. *)
Definition max_request : Z := 2 ^ 46.

(** Heap pointers lie between [HEAP_START] and [HEAP_MAX]; no static object of
    the kernel does. *)
Definition heap_range (p : Z) : Prop := 0xFFFF900000000000 < p <= 0xFFFF900040000000.

Class Allocator (S : Type) := {
  kmalloc : Z -> S -> option (Z * S);
  kfree : Z -> S -> option S;
  blocks : S -> gmap Z Z -> Prop;
  kmalloc_law : forall s m n, blocks s m -> 0 < n < max_request ->
    exists r s', kmalloc n s = Some (r, s') /\
      ((r = 0 /\ blocks s' m) \/
       (r <> 0 /\ m !! r = None /\ exists sz, n <= sz /\ blocks s' (<[r := sz]> m)));
  kfree_law : forall s m p, blocks s m -> is_Some (m !! p) ->
    exists s', kfree p s = Some s' /\ blocks s' (delete p m);
  kfree_null : forall s m, blocks s m -> exists s', kfree 0 s = Some s' /\ blocks s' m;
  blocks_disjoint : forall s m p q n k, blocks s m -> m !! p = Some n -> m !! q = Some k -> p <> q ->
    p + n <= q \/ q + k <= p;
  blocks_range : forall s m p n, blocks s m -> m !! p = Some n -> heap_range p;
}.

(** ** A second implementation

    An allocator that never reuses memory: small enough to evaluate, it shows that
    the interface can be met and gives the clients' theorems concrete instances. *)
Module Bump.

Definition base : Z := 0xFFFF900000000010.
Definition limit : Z := 0xFFFF900040000000.

Record state := State { next : Z; live : gmap Z Z }.

Definition kmalloc (n : Z) (s : state) : option (Z * state) :=
  if next s + n <=? limit then Some (next s, State (next s + n) (<[next s := n]> (live s))) else Some (0, s).
Definition kfree (p : Z) (s : state) : option state := Some (State (next s) (delete p (live s))).

Record blocks (s : state) (m : gmap Z Z) : Prop := {
  bl_live : live s = m;
  bl_next : base <= next s;
  bl_block : forall p n, m !! p = Some n -> base <= p /\ 0 < n /\ p + n <= next s /\ p + n <= limit;
  bl_disjoint : forall p q n k, m !! p = Some n -> m !! q = Some k -> p <> q -> p + n <= q \/ q + k <= p;
}.

Lemma bump_malloc s m n : blocks s m -> 0 < n < max_request ->
  exists r s', kmalloc n s = Some (r, s') /\
    ((r = 0 /\ blocks s' m) \/ (r <> 0 /\ m !! r = None /\ exists sz, n <= sz /\ blocks s' (<[r := sz]> m))).
Proof.
  intros [Hl Hn Hb Hd] Hreq. unfold kmalloc. destruct (Z.leb_spec (next s + n) limit) as [Hle | Hgt].
  2: { exists 0, s. split; [done | left]. by split. }
  eexists _, _. split; [done | right]. split_and!; [unfold base in *; lia | |].
  { destruct (m !! next s) as [k |] eqn:Hk; [| done]. specialize (Hb _ _ Hk). lia. }
  exists n. split; [lia |]. split; cbn [live next]; [by rewrite Hl | lia | |].
  - intros p k. rewrite lookup_insert. case_decide as Hp; [intros [= <-]; lia |]. intros Hk. specialize (Hb _ _ Hk). lia.
  - intros p q k j. rewrite !lookup_insert. repeat case_decide; intros Hp Hq Hne; simplify_eq; try done.
    + specialize (Hb _ _ Hq). lia.
    + specialize (Hb _ _ Hp). lia.
    + by apply Hd.
Qed.

Lemma bump_free s m p : blocks s m -> exists s', kfree p s = Some s' /\ blocks s' (delete p m).
Proof.
  intros [Hl Hn Hb Hd]. eexists. split; [done |]. split; cbn [live next]; [by rewrite Hl | done | |].
  - intros q k [_ Hk]%lookup_delete_Some. by apply Hb.
  - intros q r k j [_ Hk]%lookup_delete_Some [_ Hj]%lookup_delete_Some. by apply Hd.
Qed.

#[export] Instance bump_allocator : Allocator state.
Proof.
  refine {| Alloc.kmalloc := kmalloc; Alloc.kfree := kfree; Alloc.blocks := blocks;
            kmalloc_law := bump_malloc; kfree_law := fun s m p Hb _ => bump_free s m p Hb |}.
  - intros s m Hb. destruct (bump_free s m 0 Hb) as (s' & Hf & Hb'). exists s'. split; [done |].
    rewrite delete_id in Hb'; [done |]. destruct (m !! 0) as [k |] eqn:Hk; [| done].
    pose proof (bl_block _ _ Hb _ _ Hk). unfold base in *. lia.
  - intros s m p q n k Hb. apply (bl_disjoint _ _ Hb).
  - intros s m p n Hb Hp. pose proof (bl_block _ _ Hb _ _ Hp). unfold heap_range, base, limit in *. lia.
Defined.

Definition empty : state := State base ∅.

Lemma empty_blocks : blocks empty ∅.
Proof. split; [done | done | intros p n Hp; by rewrite lookup_empty in Hp | intros p q n k Hp; by rewrite lookup_empty in Hp]. Qed.
End Bump.
