(* ===== verification/Heap.v ===== *)
(** * kernel/heap.cpp: the kernel heap

    A first-fit allocator over a doubly linked list of block headers in address
    order.  Headers live in a map from address to [BlockHeader] and user data in
    a map from address to byte: in a well-formed heap the two never share an
    address.  A header that was never written reads as zeroes, so its magic check
    fails.  A loop that does not end and an acquisition of the lock that spins
    forever are [None]; the list walks get one step per header ever written plus
    one, which a list without a cycle never exhausts.  Heap pages come from the
    frame allocator and are mapped into the kernel space of the [Vmm] state. *)
From S2P Require Import Prelude.
From S2P Require Pmm Vmm Alloc.

(** ** Data *)

Definition HEAP_START : Z := 0xFFFF900000000000.
Definition HEAP_MAX : Z := 0xFFFF900040000000.
Definition HEAP_MAGIC : Z := 0xBEEFCAFE.
Definition HEADER_SIZE : Z := 40.
Definition MIN_SPLIT : Z := 32.

Record BlockHeader := Hdr {
  h_size : Z;
  h_free : bool;
  h_next : Z;
  h_prev : Z;
  h_magic : Z;
}.

Definition set_size (x : Z) (b : BlockHeader) := Hdr x (h_free b) (h_next b) (h_prev b) (h_magic b).
Definition set_free (x : bool) (b : BlockHeader) := Hdr (h_size b) x (h_next b) (h_prev b) (h_magic b).
Definition set_next (x : Z) (b : BlockHeader) := Hdr (h_size b) (h_free b) x (h_prev b) (h_magic b).
Definition set_prev (x : Z) (b : BlockHeader) := Hdr (h_size b) (h_free b) (h_next b) x (h_magic b).

Record state := State {
  vmm : Vmm.state;
  hdrs : gmap Z BlockHeader;
  data : gmap Z Z;
  head : Z;
  heap_end : Z;
  alloc_count : Z;
  free_count : Z;
  heap_lock : Z;
}.

Definition set_vmm v s := State v (hdrs s) (data s) (head s) (heap_end s) (alloc_count s) (free_count s) (heap_lock s).
Definition set_hdrs h s := State (vmm s) h (data s) (head s) (heap_end s) (alloc_count s) (free_count s) (heap_lock s).
Definition set_data d s := State (vmm s) (hdrs s) d (head s) (heap_end s) (alloc_count s) (free_count s) (heap_lock s).
Definition set_head a s := State (vmm s) (hdrs s) (data s) a (heap_end s) (alloc_count s) (free_count s) (heap_lock s).
Definition set_heap_end a s := State (vmm s) (hdrs s) (data s) (head s) a (alloc_count s) (free_count s) (heap_lock s).
Definition set_counts a f s := State (vmm s) (hdrs s) (data s) (head s) (heap_end s) a f (heap_lock s).
Definition set_lock l s := State (vmm s) (hdrs s) (data s) (head s) (heap_end s) (alloc_count s) (free_count s) l.

Definition no_header : BlockHeader := Hdr 0 false 0 0 0.
Definition hdr (h : gmap Z BlockHeader) (a : Z) : BlockHeader := default no_header (h !! a).

(** [a->field = x] *)
Definition upd (a : Z) (f : BlockHeader -> BlockHeader) (h : gmap Z BlockHeader) : gmap Z BlockHeader :=
  <[a := f (hdr h a)]> h.

(** [ScopeLock] on the spinlock: acquiring a held lock spins forever on the one
    processor. *)
Definition acquire (s : state) : option state :=
  if heap_lock s =? 0 then Some (set_lock 1 s) else None.
Definition release (s : state) : state := set_lock 0 s.

(** ** expand *)

(** [while (cur->next) cur = cur->next;] *)
Fixpoint last_block (fuel : nat) (h : gmap Z BlockHeader) (cur : Z) : option Z :=
  match fuel with
  | O => None
  | S fuel' => if h_next (hdr h cur) =? 0 then Some cur else last_block fuel' h (h_next (hdr h cur))
  end.

Definition walk_fuel (h : gmap Z BlockHeader) : nat := S (size h).

(** The mapping loop; [Some tt] is the early [return nullptr].  The result of
    [map_page] is ignored. *)
Definition map_pages (base pages : Z) : Vmm.state -> option unit * Vmm.state :=
  for_exit 0 pages (fun i v =>
    let '(phys, p) := Pmm.alloc_frame (Vmm.pmm v) in
    let v := Vmm.set_pmm p v in
    if phys =? 0 then (Some tt, v)
    else (None, snd (Vmm.map_page (Vmm.kernel_pml4 v) (u64 (base + i * Pmm.PAGE_SIZE)) phys
                       Vmm.KERNEL_RW v))).

Definition pages_for (needed : Z) : Z :=
  let bytes := u64 (needed + HEADER_SIZE) in
  let pages := u64 (u64 (bytes + Pmm.PAGE_SIZE) - 1) / Pmm.PAGE_SIZE in
  if pages <? 1 then 1 else pages.

(** The insertion at the end of the block list. *)
Definition append_block (blk : Z) (s : state) : option state :=
  if head s =? 0 then Some (set_head blk s)
  else
    cur ← last_block (walk_fuel (hdrs s)) (hdrs s) (head s);
    let h := upd cur (set_next blk) (hdrs s) in
    let h := upd blk (set_prev cur) h in
    Some (set_hdrs h s).

Definition expand (needed : Z) (s : state) : option (Z * state) :=
  let pages := pages_for needed in
  if HEAP_MAX <? u64 (heap_end s + u64 (pages * Pmm.PAGE_SIZE)) then Some (0, s) else
  let '(r, v) := map_pages (heap_end s) pages (vmm s) in
  let s := set_vmm v s in
  match r with
  | Some _ => Some (0, s)
  | None =>
      let blk := heap_end s in
      let s := set_hdrs (<[blk := Hdr (u64 (u64 (pages * Pmm.PAGE_SIZE) - HEADER_SIZE)) true 0 0 HEAP_MAGIC]>
                           (hdrs s)) s in
      let s := set_heap_end (u64 (heap_end s + u64 (pages * Pmm.PAGE_SIZE))) s in
      s ← append_block blk s; Some (blk, s)
  end.

(** ** coalesce, init *)

Definition coalesce (blk : Z) (h : gmap Z BlockHeader) : gmap Z BlockHeader :=
  if (blk =? 0) || negb (h_free (hdr h blk)) then h else
  let next := h_next (hdr h blk) in
  if negb (next =? 0) && h_free (hdr h next) && (h_magic (hdr h next) =? HEAP_MAGIC) then
    let h := upd blk (fun b => set_size (u64 (h_size b + (HEADER_SIZE + h_size (hdr h next)))) b) h in
    let h := upd blk (set_next (h_next (hdr h next))) h in
    if negb (h_next (hdr h next) =? 0) then upd (h_next (hdr h next)) (set_prev blk) h else h
  else h.

Definition init (s : state) : option state :=
  let s := set_counts 0 0 (set_head 0 (set_heap_end HEAP_START s)) in
  '(_, s) ← expand 0 s; Some s.

(** ** kmalloc *)

Definition align16 (size : Z) : Z := u64 (size + 15) .& u64 (Z.lnot 15).

(** How the first-fit search ends. *)
Inductive search := Hit (blk : Z) | Miss | Corrupt.

Fixpoint find_fit (fuel : nat) (h : gmap Z BlockHeader) (size blk : Z) : option search :=
  match fuel with
  | O => None
  | S fuel' =>
      if blk =? 0 then Some Miss else
      if negb (h_magic (hdr h blk) =? HEAP_MAGIC) then Some Corrupt else
      if h_free (hdr h blk) && (size <=? h_size (hdr h blk)) then Some (Hit blk) else
      find_fit fuel' h size (h_next (hdr h blk))
  end.

Definition split_block (blk size : Z) (h : gmap Z BlockHeader) : gmap Z BlockHeader :=
  if u64 (u64 (size + HEADER_SIZE) + MIN_SPLIT) <=? h_size (hdr h blk) then
    let split := u64 (blk + HEADER_SIZE + size) in
    let b := hdr h blk in
    let h := <[split := Hdr (u64 (u64 (h_size b - size) - HEADER_SIZE)) true (h_next b) blk HEAP_MAGIC]> h in
    let h := if negb (h_next (hdr h blk) =? 0) then upd (h_next (hdr h blk)) (set_prev split) h else h in
    let h := upd blk (set_next split) h in
    upd blk (set_size size) h
  else h.

Definition take_block (blk size : Z) (s : state) : Z * state :=
  let h := split_block blk size (hdrs s) in
  let h := upd blk (set_free false) h in
  (u64 (blk + HEADER_SIZE), set_counts (u64 (alloc_count s + 1)) (free_count s) (set_hdrs h s)).

Definition kmalloc (size : Z) (s : state) : option (Z * state) :=
  s ← acquire s;
  if size =? 0 then Some (0, release s) else
  let size := align16 size in
  r ← find_fit (walk_fuel (hdrs s)) (hdrs s) size (head s);
  match r with
  | Corrupt => Some (0, release s)
  | Hit blk => let '(p, s) := take_block blk size s in Some (p, release s)
  | Miss =>
      '(blk, s) ← expand size s;
      if blk =? 0 then Some (0, release s)
      else let '(p, s) := take_block blk size s in Some (p, release s)
  end.

(** ** kcalloc, krealloc, kfree *)

Definition zero_bytes (p n : Z) (d : gmap Z Z) : gmap Z Z :=
  for_range 0 n (fun i d => <[p + i := 0]> d) d.

Definition kcalloc (count size : Z) (s : state) : option (Z * state) :=
  s ← acquire s;
  let total := u64 (count * size) in
  '(ptr, s) ← kmalloc total s;
  Some (ptr, release (if negb (ptr =? 0) then set_data (zero_bytes ptr total (data s)) s else s)).

Definition copy_bytes (src dst n : Z) (d : gmap Z Z) : gmap Z Z :=
  for_range 0 n (fun i d => <[dst + i := default 0 (d !! (src + i))]> d) d.

(** The search of [krealloc] does not look at the magic. *)
Fixpoint find_free (fuel : nat) (h : gmap Z BlockHeader) (size b : Z) : option (option Z) :=
  match fuel with
  | O => None
  | S fuel' =>
      if b =? 0 then Some None else
      if h_free (hdr h b) && (size <=? h_size (hdr h b)) then Some (Some b) else
      find_free fuel' h size (h_next (hdr h b))
  end.

Definition krealloc (ptr new_size : Z) (s : state) : option (Z * state) :=
  s ← acquire s;
  if (ptr =? 0) || (new_size =? 0) then Some (0, release s) else
  let blk := u64 (ptr - HEADER_SIZE) in
  if negb (h_magic (hdr (hdrs s) blk) =? HEAP_MAGIC) then Some (0, release s) else
  if new_size <=? h_size (hdr (hdrs s) blk) then Some (ptr, release s) else
  let aligned := align16 new_size in
  r ← find_free (walk_fuel (hdrs s)) (hdrs s) aligned (head s);
  match r with
  | None => Some (0, release s)
  | Some b =>
      let h := upd b (set_free false) (hdrs s) in
      let h := split_block b aligned h in
      let newptr := u64 (b + HEADER_SIZE) in
      let old := h_size (hdr h blk) in
      let n := if old <? aligned then old else aligned in
      let s := set_data (copy_bytes ptr newptr n (data s)) s in
      let h := upd blk (set_free true) h in
      Some (newptr, release (set_hdrs h s))
  end.

Definition kfree (ptr : Z) (s : state) : option state :=
  s ← acquire s;
  if ptr =? 0 then Some (release s) else
  let blk := u64 (ptr - HEADER_SIZE) in
  if negb (h_magic (hdr (hdrs s) blk) =? HEAP_MAGIC) then Some (release s) else
  if h_free (hdr (hdrs s) blk) then Some (release s) else
  let s := set_counts (alloc_count s) (u64 (free_count s + 1)) s in
  let h := upd blk (set_free true) (hdrs s) in
  let h := coalesce blk h in
  let h := if negb (h_prev (hdr h blk) =? 0) then coalesce (h_prev (hdr h blk)) h else h in
  Some (release (set_hdrs h s)).

(** ** dump_stats: the totals it prints *)

Fixpoint stats_walk (fuel : nat) (h : gmap Z BlockHeader) (cur blocks used_bytes free_bytes : Z) :
    option (Z * Z * Z) :=
  match fuel with
  | O => None
  | S fuel' =>
      if cur =? 0 then Some (blocks, used_bytes, free_bytes) else
      let b := hdr h cur in
      if h_free b then stats_walk fuel' h (h_next b) (u64 (blocks + 1)) used_bytes (u64 (free_bytes + h_size b))
      else stats_walk fuel' h (h_next b) (u64 (blocks + 1)) (u64 (used_bytes + h_size b)) free_bytes
  end.

(** blocks, used, free, allocs, frees *)
Definition dump_stats (s : state) : option (Z * Z * Z * Z * Z) :=
  '(blocks, used_bytes, free_bytes) ← stats_walk (walk_fuel (hdrs s)) (hdrs s) (head s) 0 0 0;
  Some (blocks, used_bytes, free_bytes, alloc_count s, free_count s).

(** ** The abstract heap: the list of blocks in address order *)

Record Block := Blk { b_addr : Z; b_size : Z; b_free : bool }.

Definition b_end (b : Block) : Z := b_addr b + HEADER_SIZE + b_size b.

Definition hd_addr (nxt : Z) (l : list Block) : Z :=
  match l with [] => nxt | b :: _ => b_addr b end.
Definition last_addr (prv : Z) (l : list Block) : Z := foldl (fun _ b => b_addr b) prv l.

(** The headers of [h] link the blocks of [l], from [prv] to [nxt]. *)
Fixpoint seg (h : gmap Z BlockHeader) (prv : Z) (l : list Block) (nxt : Z) : Prop :=
  match l with
  | [] => True
  | b :: l' =>
      h !! b_addr b = Some (Hdr (b_size b) (b_free b) (hd_addr nxt l') prv HEAP_MAGIC) /\
      seg h (b_addr b) l' nxt
  end.

(** The blocks of [l] fill the range from [a] to [e] without a gap. *)
Fixpoint tiles (a : Z) (l : list Block) (e : Z) : Prop :=
  match l with
  | [] => a = e
  | b :: l' => b_addr b = a /\ 0 <= b_size b /\ tiles (b_end b) l' e
  end.

(** The heap without its lock, and the heap between two operations. *)
Record inside (s : state) (l : list Block) : Prop := {
  in_head : head s = hd_addr 0 l;
  in_seg : seg (hdrs s) 0 l 0;
  in_tiles : tiles HEAP_START l (heap_end s);
  in_end : HEAP_START <= heap_end s <= HEAP_MAX;
}.
Definition rep (s : state) (l : list Block) : Prop := inside s l /\ heap_lock s = 0.

Definition fits (size : Z) (b : Block) : bool := b_free b && (size <=? b_size b).

(** A block cut to [size] when the rest can hold a block of its own. *)
Definition carve (size : Z) (f : bool) (b : Block) : list Block :=
  if size + HEADER_SIZE + MIN_SPLIT <=? b_size b then
    [Blk (b_addr b) size f; Blk (b_addr b + HEADER_SIZE + size) (b_size b - size - HEADER_SIZE) true]
  else [Blk (b_addr b) (b_size b) f].

(** First fit. *)
Fixpoint place (size : Z) (l : list Block) : option (Z * list Block) :=
  match l with
  | [] => None
  | b :: l' =>
      if fits size b then Some (b_addr b, carve size false b ++ l')
      else '(a, l'') ← place size l'; Some (a, b :: l'')
  end.

(** A block merged with its successor when both are free. *)
Definition merge (l : list Block) : list Block :=
  match l with
  | b :: c :: l' =>
      if b_free b && b_free c then Blk (b_addr b) (b_size b + (HEADER_SIZE + b_size c)) true :: l' else l
  | _ => l
  end.

(** The allocated blocks: user pointer and size. *)
Fixpoint live (l : list Block) : gmap Z Z :=
  match l with
  | [] => ∅
  | b :: l' => if b_free b then live l' else <[b_addr b + HEADER_SIZE := b_size b]> (live l')
  end.

(** ** Lists of blocks *)

Lemma hd_addr_app l1 l2 nxt : hd_addr nxt (l1 ++ l2) = hd_addr (hd_addr nxt l2) l1.
Proof. by destruct l1. Qed.
Lemma last_addr_app l1 l2 prv : last_addr prv (l1 ++ l2) = last_addr (last_addr prv l1) l2.
Proof. apply foldl_app. Qed.

Lemma seg_app h prv l1 l2 nxt :
  seg h prv (l1 ++ l2) nxt <-> seg h prv l1 (hd_addr nxt l2) /\ seg h (last_addr prv l1) l2 nxt.
Proof.
  revert prv. induction l1 as [| b l1 IH]; intros prv; simpl; [tauto |].
  rewrite IH, hd_addr_app. tauto.
Qed.

Lemma tiles_app a l1 l2 e : tiles a (l1 ++ l2) e <-> exists m, tiles a l1 m /\ tiles m l2 e.
Proof.
  revert a. induction l1 as [| b l1 IH]; intros a; simpl.
  - split; [by exists a | by intros (m & -> & ?)].
  - rewrite IH. split.
    + intros (? & ? & m & ? & ?). by exists m.
    + intros (m & (? & ? & ?) & ?). split_and!; try done. by exists m.
Qed.

Lemma tiles_le a l e : tiles a l e -> a <= e.
Proof.
  revert a. induction l as [| b l IH]; intros a; simpl; [lia |].
  intros (<- & ? & Ht). apply IH in Ht. unfold b_end, HEADER_SIZE in Ht. lia.
Qed.

Lemma tiles_elem a l e b : tiles a l e -> b ∈ l -> a <= b_addr b /\ b_end b <= e /\ 0 <= b_size b.
Proof.
  revert a. induction l as [| c l IH]; intros a; simpl; [set_solver |].
  intros (Ha & Hs & Ht) [-> | Hb]%elem_of_cons.
  - apply tiles_le in Ht. lia.
  - destruct (IH _ Ht Hb) as (? & ? & ?). unfold b_end, HEADER_SIZE in *. lia.
Qed.

Definition addrs (l : list Block) : list Z := b_addr <$> l.

Lemma addrs_elem a l : a ∈ addrs l <-> exists b, a = b_addr b /\ b ∈ l.
Proof. apply list_elem_of_fmap. Qed.

Lemma addrs_mid l1 b l2 : b_addr b ∈ addrs (l1 ++ b :: l2).
Proof. apply addrs_elem. exists b. split; [done |]. apply elem_of_app. right. left. Qed.

(** Every address of a tiled list lies in its range. *)
Lemma tiles_addr a l e x : tiles a l e -> x ∈ addrs l -> a <= x < e.
Proof.
  intros Ht (b & -> & Hb)%addrs_elem. destruct (tiles_elem _ _ _ _ Ht Hb) as (? & ? & ?).
  unfold b_end, HEADER_SIZE in *. lia.
Qed.

Lemma tiles_NoDup a l e : tiles a l e -> NoDup (addrs l).
Proof.
  revert a. induction l as [| b l IH]; intros a; simpl; [constructor |].
  intros (_ & ? & Ht). constructor; [| by eapply IH].
  intros Hin. apply (tiles_addr _ _ _ _ Ht) in Hin. unfold b_end, HEADER_SIZE in Hin. lia.
Qed.

(** Headers at other addresses do not matter. *)
Lemma seg_frame h prv l nxt a x : a ∉ addrs l -> seg (<[a := x]> h) prv l nxt <-> seg h prv l nxt.
Proof.
  revert prv. induction l as [| b l IH]; intros prv Ha; simpl; [done |].
  unfold addrs in Ha; simpl in Ha. apply not_elem_of_cons in Ha as [Hne Hin].
  by rewrite lookup_insert_ne, IH by done.
Qed.

Lemma hdr_lookup h a b : h !! a = Some b -> hdr h a = b.
Proof. intros H. unfold hdr. by rewrite H. Qed.

Lemma hdr_insert h a b : hdr (<[a := b]> h) a = b.
Proof. unfold hdr. by rewrite lookup_insert_eq. Qed.
Lemma hdr_insert_ne h a a' b : a' <> a -> hdr (<[a := b]> h) a' = hdr h a'.
Proof. intros. unfold hdr. by rewrite lookup_insert_ne. Qed.

(** [if (n) n->prev = p;] on the head of a segment. *)
Definition relink (n p : Z) (h : gmap Z BlockHeader) : gmap Z BlockHeader :=
  if negb (n =? 0) then upd n (set_prev p) h else h.

Lemma relink_seg h prv l p : NoDup (addrs l) -> 0 ∉ addrs l -> seg h prv l 0 ->
  seg (relink (hd_addr 0 l) p h) p l 0.
Proof.
  destruct l as [| b l]; simpl; [done |]. intros Hnd H0 [Hb Hl].
  apply NoDup_cons in Hnd as [Hb' _]. fold (addrs l) in *. apply not_elem_of_cons in H0 as [H0 _].
  unfold relink, upd. destruct (Z.eqb_spec (b_addr b) 0); [congruence |]. simpl.
  rewrite (hdr_lookup _ _ _ Hb), lookup_insert_eq. by rewrite seg_frame.
Qed.

Lemma relink_other h prv l nxt n p : n ∉ addrs l -> seg h prv l nxt -> seg (relink n p h) prv l nxt.
Proof. intros Hn Hl. unfold relink, upd. destruct (negb _); [by apply seg_frame | done]. Qed.

Lemma relink_hdr h n p a : a <> n -> hdr (relink n p h) a = hdr h a.
Proof. intros. unfold relink, upd. destruct (negb _); [by apply hdr_insert_ne | done]. Qed.

(** The parts of a tiled list around one block. *)
Record around (l1 : list Block) (b : Block) (l2 : list Block) (e : Z) : Prop := {
  ar_l1 : tiles HEAP_START l1 (b_addr b);
  ar_size : 0 <= b_size b;
  ar_l2 : tiles (b_end b) l2 e;
}.

Lemma around_tiles l1 b l2 e : tiles HEAP_START (l1 ++ b :: l2) e <-> around l1 b l2 e.
Proof.
  rewrite tiles_app. simpl. split.
  - intros (m & H1 & <- & ? & ?). by split.
  - intros [? ? ?]. by exists (b_addr b).
Qed.

Lemma around_addrs l1 b l2 e : around l1 b l2 e -> e <= HEAP_MAX ->
  HEAP_START <= b_addr b /\ b_end b <= HEAP_MAX /\
  (forall x, b_addr b <= x -> x ∉ addrs l1) /\ (forall x, x < b_end b -> x ∉ addrs l2) /\
  (0 ∉ addrs l2) /\ NoDup (addrs l2).
Proof.
  intros [H1 Hs H2] He. pose proof (tiles_le _ _ _ H1). pose proof (tiles_le _ _ _ H2).
  unfold b_end, HEADER_SIZE, HEAP_START, HEAP_MAX in *. split_and!; [lia | lia | | | |].
  - intros x Hx Hin. apply (tiles_addr _ _ _ _ H1) in Hin. lia.
  - intros x Hx Hin. apply (tiles_addr _ _ _ _ H2) in Hin. lia.
  - intros Hin. apply (tiles_addr _ _ _ _ H2) in Hin. lia.
  - by eapply tiles_NoDup.
Qed.

(** ** Header updates as list operations *)

(** The header of the block in the middle. *)
Lemma seg_mid h l1 b l2 : seg h 0 (l1 ++ b :: l2) 0 <->
  seg h 0 l1 (b_addr b) /\
  h !! b_addr b = Some (Hdr (b_size b) (b_free b) (hd_addr 0 l2) (last_addr 0 l1) HEAP_MAGIC) /\
  seg h (b_addr b) l2 0.
Proof. rewrite seg_app. done. Qed.

Lemma set_free_seg h l1 b l2 e f : around l1 b l2 e -> e <= HEAP_MAX -> seg h 0 (l1 ++ b :: l2) 0 ->
  seg (upd (b_addr b) (set_free f) h) 0 (l1 ++ Blk (b_addr b) (b_size b) f :: l2) 0.
Proof.
  intros Har He (H1 & Hb & H2)%seg_mid. destruct (around_addrs _ _ _ _ Har He) as (_ & _ & Hn1 & Hn2 & _).
  pose proof (ar_size _ _ _ _ Har). apply seg_mid. simpl. unfold upd. rewrite (hdr_lookup _ _ _ Hb).
  split_and!.
  - apply seg_frame; [apply Hn1; lia | done].
  - by rewrite lookup_insert_eq.
  - apply seg_frame; [apply Hn2; unfold b_end, HEADER_SIZE; lia | done].
Qed.

Lemma u64_heap x : 0 <= x <= HEAP_MAX -> u64 x = x.
Proof. unfold HEAP_MAX. intros. apply u64_small. mach. lia. Qed.

Lemma carve_around size f l1 b l2 e : around l1 b l2 e -> 0 <= size ->
  tiles HEAP_START (l1 ++ carve size f b ++ l2) e.
Proof.
  intros [H1 Hs H2] Hsz. rewrite tiles_app. exists (b_addr b). split; [done |].
  unfold carve. destruct (Z.leb_spec (size + HEADER_SIZE + MIN_SPLIT) (b_size b)); simpl;
    unfold b_end, HEADER_SIZE, MIN_SPLIT in *; simpl; split_and!; try done; try lia.
  by replace (b_addr b + 40 + size + 40 + (b_size b - size - 40)) with (b_addr b + 40 + b_size b) by lia.
Qed.

Lemma split_block_seg h size l1 b l2 e : around l1 b l2 e -> e <= HEAP_MAX -> 0 <= size <= b_size b ->
  seg h 0 (l1 ++ b :: l2) 0 ->
  seg (split_block (b_addr b) size h) 0 (l1 ++ carve size (b_free b) b ++ l2) 0.
Proof.
  intros Har He Hsz Hseg. pose proof Hseg as (H1 & Hb & H2)%seg_mid.
  destruct (around_addrs _ _ _ _ Har He) as (Hlo & Hhi & Hn1 & Hn2 & H0 & Hnd).
  unfold split_block, carve. rewrite (hdr_lookup _ _ _ Hb). simpl h_size. simpl h_next.
  unfold b_end, HEADER_SIZE, MIN_SPLIT, HEAP_START, HEAP_MAX in *.
  rewrite (u64_small (size + 40)), u64_small by (mach; lia).
  destruct (Z.leb_spec (size + 40 + 32) (b_size b)); [| by destruct b].
  set (sp := u64 (b_addr b + 40 + size)).
  assert (sp = b_addr b + 40 + size) as Hsp by (apply u64_small; mach; lia).
  rewrite (u64_small (b_size b - size)), u64_small by (mach; lia).
  set (h1 := <[sp := _]> h).
  assert (hdr h1 (b_addr b) = Hdr (b_size b) (b_free b) (hd_addr 0 l2) (last_addr 0 l1) HEAP_MAGIC) as Hh1.
  { unfold h1. rewrite hdr_insert_ne by lia. by apply hdr_lookup. }
  rewrite Hh1. simpl h_next.
  change (if negb (hd_addr 0 l2 =? 0) then upd (hd_addr 0 l2) (set_prev sp) h1 else h1)
    with (relink (hd_addr 0 l2) sp h1).
  assert (Hnh : forall x, x < b_addr b + 40 + b_size b -> x <> 0 -> x <> hd_addr 0 l2).
  { intros x Hx Hx0 ->. destruct l2 as [| c l2]; [done |]. apply (Hn2 (b_addr c)); [done |]. by left. }
  set (h2 := relink (hd_addr 0 l2) sp h1).
  assert (hdr h2 (b_addr b) = hdr h1 (b_addr b)) as Hh2.
  { apply relink_hdr, Hnh; lia. }
  unfold upd. rewrite Hh2, Hh1, hdr_insert. simpl.
  assert (Hsp1 : sp ∉ addrs l1) by (apply Hn1; lia).
  assert (Hsp2 : sp ∉ addrs l2) by (apply Hn2; lia).
  assert (Hb1 : b_addr b ∉ addrs l1) by (apply Hn1; lia).
  assert (Hb2 : b_addr b ∉ addrs l2) by (apply Hn2; lia).
  assert (Hd1 : hd_addr 0 l2 = 0 \/ hd_addr 0 l2 ∉ addrs l1).
  { destruct l2 as [| c l2]; [by left | right]. apply Hn1. simpl.
    destruct (tiles_elem _ _ _ c (ar_l2 _ _ _ _ Har)) as [Hc _]; [by left |].
    unfold b_end, HEADER_SIZE in Hc. lia. }
  apply seg_mid. simpl. rewrite !seg_frame by done. split_and!.
  - destruct Hd1 as [Hd1 | Hd1].
    + unfold h2, relink. rewrite Hd1. simpl. by apply seg_frame.
    + apply relink_other; [done |]. by apply seg_frame.
  - rewrite lookup_insert_eq. unfold set_size, set_next; simpl. by rewrite Hsp.
  - rewrite !lookup_insert_ne by lia. rewrite <- Hsp.
    unfold h2, relink, upd. destruct (negb _) eqn:Hz.
    + rewrite lookup_insert_ne by (apply not_eq_sym, Hnh; lia). unfold h1. by rewrite lookup_insert_eq.
    + unfold h1. by rewrite lookup_insert_eq.
  - rewrite <- Hsp. apply (relink_seg _ (b_addr b)); [done | done |]. unfold h1. by apply seg_frame.
Qed.

(** ** coalesce *)

Lemma merge_around l1 b l2 e : around l1 b l2 e -> tiles HEAP_START (l1 ++ merge (b :: l2)) e.
Proof.
  intros Har. destruct l2 as [| c l2]; [by apply around_tiles |]. simpl.
  destruct (b_free b && b_free c); [| by apply around_tiles].
  destruct Har as [H1 Hs (Hc & Hsc & H2)]. apply around_tiles. split; simpl; [done | unfold HEADER_SIZE; lia |].
  unfold b_end in *. simpl. rewrite Hc in H2.
  by replace (b_addr b + HEADER_SIZE + (b_size b + (HEADER_SIZE + b_size c)))
    with (b_addr b + HEADER_SIZE + b_size b + HEADER_SIZE + b_size c) by lia.
Qed.

Lemma coalesce_seg h l1 b l2 e : around l1 b l2 e -> e <= HEAP_MAX -> seg h 0 (l1 ++ b :: l2) 0 ->
  seg (coalesce (b_addr b) h) 0 (l1 ++ merge (b :: l2)) 0.
Proof.
  intros Har He Hseg. pose proof Hseg as (H1 & Hb & H2)%seg_mid.
  destruct (around_addrs _ _ _ _ Har He) as (Hlo & Hhi & Hn1 & Hn2 & H0 & Hnd).
  unfold coalesce. rewrite (hdr_lookup _ _ _ Hb). simpl h_free. simpl h_next.
  destruct (Z.eqb_spec (b_addr b) 0); [unfold HEAP_START in Hlo; lia |]. simpl.
  destruct (b_free b) eqn:Hbf; simpl; [| by destruct l2 as [| c l2]; simpl; rewrite ?Hbf].
  destruct l2 as [| c l2]; [done |]. destruct H2 as [Hc H2]. simpl hd_addr.
  rewrite (hdr_lookup _ _ _ Hc). cbn [merge]. rewrite ?Hbf. simpl h_free. simpl h_magic.
  assert (b_addr c <> 0) as Hc0 by (intros Hz; apply H0; rewrite <- Hz; by left).
  rewrite (proj2 (Z.eqb_neq _ _) Hc0). simpl.
  destruct (b_free c) eqn:Hcf; [| done]. simpl. rewrite ?Z.eqb_refl. simpl.
  pose proof (ar_l2 _ _ _ _ Har) as (Hca & Hcs & H2t).
  assert (around (l1 ++ [b]) c l2 e) as Har2.
  { apply around_tiles. rewrite <- app_assoc. by apply around_tiles. }
  destruct (around_addrs _ _ _ _ Har2 He) as (_ & Hchi & _ & Hm2 & Hm0 & Hmnd).
  pose proof (ar_size _ _ _ _ Har) as Hbs.
  unfold b_end, HEADER_SIZE, HEAP_START, HEAP_MAX in *.
  assert (Hbc : b_addr b <> b_addr c) by lia.
  set (hb := Hdr (b_size b) _ _ _ _) in *.
  set (h1 := upd (b_addr b) _ h).
  assert (hdr h1 (b_addr c) = hdr h (b_addr c)) as Hh1 by (by apply hdr_insert_ne).
  set (h2 := upd (b_addr b) (set_next (h_next (hdr h1 (b_addr c)))) h1).
  assert (hdr h2 (b_addr c) = hdr h (b_addr c)) as Hh2 by (unfold h2, upd; by rewrite hdr_insert_ne).
  rewrite Hh2, (hdr_lookup _ _ _ Hc). simpl h_next.
  assert (h2 = <[b_addr b := Hdr (b_size b + (40 + b_size c)) true (hd_addr 0 l2) (last_addr 0 l1) HEAP_MAGIC]> h)
    as Heq2.
  { unfold h2, upd. rewrite Hh1, (hdr_lookup _ _ _ Hc). unfold h1, upd. rewrite hdr_insert, insert_insert_eq.
    rewrite (hdr_lookup _ _ _ Hb). unfold hb, set_next, set_size; simpl. by rewrite u64_small by (mach; lia). }
  change (if negb (hd_addr 0 l2 =? 0) then upd (hd_addr 0 l2) (set_prev (b_addr b)) h2 else h2)
    with (relink (hd_addr 0 l2) (b_addr b) h2).
  assert (Hd : forall x, x < b_addr c + 40 + b_size c -> x <> 0 -> x <> hd_addr 0 l2).
  { intros x Hx Hx0 ->. destruct l2 as [| d l2]; [done |]. apply (Hm2 (b_addr d)); [done |]. by left. }
  rewrite Heq2. apply seg_mid. simpl. split_and!.
  - destruct l2 as [| d l2]; simpl.
    + unfold relink; simpl. apply seg_frame; [apply Hn1; lia | done].
    + destruct (tiles_elem _ _ _ d (ar_l2 _ _ _ _ Har2)) as [Hdc _]; [by left |].
      unfold b_end, HEADER_SIZE in Hdc.
      apply relink_other; [apply Hn1; lia |]. apply seg_frame; [apply Hn1; lia | done].
  - unfold relink, upd. destruct (negb _); [| by rewrite lookup_insert_eq].
    rewrite lookup_insert_ne by (apply not_eq_sym, Hd; lia). by rewrite lookup_insert_eq.
  - apply (relink_seg _ (b_addr c)); [done | done |]. apply seg_frame; [apply Hm2; lia | done].
Qed.

(** ** The walks *)

Lemma seg_fuel h l prv nxt : NoDup (addrs l) -> seg h prv l nxt -> (length l < walk_fuel h)%nat.
Proof.
  intros Hnd Hseg. unfold walk_fuel. apply Nat.lt_succ_r.
  assert (list_to_set (addrs l) ⊆@{gset Z} dom h) as Hsub.
  { clear Hnd. revert prv Hseg. induction l as [| b l IH]; intros prv; [set_solver |].
    intros [Hb Hl]. apply IH in Hl. apply (elem_of_dom_2 (D := gset Z)) in Hb.
    simpl. fold (addrs l). intros x. rewrite elem_of_union, elem_of_singleton. intros [-> |]; [done | by apply Hl]. }
  apply subseteq_size in Hsub. rewrite size_list_to_set, size_dom in Hsub by done.
  unfold addrs in Hsub. by rewrite length_fmap in Hsub.
Qed.

#[local] Opaque walk_fuel.

Lemma find_fit_place fuel h size l prv : seg h prv l 0 -> 0 ∉ addrs l -> (length l < fuel)%nat ->
  find_fit fuel h size (hd_addr 0 l) =
  Some (match place size l with Some (a, _) => Hit a | None => Miss end).
Proof.
  revert fuel prv. induction l as [| b l IH]; intros fuel prv Hseg H0 Hf; (destruct fuel as [| fuel]; [simpl in Hf; lia |]);
    [done |].
  destruct Hseg as [Hb Hl]. unfold addrs in H0. simpl in H0. apply not_elem_of_cons in H0 as [Hb0 H0].
  cbn [find_fit hd_addr place]. rewrite (proj2 (Z.eqb_neq (b_addr b) 0)) by done.
  rewrite (hdr_lookup _ _ _ Hb). simpl. unfold fits.
  destruct (b_free b && (size <=? b_size b)) eqn:Hfit; [done |].
  rewrite (IH fuel (b_addr b)) by (done || (simpl in Hf; lia)). by destruct (place size l) as [[] |].
Qed.

Lemma find_free_place fuel h size l prv : seg h prv l 0 -> 0 ∉ addrs l -> (length l < fuel)%nat ->
  find_free fuel h size (hd_addr 0 l) = Some (fst <$> place size l).
Proof.
  revert fuel prv. induction l as [| b l IH]; intros fuel prv Hseg H0 Hf; (destruct fuel as [| fuel]; [simpl in Hf; lia |]);
    [done |].
  destruct Hseg as [Hb Hl]. unfold addrs in H0. simpl in H0. apply not_elem_of_cons in H0 as [Hb0 H0].
  cbn [find_free hd_addr place]. rewrite (proj2 (Z.eqb_neq (b_addr b) 0)) by done.
  rewrite (hdr_lookup _ _ _ Hb). simpl. unfold fits.
  destruct (b_free b && (size <=? b_size b)) eqn:Hfit; [done |].
  rewrite (IH fuel (b_addr b)) by (done || (simpl in Hf; lia)). by destruct (place size l) as [[] |].
Qed.

Lemma last_block_addr fuel h l b prv : seg h prv (b :: l) 0 -> 0 ∉ addrs l -> (length l < fuel)%nat ->
  last_block fuel h (b_addr b) = Some (last_addr (b_addr b) l).
Proof.
  revert fuel prv b. induction l as [| c l IH]; intros fuel prv b Hseg H0 Hf; (destruct fuel as [| fuel]; [simpl in Hf; lia |]);
    destruct Hseg as [Hb Hl]; cbn [last_block]; rewrite (hdr_lookup _ _ _ Hb); simpl; [done |].
  unfold addrs in H0. simpl in H0. apply not_elem_of_cons in H0 as [Hc0 H0].
  rewrite (proj2 (Z.eqb_neq (b_addr c) 0)) by done. apply (IH fuel (b_addr b) c); [done | done |].
  simpl in Hf. lia.
Qed.

Lemma place_Some size l a l' : place size l = Some (a, l') ->
  exists l1 b l2, l = l1 ++ b :: l2 /\ Forall (fun b => fits size b = false) l1 /\ fits size b = true /\
    a = b_addr b /\ l' = l1 ++ carve size false b ++ l2.
Proof.
  revert a l'. induction l as [| b l IH]; intros a l'; simpl; [done |]. destruct (fits size b) eqn:Hfit.
  - intros [= <- <-]. by exists [], b, l.
  - destruct (place size l) as [[a0 l0] |] eqn:Hp; simpl; [| done]. intros [= <- <-].
    destruct (IH _ _ eq_refl) as (l1 & c & l2 & -> & Hl1 & Hc & -> & ->).
    exists (b :: l1), c, l2. split_and!; try done. by constructor.
Qed.

Lemma place_None size l : place size l = None <-> Forall (fun b => fits size b = false) l.
Proof.
  induction l as [| b l IH]; simpl; [split; [constructor | done] |].
  rewrite Forall_cons. destruct (fits size b); [split; [done | intros [? _]; done] |].
  destruct (place size l) as [[] |]; simpl; [split; [done | intros [_ ?%IH]; done] |].
  split; [| done]. intros _. split; [done | by apply IH].
Qed.

Lemma place_app_last size l b : place size l = None -> fits size b = true ->
  place size (l ++ [b]) = Some (b_addr b, l ++ carve size false b).
Proof.
  induction l as [| c l IH]; simpl.
  - intros _ ->. by rewrite app_nil_r.
  - destruct (fits size c); [done |]. destruct (place size l) as [[] |]; simpl; [done |].
    intros _ Hb. by rewrite IH.
Qed.

Lemma inside_zero s l : inside s l -> 0 ∉ addrs l.
Proof. intros [_ _ Ht _] Hin. apply (tiles_addr _ _ _ _ Ht) in Hin. unfold HEAP_START in Hin. lia. Qed.

(** ** take_block *)

Lemma carve_cons size f b : exists sz rest, carve size f b = Blk (b_addr b) sz f :: rest /\
  (forall g, carve size g b = Blk (b_addr b) sz g :: rest) /\ Forall (fun c => b_free c = true) rest /\
  (size <= b_size b -> 0 <= size -> size <= sz <= b_size b).
Proof.
  unfold carve. destruct (Z.leb_spec (size + HEADER_SIZE + MIN_SPLIT) (b_size b)).
  - eexists _, _. split_and!; [done | done | | lia]. by repeat constructor.
  - eexists _, _. split_and!; [done | done | constructor | lia].
Qed.

Lemma take_block_spec s l1 b l2 size : inside s (l1 ++ b :: l2) -> 0 <= size <= b_size b ->
  let '(r, s') := take_block (b_addr b) size s in
  r = b_addr b + HEADER_SIZE /\ inside s' (l1 ++ carve size false b ++ l2) /\
  heap_lock s' = heap_lock s /\ vmm s' = vmm s /\ heap_end s' = heap_end s /\ data s' = data s.
Proof.
  intros [Hh Hs Ht He] Hsz. unfold take_block. simpl. apply around_tiles in Ht as Har.
  destruct (around_addrs _ _ _ _ Har (proj2 He)) as (Hlo & Hhi & _).
  assert (0 <= b_size b) by lia.
  assert (u64 (b_addr b + HEADER_SIZE) = b_addr b + HEADER_SIZE) as ->.
  { apply u64_heap. unfold b_end, HEADER_SIZE, HEAP_START in *. lia. }
  split_and!; try done. pose proof (split_block_seg _ _ _ _ _ _ Har (proj2 He) Hsz Hs) as Hsp.
  pose proof (carve_around size (b_free b) _ _ _ _ Har (proj1 Hsz)) as Htc.
  destruct (carve_cons size (b_free b) b) as (sz & rest & Hc & Hg & _). rewrite Hc in Hsp, Htc.
  rewrite Hg. simpl in *. split; simpl.
  - rewrite Hh, !hd_addr_app. by destruct l1.
  - apply around_tiles in Htc as Harc. exact (set_free_seg _ _ _ _ _ false Harc (proj2 He) Hsp).
  - apply around_tiles in Htc as [? ? ?]. by apply around_tiles.
  - done.
Qed.

(** ** expand *)

(** Requests beyond 64 TiB make the sums of [expand] wrap. *)
Definition request_ok (size : Z) : Prop := 0 <= size <= 2 ^ 46.

Lemma pages_for_spec n : request_ok n ->
  1 <= pages_for n /\ n + HEADER_SIZE <= pages_for n * Pmm.PAGE_SIZE < n + HEADER_SIZE + Pmm.PAGE_SIZE /\
  pages_for n * Pmm.PAGE_SIZE < 2 ^ 47.
Proof.
  unfold request_ok, pages_for, HEADER_SIZE, Pmm.PAGE_SIZE. change (2 ^ 46) with 70368744177664.
  change (2 ^ 47) with 140737488355328. intros Hn.
  rewrite (u64_small (n + 40)), (u64_small (n + 40 + 4096)), u64_small by (mach; lia).
  replace (n + 40 + 4096 - 1) with (n + 40 + 4095) by lia.
  destruct (Z.ltb_spec ((n + 40 + 4095) / 4096) 1); divlia.
Qed.

(** Everything but the list of blocks. *)
Definition same_rest (s s' : state) : Prop :=
  vmm s' = vmm s /\ data s' = data s /\ heap_lock s' = heap_lock s.

(** Linking a block behind the last one. *)
Lemma seg_snoc h l b : l <> [] -> NoDup (addrs l) -> b_addr b ∉ addrs l -> seg h 0 l 0 ->
  h !! b_addr b = Some (Hdr (b_size b) (b_free b) 0 0 HEAP_MAGIC) ->
  seg (upd (b_addr b) (set_prev (last_addr 0 l)) (upd (last_addr 0 l) (set_next (b_addr b)) h)) 0 (l ++ [b]) 0.
Proof.
  intros Hl Hnd Hb Hs Hh. destruct l as [| d l _] using rev_ind; [done |]. clear Hl.
  unfold addrs in Hnd, Hb. rewrite fmap_app in Hnd, Hb. fold (addrs l) in *. simpl in *.
  apply NoDup_app in Hnd as (_ & Hd & _).
  apply not_elem_of_app in Hb as [Hb Hbd]. rewrite list_elem_of_singleton in Hbd.
  assert (Hdl : b_addr d ∉ addrs l) by (intros Hx; apply (Hd _ Hx); by left).
  rewrite last_addr_app. simpl. apply seg_app in Hs as [Hs [Hsd _]]. simpl in Hs, Hsd.
  unfold upd. rewrite (hdr_lookup _ _ _ Hsd), (hdr_insert_ne _ _ (b_addr b)) by done.
  rewrite (hdr_lookup _ _ _ Hh). rewrite <- app_assoc. apply seg_mid. split_and!.
  - by rewrite !seg_frame.
  - rewrite lookup_insert_ne, lookup_insert_eq by congruence. done.
  - simpl. rewrite lookup_insert_eq. done.
Qed.

(** Appending a block at the end of the heap. *)
Lemma append_block_spec s l e sz : inside s l -> 0 <= sz -> e = heap_end s + HEADER_SIZE + sz -> e <= HEAP_MAX ->
  exists s', append_block (heap_end s)
      (set_heap_end e (set_hdrs (<[heap_end s := Hdr sz true 0 0 HEAP_MAGIC]> (hdrs s)) s)) = Some s' /\
    inside s' (l ++ [Blk (heap_end s) sz true]) /\ same_rest s s'.
Proof.
  intros Hin Hsz He Hmax. pose proof (inside_zero _ _ Hin) as H0. destruct Hin as [Hh Hs Ht Hend].
  pose proof (tiles_NoDup _ _ _ Ht) as Hnd. set (b := Blk (heap_end s) sz true).
  assert (Hnin : heap_end s ∉ addrs l) by (intros Hx; apply (tiles_addr _ _ _ _ Ht) in Hx; lia).
  assert (Htl : tiles HEAP_START (l ++ [b]) e).
  { apply tiles_app. exists (heap_end s). split; [done |]. simpl. unfold b_end. simpl. by rewrite He. }
  unfold append_block. simpl. set (h1 := <[heap_end s := _]> (hdrs s)).
  assert (Hseg1 : seg h1 0 l 0) by (by apply seg_frame).
  destruct l as [| c l].
  { rewrite Hh. simpl. eexists. split_and!; [done | | done].
    split; simpl; [done | | done | unfold HEADER_SIZE in *; lia]. unfold h1. by rewrite lookup_insert_eq. }
  rewrite Hh. simpl hd_addr. pose proof H0 as H0'. unfold addrs in H0'. simpl in H0'.
  apply not_elem_of_cons in H0' as [Hc0 H0'].
  rewrite (proj2 (Z.eqb_neq (b_addr c) 0)) by done.
  pose proof (seg_fuel _ _ _ _ Hnd Hseg1) as Hf. simpl in Hf.
  rewrite (last_block_addr _ h1 l c 0) by (done || lia). simpl.
  eexists. split_and!; [done | | done].
  split; cbn [head hdrs heap_end set_hdrs set_heap_end set_head]; [done | | done | unfold HEADER_SIZE in *; lia].
  change (c :: l ++ [b]) with ((c :: l) ++ [b]). change (last_addr (b_addr c) l) with (last_addr 0 (c :: l)).
  change (heap_end s) with (b_addr b). apply seg_snoc; try done. unfold h1. by rewrite lookup_insert_eq.
Qed.

Lemma expand_spec s l needed : inside s l -> request_ok needed ->
  exists r s', expand needed s = Some (r, s') /\ heap_lock s' = heap_lock s /\ data s' = data s /\
    ((r = 0 /\ inside s' l) \/
     (exists sz, needed <= sz /\ r = heap_end s /\ inside s' (l ++ [Blk (heap_end s) sz true]))).
Proof.
  intros Hin Hreq. destruct (pages_for_spec needed Hreq) as (Hp1 & Hp2 & Hp3). unfold expand.
  set (n := pages_for needed) in *. clearbody n. pose proof (in_end _ _ Hin) as Hend.
  unfold HEADER_SIZE, Pmm.PAGE_SIZE, HEAP_START, HEAP_MAX in *. change (2 ^ 47) with 140737488355328 in *.
  unfold request_ok in Hreq. cbv zeta. cbn [heap_end hdrs set_vmm set_hdrs].
  rewrite (u64_small (n * 4096)), (u64_small (heap_end s + _)), (u64_small (n * 4096 - 40)) by (mach; lia).
  destruct (Z.ltb_spec 0xFFFF900040000000 (heap_end s + n * 4096)).
  { exists 0, s. split_and!; try done. by left. }
  destruct (map_pages (heap_end s) n (vmm s)) as [[u |] v].
  { exists 0, (set_vmm v s). split_and!; try done. left. split; [done |]. by destruct Hin. }
  simpl. assert (inside (set_vmm v s) l) as Hin' by by destruct Hin.
  destruct (append_block_spec (set_vmm v s) l (heap_end s + n * 4096) (n * 4096 - 40) Hin')
    as (s' & Happ & Hin2 & _ & Hd & Hl); try (unfold HEADER_SIZE, HEAP_MAX; simpl; lia).
  simpl in Happ. rewrite Happ. simpl. exists (heap_end s), s'. split_and!; try done. right.
  exists (n * 4096 - 40). split_and!; [lia | done | done].
Qed.

(** ** kmalloc *)

Lemma align16_spec n : 0 < n < 2 ^ 46 -> n <= align16 n < n + 16 /\ align16 n mod 16 = 0 /\ request_ok (align16 n).
Proof.
  change (2 ^ 46) with 70368744177664. intros Hn. unfold align16, request_ok. change (2 ^ 46) with 70368744177664.
  rewrite u64_small by (mach; lia). change (Z.lnot 15) with (Z.lnot (2 ^ 4 - 1)). unfold u64.
  rewrite land_align by (pow2; lia). change (2 ^ 4) with 16. divlia.
Qed.

Lemma kmalloc_hit s l size r l' : inside s l -> 0 <= size -> place size l = Some (r, l') ->
  let '(p, s') := take_block r size s in
  p = r + HEADER_SIZE /\ inside s' l' /\ heap_lock s' = heap_lock s /\ data s' = data s.
Proof.
  intros Hin Hsz Hp. apply place_Some in Hp as (l1 & b & l2 & -> & _ & Hfit & -> & ->).
  apply andb_prop in Hfit as [_ Hfit%Z.leb_le].
  pose proof (take_block_spec s l1 b l2 size Hin (conj Hsz Hfit)) as Ht.
  destruct (take_block (b_addr b) size s). tauto.
Qed.

Lemma rep_release s l : inside s l -> rep (release s) l.
Proof. by intros []. Qed.

Lemma rep_acquire s l : rep s l -> acquire s = Some (set_lock 1 s) /\ inside (set_lock 1 s) l.
Proof. intros [[] Hl]. unfold acquire. by rewrite Hl. Qed.

(** What [kmalloc] computes, with the user data untouched. *)
Lemma kmalloc_spec s l size : rep s l -> 0 < size < 2 ^ 46 ->
  exists r s' l', kmalloc size s = Some (r, s') /\ rep s' l' /\ data s' = data s /\
    ((r = 0 /\ l' = l /\ place (align16 size) l = None) \/
     (place (align16 size) l = Some (r - HEADER_SIZE, l')) \/
     (place (align16 size) l = None /\
      exists sz, place (align16 size) (l ++ [Blk (heap_end s) sz true]) = Some (r - HEADER_SIZE, l'))).
Proof.
  intros Hrep Hsize. destruct (rep_acquire _ _ Hrep) as [Hacq Hin]. unfold kmalloc. rewrite Hacq.
  cbn [mbind option_bind]. rewrite (proj2 (Z.eqb_neq size 0)) by lia.
  destruct (align16_spec size Hsize) as (Hn & _ & Hreq). set (n := align16 size) in *. clearbody n.
  rewrite (in_head _ _ Hin).
  rewrite (find_fit_place _ _ _ _ 0 (in_seg _ _ Hin) (inside_zero _ _ Hin))
    by (eapply seg_fuel; [eapply tiles_NoDup, Hin | apply Hin]).
  cbn [mbind option_bind]. destruct (place n l) as [[a l'] |] eqn:Hp.
  - pose proof (kmalloc_hit _ _ _ _ _ Hin (proj1 Hreq) Hp) as Ht.
    destruct (take_block a n (set_lock 1 s)) as [p s1]. destruct Ht as (-> & Hin1 & _ & Hd).
    eexists _, _, l'. split_and!; [done | by apply rep_release | done |]. right. left.
    do 2 f_equal. lia.
  - destruct (expand_spec _ _ n Hin Hreq) as (r & s1 & -> & Hlk & Hd & Hr). cbn [mbind option_bind].
    destruct Hr as [[-> Hin1] | (sz & Hsz & -> & Hin1)].
    { eexists _, _, l. split_and!; [done | by apply rep_release | done | by left]. }
    pose proof (in_end _ _ Hin) as Hend. unfold HEAP_START in Hend.
    rewrite (proj2 (Z.eqb_neq _ 0)) by lia.
    assert (fits n (Blk (heap_end (set_lock 1 s)) sz true) = true) as Hfit by (by apply Z.leb_le).
    pose proof (place_app_last _ _ _ Hp Hfit) as Hp2.
    pose proof (kmalloc_hit _ _ _ _ _ Hin1 (proj1 Hreq) Hp2) as Ht.
    change (b_addr (Blk (heap_end (set_lock 1 s)) sz true)) with (heap_end (set_lock 1 s)) in Ht.
    destruct (take_block (heap_end (set_lock 1 s)) n s1) as [p s2]. destruct Ht as (-> & Hin2 & _ & Hd2).
    eexists _, _, _. split_and!; [done | by apply rep_release | simpl; by rewrite Hd2 |]. right. right.
    split; [done |]. exists sz. simpl in Hp2. rewrite Hp2. do 2 f_equal. simpl. lia.
Qed.

(** ** Allocated blocks *)

Lemma live_app l1 l2 : live (l1 ++ l2) = live l1 ∪ live l2.
Proof.
  induction l1 as [| b l1 IH]; simpl; [by rewrite map_empty_union |].
  rewrite IH. destruct (b_free b); [done |]. by rewrite insert_union_l.
Qed.

Lemma live_all_free l : Forall (fun b => b_free b = true) l -> live l = ∅.
Proof. induction 1 as [| b l Hb _ IH]; simpl; [done |]. by rewrite Hb. Qed.

Lemma live_Some l p n : live l !! p = Some n ->
  exists l1 b l2, l = l1 ++ b :: l2 /\ b_free b = false /\ p = b_addr b + HEADER_SIZE /\ n = b_size b.
Proof.
  induction l as [| b l IH]; simpl; [by rewrite lookup_empty |].
  assert (live l !! p = Some n -> exists l1 c l2, b :: l = l1 ++ c :: l2 /\ b_free c = false /\
    p = b_addr c + HEADER_SIZE /\ n = b_size c) as Hrec.
  { intros (l1 & c & l2 & -> & ?)%IH. by exists (b :: l1), c, l2. }
  destruct (b_free b) eqn:Hf; [done |]. rewrite lookup_insert_Some.
  intros [[<- <-] | [_ ?]]; [by exists [], b, l | by apply Hrec].
Qed.

Lemma live_None l p : p - HEADER_SIZE ∉ addrs l -> live l !! p = None.
Proof.
  intros Hp. destruct (live l !! p) as [n |] eqn:Hl; [| done].
  apply live_Some in Hl as (l1 & b & l2 & -> & _ & -> & _). exfalso. apply Hp.
  replace (b_addr b + HEADER_SIZE - HEADER_SIZE) with (b_addr b) by lia. apply addrs_mid.
Qed.

(** Placing a request adds one allocated block, new and large enough. *)
Lemma place_live size l r l' : NoDup (addrs l) -> 0 <= size -> place size l = Some (r, l') ->
  live l !! (r + HEADER_SIZE) = None /\
  exists sz, size <= sz /\ live l' = <[r + HEADER_SIZE := sz]> (live l).
Proof.
  intros Hnd Hsz (l1 & b & l2 & -> & _ & Hfit & -> & ->)%place_Some.
  apply andb_prop in Hfit as [Hfree Hle%Z.leb_le].
  destruct (carve_cons size false b) as (sz & rest & -> & _ & Hrest & Hb).
  unfold addrs in Hnd. rewrite fmap_app in Hnd. simpl in Hnd. fold (addrs l1) (addrs l2) in Hnd.
  apply NoDup_app in Hnd as (_ & Hd & [Hb2 _]%NoDup_cons).
  assert (live l1 !! (b_addr b + HEADER_SIZE) = None) as Hn1.
  { apply live_None. replace (b_addr b + HEADER_SIZE - HEADER_SIZE) with (b_addr b) by lia.
    intros Hx. apply (Hd _ Hx). by left. }
  assert (live l2 !! (b_addr b + HEADER_SIZE) = None) as Hn2.
  { apply live_None. by replace (b_addr b + HEADER_SIZE - HEADER_SIZE) with (b_addr b) by lia. }
  rewrite !live_app. simpl. rewrite Hfree, (live_all_free rest), <- insert_union_l, map_empty_union by done.
  split; [by rewrite lookup_union_None |]. exists sz. split; [by apply Hb |].
  by rewrite insert_union_r.
Qed.

Lemma kmalloc_live s l size : rep s l -> 0 < size < 2 ^ 46 ->
  exists r s' l', kmalloc size s = Some (r, s') /\ rep s' l' /\ data s' = data s /\
    ((r = 0 /\ l' = l) \/
     (r <> 0 /\ live l !! r = None /\ exists sz, size <= sz /\ live l' = <[r := sz]> (live l))).
Proof.
  intros Hrep Hsize. destruct (kmalloc_spec s l size Hrep Hsize) as (r & s' & l' & Hk & Hrep' & Hd & Hcases).
  exists r, s', l'. split_and!; try done. destruct (align16_spec size Hsize) as ([Hn _] & _ & [Hn0 _]).
  pose proof (in_tiles _ _ (proj1 Hrep)) as Ht. pose proof (in_end _ _ (proj1 Hrep)) as Hend.
  pose proof (tiles_NoDup _ _ _ Ht) as Hnd.
  assert (forall l0, place (align16 size) l0 = Some (r - HEADER_SIZE, l') -> NoDup (addrs l0) ->
    live l0 = live l -> (forall x, x ∈ addrs l0 -> HEAP_START <= x) ->
    r <> 0 /\ live l !! r = None /\ exists sz, size <= sz /\ live l' = <[r := sz]> (live l)) as Hgen.
  { intros l0 Hp Hnd0 Hl0 Hr. destruct (place_live _ _ _ _ Hnd0 Hn0 Hp) as (Hnone & sz & Hsz & Hlive).
    apply place_Some in Hp as (l1 & b & l2 & -> & _ & _ & Hb & _).
    assert (HEAP_START <= b_addr b) by apply Hr, addrs_mid.
    replace (r - HEADER_SIZE + HEADER_SIZE) with r in * by lia. rewrite Hl0 in *.
    split_and!; [unfold HEADER_SIZE, HEAP_START in *; lia | done |]. exists sz. split; [lia | done]. }
  assert (forall x, x ∈ addrs l -> HEAP_START <= x) as Hlo.
  { intros x Hx. apply (tiles_addr _ _ _ _ Ht Hx). }
  destruct Hcases as [(-> & -> & _) | [Hp | (_ & sz & Hp)]]; [by left | right.. ].
  - by apply (Hgen l).
  - apply (Hgen _ Hp).
    + unfold addrs. rewrite fmap_app. apply NoDup_app. split_and!; [done | | apply NoDup_singleton].
      intros x Hx ->%list_elem_of_singleton. apply (tiles_addr _ _ _ _ Ht) in Hx. simpl in Hx. lia.
    + rewrite live_app. simpl. by rewrite map_union_empty.
    + intros x. unfold addrs. rewrite fmap_app, elem_of_app. simpl.
      intros [Hx | ->%list_elem_of_singleton]; [by apply Hlo | lia].
Qed.

(** ** kfree *)

(** [m] behind [l1], merged with the last block of [l1]. *)
Fixpoint merge_last (l1 m : list Block) : list Block :=
  match l1 with
  | [] => m
  | p :: l1' => match l1' with [] => merge (p :: m) | _ => p :: merge_last l1' m end
  end.

Lemma merge_last_snoc l1 p m : merge_last (l1 ++ [p]) m = l1 ++ merge (p :: m).
Proof.
  induction l1 as [| q l1 IH]; [done |]. cbn [merge_last app]. rewrite IH. by destruct l1.
Qed.

(** The list after the block [b] between [l1] and [l2] is freed. *)
Definition freed (l1 : list Block) (b : Block) (l2 : list Block) : list Block :=
  merge_last l1 (merge (Blk (b_addr b) (b_size b) true :: l2)).

Lemma live_merge l : live (merge l) = live l.
Proof.
  destruct l as [| b [| c l]]; try done. simpl. destruct (b_free b) eqn:Hb, (b_free c) eqn:Hc; simpl; by rewrite ?Hb, ?Hc.
Qed.

Lemma live_merge_last l1 m : live (merge_last l1 m) = live (l1 ++ m).
Proof.
  destruct l1 as [| p l1 _] using rev_ind; [done |].
  rewrite merge_last_snoc, <- app_assoc, !live_app, live_merge. simpl.
  destruct (b_free p); by rewrite <- ?insert_union_l, map_empty_union.
Qed.

Lemma live_set_free l1 b l2 : NoDup (addrs (l1 ++ b :: l2)) -> b_free b = false ->
  live (l1 ++ Blk (b_addr b) (b_size b) true :: l2) = delete (b_addr b + HEADER_SIZE) (live (l1 ++ b :: l2)).
Proof.
  intros Hnd Hb. rewrite !live_app. simpl. rewrite Hb.
  unfold addrs in Hnd. rewrite fmap_app in Hnd. simpl in Hnd. fold (addrs l1) (addrs l2) in Hnd.
  apply NoDup_app in Hnd as (_ & Hd & [Hb2 _]%NoDup_cons).
  assert (forall l, b_addr b ∉ addrs l -> live l !! (b_addr b + HEADER_SIZE) = None) as Hn.
  { intros l Hl. apply live_None. by replace (b_addr b + HEADER_SIZE - HEADER_SIZE) with (b_addr b) by lia. }
  rewrite delete_union, delete_insert_id by (by apply Hn).
  rewrite delete_id; [done |]. apply Hn. intros Hx. apply (Hd _ Hx). by left.
Qed.

Lemma freed_live l1 b l2 : NoDup (addrs (l1 ++ b :: l2)) -> b_free b = false ->
  live (freed l1 b l2) = delete (b_addr b + HEADER_SIZE) (live (l1 ++ b :: l2)).
Proof.
  intros Hnd Hb. rewrite <- live_set_free by done. unfold freed.
  by rewrite live_merge_last, !live_app, live_merge.
Qed.

Lemma merge_hd_addr nxt b l : hd_addr nxt (merge (b :: l)) = b_addr b.
Proof. destruct l as [| c l]; [done |]. simpl. by destruct (b_free b && b_free c). Qed.

Lemma hd_addr_merge_last l1 b l2 nxt : hd_addr nxt (merge_last l1 (merge (b :: l2))) = hd_addr nxt (l1 ++ b :: l2).
Proof.
  destruct l1 as [| p l1 _] using rev_ind; [apply merge_hd_addr |].
  by rewrite merge_last_snoc, <- app_assoc, !hd_addr_app, merge_hd_addr.
Qed.

(** The first block of a merged list keeps its links. *)
Lemma seg_merge_hdr h l1 b l2 : seg h 0 (l1 ++ merge (b :: l2)) 0 ->
  exists sz f nxt, h !! b_addr b = Some (Hdr sz f nxt (last_addr 0 l1) HEAP_MAGIC).
Proof.
  intros [_ H]%seg_app. destruct l2 as [| c l2]; simpl in H; [destruct H as [H _]; eauto |].
  destruct (b_free b && b_free c); destruct H as [H _]; eauto.
Qed.

Lemma kfree_spec s l1 b l2 : rep s (l1 ++ b :: l2) -> b_free b = false ->
  exists s', kfree (b_addr b + HEADER_SIZE) s = Some s' /\ rep s' (freed l1 b l2) /\ data s' = data s.
Proof.
  intros Hrep Hb. destruct (rep_acquire _ _ Hrep) as [Hacq Hin]. destruct Hin as [Hh Hs Ht He].
  apply around_tiles in Ht as Har. destruct (around_addrs _ _ _ _ Har (proj2 He)) as (Hlo & Hhi & _).
  pose proof (ar_size _ _ _ _ Har) as Hbs. pose proof Hs as (_ & Hbh & _)%seg_mid.
  unfold kfree. rewrite Hacq. cbn [mbind option_bind]. unfold b_end, HEADER_SIZE, HEAP_START in *.
  rewrite (proj2 (Z.eqb_neq _ 0)) by lia. replace (b_addr b + 40 - 40) with (b_addr b) by lia.
  rewrite (u64_heap (b_addr b)), (hdr_lookup _ _ _ Hbh) by lia. simpl h_magic. simpl h_free. rewrite Hb.
  simpl negb. cbv iota. eexists. split; [done |]. split; [| done]. apply rep_release.
  set (b' := Blk (b_addr b) (b_size b) true).
  assert (around l1 b' l2 (heap_end s)) as Har' by (destruct Har as [? ? ?]; by split).
  pose proof (set_free_seg _ _ _ _ _ true Har (proj2 He) Hs) as Hs1.
  pose proof (coalesce_seg _ _ _ _ _ Har' (proj2 He) Hs1) as Hs2.
  pose proof (merge_around _ _ _ _ Har') as Ht2. simpl b_addr in Hs2.
  cbn [hdrs set_counts]. set (h2 := coalesce (b_addr b) _) in *.
  destruct (seg_merge_hdr h2 l1 b' l2 Hs2) as (sz & f & nxt & Hl).
  change (b_addr b') with (b_addr b) in Hl. rewrite (hdr_lookup _ _ _ Hl). simpl h_prev.
  split; cbn [head hdrs heap_end set_hdrs set_counts]; [| | | done].
  - rewrite Hh. unfold freed. by rewrite hd_addr_merge_last, !hd_addr_app.
  - unfold freed. fold b'. destruct l1 as [| p l1 _] using rev_ind; [done |].
    rewrite last_addr_app, merge_last_snoc. rewrite <- app_assoc in Hs2, Ht2. simpl in Hs2, Ht2 |- *.
    apply around_tiles in Ht2. pose proof (coalesce_seg _ _ _ _ _ Ht2 (proj2 He) Hs2) as Hs3.
    destruct (around_addrs _ _ _ _ Ht2 (proj2 He)) as (Hplo & _). unfold HEAP_START in Hplo.
    by rewrite (proj2 (Z.eqb_neq _ 0)) by lia.
  - unfold freed. fold b'. destruct l1 as [| p l1 _] using rev_ind; [done |].
    rewrite merge_last_snoc. rewrite <- app_assoc in Ht2. apply around_tiles in Ht2. by apply merge_around.
Qed.

Lemma rep_NoDup s l : rep s l -> NoDup (addrs l).
Proof. intros [[_ _ Ht _] _]. by eapply tiles_NoDup. Qed.

Lemma kfree_live s l p n : rep s l -> live l !! p = Some n ->
  exists s' l', kfree p s = Some s' /\ rep s' l' /\ live l' = delete p (live l) /\ data s' = data s.
Proof.
  intros Hrep (l1 & b & l2 & -> & Hb & -> & _)%live_Some.
  destruct (kfree_spec s l1 b l2 Hrep Hb) as (s' & Hk & Hrep' & Hd).
  exists s', (freed l1 b l2). split_and!; try done. apply freed_live; [by eapply rep_NoDup | done].
Qed.

(** Allocated blocks lie in the heap and do not overlap. *)
Lemma live_range s l p n : rep s l -> live l !! p = Some n ->
  HEAP_START + HEADER_SIZE <= p /\ 0 <= n /\ p + n <= heap_end s.
Proof.
  intros [[_ _ Ht _] _] (l1 & b & l2 & -> & _ & -> & ->)%live_Some.
  destruct (tiles_elem _ _ _ b Ht) as (? & ? & ?); [apply elem_of_app; right; left |].
  unfold b_end in *. lia.
Qed.

Lemma tiles_order a l1 b l2 e p n : tiles a (l1 ++ b :: l2) e ->
  live l2 !! p = Some n -> b_end b + HEADER_SIZE <= p.
Proof.
  intros (m & _ & _ & _ & H2)%tiles_app (m1 & c & m2 & -> & _ & -> & _)%live_Some.
  destruct (tiles_elem _ _ _ c H2) as (? & _); [apply elem_of_app; right; left |]. lia.
Qed.

Lemma live_disjoint s l p q n k : rep s l -> live l !! p = Some n -> live l !! q = Some k -> p <> q ->
  p + n <= q \/ q + k <= p.
Proof.
  intros [[_ _ Ht _] _]. revert Ht. generalize HEAP_START as a.
  induction l as [| b l IH]; intros a Ht; simpl; [by rewrite lookup_empty |].
  pose proof Ht as (_ & _ & Htl). destruct (b_free b); [by apply (IH (b_end b)) |].
  rewrite !lookup_insert_Some. unfold HEADER_SIZE.
  intros [[<- <-] | [Hp Hpl]] [[<- <-] | [Hq Hql]] Hne; [done | | | by apply (IH (b_end b))].
  - left. pose proof (tiles_order a [] b l _ q k Ht Hql). unfold b_end, HEADER_SIZE in *. lia.
  - right. pose proof (tiles_order a [] b l _ p n Ht Hpl). unfold b_end, HEADER_SIZE in *. lia.
Qed.

(** ** krealloc *)

Definition byte (d : gmap Z Z) (a : Z) : Z := default 0 (d !! a).

(** Copying between disjoint ranges. *)
Lemma copy_bytes_spec src dst n d : 0 <= n -> src + n <= dst \/ dst + n <= src ->
  (forall i, 0 <= i < n -> byte (copy_bytes src dst n d) (dst + i) = byte d (src + i)) /\
  (forall x, ~ (dst <= x < dst + n) -> byte (copy_bytes src dst n d) x = byte d x).
Proof.
  intros Hn Hdis. unfold copy_bytes.
  apply (for_range_ind (fun m d' =>
    (forall i, 0 <= i < m -> byte d' (dst + i) = byte d (src + i)) /\
    (forall x, ~ (dst <= x < dst + m) -> byte d' x = byte d x))); [done | |].
  - split; [lia | done].
  - intros m d' Hm [Hin Hout]. unfold byte in *. split.
    + intros i Hi. destruct (decide (i = m)) as [-> |].
      * rewrite lookup_insert_eq. simpl. apply Hout. lia.
      * rewrite lookup_insert_ne by lia. apply Hin. lia.
    + intros x Hx. rewrite lookup_insert_ne by lia. apply Hout. lia.
Qed.

(** The inline allocation of [krealloc]. *)
Lemma realloc_place s l size a l' : inside s l -> 0 <= size -> place size l = Some (a, l') ->
  inside (set_hdrs (split_block a size (upd a (set_free false) (hdrs s))) s) l'.
Proof.
  intros [Hh Hs Ht He] Hsz (l1 & b & l2 & -> & _ & Hfit & -> & ->)%place_Some.
  apply andb_prop in Hfit as [_ Hle%Z.leb_le]. apply around_tiles in Ht as Har.
  set (b' := Blk (b_addr b) (b_size b) false).
  assert (around l1 b' l2 (heap_end s)) as Har' by (destruct Har; by split).
  pose proof (set_free_seg _ _ _ _ _ false Har (proj2 He) Hs) as Hs1.
  pose proof (split_block_seg _ size _ _ _ _ Har' (proj2 He) (conj Hsz Hle) Hs1) as Hs2.
  split; simpl; [| exact Hs2 | by apply carve_around | done].
  destruct (carve_cons size false b) as (sz & rest & -> & _). rewrite Hh, !hd_addr_app. done.
Qed.

Lemma set_data_inside d s l : inside s l -> inside (set_data d s) l.
Proof. by intros []. Qed.

Lemma krealloc_spec s l p old n : rep s l -> live l !! p = Some old -> 0 < n < 2 ^ 46 ->
  exists r s' l', krealloc p n s = Some (r, s') /\ rep s' l' /\
    ((r = 0 /\ old < n /\ l' = l /\ data s' = data s) \/
     (r = p /\ n <= old /\ l' = l /\ data s' = data s) \/
     (r <> 0 /\ old < n /\ live l !! r = None /\
      (exists sz, n <= sz /\ live l' = delete p (<[r := sz]> (live l))) /\
      (forall i, 0 <= i < old -> byte (data s') (r + i) = byte (data s) (p + i)) /\
      (forall x, ~ (r <= x < r + old) -> byte (data s') x = byte (data s) x))).
Proof.
  intros Hrep Hlive Hn. destruct (rep_acquire _ _ Hrep) as [Hacq Hin].
  destruct (live_range _ _ _ _ Hrep Hlive) as (Hplo & Hold & Hphi).
  pose proof (in_end _ _ Hin) as He. simpl in He.
  pose proof Hlive as (m1 & ob & m2 & Hl & Hob & Hp & Hsz)%live_Some.
  pose proof (in_seg _ _ Hin) as Hs. rewrite Hl in Hs. apply seg_mid in Hs as (_ & Hoh & _).
  unfold krealloc. rewrite Hacq. cbn [mbind option_bind].
  rewrite (proj2 (Z.eqb_neq p 0)), (proj2 (Z.eqb_neq n 0)) by (unfold HEAP_START, HEADER_SIZE in *; lia).
  cbn [orb]. assert (u64 (p - HEADER_SIZE) = b_addr ob) as ->.
  { rewrite u64_heap; unfold HEAP_START, HEADER_SIZE in *; lia. }
  rewrite (hdr_lookup _ _ _ Hoh). cbn [h_magic h_size]. rewrite Z.eqb_refl, <- Hsz. cbn [negb].
  destruct (Z.leb_spec n old) as [Hle | Hgt].
  { exists p, (release (set_lock 1 s)), l. split_and!; [done | by apply rep_release | right; by left]. }
  destruct (align16_spec n Hn) as ([Han _] & _ & [Ha0 _]). set (m := align16 n) in *. clearbody m.
  rewrite (in_head _ _ Hin), (find_free_place _ _ _ _ 0 (in_seg _ _ Hin) (inside_zero _ _ Hin))
    by (eapply seg_fuel; [by eapply rep_NoDup | apply Hin]).
  cbn [mbind option_bind]. destruct (place m l) as [[a l'] |] eqn:Hpl; cbn [fmap option_fmap option_map fst];
    [| exists 0, (release (set_lock 1 s)), l; split_and!; [done | by apply rep_release | by left]].
  pose proof (realloc_place _ _ _ _ _ Hin Ha0 Hpl) as Hin1.
  destruct (place_live m l a l' (rep_NoDup _ _ Hrep) Ha0 Hpl) as (Hnone & sz & Hsz' & Hlive').
  cbn [hdrs set_lock] in *. set (h := split_block a m _) in *. set (r := a + HEADER_SIZE) in *.
  assert (p <> r) as Hpr by congruence.
  assert (live l' !! p = Some old) as Hlp by (by rewrite Hlive', lookup_insert_ne).
  assert (live l' !! r = Some sz) as Hlr by (by rewrite Hlive', lookup_insert_eq).
  pose proof (rep_release _ _ Hin1) as Hrep1.
  destruct (live_range _ _ _ _ Hrep1 Hlr) as (Hrlo & _ & Hrhi).
  pose proof (live_disjoint _ _ _ _ _ _ Hrep1 Hlp Hlr Hpr) as Hdis.
  assert (u64 r = r) as -> by (apply u64_heap; simpl in Hrhi; unfold HEAP_START, HEADER_SIZE in *; lia).
  pose proof Hlp as (k1 & ob' & k2 & -> & Hob' & Hp' & Hsz2)%live_Some.
  assert (b_addr ob' = b_addr ob) as Hao by lia. rewrite <- Hao.
  destruct Hin1 as [Hh1 Hs1 Ht1 He1]. cbn [head hdrs heap_end set_hdrs set_lock] in *.
  pose proof Hs1 as (_ & Hoh' & _)%seg_mid. rewrite (hdr_lookup _ _ _ Hoh'). cbn [h_size].
  rewrite <- Hsz2, (proj2 (Z.ltb_lt old m)) by lia.
  apply around_tiles in Ht1 as Har. pose proof (set_free_seg _ _ _ _ _ true Har (proj2 He1) Hs1) as Hs2.
  destruct (copy_bytes_spec p r old (data s)) as [Hc1 Hc2]; [done | lia |].
  eexists r, _, (k1 ++ Blk (b_addr ob') (b_size ob') true :: k2). split; [done |]. split.
  - apply rep_release. split; cbn [head hdrs heap_end set_hdrs set_data set_lock]; [| done | | done].
    + rewrite Hh1, !hd_addr_app. done.
    + destruct Har. by apply around_tiles.
  - right. right. split_and!; [unfold HEAP_START, HEADER_SIZE in *; lia | done | done | | done | done].
    exists sz. split; [lia |]. rewrite live_set_free, <- Hp', Hlive'; [done | by eapply tiles_NoDup | done].
Qed.

(** ** Backing pages *)

Definition mapped (v : Vmm.state) (a : Z) : Prop := Vmm.translate v (Vmm.kernel_pml4 v) a <> 0.

(** The kernel space is well formed and every address of the heap translates. *)
Definition backed (s : state) : Prop :=
  Vmm.pt_wf (vmm s) (Vmm.kernel_pml4 (vmm s)) /\ heap_end s mod 4096 = 0 /\
  forall a, HEAP_START <= a < heap_end s -> mapped (vmm s) a.

Lemma phys_mapped m r m' a : Pmm.wf m -> Pmm.alloc_frame m = (r, m') -> r <> 0 ->
  Vmm.entry_phys r + (a .& 0xFFF) <> 0.
Proof.
  intros Hwf Ha Hr. destruct (Pmm.alloc_frame_ok _ _ _ Hwf Ha Hr) as (f & -> & Hf & _).
  pose proof (Pmm.wf_total _ Hwf) as Ht. rewrite Pmm.max_frames_val in Ht.
  pose proof (Vmm.off_4k_bound a). unfold Pmm.PAGE_SIZE.
  rewrite Vmm.entry_phys_idem; [lia | pow2; lia | pow2; by apply Z.mod_mul].
Qed.

(** One iteration of the mapping loop: the page is mapped unless its tables took
    the last frame. *)
Lemma map_one_page v i base v' : Vmm.pt_wf v (Vmm.kernel_pml4 v) ->
  HEAP_START <= base -> base mod 4096 = 0 -> 0 <= i -> base + i * 4096 + 4096 <= HEAP_MAX ->
  (let '(phys, p) := Pmm.alloc_frame (Vmm.pmm v) in
   let v := Vmm.set_pmm p v in
   if phys =? 0 then (Some tt, v)
   else (None, snd (Vmm.map_page (Vmm.kernel_pml4 v) (u64 (base + i * Pmm.PAGE_SIZE)) phys
                      Vmm.KERNEL_RW v))) = (None, v') ->
  Vmm.kernel_pml4 v' = Vmm.kernel_pml4 v /\ Vmm.pt_wf v' (Vmm.kernel_pml4 v') /\
  (forall a, mapped v a -> mapped v' a) /\
  (Vmm.out_of_frames v' \/ forall a, base + i * 4096 <= a < base + i * 4096 + 4096 -> mapped v' a).
Proof.
  intros Hwf Hlo Hal Hi Hhi. destruct (Pmm.alloc_frame (Vmm.pmm v)) as [phys p] eqn:Ha.
  cbv zeta. destruct (Z.eqb_spec phys 0) as [| Hne]; [done |]. intros [= <-].
  set (v1 := Vmm.set_pmm p v). set (va := u64 (base + i * Pmm.PAGE_SIZE)).
  change (Vmm.kernel_pml4 v1) with (Vmm.kernel_pml4 v). set (k := Vmm.kernel_pml4 v) in *.
  pose proof (Vmm.pt_wf_alloc v k phys p Hwf Ha Hne) as Hwf1. fold v1 in Hwf1.
  assert (Vmm.page_flags Vmm.KERNEL_RW) as Hfl by (by split_and!).
  pose proof (Vmm.map_page_kernel k va phys Vmm.KERNEL_RW v1) as Hk.
  destruct (Vmm.map_page k va phys Vmm.KERNEL_RW v1) as [ok v2] eqn:Hm. simpl in Hk |- *.
  destruct (Vmm.map_page_spec v1 k va phys _ ok v2 Hwf1 Hfl Hm) as [Hwf2 H].
  unfold mapped. rewrite Hk. change (Vmm.kernel_pml4 v) with k. split_and!; [done | done | |].
  - intros a Ha'. rewrite <- (Vmm.translate_ctl v v1 k a eq_refl) in Ha'.
    destruct ok; destruct H as [H1 H2]; [| by rewrite H2].
    destruct (decide (Vmm.vpage a = Vmm.vpage va)); [| by rewrite H2].
    rewrite H1 by done. exact (phys_mapped _ _ _ a (Vmm.pw_pmm _ _ Hwf) Ha Hne).
  - destruct ok; destruct H as [H1 H2]; [right | by left]. intros a Ha'. rewrite H1.
    + exact (phys_mapped _ _ _ a (Vmm.pw_pmm _ _ Hwf) Ha Hne).
    + unfold va, Pmm.PAGE_SIZE, HEAP_START, HEAP_MAX in *. rewrite u64_small by (mach; lia).
      unfold Vmm.vpage. change (2 ^ 48) with 281474976710656. pow2. divlia.
Qed.

Lemma map_pages_spec v base n r v' : Vmm.pt_wf v (Vmm.kernel_pml4 v) ->
  HEAP_START <= base -> base mod 4096 = 0 -> 0 <= n -> base + n * 4096 <= HEAP_MAX ->
  map_pages base n v = (r, v') ->
  Vmm.pt_wf v' (Vmm.kernel_pml4 v') /\ (forall a, mapped v a -> mapped v' a) /\
  (r = None -> Vmm.out_of_frames v' \/ forall a, base <= a < base + n * 4096 -> mapped v' a).
Proof.
  intros Hwf Hlo Hal Hn Hhi Hm. set (body := fun (i : Z) (v : Vmm.state) =>
    let '(phys, p) := Pmm.alloc_frame (Vmm.pmm v) in
    let v := Vmm.set_pmm p v in
    if phys =? 0 then (Some tt, v)
    else (None, snd (Vmm.map_page (Vmm.kernel_pml4 v) (u64 (base + i * Pmm.PAGE_SIZE)) phys Vmm.KERNEL_RW v))).
  set (I := fun (i : Z) (x : Vmm.state) =>
    Vmm.pt_wf x (Vmm.kernel_pml4 x) /\ (forall a, mapped v a -> mapped x a) /\
    (Vmm.out_of_frames x \/ forall a, base <= a < base + i * 4096 -> mapped x a)).
  assert (Hstep : forall i x x', 0 <= i < n -> I i x -> body i x = (None, x') -> I (i + 1) x').
  { intros i x x' Hi (Hwfx & Hmx & Hrx) Hb.
    destruct (map_one_page x i base x' Hwfx Hlo Hal) as (Hk & Hwf' & Hm' & Hr'); [lia | lia | exact Hb |].
    unfold I. split_and!; [done | auto |]. destruct Hr' as [| Hr']; [by left |]. right. intros a Ha.
    destruct (decide (base + i * 4096 <= a)); [apply Hr'; lia |].
    destruct Hrx as [Hout | Hrx]; [| apply Hm', Hrx; lia].
    unfold body, Vmm.out_of_frames in *. destruct (Pmm.alloc_frame (Vmm.pmm x)) as [phys p].
    simpl in Hout. subst phys. discriminate Hb. }
  assert (H0 : I 0 v) by (unfold I; split_and!; [done | done | right; lia]).
  pose proof (for_exit_ind I body n 0 v Hn H0 Hstep) as Hind.
  change (for_exit 0 n body v) with (map_pages base n v) in Hind. rewrite Hm in Hind.
  destruct r as [[] |]; [| by destruct Hind as (? & ? & ?)].
  destruct Hind as (i & x & Hi & (Hwfx & Hmx & _) & Hb). unfold body in Hb.
  destruct (Pmm.alloc_frame (Vmm.pmm x)) as [phys p] eqn:Ha. cbv zeta in Hb.
  destruct (Z.eqb_spec phys 0) as [-> | Hne]; [| discriminate Hb]. injection Hb as <-.
  destruct (Pmm.alloc_frame_fail _ _ (Vmm.pw_pmm _ _ Hwfx) Ha) as [-> _].
  assert (Vmm.set_pmm (Vmm.pmm x) x = x) as -> by by destruct x. by split_and!.
Qed.

Lemma append_block_vmm b s s' : append_block b s = Some s' -> vmm s' = vmm s /\ heap_end s' = heap_end s.
Proof.
  unfold append_block. destruct (head s =? 0); [by intros [= <-] |].
  destruct (last_block _ _ _); simpl; [by intros [= <-] | done].
Qed.

Lemma expand_backed s needed r s' : HEAP_START <= heap_end s <= HEAP_MAX -> request_ok needed -> backed s ->
  expand needed s = Some (r, s') -> Vmm.out_of_frames (vmm s') \/ backed s'.
Proof.
  intros Hend Hreq (Hwf & Hal & Hmap). destruct (pages_for_spec needed Hreq) as (Hp1 & Hp2 & Hp3). unfold expand.
  set (n := pages_for needed) in *. clearbody n.
  unfold HEADER_SIZE, Pmm.PAGE_SIZE in *. change (2 ^ 47) with 140737488355328 in *.
  unfold request_ok in Hreq. cbv zeta. cbn [heap_end hdrs set_vmm set_hdrs].
  rewrite (u64_small (n * 4096)), (u64_small (heap_end s + _)) by (unfold HEAP_START, HEAP_MAX in *; mach; lia).
  destruct (Z.ltb_spec HEAP_MAX (heap_end s + n * 4096)); [intros [= <- <-]; by right |].
  destruct (map_pages (heap_end s) n (vmm s)) as [u v] eqn:Hm.
  destruct (map_pages_spec (vmm s) (heap_end s) n u v Hwf) as (Hwf' & Hold & Hnew); try done; try lia.
  destruct u as [u |].
  { intros [= <- <-]. right. split_and!; simpl; [done | done | auto]. }
  destruct (append_block _ _) as [s2 |] eqn:Happ; [| done]. intros [= <- <-].
  apply append_block_vmm in Happ as [Hv He]. simpl in Hv, He. unfold backed. rewrite Hv, He.
  destruct (Hnew eq_refl) as [| Hnew']; [by left | right]. split_and!; [done | divlia |].
  intros a Ha. destruct (decide (a < heap_end s)); [apply Hold, Hmap; lia | apply Hnew'; lia].
Qed.

(** ** The operations together *)

(** The states a client reaches from [init] by calls it may make, with the
    blocks it holds: user pointer and requested size. *)
Inductive reach : state -> gmap Z Z -> Prop :=
| reach_init s0 s : heap_lock s0 = 0 -> init s0 = Some s -> reach s ∅
| reach_malloc s own n r s' : reach s own -> 0 < n < 2 ^ 46 -> kmalloc n s = Some (r, s') ->
    reach s' (if r =? 0 then own else <[r := n]> own)
| reach_free s own p n s' : reach s own -> own !! p = Some n -> kfree p s = Some s' ->
    reach s' (delete p own)
| reach_realloc s own p n m r s' : reach s own -> own !! p = Some n -> 0 < m < 2 ^ 46 ->
    krealloc p m s = Some (r, s') ->
    reach s' (if r =? 0 then own else <[r := m]> (delete p own)).

(** Every held block is an allocated block at least as large as the request. *)
Definition holds (l : list Block) (own : gmap Z Z) : Prop :=
  forall p n, own !! p = Some n -> exists sz, n <= sz /\ live l !! p = Some sz.

Lemma init_spec s : heap_lock s = 0 -> exists s' l, init s = Some s' /\ rep s' l.
Proof.
  intros Hl. unfold init. set (s1 := set_counts 0 0 _).
  assert (inside s1 []) as Hin by (by split).
  assert (request_ok 0) as Hreq by (split; [done | by compute]).
  destruct (expand_spec s1 [] 0 Hin Hreq) as (r & s2 & -> & Hlk & _ & [[-> H] | (sz & _ & -> & H)]); simpl;
    eexists _, _; (split; [done |]); (split; [exact H |]); rewrite Hlk; exact Hl.
Qed.

Lemma init_backed s s' : Vmm.pt_wf (vmm s) (Vmm.kernel_pml4 (vmm s)) -> init s = Some s' ->
  Vmm.out_of_frames (vmm s') \/ backed s'.
Proof.
  intros Hwf. unfold init. set (s1 := set_counts 0 0 _).
  destruct (expand 0 s1) as [[r s2] |] eqn:He; [| done]. cbn [mbind option_bind]. intros [= <-].
  apply (expand_backed s1 0 r s2); [by compute | by compute | | exact He].
  split_and!; [exact Hwf | done | intros a Ha; simpl in Ha; lia].
Qed.

Lemma reach_rep s own : reach s own -> exists l, rep s l /\ holds l own.
Proof.
  induction 1 as [s0 s Hl Hi | s own n r s' _ (l & Hrep & Hh) Hn Hk | s own p n s' _ (l & Hrep & Hh) Hp Hk
    | s own p n m r s' _ (l & Hrep & Hh) Hp Hm Hk].
  - destruct (init_spec s0 Hl) as (s' & l & Hi' & Hrep). exists l. split; [congruence |].
    intros p n. by rewrite lookup_empty.
  - destruct (kmalloc_live s l n Hrep Hn) as (r' & s2 & l' & Hk' & Hrep' & _ & Hr).
    rewrite Hk in Hk'. injection Hk' as <- <-. exists l'. split; [done |].
    destruct Hr as [[-> ->] | (Hr & Hnone & sz & Hsz & Hlive)]; [done |].
    rewrite (proj2 (Z.eqb_neq r 0)) by done. intros q k. rewrite Hlive, lookup_insert_Some.
    intros [[<- <-] | [Hne Hq]].
    + exists sz. by rewrite lookup_insert_eq.
    + rewrite lookup_insert_ne by done. by apply Hh.
  - destruct (Hh p n Hp) as (sz & _ & Hlp).
    destruct (kfree_live s l p sz Hrep Hlp) as (s2 & l' & Hk' & Hrep' & Hlive & _).
    rewrite Hk in Hk'. injection Hk' as <-. exists l'. split; [done |].
    intros q k. rewrite Hlive, lookup_delete_Some. intros [Hne Hq]. rewrite lookup_delete_ne by done. by apply Hh.
  - destruct (Hh p n Hp) as (old & _ & Hlp).
    destruct (krealloc_spec s l p old m Hrep Hlp Hm) as (r' & s2 & l' & Hk' & Hrep' & Hr).
    rewrite Hk in Hk'. injection Hk' as <- <-. exists l'. split; [done |].
    destruct (live_range _ _ _ _ Hrep Hlp) as (Hp0 & _). unfold HEAP_START, HEADER_SIZE in Hp0.
    destruct Hr as [(-> & _ & -> & _) | [(-> & Hle & -> & _) | (Hr & _ & Hnone & (sz & Hsz & Hlive) & _)]]; [done | |].
    + rewrite (proj2 (Z.eqb_neq p 0)) by lia. intros q k. rewrite lookup_insert_Some, lookup_delete_Some.
      intros [[<- <-] | (Hne & _ & Hq)]; [by exists old | by apply Hh].
    + rewrite (proj2 (Z.eqb_neq r 0)) by done. assert (r <> p) by congruence.
      intros q k. rewrite Hlive, lookup_insert_Some, lookup_delete_Some.
      intros [[<- <-] | (Hne & Hne2 & Hq)].
      * exists sz. split; [done |]. rewrite lookup_delete_ne, lookup_insert_eq by done. done.
      * rewrite lookup_delete_ne, lookup_insert_ne by done. by apply Hh.
Qed.

(** ** Results *)

(** C8: [kmalloc] refines first-fit placement on the list of blocks.  For every
    request it returns; it returns null with the blocks unchanged only when no
    free block is large enough, and otherwise the user pointer of the first block
    that is, cut to the request rounded up to 16 bytes, after the heap has grown
    by one free block if none was.  User data is not touched. *)
Theorem kmalloc_refines s l size : rep s l -> 0 < size < 2 ^ 46 ->
  exists r s' l', kmalloc size s = Some (r, s') /\ rep s' l' /\ data s' = data s /\
    size <= align16 size < size + 16 /\
    ((r = 0 /\ l' = l /\ place (align16 size) l = None) \/
     (place (align16 size) l = Some (r - HEADER_SIZE, l')) \/
     (place (align16 size) l = None /\
      exists sz, place (align16 size) (l ++ [Blk (heap_end s) sz true]) = Some (r - HEADER_SIZE, l'))).
Proof.
  intros Hrep Hsize. destruct (align16_spec size Hsize) as (Ha & _).
  destruct (kmalloc_spec s l size Hrep Hsize) as (r & s' & l' & ? & ? & ? & ?).
  exists r, s', l'. tauto.
Qed.

(** C9: [kfree] refines freeing a block in the list: an allocated block becomes
    free, merged with its successor and then with its predecessor when these are
    free, so the block leaves the allocated ones and no other block does; a null
    pointer and a block that is already free change nothing. *)
Theorem kfree_refines s l1 b l2 : rep s (l1 ++ b :: l2) ->
  kfree 0 s = Some s /\
  (if b_free b then kfree (b_addr b + HEADER_SIZE) s = Some s
   else exists s', kfree (b_addr b + HEADER_SIZE) s = Some s' /\ rep s' (freed l1 b l2) /\
          live (freed l1 b l2) = delete (b_addr b + HEADER_SIZE) (live (l1 ++ b :: l2)) /\
          data s' = data s).
Proof.
  intros Hrep. pose proof Hrep as [Hin Hl].
  assert (release (set_lock 1 s) = s) as Hlock by (destruct s; simpl in Hl; by subst).
  split; [unfold kfree, acquire; rewrite Hl; simpl; by rewrite Hlock |].
  destruct (b_free b) eqn:Hb.
  - destruct Hin as [_ Hs Ht He]. apply around_tiles in Ht as Har.
    destruct (around_addrs _ _ _ _ Har (proj2 He)) as (Hlo & Hhi & _).
    pose proof Hs as (_ & Hbh & _)%seg_mid. unfold kfree, acquire. rewrite Hl. simpl.
    unfold b_end, HEADER_SIZE, HEAP_START in *. pose proof (ar_size _ _ _ _ Har).
    rewrite (proj2 (Z.eqb_neq _ 0)) by lia. replace (b_addr b + 40 - 40) with (b_addr b) by lia.
    rewrite (u64_heap (b_addr b)), (hdr_lookup _ _ _ Hbh) by lia. simpl. by rewrite Hb, Hlock.
  - destruct (kfree_spec s l1 b l2 Hrep Hb) as (s' & ? & ? & ?). exists s'. split_and!; try done.
    apply freed_live; [by eapply rep_NoDup | done].
Qed.

(** [krealloc] of an allocated block either returns the same pointer because
    the block is large enough, or null with nothing changed, or a new block large
    enough for the request that holds the bytes of the old one, which is freed;
    no byte outside the new block changes. *)
Theorem krealloc_preserves s l p old n : rep s l -> live l !! p = Some old -> 0 < n < 2 ^ 46 ->
  exists r s' l', krealloc p n s = Some (r, s') /\ rep s' l' /\
    ((r = 0 /\ old < n /\ l' = l /\ data s' = data s) \/
     (r = p /\ n <= old /\ l' = l /\ data s' = data s) \/
     (r <> 0 /\ old < n /\ live l !! r = None /\
      (exists sz, n <= sz /\ live l' = delete p (<[r := sz]> (live l))) /\
      (forall i, 0 <= i < old -> byte (data s') (r + i) = byte (data s) (p + i)) /\
      (forall x, ~ (r <= x < r + old) -> byte (data s') x = byte (data s) x))).
Proof. apply krealloc_spec. Qed.


(** As long as the frame allocator is not exhausted, [kmalloc] keeps every
    address of the heap, and so every block it returns, translated by a
    well-formed kernel address space. *)
Theorem kmalloc_backed s l size r s' : rep s l -> 0 < size < 2 ^ 46 -> backed s ->
  kmalloc size s = Some (r, s') -> Vmm.out_of_frames (vmm s') \/ backed s'.
Proof.
  intros Hrep Hsize Hb. destruct (rep_acquire _ _ Hrep) as [Hacq Hin]. unfold kmalloc. rewrite Hacq.
  cbn [mbind option_bind]. rewrite (proj2 (Z.eqb_neq size 0)) by lia.
  destruct (align16_spec size Hsize) as (_ & _ & Hreq). set (n := align16 size) in *. clearbody n.
  assert (backed (set_lock 1 s)) as Hb1 by done.
  destruct (find_fit _ _ _ _) as [[blk | |] |]; cbn [mbind option_bind]; [| | intros [= <- <-]; by right | done].
  - unfold take_block. intros [= <- <-]. by right.
  - destruct (expand n (set_lock 1 s)) as [[blk s1] |] eqn:He; cbn [mbind option_bind]; [| done].
    destruct (expand_backed _ _ _ _ (in_end _ _ Hin) Hreq Hb1 He) as [Ho | Hb2].
    + destruct (blk =? 0); intros [= <- <-]; by left.
    + destruct (blk =? 0); intros [= <- <-]; by right.
Qed.

(** [kcalloc] takes the lock and then calls [kmalloc], which takes it again: it
    never returns, whatever it is asked for. *)
Lemma kcalloc_deadlocks count size s : kcalloc count size s = None.
Proof. unfold kcalloc, acquire. destruct (heap_lock s =? 0) eqn:Hl; [| done]. simpl. unfold kmalloc, acquire. done. Qed.

(** The heap implements the interface of its clients. *)
#[export, program] Instance heap_allocator : Alloc.Allocator state := {|
  Alloc.kmalloc := kmalloc;
  Alloc.kfree := kfree;
  Alloc.blocks := fun s m => exists l, rep s l /\ live l = m;
|}.
Next Obligation.
  intros s m n (l & Hrep & <-) Hn. destruct (kmalloc_live s l n Hrep Hn) as (r & s' & l' & Hk & Hrep' & _ & Hr).
  exists r, s'. split; [done |]. destruct Hr as [[-> ->] | (Hr & Hnone & sz & Hsz & Hl)]; [left; eauto | right].
  split_and!; try done. exists sz. split; [done |]. by exists l'.
Qed.
Next Obligation.
  intros s m p (l & Hrep & <-) [n Hl]. destruct (kfree_live s l p n Hrep Hl) as (s' & l' & Hk & Hrep' & Hl' & _).
  exists s'. split; [done |]. by exists l'.
Qed.
Next Obligation.
  intros s m (l & Hrep & <-). pose proof Hrep as [_ Hl].
  exists s. split; [| by exists l]. unfold kfree, acquire. rewrite Hl. simpl. destruct s; simpl in *; by subst.
Qed.
Next Obligation. intros s m p q n k (l & Hrep & <-). by eapply live_disjoint. Qed.
Next Obligation.
  intros s m p n (l & Hrep & <-) Hl. destruct (live_range _ _ _ _ Hrep Hl) as (H1 & H2 & H3).
  pose proof Hrep as [[_ Hs Ht He] _]. pose proof Hl as (l1 & b & l2 & -> & _ & -> & _)%live_Some.
  apply around_tiles in Ht as Har. destruct (around_addrs _ _ _ _ Har (proj2 He)) as (? & ? & _).
  unfold Alloc.heap_range, b_end, HEAP_START, HEAP_MAX, HEADER_SIZE in *. lia.
Qed.

(** ** Examples *)

(** The heap after [init] over the small machine of [Vmm]. *)
Definition demo_vmm : Vmm.state := Vmm.set_kernel_pml4 Vmm.demo_root Vmm.demo.
Definition demo0 : state := State demo_vmm ∅ ∅ 0 0 0 0 0.
Definition demo : state := default demo0 (init demo0).

Lemma demo_rep : rep demo [Blk HEAP_START 4056 true].
Proof. split; [split |]; by vm_compute. Qed.

Lemma demo_init : init demo0 = Some demo.
Proof.
  destruct (init_spec demo0 eq_refl) as (s' & l & Hi & _). unfold demo. rewrite Hi. done.
Qed.

Lemma over_kernel v root : Vmm.pt_wf v root ->
  Vmm.pt_wf (Vmm.set_kernel_pml4 root v) (Vmm.kernel_pml4 (Vmm.set_kernel_pml4 root v)).
Proof. by apply Vmm.pt_wf_ctl. Qed.

Lemma demo_backed : backed demo.
Proof.
  destruct (init_backed demo0 demo) as [Ho | Hb]; [| exact demo_init | | exact Hb].
  - unfold demo0, demo_vmm. cbn [vmm]. exact (over_kernel _ _ Vmm.vmm_demo_wf).
  - exfalso. revert Ho. vm_compute. discriminate.
Qed.

(** A block of 100 bytes, then a request that needs new pages. *)
Definition demo1 : state := default demo0 (snd <$> kmalloc 100 demo).

Lemma demo1_rep : rep demo1 [Blk HEAP_START 112 false; Blk (HEAP_START + 152) 3904 true].
Proof. split; [split |]; by vm_compute. Qed.

Lemma kmalloc_refines_witness : exists r s' l', kmalloc 100 demo = Some (r, s') /\ rep s' l' /\
  r = HEAP_START + HEADER_SIZE /\ l' = [Blk HEAP_START 112 false; Blk (HEAP_START + 152) 3904 true].
Proof.
  destruct (kmalloc_refines demo _ 100 demo_rep) as (r & s' & l' & Hk & Hrep & _ & _ & H); [by compute |].
  exists r, s', l'. split; [exact Hk |]. split; [exact Hrep |].
  assert (place (align16 100) [Blk HEAP_START 4056 true] =
    Some (HEAP_START, [Blk HEAP_START 112 false; Blk (HEAP_START + 152) 3904 true])) as Hp by (by vm_compute).
  rewrite Hp in H. destruct H as [(_ & _ & H) | [H | (H & _)]]; try discriminate H.
  injection H as Hr <-. split; [lia | reflexivity].
Defined.

Lemma kfree_refines_witness : exists s', kfree (HEAP_START + HEADER_SIZE) demo1 = Some s' /\
  rep s' [Blk HEAP_START 4056 true] /\ kfree 0 demo1 = Some demo1.
Proof.
  destruct (kfree_refines demo1 [] _ _ demo1_rep) as [H0 (s' & Hk & Hrep & _)].
  exists s'. exact (conj Hk (conj Hrep H0)).
Defined.

Lemma krealloc_preserves_witness : exists r s', krealloc (HEAP_START + HEADER_SIZE) 1000 demo1 = Some (r, s') /\
  r = HEAP_START + 152 + HEADER_SIZE /\
  forall i, 0 <= i < 112 -> byte (data s') (r + i) = byte (data demo1) (HEAP_START + HEADER_SIZE + i).
Proof.
  destruct (krealloc_preserves demo1 _ (HEAP_START + HEADER_SIZE) 112 1000 demo1_rep)
    as (r & s' & l' & Hk & _ & H); [by vm_compute | by compute |].
  assert (fst <$> krealloc (HEAP_START + HEADER_SIZE) 1000 demo1 = Some (HEAP_START + 152 + HEADER_SIZE)) as Hr
    by (by vm_compute).
  rewrite Hk in Hr. injection Hr as Hr. exists r, s'. split; [exact Hk |]. split; [exact Hr |].
  destruct H as [(-> & _) | [(_ & H & _) | (_ & _ & _ & _ & Hc & _)]];
    [unfold HEAP_START, HEADER_SIZE in Hr; lia | lia | exact Hc].
Defined.


Lemma kmalloc_backed_witness : exists r s', kmalloc 5000 demo = Some (r, s') /\ r <> 0 /\ backed s'.
Proof.
  assert (0 < 5000 < 2 ^ 46) as Hn by (by compute).
  destruct (kmalloc_spec demo _ 5000 demo_rep Hn) as (r & s' & _ & Hk & _).
  assert (fst <$> kmalloc 5000 demo = Some (HEAP_START + 4096 + HEADER_SIZE)) as Hr by (by vm_compute).
  assert ((fun x => fst (Pmm.alloc_frame (Vmm.pmm (vmm (snd x))))) <$> kmalloc 5000 demo <> Some 0) as Ho
    by (vm_compute; discriminate).
  rewrite Hk in Hr, Ho. injection Hr as Hr. exists r, s'. split; [exact Hk |].
  split; [unfold HEAP_START, HEADER_SIZE in Hr; lia |].
  destruct (kmalloc_backed demo _ 5000 r s' demo_rep Hn demo_backed Hk) as [Hout | Hb]; [| exact Hb].
  exfalso. apply Ho. exact (f_equal Some Hout).
Defined.

(** A request close to [2^64] wraps to a small one: the caller gets a block of
    4056 bytes. *)
Lemma kmalloc_wraps_request :
  fst <$> kmalloc 0xFFFFFFFFFFFFFFF1 demo = Some (HEAP_START + HEADER_SIZE) /\ align16 0xFFFFFFFFFFFFFFF1 = 0.
Proof. by vm_compute. Qed.
