(* ===== verification/Paging.v ===== *)
(** * Heaps that also hold the page tables

    The kernel heap and the page tables share physical memory, and the heap's state
    contains the memory manager's.  What the scheduler and the program loader need
    of that is a view of the memory manager that leaves the blocks of the heap
    alone. *)
From S2P Require Import Prelude Alloc.
From S2P Require Vmm Heap.

Class Paging (H : Type) `{!Allocator H} := {
  vm : H -> Vmm.state;
  set_vm : Vmm.state -> H -> H;
  vm_set : forall v h, vm (set_vm v h) = v;
  set_vm_blocks : forall v h m, blocks h m -> blocks (set_vm v h) m;
}.

(** The kernel heap. *)
#[local] Existing Instance Heap.heap_allocator.

Lemma rep_set_vmm s l v : Heap.rep s l -> Heap.rep (Heap.set_vmm v s) l.
Proof. intros [[H1 H2 H3 H4] Hl]. split; [| done]. split; try done. Qed.

#[export] Instance heap_paging : Paging Heap.state.
Proof.
  refine {| vm := Heap.vmm; set_vm := Heap.set_vmm |}; [done |].
  intros v h m (l & Hrep & Hl). exists l. split; [by apply rep_set_vmm | done].
Defined.

(** The allocator that never reuses memory, beside a memory manager. *)
Definition bump_vm : Type := Bump.state * Vmm.state.

#[export] Instance bump_vm_allocator : Allocator bump_vm.
Proof.
  refine {| kmalloc := fun n s => '(p, b) ← Bump.kmalloc n s.1; Some (p, (b, s.2));
            kfree := fun p s => b ← Bump.kfree p s.1; Some (b, s.2);
            blocks := fun s m => Bump.blocks s.1 m |}.
  - intros s m n Hb Hn. destruct (Bump.bump_malloc s.1 m n Hb Hn) as (r & b & -> & Hr). by exists r, (b, s.2).
  - intros s m p Hb _. destruct (Bump.bump_free s.1 m p Hb) as (b & -> & Hb'). by exists (b, s.2).
  - intros s m Hb. destruct (@kfree_null _ Bump.bump_allocator s.1 m Hb) as (b & Hf & Hb').
    cbn in Hf. rewrite Hf. by exists (b, s.2).
  - intros s. apply (@blocks_disjoint _ Bump.bump_allocator s.1).
  - intros s. apply (@blocks_range _ Bump.bump_allocator s.1).
Defined.

#[export] Instance bump_vm_paging : Paging bump_vm.
Proof. refine {| vm := snd; set_vm := fun v s => (s.1, v) |}; done. Defined.
