(* ===== verification/Keyboard.v ===== *)
(** * drivers/keyboard.cpp: the PS/2 keyboard driver

    The interrupt handler turns scancodes into events and stores them in a ring
    of 64 slots; a reader takes them out or registers itself as the waiting task.
    Calls into the interrupt controller and the scheduler are the effects a step
    returns. *)
From S2P Require Import Prelude Ring.

(** ** Data *)

Definition KEY_UP : Z := 0xC8.
Definition KEY_DOWN : Z := 0xD0.
Definition KEY_LEFT : Z := 0xCB.
Definition KEY_RIGHT : Z := 0xCD.
Definition KEY_HOME : Z := 0xC7.
Definition KEY_END : Z := 0xCF.
Definition KEY_PGUP : Z := 0xC9.
Definition KEY_PGDN : Z := 0xD1.
Definition KEY_DEL : Z := 0xD3.
Definition KEY_INS : Z := 0xD2.

Record KeyEvent := Event {
  ascii : Z; scancode : Z; pressed : bool; shift : bool; ctrl : bool; alt : bool;
}.
#[global] Instance KeyEvent_eq_dec : EqDecision KeyEvent.
Proof. solve_decision. Defined.
Definition no_event : KeyEvent := Event 0 0 false false false false.

Definition BUF_SIZE : Z := 64.
Definition SC_LSHIFT : Z := 0x2A.
Definition SC_RSHIFT : Z := 0x36.
Definition SC_LCTRL : Z := 0x1D.
Definition SC_LALT : Z := 0x38.
Definition SC_CAPS : Z := 0x3A.

(** Character codes; an index past the initialisers reads 0. *)
Definition scancode_map : list Z :=
  [0; 0; 49; 50; 51; 52; 53; 54; 55; 56; 57; 48; 45; 61; 8;
   9; 113; 119; 101; 114; 116; 121; 117; 105; 111; 112; 91; 93; 10;
   0; 97; 115; 100; 102; 103; 104; 106; 107; 108; 59; 39; 96;
   0; 92; 122; 120; 99; 118; 98; 110; 109; 44; 46; 47; 0;
   42; 0; 32].
Definition scancode_shift : list Z :=
  [0; 0; 33; 64; 35; 36; 37; 94; 38; 42; 40; 41; 95; 43; 8;
   9; 81; 87; 69; 82; 84; 89; 85; 73; 79; 80; 123; 125; 10;
   0; 65; 83; 68; 70; 71; 72; 74; 75; 76; 58; 34; 126;
   0; 124; 90; 88; 67; 86; 66; 78; 77; 60; 62; 63; 0;
   42; 0; 32].
Definition table (l : list Z) (key : Z) : Z := default 0 (l !! Z.to_nat key).

Record state := State {
  shift_held : bool;
  ctrl_held : bool;
  alt_held : bool;
  caps_lock : bool;
  e0_prefix : bool;
  buf : gmap Z KeyEvent;
  buf_head : Z;
  buf_tail : Z;
  waiting_task : Z;
}.

Definition set_shift x s := State x (ctrl_held s) (alt_held s) (caps_lock s) (e0_prefix s) (buf s) (buf_head s) (buf_tail s) (waiting_task s).
Definition set_ctrl x s := State (shift_held s) x (alt_held s) (caps_lock s) (e0_prefix s) (buf s) (buf_head s) (buf_tail s) (waiting_task s).
Definition set_alt x s := State (shift_held s) (ctrl_held s) x (caps_lock s) (e0_prefix s) (buf s) (buf_head s) (buf_tail s) (waiting_task s).
Definition set_caps x s := State (shift_held s) (ctrl_held s) (alt_held s) x (e0_prefix s) (buf s) (buf_head s) (buf_tail s) (waiting_task s).
Definition set_e0 x s := State (shift_held s) (ctrl_held s) (alt_held s) (caps_lock s) x (buf s) (buf_head s) (buf_tail s) (waiting_task s).
Definition set_ring b h t s := State (shift_held s) (ctrl_held s) (alt_held s) (caps_lock s) (e0_prefix s) b h t (waiting_task s).
Definition set_waiting w s := State (shift_held s) (ctrl_held s) (alt_held s) (caps_lock s) (e0_prefix s) (buf s) (buf_head s) (buf_tail s) w.

(** Calls a step makes: [sched::wake(t)] and [pic::eoi(IRQ_KEYBOARD)]. *)
Inductive effect := Wake (t : Z) | Eoi.

(** ** Operations *)

Definition push_event (e : KeyEvent) (s : state) : list effect * state :=
  let next := (buf_head s + 1) mod BUF_SIZE in
  if next =? buf_tail s then ([], s) else
  let s := set_ring (<[buf_head s := e]> (buf s)) next (buf_tail s) s in
  if negb (waiting_task s =? 0) then ([Wake (waiting_task s)], set_waiting 0 s) else ([], s).

(** The keys with an [E0] prefix that produce an event. *)
Definition e0_key (key : Z) : bool :=
  bool_decide (key ∈ [0x48; 0x50; 0x4B; 0x4D; 0x47; 0x4F; 0x49; 0x51; 0x53; 0x52]).

(** The part of the handler between reading the scancode and [eoi:]. *)
Definition handle (sc : Z) (s : state) : list effect * state :=
  let released := negb (sc .& 0x80 =? 0) in
  let key := sc .& 0x7F in
  if e0_prefix s then
    let s := set_e0 false s in
    if e0_key key then
      push_event (Event 0 (u8 (0x80 .| key)) (negb released) (shift_held s) (ctrl_held s) (alt_held s)) s
    else if key =? 0x1D then ([], set_ctrl (negb released) s)
    else if key =? 0x38 then ([], set_alt (negb released) s)
    else ([], s)
  else if (key =? SC_LSHIFT) || (key =? SC_RSHIFT) then ([], set_shift (negb released) s)
  else if key =? SC_LCTRL then ([], set_ctrl (negb released) s)
  else if key =? SC_LALT then ([], set_alt (negb released) s)
  else if (key =? SC_CAPS) && negb released then ([], set_caps (negb (caps_lock s)) s)
  else
    let use_shift := xorb (shift_held s) (caps_lock s) in
    let c := if key <? 128 then (if use_shift then table scancode_shift key else table scancode_map key) else 0 in
    push_event (Event c key (negb released) (shift_held s) (ctrl_held s) (alt_held s)) s.

Definition keyboard_handler (sc : Z) (s : state) : list effect * state :=
  if sc =? 0xE0 then ([Eoi], set_e0 true s)
  else let '(l, s) := handle sc s in (l ++ [Eoi], s).

(** The fields [init] resets; the handler is installed by the caller. *)
Definition init (s : state) : state :=
  State false false false false (e0_prefix s) (buf s) 0 0 (waiting_task s).

Definition has_event (s : state) : bool := negb (buf_head s =? buf_tail s).

Definition pop_event (s : state) : KeyEvent * state :=
  let e := slot no_event (buf s) (buf_tail s) in
  (e, set_ring (buf s) (buf_head s) ((buf_tail s + 1) mod BUF_SIZE) s).

(** The part of [read_event] that runs with interrupts off: an event, or the
    calling task [cur] is registered and then blocks. *)
Definition read_try (cur : Z) (s : state) : option KeyEvent * state :=
  if has_event s then let '(e, s) := pop_event s in (Some e, s)
  else (None, set_waiting cur s).

(** What [read_event] does when the blocked task runs again. *)
Definition read_resume (s : state) : state := set_waiting 0 s.

(** ** The queue *)

Record wf (s : state) : Prop := {
  wf_head : 0 <= buf_head s < BUF_SIZE;
  wf_tail : 0 <= buf_tail s < BUF_SIZE;
}.

Definition count (s : state) : Z := (buf_head s - buf_tail s) mod BUF_SIZE.
Definition queue (s : state) : list KeyEvent := contents no_event BUF_SIZE (buf s) (buf_tail s) (count s).

Lemma count_range s : 0 <= count s < BUF_SIZE.
Proof. apply Z.mod_pos_bound. unfold BUF_SIZE. lia. Qed.

Lemma queue_length s : Z.of_nat (length (queue s)) = count s.
Proof. apply contents_length. pose proof (count_range s). lia. Qed.

(** The ring is full when 63 events are queued. *)
Lemma full_count s : wf s -> ((buf_head s + 1) mod BUF_SIZE =? buf_tail s) = (count s =? BUF_SIZE - 1).
Proof.
  intros [Hh Ht]. unfold count, BUF_SIZE in *.
  destruct (Z.eqb_spec ((buf_head s + 1) mod 64) (buf_tail s)), (Z.eqb_spec ((buf_head s - buf_tail s) mod 64) (64 - 1));
    (reflexivity || (exfalso; divlia)).
Qed.

Lemma has_event_count s : wf s -> has_event s = negb (count s =? 0).
Proof.
  intros [Hh Ht]. unfold has_event, count, BUF_SIZE in *. f_equal.
  destruct (Z.eqb_spec (buf_head s) (buf_tail s)), (Z.eqb_spec ((buf_head s - buf_tail s) mod 64) 0);
    (reflexivity || (exfalso; divlia)).
Qed.

Lemma push_event_spec e s : wf s -> let '(l, s') := push_event e s in
  wf s' /\
  (if count s =? BUF_SIZE - 1 then s' = s /\ l = []
   else queue s' = queue s ++ [e] /\ waiting_task s' = 0 /\
        l = (if waiting_task s =? 0 then [] else [Wake (waiting_task s)])) /\
  shift_held s' = shift_held s /\ ctrl_held s' = ctrl_held s /\ alt_held s' = alt_held s /\
  caps_lock s' = caps_lock s /\ e0_prefix s' = e0_prefix s.
Proof.
  intros Hwf. unfold push_event. rewrite full_count by done.
  destruct (Z.eqb_spec (count s) (BUF_SIZE - 1)) as [| Hn]; [by split_and! |].
  pose proof Hwf as [Hh Ht]. pose proof (count_range s) as Hc.
  assert (0 < BUF_SIZE) as Hb by (unfold BUF_SIZE; lia).
  assert (buf_head s = (buf_tail s + count s) mod BUF_SIZE) as Hhead.
  { unfold count. rewrite Zplus_mod_idemp_r. replace (buf_tail s + (buf_head s - buf_tail s)) with (buf_head s) by lia.
    by rewrite Z.mod_small. }
  set (s1 := set_ring _ _ _ s).
  assert (wf s1) as Hwf1 by (split; simpl; [apply Z.mod_pos_bound; lia | done]).
  assert (count s1 = count s + 1) as Hc1.
  { clear Hhead. unfold s1, count, BUF_SIZE in *. simpl. divlia. }
  assert (queue s1 = queue s ++ [e]) as Hq.
  { unfold queue. rewrite Hc1. unfold s1 at 1 2. simpl. rewrite Hhead at 1. apply contents_push; lia. }
  change (waiting_task s1) with (waiting_task s).
  destruct (Z.eqb_spec (waiting_task s) 0) as [H0 |]; simpl; (split; [| by split_and!]); [done |].
  by destruct Hwf1.
Qed.

Lemma pop_event_spec s : wf s -> has_event s = true -> let '(e, s') := pop_event s in
  wf s' /\ queue s = e :: queue s' /\ waiting_task s' = waiting_task s.
Proof.
  intros Hwf Hhas. rewrite has_event_count in Hhas by done. apply negb_true_iff, Z.eqb_neq in Hhas.
  pose proof (count_range s) as Hc. pose proof Hwf as [Hh Ht].
  assert (0 < BUF_SIZE) as Hb by (unfold BUF_SIZE; lia).
  unfold pop_event. split_and!; [split; simpl; [done | apply Z.mod_pos_bound; lia] | | done].
  unfold queue. rewrite contents_pop by lia. rewrite (Z.mod_small (buf_tail s)) by done. f_equal.
  simpl. f_equal. unfold count. simpl. rewrite Zminus_mod_idemp_r.
  unfold BUF_SIZE in *. unfold count, BUF_SIZE in *. divlia.
Qed.

(** ** What a scancode means *)

Definition key_of (sc : Z) : Z := sc mod 128.
Definition is_press (sc : Z) : bool := sc <? 128.
Definition is_shift (sc : Z) : bool := (key_of sc =? SC_LSHIFT) || (key_of sc =? SC_RSHIFT).
Definition is_caps_press (sc : Z) : bool := sc =? SC_CAPS.
Definition is_modifier (sc : Z) : bool :=
  is_shift sc || (key_of sc =? SC_LCTRL) || (key_of sc =? SC_LALT) || is_caps_press sc.

(** The event a scancode produces, if any: extended keys have no character and
    bit 7 set, other keys take theirs from the table that shift and caps lock
    select. *)
Definition decode (s : state) (sc : Z) : list KeyEvent :=
  if sc =? 0xE0 then []
  else if e0_prefix s then
    if e0_key (key_of sc) then
      [Event 0 (128 + key_of sc) (is_press sc) (shift_held s) (ctrl_held s) (alt_held s)]
    else []
  else if is_modifier sc then []
  else [Event (table (if xorb (shift_held s) (caps_lock s) then scancode_shift else scancode_map) (key_of sc))
          (key_of sc) (is_press sc) (shift_held s) (ctrl_held s) (alt_held s)].

Lemma scancode_bits sc : U8 sc -> sc .& 0x7F = key_of sc /\ negb (negb (sc .& 0x80 =? 0)) = is_press sc /\
  u8 (0x80 .| (sc .& 0x7F)) = 128 + key_of sc.
Proof.
  intros Hsc. assert (sc .& 0x7F = key_of sc) as Hk.
  { change 0x7F with (Z.ones 7). rewrite Z.land_ones by lia. done. }
  pose proof (Z.mod_pos_bound sc 128 ltac:(lia)) as Hb. fold (key_of sc) in Hb.
  split_and!; [done | |].
  - rewrite negb_involutive. change 0x80 with (2 ^ 7). rewrite land_pow2_testbit by lia.
    unfold is_press. rewrite Z.testbit_eqb by lia. change (2 ^ 7) with 128. unfold key_of in *. mach.
    destruct (Z.ltb_spec sc 128).
    + by rewrite Z.div_small by lia.
    + replace (sc / 128) with 1 by divlia. done.
  - rewrite Hk. rewrite (lor_disjoint 7 128) by (change (2 ^ 7) with 128; try done; lia).
    apply u8_small. mach. lia.
Qed.

(** The state of the modifiers after a scancode. *)
Definition mods (s : state) : bool * bool * bool * bool * bool :=
  (shift_held s, ctrl_held s, alt_held s, caps_lock s, e0_prefix s).

Ltac mods_of s :=
  destruct s; simpl in *; subst; eexists _, _, _, _; cbv [set_shift set_ctrl set_alt set_caps set_e0]; simpl; reflexivity.

(** The handler stores the decoded event and updates the modifiers. *)
Lemma handle_cases sc s : U8 sc -> sc <> 0xE0 ->
  (decode s sc = [] /\ fst (handle sc s) = [] /\
   exists sh ct al ca, snd (handle sc s) = set_shift sh (set_ctrl ct (set_alt al (set_caps ca (set_e0 false s))))) \/
  (exists e, decode s sc = [e] /\ handle sc s = push_event e (set_e0 false s)).
Proof.
  intros Hsc Hne. destruct (scancode_bits sc Hsc) as (Hk & Hp & Hx). unfold handle, decode.
  rewrite Hk in *. rewrite Hx. rewrite (proj2 (Z.eqb_neq sc 0xE0) Hne).
  pose proof (Z.mod_pos_bound sc 128 ltac:(lia)) as Hb. fold (key_of sc) in Hb.
  destruct (e0_prefix s) eqn:He0.
  - destruct (e0_key (key_of sc)); [right; eexists; split; [done |]; by rewrite Hp |]. left.
    destruct (key_of sc =? 0x1D); [| destruct (key_of sc =? 0x38)]; (split; [done |]); (split; [done |]);
      mods_of s.
  - assert (set_e0 false s = s) as -> by (destruct s; simpl in He0; by subst).
    assert (((key_of sc =? SC_CAPS) && negb (negb (sc .& 0x80 =? 0))) = is_caps_press sc) as ->.
    { rewrite Hp. unfold is_caps_press, is_press, SC_CAPS. mach. unfold key_of in *.
      destruct (Z.eqb_spec (sc mod 128) 0x3A), (Z.ltb_spec sc 128), (Z.eqb_spec sc 0x3A); try done; divlia. }
    unfold is_modifier, is_shift.
    destruct ((key_of sc =? SC_LSHIFT) || (key_of sc =? SC_RSHIFT)); simpl;
      [left; split_and!; [done | done | mods_of s] |].
    destruct (key_of sc =? SC_LCTRL); simpl; [left; split_and!; [done | done | mods_of s] |].
    destruct (key_of sc =? SC_LALT); simpl; [left; split_and!; [done | done | mods_of s] |].
    destruct (is_caps_press sc); simpl; [left; split_and!; [done | done | mods_of s] |].
    right. eexists. split; [done |]. rewrite (proj2 (Z.ltb_lt (key_of sc) 128)), Hp by lia.
    by destruct (xorb (shift_held s) (caps_lock s)).
Qed.

Lemma queue_ring s s' : buf s' = buf s -> buf_head s' = buf_head s -> buf_tail s' = buf_tail s -> queue s' = queue s.
Proof. intros Hb Hh Ht. unfold queue, count. by rewrite Hb, Hh, Ht. Qed.

(** Interrupts and reads of one reader task [cur], in any order; the reader runs
    again only after a wake-up, and it registers itself and blocks in one step. *)
Inductive step (cur : Z) : state -> state -> Prop :=
| step_irq s sc : U8 sc -> step cur s (snd (keyboard_handler sc s))
| step_read s : waiting_task s = 0 -> step cur s (snd (read_try cur s))
| step_resume s : waiting_task s = 0 -> step cur s (read_resume s).

(** C27: for every scancode the interrupt handler acts on the bounded queue of
    events: it appends the event the scancode decodes to, dropping it when 63
    events are queued, wakes the waiting reader exactly when an event was added,
    and acknowledges the interrupt last, exactly once. *)
Theorem keyboard_handler_refines s sc : wf s -> U8 sc ->
  let '(l, s') := keyboard_handler sc s in
  wf s' /\ queue s' = take 63 (queue s ++ decode s sc) /\
  l = (if bool_decide (queue s' = queue s) || (waiting_task s =? 0) then [] else [Wake (waiting_task s)]) ++ [Eoi].
Proof.
  intros Hwf Hsc. unfold keyboard_handler.
  assert (take 63 (queue s) = queue s) as Htake.
  { apply take_ge. pose proof (queue_length s). pose proof (count_range s). unfold BUF_SIZE in *. lia. }
  destruct (Z.eqb_spec sc 0xE0) as [-> | Hne].
  { split_and!; [by destruct Hwf | by rewrite app_nil_r, Htake | by rewrite bool_decide_eq_true_2]. }
  destruct (handle_cases sc s Hsc Hne) as [(Hd & Hl & sh & ct & al & ca & Hs) | (e & Hd & Hh)].
  - rewrite (surjective_pairing (handle sc s)), Hl, Hs, Hd, app_nil_r, Htake.
    split_and!; [by destruct Hwf | done | by rewrite bool_decide_eq_true_2].
  - rewrite Hh, Hd. assert (wf (set_e0 false s)) as Hwf0 by by destruct Hwf.
    pose proof (push_event_spec e _ Hwf0) as Hp. destruct (push_event e (set_e0 false s)) as [l s'].
    destruct Hp as (Hwf' & Hq & _). split; [done |].
    change (count (set_e0 false s)) with (count s) in Hq. change (queue (set_e0 false s)) with (queue s) in Hq.
    change (waiting_task (set_e0 false s)) with (waiting_task s) in Hq.
    pose proof (queue_length s) as Hlen. pose proof (count_range s) as Hc.
    destruct (Z.eqb_spec (count s) (BUF_SIZE - 1)) as [Hfull | Hnf]; unfold BUF_SIZE in *.
    + destruct Hq as [-> ->]. change (queue (set_e0 false s)) with (queue s).
      rewrite take_app_le, Htake by lia. split; [done | by rewrite bool_decide_eq_true_2].
    + destruct Hq as (Hq & _ & ->). rewrite Hq. split; [symmetry; apply take_ge; rewrite length_app; simpl; lia |].
      rewrite bool_decide_eq_false_2; [done |]. intros Heq. apply (f_equal length) in Heq.
      rewrite length_app in Heq. simpl in Heq. lia.
Qed.

Lemma push_event_mods e s : mods (snd (push_event e s)) = mods s.
Proof.
  unfold push_event. destruct (_ =? buf_tail s); [done |]. by destruct (negb _).
Qed.

Lemma handler_mods sc s : U8 sc -> sc <> 0xE0 -> e0_prefix s = false ->
  let s' := snd (keyboard_handler sc s) in
  e0_prefix s' = false /\ shift_held s' = (if is_shift sc then is_press sc else shift_held s) /\
  caps_lock s' = (if is_caps_press sc then negb (caps_lock s) else caps_lock s).
Proof.
  intros Hsc Hne He0. cbv zeta. destruct (scancode_bits sc Hsc) as (Hk & Hp & _).
  unfold keyboard_handler. rewrite (proj2 (Z.eqb_neq sc 0xE0) Hne).
  assert (snd (let '(l, s0) := handle sc s in (l ++ [Eoi], s0)) = snd (handle sc s)) as -> by by destruct (handle sc s).
  unfold handle. rewrite Hk, He0.
  assert (Hcaps : is_caps_press sc = (key_of sc =? SC_CAPS) && is_press sc).
  { unfold is_caps_press, is_press, SC_CAPS, key_of. mach.
    destruct (Z.eqb_spec (sc mod 128) 0x3A), (Z.ltb_spec sc 128), (Z.eqb_spec sc 0x3A); try done; divlia. }
  rewrite Hcaps. unfold is_shift. rewrite Hp.
  destruct (Z.eqb_spec (key_of sc) SC_LSHIFT) as [-> |]; [done |].
  destruct (Z.eqb_spec (key_of sc) SC_RSHIFT) as [-> |]; [done |]. simpl.
  destruct (Z.eqb_spec (key_of sc) SC_LCTRL) as [-> |]; [done |].
  destruct (Z.eqb_spec (key_of sc) SC_LALT) as [-> |]; [done |].
  destruct ((key_of sc =? SC_CAPS) && is_press sc); [done |].
  match goal with |- context [push_event ?e s] => pose proof (push_event_mods e s) as Hm end.
  unfold mods in Hm. injection Hm as Hm1 Hm2 Hm3 Hm4 Hm5. by rewrite Hm1, Hm4, Hm5.
Qed.

(** The modifier state after any sequence of scancodes without the [E0]
    prefix: shift is held exactly when the last shift scancode was a press, and
    caps lock has flipped once per press of its key. *)
Theorem modifiers_track codes s : Forall (fun sc => U8 sc /\ sc <> 0xE0) codes -> e0_prefix s = false ->
  let s' := foldl (fun s sc => snd (keyboard_handler sc s)) s codes in
  e0_prefix s' = false /\
  shift_held s' = foldl (fun h sc => if is_shift sc then is_press sc else h) (shift_held s) codes /\
  caps_lock s' = foldl (fun c sc => if is_caps_press sc then negb c else c) (caps_lock s) codes.
Proof.
  intros Hcodes. revert s. induction Hcodes as [| sc codes [Hsc Hne] _ IH]; intros s He0; [done |].
  destruct (handler_mods sc s Hsc Hne He0) as (He & Hsh & Hca). simpl.
  destruct (IH _ He) as (H1 & H2 & H3). by rewrite H2, H3, Hsh, Hca.
Qed.

Lemma step_invariant cur s s' : wf s -> (waiting_task s <> 0 -> queue s = []) -> step cur s s' ->
  wf s' /\ (waiting_task s' <> 0 -> queue s' = []).
Proof.
  intros Hwf Hw Hstep. destruct Hstep as [s sc Hsc | s Hz | s Hz].
  - unfold keyboard_handler. destruct (Z.eqb_spec sc 0xE0) as [-> | Hne]; [split; [by destruct Hwf | exact Hw] |].
    assert (snd (let '(l, s0) := handle sc s in (l ++ [Eoi], s0)) = snd (handle sc s)) as -> by by destruct (handle sc s).
    destruct (handle_cases sc s Hsc Hne) as [(_ & _ & sh & ct & al & ca & ->) | (e & _ & ->)].
    + split; [by destruct Hwf | exact Hw].
    + assert (wf (set_e0 false s)) as Hwf0 by by destruct Hwf.
      pose proof (push_event_spec e _ Hwf0) as Hp. destruct (push_event e (set_e0 false s)) as [l s'].
      destruct Hp as (Hwf' & Hq & _). split; [done |]. simpl.
      destruct (count _ =? _); [by destruct Hq as [-> _] | by destruct Hq as (_ & -> & _)].
  - unfold read_try. destruct (has_event s) eqn:Hh.
    + pose proof (pop_event_spec s Hwf Hh) as Hp. destruct (pop_event s) as [e s'].
      destruct Hp as (Hwf' & _ & Hwt). simpl. split; [done |]. by rewrite Hwt, Hz.
    + split; [by destruct Hwf |]. intros _. rewrite has_event_count in Hh by done.
      apply negb_false_iff, Z.eqb_eq in Hh. simpl. unfold queue.
      change (count (set_waiting cur s)) with (count s). by rewrite Hh.
  - split; [by destruct Hwf | done].
Qed.

(** The waiting reader is never left behind queued events: in every state
    reached by interrupts and reads, a registered reader means an empty queue. *)
Theorem waiting_means_empty cur s s' : wf s -> (waiting_task s <> 0 -> queue s = []) ->
  rtc (step cur) s s' -> wf s' /\ (waiting_task s' <> 0 -> queue s' = []).
Proof.
  intros Hwf Hw Hrtc. induction Hrtc as [| s s1 s' Hstep _ IH]; [done |].
  destruct (step_invariant cur s s1 Hwf Hw Hstep) as [Hwf1 Hw1]. by apply IH.
Qed.

(** ** Examples *)

Definition demo : state := init (State false false false false false ∅ 0 0 0).

Lemma kbd_demo_wf : wf demo.
Proof. by split. Qed.

(** Shift down, [a] down: the queue holds an [A]. *)
Definition demo_shift : state := snd (keyboard_handler 0x2A demo).

Lemma keyboard_handler_refines_witness :
  queue (snd (keyboard_handler 0x1E demo_shift)) = [Event 65 0x1E true true false false] /\
  fst (keyboard_handler 0x1E demo_shift) = [Eoi].
Proof.
  assert (wf demo_shift) as Hwf by by split. assert (U8 0x1E) as Hsc by by compute.
  pose proof (keyboard_handler_refines demo_shift 0x1E Hwf Hsc) as H.
  destruct (keyboard_handler 0x1E demo_shift) as [l s']. destruct H as (_ & Hq & Hl).
  split; [exact Hq |]. simpl. rewrite Hl, orb_true_r. reflexivity.
Defined.

Lemma modifiers_track_witness :
  let s' := foldl (fun s sc => snd (keyboard_handler sc s)) demo [0x2A; 0x3A; 0x1E; 0xAA; 0x3A; 0x36] in
  shift_held s' = true /\ caps_lock s' = false.
Proof.
  assert (Forall (fun sc => U8 sc /\ sc <> 0xE0) [0x2A; 0x3A; 0x1E; 0xAA; 0x3A; 0x36]) as Hc
    by (repeat constructor; done).
  destruct (modifiers_track _ demo Hc eq_refl) as (_ & H1 & H2). split; [exact H1 | exact H2].
Defined.

Lemma waiting_means_empty_witness : queue (snd (read_try 7 demo)) = [].
Proof.
  destruct (waiting_means_empty 7 demo (snd (read_try 7 demo)) kbd_demo_wf) as [_ H].
  - intros _. reflexivity.
  - apply rtc_once. apply step_read. reflexivity.
  - apply H. vm_compute. discriminate.
Defined.
