(* ===== verification/Vga.v ===== *)
(** * drivers/vga.cpp: the text console

    An 80x25 cell buffer, a cursor, the current colour and the parser of ANSI
    escape sequences.  A [char] is signed; the buffer is a finite map from cell
    index to 16-bit cell, so that a store outside the 2000 cells would be visible
    in its domain.  The two port writes that move the hardware cursor are one
    field. *)
From S2P Require Import Prelude.

(** ** Data *)

Definition WIDTH : Z := 80.
Definition HEIGHT : Z := 25.

Inductive Color :=
| Black | Blue | Green | Cyan | Red | Magenta | Brown | LightGray
| DarkGray | LightBlue | LightGreen | LightCyan | LightRed | Pink | Yellow | White.

#[global] Instance Color_eq_dec : EqDecision Color.
Proof. solve_decision. Defined.

Definition colors : list Color :=
  [Black; Blue; Green; Cyan; Red; Magenta; Brown; LightGray;
   DarkGray; LightBlue; LightGreen; LightCyan; LightRed; Pink; Yellow; White].

(** The enumerator's value, and the cast back. *)
Definition code (c : Color) : Z :=
  match c with
  | Black => 0 | Blue => 1 | Green => 2 | Cyan => 3 | Red => 4 | Magenta => 5 | Brown => 6 | LightGray => 7
  | DarkGray => 8 | LightBlue => 9 | LightGreen => 10 | LightCyan => 11 | LightRed => 12 | Pink => 13
  | Yellow => 14 | White => 15
  end.
Definition of_code (n : Z) : Color := default Black (colors !! Z.to_nat n).

Definition make_color (fg bg : Color) : Z := u8 (code fg .| (code bg .<< 4)).

Inductive EscState := Normal | Esc | Bracket | Params.

Record state := State {
  buffer : gmap Z Z;
  col : Z;
  row : Z;
  color : Z;
  saved_row : Z;
  saved_col : Z;
  esc_state : EscState;
  esc_params : list Z;
  esc_param_count : Z;
  cursor : Z;
}.

Definition set_buffer b s := State b (col s) (row s) (color s) (saved_row s) (saved_col s) (esc_state s) (esc_params s) (esc_param_count s) (cursor s).
Definition set_pos r c s := State (buffer s) c r (color s) (saved_row s) (saved_col s) (esc_state s) (esc_params s) (esc_param_count s) (cursor s).
Definition set_color_raw x s := State (buffer s) (col s) (row s) x (saved_row s) (saved_col s) (esc_state s) (esc_params s) (esc_param_count s) (cursor s).
Definition set_saved r c s := State (buffer s) (col s) (row s) (color s) r c (esc_state s) (esc_params s) (esc_param_count s) (cursor s).
Definition set_esc e s := State (buffer s) (col s) (row s) (color s) (saved_row s) (saved_col s) e (esc_params s) (esc_param_count s) (cursor s).
Definition set_params p n s := State (buffer s) (col s) (row s) (color s) (saved_row s) (saved_col s) (esc_state s) p n (cursor s).
Definition set_cursor x s := State (buffer s) (col s) (row s) (color s) (saved_row s) (saved_col s) (esc_state s) (esc_params s) (esc_param_count s) x.

(** ** Colours *)

Definition ansi_to_vga_fg (n : Z) : Color :=
  if n =? 30 then Black else if n =? 31 then Red else if n =? 32 then Green
  else if n =? 33 then Brown else if n =? 34 then Blue else if n =? 35 then Magenta
  else if n =? 36 then Cyan else if n =? 37 then LightGray else if n =? 90 then DarkGray
  else if n =? 91 then LightRed else if n =? 92 then LightGreen else if n =? 93 then Yellow
  else if n =? 94 then LightBlue else if n =? 95 then Pink else if n =? 96 then LightCyan
  else if n =? 97 then White else LightGray.
Definition ansi_to_vga_bg (n : Z) : Color := ansi_to_vga_fg (u8 (n - 10)).

(** One iteration of the parameter loop. *)
Definition sgr_param (p : Z) (a : Color * Color * bool) : Color * Color * bool :=
  let '(fg, bg, bright) := a in
  if p =? 0 then (LightGray, Black, false)
  else if p =? 1 then (fg, bg, true)
  else if (30 <=? p) && (p <=? 37) then (ansi_to_vga_fg p, bg, bright)
  else if (90 <=? p) && (p <=? 97) then (ansi_to_vga_fg p, bg, bright)
  else if (40 <=? p) && (p <=? 47) then (fg, ansi_to_vga_bg p, bright)
  else if (100 <=? p) && (p <=? 107) then (fg, ansi_to_vga_fg (u8 (p - 60)), bright)
  else a.

Definition param (s : state) (i : Z) : Z := default 0 (esc_params s !! Z.to_nat i).

Definition apply_sgr (s : state) : state :=
  if esc_param_count s =? 0 then set_color_raw (make_color LightGray Black) s else
  let fg := of_code (color s .& 0x0F) in
  let bg := of_code ((color s .>> 4) .& 0x0F) in
  let '(fg, bg, bright) := for_range 0 (esc_param_count s) (fun i a => sgr_param (param s i) a) (fg, bg, false) in
  let fg := if bright && (code fg <? 8) then of_code (code fg + 8) else fg in
  set_color_raw (make_color fg bg) s.

(** ** Screen *)

Definition update_cursor (s : state) : state := set_cursor (u16 (row s * WIDTH + col s)) s.

Definition put_entry (c attr x y : Z) (s : state) : state :=
  set_buffer (<[y * WIDTH + x := u16 c .| u16 (u16 attr .<< 8)]> (buffer s)) s.

Definition clear (s : state) : state :=
  let blank := u16 ((color s .<< 8) .| 32) in
  let s := for_range 0 (WIDTH * HEIGHT) (fun i s => set_buffer (<[i := blank]> (buffer s)) s) s in
  update_cursor (set_pos 0 0 s).

Definition init (s : state) : state :=
  let s := set_color_raw (make_color LightGray Black) (set_pos 0 0 s) in
  let s := for_range 0 HEIGHT (fun y s =>
             for_range 0 WIDTH (fun x s => put_entry 32 (color s) x y s) s) s in
  update_cursor s.

Definition set_color (fg bg : Color) (s : state) : state := set_color_raw (make_color fg bg) s.

Definition copy_cell (y x : Z) (s : state) : state :=
  set_buffer (<[(y - 1) * WIDTH + x := default 0 (buffer s !! (y * WIDTH + x))]> (buffer s)) s.

Definition copy_rows (s : state) : state :=
  for_range 1 HEIGHT (fun y s => for_range 0 WIDTH (copy_cell y) s) s.
Definition blank_last_row (s : state) : state :=
  for_range 0 WIDTH (fun x s => put_entry 32 (color s) x (HEIGHT - 1) s) s.

Definition scroll (s : state) : state :=
  let s := copy_rows s in
  let s := blank_last_row s in
  set_pos (HEIGHT - 1) (col s) s.

(** [if (++row >= HEIGHT) scroll();] *)
Definition next_row (s : state) : state :=
  let s := set_pos (row s + 1) (col s) s in
  if HEIGHT <=? row s then scroll s else s.

(** ** Escape sequences *)

Definition count_or_1 (s : state) : Z := if param s 0 =? 0 then 1 else param s 0.

Definition erase_display (s : state) : state := if param s 0 =? 2 then clear s else s.
Definition cursor_up (s : state) : state :=
  let n := count_or_1 s in
  update_cursor (set_pos (if n <=? row s then row s - n else 0) (col s) s).
Definition cursor_down (s : state) : state :=
  let n := count_or_1 s in
  update_cursor (set_pos (if row s + n <? HEIGHT then row s + n else HEIGHT - 1) (col s) s).
Definition cursor_forward (s : state) : state :=
  let n := count_or_1 s in
  update_cursor (set_pos (row s) (if col s + n <? WIDTH then col s + n else WIDTH - 1) s).
Definition cursor_back (s : state) : state :=
  let n := count_or_1 s in
  update_cursor (set_pos (row s) (if n <=? col s then col s - n else 0) s).
Definition cursor_position (s : state) : state :=
  let r := if param s 0 =? 0 then 0 else param s 0 - 1 in
  let k := if param s 1 =? 0 then 0 else param s 1 - 1 in
  set_pos (if HEIGHT <=? r then HEIGHT - 1 else r) (if WIDTH <=? k then WIDTH - 1 else k) s.
Definition blank_row (a b : Z) (s : state) : state :=
  for_range a b (fun x s => put_entry 32 (color s) x (row s) s) s.
Definition erase_line (s : state) : state :=
  if param s 0 =? 0 then blank_row (col s) WIDTH s
  else if param s 0 =? 1 then blank_row 0 (col s + 1) s
  else if param s 0 =? 2 then blank_row 0 WIDTH s
  else s.
Definition save_cursor (s : state) : state := update_cursor (set_saved (row s) (col s) s).
Definition restore_cursor (s : state) : state := update_cursor (set_pos (saved_row s) (saved_col s) s).

(** The final byte of a sequence: the tests in the order of the code. *)
Definition final_byte (c : Z) (s : state) : state :=
  let s := if c =? 109 then apply_sgr s else s in
  let s := if c =? 74 then erase_display s else s in
  let s := if c =? 65 then cursor_up s else s in
  let s := if c =? 66 then cursor_down s else s in
  let s := if c =? 67 then cursor_forward s else s in
  let s := if c =? 68 then cursor_back s else s in
  let s := if (c =? 72) || (c =? 102) then cursor_position s else s in
  let s := if c =? 75 then erase_line s else s in
  let s := if c =? 115 then save_cursor s else s in
  let s := if c =? 117 then restore_cursor s else s in
  set_esc Normal s.

(** The [Params] case of the switch. *)
Definition param_byte (c : Z) (s : state) : state :=
  let k := esc_param_count s in
  if (48 <=? c) && (c <=? 57) then
    if k <? 8 then
      set_params (<[Z.to_nat k := u8 (param s k * 10 + (c - 48))]> (esc_params s)) k s
    else s
  else if c =? 59 then
    if k <? 7 then set_params (esc_params s) (k + 1) s else s
  else
    let s := if k <? 8 then set_params (esc_params s) (k + 1) s else s in
    final_byte c s.

(** Normal rendering. *)
Definition render (c : Z) (s : state) : state :=
  if c =? 10 then update_cursor (next_row (set_pos (row s) 0 s))
  else if c =? 13 then update_cursor (set_pos (row s) 0 s)
  else if c =? 8 then
    let s := if 0 <? col s then set_pos (row s) (col s - 1) s
             else if 0 <? row s then set_pos (row s - 1) (WIDTH - 1) s else s in
    update_cursor (put_entry 32 (color s) (col s) (row s) s)
  else
    let s := put_entry c (color s) (col s) (row s) s in
    let s := set_pos (row s) (col s + 1) s in
    let s := if WIDTH <=? col s then next_row (set_pos (row s) 0 s) else s in
    update_cursor s.

Definition _put_char (c : Z) (s : state) : state :=
  match esc_state s with
  | Normal => if c =? 27 then set_esc Esc s else render c s
  | Esc =>
      if c =? 91 then set_params (replicate 8 0) 0 (set_esc Bracket s) else set_esc Normal s
  | Bracket => param_byte c (set_esc Params s)
  | Params => param_byte c s
  end.

(** ** Public operations; a string is its characters before the terminator *)

Definition put_char (c : Z) (s : state) : state := _put_char c s.
Definition write (str : list Z) (s : state) : state := foldl (fun s c => _put_char c s) s str.
Definition write_line (str : list Z) (s : state) : state := _put_char 10 (write str s).

Definition hex_digits : list Z := [48; 49; 50; 51; 52; 53; 54; 55; 56; 57; 65; 66; 67; 68; 69; 70].

(** [buf[17]] down to [buf[2]]. *)
Fixpoint hex_loop (n : nat) (val : Z) (acc : list Z) : list Z :=
  match n with
  | O => acc
  | S n' => hex_loop n' (val .>> 4) (default 0 (hex_digits !! Z.to_nat (val .& 0xF)) :: acc)
  end.
Definition hex_string (val : Z) : list Z := 48 :: 120 :: hex_loop 16 val [].
Definition write_hex (val : Z) (s : state) : state := write (hex_string val) s.

(** [while (val && i > 0)] with [i] from 20. *)
Fixpoint dec_loop (i : nat) (val : Z) (acc : list Z) : list Z :=
  match i with
  | O => acc
  | S i' => if val =? 0 then acc else dec_loop i' (val / 10) (48 + val mod 10 :: acc)
  end.
Definition dec_string (val : Z) : list Z := if val =? 0 then [48] else dec_loop 20 val [].
Definition write_dec (val : Z) (s : state) : state := write (dec_string val) s.

(** ** The invariant *)

(** The cursor and the saved position lie on the screen, the parser's index in
    its array, and only cells of the screen were ever written. *)
Record wf (s : state) : Prop := {
  wf_row : 0 <= row s < HEIGHT;
  wf_col : 0 <= col s < WIDTH;
  wf_srow : 0 <= saved_row s < HEIGHT;
  wf_scol : 0 <= saved_col s < WIDTH;
  wf_count : 0 <= esc_param_count s <= 8;
  wf_len : length (esc_params s) = 8%nat;
  wf_params : Forall U8 (esc_params s);
  wf_buffer : forall i, is_Some (buffer s !! i) -> 0 <= i < WIDTH * HEIGHT;
}.

(** Everything but the buffer and the position. *)
Definition same_ctl (s s' : state) : Prop :=
  color s' = color s /\ saved_row s' = saved_row s /\ saved_col s' = saved_col s /\
  esc_state s' = esc_state s /\ esc_params s' = esc_params s /\ esc_param_count s' = esc_param_count s.

(** Stores that stay on the screen and move nothing. *)
Definition stores (s s' : state) : Prop :=
  same_ctl s s' /\ row s' = row s /\ col s' = col s /\ cursor s' = cursor s /\
  ((forall i, is_Some (buffer s !! i) -> 0 <= i < WIDTH * HEIGHT) ->
   forall i, is_Some (buffer s' !! i) -> 0 <= i < WIDTH * HEIGHT).

Lemma stores_refl s : stores s s.
Proof. by split_and!. Qed.
Lemma stores_trans s1 s2 s3 : stores s1 s2 -> stores s2 s3 -> stores s1 s3.
Proof. unfold stores, same_ctl. intros (? & ? & ? & ? & ?) (? & ? & ? & ? & ?). intuition congruence. Qed.

Lemma stores_insert i v s : 0 <= i < WIDTH * HEIGHT -> stores s (set_buffer (<[i := v]> (buffer s)) s).
Proof.
  intros Hi. split_and!; try done. simpl. intros Hb j [x [[<- _] | [_ Hj]]%lookup_insert_Some]; [done |].
  apply Hb. by exists x.
Qed.

Lemma stores_loop a b body s : (forall i x, a <= i < b -> stores x (body i x)) -> stores s (for_range a b body s).
Proof.
  intros Hb. destruct (decide (a <= b)).
  - apply (for_range_ind (fun _ x => stores s x)); [done | apply stores_refl |].
    intros i x Hi Hx. eapply stores_trans; [exact Hx | by apply Hb].
  - rewrite for_range_done by lia. apply stores_refl.
Qed.

Lemma wf_stores s s' : wf s -> stores s s' -> wf s'.
Proof.
  intros [H1 H2 H3 H4 H5 H6 H7 H8] ((Hc & Hsr & Hsc & He & Hp & Hn) & Hr & Hcl & Hcu & Hb).
  split; rewrite ?Hr, ?Hcl, ?Hsr, ?Hsc, ?Hn, ?Hp; auto.
Qed.

Lemma put_entry_stores c a x y s : 0 <= x < WIDTH -> 0 <= y < HEIGHT -> stores s (put_entry c a x y s).
Proof. intros Hx Hy. apply stores_insert. unfold WIDTH, HEIGHT in *. lia. Qed.

Lemma wf_pos r c s : wf s -> 0 <= r < HEIGHT -> 0 <= c < WIDTH -> wf (set_pos r c s).
Proof. by intros []. Qed.
Lemma wf_cursor s : wf s -> wf (update_cursor s).
Proof. by intros []. Qed.
Lemma wf_color x s : wf s -> wf (set_color_raw x s).
Proof. by intros []. Qed.
Lemma wf_esc e s : wf s -> wf (set_esc e s).
Proof. by intros []. Qed.
#[local] Hint Resolve wf_pos wf_cursor wf_color wf_esc : knail.

(** [scroll] only needs the row to be reset. *)
Lemma scroll_stores s : stores (set_pos (HEIGHT - 1) (col s) s) (scroll s).
Proof.
  unfold scroll. set (s1 := copy_rows s).
  assert (stores s s1) as H1.
  { apply stores_loop. intros y x Hy. apply stores_loop. intros i z Hi. apply stores_insert.
    unfold WIDTH, HEIGHT in *. lia. }
  set (s2 := blank_last_row s1).
  assert (stores s1 s2) as H2.
  { apply stores_loop. intros x z Hx. apply put_entry_stores; unfold HEIGHT in *; lia. }
  pose proof (stores_trans _ _ _ H1 H2) as (Hc & Hr & Hcol & Hcu & Hb). clear H1 H2. clearbody s2. clear s1. unfold stores, same_ctl in *. simpl.
  by rewrite Hcol.
Qed.

Lemma next_row_wf s : wf s -> wf (next_row s).
Proof.
  intros Hwf. unfold next_row. pose proof (wf_row _ Hwf). pose proof (wf_col _ Hwf).
  simpl. destruct (Z.leb_spec HEIGHT (row s + 1)).
  - pose proof (scroll_stores (set_pos (row s + 1) (col s) s)) as Hs. simpl in Hs.
    eapply wf_stores; [| exact Hs]. by destruct Hwf.
  - apply wf_pos; [done | lia | done].
Qed.

Lemma clear_wf s : wf s -> wf (clear s).
Proof.
  intros Hwf. unfold clear. apply wf_cursor, wf_pos; [| by compute | by compute].
  apply (wf_stores s); [done |]. apply stores_loop. intros i x Hi. by apply stores_insert.
Qed.

Lemma blank_row_wf a b s : wf s -> 0 <= a -> b <= WIDTH -> wf (blank_row a b s).
Proof.
  intros Hwf Ha Hb. apply (wf_stores s); [done |]. unfold blank_row.
  destruct (decide (a <= b)); [| rewrite for_range_done by lia; apply stores_refl].
  apply (for_range_ind (fun _ x => stores s x)); [done | apply stores_refl |]. intros i x Hi Hx.
  eapply stores_trans; [exact Hx |]. apply put_entry_stores; [lia |].
  destruct Hx as (_ & -> & _). apply Hwf.
Qed.

Lemma wf_params_upd s p n : wf s -> length p = 8%nat -> Forall U8 p -> 0 <= n <= 8 -> wf (set_params p n s).
Proof. by intros []. Qed.

Lemma param_u8 s i : wf s -> U8 (param s i).
Proof.
  intros Hwf. unfold param. destruct (esc_params s !! Z.to_nat i) as [x |] eqn:Hx; simpl; [| by compute].
  by eapply (Forall_lookup_1 U8); [apply Hwf |].
Qed.

Lemma apply_sgr_wf s : wf s -> wf (apply_sgr s).
Proof.
  intros Hwf. unfold apply_sgr. destruct (esc_param_count s =? 0); [by apply wf_color |].
  destruct (for_range 0 _ _ _) as [[fg bg] bright]. by apply wf_color.
Qed.

(** One cursor motion. *)
Ltac onscreen :=
  unfold WIDTH, HEIGHT in *;
  repeat match goal with
  | |- context [Z.leb ?a ?b] => destruct (Z.leb_spec a b)
  | |- context [Z.ltb ?a ?b] => destruct (Z.ltb_spec a b)
  | |- context [Z.eqb ?a ?b] => destruct (Z.eqb_spec a b)
  end; lia.

Lemma count_or_1_pos s : wf s -> 1 <= count_or_1 s.
Proof.
  intros Hwf. unfold count_or_1. pose proof (param_u8 s 0 Hwf). mach. destruct (Z.eqb_spec (param s 0) 0); lia.
Qed.

Lemma motion_wf s : wf s ->
  wf (cursor_up s) /\ wf (cursor_down s) /\ wf (cursor_forward s) /\ wf (cursor_back s) /\ wf (cursor_position s).
Proof.
  intros Hwf. pose proof (count_or_1_pos s Hwf). destruct (wf_row _ Hwf), (wf_col _ Hwf).
  pose proof (param_u8 s 0 Hwf). pose proof (param_u8 s 1 Hwf). mach.
  split_and!; try apply wf_cursor; apply wf_pos; try done; onscreen.
Qed.

Lemma erase_line_wf s : wf s -> wf (erase_line s).
Proof.
  intros Hwf. destruct (wf_col _ Hwf). unfold erase_line.
  destruct (_ =? 0); [apply blank_row_wf; (done || lia) |].
  destruct (_ =? 1); [apply blank_row_wf; (done || lia) |].
  destruct (_ =? 2); [apply blank_row_wf; (done || lia) | done].
Qed.

Lemma final_byte_wf c s : wf s -> wf (final_byte c s).
Proof.
  intros Hwf.
  assert (Hif : forall (b : bool) (f : state -> state), (forall y, wf y -> wf (f y)) ->
    forall x, wf x -> wf (if b then f x else x)) by (intros []; auto).
  unfold final_byte. apply wf_esc.
  apply (Hif _ restore_cursor); [intros y Hy; apply wf_cursor, wf_pos; by destruct Hy |].
  apply (Hif _ save_cursor); [intros y Hy; apply wf_cursor; by destruct Hy |].
  apply (Hif _ erase_line); [apply erase_line_wf |].
  apply (Hif _ cursor_position); [apply motion_wf |].
  apply (Hif _ cursor_back); [apply motion_wf |].
  apply (Hif _ cursor_forward); [apply motion_wf |].
  apply (Hif _ cursor_down); [apply motion_wf |].
  apply (Hif _ cursor_up); [apply motion_wf |].
  apply (Hif _ erase_display); [intros y Hy; unfold erase_display; destruct (_ =? 2); [by apply clear_wf | done] |].
  apply (Hif _ apply_sgr); [apply apply_sgr_wf | done].
Qed.

Lemma param_byte_wf c s : wf s -> wf (param_byte c s).
Proof.
  intros Hwf. destruct (wf_count _ Hwf). unfold param_byte.
  destruct ((48 <=? c) && (c <=? 57)).
  - destruct (Z.ltb_spec (esc_param_count s) 8); [| done].
    apply wf_params_upd; [done | by rewrite length_insert; apply Hwf | | lia].
    apply Forall_insert; [apply Hwf | apply u8_bound].
  - destruct (c =? 59).
    + destruct (Z.ltb_spec (esc_param_count s) 7); [| done]. apply wf_params_upd; [done | apply Hwf | apply Hwf | lia].
    + apply final_byte_wf. destruct (Z.ltb_spec (esc_param_count s) 8); [| done].
      apply wf_params_upd; [done | apply Hwf | apply Hwf | lia].
Qed.

Lemma render_wf c s : wf s -> wf (render c s).
Proof.
  intros Hwf. pose proof (wf_row _ Hwf) as Hr. pose proof (wf_col _ Hwf) as Hc. unfold render.
  assert (0 <= 0 < WIDTH) as H0 by by compute.
  destruct (c =? 10); [by apply wf_cursor, next_row_wf, wf_pos |].
  destruct (c =? 13); [by apply wf_cursor, wf_pos |].
  destruct (c =? 8).
  - set (s1 := if 0 <? col s then _ else _).
    assert (wf s1) as Hwf1.
    { unfold s1. destruct (Z.ltb_spec 0 (col s)); [apply wf_pos; (done || lia) |].
      destruct (Z.ltb_spec 0 (row s)); [| done]. apply wf_pos; [done | lia | unfold WIDTH; lia]. }
    apply wf_cursor. eapply wf_stores; [exact Hwf1 |]. apply put_entry_stores; apply Hwf1.
  - set (s1 := put_entry c _ _ _ s).
    assert (wf s1) as Hwf1 by (eapply wf_stores; [exact Hwf |]; by apply put_entry_stores).
    apply wf_cursor. simpl. destruct (Z.leb_spec WIDTH (col s + 1)).
    + apply next_row_wf. destruct Hwf1. by split.
    + apply wf_pos; [done | apply Hwf1 | lia].
Qed.

Lemma put_char_wf c s : wf s -> wf (_put_char c s).
Proof.
  intros Hwf. unfold _put_char. destruct (esc_state s).
  - destruct (c =? 27); [by apply wf_esc | by apply render_wf].
  - destruct (c =? 91); [| by apply wf_esc]. apply wf_params_upd; [by apply wf_esc | done | | by compute].
    by repeat constructor.
  - by apply param_byte_wf, wf_esc.
  - by apply param_byte_wf.
Qed.

Lemma write_wf str s : wf s -> wf (write str s).
Proof.
  unfold write. revert s. induction str as [| c str IH]; intros s Hwf; [done |]. by apply IH, put_char_wf.
Qed.

(** ** Numbers *)

Definition digit (c : Z) : Prop := 48 <= c <= 57.
Definition dec_step (a c : Z) : Z := a * 10 + (c - 48).
(** The value of a string of decimal digits. *)
Definition parse_dec (l : list Z) : Z := foldl dec_step 0 l.

Lemma dec_loop_value i val acc : 0 <= val < 10 ^ Z.of_nat i ->
  foldl dec_step 0 (dec_loop i val acc) = foldl dec_step val acc.
Proof.
  revert val acc. induction i as [| i IH]; intros val acc Hv; simpl dec_loop.
  - assert (val = 0) as -> by (change (10 ^ Z.of_nat 0) with 1 in Hv; lia). done.
  - destruct (Z.eqb_spec val 0) as [-> |]; [done |]. rewrite Nat2Z.inj_succ, Z.pow_succ_r in Hv by lia.
    rewrite IH by divlia. simpl. f_equal. unfold dec_step. divlia.
Qed.

Lemma dec_loop_digits i val acc : 0 <= val -> Forall digit acc -> Forall digit (dec_loop i val acc).
Proof.
  revert val acc. induction i as [| i IH]; intros val acc Hv Ha; simpl; [done |].
  destruct (val =? 0); [done |]. apply IH; [divlia |]. constructor; [| done]. unfold digit. divlia.
Qed.

Lemma dec_loop_head i val acc : 0 < val < 10 ^ Z.of_nat i -> exists d l, dec_loop i val acc = d :: l /\ d <> 48.
Proof.
  revert val acc. induction i as [| i IH]; intros val acc Hv; [simpl in Hv; lia |].
  rewrite Nat2Z.inj_succ, Z.pow_succ_r in Hv by lia. simpl. rewrite (proj2 (Z.eqb_neq val 0)) by lia.
  destruct (decide (val / 10 = 0)) as [Hz |].
  - rewrite Hz. exists (48 + val mod 10), acc. split; [by destruct i | divlia].
  - apply IH. divlia.
Qed.

Lemma dec_string_spec val : U64 val -> parse_dec (dec_string val) = val /\ Forall digit (dec_string val) /\
  exists d l, dec_string val = d :: l /\ (d = 48 -> val = 0).
Proof.
  intros Hv. unfold dec_string, parse_dec. destruct (Z.eqb_spec val 0) as [-> |].
  - split_and!; [done | repeat constructor | by exists 48, []]; by compute.
  - assert (0 < val < 10 ^ Z.of_nat 20) as Hb by (change (10 ^ Z.of_nat 20) with 100000000000000000000; mach; lia).
    split_and!.
    + rewrite dec_loop_value by lia. done.
    + apply dec_loop_digits; [lia | constructor].
    + destruct (dec_loop_head 20 val [] Hb) as (d & l & Hd & Hn). by exists d, l.
Qed.

Definition hex_value (c : Z) : Z := if c <=? 57 then c - 48 else c - 55.
Definition parse_hex (l : list Z) : Z := foldl (fun a c => a * 16 + hex_value c) 0 l.

Lemma hex_digit_value d : 0 <= d < 16 -> hex_value (default 0 (hex_digits !! Z.to_nat d)) = d.
Proof.
  intros Hd. assert (d ∈ seqZ 0 16) as Hin by (apply elem_of_seqZ; lia). revert d Hin Hd.
  apply (Forall_forall (fun d => 0 <= d < 16 -> hex_value (default 0 (hex_digits !! Z.to_nat d)) = d)).
  repeat constructor.
Qed.

Lemma hex_loop_value n val acc : 0 <= val < 16 ^ Z.of_nat n ->
  foldl (fun a c => a * 16 + hex_value c) 0 (hex_loop n val acc) =
  foldl (fun a c => a * 16 + hex_value c) val acc.
Proof.
  revert val acc. induction n as [| n IH]; intros val acc Hv; cbn [hex_loop].
  - assert (val = 0) as -> by (change (16 ^ Z.of_nat 0) with 1 in Hv; lia). done.
  - rewrite Nat2Z.inj_succ, Z.pow_succ_r in Hv by lia.
    rewrite Z.shiftr_div_pow2 by lia. change (2 ^ 4) with 16. change 0xF with (Z.ones 4).
    rewrite Z.land_ones by lia. change (2 ^ 4) with 16. rewrite IH by divlia. simpl.
    rewrite hex_digit_value by divlia. f_equal. divlia.
Qed.

Lemma hex_loop_length n val acc : length (hex_loop n val acc) = (n + length acc)%nat.
Proof. revert val acc. induction n as [| n IH]; intros val acc; [done |]. cbn [hex_loop]. rewrite IH. simpl. lia. Qed.

(** ** Escape parameters *)

(** Truncation at every step and at the end agree. *)
Lemma u8_dec_fold ds a b : u8 a = u8 b -> u8 (foldl dec_step a ds) = u8 (foldl dec_step b ds).
Proof.
  revert a b. induction ds as [| d ds IH]; intros a b Hab; [done |]. simpl. apply IH.
  unfold dec_step, u8, wrap in *. rewrite (Z.add_mod (a * 10)), (Z.add_mod (b * 10)) by done.
  by rewrite (Z.mul_mod a), (Z.mul_mod b), Hab by done.
Qed.

Lemma write_cons c l s : write (c :: l) s = write l (_put_char c s).
Proof. done. Qed.

(** Feeding digits to the parser accumulates the current parameter. *)
Lemma feed_digits ds s k : esc_state s = Params -> esc_param_count s = k -> 0 <= k < 8 ->
  length (esc_params s) = 8%nat -> U8 (param s k) -> Forall digit ds ->
  write ds s = set_params (<[Z.to_nat k := u8 (foldl dec_step (param s k) ds)]> (esc_params s)) k s.
Proof.
  intros He Hk Hr Hlen Hu Hds. revert s He Hk Hlen Hu. induction Hds as [| d ds Hd _ IH]; intros s He Hk Hlen Hu.
  - simpl. rewrite u8_small by done. rewrite list_insert_id; [by destruct s; simpl in *; subst |].
    unfold param. destruct (lookup_lt_is_Some_2 (esc_params s) (Z.to_nat k)) as [x Hx]; [lia |]. by rewrite Hx.
  - unfold digit in Hd. rewrite write_cons. unfold _put_char. rewrite He. unfold param_byte.
    rewrite (proj2 (Z.leb_le 48 d)), (proj2 (Z.leb_le d 57)), Hk, (proj2 (Z.ltb_lt k 8)) by lia.
    cbn [andb]. set (s1 := set_params _ k s).
    assert (param s1 k = u8 (dec_step (param s k) d)) as Hp1.
    { unfold param, s1. simpl. rewrite list_lookup_insert_eq by lia. done. }
    rewrite (IH s1); try done.
    + rewrite Hp1. unfold s1. simpl. rewrite list_insert_insert_eq.
      unfold set_params; simpl. do 2 f_equal. apply u8_dec_fold.
      unfold u8, wrap. by rewrite Z.mod_mod by done.
    + unfold s1. simpl. by rewrite length_insert.
    + rewrite Hp1. apply u8_bound.
Qed.

(** The first byte after the bracket is already a parameter byte. *)
Lemma bracket_params c str s : esc_state s = Bracket -> write (c :: str) s = write (c :: str) (set_esc Params s).
Proof. intros He. rewrite !write_cons. unfold _put_char. by rewrite He. Qed.

Lemma write_app a b s : write (a ++ b) s = write b (write a s).
Proof. apply foldl_app. Qed.

(** The sequence [ESC \[ r ; c H]. *)
Definition position_sequence (r c : Z) : list Z := [27; 91] ++ dec_string r ++ [59] ++ dec_string c ++ [72].

Lemma write_position r c s : esc_state s = Normal -> 0 < r < 256 -> 0 < c < 256 ->
  write (position_sequence r c) s =
  final_byte 72 (set_params [r; c; 0; 0; 0; 0; 0; 0] 2 (set_esc Params s)).
Proof.
  intros He Hr Hc. unfold position_sequence.
  destruct (dec_string_spec r) as (Hvr & Hdr & dr & lr & Er & _); [mach; lia |].
  destruct (dec_string_spec c) as (Hvc & Hdc & _); [mach; lia |].
  rewrite write_app, !write_cons.
  assert (_put_char 91 (_put_char 27 s) = set_params (replicate 8 0) 0 (set_esc Bracket s)) as ->.
  { unfold _put_char at 2. rewrite He. done. }
  change (write [] ?x) with x.
  rewrite Er, <- app_comm_cons, bracket_params by done. rewrite app_comm_cons, <- Er.
  rewrite !write_app. set (s0 := set_esc Params _).
  rewrite (feed_digits (dec_string r) s0 0); try done.
  change (foldl dec_step (param s0 0) (dec_string r)) with (parse_dec (dec_string r)). rewrite Hvr.
  rewrite (u8_small r) by (mach; lia).
  set (s1 := write [59] _).
  assert (s1 = set_params [r; 0; 0; 0; 0; 0; 0; 0] 1 (set_esc Params s)) as -> by (destruct s; simpl in *; by subst).
  rewrite (feed_digits (dec_string c) _ 1); try done.
  change (foldl dec_step (param _ 1) (dec_string c)) with (parse_dec (dec_string c)). rewrite Hvc.
  rewrite (u8_small c) by (mach; lia). by destruct s.
Qed.

(** ** Scrolling *)

Definition cell (s : state) (x y : Z) : Z := default 0 (buffer s !! (y * WIDTH + x)).
Definition blank (c : Z) : Z := u16 32 .| u16 (u16 c .<< 8).
Definition on_screen (x y : Z) : Prop := 0 <= x < WIDTH /\ 0 <= y < HEIGHT.

Lemma cell_insert s i v x y : cell (set_buffer (<[i := v]> (buffer s)) s) x y =
  if decide (i = y * WIDTH + x) then v else cell s x y.
Proof. unfold cell; simpl. rewrite lookup_insert. by case_decide. Qed.

(** Copying one row up. *)
Lemma copy_row_spec y0 s : 1 <= y0 < HEIGHT ->
  let s' := for_range 0 WIDTH (copy_cell y0) s in
  color s' = color s /\
  forall x y, on_screen x y -> cell s' x y = if decide (y = y0 - 1) then cell s x y0 else cell s x y.
Proof.
  intros Hy0. cbv zeta. set (I := fun n s' => color s' = color s /\ forall x y, on_screen x y ->
    cell s' x y = if decide (y = y0 - 1 /\ x < n) then cell s x y0 else cell s x y).
  destruct (for_range_ind I (copy_cell y0) WIDTH 0 s) as [Hc Hcell].
  - by compute.
  - split; [done |]. intros x y [Hx _]. rewrite decide_False; [done | lia].
  - intros n s' Hn [Hcol IH]. split; [done |]. intros x y [Hx Hy]. unfold copy_cell. rewrite cell_insert.
    change (default 0 (buffer s' !! (y0 * WIDTH + n))) with (cell s' n y0).
    rewrite !IH by (unfold on_screen, HEIGHT in *; lia). unfold WIDTH, HEIGHT in *.
    repeat case_decide; try lia; try done; by replace n with x by lia.
  - split; [done |]. intros x y Hxy. rewrite Hcell by done. destruct Hxy as [Hx _].
    repeat case_decide; try done; lia.
Qed.

Lemma copy_rows_spec s : color (copy_rows s) = color s /\ forall x y, on_screen x y ->
  cell (copy_rows s) x y = if decide (y < HEIGHT - 1) then cell s x (y + 1) else cell s x y.
Proof.
  set (I := fun n s' => color s' = color s /\ forall x y, on_screen x y ->
    cell s' x y = if decide (y < n - 1) then cell s x (y + 1) else cell s x y).
  apply (for_range_ind I (fun y s => for_range 0 WIDTH (copy_cell y) s) HEIGHT 1 s); [by compute | |].
  - split; [done |]. intros x' y' [_ Hy']. rewrite decide_False; [done | lia].
  - intros n s' Hn [Hc IH]. destruct (copy_row_spec n s' Hn) as [Hc' H']. split; [by rewrite Hc' |].
    intros x' y' Hxy. rewrite H' by done. destruct Hxy as [Hx' Hy'].
    rewrite !IH by (unfold on_screen, HEIGHT in *; lia).
    repeat case_decide; try lia; try done. by replace n with (y' + 1) by lia.
Qed.

Lemma blank_last_row_spec s x y : on_screen x y ->
  cell (blank_last_row s) x y = if decide (y = HEIGHT - 1) then blank (color s) else cell s x y.
Proof.
  intros Hxy. set (J := fun n s' => color s' = color s /\ forall x y, on_screen x y ->
    cell s' x y = if decide (y = HEIGHT - 1 /\ x < n) then blank (color s) else cell s x y).
  destruct (for_range_ind J (fun x s => put_entry 32 (color s) x (HEIGHT - 1) s) WIDTH 0 s) as [_ H].
  - by compute.
  - split; [done |]. intros x' y' [Hx' _]. rewrite decide_False; [done | lia].
  - intros n s' Hn [Hc IH]. split; [done |]. intros x' y' Hxy'. unfold put_entry. rewrite cell_insert, Hc, IH by done.
    fold (blank (color s)). destruct Hxy' as [Hx' Hy']. unfold WIDTH, HEIGHT in *.
    repeat case_decide; try lia; try done.
  - unfold blank_last_row. rewrite H by done. destruct Hxy as [Hx _]. repeat case_decide; try done; lia.
Qed.

Lemma cell_set_pos r c s x y : cell (set_pos r c s) x y = cell s x y.
Proof. done. Qed.

Lemma cell_update_cursor s x y : cell (update_cursor s) x y = cell s x y.
Proof. done. Qed.

Lemma pos_update_cursor s : row (update_cursor s) = row s /\ col (update_cursor s) = col s.
Proof. done. Qed.

Lemma next_row_last s : row s = HEIGHT - 1 -> next_row s = scroll (set_pos HEIGHT (col s) s).
Proof.
  intros Hr. unfold next_row. cbv zeta. change (row (set_pos ?r ?c ?z)) with r. rewrite Hr.
  rewrite (proj2 (Z.leb_le HEIGHT (HEIGHT - 1 + 1))) by lia.
  by replace (HEIGHT - 1 + 1) with HEIGHT by lia.
Qed.

Lemma scroll_cells s x y : on_screen x y ->
  cell (scroll s) x y = if decide (y = HEIGHT - 1) then blank (color s) else cell s x (y + 1).
Proof.
  intros Hxy. destruct (copy_rows_spec s) as [Hc1 H1].
  pose proof (blank_last_row_spec (copy_rows s) x y Hxy) as H2. rewrite H1, Hc1 in H2 by done.
  unfold scroll. cbv zeta. rewrite cell_set_pos, H2. destruct Hxy as [_ Hy].
  repeat case_decide; try done; lia.
Qed.

#[local] Opaque scroll.

(** ** Results *)

(** C28: whatever text is written, escape sequences and control characters
    included, the cursor and the saved position stay on the screen, the parser
    stays inside its parameter array, and no cell outside the 2000 of the screen
    is stored to. *)
Theorem console_safe str s : wf s -> wf (write str s) /\ wf (write_line str s).
Proof. intros Hwf. split; [by apply write_wf | by apply put_char_wf, write_wf]. Qed.

(** [write_dec] and [write_hex] print the number they are given: the decimal
    string has no leading zero, only digits, and reads back as the value; the
    hexadecimal one is [0x] and sixteen digits that do. *)
Theorem number_strings val : U64 val ->
  parse_dec (dec_string val) = val /\ Forall digit (dec_string val) /\
  (exists d l, dec_string val = d :: l /\ (d = 48 -> val = 0)) /\
  take 2 (hex_string val) = [48; 120] /\ length (hex_string val) = 18%nat /\
  parse_hex (drop 2 (hex_string val)) = val.
Proof.
  intros Hv. destruct (dec_string_spec val Hv) as (H1 & H2 & H3). split_and!; try done.
  change (drop 2 (hex_string val)) with (hex_loop 16 val []). unfold parse_hex.
  rewrite hex_loop_value; [done |]. change (16 ^ Z.of_nat 16) with (2 ^ 64). done.
Qed.

(** Writing [ESC \[ row ; column H], with both numbers printed in decimal,
    moves the cursor to that position for every position of the screen and
    changes nothing else on it. *)
Theorem cursor_sequence_roundtrip r c s : esc_state s = Normal -> 1 <= r <= HEIGHT -> 1 <= c <= WIDTH ->
  let s' := write (position_sequence r c) s in
  row s' = r - 1 /\ col s' = c - 1 /\ esc_state s' = Normal /\ buffer s' = buffer s /\ color s' = color s.
Proof.
  unfold HEIGHT, WIDTH. intros He Hr Hc. cbv zeta. rewrite write_position by (done || lia).
  unfold final_byte. simpl. unfold cursor_position, param, HEIGHT, WIDTH. simpl.
  rewrite (proj2 (Z.eqb_neq r 0)), (proj2 (Z.eqb_neq c 0)) by lia.
  rewrite (proj2 (Z.leb_gt 25 (r - 1))), (proj2 (Z.leb_gt 80 (c - 1))) by lia. done.
Qed.

(** A line feed on the last row scrolls: every row takes the contents of the
    row below it, the last row becomes blank in the current colour, and the
    cursor is at its start. *)
Theorem newline_scrolls s : wf s -> esc_state s = Normal -> row s = HEIGHT - 1 ->
  let s' := put_char 10 s in
  row s' = HEIGHT - 1 /\ col s' = 0 /\
  forall x y, on_screen x y -> cell s' x y = if decide (y = HEIGHT - 1) then blank (color s) else cell s x (y + 1).
Proof.
  intros Hwf He Hr. cbv zeta. set (s1 := set_pos HEIGHT 0 s).
  assert (put_char 10 s = update_cursor (scroll s1)) as ->.
  { unfold put_char, _put_char. rewrite He. exact (f_equal update_cursor (next_row_last (set_pos (row s) 0 s) Hr)). }
  pose proof (scroll_stores s1) as (_ & Hrow & Hcol & _). destruct (pos_update_cursor (scroll s1)) as [-> ->].
  rewrite Hrow, Hcol. split_and!; [reflexivity | reflexivity |].
  intros x y Hxy. rewrite cell_update_cursor. rewrite scroll_cells by exact Hxy. reflexivity.
Qed.

(** ** Examples *)

Definition demo : state := State ∅ 0 0 7 0 0 Normal (replicate 8 0) 0 0.

Lemma vga_demo_wf : wf demo.
Proof. split; simpl; try (by compute); [by repeat constructor |]. intros i [x Hx]. by rewrite lookup_empty in Hx. Qed.

(** Colour, text, a position far outside the screen, more text. *)
Definition demo_text : list Z := [27; 91; 51; 49; 109; 72; 105; 27; 91; 57; 57; 59; 57; 57; 72; 33; 33].

Lemma console_safe_witness : wf (write demo_text demo) /\ row (write demo_text demo) = 24 /\ col (write demo_text demo) = 1.
Proof.
  destruct (console_safe demo_text demo vga_demo_wf) as [H _].
  split; [exact H | split; vm_compute; reflexivity].
Defined.

Lemma number_strings_witness : parse_dec (dec_string 18446744073709551615) = 18446744073709551615 /\
  parse_hex (drop 2 (hex_string 0xDEADBEEF)) = 0xDEADBEEF.
Proof.
  assert (U64 18446744073709551615) as H1 by by compute. assert (U64 0xDEADBEEF) as H2 by by compute.
  destruct (number_strings _ H1) as (Hd & _). destruct (number_strings _ H2) as (_ & _ & _ & _ & _ & Hh).
  split; [exact Hd | exact Hh].
Defined.

Lemma cursor_sequence_roundtrip_witness :
  row (write (position_sequence 12 70) demo) = 11 /\ col (write (position_sequence 12 70) demo) = 69.
Proof.
  destruct (cursor_sequence_roundtrip 12 70 demo) as (Hr & Hc & _); [reflexivity | by compute | by compute |].
  split; [exact Hr | exact Hc].
Defined.

Definition demo_last : state := put_entry 65 7 3 24 (set_pos 24 4 demo).

Lemma newline_scrolls_witness : cell (put_char 10 demo_last) 3 23 = cell demo_last 3 24 /\
  cell (put_char 10 demo_last) 3 24 = blank 7.
Proof.
  assert (on_screen 3 23) as H1 by by compute. assert (on_screen 3 24) as H2 by by compute.
  assert (wf demo_last) as Hwf.
  { apply (wf_stores (set_pos 24 4 demo)); [| by apply put_entry_stores]. apply wf_pos; [exact vga_demo_wf | by compute | by compute]. }
  destruct (newline_scrolls demo_last Hwf eq_refl eq_refl) as (_ & _ & H).
  split; [exact (H 3 23 H1) | exact (H 3 24 H2)].
Defined.

(** Bright background codes 100 to 107 all select light gray: the argument is
    reduced by 60 to the range 40 to 47, which the foreground table lacks. *)
Lemma bright_background_lost p : 100 <= p <= 107 -> forall fg bg br, sgr_param p (fg, bg, br) = (fg, LightGray, br).
Proof.
  intros Hp fg bg br. assert (p ∈ seqZ 100 8) as Hin by (apply elem_of_seqZ; lia). revert p Hin Hp.
  apply (Forall_forall (fun p => 100 <= p <= 107 -> sgr_param p (fg, bg, br) = (fg, LightGray, br))).
  repeat constructor.
Qed.

(** A character with bit 7 set is sign-extended and overwrites the attribute. *)
Lemma high_char_attribute : cell (put_char (-1) demo) 0 0 = 0xFFFF.
Proof. by vm_compute. Qed.
