(* ===== verification/Vfs.v ===== *)
(** * fs/vfs.cpp: the virtual file system

    Path resolution, the ramfs, the terminal device, pipes and the descriptor
    operations.  Nodes, descriptors and pipe buffers live in maps keyed by the
    address [kmalloc] returned; file contents live in a byte memory.  The heap is
    any implementation of [Alloc.Allocator].  A string is the list of its
    characters before the terminator.  An operation returns [None] when a call it
    makes does not return: the allocator, or the keyboard when no event ever
    arrives.  Sibling walks get one step per node plus one.  The operations of a
    mounted foreign file system are parameters. *)
From S2P Require Import Prelude Ring Alloc.
From S2P Require Keyboard Vga.

(** ** Constants and data *)

Definition O_READ : Z := 0.
Definition O_WRITE : Z := 1.
Definition O_RDWR : Z := 2.
Definition O_CREATE : Z := 0x40.
Definition O_TRUNC : Z := 0x200.
Definition O_APPEND : Z := 0x400.
Definition SEEK_SET : Z := 0.
Definition SEEK_CUR : Z := 1.
Definition SEEK_END : Z := 2.
Definition VFS_READ : Z := 1 .<< 8.
Definition VFS_WRITE : Z := 1 .<< 9.
Definition VFS_APPEND : Z := 1 .<< 10.
Definition VFS_TYPE_FILE : Z := 1.
Definition VFS_TYPE_DIR : Z := 2.
Definition S_IFREG : Z := 0x8000.
Definition S_IFDIR : Z := 0x4000.
Definition S_IRWX : Z := 0x01C0 .| 0x0038 .| 0x0007.
Definition PIPE_BUF_SIZE : Z := 4096.
Definition NAME_MAX : nat := 128.

(** Object sizes on x86-64. *)
Definition sizeof_VNode : Z := 216.
Definition sizeof_FileDescriptor : Z := 32.
Definition sizeof_PipeBuffer : Z := 4128.
Definition sizeof_Mount : Z := 144.

(** The vtable a node points to. *)
Inductive FileOps := NullOps | RamfsOps | TtyOps | PipeOps | ForeignOps.

#[global] Instance FileOps_eq_dec : EqDecision FileOps.
Proof. solve_decision. Defined.

Record VNode := Node {
  name : list Z;
  type : Z;
  fsize : Z;
  parent : Z;
  children : Z;
  next_sibling : Z;
  ops : FileOps;
  fdata : Z;
  data_capacity : Z;
  refcount : Z;
  priv : Z;
}.

Record FileDescriptor := Fd {
  node : Z;
  offset : Z;
  flags : Z;
  dir_index : Z;
}.

Record PipeBuffer := Pipe {
  pbuf : gmap Z Z;
  read_pos : Z;
  write_pos : Z;
  pused : Z;
  pref : Z;
}.

Record Dirent := MkDirent { d_name : list Z; d_type : Z }.
Record StatBuf := MkStat { st_size : Z; st_mode : Z; st_blksize : Z; st_blocks : Z }.

Definition set_link (p n : Z) (v : VNode) := Node (name v) (type v) (fsize v) p (children v) n (ops v) (fdata v) (data_capacity v) (refcount v) (priv v).
Definition set_parent (p : Z) (v : VNode) := Node (name v) (type v) (fsize v) p (children v) (next_sibling v) (ops v) (fdata v) (data_capacity v) (refcount v) (priv v).
Definition set_next (n : Z) (v : VNode) := Node (name v) (type v) (fsize v) (parent v) (children v) n (ops v) (fdata v) (data_capacity v) (refcount v) (priv v).
Definition set_children (c : Z) (v : VNode) := Node (name v) (type v) (fsize v) (parent v) c (next_sibling v) (ops v) (fdata v) (data_capacity v) (refcount v) (priv v).
Definition set_ops (o : FileOps) (v : VNode) := Node (name v) (type v) (fsize v) (parent v) (children v) (next_sibling v) o (fdata v) (data_capacity v) (refcount v) (priv v).
Definition set_fsize (n : Z) (v : VNode) := Node (name v) (type v) n (parent v) (children v) (next_sibling v) (ops v) (fdata v) (data_capacity v) (refcount v) (priv v).
Definition set_store (d c : Z) (v : VNode) := Node (name v) (type v) (fsize v) (parent v) (children v) (next_sibling v) (ops v) d c (refcount v) (priv v).
Definition set_refcount (r : Z) (v : VNode) := Node (name v) (type v) (fsize v) (parent v) (children v) (next_sibling v) (ops v) (fdata v) (data_capacity v) r (priv v).
Definition set_offset (o : Z) (f : FileDescriptor) := Fd (node f) o (flags f) (dir_index f).
Definition set_dir_index (i : Z) (f : FileDescriptor) := Fd (node f) (offset f) (flags f) i.

Definition no_node : VNode := Node [] 0 0 0 0 0 NullOps 0 0 0 0.
Definition no_fd : FileDescriptor := Fd 0 0 0 0.
Definition no_pipe : PipeBuffer := Pipe ∅ 0 0 0 0.

(** The address of the static [tty_node]. *)
Definition tty_ptr : Z := 0x200000.

(** ** Strings *)

Definition slash : Z := 47.

(** [kstrcpy] into a buffer of [max] characters. *)
Definition kstrcpy (src : list Z) (max : nat) : list Z := take (max - 1) src.
Definition kstreq (a b : list Z) : bool := bool_decide (a = b).

Fixpoint skip_slashes (path : list Z) : list Z :=
  match path with
  | c :: path' => if c =? slash then skip_slashes path' else path
  | [] => []
  end.

(** At most [n] characters up to the next slash, and what follows. *)
Fixpoint take_component (n : nat) (path : list Z) : list Z * list Z :=
  match n, path with
  | S n', c :: path' =>
      if c =? slash then ([], path)
      else let '(comp, rest) := take_component n' path' in (c :: comp, rest)
  | _, _ => ([], path)
  end.

(** The component and the rest of the path. *)
Definition path_next (path : list Z) (max : nat) : list Z * list Z :=
  let path := skip_slashes path in
  match path with
  | [] => ([], [])
  | _ => take_component (max - 1) path
  end.

Definition dot : list Z := [46].
Definition dotdot : list Z := [46; 46].

Section vfs.
Context {H : Type} `{!Allocator H}.

(** ** State *)

Record state := State {
  heap : H;
  nodes : gmap Z VNode;
  fds : gmap Z FileDescriptor;
  pipes : gmap Z PipeBuffer;
  bytes : gmap Z Z;
  mounts : list (list Z * Z);
  vfs_root : Z;
  cwd : Z;
  input : list Keyboard.KeyEvent;
  pushback : gmap Z Z;
  tty_pb_len : Z;
  tty_pb_head : Z;
  console : Vga.state;
}.

Definition set_heap x s := State x (nodes s) (fds s) (pipes s) (bytes s) (mounts s) (vfs_root s) (cwd s) (input s) (pushback s) (tty_pb_len s) (tty_pb_head s) (console s).
Definition set_nodes x s := State (heap s) x (fds s) (pipes s) (bytes s) (mounts s) (vfs_root s) (cwd s) (input s) (pushback s) (tty_pb_len s) (tty_pb_head s) (console s).
Definition set_fds x s := State (heap s) (nodes s) x (pipes s) (bytes s) (mounts s) (vfs_root s) (cwd s) (input s) (pushback s) (tty_pb_len s) (tty_pb_head s) (console s).
Definition set_pipes x s := State (heap s) (nodes s) (fds s) x (bytes s) (mounts s) (vfs_root s) (cwd s) (input s) (pushback s) (tty_pb_len s) (tty_pb_head s) (console s).
Definition set_bytes x s := State (heap s) (nodes s) (fds s) (pipes s) x (mounts s) (vfs_root s) (cwd s) (input s) (pushback s) (tty_pb_len s) (tty_pb_head s) (console s).
Definition set_mounts x s := State (heap s) (nodes s) (fds s) (pipes s) (bytes s) x (vfs_root s) (cwd s) (input s) (pushback s) (tty_pb_len s) (tty_pb_head s) (console s).
Definition set_vfs_root x s := State (heap s) (nodes s) (fds s) (pipes s) (bytes s) (mounts s) x (cwd s) (input s) (pushback s) (tty_pb_len s) (tty_pb_head s) (console s).
Definition set_cwd_field x s := State (heap s) (nodes s) (fds s) (pipes s) (bytes s) (mounts s) (vfs_root s) x (input s) (pushback s) (tty_pb_len s) (tty_pb_head s) (console s).
Definition set_input x s := State (heap s) (nodes s) (fds s) (pipes s) (bytes s) (mounts s) (vfs_root s) (cwd s) x (pushback s) (tty_pb_len s) (tty_pb_head s) (console s).
Definition set_pushback b n h s := State (heap s) (nodes s) (fds s) (pipes s) (bytes s) (mounts s) (vfs_root s) (cwd s) (input s) b n h (console s).
Definition set_console x s := State (heap s) (nodes s) (fds s) (pipes s) (bytes s) (mounts s) (vfs_root s) (cwd s) (input s) (pushback s) (tty_pb_len s) (tty_pb_head s) x.

(** ** The effect of an operation: a result and a new state, or no return *)

Definition M (A : Type) : Type := state -> option (A * state).
Definition ret {A} (x : A) : M A := fun s => Some (x, s).
Definition bind {A B} (m : M A) (k : A -> M B) : M B := fun s => '(x, s) ← m s; k x s.
Definition get {A} (f : state -> A) : M A := fun s => Some (f s, s).
Definition modify (f : state -> state) : M unit := fun s => Some (tt, f s).
#[local] Instance M_ret : MRet M := @ret.
#[local] Instance M_bind : MBind M := fun A B k m => bind m k.

Definition malloc (n : Z) : M Z := fun s => '(p, h) ← kmalloc n (heap s); Some (p, set_heap h s).
Definition free (p : Z) : M unit := fun s => h ← kfree p (heap s); Some (tt, set_heap h s).

Definition nd (s : state) (p : Z) : VNode := default no_node (nodes s !! p).
Definition fd (s : state) (p : Z) : FileDescriptor := default no_fd (fds s !! p).
Definition pp (s : state) (p : Z) : PipeBuffer := default no_pipe (pipes s !! p).
Definition byte (s : state) (a : Z) : Z := default 0 (bytes s !! a).

Definition upd_node (p : Z) (f : VNode -> VNode) : M unit := modify (fun s => set_nodes (<[p := f (nd s p)]> (nodes s)) s).
Definition upd_fd (p : Z) (f : FileDescriptor -> FileDescriptor) : M unit := modify (fun s => set_fds (<[p := f (fd s p)]> (fds s)) s).
Definition store_byte (a v : Z) (s : state) : state := set_bytes (<[a := v]> (bytes s)) s.

(** ** Nodes *)

Definition alloc_vnode (nm : list Z) (ty : Z) : M Z :=
  n ← malloc sizeof_VNode;
  if n =? 0 then ret 0 else
  modify (fun s => set_nodes (<[n := Node (kstrcpy nm NAME_MAX) ty 0 0 0 0 NullOps 0 0 0 0]> (nodes s)) s) ;;
  ret n.

Definition add_child (par child : Z) : M unit :=
  c ← get (fun s => children (nd s par));
  upd_node child (set_link par c) ;;
  upd_node par (set_children child).

(** ** ramfs *)

(** The bytes stored to the caller's buffer. *)
Definition read_bytes (s : state) (a : Z) (n : Z) : list Z := (fun i => byte s (a + i)) <$> seqZ 0 n.

Definition ramfs_read (p off len : Z) : M (kResult (list Z)) :=
  get (fun s =>
    let v := nd s p in
    if (fdata v =? 0) || (fsize v <=? off) then Ok []
    else
      let avail := u64 (fsize v - off) in
      let len := if avail <? len then avail else len in
      Ok (read_bytes s (fdata v + off) len)).

Fixpoint write_bytes (a : Z) (src : list Z) (s : state) : state :=
  match src with
  | [] => s
  | b :: src' => write_bytes (a + 1) src' (store_byte a b s)
  end.

(** The buffer of [p] replaced by one of [newcap] bytes with the same contents. *)
Definition grow (p newcap newbuf : Z) : M unit :=
  v ← get (fun s => nd s p);
  modify (fun s => for_range 0 (fsize v) (fun i s => store_byte (newbuf + i) (byte s (fdata v + i)) s) s) ;;
  modify (fun s => for_range (fsize v) newcap (fun i s => store_byte (newbuf + i) 0 s) s) ;;
  (if negb (fdata v =? 0) then free (fdata v) else ret tt) ;;
  upd_node p (set_store newbuf newcap).

Definition ramfs_write (p off : Z) (src : list Z) : M (kResult Z) :=
  let len := Z.of_nat (length src) in
  let wend := u64 (off + len) in
  v ← get (fun s => nd s p);
  r ← (if data_capacity v <? wend then
         let newcap := u64 (wend * 2) in
         let newcap := if newcap <? 64 then 64 else newcap in
         newbuf ← malloc newcap;
         if newbuf =? 0 then ret (Err OutOfMemory) else (grow p newcap newbuf ;; ret (Ok tt))
       else ret (Ok tt));
  match r with
  | Err e => ret (Err e)
  | Ok _ =>
      v ← get (fun s => nd s p);
      modify (write_bytes (fdata v + off) src) ;;
      (if fsize v <? wend then upd_node p (set_fsize wend) else ret tt) ;;
      ret (Ok len)
  end.

Fixpoint nth_child (fuel : nat) (s : state) (child : Z) (i : Z) : option (option Z) :=
  match fuel with
  | O => None
  | S fuel' =>
      if child =? 0 then Some None
      else if i =? 0 then Some (Some child)
      else nth_child fuel' s (next_sibling (nd s child)) (i - 1)
  end.

Definition walk_fuel (s : state) : nat := S (size (nodes s)).

Definition ramfs_readdir (p index : Z) : M (kResult Dirent) := fun s =>
  r ← nth_child (walk_fuel s) s (children (nd s p)) index;
  match r with
  | Some c => Some (Ok (MkDirent (kstrcpy (name (nd s c)) NAME_MAX) (type (nd s c))), s)
  | None => Some (Err EndOfFile, s)
  end.

(** ** tty *)

Definition PB_SIZE : Z := 8.

Fixpoint tty_push_seq (seq : list Z) (s : state) : state :=
  match seq with
  | [] => s
  | c :: seq' =>
      if tty_pb_len s <? PB_SIZE then
        tty_push_seq seq'
          (set_pushback (<[(tty_pb_head s + tty_pb_len s) mod PB_SIZE := c]> (pushback s))
             (tty_pb_len s + 1) (tty_pb_head s) s)
      else s
  end.

Definition tty_pb_pop (s : state) : Z * state :=
  (default 0 (pushback s !! tty_pb_head s),
   set_pushback (pushback s) (tty_pb_len s - 1) ((tty_pb_head s + 1) mod PB_SIZE) s).

Definition key_sequence (scancode : Z) : option (list Z) :=
  if scancode =? Keyboard.KEY_UP then Some [27; 91; 65]
  else if scancode =? Keyboard.KEY_DOWN then Some [27; 91; 66]
  else if scancode =? Keyboard.KEY_RIGHT then Some [27; 91; 67]
  else if scancode =? Keyboard.KEY_LEFT then Some [27; 91; 68]
  else if scancode =? Keyboard.KEY_HOME then Some [27; 91; 72]
  else if scancode =? Keyboard.KEY_END then Some [27; 91; 70]
  else if scancode =? Keyboard.KEY_DEL then Some [27; 91; 51; 126]
  else if scancode =? Keyboard.KEY_PGUP then Some [27; 91; 53; 126]
  else if scancode =? Keyboard.KEY_PGDN then Some [27; 91; 54; 126]
  else None.

(** [while (tty_pb_len > 0 && i < len)]; [room] is [len - i]. *)
Fixpoint drain (room : nat) (acc : list Z) (s : state) : nat * list Z * state :=
  match room with
  | O => (O, acc, s)
  | S room' =>
      if 0 <? tty_pb_len s then let '(c, s) := tty_pb_pop s in drain room' (acc ++ [c]) s
      else (room, acc, s)
  end.

(** One step per keyboard event plus one; [None] is a read that blocks forever. *)
Fixpoint tty_loop (fuel : nat) (room : nat) (acc : list Z) (s : state) : option (list Z * state) :=
  match fuel with
  | O => None
  | S fuel' =>
      let '(room, acc, s) := drain room acc s in
      match room with
      | O => Some (acc, s)
      | S room' =>
          match input s with
          | [] => None
          | e :: rest =>
              let s := set_input rest s in
              if negb (Keyboard.pressed e) then tty_loop fuel' room acc s
              else if negb (Keyboard.ascii e =? 0) then
                let acc := acc ++ [Keyboard.ascii e] in
                if (Keyboard.ascii e =? 10) || (Keyboard.ascii e =? 13) then Some (acc, s)
                else tty_loop fuel' room' acc s
              else
                match key_sequence (Keyboard.scancode e) with
                | Some seq => tty_loop fuel' room acc (tty_push_seq seq s)
                | None => tty_loop fuel' room acc s
                end
          end
      end
  end.

Definition tty_read (len : Z) : M (kResult (list Z)) := fun s =>
  if len =? 0 then Some (Err InvalidArgument, s)
  else '(l, s) ← tty_loop (2 + length (input s)) (Z.to_nat len) [] s; Some (Ok l, s).

Definition tty_write (src : list Z) : M (kResult Z) :=
  modify (fun s => set_console (foldl (fun v c => Vga.put_char c v) (console s) src) s) ;;
  ret (Ok (Z.of_nat (length src))).

Definition tty_node : VNode := Node [116; 116; 121] VFS_TYPE_FILE 0 0 0 0 TtyOps 0 0 0 0.

(** ** Resolution *)

Definition get_cwd (s : state) : Z := if cwd s =? 0 then vfs_root s else cwd s.
Definition set_cwd (p : Z) : M unit := modify (set_cwd_field p).

Fixpoint find_child (fuel : nat) (s : state) (child : Z) (comp : list Z) : option (option Z) :=
  match fuel with
  | O => None
  | S fuel' =>
      if child =? 0 then Some None
      else if kstreq (name (nd s child)) comp then Some (Some child)
      else find_child fuel' s (next_sibling (nd s child)) comp
  end.

(** One turn of the resolution loop per character of the path, plus one; the
    result 0 is [nullptr]. *)
Fixpoint resolve_loop (fuel : nat) (s : state) (p : list Z) (n : Z) : option Z :=
  match fuel with
  | O => None
  | S fuel' =>
      let '(comp, p) := path_next p NAME_MAX in
      if bool_decide (comp = []) then Some n
      else if kstreq comp dot then resolve_loop fuel' s p n
      else if kstreq comp dotdot then
        resolve_loop fuel' s p (if negb (parent (nd s n) =? 0) then parent (nd s n) else n)
      else if negb (type (nd s n) =? VFS_TYPE_DIR) then Some 0
      else
        r ← find_child (walk_fuel s) s (children (nd s n)) comp;
        match r with
        | Some c => resolve_loop fuel' s p c
        | None => Some 0
        end
  end.

Definition resolve_internal (path : list Z) (s : state) : option Z :=
  match path with
  | [] => Some 0
  | c :: rest =>
      let n := if c =? slash then vfs_root s else get_cwd s in
      let n := if n =? 0 then vfs_root s else n in
      resolve_loop (S (length path)) s (if c =? slash then rest else path) n
  end.

Definition lookup (path : list Z) : M Z := fun s => n ← resolve_internal path s; Some (n, s).

Definition resolve (path : list Z) : M (kResult Z) :=
  n ← lookup path; ret (if n =? 0 then Err NotFound else Ok n).

(** The position of the last slash. *)
Definition last_slash (path : list Z) : option nat :=
  foldl (fun o i => match path !! i with Some c => if c =? slash then Some i else o | None => o end)
    None (seq 0 (length path)).

(** [parent_path] holds at most 255 characters of a path it then terminates at
    its full length: the model is the behaviour for parent paths below 256
    characters, and [None] the buffer overrun beyond. *)
Definition resolve_parent (path : list Z) (max : nat) : M (Z * list Z) := fun s =>
  match last_slash path with
  | None => Some ((get_cwd s, kstrcpy path max), s)
  | Some i =>
      let leaf := kstrcpy (drop (i + 1) path) max in
      let plen := if bool_decide (i = 0%nat) then 1%nat else i in
      if (255 <? Z.of_nat plen) then None
      else n ← resolve_internal (take plen path) s; Some ((n, leaf), s)
  end.

(** The names from [n] up to the root, at most 32. *)
Fixpoint path_parts (depth : nat) (s : state) (n : Z) : list (list Z) :=
  match depth with
  | O => []
  | S depth' =>
      if (n =? 0) || (n =? vfs_root s) then []
      else name (nd s n) :: path_parts depth' s (parent (nd s n))
  end.

Definition append_part (max : Z) (out : list Z) (part : list Z) : list Z :=
  if Z.of_nat (length out) <? u64 (max - 2) then
    let out := out ++ [slash] in
    out ++ take (Z.to_nat (u64 (max - 1) - Z.of_nat (length out))) part
  else out.

(** The string left in a buffer of [max] characters. *)
Definition build_path (n max : Z) (s : state) : list Z :=
  if (n =? 0) || (n =? vfs_root s) then [slash]
  else foldl (append_part max) [] (rev (path_parts 32 s n)).

(** ** The operations of another file system *)

Variable foreign_read : Z -> Z -> Z -> M (kResult (list Z)).
Variable foreign_write : Z -> Z -> list Z -> M (kResult Z).
Variable foreign_close : Z -> M unit.
Variable foreign_create : Z -> list Z -> Z -> M Z.
Variable foreign_unlink : Z -> list Z -> M kStatus.
Variable foreign_readdir : Z -> Z -> M (kResult Dirent).

(** ** create *)

Definition create_internal (path : list Z) (ty : Z) : M Z :=
  '(par, leaf) ← resolve_parent path NAME_MAX;
  v ← get (fun s => nd s par);
  if (par =? 0) || negb (type v =? VFS_TYPE_DIR) then ret 0 else
  clash ← (fun s => r ← find_child (walk_fuel s) s (children v) leaf; Some (r, s)) : M (option Z);
  match clash with
  | Some _ => ret 0
  | None =>
      n ← (if decide (ops v = ForeignOps) then foreign_create par leaf ty
           else (n ← alloc_vnode leaf ty;
                 if n =? 0 then ret 0 else (upd_node n (set_ops RamfsOps) ;; ret n)));
      if n =? 0 then ret 0 else (add_child par n ;; ret n)
  end.

Definition create (path : list Z) (ty : Z) : M (kResult Z) :=
  n ← create_internal path ty; ret (if n =? 0 then Err IOError else Ok n).

(** ** Pipes *)

Fixpoint pipe_take (n : nat) (b : PipeBuffer) : list Z * PipeBuffer :=
  match n with
  | O => ([], b)
  | S n' =>
      let c := slot 0 (pbuf b) (read_pos b) in
      let '(l, b) := pipe_take n' (Pipe (pbuf b) ((read_pos b + 1) mod PIPE_BUF_SIZE) (write_pos b) (pused b) (pref b)) in
      (c :: l, b)
  end.

Definition set_pused (n : Z) (b : PipeBuffer) := Pipe (pbuf b) (read_pos b) (write_pos b) n (pref b).
Definition set_pref (n : Z) (b : PipeBuffer) := Pipe (pbuf b) (read_pos b) (write_pos b) (pused b) n.

(** [pipe_read] on the buffer. *)
Definition pipe_get (len : Z) (b : PipeBuffer) : list Z * PipeBuffer :=
  if pused b =? 0 then ([], b) else
  let to_read := if len <? pused b then len else pused b in
  let '(l, b) := pipe_take (Z.to_nat to_read) b in
  (l, set_pused (u64 (pused b - to_read)) b).

Definition pipe_read (p len : Z) : M (kResult (list Z)) :=
  q ← get (fun s => fdata (nd s p));
  if q =? 0 then ret (Err InvalidArgument) else
  r ← get (fun s => pipe_get len (pp s q));
  modify (fun s => set_pipes (<[q := snd r]> (pipes s)) s) ;;
  ret (Ok (fst r)).

Fixpoint pipe_fill (src : list Z) (b : PipeBuffer) : PipeBuffer :=
  match src with
  | [] => b
  | c :: src' =>
      pipe_fill src' (Pipe (<[write_pos b := c]> (pbuf b)) (read_pos b) ((write_pos b + 1) mod PIPE_BUF_SIZE) (pused b) (pref b))
  end.

(** [pipe_write] on the buffer. *)
Definition pipe_put (src : list Z) (b : PipeBuffer) : kResult Z * PipeBuffer :=
  let len := Z.of_nat (length src) in
  let space := u64 (PIPE_BUF_SIZE - pused b) in
  let to_write := if len <? space then len else space in
  if to_write =? 0 then (Err NoSpace, b) else
  let b := pipe_fill (take (Z.to_nat to_write) src) b in
  (Ok to_write, set_pused (u64 (pused b + to_write)) b).

Definition pipe_write (p : Z) (src : list Z) : M (kResult Z) :=
  q ← get (fun s => fdata (nd s p));
  if q =? 0 then ret (Err InvalidArgument) else
  r ← get (fun s => pipe_put src (pp s q));
  modify (fun s => set_pipes (<[q := snd r]> (pipes s)) s) ;;
  ret (fst r).

Definition pipe_close (p : Z) : M unit :=
  q ← get (fun s => fdata (nd s p));
  if q =? 0 then ret tt else
  modify (fun s => set_pipes (<[q := set_pref (u32 (pref (pp s q) - 1)) (pp s q)]> (pipes s)) s) ;;
  r ← get (fun s => pref (pp s q));
  if r =? 0 then
    (free q ;; modify (fun s => set_pipes (delete q (pipes s)) s) ;;
     upd_node p (fun v => set_store 0 (data_capacity v) v))
  else ret tt.

(** The two descriptors of a new pipe. *)
Definition pipe : M (kResult (Z * Z)) :=
  pb ← malloc sizeof_PipeBuffer;
  if pb =? 0 then ret (Err OutOfMemory) else
  modify (fun s => set_pipes (<[pb := Pipe ∅ 0 0 0 2]> (pipes s)) s) ;;
  n ← alloc_vnode [91; 112; 105; 112; 101; 93] VFS_TYPE_FILE;
  if n =? 0 then (free pb ;; modify (fun s => set_pipes (delete pb (pipes s)) s) ;; ret (Err OutOfMemory)) else
  upd_node n (fun v => set_refcount 2 (set_store pb (data_capacity v) (set_ops PipeOps v))) ;;
  rfd ← malloc sizeof_FileDescriptor;
  wfd ← malloc sizeof_FileDescriptor;
  if (rfd =? 0) || (wfd =? 0) then
    ((if negb (rfd =? 0) then free rfd else ret tt) ;;
     (if negb (wfd =? 0) then free wfd else ret tt) ;;
     free n ;; modify (fun s => set_nodes (delete n (nodes s)) s) ;;
     free pb ;; modify (fun s => set_pipes (delete pb (pipes s)) s) ;;
     ret (Err OutOfMemory))
  else
    (modify (fun s => set_fds (<[wfd := Fd n 0 VFS_WRITE 0]> (<[rfd := Fd n 0 VFS_READ 0]> (fds s))) s) ;;
     ret (Ok (rfd, wfd))).

(** ** init *)

Definition init : M unit :=
  r ← alloc_vnode [slash] VFS_TYPE_DIR;
  modify (set_vfs_root r) ;;
  upd_node r (set_ops RamfsOps) ;;
  create_internal [47; 100; 101; 118] VFS_TYPE_DIR ;;
  create_internal [47; 116; 109; 112] VFS_TYPE_DIR ;;
  create_internal [47; 98; 105; 110] VFS_TYPE_DIR ;;
  dev ← lookup [47; 100; 101; 118];
  c ← get (fun s => children (nd s dev));
  modify (fun s => set_nodes (<[tty_ptr := set_link dev c tty_node]> (nodes s)) s) ;;
  upd_node dev (set_children tty_ptr).

(** ** Descriptors *)

Definition has (x f : Z) : bool := negb (x .& f =? 0).

(** The internal flags of a descriptor opened with [fl]. *)
Definition open_flags (fl : Z) : Z :=
  let accmode := fl .& 3 in
  let iflags := if accmode =? O_RDWR then fl .| (VFS_READ .| VFS_WRITE)
                else if accmode =? O_WRITE then fl .| VFS_WRITE
                else fl .| VFS_READ in
  if has fl O_APPEND then iflags .| VFS_APPEND else iflags.

Definition truncate (n : Z) : M unit :=
  v ← get (fun s => nd s n);
  (if negb (fdata v =? 0) then free (fdata v) else ret tt) ;;
  upd_node n (fun v => set_store 0 0 (set_fsize 0 v)).

(** The node of [path], created when [O_CREATE] asks for it. *)
Definition open_node (path : list Z) (fl : Z) : M (kResult Z) :=
  n ← lookup path;
  if n =? 0 then
    if negb (has fl O_CREATE) then ret (Err NotFound)
    else (n ← create_internal path VFS_TYPE_FILE; ret (if n =? 0 then Err IOError else Ok n))
  else ret (Ok n).

(** A new descriptor for node [n]. *)
Definition new_fd (n fl : Z) : M (kResult Z) :=
  f ← malloc sizeof_FileDescriptor;
  if f =? 0 then ret (Err OutOfMemory) else
  v ← get (fun s => nd s n);
  let iflags := open_flags fl in
  modify (fun s => set_fds (<[f := Fd n (if has iflags VFS_APPEND then fsize v else 0) iflags 0]> (fds s)) s) ;;
  upd_node n (fun v => set_refcount (u32 (refcount v + 1)) v) ;;
  ret (Ok f).

Definition open (path : list Z) (fl : Z) : M (kResult Z) :=
  r ← open_node path fl;
  match r with
  | Err e => ret (Err e)
  | Ok n =>
      v ← get (fun s => nd s n);
      (if has fl O_TRUNC && (type v =? VFS_TYPE_FILE) then truncate n else ret tt) ;;
      new_fd n fl
  end.

Definition close (f : Z) : M unit :=
  if f =? 0 then ret tt else
  n ← get (fun s => node (fd s f));
  upd_node n (fun v => set_refcount (u32 (refcount v - 1)) v) ;;
  v ← get (fun s => nd s n);
  (if refcount v =? 0 then
     match ops v with
     | PipeOps => pipe_close n
     | ForeignOps => foreign_close n
     | _ => ret tt
     end
   else ret tt) ;;
  free f ;;
  modify (fun s => set_fds (delete f (fds s)) s).

(** [read] with a non-null buffer; the result is what the buffer receives. *)
Definition read (f len : Z) : M (kResult (list Z)) :=
  if f =? 0 then ret (Err InvalidArgument) else
  d ← get (fun s => fd s f);
  v ← get (fun s => nd s (node d));
  if negb (has (flags d) VFS_READ) then ret (Err PermissionDenied) else
  if type v =? VFS_TYPE_DIR then ret (Err IsDirectory) else
  r ← (match ops v with
       | NullOps => ret (Err IOError)
       | RamfsOps => ramfs_read (node d) (offset d) len
       | TtyOps => tty_read len
       | PipeOps => pipe_read (node d) len
       | ForeignOps => foreign_read (node d) (offset d) len
       end) : M (kResult (list Z));
  (match r with
   | Ok l => if 0 <? Z.of_nat (length l)
             then upd_fd f (fun d => set_offset (u64 (offset d + Z.of_nat (length l))) d) else ret tt
   | Err _ => ret tt
   end) ;;
  ret r.

Definition write (f : Z) (src : list Z) : M (kResult Z) :=
  if f =? 0 then ret (Err InvalidArgument) else
  d ← get (fun s => fd s f);
  v ← get (fun s => nd s (node d));
  if negb (has (flags d) VFS_WRITE) then ret (Err PermissionDenied) else
  if type v =? VFS_TYPE_DIR then ret (Err IsDirectory) else
  if decide (ops v = NullOps) then ret (Err IOError) else
  (if has (flags d) VFS_APPEND then upd_fd f (set_offset (fsize v)) else ret tt) ;;
  d ← get (fun s => fd s f);
  r ← (match ops v with
       | NullOps => ret (Err IOError)
       | RamfsOps => ramfs_write (node d) (offset d) src
       | TtyOps => tty_write src
       | PipeOps => pipe_write (node d) src
       | ForeignOps => foreign_write (node d) (offset d) src
       end) : M (kResult Z);
  (match r with
   | Ok n => if 0 <? n then upd_fd f (fun d => set_offset (u64 (offset d + n)) d) else ret tt
   | Err _ => ret tt
   end) ;;
  ret r.

(** [base + off] is a signed addition; the model wraps where C++ leaves overflow
    undefined. *)
Definition seek (f off whence : Z) : M (kResult Z) :=
  if f =? 0 then ret (Err BadFileDescriptor) else
  d ← get (fun s => fd s f);
  v ← get (fun s => nd s (node d));
  if type v =? VFS_TYPE_DIR then ret (Err IsDirectory) else
  let base := if whence =? SEEK_SET then Some 0
              else if whence =? SEEK_CUR then Some (i64 (offset d))
              else if whence =? SEEK_END then Some (i64 (fsize v))
              else None in
  match base with
  | None => ret (Err InvalidArgument)
  | Some b =>
      let newoff := i64 (b + off) in
      if newoff <? 0 then ret (Err InvalidArgument)
      else (upd_fd f (set_offset (u64 newoff)) ;; ret (Ok newoff))
  end.

Definition stat (path : list Z) : M (kResult StatBuf) :=
  n ← lookup path;
  if n =? 0 then ret (Err NotFound) else
  v ← get (fun s => nd s n);
  ret (Ok (MkStat (i64 (fsize v)) ((if type v =? VFS_TYPE_DIR then S_IFDIR else S_IFREG) .| S_IRWX) 512
             (i64 (u64 (fsize v + 511) / 512)))).

Definition dup (f : Z) : M (kResult Z) :=
  if f =? 0 then ret (Err InvalidArgument) else
  c ← malloc sizeof_FileDescriptor;
  if c =? 0 then ret (Err OutOfMemory) else
  modify (fun s => set_fds (<[c := fd s f]> (fds s)) s) ;;
  n ← get (fun s => node (fd s f));
  upd_node n (fun v => set_refcount (u32 (refcount v + 1)) v) ;;
  ret (Ok c).

Definition mkdir (path : list Z) : M kStatus :=
  n ← lookup path;
  if negb (n =? 0) then ret (Err AlreadyExists) else
  n ← create_internal path VFS_TYPE_DIR;
  ret (if n =? 0 then Err NotFound else Ok tt).

(** ** unlink *)

(** [while (prev && prev->next_sibling != node)] *)
Fixpoint find_prev (fuel : nat) (s : state) (prev n : Z) : option Z :=
  match fuel with
  | O => None
  | S fuel' =>
      if prev =? 0 then Some 0
      else if next_sibling (nd s prev) =? n then Some prev
      else find_prev fuel' s (next_sibling (nd s prev)) n
  end.

Definition detach (par n : Z) : M unit :=
  c ← get (fun s => children (nd s par));
  nx ← get (fun s => next_sibling (nd s n));
  if c =? n then upd_node par (set_children nx)
  else
    p ← (fun s => r ← find_prev (walk_fuel s) s c n; Some (r, s)) : M Z;
    if negb (p =? 0) then upd_node p (set_next nx) else ret tt.

Definition unlink (path : list Z) : M kStatus :=
  n ← lookup path;
  if n =? 0 then ret (Err NotFound) else
  v ← get (fun s => nd s n);
  if type v =? VFS_TYPE_DIR then ret (Err IsDirectory) else
  if 0 <? refcount v then ret (Err Busy) else
  let par := parent v in
  if par =? 0 then ret (Err InvalidArgument) else
  o ← get (fun s => ops (nd s par));
  r ← (if decide (o = ForeignOps) then foreign_unlink par (name v) else ret (Ok tt)) : M kStatus;
  match r with
  | Err e => ret (Err e)
  | Ok _ =>
      detach par n ;;
      d ← get (fun s => fdata (nd s n));
      (if negb (d =? 0) then free d else ret tt) ;;
      free n ;;
      modify (fun s => set_nodes (delete n (nodes s)) s) ;;
      ret (Ok tt)
  end.

(** ** readdir, mount *)

Definition readdir (f : Z) : M (kResult Dirent) :=
  if f =? 0 then ret (Err InvalidArgument) else
  d ← get (fun s => fd s f);
  v ← get (fun s => nd s (node d));
  if negb (type v =? VFS_TYPE_DIR) then ret (Err NotADirectory) else
  r ← (match ops v with
       | RamfsOps => ramfs_readdir (node d) (dir_index d)
       | ForeignOps => foreign_readdir (node d) (dir_index d)
       | _ => ret (Err IOError)
       end) : M (kResult Dirent);
  (if is_ok r then upd_fd f (fun d => set_dir_index (u64 (dir_index d + 1)) d) else ret tt) ;;
  ret r.

Fixpoint reparent (fuel : nat) (p : Z) (child : Z) (s : state) : option state :=
  match fuel with
  | O => None
  | S fuel' =>
      if child =? 0 then Some s
      else
        let nx := next_sibling (nd s child) in
        reparent fuel' p nx (set_nodes (<[child := set_parent p (nd s child)]> (nodes s)) s)
  end.

Definition mount (path : list Z) (root : Z) : M kStatus :=
  n ← lookup path;
  if n =? 0 then ret (Err NotFound) else
  v ← get (fun s => nd s n);
  if negb (type v =? VFS_TYPE_DIR) then ret (Err NotADirectory) else
  m ← malloc sizeof_Mount;
  if m =? 0 then ret (Err OutOfMemory) else
  modify (fun s => set_mounts ((kstrcpy path NAME_MAX, root) :: mounts s) s) ;;
  fr ← get (fun s => nd s root);
  upd_node n (fun v => Node (name v) (type fr) (fsize fr) (parent v) (children fr) (next_sibling v) (ops fr)
                         (fdata fr) (data_capacity fr) (refcount v) (priv fr)) ;;
  c ← get (fun s => children (nd s n));
  ((fun s => s ← reparent (walk_fuel s) n c s; Some (tt, s)) : M unit) ;;
  free root ;;
  modify (fun s => set_nodes (delete root (nodes s)) s) ;;
  ret (Ok tt).

(** ** Paths *)

(** The pieces of a path between slashes, and those that are not empty. *)
Fixpoint words (p : list Z) : list (list Z) :=
  match p with
  | [] => [[]]
  | c :: p' =>
      if c =? slash then [] :: words p'
      else match words p' with w :: ws => (c :: w) :: ws | [] => [[c]] end
  end.
Definition components (p : list Z) : list (list Z) := filter (fun w => w <> []) (words p).

(** Resolution of a list of components. *)
Fixpoint walk_components (s : state) (l : list (list Z)) (n : Z) : option Z :=
  match l with
  | [] => Some n
  | comp :: l' =>
      if kstreq comp dot then walk_components s l' n
      else if kstreq comp dotdot then
        walk_components s l' (if negb (parent (nd s n) =? 0) then parent (nd s n) else n)
      else if negb (type (nd s n) =? VFS_TYPE_DIR) then Some 0
      else
        r ← find_child (walk_fuel s) s (children (nd s n)) comp;
        match r with Some c => walk_components s l' c | None => Some 0 end
  end.

Lemma words_cons p : exists w ws, words p = w :: ws.
Proof.
  induction p as [| c p (w & ws & IH)]; simpl; [by eexists _, _ |].
  destruct (c =? slash); [by eexists _, _ |]. rewrite IH. by eexists _, _.
Qed.

Lemma components_skip p : components (skip_slashes p) = components p.
Proof.
  induction p as [| c p IH]; [done |]. simpl. destruct (c =? slash) eqn:Hc; [| done].
  rewrite IH. unfold components. simpl. rewrite Hc. by rewrite filter_cons_False by auto.
Qed.

Lemma skip_slashes_head p : match skip_slashes p with c :: _ => c <> slash | [] => True end.
Proof. induction p as [| c p IH]; simpl; [done |]. destruct (Z.eqb_spec c slash); [done | done]. Qed.

Lemma skip_slashes_length p : (length (skip_slashes p) <= length p)%nat.
Proof. induction p as [| c p IH]; simpl; [done |]. destruct (c =? slash); simpl; lia. Qed.

(** A piece that fits is taken whole. *)
Lemma take_component_words n p w ws : words p = w :: ws -> (length w <= n)%nat ->
  fst (take_component n p) = w /\
  (snd (take_component n p) = [] /\ ws = [] \/
   exists p', snd (take_component n p) = slash :: p' /\ words p' = ws).
Proof.
  revert n w ws. induction p as [| c p IH]; intros n w ws; simpl.
  - intros [= <- <-] _. destruct n; by split; [| left].
  - destruct (Z.eqb_spec c slash) as [-> | Hc].
    + intros [= <- <-] _. destruct n; simpl; (split; [done | right; by exists p]).
    + destruct (words_cons p) as (w' & ws' & Hw). rewrite Hw. intros [= <- <-] Hn.
      destruct n as [| n]; [simpl in Hn; lia |]. destruct (IH n w' ws' Hw) as [H1 H2]; [simpl in Hn; lia |].
      simpl. rewrite (proj2 (Z.eqb_neq c slash)) by done.
      destruct (take_component n p) as [comp rest]. simpl in *. split; [by rewrite H1 | done].
Qed.

Lemma take_component_length n p : (length (snd (take_component n p)) + length (fst (take_component n p)) = length p)%nat.
Proof.
  revert n. induction p as [| c p IH]; intros [| n]; simpl; try lia.
  destruct (c =? slash); simpl; [lia |]. specialize (IH n). destruct (take_component n p). simpl in *. lia.
Qed.

(** [path_next] takes the components off one by one. *)
Lemma path_next_components p : Forall (fun w => (length w <= 127)%nat) (components p) ->
  let '(comp, rest) := path_next p NAME_MAX in
  (comp = [] /\ components p = []) \/
  (comp <> [] /\ components p = comp :: components rest /\ (length rest < length p)%nat).
Proof.
  intros Hall. rewrite <- components_skip in *. pose proof (skip_slashes_head p) as Hh.
  pose proof (skip_slashes_length p) as Hl. unfold path_next.
  destruct (skip_slashes p) as [| c q] eqn:Hq; [by left |].
  destruct (words_cons q) as (w & ws & Hw).
  assert (words (c :: q) = (c :: w) :: ws) as Hwords by (simpl; by rewrite (proj2 (Z.eqb_neq c slash)), Hw).
  unfold components in *. rewrite Hwords in *. rewrite filter_cons_True in * by done.
  apply Forall_cons in Hall as [Hlen _].
  destruct (take_component_words 127 (c :: q) (c :: w) ws Hwords Hlen) as [H1 H2].
  pose proof (take_component_length 127 (c :: q)) as Htl.
  change (NAME_MAX - 1)%nat with 127%nat. destruct (take_component 127 (c :: q)) as [comp rest]. simpl fst in *. simpl snd in *.
  subst comp. right. split; [done |]. split; [| simpl in *; lia]. f_equal.
  destruct H2 as [[-> ->] | (p' & -> & <-)]; [done |]. simpl. by rewrite filter_cons_False by auto.
Qed.

Lemma resolve_loop_components fuel s p n : (length p < fuel)%nat ->
  Forall (fun w => (length w <= 127)%nat) (components p) ->
  resolve_loop fuel s p n = walk_components s (components p) n.
Proof.
  revert p n. induction fuel as [| fuel IH]; intros p n Hf Hall; [lia |]. cbn [resolve_loop].
  pose proof (path_next_components p Hall) as Hnext. destruct (path_next p NAME_MAX) as [comp rest].
  destruct Hnext as [[-> ->] | (Hne & Hc & Hlen)]; [done |].
  rewrite Hc in *. apply Forall_cons in Hall as [_ Hall]. rewrite bool_decide_eq_false_2 by done.
  cbn [walk_components]. destruct (kstreq comp dot); [apply IH; [lia | done] |].
  destruct (kstreq comp dotdot); [apply IH; [lia | done] |].
  destruct (negb (type (nd s n) =? VFS_TYPE_DIR)); [done |].
  destruct (find_child _ _ _ _) as [[c |] |]; simpl; [apply IH; [lia | done] | done | done].
Qed.

(** ** Pipes *)

Record pipe_wf (b : PipeBuffer) : Prop := {
  pwf_read : 0 <= read_pos b < PIPE_BUF_SIZE;
  pwf_used : 0 <= pused b <= PIPE_BUF_SIZE;
  pwf_write : write_pos b = (read_pos b + pused b) mod PIPE_BUF_SIZE;
}.
Definition pipe_contents (b : PipeBuffer) : list Z := contents 0 PIPE_BUF_SIZE (pbuf b) (read_pos b) (pused b).

Lemma pipe_size_pos : 0 < PIPE_BUF_SIZE.
Proof. done. Qed.

Lemma pipe_take_spec n b k : Z.of_nat n <= k -> 0 <= read_pos b < PIPE_BUF_SIZE ->
  let '(l, b') := pipe_take n b in
  let c := contents 0 PIPE_BUF_SIZE (pbuf b) (read_pos b) k in
  l = take n c /\ b' = Pipe (pbuf b) ((read_pos b + Z.of_nat n) mod PIPE_BUF_SIZE) (write_pos b) (pused b) (pref b) /\
  contents 0 PIPE_BUF_SIZE (pbuf b) (read_pos b') (k - Z.of_nat n) = drop n c.
Proof.
  revert b k. induction n as [| n IH]; intros b k Hk Hr; cbn [pipe_take]; cbv zeta.
  - rewrite Z.add_0_r, Z.sub_0_r, Z.mod_small by done. by destruct b.
  - set (b1 := Pipe _ _ _ _ _). pose proof pipe_size_pos as Hp.
    assert (0 <= read_pos b1 < PIPE_BUF_SIZE) as Hr1 by (apply Z.mod_pos_bound; lia).
    specialize (IH b1 (k - 1) ltac:(lia) Hr1). destruct (pipe_take n b1) as [l b'].
    cbv zeta in IH. destruct IH as (-> & -> & Hd). simpl read_pos in Hd. simpl pbuf in *.
    rewrite (contents_pop 0 PIPE_BUF_SIZE (pbuf b) (read_pos b) k), (Z.mod_small (read_pos b)) by (done || lia).
    split_and!.
    + done.
    + simpl. f_equal. rewrite Zplus_mod_idemp_l. f_equal. lia.
    + simpl. simpl in Hd. rewrite <- Hd. f_equal; (done || lia).
Qed.

Lemma pipe_fill_spec src b k : 0 <= k -> k + Z.of_nat (length src) <= PIPE_BUF_SIZE ->
  write_pos b = (read_pos b + k) mod PIPE_BUF_SIZE ->
  let b' := pipe_fill src b in
  read_pos b' = read_pos b /\ pused b' = pused b /\ pref b' = pref b /\
  write_pos b' = (read_pos b + (k + Z.of_nat (length src))) mod PIPE_BUF_SIZE /\
  contents 0 PIPE_BUF_SIZE (pbuf b') (read_pos b) (k + Z.of_nat (length src)) =
    contents 0 PIPE_BUF_SIZE (pbuf b) (read_pos b) k ++ src.
Proof.
  revert b k. induction src as [| c src IH]; intros b k Hk Hl Hw; cbn [pipe_fill]; cbv zeta.
  - rewrite Z.add_0_r, app_nil_r. by split_and!.
  - simpl length in *. set (b1 := Pipe _ _ _ _ _). pose proof pipe_size_pos as Hp.
    destruct (IH b1 (k + 1)) as (H1 & H2 & H3 & H4 & H5); [lia | lia | |].
    { simpl. rewrite Hw, Zplus_mod_idemp_l. f_equal. lia. }
    replace (k + 1 + Z.of_nat (length src)) with (k + Z.of_nat (S (length src))) in * by lia.
    split_and!; [done | done | done | done |].
    simpl read_pos in H5. rewrite H5. simpl pbuf. rewrite Hw, contents_push by lia. by rewrite <- app_assoc.
Qed.

Lemma pipe_length b : pipe_wf b -> Z.of_nat (length (pipe_contents b)) = pused b.
Proof. intros [_ Hu _]. apply contents_length. lia. Qed.

Lemma pipe_put_spec b src : pipe_wf b ->
  let '(r, b') := pipe_put src b in
  let n := Z.min (Z.of_nat (length src)) (PIPE_BUF_SIZE - Z.of_nat (length (pipe_contents b))) in
  pipe_wf b' /\ pipe_contents b' = pipe_contents b ++ take (Z.to_nat n) src /\
  r = (if n =? 0 then Err NoSpace else Ok n).
Proof.
  intros Hb. pose proof (pipe_length b Hb) as Hlen. destruct Hb as [Hr Hu Hw]. pose proof pipe_size_pos as Hp.
  unfold pipe_put. rewrite Hlen. set (len := Z.of_nat (length src)).
  rewrite u64_small by (unfold PIPE_BUF_SIZE in *; mach; lia).
  assert ((if len <? PIPE_BUF_SIZE - pused b then len else PIPE_BUF_SIZE - pused b) =
    Z.min len (PIPE_BUF_SIZE - pused b)) as ->.
  { destruct (Z.ltb_spec len (PIPE_BUF_SIZE - pused b)); lia. }
  set (n := Z.min len (PIPE_BUF_SIZE - pused b)). destruct (Z.eqb_spec n 0) as [Hn | Hn].
  { rewrite Hn. simpl. rewrite app_nil_r. by split. }
  set (src' := take (Z.to_nat n) src).
  assert (Z.of_nat (length src') = n) as Hsl by (unfold src'; rewrite length_take; lia).
  destruct (pipe_fill_spec src' b (pused b)) as (H1 & H2 & H3 & H4 & H5); [lia | lia | done |].
  rewrite Hsl in *. unfold PIPE_BUF_SIZE in *. rewrite H2, u64_small by (mach; lia).
  split; [| split; [| done]].
  + split; simpl; rewrite ?H1, ?H4; [done | unfold PIPE_BUF_SIZE; lia | done].
  + unfold pipe_contents. simpl. by rewrite H1.
Qed.

Lemma pipe_get_spec b len : pipe_wf b -> 0 <= len ->
  let '(l, b') := pipe_get len b in
  pipe_wf b' /\ l = take (Z.to_nat len) (pipe_contents b) /\ pipe_contents b' = drop (Z.to_nat len) (pipe_contents b).
Proof.
  intros Hb Hl. pose proof (pipe_length b Hb) as Hlen. destruct Hb as [Hr Hu Hw]. pose proof pipe_size_pos as Hp.
  unfold pipe_get. destruct (Z.eqb_spec (pused b) 0) as [H0 | H0].
  { assert (pipe_contents b = []) as -> by (unfold pipe_contents; by rewrite H0).
    by rewrite take_nil, drop_nil. }
  set (n := if len <? pused b then len else pused b).
  assert (n = Z.min len (pused b)) as Hn by (unfold n; destruct (Z.ltb_spec len (pused b)); lia).
  pose proof (pipe_take_spec (Z.to_nat n) b (pused b) ltac:(lia) Hr) as Ht.
  destruct (pipe_take (Z.to_nat n) b) as [l b']. cbv zeta in Ht. destruct Ht as (-> & -> & Hd).
  fold (pipe_contents b) in *. cbn [read_pos write_pos pused pbuf pref set_pused] in *.
  assert (forall l : list Z, Z.of_nat (length l) = pused b ->
    take (Z.to_nat n) l = take (Z.to_nat len) l /\ drop (Z.to_nat n) l = drop (Z.to_nat len) l) as Hmin.
  { intros l Hll. destruct (decide (len <= pused b)); [by rewrite Hn, Z.min_l by lia |].
    rewrite !take_ge, !drop_ge by lia. done. }
  destruct (Hmin _ Hlen) as [<- <-]. rewrite u64_small by (unfold PIPE_BUF_SIZE in *; mach; lia).
  split; [| split; [done |]].
  + split; simpl; [apply Z.mod_pos_bound; lia | lia |]. rewrite Hw, Zplus_mod_idemp_l. f_equal. lia.
  + etransitivity; [| exact Hd]. unfold pipe_contents. simpl. f_equal; lia.
Qed.

(** a pipe is a bounded byte queue.  A write appends as many bytes as there
    is room for in the 4096 and reports how many, or fails with [NoSpace] when
    there is none; a read removes and returns the first bytes, none when the pipe
    is empty.  Both keep the buffer well formed. *)
Theorem pipe_is_queue b : pipe_wf b ->
  (forall src, let '(r, b') := pipe_put src b in
     let n := Z.min (Z.of_nat (length src)) (PIPE_BUF_SIZE - Z.of_nat (length (pipe_contents b))) in
     pipe_wf b' /\ pipe_contents b' = pipe_contents b ++ take (Z.to_nat n) src /\
     r = (if n =? 0 then Err NoSpace else Ok n)) /\
  (forall len, 0 <= len -> let '(l, b') := pipe_get len b in
     pipe_wf b' /\ l = take (Z.to_nat len) (pipe_contents b) /\
     pipe_contents b' = drop (Z.to_nat len) (pipe_contents b)).
Proof.
  intros Hb. split; [intros src; by apply pipe_put_spec | intros len Hl; by apply pipe_get_spec].
Qed.

(** ** ramfs files *)

(** Byte [i] of the file at node [p]. *)
Definition fbyte (s : state) (p i : Z) : Z := byte s (fdata (nd s p) + i).

(** The file at node [p] is backed by an allocated block, and the capacity past
    its size is zero. *)
Record file_ok (s : state) (m : gmap Z Z) (p : Z) : Prop := {
  fo_blocks : blocks (heap s) m;
  fo_size : 0 <= fsize (nd s p) <= data_capacity (nd s p);
  fo_cap : data_capacity (nd s p) <= 2 ^ 45;
  fo_block : (fdata (nd s p) = 0 /\ data_capacity (nd s p) = 0) \/
             (exists sz, data_capacity (nd s p) <= sz /\ m !! fdata (nd s p) = Some sz);
  fo_zero : forall i, fsize (nd s p) <= i < data_capacity (nd s p) -> fbyte s p i = 0;
}.

Lemma nd_insert s p v q : nd (set_nodes (<[p := v]> (nodes s)) s) q = if decide (p = q) then v else nd s q.
Proof. unfold nd; simpl. rewrite lookup_insert. by case_decide. Qed.

(** [s'] is [s] with other bytes. *)
Definition only_bytes (s s' : state) : Prop := s' = set_bytes (bytes s') s.

Lemma only_bytes_refl s : only_bytes s s.
Proof. by destruct s. Qed.
Lemma only_bytes_trans s1 s2 s3 : only_bytes s1 s2 -> only_bytes s2 s3 -> only_bytes s1 s3.
Proof. unfold only_bytes. intros -> ->. done. Qed.
Lemma only_bytes_nd s s' p : only_bytes s s' -> nd s' p = nd s p.
Proof. intros ->. done. Qed.
Lemma only_bytes_heap s s' : only_bytes s s' -> heap s' = heap s.
Proof. intros ->. done. Qed.

Lemma only_bytes_rest s s' : only_bytes s s' -> fds s' = fds s /\ pipes s' = pipes s.
Proof. intros ->. done. Qed.

Lemma byte_store a v s x : byte (store_byte a v s) x = if decide (a = x) then v else byte s x.
Proof. unfold byte, store_byte; simpl. rewrite lookup_insert. by case_decide. Qed.

Lemma write_bytes_spec src a s : only_bytes s (write_bytes a src s) /\
  forall x, byte (write_bytes a src s) x =
    if decide (a <= x < a + Z.of_nat (length src)) then default 0 (src !! Z.to_nat (x - a)) else byte s x.
Proof.
  revert a s. induction src as [| c src IH]; intros a s; cbn [write_bytes length].
  - split; [apply only_bytes_refl |]. intros x. rewrite decide_False by lia. done.
  - destruct (IH (a + 1) (store_byte a c s)) as [H1 H2]. split; [by eapply only_bytes_trans; [| exact H1] |].
    intros x. rewrite H2, byte_store. destruct (decide (a = x)) as [-> |].
    + rewrite decide_False, decide_True by lia. by replace (x - x) with 0 by lia.
    + destruct (decide (a + 1 <= x < a + 1 + Z.of_nat (length src))).
      * rewrite decide_True by lia. replace (Z.to_nat (x - a)) with (S (Z.to_nat (x - (a + 1)))) by lia. done.
      * rewrite decide_False by lia. done.
Qed.

(** A loop that stores [g i] at [base + i] and only reads outside its range. *)
Lemma store_loop_spec base a b (g : Z -> state -> Z) s : a <= b ->
  (forall i x, a <= i < b -> only_bytes s x -> (forall y, ~ (base + a <= y < base + b) -> byte x y = byte s y) -> g i x = g i s) ->
  let s' := for_range a b (fun i s => store_byte (base + i) (g i s) s) s in
  only_bytes s s' /\
  forall x, byte s' x = if decide (base + a <= x < base + b) then g (x - base) s else byte s x.
Proof.
  intros Hab Hg. cbv zeta.
  set (I := fun n x => only_bytes s x /\
    forall y, byte x y = if decide (base + a <= y < base + n) then g (y - base) s else byte s y).
  apply (for_range_ind I (fun i s => store_byte (base + i) (g i s) s) b a s); [done | |].
  - split; [apply only_bytes_refl |]. intros y. rewrite decide_False by lia. done.
  - intros i x Hi [Ho Hb]. split; [by eapply only_bytes_trans |]. intros y.
    rewrite byte_store. rewrite (Hg i x); [| done | done |].
    + rewrite Hb. repeat case_decide; try lia; try done. by replace (y - base) with i by lia.
    + intros z Hz. rewrite Hb. rewrite decide_False; [done |]. lia.
Qed.

Lemma ramfs_read_spec s p off len : 0 <= off -> 0 <= len -> 0 <= fsize (nd s p) < 2 ^ 64 ->
  fdata (nd s p) <> 0 \/ fsize (nd s p) = 0 ->
  ramfs_read p off len s =
  Some (Ok ((fun i => fbyte s p (off + i)) <$> seqZ 0 (Z.max 0 (Z.min len (fsize (nd s p) - off)))), s).
Proof.
  intros Ho Hl Hs Hd. unfold ramfs_read, get. do 2 f_equal.
  destruct (Z.eqb_spec (fdata (nd s p)) 0) as [H0 | H0]; cbn [orb].
  - destruct Hd as [? | ->]; [done |]. by replace (Z.max 0 (Z.min len (0 - off))) with 0 by lia.
  - destruct (Z.leb_spec (fsize (nd s p)) off).
    + by replace (Z.max 0 (Z.min len (fsize (nd s p) - off))) with 0 by lia.
    + rewrite u64_small by (mach; lia). f_equal. unfold read_bytes.
      replace (if fsize (nd s p) - off <? len then fsize (nd s p) - off else len)
        with (Z.max 0 (Z.min len (fsize (nd s p) - off)))
        by (destruct (Z.ltb_spec (fsize (nd s p) - off) len); lia).
      apply list_fmap_ext. intros _ i _. unfold fbyte. f_equal. lia.
Qed.

(** What a write to the file at [p] leaves alone: the other nodes, everything
    but heap and bytes, and the bytes outside the file's own blocks. *)
Definition kind (v : VNode) := (type v, ops v).
Definition frame (s s' : state) (p : Z) (mine : Z -> Prop) : Prop :=
  fds s' = fds s /\ pipes s' = pipes s /\ kind (nd s' p) = kind (nd s p) /\ (forall q, q <> p -> nd s' q = nd s q) /\
  (forall x, ~ mine x -> byte s' x = byte s x).

Lemma free_spec q s m : blocks (heap s) m -> is_Some (m !! q) ->
  exists h, free q s = Some (tt, set_heap h s) /\ blocks h (delete q m).
Proof.
  intros Hb Hq. unfold free. destruct (kfree_law _ _ _ Hb Hq) as (h & -> & Hb'). by exists h.
Qed.

Lemma grow_spec s m p newcap nb sz : file_ok s m p -> m !! nb = Some sz -> nb <> fdata (nd s p) ->
  newcap <= sz -> fsize (nd s p) <= newcap <= 2 ^ 45 ->
  exists s' m', grow p newcap nb s = Some (tt, s') /\ file_ok s' m' p /\
    data_capacity (nd s' p) = newcap /\ fdata (nd s' p) = nb /\ fsize (nd s' p) = fsize (nd s p) /\
    (forall i, 0 <= i < fsize (nd s p) -> fbyte s' p i = fbyte s p i) /\
    frame s s' p (fun x => nb <= x < nb + newcap).
Proof.
  intros Hok Hnb Hne Hsz Hcap. destruct Hok as [Hbl Hsize _ Hblk _].
  set (v := nd s p) in *. unfold grow, mbind, M_bind, bind, get, modify, mbind, option_bind.
  cbv beta iota. fold v.
  (* the copy *)
  assert (Hdis : forall i, 0 <= i < fsize v -> ~ (nb + 0 <= fdata v + i < nb + fsize v)).
  { intros i Hi. destruct Hblk as [[? ?] | (osz & Hosz & Hold)]; [lia |].
    destruct (blocks_disjoint _ _ _ _ _ _ Hbl Hnb Hold Hne); lia. }
  destruct (store_loop_spec nb 0 (fsize v) (fun i x => byte x (fdata v + i)) s) as [Ho1 Hb1]; [lia | |].
  { intros i x Hi _ Hx. apply Hx. apply Hdis. lia. }
  set (s1 := for_range 0 (fsize v) _ s) in *. clearbody s1.
  destruct (store_loop_spec nb (fsize v) newcap (fun _ _ => 0) s1) as [Ho2 Hb2]; [lia | done |].
  set (s2 := for_range (fsize v) newcap _ s1) in *. clearbody s2.
  pose proof (only_bytes_trans _ _ _ Ho1 Ho2) as Ho.
  assert (Hbytes : forall x, byte s2 x = if decide (nb <= x < nb + fsize v) then byte s (fdata v + (x - nb))
    else if decide (nb + fsize v <= x < nb + newcap) then 0 else byte s x).
  { intros x. rewrite Hb2, Hb1. repeat case_decide; try lia; done. }
  (* releasing the old buffer *)
  assert (exists h m', ((if negb (fdata v =? 0) then free (fdata v) else ret tt) : M unit) s2 = Some (tt, set_heap h s2) /\
    blocks h m' /\ m' !! nb = Some sz) as (h & m' & Hfree & Hbl' & Hnb').
  { rewrite <- (only_bytes_heap _ _ Ho) in Hbl. destruct (Z.eqb_spec (fdata v) 0) as [H0 | H0]; cbn [negb].
    - exists (heap s2), m. unfold ret. by destruct s2.
    - destruct Hblk as [[? _] | (osz & _ & Hold)]; [done |].
      destruct (free_spec (fdata v) s2 m Hbl) as (h & Hf & Hb); [by eexists |].
      exists h, (delete (fdata v) m). split_and!; [done | done |]. by rewrite lookup_delete_ne. }
  rewrite Hfree. cbv beta iota. unfold upd_node, modify.
  set (s3 := set_heap h s2).
  assert (Hnd : forall q, nd s3 q = nd s q) by (intros q; exact (only_bytes_nd _ _ q Ho)).
  rewrite Hnd. fold v. set (s4 := set_nodes _ s3).
  assert (nd s4 p = set_store nb newcap v) as Hp4 by (unfold s4; by rewrite nd_insert, decide_True).
  assert (forall x, byte s4 x = byte s2 x) as Hb4 by done.
  exists s4, m'. split; [done |]. split; [| unfold frame; split_and!].
  - split; rewrite ?Hp4; cbn [fsize data_capacity fdata set_store]; [exact Hbl' | lia | lia | right; by exists sz |].
    intros i Hi. unfold fbyte. rewrite Hp4, Hb4, Hbytes. cbn [fdata set_store].
    rewrite decide_False, decide_True by lia. done.
  - by rewrite Hp4.
  - by rewrite Hp4.
  - by rewrite Hp4.
  - intros i Hi. unfold fbyte. rewrite Hp4, Hb4, Hbytes. cbn [fdata set_store].
    rewrite decide_True by lia. fold v. f_equal. lia.
  - exact (proj1 (only_bytes_rest _ _ Ho)).
  - exact (proj2 (only_bytes_rest _ _ Ho)).
  - by rewrite Hp4.
  - intros q Hq. unfold s4. rewrite nd_insert, decide_False by done. apply Hnd.
  - intros x Hx. rewrite Hb4, Hbytes. rewrite !decide_False by lia. done.
Qed.

(** The second half of [ramfs_write]: the capacity suffices. *)
Definition store_file (p off : Z) (src : list Z) : M (kResult Z) :=
  let len := Z.of_nat (length src) in
  let wend := u64 (off + len) in
  v ← get (fun s => nd s p);
  modify (write_bytes (fdata v + off) src) ;;
  (if fsize v <? wend then upd_node p (set_fsize wend) else ret tt) ;;
  ret (Ok len).

(** The file after [src] was written at [off]. *)
Definition written (s s' : state) (p off : Z) (src : list Z) : Prop :=
  let wend := off + Z.of_nat (length src) in
  fsize (nd s' p) = Z.max (fsize (nd s p)) wend /\
  forall i, 0 <= i < fsize (nd s' p) ->
    fbyte s' p i = if decide (off <= i < wend) then default 0 (src !! Z.to_nat (i - off))
                   else if decide (i < fsize (nd s p)) then fbyte s p i else 0.

Lemma store_file_spec s m p off src : file_ok s m p -> 0 <= off ->
  off + Z.of_nat (length src) <= data_capacity (nd s p) ->
  exists s', store_file p off src s = Some (Ok (Z.of_nat (length src)), s') /\ file_ok s' m p /\
    written s s' p off src /\ fdata (nd s' p) = fdata (nd s p) /\ data_capacity (nd s' p) = data_capacity (nd s p) /\
    frame s s' p (fun x => fdata (nd s p) <= x < fdata (nd s p) + data_capacity (nd s p)).
Proof.
  intros Hok Ho Hend. pose proof Hok as [Hbl Hsize Hcap Hblk Hzero]. set (v := nd s p) in *.
  unfold store_file, mbind, M_bind, bind, get, modify, mbind, option_bind. cbv beta iota zeta. fold v.
  change (2 ^ 45) with 35184372088832 in *. rewrite u64_small by (mach; lia).
  set (wend := off + Z.of_nat (length src)) in *.
  destruct (write_bytes_spec src (fdata v + off) s) as [Ho1 Hb1].
  set (s1 := write_bytes (fdata v + off) src s) in *. clearbody s1.
  assert (Hnd : forall q, nd s1 q = nd s q) by (intros q; exact (only_bytes_nd _ _ q Ho1)).
  assert (exists s2, ((if fsize v <? wend then upd_node p (set_fsize wend) else ret tt) : M unit) s1 = Some (tt, s2) /\
    nd s2 p = set_fsize (Z.max (fsize v) wend) v /\ heap s2 = heap s /\ fds s2 = fds s /\ pipes s2 = pipes s /\
    (forall q, q <> p -> nd s2 q = nd s q) /\ forall x, byte s2 x = byte s1 x)
    as (s2 & -> & Hp2 & Hh2 & Hf2 & Hpi2 & Hq2 & Hb2).
  { destruct (only_bytes_rest _ _ Ho1) as [Hf Hp]. destruct (Z.ltb_spec (fsize v) wend).
    - unfold upd_node, modify. eexists. split; [done |]. rewrite nd_insert, decide_True, Hnd by done. fold v.
      split_and!; [by rewrite Z.max_r by lia | exact (only_bytes_heap _ _ Ho1) | done | done | | done].
      intros q Hq. rewrite nd_insert, decide_False by done. apply Hnd.
    - exists s1. split; [done |]. rewrite Hnd. fold v.
      split_and!; [by rewrite Z.max_l by lia; destruct v | exact (only_bytes_heap _ _ Ho1) | done | done | auto | done]. }
  assert (Hfb : forall i, fbyte s2 p i = if decide (off <= i < wend) then default 0 (src !! Z.to_nat (i - off)) else fbyte s p i).
  { intros i. unfold fbyte. rewrite Hp2. cbn [fdata set_fsize]. fold v. rewrite Hb2, Hb1. unfold wend.
    repeat case_decide; try lia; try done. do 3 f_equal. lia. }
  exists s2. split; [done |]. split; [| split; [| split; [| split; [| unfold frame; split_and!; [done | done | by rewrite Hp2 | done |]]]]].
  - split; rewrite ?Hh2, ?Hp2; cbn [fsize data_capacity fdata set_fsize]; [done | lia | done | done |].
    intros i Hi. rewrite Hfb, decide_False by lia. apply Hzero. fold v. lia.
  - split; [by rewrite Hp2 |]. rewrite Hp2. cbn [fsize set_fsize]. intros i Hi. rewrite Hfb. fold wend v.
    repeat case_decide; try done. apply Hzero. lia.
  - by rewrite Hp2.
  - by rewrite Hp2.
  - intros x Hx. rewrite Hb2, Hb1, decide_False; [done |]. lia.
Qed.

Lemma ramfs_write_store p off src s : (data_capacity (nd s p) <? u64 (off + Z.of_nat (length src))) = false ->
  ramfs_write p off src s = store_file p off src s.
Proof.
  intros Hc. unfold ramfs_write, store_file, mbind, M_bind, bind, get, ret, mbind, option_bind. cbv beta iota zeta.
  by rewrite Hc.
Qed.

Lemma ramfs_write_spec s m p off src : file_ok s m p -> 0 <= off ->
  off + Z.of_nat (length src) <= 2 ^ 44 ->
  exists r s' m', ramfs_write p off src s = Some (r, s') /\ file_ok s' m' p /\
    fds s' = fds s /\ kind (nd s' p) = kind (nd s p) /\
    ((r = Err OutOfMemory /\ nodes s' = nodes s /\ bytes s' = bytes s) \/
     (r = Ok (Z.of_nat (length src)) /\ written s s' p off src)).
Proof.
  intros Hok Ho Hend. change (2 ^ 44) with 17592186044416 in Hend.
  destruct (data_capacity (nd s p) <? u64 (off + Z.of_nat (length src))) eqn:Hc.
  - unfold ramfs_write, mbind, M_bind, bind, get, mbind, option_bind. cbv beta iota zeta. rewrite Hc.
    pose proof Hc as Hc'%Z.ltb_lt.
    assert (u64 (off + Z.of_nat (length src)) = off + Z.of_nat (length src)) as Hu by (apply u64_small; mach; lia).
    rewrite Hu in *. set (wend := off + Z.of_nat (length src)) in *. rewrite (u64_small (wend * 2)) by (mach; lia).
    set (newcap := if wend * 2 <? 64 then 64 else wend * 2).
    assert (0 < newcap <= 2 ^ 45 /\ wend <= newcap) as [Hnc Hwn].
    { unfold newcap. change (2 ^ 45) with 35184372088832. pose proof (fo_size _ _ _ Hok).
      destruct (Z.ltb_spec (wend * 2) 64); lia. }
    pose proof Hok as [Hbl Hsize Hcap Hblk Hzero].
    assert (0 < newcap < max_request) as Hreq by (unfold max_request; lia).
    unfold malloc. destruct (kmalloc_law _ _ _ Hbl Hreq) as (nb & h & -> & Hr). unfold mbind, option_bind. cbv beta iota.
    destruct Hr as [[-> Hbl'] | (Hnb0 & Hnone & sz & Hsz & Hbl')].
    + cbn [Z.eqb]. unfold ret. eexists _, _, m. split; [done |]. split; [by split |]. split; [done |]. split; [done | by left].
    + rewrite (proj2 (Z.eqb_neq nb 0)) by done.
      set (s1 := set_heap h s).
      assert (nb <> fdata (nd s1 p)) as Hne.
      { intros ->. destruct Hblk as [[H0 _] | (osz & _ & Hold)]; [by apply Hnb0 |].
        change (nd s1 p) with (nd s p) in Hnone. congruence. }
      assert (file_ok s1 (<[nb := sz]> m) p) as Hok1.
      { split; [done | done | done | | done]. destruct Hblk as [? | (osz & ? & Hold)]; [by left | right].
        exists osz. split; [done |]. by rewrite lookup_insert_ne. }
      destruct (grow_spec s1 (<[nb := sz]> m) p newcap nb sz Hok1) as (s2 & m2 & -> & Hok2 & Hcap2 & Hd2 & Hsz2 & Hb2 & Hf2);
        [by rewrite lookup_insert_eq | done | done | change (nd s1 p) with (nd s p); lia |].
      cbv beta iota. unfold ret. cbv beta iota.
      destruct (store_file_spec s2 m2 p off src Hok2 Ho) as (s3 & Hst & Hok3 & Hw & _ & _ & Hf3); [fold wend; lia |].
      unfold store_file, mbind, M_bind, bind, get, ret, mbind, option_bind in Hst. cbv beta iota zeta in Hst.
      fold wend in Hst. rewrite Hu in Hst. rewrite Hst.
      exists (Ok (Z.of_nat (length src))), s3, m2. split; [done |]. split; [done |].
      destruct Hf2 as (Hfd2 & _ & Hk2 & _), Hf3 as (Hfd3 & _ & Hk3 & _).
      split; [by rewrite Hfd3, Hfd2 |]. split; [by rewrite Hk3, Hk2 |]. right. split; [done |].
      destruct Hw as [Hw1 Hw2]. split; [by rewrite Hw1, Hsz2 |]. intros i Hi. rewrite Hw2 by done. rewrite Hsz2.
      repeat case_decide; try done. apply Hb2. change (nd s1 p) with (nd s p). lia.
  - rewrite ramfs_write_store by done. apply Z.ltb_ge in Hc. rewrite u64_small in Hc by (mach; lia).
    destruct (store_file_spec s m p off src Hok Ho Hc) as (s' & -> & Hok' & Hw & _ & _ & Hf & _ & Hk & _).
    exists (Ok (Z.of_nat (length src))), s', m. split; [done |]. split; [done |]. split; [done |]. split; [done | by right].
Qed.

Ltac run := unfold upd_node, upd_fd, mbind, M_bind, bind, get, modify, ret, mbind, option_bind; cbv beta iota zeta.

Lemma fd_lookup s f d : fds s !! f = Some d -> fd s f = d.
Proof. unfold fd. by intros ->. Qed.

(** An open regular file of the ramfs. *)
Record ram_fd (s : state) (f : Z) (d : FileDescriptor) : Prop := {
  rf_fd : fds s !! f = Some d;
  rf_nonnull : f <> 0;
  rf_type : type (nd s (node d)) <> VFS_TYPE_DIR;
  rf_ops : ops (nd s (node d)) = RamfsOps;
}.

(** [write] on a ramfs descriptor that does not append. *)
Lemma write_ram s m f d src : ram_fd s f d -> has (flags d) VFS_WRITE = true -> has (flags d) VFS_APPEND = false ->
  file_ok s m (node d) -> 0 <= offset d -> offset d + Z.of_nat (length src) <= 2 ^ 44 ->
  exists r s' m' d', write f src s = Some (r, s') /\ file_ok s' m' (node d) /\ ram_fd s' f d' /\
    node d' = node d /\ flags d' = flags d /\
    (r = Err OutOfMemory \/
     (r = Ok (Z.of_nat (length src)) /\ offset d' = offset d + Z.of_nat (length src) /\ written s s' (node d) (offset d) src)).
Proof.
  intros [Hf Hf0 Ht Ho] Hw Ha Hok Hoff Hend. unfold write. rewrite (proj2 (Z.eqb_neq f 0)) by done. run.
  rewrite (fd_lookup s f d Hf). rewrite Hw, Ha, (proj2 (Z.eqb_neq _ _) Ht), Ho. cbn [negb].
  rewrite decide_False by done. rewrite (fd_lookup s f d Hf).
  destruct (ramfs_write_spec s m (node d) (offset d) src Hok Hoff Hend) as (r & s1 & m1 & -> & Hok1 & Hfds & Hk & Hr).
  injection Hk as Hkt Hko. cbv beta iota.
  destruct Hr as [(-> & _ & _) | (-> & Hwr)].
  - eexists _, s1, m1, d. split; [done |]. split; [done |]. split; [| by split_and!; try left].
    split; [by rewrite Hfds | done | by rewrite Hkt | by rewrite Hko].
  - assert (fds s1 !! f = Some d) as Hf1 by (by rewrite Hfds).
    destruct (Z.ltb_spec 0 (Z.of_nat (length src))) as [Hpos | Hz].
    + rewrite (fd_lookup s1 f d Hf1). rewrite u64_small by (change (2 ^ 44) with 17592186044416 in Hend; mach; lia).
      eexists _, _, m1, (set_offset (offset d + Z.of_nat (length src)) d). split; [done |].
      split; [destruct Hok1; by split |].
      split; [split; [by cbn; rewrite lookup_insert_eq | done | by cbn; rewrite <- Hkt in Ht | by cbn; rewrite <- Ho, <- Hko] |].
      split; [done |]. split; [done |]. right. by split_and!.
    + assert (src = []) as -> by (destruct src; [done | simpl in Hz; lia]).
      eexists _, s1, m1, d. split; [done |]. split; [done |].
      split; [split; [done | done | by rewrite Hkt | by rewrite Hko] |].
      split; [done |]. split; [done |]. right. split_and!; [done | simpl; lia | done].
Qed.

Lemma read_ram s m f d len : ram_fd s f d -> has (flags d) VFS_READ = true -> file_ok s m (node d) ->
  0 <= offset d -> 0 <= len ->
  exists s', read f len s =
    Some (Ok ((fun i => fbyte s (node d) (offset d + i)) <$> seqZ 0 (Z.max 0 (Z.min len (fsize (nd s (node d)) - offset d)))), s').
Proof.
  intros [Hf Hf0 Ht Ho] Hr Hok Hoff Hlen. unfold read. rewrite (proj2 (Z.eqb_neq f 0)) by done. run.
  rewrite (fd_lookup s f d Hf), Hr, (proj2 (Z.eqb_neq _ _) Ht), Ho. cbn [negb].
  destruct Hok as [Hbl Hs Hc Hb _].
  rewrite ramfs_read_spec; [| done | done | change (2 ^ 45) with 35184372088832 in Hc; pow2; lia |].
  2: { destruct Hb as [[_ H0] | (sz & _ & Hd)]; [right; lia |]. destruct (decide (fdata (nd s (node d)) = 0)) as [H0 | ?]; [| by left].
       pose proof (blocks_range (heap s) m _ _ Hbl Hd) as Hrng. unfold heap_range in Hrng. lia. }
  cbv beta iota. destruct (0 <? _); by eexists.
Qed.

(** what was written is read back.  On a descriptor open for reading and
    writing, [write] stores all the bytes or fails with [OutOfMemory]; after a
    [seek] back to where the write began, [read] of that many bytes returns exactly
    them, whatever growth of the buffer the write needed. *)
Theorem write_read_roundtrip s m f d src : ram_fd s f d ->
  has (flags d) VFS_READ = true -> has (flags d) VFS_WRITE = true -> has (flags d) VFS_APPEND = false ->
  file_ok s m (node d) -> 0 <= offset d -> offset d + Z.of_nat (length src) <= 2 ^ 44 ->
  exists r s1, write f src s = Some (r, s1) /\
    (r = Err OutOfMemory \/
     (r = Ok (Z.of_nat (length src)) /\
      exists s2 s3, seek f (offset d) SEEK_SET s1 = Some (Ok (offset d), s2) /\
        read f (Z.of_nat (length src)) s2 = Some (Ok src, s3))).
Proof.
  intros Hrf Hr Hw Ha Hok Hoff Hend.
  destruct (write_ram s m f d src Hrf Hw Ha Hok Hoff Hend) as (r & s1 & m1 & d1 & -> & Hok1 & Hrf1 & Hn1 & Hfl1 & Hres).
  exists r, s1. split; [done |]. destruct Hres as [-> | (-> & Ho1 & Hsz & Hby)]; [by left | right]. split; [done |].
  change (2 ^ 44) with 17592186044416 in Hend.
  destruct Hrf1 as [Hf1 Hf0 Ht1 Hops1]. rewrite Hn1 in *.
  set (s2 := set_fds (<[f := set_offset (offset d) d1]> (fds s1)) s1).
  assert (seek f (offset d) SEEK_SET s1 = Some (Ok (offset d), s2)) as Hseek.
  { unfold seek. rewrite (proj2 (Z.eqb_neq f 0)) by done. run. rewrite (fd_lookup s1 f d1 Hf1), Hn1, (proj2 (Z.eqb_neq _ _) Ht1).
    change (SEEK_SET =? SEEK_SET) with true. cbv beta iota. rewrite Z.add_0_l. rewrite i64_small by (mach; lia). rewrite (proj2 (Z.ltb_ge _ _) Hoff), u64_small by (mach; lia).
    by rewrite ?(fd_lookup s1 f d1 Hf1). }
  exists s2.
  assert (ram_fd s2 f (set_offset (offset d) d1)) as Hrf2.
  { split; cbn; rewrite ?Hn1; [by rewrite lookup_insert_eq | done | done | done]. }
  destruct (read_ram s2 m1 f _ (Z.of_nat (length src)) Hrf2) as (s3 & Hread); cbn [offset flags set_offset node];
    [by rewrite Hfl1 | rewrite Hn1; destruct Hok1; by split | done | lia |].
  exists s3. split; [done |]. rewrite Hread. cbn [node set_offset offset]. rewrite Hn1.
  change (nd s2 (node d)) with (nd s1 (node d)). do 3 f_equal. cbv zeta in Hsz.
  rewrite Hsz. replace (Z.max 0 _) with (Z.of_nat (length src)) by lia.
  apply list_eq. intros i. rewrite list_lookup_fmap. destruct (decide (i < length src)%nat) as [Hi | Hi].
  - rewrite lookup_seqZ_lt by lia. cbn. rewrite Z.add_0_l.
    change (fbyte s2 (node d) (offset d + Z.of_nat i)) with (fbyte s1 (node d) (offset d + Z.of_nat i)).
    rewrite Hby by lia. rewrite decide_True by lia. replace (Z.to_nat (offset d + Z.of_nat i - offset d)) with i by lia.
    destruct (lookup_lt_is_Some_2 src i Hi) as [b ->]. done.
  - rewrite lookup_seqZ_ge by lia. symmetry. apply lookup_ge_None. lia.
Qed.

(** ** Access modes *)

Lemma flag_bit x k : 0 <= k -> has x (2 ^ k) = Z.testbit x k.
Proof.
  intros Hk. unfold has. rewrite land_pow2_testbit by done. destruct (Z.testbit x k); [| done].
  pose proof (Z.pow_pos_nonneg 2 k). rewrite (proj2 (Z.eqb_neq _ 0)); [done | lia].
Qed.

(** Access rights of an opened file.  When the flags the caller passes do not
    themselves contain the kernel's internal bits 8 and 9, a descriptor can read
    unless the access mode is [O_WRITE], can write exactly for [O_WRITE] and
    [O_RDWR], and appends exactly when [O_APPEND] was asked for. *)
Theorem open_flags_access fl : Z.testbit fl 8 = false -> Z.testbit fl 9 = false ->
  has (open_flags fl) VFS_READ = negb (fl .& 3 =? O_WRITE) /\
  has (open_flags fl) VFS_WRITE = ((fl .& 3 =? O_WRITE) || (fl .& 3 =? O_RDWR)) /\
  has (open_flags fl) VFS_APPEND = has fl O_APPEND.
Proof.
  intros H8 H9. change VFS_READ with (2 ^ 8) in *. change VFS_WRITE with (2 ^ 9) in *.
  change VFS_APPEND with (2 ^ 10). change O_APPEND with (2 ^ 10). rewrite !flag_bit by lia.
  assert (forall j, Z.testbit (open_flags fl) j = Z.testbit fl j ||
    (if fl .& 3 =? O_RDWR then (j =? 8) || (j =? 9) else if fl .& 3 =? O_WRITE then j =? 9 else j =? 8) ||
    (Z.testbit fl 10 && (j =? 10))) as Hb.
  { intros j. unfold open_flags. change O_APPEND with (2 ^ 10). rewrite flag_bit by lia.
    change VFS_READ with (2 ^ 8). change VFS_WRITE with (2 ^ 9). change VFS_APPEND with (2 ^ 10).
    destruct (Z.testbit fl 10); destruct (fl .& 3 =? O_RDWR); destruct (fl .& 3 =? O_WRITE);
      rewrite ?Z.lor_spec, ?testbit_pow2 by lia; by rewrite ?orb_false_r. }
  rewrite !Hb, H8, H9. unfold O_RDWR, O_WRITE. cbn [orb andb Z.eqb].
  generalize (Z.testbit fl 10). intros b10.
  destruct (Z.eqb_spec (fl .& 3) 2) as [-> |]; [| destruct (fl .& 3 =? 1)]; by destruct b10.
Qed.

(** [O_TRUNC] is the bit of [VFS_WRITE], so a file opened read-only with it can be
    written. *)
Lemma trunc_grants_write : has (open_flags (O_READ .| O_TRUNC)) VFS_WRITE = true.
Proof. done. Qed.
End vfs.

(** ** Concrete instances, over the [Bump] allocator *)

#[local] Existing Instance Bump.bump_allocator.

Definition demo_pipe : PipeBuffer := Pipe ∅ 4095 4095 0 2.

Lemma pipe_is_queue_witness : pipe_wf demo_pipe /\
  pipe_contents (snd (pipe_put [1; 2; 3] demo_pipe)) = [1; 2; 3] /\ fst (pipe_get 2 (snd (pipe_put [1; 2; 3] demo_pipe))) = [1; 2].
Proof.
  assert (pipe_wf demo_pipe) as Hwf by (split; unfold PIPE_BUF_SIZE; simpl; lia || reflexivity).
  split; [exact Hwf |]. pose proof (proj1 (pipe_is_queue demo_pipe Hwf) [1; 2; 3]) as Hput.
  destruct (pipe_put [1; 2; 3] demo_pipe) as [r b] eqn:Hb. destruct Hput as (Hwf' & Hc & _).
  split; [exact Hc |]. pose proof (proj2 (pipe_is_queue b Hwf') 2 ltac:(lia)) as Hget. cbn [snd].
  destruct (pipe_get 2 b) as [l b']. destruct Hget as (_ & -> & _). rewrite Hc. reflexivity.
Defined.

(** A file of two bytes open for reading and writing. *)
Definition demo_file : state (H := Bump.state) :=
  State (Bump.State (Bump.base + 2) {[Bump.base := 2]})
    {[500 := Node [102] VFS_TYPE_FILE 2 0 0 0 RamfsOps Bump.base 2 1 0]} {[700 := Fd 500 1 (VFS_READ .| VFS_WRITE) 0]} ∅
    {[Bump.base := 65; Bump.base + 1 := 66]} [] 0 0 [] ∅ 0 0 Vga.demo.

Lemma demo_file_ok : file_ok demo_file {[Bump.base := 2]} 500.
Proof.
  assert (nd demo_file 500 = Node [102] VFS_TYPE_FILE 2 0 0 0 RamfsOps Bump.base 2 1 0) as Hnd by reflexivity.
  split; rewrite ?Hnd; cbn [fsize data_capacity fdata]; [| lia | lia | right; exists 2; by split | lia].
  split; cbn [Bump.live Bump.next heap demo_file]; [done | unfold Bump.base; lia | |].
  - intros p n [<- <-]%lookup_singleton_Some. unfold Bump.base, Bump.limit. lia.
  - intros p q n k [<- <-]%lookup_singleton_Some [<- <-]%lookup_singleton_Some. done.
Qed.

Lemma write_read_roundtrip_witness : exists r s1,
  write (fun _ _ _ => ret (Err IOError)) 700 [7; 8; 9] demo_file = Some (r, s1) /\
  (r = Err OutOfMemory \/
   (r = Ok 3 /\ exists s2 s3, seek 700 1 SEEK_SET s1 = Some (Ok 1, s2) /\
      read (fun _ _ _ => ret (Err IOError)) 700 3 s2 = Some (Ok [7; 8; 9], s3))).
Proof.
  refine (write_read_roundtrip (fun _ _ _ => ret (Err IOError)) (fun _ _ _ => ret (Err IOError))
    demo_file {[Bump.base := 2]} 700 (Fd 500 1 (VFS_READ .| VFS_WRITE) 0) [7; 8; 9] _ eq_refl eq_refl eq_refl demo_file_ok _ _);
    [split; [reflexivity | lia | vm_compute; congruence | reflexivity] | simpl; lia | simpl; lia].
Defined.

Lemma open_flags_access_witness : Z.testbit (O_RDWR .| O_CREATE) 8 = false /\ has (open_flags (O_RDWR .| O_CREATE)) VFS_WRITE = true.
Proof.
  split; [reflexivity |].
  rewrite (proj1 (proj2 (open_flags_access (O_RDWR .| O_CREATE) ltac:(reflexivity) ltac:(reflexivity)))). reflexivity.
Defined.
