(* ===== verification/VfsTree.v ===== *)
(** * fs/vfs.cpp: the directory tree and the descriptors

    What a well-formed file system state is, what a path denotes in it, and what
    the operations of [Vfs] do to the two.  The heap is any [Alloc.Allocator]. *)
From S2P Require Import Prelude Alloc Vfs.

Arguments state H : clear implicits.

Section tree.
Context {H : Type} `{!Allocator H}.
Implicit Types s : state H.

(** ** Sibling lists *)

(** [l] is the list of the nodes on the sibling chain that starts at [c]. *)
Fixpoint chain s (c : Z) (l : list Z) : Prop :=
  match l with
  | [] => c = 0
  | x :: l' => c = x /\ x <> 0 /\ is_Some (nodes s !! x) /\ chain s (next_sibling (nd s x)) l'
  end.

Lemma chain_det s c l l' : chain s c l -> chain s c l' -> l = l'.
Proof.
  revert c l'. induction l as [| x l IH]; intros c [| y l']; simpl.
  - done.
  - intros -> (-> & ? & _). done.
  - intros (-> & ? & _) ->. done.
  - intros (-> & _ & _ & H1) (-> & _ & _ & H2). f_equal. by apply (IH _ _ H1).
Qed.

Lemma chain_suffix s c l1 x l2 : chain s c (l1 ++ x :: l2) -> chain s x (x :: l2).
Proof.
  revert c. induction l1 as [| y l1 IH]; intros c; simpl.
  - by intros (-> & ?).
  - intros (_ & _ & _ & Hc). by apply (IH _ Hc).
Qed.

Lemma chain_NoDup s c l : chain s c l -> NoDup l.
Proof.
  revert c. induction l as [| x l IH]; intros c Hc; [constructor |].
  pose proof Hc as (-> & _ & _ & Hl). constructor; [| by apply (IH _ Hl)].
  intros (l1 & l2 & ->)%list_elem_of_split.
  pose proof (chain_suffix _ _ _ _ _ Hl) as H2. pose proof (chain_det _ _ _ _ Hc H2) as He.
  apply (f_equal length) in He. simpl in He. rewrite length_app in He. simpl in He. lia.
Qed.

Lemma chain_elem s c l x : chain s c l -> x ∈ l -> x <> 0 /\ is_Some (nodes s !! x).
Proof.
  revert c. induction l as [| y l IH]; intros c; [by intros _ ?%elem_of_nil |].
  intros (-> & ? & ? & Hl) [-> | Hx]%elem_of_cons; [done | by apply (IH _ Hl)].
Qed.

Lemma chain_length s c l : chain s c l -> (length l < walk_fuel s)%nat.
Proof.
  intros Hc. unfold walk_fuel. apply Nat.lt_succ_r.
  rewrite <- (size_dom (nodes s)). rewrite <- (size_list_to_set (C := gset Z) l) by (by eapply chain_NoDup).
  apply subseteq_size. intros x Hx%elem_of_list_to_set. apply elem_of_dom. by eapply chain_elem.
Qed.

(** The chain is read off the links of its own nodes only. *)
Lemma chain_ext s s' c l : chain s c l ->
  (forall x, x ∈ l -> is_Some (nodes s' !! x) /\ next_sibling (nd s' x) = next_sibling (nd s x)) -> chain s' c l.
Proof.
  revert c. induction l as [| x l IH]; intros c; simpl; [done |].
  intros (-> & Hx & _ & Hl) He. destruct (He x) as [H1 H2]; [by left |].
  split_and!; [done | done | done |]. rewrite H2. apply IH; [done |]. intros y Hy. apply He. by right.
Qed.

(** The search of [resolve_internal] and [create_internal] over a sibling list. *)
Lemma find_child_chain fuel s c l comp : chain s c l -> (length l < fuel)%nat ->
  find_child fuel s c comp = Some (List.find (fun x => kstreq (name (nd s x)) comp) l).
Proof.
  revert fuel c. induction l as [| x l IH]; intros [| fuel] c; simpl; try lia.
  - by intros ->.
  - intros (-> & Hx & _ & Hl) Hf. rewrite (proj2 (Z.eqb_neq x 0)) by done.
    destruct (kstreq (name (nd s x)) comp); [done |]. apply IH; [done | lia].
Qed.

(** ** The tree *)

(** [c] is an entry of directory [d]. *)
Definition entry s (d c : Z) : Prop := exists l, chain s (children (nd s d)) l /\ c ∈ l.

Record tree_wf s : Prop := {
  tw_null : nodes s !! 0 = None;
  tw_root : is_Some (nodes s !! vfs_root s) /\ type (nd s (vfs_root s)) = VFS_TYPE_DIR;
  tw_cwd : cwd s = 0 \/ (is_Some (nodes s !! cwd s) /\ type (nd s (cwd s)) = VFS_TYPE_DIR);
  tw_parent : forall p, is_Some (nodes s !! p) -> parent (nd s p) <> 0 ->
    is_Some (nodes s !! parent (nd s p)) /\ type (nd s (parent (nd s p))) = VFS_TYPE_DIR /\ entry s (parent (nd s p)) p;
  tw_children : forall p, is_Some (nodes s !! p) -> exists l, chain s (children (nd s p)) l;
  tw_entry : forall p c, is_Some (nodes s !! p) -> entry s p c -> parent (nd s c) = p;
  tw_names : forall p c c', is_Some (nodes s !! p) -> entry s p c -> entry s p c' ->
    name (nd s c) = name (nd s c') -> c = c';
}.

Lemma node_nonzero s p : tree_wf s -> is_Some (nodes s !! p) -> p <> 0.
Proof. intros Hwf [v Hv] ->. by rewrite (tw_null _ Hwf) in Hv. Qed.

Lemma entry_node s p c : entry s p c -> c <> 0 /\ is_Some (nodes s !! c).
Proof. intros (l & Hl & Hc). by eapply chain_elem. Qed.

(** Only directories have entries. *)
Lemma entry_dir s p c : tree_wf s -> is_Some (nodes s !! p) -> entry s p c -> type (nd s p) = VFS_TYPE_DIR.
Proof.
  intros Hwf Hp He. pose proof (tw_entry _ Hwf p c Hp He) as Hpar. subst p.
  apply (tw_parent _ Hwf c); [by apply (entry_node _ _ _ He) |]. by apply (node_nonzero s).
Qed.

(** The node a list of components leads to: the empty list and [.] stay, [..]
    goes to the parent (the root stays), a name goes to the entry of that name of
    a directory. *)
Inductive leads_to s : Z -> list (list Z) -> Z -> Prop :=
  | lt_nil n : leads_to s n [] n
  | lt_dot n l n' : leads_to s n l n' -> leads_to s n (dot :: l) n'
  | lt_up n l n' : parent (nd s n) <> 0 -> leads_to s (parent (nd s n)) l n' -> leads_to s n (dotdot :: l) n'
  | lt_top n l n' : parent (nd s n) = 0 -> leads_to s n l n' -> leads_to s n (dotdot :: l) n'
  | lt_name n c l n' comp : comp <> dot -> comp <> dotdot -> type (nd s n) = VFS_TYPE_DIR ->
      entry s n c -> name (nd s c) = comp -> leads_to s c l n' -> leads_to s n (comp :: l) n'.

Lemma kstreq_true a b : kstreq a b = true <-> a = b.
Proof. apply bool_decide_eq_true. Qed.
Lemma kstreq_false a b : kstreq a b = false <-> a <> b.
Proof. apply bool_decide_eq_false. Qed.

(** The search finds the entry of that name, and 0 when there is none. *)
Lemma find_entry s p comp : tree_wf s -> is_Some (nodes s !! p) ->
  exists r, find_child (walk_fuel s) s (children (nd s p)) comp = Some r /\
    match r with
    | Some c => entry s p c /\ name (nd s c) = comp /\ c <> 0 /\ is_Some (nodes s !! c)
    | None => forall c, entry s p c -> name (nd s c) <> comp
    end.
Proof.
  intros Hwf Hp. destruct (tw_children _ Hwf p Hp) as [l Hl].
  rewrite (find_child_chain _ _ _ l comp Hl (chain_length _ _ _ Hl)). eexists. split; [done |].
  destruct (List.find _ l) as [c |] eqn:Hf.
  - apply List.find_some in Hf as [Hc%list_elem_of_In Hn%kstreq_true].
    split_and!; [by exists l | done | by eapply chain_elem | by eapply chain_elem].
  - intros c (l' & Hl' & Hc) Hn. rewrite (chain_det _ _ _ _ Hl' Hl) in Hc.
    apply list_elem_of_In in Hc. pose proof (List.find_none _ _ Hf c Hc) as H0.
    by apply kstreq_false in H0.
Qed.

Lemma start_node s (b : bool) : tree_wf s ->
  let n := if b then vfs_root s else get_cwd s in
  (if n =? 0 then vfs_root s else n) = n /\ n <> 0 /\ is_Some (nodes s !! n).
Proof.
  intros Hwf. destruct (tw_root _ Hwf) as [Hr _]. pose proof (node_nonzero _ _ Hwf Hr) as H0. cbv zeta.
  assert (forall n, n <> 0 -> is_Some (nodes s !! n) -> (if n =? 0 then vfs_root s else n) = n /\ n <> 0 /\ is_Some (nodes s !! n)) as Hn.
  { intros n ? ?. by rewrite (proj2 (Z.eqb_neq n 0)). }
  destruct b; [by apply Hn |]. unfold get_cwd. destruct (Z.eqb_spec (cwd s) 0); [by apply Hn |].
  destruct (tw_cwd _ Hwf) as [| [? _]]; [done |]. by apply Hn.
Qed.

(** Walking the components ends, at the node they lead to if there is one and at
    0 otherwise. *)
Lemma walk_leads s l n : tree_wf s -> is_Some (nodes s !! n) -> n <> 0 ->
  exists r, walk_components s l n = Some r /\
    ((r <> 0 /\ is_Some (nodes s !! r) /\ leads_to s n l r) \/ (r = 0 /\ forall n', ~ leads_to s n l n')).
Proof.
  intros Hwf. revert n. induction l as [| comp l IH]; intros n Hn H0; cbn [walk_components].
  { exists n. split; [done |]. left. split_and!; [done | done | constructor]. }
  destruct (kstreq comp dot) eqn:Hdot.
  { apply kstreq_true in Hdot as ->. destruct (IH n Hn H0) as (r & -> & Hr). exists r. split; [done |].
    destruct Hr as [(? & ? & ?) | (? & Hno)]; [left; split_and!; [done | done | by constructor] | right].
    split; [done |]. intros n' Hl. inversion Hl; subst; [by eapply Hno | done]. }
  apply kstreq_false in Hdot. destruct (kstreq comp dotdot) eqn:Hdd.
  { apply kstreq_true in Hdd as ->. destruct (Z.eqb_spec (parent (nd s n)) 0) as [Hp | Hp]; cbn [negb].
    - destruct (IH n Hn H0) as (r & -> & Hr). exists r. split; [done |].
      destruct Hr as [(? & ? & ?) | (? & Hno)]; [left; split_and!; [done | done | by apply lt_top] | right].
      split; [done |]. intros n' Hl. inversion Hl; subst; [done | by eapply Hno | done].
    - destruct (tw_parent _ Hwf n Hn Hp) as [Hpn _].
      destruct (IH _ Hpn Hp) as (r & -> & Hr). exists r. split; [done |].
      destruct Hr as [(? & ? & ?) | (? & Hno)]; [left; split_and!; [done | done | by apply lt_up] | right].
      split; [done |]. intros n' Hl. inversion Hl; subst; [by eapply Hno | done | done]. }
  apply kstreq_false in Hdd. destruct (Z.eqb_spec (type (nd s n)) VFS_TYPE_DIR) as [Ht | Ht]; cbn [negb].
  2: { exists 0. split; [done |]. right. split; [done |]. intros n' Hl. by inversion Hl; subst. }
  destruct (find_entry s n comp Hwf Hn) as (r & -> & Hr). unfold mbind, option_bind. destruct r as [c |].
  - destruct Hr as (He & Hname & Hc0 & Hc). destruct (IH c Hc Hc0) as (r & -> & Hr'). exists r. split; [done |].
    destruct Hr' as [(? & ? & ?) | (? & Hno)]; [left; split_and!; [done | done | by eapply lt_name] | right].
    split; [done |]. intros n' Hl. inversion Hl as [| | | | ? c' ? ? ? _ _ _ He' Hn']; subst; try done.
    assert (c' = c) as -> by (by apply (tw_names _ Hwf n)). by eapply Hno.
  - exists 0. split; [done |]. right. split; [done |]. intros n' Hl.
    inversion Hl as [| | | | ? c' ? ? ? _ _ _ He' Hn']; subst; try done. by eapply Hr.
Qed.

(** Where a path starts: the root for an absolute one, else the working directory. *)
Definition starts_at s (path : list Z) : Z :=
  match path with c :: _ => if c =? slash then vfs_root s else get_cwd s | [] => 0 end.

Definition short (path : list Z) : Prop := Forall (fun w => (length w <= 127)%nat) (components path).

(** Resolution is the walk over the components. *)
Lemma resolve_walk s path : tree_wf s -> path <> [] -> short path ->
  resolve_internal path s = walk_components s (components path) (starts_at s path).
Proof.
  intros Hwf Hne Hs. destruct path as [| c path]; [done |]. unfold resolve_internal. cbn [starts_at].
  destruct (start_node s (c =? slash) Hwf) as [-> _].
  destruct (Z.eqb_spec c slash) as [-> | Hc].
  - assert (components (slash :: path) = components path) as Hcomp by (rewrite <- (components_skip (slash :: path)); apply (components_skip path)).
    unfold short in Hs. rewrite Hcomp in *. rewrite resolve_loop_components; [done | simpl; lia | done].
  - rewrite resolve_loop_components; [done | simpl; lia | done].
Qed.

Lemma starts_at_node s path : tree_wf s -> path <> [] ->
  starts_at s path <> 0 /\ is_Some (nodes s !! starts_at s path).
Proof.
  intros Hwf Hne. destruct path as [| c path]; [done |]. cbn [starts_at].
  by destruct (start_node s (c =? slash) Hwf) as [_ ?].
Qed.

(** C12: path resolution terminates and is correct on every well-formed tree:
    [resolve] answers with the node that the components of the path lead to, from
    the root or the working directory, and with [NotFound] when there is none.
    Component names are at most 127 characters long. *)
Theorem resolve_correct s path : tree_wf s -> path <> [] -> short path ->
  exists r, resolve path s = Some (r, s) /\
    match r with
    | Ok n => is_Some (nodes s !! n) /\ leads_to s (starts_at s path) (components path) n
    | Err e => e = NotFound /\ forall n, ~ leads_to s (starts_at s path) (components path) n
    end.
Proof.
  intros Hwf Hne Hs. unfold resolve, lookup, M_bind, bind, mbind, option_bind, ret.
  rewrite (resolve_walk s path Hwf Hne Hs).
  destruct (starts_at_node s path Hwf Hne) as [H0 Hn].
  destruct (walk_leads s (components path) _ Hwf Hn H0) as (r & -> & [(Hr & ? & ?) | (-> & ?)]).
  - rewrite (proj2 (Z.eqb_neq r 0)) by done. by exists (Ok r).
  - by exists (Err NotFound).
Qed.

(** Resolution ends for every path, also one with overlong components. *)
Lemma path_next_shrinks p max : (1 < max)%nat ->
  let '(comp, rest) := path_next p max in comp <> [] -> (length rest < length p)%nat.
Proof.
  intros Hm. unfold path_next. pose proof (skip_slashes_length p). destruct (skip_slashes p) as [| c q]; [done |].
  pose proof (take_component_length (max - 1) (c :: q)). destruct (take_component (max - 1) (c :: q)) as [comp rest].
  simpl fst in *. simpl snd in *. intros Hc. destruct comp; [done |]. simpl in *. lia.
Qed.

Lemma resolve_loop_total fuel s p n : tree_wf s -> (length p < fuel)%nat -> is_Some (nodes s !! n) ->
  exists r, resolve_loop fuel s p n = Some r /\ (r = 0 \/ is_Some (nodes s !! r)).
Proof.
  intros Hwf. revert p n. induction fuel as [| fuel IH]; intros p n Hf Hn; [lia |]. cbn [resolve_loop].
  pose proof (path_next_shrinks p NAME_MAX ltac:(unfold NAME_MAX; lia)) as Hs.
  destruct (path_next p NAME_MAX) as [comp rest]. case_bool_decide as Hc; [by exists n; auto |].
  specialize (Hs Hc). destruct (kstreq comp dot); [apply IH; [lia | done] |].
  destruct (kstreq comp dotdot).
  { apply IH; [lia |]. destruct (Z.eqb_spec (parent (nd s n)) 0); cbn [negb]; [done |]. by apply (tw_parent _ Hwf). }
  destruct (negb _); [by exists 0; auto |]. destruct (find_entry s n comp Hwf Hn) as (r & -> & Hr).
  unfold mbind, option_bind. destruct r as [c |]; [| by exists 0; auto]. apply IH; [lia |]. by apply Hr.
Qed.

Lemma lookup_total s path : tree_wf s ->
  exists n, resolve_internal path s = Some n /\ (n = 0 \/ is_Some (nodes s !! n)).
Proof.
  intros Hwf. destruct path as [| c path]; [by exists 0; auto |]. unfold resolve_internal.
  destruct (start_node s (c =? slash) Hwf) as (-> & _ & Hn). apply resolve_loop_total; [done | | done].
  destruct (c =? slash); simpl; lia.
Qed.

(** ** Ownership of heap blocks *)

(** [OOther] marks blocks of other parts of the kernel, which the file system
    must leave alone. *)
Inductive owner := ONode | OFd | OData (p : Z) | OOther.

Definition others_kept (own own' : gmap Z owner) : Prop := forall a, own !! a = Some OOther -> own' !! a = Some OOther.

(** Every owned address is an allocated block. *)
Definition mem_ok (h : H) (own : gmap Z owner) : Prop :=
  exists m, blocks h m /\ forall a, is_Some (own !! a) -> is_Some (m !! a).

Lemma mem_malloc h own n : mem_ok h own -> 0 < n < max_request ->
  exists p h', kmalloc n h = Some (p, h') /\
    ((p = 0 /\ mem_ok h' own) \/
     (p <> 0 /\ own !! p = None /\ heap_range p /\ forall o, mem_ok h' (<[p := o]> own))).
Proof.
  intros (m & Hb & Ho) Hn. destruct (kmalloc_law _ _ _ Hb Hn) as (p & h' & -> & Hr). exists p, h'. split; [done |].
  destruct Hr as [[-> ?] | (H0 & Hnone & sz & Hsz & Hb')]; [left; split; [done | by exists m] | right].
  split_and!; [done | | |].
  - destruct (own !! p) eqn:Hp; [| done]. destruct (Ho p) as [? Hm]; [by eexists |]. by rewrite Hnone in Hm.
  - apply (blocks_range h' _ p sz Hb'). by rewrite lookup_insert_eq.
  - intros o. exists (<[p := sz]> m). split; [done |]. intros a. rewrite !lookup_insert. case_decide; [by eexists | apply Ho].
Qed.

Lemma mem_free h own p : mem_ok h own -> is_Some (own !! p) ->
  exists h', kfree p h = Some h' /\ mem_ok h' (delete p own).
Proof.
  intros (m & Hb & Ho) Hp. destruct (kfree_law _ _ p Hb (Ho p Hp)) as (h' & -> & Hb'). exists h'. split; [done |].
  exists (delete p m). split; [done |]. intros a. rewrite !lookup_delete. case_decide; [by intros [] | apply Ho].
Qed.

(** The number of descriptors open on node [p]. *)
Definition opens s (p : Z) : Z := Z.of_nat (size (filter (fun fd => node fd.2 = p) (fds s))).

Record obj_ok s (own : gmap Z owner) : Prop := {
  ok_tree : tree_wf s;
  ok_node : forall p, is_Some (nodes s !! p) -> p = tty_ptr \/ own !! p = Some ONode;
  ok_fd : forall f, is_Some (fds s !! f) -> own !! f = Some OFd;
  ok_range : forall a, is_Some (own !! a) -> heap_range a;
  ok_data : forall p, is_Some (nodes s !! p) -> fdata (nd s p) <> 0 -> own !! fdata (nd s p) = Some (OData p);
  ok_open : forall f d, fds s !! f = Some d -> is_Some (nodes s !! node d);
  ok_refs : forall p, is_Some (nodes s !! p) -> refcount (nd s p) = opens s p;
  ok_native : forall p, is_Some (nodes s !! p) -> ops (nd s p) <> ForeignOps;
}.

(** The invariant of the file system: a well-formed tree; nodes, descriptors and
    file buffers in distinct allocated blocks; no descriptor of a missing node;
    reference counts equal to the number of open descriptors. *)
Definition fs_ok s : Prop := exists own, mem_ok (heap s) own /\ obj_ok s own.

(** The same, with the blocks that [base] gives to other parts of the kernel still
    theirs. *)
Definition fs_from (base : gmap Z owner) s : Prop := exists own, mem_ok (heap s) own /\ obj_ok s own /\ others_kept base own.

Lemma fs_ok_from s : fs_ok s <-> fs_from ∅ s.
Proof. split; [intros (own & ? & ?) | intros (own & ? & ? & _)]; exists own; by split_and?. Qed.

Lemma fs_from_tree base s : fs_from base s -> tree_wf s.
Proof. intros (own & _ & Hok & _). apply (ok_tree _ _ Hok). Qed.

(** A derived state with an ownership that keeps what [own] gave away. *)
Lemma fs_from_step base own own' s' : others_kept base own -> others_kept own own' -> mem_ok (heap s') own' -> obj_ok s' own' -> fs_from base s'.
Proof. intros Hb Hk Hm Ho. exists own'. split_and!; [done | done |]. intros a Ha. by apply Hk, Hb. Qed.

Lemma others_insert own a o : own !! a = None -> others_kept own (<[a := o]> own).
Proof. intros Ha b Hb. rewrite lookup_insert_ne; [done |]. intros ->. congruence. Qed.

Lemma others_delete own a : own !! a <> Some OOther -> others_kept own (delete a own).
Proof. intros Ha b Hb. rewrite lookup_delete_ne; [done |]. by intros ->. Qed.

Lemma others_trans own1 own2 own3 : others_kept own1 own2 -> others_kept own2 own3 -> others_kept own1 own3.
Proof. intros H1 H2 a Ha. by apply H2, H1. Qed.

Lemma opens_ext s s' p : fds s' = fds s -> opens s' p = opens s p.
Proof. unfold opens. by intros ->. Qed.

Lemma opens_insert s p f d : fds s !! f = None ->
  opens (set_fds (<[f := d]> (fds s)) s) p = opens s p + (if decide (node d = p) then 1 else 0).
Proof.
  intros Hf. unfold opens. cbn [fds set_fds]. case_decide as Hd.
  - rewrite map_filter_insert_True by done. rewrite map_size_insert_None; [lia |].
    apply map_lookup_filter_None. by left.
  - rewrite map_filter_insert_False by done. rewrite delete_id by done. lia.
Qed.

Lemma opens_delete s p f d : fds s !! f = Some d ->
  opens (set_fds (delete f (fds s)) s) p = opens s p - (if decide (node d = p) then 1 else 0).
Proof.
  intros Hf. pose proof (opens_insert (set_fds (delete f (fds s)) s) p f d) as Hi. cbn [fds set_fds] in Hi.
  rewrite lookup_delete_eq in Hi. specialize (Hi eq_refl). rewrite (opens_ext s) in Hi; [lia |].
  cbn [fds set_fds]. by rewrite insert_delete_id.
Qed.

(** Changing a descriptor but for its node. *)
Lemma opens_replace s p f d d' : fds s !! f = Some d -> node d' = node d ->
  opens (set_fds (<[f := d']> (fds s)) s) p = opens s p.
Proof.
  intros Hf Hn. pose proof (opens_delete s p f d Hf) as Hd.
  pose proof (opens_insert (set_fds (delete f (fds s)) s) p f d') as Hi. cbn [fds set_fds] in Hi.
  rewrite lookup_delete_eq in Hi. specialize (Hi eq_refl). rewrite Hn in Hi.
  rewrite (opens_ext (set_fds (<[f := d']> (fds s)) s)) in Hi; [lia |]. cbn [fds set_fds]. by rewrite insert_delete_eq.
Qed.

Lemma opens_zero s p f d : opens s p = 0 -> fds s !! f = Some d -> node d <> p.
Proof.
  intros H0 Hf Hn. pose proof (opens_delete s p f d Hf) as Hd. rewrite decide_True in Hd by done.
  unfold opens in Hd at 1. lia.
Qed.

Lemma opens_none s p : (forall f d, fds s !! f = Some d -> node d <> p) -> opens s p = 0.
Proof.
  intros Hno. unfold opens. assert (filter (fun fd => node fd.2 = p) (fds s) = ∅) as ->; [| done].
  apply map_empty. intros f. apply map_lookup_filter_None. right. intros d Hd. by apply (Hno f).
Qed.

Lemma card_range (X : gset Z) a n : 0 <= n -> (forall x, x ∈ X -> a < x <= a + n) -> Z.of_nat (size X) <= n.
Proof.
  intros Hn HX. assert (X ⊆ list_to_set (seqZ (a + 1) n)) as Hsub.
  { intros x Hx. apply elem_of_list_to_set, elem_of_seqZ. specialize (HX x Hx). lia. }
  apply subseteq_size in Hsub. rewrite size_list_to_set in Hsub by apply NoDup_seqZ. rewrite length_seqZ in Hsub. lia.
Qed.

(** There are fewer descriptors than a 32-bit counter can hold, because each
    takes a block of the 1 GiB heap. *)
Lemma opens_bound s own p : obj_ok s own -> 0 <= opens s p <= 2 ^ 30.
Proof.
  intros Hok. unfold opens. split; [lia |].
  assert (size (filter (fun fd => node fd.2 = p) (fds s)) <= size (dom (fds s)))%nat as Hle.
  { rewrite size_dom. rewrite <- !(size_dom (D := gset Z)). apply subseteq_size. apply dom_filter_subseteq. }
  pose proof (card_range (dom (fds s)) 0xFFFF900000000000 (2 ^ 30)) as Hc.
  transitivity (Z.of_nat (size (dom (fds s)))); [lia |]. apply Hc; [lia |].
  intros f Hf%elem_of_dom. assert (heap_range f) as Hr.
  { apply (ok_range _ _ Hok). rewrite (ok_fd _ _ Hok f Hf). by eexists. }
  unfold heap_range in Hr. change (2 ^ 30) with 0x40000000. lia.
Qed.

(** ** Changes that keep the tree *)

Definition links (v : VNode) := (name v, type v, parent v, children v, next_sibling v).

Record same_tree s s' : Prop := {
  st_root : vfs_root s' = vfs_root s;
  st_cwd : cwd s' = cwd s;
  st_dom : forall p, is_Some (nodes s' !! p) <-> is_Some (nodes s !! p);
  st_links : forall p, links (nd s' p) = links (nd s p);
}.

Lemma same_tree_chain s s' c l : same_tree s s' -> chain s' c l <-> chain s c l.
Proof.
  intros Hs. split; intros Hc; eapply chain_ext; try exact Hc; intros x Hx;
    (split; [apply (st_dom _ _ Hs); by eapply chain_elem | by pose proof (st_links _ _ Hs x) as [= _ _ _ _ ?]]).
Qed.

Lemma same_tree_entry s s' p c : same_tree s s' -> entry s' p c <-> entry s p c.
Proof.
  intros Hs. unfold entry. pose proof (st_links _ _ Hs p) as [= _ _ _ -> _].
  by setoid_rewrite (same_tree_chain s s' _ _ Hs).
Qed.

Lemma tree_wf_same s s' : same_tree s s' -> tree_wf s -> tree_wf s'.
Proof.
  intros Hs Hwf. pose proof (st_dom _ _ Hs) as Hd.
  assert (forall p, name (nd s' p) = name (nd s p) /\ type (nd s' p) = type (nd s p) /\
    parent (nd s' p) = parent (nd s p) /\ children (nd s' p) = children (nd s p)) as Hl.
  { intros p. by pose proof (st_links _ _ Hs p) as [= -> -> -> -> _]. }
  assert (forall p c, entry s' p c <-> entry s p c) as Hent by (intros; by apply same_tree_entry).
  split.
  - apply eq_None_not_Some. rewrite Hd. apply eq_None_not_Some, (tw_null _ Hwf).
  - rewrite Hd, (st_root _ _ Hs). destruct (Hl (vfs_root s)) as (_ & -> & _). apply (tw_root _ Hwf).
  - rewrite (st_cwd _ _ Hs), Hd. destruct (Hl (cwd s)) as (_ & -> & _). apply (tw_cwd _ Hwf).
  - intros p. destruct (Hl p) as (_ & _ & -> & _). rewrite !Hd. destruct (Hl (parent (nd s p))) as (_ & -> & _).
    rewrite Hent. apply (tw_parent _ Hwf).
  - intros p. rewrite Hd. destruct (Hl p) as (_ & _ & _ & ->). intros Hp. destruct (tw_children _ Hwf p Hp) as [l ?].
    exists l. by apply (same_tree_chain s s' _ _ Hs).
  - intros p c. rewrite Hd, Hent. destruct (Hl c) as (_ & _ & -> & _). apply (tw_entry _ Hwf).
  - intros p c c'. rewrite Hd, !Hent. destruct (Hl c) as (-> & _). destruct (Hl c') as (-> & _). apply (tw_names _ Hwf).
Qed.

Lemma nd_alter s s' n v q : nodes s' = <[n := v]> (nodes s) -> nd s' q = if decide (n = q) then v else nd s q.
Proof. intros Hn. unfold nd. rewrite Hn, lookup_insert. by case_decide. Qed.

(** One node changed but for its links, and the descriptors changed with it. *)
Lemma obj_change s s' own own' n v' : obj_ok s own -> is_Some (nodes s !! n) ->
  nodes s' = <[n := v']> (nodes s) -> vfs_root s' = vfs_root s -> cwd s' = cwd s ->
  links v' = links (nd s n) -> ops v' = ops (nd s n) ->
  (fdata v' = fdata (nd s n) \/ fdata v' = 0) ->
  (forall f, is_Some (fds s' !! f) -> own' !! f = Some OFd) ->
  (forall p, own !! p = Some ONode -> own' !! p = Some ONode) ->
  (forall a, is_Some (own' !! a) -> heap_range a) ->
  (forall p d, own !! d = Some (OData p) -> (p = n /\ fdata v' = 0) \/ own' !! d = Some (OData p)) ->
  (forall f d, fds s' !! f = Some d -> is_Some (nodes s !! node d)) ->
  (forall p, is_Some (nodes s !! p) -> opens s' p = if decide (n = p) then refcount v' else opens s p) ->
  obj_ok s' own'.
Proof.
  intros Hok Hn Hnodes Hroot Hcwd Hl Ho Hfd Hf Hown Hr Hd Hopen Hrefs.
  assert (forall p, is_Some (nodes s' !! p) <-> is_Some (nodes s !! p)) as Hdom.
  { intros p. rewrite Hnodes, lookup_insert. case_decide; [| done]. subst. split; [done | by eexists]. }
  pose proof (fun q => nd_alter s s' n v' q Hnodes) as Hnd.
  split.
  - apply (tree_wf_same s); [| apply (ok_tree _ _ Hok)]. split; [done | done | done |].
    intros p. rewrite Hnd. case_decide; [by subst | done].
  - intros p Hp%Hdom. destruct (ok_node _ _ Hok p Hp); [by left | right; auto].
  - done.
  - done.
  - intros p Hp%Hdom. rewrite Hnd. case_decide as Hnp.
    + subst p. intros H0. destruct Hfd as [Hfd |]; [| done]. rewrite Hfd in *.
      destruct (Hd n (fdata (nd s n))) as [[_ ?] |]; [by apply (ok_data _ _ Hok) | done | done].
    + intros H0. destruct (Hd p (fdata (nd s p))) as [[? _] |]; [by apply (ok_data _ _ Hok) | done | done].
  - intros f d Hfd'. rewrite Hdom. by apply (Hopen f).
  - intros p Hp%Hdom. rewrite Hnd, (Hrefs p Hp). case_decide; [done | by apply (ok_refs _ _ Hok)].
  - intros p Hp%Hdom. rewrite Hnd. case_decide; [| by apply (ok_native _ _ Hok)]. subst p. rewrite Ho. by apply (ok_native _ _ Hok).
Qed.

(** Nodes and descriptors unchanged. *)
Lemma obj_keep s s' own own' : obj_ok s own -> nodes s' = nodes s -> fds s' = fds s ->
  vfs_root s' = vfs_root s -> cwd s' = cwd s ->
  (forall a o, o <> OOther -> own !! a = Some o -> own' !! a = Some o) ->
  (forall a, is_Some (own' !! a) -> heap_range a) -> obj_ok s' own'.
Proof.
  intros Hok Hn Hf Hr Hc Ho Hrange.
  destruct (tw_root _ (ok_tree _ _ Hok)) as [[v Hv] _].
  assert (nd s (vfs_root s) = v) as Hnd by (unfold nd; by rewrite Hv).
  apply (obj_change s s' own own' (vfs_root s) v Hok); rewrite ?Hnd, ?Hf; auto.
  - rewrite Hn. by rewrite insert_id.
  - intros f Hff. apply Ho; [done |]. apply (ok_fd _ _ Hok f Hff).
  - intros f d. apply (ok_open _ _ Hok).
  - intros p Hp. rewrite (opens_ext s s') by done. case_decide; [| done]. subst p.
    rewrite <- Hnd. symmetry. by apply (ok_refs _ _ Hok).
Qed.

(** ** The allocator as the operations call it *)

Lemma malloc_ok s own n : mem_ok (heap s) own -> 0 < n <= 5000 ->
  exists p h, malloc n s = Some (p, set_heap h s) /\
    ((p = 0 /\ mem_ok h own) \/
     (p <> 0 /\ own !! p = None /\ heap_range p /\ forall o, mem_ok h (<[p := o]> own))).
Proof.
  intros Hm Hn. unfold malloc. destruct (mem_malloc (heap s) own n Hm) as (p & h & -> & Hp); [unfold max_request; lia |].
  by exists p, h.
Qed.

Lemma free_ok s own p : mem_ok (heap s) own -> is_Some (own !! p) ->
  exists h, free p s = Some (tt, set_heap h s) /\ mem_ok h (delete p own).
Proof.
  intros Hm Hp. unfold free. destruct (mem_free (heap s) own p Hm Hp) as (h & -> & Hh). by exists h.
Qed.

(** [free(node->data)] when there is a buffer. *)
Lemma free_data_ok s own n : mem_ok (heap s) own -> obj_ok s own -> is_Some (nodes s !! n) ->
  exists h, (if negb (fdata (nd s n) =? 0) then free (fdata (nd s n)) else ret tt) s = Some (tt, set_heap h s) /\
    mem_ok h (delete (fdata (nd s n)) own).
Proof.
  intros Hm Hok Hn. destruct (Z.eqb_spec (fdata (nd s n)) 0) as [-> | H0]; cbn [negb].
  - exists (heap s). unfold ret. split; [by destruct s |]. rewrite delete_id; [done |].
    apply eq_None_not_Some. intros H0%(ok_range _ _ Hok). unfold heap_range in H0. lia.
  - apply free_ok; [done |]. rewrite (ok_data _ _ Hok n Hn H0). by eexists.
Qed.

Ltac run := unfold upd_node, upd_fd, mbind, M_bind, bind, get, modify, ret, mbind, option_bind; cbv beta iota zeta.
Ltac run_in X := unfold upd_node, upd_fd, mbind, M_bind, bind, get, modify, ret, mbind, option_bind in X; cbv beta iota zeta in X.

(** The owners after a buffer of [n] was released. *)
Lemma own_release own s n : obj_ok s own -> is_Some (nodes s !! n) ->
  let own' := delete (fdata (nd s n)) own in
  (forall p, own !! p = Some ONode -> own' !! p = Some ONode) /\
  (forall f, own !! f = Some OFd -> own' !! f = Some OFd) /\
  (forall a, is_Some (own' !! a) -> heap_range a) /\
  (forall p d, own !! d = Some (OData p) -> p = n \/ own' !! d = Some (OData p)) /\
  others_kept own own'.
Proof.
  intros Hok Hn own'.
  assert (own !! fdata (nd s n) = None \/ own !! fdata (nd s n) = Some (OData n)) as Hd.
  { destruct (decide (fdata (nd s n) = 0)) as [-> | H0]; [left | right; by apply (ok_data _ _ Hok)].
    apply eq_None_not_Some. intros H0%(ok_range _ _ Hok). unfold heap_range in H0. lia. }
  unfold own'. split_and!; intros a; rewrite ?lookup_delete.
  - case_decide; [| done]. subst a. by destruct Hd as [-> | ->].
  - case_decide; [| done]. subst a. by destruct Hd as [-> | ->].
  - case_decide; [by intros [] |]. apply (ok_range _ _ Hok).
  - intros d Ho. rewrite lookup_delete. case_decide; [| by right]. subst d. left.
    destruct Hd as [Hd | Hd]; rewrite Hd in Ho; by simplify_eq.
  - case_decide; [| done]. subst a. by destruct Hd as [-> | ->].
Qed.

(** ** truncate *)

Lemma truncate_ok s own n : mem_ok (heap s) own -> obj_ok s own -> is_Some (nodes s !! n) ->
  exists s' own', truncate n s = Some (tt, s') /\ mem_ok (heap s') own' /\ obj_ok s' own' /\
    fds s' = fds s /\ same_tree s s' /\ others_kept own own'.
Proof.
  intros Hm Hok Hn. unfold truncate. run. destruct (free_data_ok s own n Hm Hok Hn) as (h & Hfree & Hm').
  unfold ret in Hfree. rewrite Hfree. cbv beta iota. change (nd (set_heap h s) n) with (nd s n). set (s' := set_nodes _ (set_heap h s)).
  exists s', (delete (fdata (nd s n)) own). split; [done |]. split; [done |].
  destruct (own_release own s n Hok Hn) as (H1 & H2 & H3 & H4 & H5).
  split; [| split; [done |]; split; [| done]].
  - apply (obj_change s s' own _ n (set_store 0 0 (set_fsize 0 (nd s n))) Hok Hn); try done.
    + by right.
    + intros f Hf. by apply H2, (ok_fd _ _ Hok).
    + intros p d Hd. destruct (H4 p d Hd); [by left | by right].
    + apply (ok_open _ _ Hok).
    + intros p Hp. rewrite (opens_ext s s') by done. case_decide; [| done]. subst p. symmetry. by apply (ok_refs _ _ Hok).
  - split; [done | done | |].
    + intros p. unfold s'. cbn [nodes set_nodes set_heap]. rewrite lookup_insert. case_decide; [| done]. subst. by split.
    + intros p. unfold s'. rewrite nd_insert. by case_decide; [subst |].
Qed.

(** ** close *)

(** [s2] is [s] with the count of node [n] set to [r] and its buffer kept or released. *)
Definition released s own n r s2 own2 v2 : Prop :=
  mem_ok (heap s2) own2 /\
  nodes s2 = <[n := v2]> (nodes s) /\ fds s2 = fds s /\ vfs_root s2 = vfs_root s /\ cwd s2 = cwd s /\
  links v2 = links (nd s n) /\ ops v2 = ops (nd s n) /\ refcount v2 = r /\
  ((fdata v2 = fdata (nd s n) /\ own2 = own) \/ (fdata v2 = 0 /\ own2 = delete (fdata (nd s n)) own)).

Lemma pipe_close_ok s own n : mem_ok (heap s) own -> obj_ok s own -> is_Some (nodes s !! n) -> forall r,
  let s1 := set_nodes (<[n := set_refcount r (nd s n)]> (nodes s)) s in
  exists s2 own2 v2, pipe_close n s1 = Some (tt, s2) /\ released s own n r s2 own2 v2.
Proof.
  intros Hm Hok Hn r s1. unfold pipe_close. run.
  assert (nd s1 n = set_refcount r (nd s n)) as Hnd by (unfold s1; by rewrite nd_insert, decide_True).
  rewrite Hnd. cbn [fdata set_refcount]. destruct (Z.eqb_spec (fdata (nd s n)) 0) as [H0 | H0].
  { exists s1, own, (set_refcount r (nd s n)). split; [done |]. unfold released. split_and!; try done. by left. }
  set (q := fdata (nd s n)) in *. set (s2 := set_pipes _ s1). destruct (pref (pp s2 q) =? 0).
  - destruct (free_ok s2 own q) as (h & -> & Hm'); [done | | ].
    { exists (OData n). exact (ok_data _ _ Hok n Hn H0). }
    eexists _, (delete q own), (set_store 0 (data_capacity (nd s n)) (set_refcount r (nd s n))). split; [done |].
    change (nd (set_pipes (delete q (pipes (set_heap h s2))) (set_heap h s2)) n) with (nd s1 n). rewrite Hnd.
    unfold released. split_and!; try done.
    + cbn [nodes set_nodes set_pipes set_heap s2 s1]. by rewrite insert_insert_eq.
    + by right.
  - exists s2, own, (set_refcount r (nd s n)). split; [done |]. unfold released. split_and!; try done. by left.
Qed.

Variable foreign_close : Z -> M (H := H) unit.
Variable foreign_create : Z -> list Z -> Z -> M (H := H) Z.
Variable foreign_unlink : Z -> list Z -> M (H := H) kStatus.

Lemma u32_pred n : 1 <= n <= 2 ^ 30 -> u32 (n - 1) = n - 1.
Proof. intros. apply u32_small. change (2 ^ 30) with 1073741824 in *. mach. lia. Qed.
Lemma u32_succ n : 0 <= n <= 2 ^ 30 -> u32 (n + 1) = n + 1.
Proof. intros. apply u32_small. change (2 ^ 30) with 1073741824 in *. mach. lia. Qed.

Lemma opens_pos s f d : fds s !! f = Some d -> 1 <= opens s (node d).
Proof.
  intros Hf. pose proof (opens_delete s (node d) f d Hf) as Hd. rewrite decide_True in Hd by done.
  unfold opens in Hd at 1. lia.
Qed.

Lemma close_own s own f : mem_ok (heap s) own -> obj_ok s own -> is_Some (fds s !! f) ->
  exists s' own', close foreign_close f s = Some (tt, s') /\ mem_ok (heap s') own' /\ obj_ok s' own' /\
    fds s' = delete f (fds s) /\ others_kept own own'.
Proof.
  intros Hm Hok [d Hf]. unfold close.
  assert (f <> 0) as Hf0.
  { intros ->. assert (heap_range 0) as Hr by (apply (ok_range _ _ Hok); rewrite (ok_fd _ _ Hok); by eexists).
    unfold heap_range in Hr. lia. }
  rewrite (proj2 (Z.eqb_neq f 0)) by done. run. assert (fd s f = d) as -> by (unfold fd; by rewrite Hf).
  set (n := node d). pose proof (ok_open _ _ Hok f d Hf) as Hn. fold n in Hn.
  rewrite (ok_refs _ _ Hok n Hn).
  pose proof (opens_bound _ _ n Hok) as Hbound. pose proof (opens_pos s f d Hf) as Hpos. fold n in Hpos.
  rewrite u32_pred by lia. set (r := opens s n - 1). set (s1 := set_nodes _ s).
  assert (nd s1 n = set_refcount r (nd s n)) as Hnd1 by (unfold s1; by rewrite nd_insert, decide_True).
  assert (exists s2 own2 v2, ((if refcount (nd s1 n) =? 0 then
      match ops (nd s1 n) with PipeOps => pipe_close n | ForeignOps => foreign_close n | _ => ret tt end else ret tt) : M unit) s1 = Some (tt, s2) /\
    released s own n r s2 own2 v2)
    as (s2 & own2 & v2 & Hclose & Hm2 & Hnodes & Hfds & Hroot & Hcwd & Hl & Hops & Hrc & Hdata).
  { assert (released s own n r s1 own (set_refcount r (nd s n))) as Hid.
    { split_and!; try done. by left. }
    pose proof (pipe_close_ok s own n Hm Hok Hn r) as Hpipe.
    pose proof (ok_native _ _ Hok n Hn) as Hnat. rewrite Hnd1. cbn [refcount ops set_refcount].
    destruct (r =? 0); [destruct (ops (nd s n)) |]; try done; by eexists _, _, _. }
  unfold ret in Hclose. rewrite Hclose. cbv beta iota.
  assert (own2 !! f = Some OFd) as Hf2.
  { pose proof (ok_fd _ _ Hok f ltac:(by eexists)) as Hof. destruct Hdata as [[_ ->] | [_ ->]]; [done |].
    by apply (own_release own s n Hok Hn). }
  destruct (free_ok s2 own2 f Hm2) as (h & -> & Hm3); [by eexists |].
  eexists _, (delete f own2). split; [done |]. cbn [fds set_fds set_heap]. rewrite Hfds. split; [done |].
  assert (forall a o, own2 !! a = Some o -> own !! a = Some o) as Hsub.
  { destruct Hdata as [[_ ->] | [_ ->]]; [done |]. intros a o. rewrite lookup_delete. by case_decide. }
  assert (forall o a, o <> OFd -> own2 !! a = Some o -> delete f own2 !! a = Some o) as Hkeep.
  { intros o a Ho Ha. rewrite lookup_delete_ne; [done |]. intros <-. congruence. }
  split; [| split; [done |]].
  2: { intros a Ha. apply Hkeep; [done |]. destruct Hdata as [[_ ->] | [_ ->]]; [done |]. by apply (own_release own s n Hok Hn). }
  apply (obj_change s _ own _ n v2 Hok Hn); try done.
  - destruct Hdata as [[? _] | [? _]]; auto.
  - intros f'. cbn [fds set_fds]. rewrite lookup_delete. case_decide; [by intros [] |]. intros Hf'.
    rewrite lookup_delete_ne by done. apply (ok_fd _ _ Hok) in Hf'. destruct Hdata as [[_ ->] | [_ ->]]; [done |].
    by apply (own_release own s n Hok Hn).
  - intros p Hp. apply Hkeep; [done |]. destruct Hdata as [[_ ->] | [_ ->]]; [done |]. by apply (own_release own s n Hok Hn).
  - intros a [o Ha]. rewrite lookup_delete in Ha. case_decide; [done |]. apply (ok_range _ _ Hok). exists o. by apply Hsub.
  - intros p b Hb. destruct Hdata as [[_ ->] | [Hv ->]]; [right; by apply Hkeep |].
    destruct (own_release own s n Hok Hn) as (_ & _ & _ & H4 & _). destruct (H4 p b Hb); [by left | right; by apply Hkeep].
  - intros f' d'. cbn [fds set_fds]. rewrite lookup_delete. case_decide; [done |]. apply (ok_open _ _ Hok).
  - intros p Hp. rewrite (opens_ext (set_fds (delete f (fds s)) s)) by done. rewrite (opens_delete s p f d Hf). fold n.
    rewrite Hrc. unfold r. case_decide; [by subst | lia].
Qed.

Lemma close_ok s f : fs_ok s -> is_Some (fds s !! f) ->
  exists s', close foreign_close f s = Some (tt, s') /\ fs_ok s' /\ fds s' = delete f (fds s).
Proof.
  intros (own & Hm & Hok) Hf. destruct (close_own s own f Hm Hok Hf) as (s' & own' & ? & ? & ? & ? & _).
  exists s'. split; [done |]. split; [by exists own' | done].
Qed.

(** ** open and dup *)

Lemma obj_new_fd s s' own n f d : obj_ok s own -> is_Some (nodes s !! n) -> own !! f = None -> heap_range f -> node d = n ->
  nodes s' = <[n := set_refcount (u32 (refcount (nd s n) + 1)) (nd s n)]> (nodes s) ->
  fds s' = <[f := d]> (fds s) -> vfs_root s' = vfs_root s -> cwd s' = cwd s ->
  obj_ok s' (<[f := OFd]> own).
Proof.
  intros Hok Hn Hf Hr Hd Hnodes Hfds Hroot Hcwd.
  assert (fds s !! f = None) as Hnof.
  { apply eq_None_not_Some. intros Hs%(ok_fd _ _ Hok). congruence. }
  assert (forall a o, own !! a = Some o -> <[f := OFd]> own !! a = Some o) as Hkeep.
  { intros a o Ha. rewrite lookup_insert_ne; [done |]. intros ->. congruence. }
  eapply (obj_change s s' own _ n _ Hok Hn Hnodes Hroot Hcwd); try done; rewrite ?Hfds.
  - by left.
  - intros f'. rewrite !lookup_insert. case_decide; [done |]. apply (ok_fd _ _ Hok).
  - auto.
  - intros a. rewrite lookup_insert. case_decide; [by subst | apply (ok_range _ _ Hok)].
  - auto.
  - intros f' d'. rewrite lookup_insert. case_decide; [intros [= <-]; by rewrite Hd | apply (ok_open _ _ Hok)].
  - intros p Hp. rewrite (opens_ext (set_fds (<[f := d]> (fds s)) s)) by done. rewrite opens_insert by done. rewrite Hd.
    cbn [refcount set_refcount]. case_decide; [| lia]. subst p. rewrite (ok_refs _ _ Hok n Hn).
    symmetry. apply u32_succ. by apply (opens_bound _ _ n Hok).
Qed.

Lemma dup_own s own f : mem_ok (heap s) own -> obj_ok s own -> is_Some (fds s !! f) ->
  exists r s' own', dup f s = Some (r, s') /\ mem_ok (heap s') own' /\ obj_ok s' own' /\ others_kept own own' /\
    ((r = Err OutOfMemory /\ fds s' = fds s) \/
     (exists c, r = Ok c /\ fds s !! c = None /\ fds s' = <[c := fd s f]> (fds s))).
Proof.
  intros Hm Hok [d Hf]. unfold dup. assert (fd s f = d) as Hd by (unfold fd; by rewrite Hf).
  destruct (Z.eqb_spec f 0) as [-> | Hf0].
  { assert (heap_range 0) as Hr by (apply (ok_range _ _ Hok); rewrite (ok_fd _ _ Hok); by eexists). unfold heap_range in Hr. lia. }
  run. destruct (malloc_ok s own sizeof_FileDescriptor Hm) as (c & h & -> & Hc); [unfold sizeof_FileDescriptor; lia |].
  cbv beta iota. destruct Hc as [[-> Hm'] | (Hc0 & Hnone & Hr & Hm')].
  - cbn [Z.eqb]. eexists _, _, own. split; [done |]. split; [done |]. split; [| split; [by intros a | by left]].
    apply (obj_keep s _ own own Hok); try done. apply (ok_range _ _ Hok).
  - rewrite (proj2 (Z.eqb_neq c 0)) by done. eexists _, _, (<[c := OFd]> own). split; [done |].
    assert (fds s !! c = None) as Hnof.
    { apply eq_None_not_Some. intros Hs%(ok_fd _ _ Hok). congruence. }
    assert (fd (set_fds (<[c := fd (set_heap h s) f]> (fds (set_heap h s))) (set_heap h s)) f = d) as Hd'.
    { unfold fd. cbn [fds set_fds set_heap]. rewrite lookup_insert_ne by congruence. by rewrite Hf. }
    split; [apply Hm' |]. split; [| split; [| right; by exists c]].
    2: { intros a Ha. rewrite lookup_insert_ne; [done |]. intros ->. congruence. }
    rewrite Hd'. eapply (obj_new_fd s _ own (node d) c (fd s f) Hok); try done; [by apply (ok_open _ _ Hok f) | by rewrite Hd].
Qed.

Lemma dup_ok s f : fs_ok s -> is_Some (fds s !! f) -> exists r s', dup f s = Some (r, s') /\ fs_ok s'.
Proof.
  intros (own & Hm & Hok) Hf. destruct (dup_own s own f Hm Hok Hf) as (r & s' & own' & ? & ? & ? & _).
  exists r, s'. split; [done | by exists own'].
Qed.

(** ** create *)

Definition new_node (leaf : list Z) (ty par next : Z) : VNode :=
  Node (kstrcpy leaf NAME_MAX) ty 0 par 0 next RamfsOps 0 0 0 0.

(** [s'] is [s] with the new node [n] at the head of the entries of [par]. *)
Record linked s s' (par n : Z) (leaf : list Z) (ty : Z) : Prop := {
  lk_nodes : nodes s' = <[par := set_children n (nd s par)]>
    (<[n := new_node leaf ty par (children (nd s par))]> (nodes s));
  lk_fds : fds s' = fds s;
  lk_root : vfs_root s' = vfs_root s;
  lk_cwd : cwd s' = cwd s;
}.

Section linked.
Context s s' par n leaf ty (Hlk : linked s s' par n leaf ty) (Hwf : tree_wf s)
  (Hpar : is_Some (nodes s !! par)) (Hfresh : nodes s !! n = None) (Hn0 : n <> 0)
  (Hdir : type (nd s par) = VFS_TYPE_DIR)
  (Hclash : forall c, entry s par c -> name (nd s c) <> kstrcpy leaf NAME_MAX).

Lemma linked_ne : n <> par.
Proof. intros ->. by rewrite Hfresh in Hpar; destruct Hpar. Qed.

Lemma linked_dom p : is_Some (nodes s' !! p) <-> p = n \/ is_Some (nodes s !! p).
Proof.
  rewrite (lk_nodes _ _ _ _ _ _ Hlk), !lookup_insert. case_decide; [subst; split; [auto | by eexists] |].
  case_decide; [subst; split; [auto | by eexists] |]. split; [auto | by intros [-> |]].
Qed.

Lemma linked_nd p : nd s' p = if decide (p = par) then set_children n (nd s par)
  else if decide (p = n) then new_node leaf ty par (children (nd s par)) else nd s p.
Proof. unfold nd. rewrite (lk_nodes _ _ _ _ _ _ Hlk), !lookup_insert. repeat case_decide; by subst. Qed.

Lemma linked_next p : p <> n -> next_sibling (nd s' p) = next_sibling (nd s p).
Proof. intros Hp. rewrite linked_nd. repeat case_decide; by subst. Qed.
Lemma linked_parent p : p <> n -> parent (nd s' p) = parent (nd s p).
Proof. intros Hp. rewrite linked_nd. repeat case_decide; by subst. Qed.
Lemma linked_name p : p <> n -> name (nd s' p) = name (nd s p).
Proof. intros Hp. rewrite linked_nd. repeat case_decide; by subst. Qed.
Lemma linked_type p : p <> n -> type (nd s' p) = type (nd s p).
Proof. intros Hp. rewrite linked_nd. repeat case_decide; by subst. Qed.
Lemma linked_new : nd s' n = new_node leaf ty par (children (nd s par)).
Proof. rewrite linked_nd, decide_False by apply linked_ne. by rewrite decide_True. Qed.

Lemma linked_chain c l : chain s c l -> chain s' c l.
Proof.
  intros Hc. apply (chain_ext s); [done |]. intros x Hx. destruct (chain_elem _ _ _ _ Hc Hx) as [_ Hs].
  split; [apply linked_dom; by right |]. apply linked_next. intros ->. by rewrite Hfresh in Hs; destruct Hs.
Qed.

Lemma linked_children p : is_Some (nodes s !! p) ->
  exists l, chain s (children (nd s p)) l /\ chain s' (children (nd s' p)) (if decide (p = par) then n :: l else l).
Proof.
  intros Hp. destruct (tw_children _ Hwf p Hp) as [l Hl]. exists l. split; [done |].
  assert (p <> n) by (intros ->; by rewrite Hfresh in Hp; destruct Hp).
  rewrite linked_nd. case_decide as Hpp.
  - subst p. cbn [children set_children chain]. rewrite linked_new. cbn [next_sibling new_node].
    split_and!; [done | done | apply linked_dom; by left | by apply linked_chain].
  - rewrite decide_False by done. by apply linked_chain.
Qed.

Lemma linked_entry p c : is_Some (nodes s !! p) -> entry s' p c <-> entry s p c \/ (p = par /\ c = n).
Proof.
  intros Hp. destruct (linked_children p Hp) as (l & Hl & Hl'). unfold entry. split.
  - intros (l2 & Hl2 & Hc). rewrite (chain_det _ _ _ _ Hl2 Hl') in Hc. case_decide as Hpp.
    + apply elem_of_cons in Hc as [-> | Hc]; [by right | left; by exists l].
    + left; by exists l.
  - intros [(l2 & Hl2 & Hc) | [-> ->]].
    + rewrite (chain_det _ _ _ _ Hl2 Hl) in Hc. eexists. split; [exact Hl' |]. case_decide; [by right | done].
    + eexists. split; [exact Hl' |]. rewrite decide_True by done. by left.
Qed.

Lemma linked_entry_new c : ~ entry s' n c.
Proof.
  intros (l & Hl & Hc). rewrite linked_new in Hl. cbn [children new_node] in Hl.
  destruct l as [| x l]; [by apply elem_of_nil in Hc |]. by destruct Hl as (<- & ? & _).
Qed.

Lemma linked_old p : is_Some (nodes s !! p) -> p <> n.
Proof. intros [v Hv] ->. congruence. Qed.

Lemma linked_wf : tree_wf s'.
Proof.
  pose proof (linked_dom) as Hdom.
  pose proof (linked_entry) as Hent.
  pose proof (linked_entry_new) as Hnew.
  pose proof (linked_new) as Hnd.
  assert (forall p, is_Some (nodes s !! p) -> name (nd s' p) = name (nd s p) /\ type (nd s' p) = type (nd s p) /\
    parent (nd s' p) = parent (nd s p)) as Hold.
  { intros p Hp%linked_old. split_and!; [by eapply linked_name | by eapply linked_type | by eapply linked_parent]. }
  split.
  - apply eq_None_not_Some. rewrite Hdom. intros [? | H0]; [done |]. by rewrite (tw_null _ Hwf) in H0; destruct H0.
  - rewrite (lk_root _ _ _ _ _ _ Hlk). destruct (tw_root _ Hwf) as [Hr Ht].
    destruct (Hold _ Hr) as (_ & -> & _). split; [apply Hdom; by right | done].
  - rewrite (lk_cwd _ _ _ _ _ _ Hlk). destruct (tw_cwd _ Hwf) as [? | [Hr Ht]]; [by left | right].
    destruct (Hold _ Hr) as (_ & -> & _). split; [apply Hdom; by right | done].
  - intros p [-> | Hp]%Hdom.
    + rewrite Hnd. cbn [parent new_node]. intros _. destruct (Hold _ Hpar) as (_ & -> & _).
      split_and!; [apply Hdom; by right | done | apply Hent; [done | by right]].
    + destruct (Hold p Hp) as (_ & _ & ->). intros H0. destruct (tw_parent _ Hwf p Hp H0) as (Hq & Ht & He).
      destruct (Hold _ Hq) as (_ & -> & _). split_and!; [apply Hdom; by right | done | apply Hent; [done | by left]].
  - intros p [-> | Hp]%Hdom.
    + exists []. by rewrite Hnd.
    + destruct (linked_children p Hp) as (l & _ & Hl). by eexists.
  - intros p c [-> | Hp]%Hdom; [by intros []%Hnew |]. rewrite Hent by done.
    intros [He | [-> ->]]; [| by rewrite Hnd]. destruct (entry_node _ _ _ He) as [_ Hc].
    destruct (Hold c Hc) as (_ & _ & ->). by apply (tw_entry _ Hwf).
  - intros p c c' [-> | Hp]%Hdom; [by intros []%Hnew |]. rewrite !Hent by done.
    intros [He | [-> ->]] [He' | [Hq ->]]; rewrite ?Hnd; cbn [name new_node].
    + destruct (Hold c) as (-> & _); [by eapply entry_node |]. destruct (Hold c') as (-> & _); [by eapply entry_node |].
      by apply (tw_names _ Hwf p).
    + subst p. destruct (Hold c) as (-> & _); [by eapply entry_node |]. intros Hc. by destruct (Hclash c He).
    + destruct (Hold c') as (-> & _); [by eapply entry_node |]. intros Hc. by destruct (Hclash c' He').
    + done.
Qed.

Lemma linked_obj own : obj_ok s own -> own !! n = None -> heap_range n -> obj_ok s' (<[n := ONode]> own).
Proof.
  intros Hok Hnone Hr. pose proof (linked_dom) as Hdom.
  pose proof (linked_new) as Hnd.
  assert (forall p, is_Some (nodes s !! p) -> fdata (nd s' p) = fdata (nd s p) /\ ops (nd s' p) = ops (nd s p) /\
    refcount (nd s' p) = refcount (nd s p)) as Hold.
  { intros p Hp%linked_old. rewrite (linked_nd). repeat case_decide; by subst. }
  assert (forall a o, own !! a = Some o -> <[n := ONode]> own !! a = Some o) as Hkeep.
  { intros a o Ha. rewrite lookup_insert_ne; [done |]. intros ->. congruence. }
  split; rewrite ?(lk_fds _ _ _ _ _ _ Hlk).
  - apply linked_wf.
  - intros p [-> | Hp]%Hdom; [right; by rewrite lookup_insert_eq |]. destruct (ok_node _ _ Hok p Hp); [by left | right; auto].
  - intros f Hf. by apply Hkeep, (ok_fd _ _ Hok).
  - intros a. rewrite lookup_insert. case_decide; [by subst | apply (ok_range _ _ Hok)].
  - intros p [-> | Hp]%Hdom; [by rewrite Hnd |]. destruct (Hold p Hp) as (-> & _). intros H0. by apply Hkeep, (ok_data _ _ Hok).
  - intros f d Hf. apply Hdom. right. by apply (ok_open _ _ Hok f).
  - intros p Hp. rewrite (opens_ext s s' p (lk_fds _ _ _ _ _ _ Hlk)). apply Hdom in Hp as [-> | Hp].
    + rewrite Hnd. cbn [refcount new_node]. symmetry. apply opens_none.
      intros f d Hf Hd. pose proof (ok_open _ _ Hok f d Hf) as Hs. rewrite Hd in Hs.
      by rewrite Hfresh in Hs; destruct Hs.
    + destruct (Hold p Hp) as (_ & _ & ->). by apply (ok_refs _ _ Hok).
  - intros p [-> | Hp]%Hdom; [by rewrite Hnd |]. destruct (Hold p Hp) as (_ & -> & _). by apply (ok_native _ _ Hok).
Qed.

(** Every path that led somewhere still does. *)
Lemma linked_leads a l b : is_Some (nodes s !! a) -> leads_to s a l b -> leads_to s' a l b.
Proof.
  intros Ha Hl. revert Ha. induction Hl as [| | a l b Hp _ IH | a l b Hp _ IH | a c l b comp Hd Hdd Ht He Hc _ IH]; intros Ha.
  - constructor.
  - constructor. auto.
  - pose proof (linked_parent a (linked_old a Ha)) as Hp'. apply lt_up; rewrite Hp'; [done |].
    apply IH. by apply (tw_parent _ Hwf a Ha).
  - apply lt_top; [| auto]. by rewrite (linked_parent a (linked_old a Ha)).
  - pose proof (entry_node _ _ _ He) as [_ Hcn]. apply (lt_name _ a c); [done | done | | | | auto].
    + by rewrite (linked_type a (linked_old a Ha)).
    + apply (linked_entry a c Ha). by left.
    + by rewrite (linked_name c (linked_old c Hcn)).
Qed.
End linked.

(** ** The parent of a path *)

Lemma last_slash_snoc p c : last_slash (p ++ [c]) = if c =? slash then Some (length p) else last_slash p.
Proof.
  unfold last_slash. rewrite length_app. cbn [length]. rewrite Nat.add_1_r, seq_S, foldl_app. cbn [foldl Nat.add].
  rewrite list_lookup_middle by done. destruct (c =? slash); [done |].
  assert (forall k o, (k <= length p)%nat -> foldl (fun o i => match (p ++ [c]) !! i with Some c => if c =? slash then Some i else o | None => o end) o (seq 0 k) =
    foldl (fun o i => match p !! i with Some c => if c =? slash then Some i else o | None => o end) o (seq 0 k)) as Hk.
  { induction k as [| k IH]; intros o Hk; [done |]. rewrite seq_S, !foldl_app. cbn [foldl Nat.add].
    rewrite IH by lia. by rewrite lookup_app_l by lia. }
  by apply Hk.
Qed.

Lemma last_slash_spec path :
  match last_slash path with
  | None => slash ∉ path
  | Some i => exists p1 p2, path = p1 ++ slash :: p2 /\ (slash ∉ p2) /\ i = length p1
  end.
Proof.
  induction path as [| c path IH] using rev_ind; [by apply not_elem_of_nil |].
  rewrite last_slash_snoc. destruct (Z.eqb_spec c slash) as [-> | Hc].
  - exists path, []. split_and!; [done | by apply not_elem_of_nil | done].
  - destruct (last_slash path) as [i |].
    + destruct IH as (p1 & p2 & -> & Hp2 & ->). exists p1, (p2 ++ [c]). rewrite <- app_assoc. split_and!; [done | | done].
      rewrite elem_of_app, list_elem_of_singleton. intros [? | ?]; [done | congruence].
    + rewrite elem_of_app, list_elem_of_singleton. intros [? | ?]; [done | congruence].
Qed.

(** What [resolve_parent] splits a path into: the directory part and the leaf. *)
Definition dir_part (path : list Z) : list Z :=
  match last_slash path with
  | None => []
  | Some i => take (if bool_decide (i = 0%nat) then 1%nat else i) path
  end.
Definition leaf_part (path : list Z) : list Z :=
  match last_slash path with None => path | Some i => drop (i + 1) path end.

Lemma resolve_parent_eq s path : (length path <= 255)%nat ->
  resolve_parent path NAME_MAX s =
  match last_slash path with
  | None => Some ((get_cwd s, kstrcpy (leaf_part path) NAME_MAX), s)
  | Some _ => n ← resolve_internal (dir_part path) s; Some ((n, kstrcpy (leaf_part path) NAME_MAX), s)
  end.
Proof.
  intros Hl. unfold resolve_parent, dir_part, leaf_part. pose proof (last_slash_spec path) as Hs.
  destruct (last_slash path) as [i |]; [| done]. destruct Hs as (p1 & p2 & -> & _ & ->).
  rewrite length_app in Hl. simpl in Hl.
  rewrite (proj2 (Z.ltb_ge 255 _)); [done |]. case_bool_decide; lia.
Qed.

Lemma resolve_parent_total s path : tree_wf s -> (length path <= 255)%nat ->
  exists par, resolve_parent path NAME_MAX s = Some ((par, kstrcpy (leaf_part path) NAME_MAX), s) /\
    (par = 0 \/ is_Some (nodes s !! par)).
Proof.
  intros Hwf Hl. rewrite resolve_parent_eq by done. destruct (last_slash path) as [i |].
  - destruct (lookup_total s (dir_part path) Hwf) as (n & -> & Hn). exists n. by split.
  - destruct (start_node s false Hwf) as (_ & _ & Hn). exists (get_cwd s). split; [done | by right].
Qed.

(** What a successful [create_internal] does. *)
Definition created s s' path ty n : Prop :=
  exists par leaf, resolve_parent path NAME_MAX s = Some ((par, leaf), s) /\ leaf = kstrcpy (leaf_part path) NAME_MAX /\
    is_Some (nodes s !! par) /\ type (nd s par) = VFS_TYPE_DIR /\
    (forall c, entry s par c -> name (nd s c) <> kstrcpy leaf NAME_MAX) /\
    nodes s !! n = None /\ n <> 0 /\ linked s s' par n leaf ty.

Lemma kstrcpy_idem l : kstrcpy (kstrcpy l NAME_MAX) NAME_MAX = kstrcpy l NAME_MAX.
Proof. unfold kstrcpy. by rewrite take_take, Nat.min_id. Qed.

Lemma add_child_run s par c : par <> c -> add_child par c s =
  Some (tt, set_nodes (<[par := set_children c (nd s par)]> (<[c := set_link par (children (nd s par)) (nd s c)]> (nodes s))) s).
Proof. intros Hne. unfold add_child. run. do 2 f_equal. by rewrite nd_insert, decide_False by done. Qed.

Lemma create_internal_from base s path ty : fs_from base s -> (length path <= 255)%nat ->
  exists n s', create_internal foreign_create path ty s = Some (n, s') /\ fs_from base s' /\
    ((n = 0 /\ nodes s' = nodes s /\ fds s' = fds s /\ vfs_root s' = vfs_root s /\ cwd s' = cwd s) \/ created s s' path ty n).
Proof.
  intros (own & Hm & Hok & Hkeep) Hlen. pose proof (ok_tree _ _ Hok) as Hwf.
  destruct (resolve_parent_total s path Hwf Hlen) as (par & Hrp & Hp). unfold create_internal, created.
  rewrite Hrp. set (leaf := kstrcpy (leaf_part path) NAME_MAX). unfold alloc_vnode. run. rewrite Hrp. cbv beta iota. fold leaf.
  assert (forall h, mem_ok h own -> fs_from base (set_heap h s)) as Hsame.
  { intros h Hh. exists own. split_and!; [done | | done]. apply (obj_keep s _ own own Hok); try done. apply (ok_range _ _ Hok). }
  assert (fs_from base s) as Hfs by (by exists own).
  destruct (Z.eqb_spec par 0) as [-> | Hpar0]; cbn [orb].
  { eexists _, s. split; [done |]. split; [done | by left]. }
  destruct Hp as [? | Hpar]; [done |]. destruct (Z.eqb_spec (type (nd s par)) VFS_TYPE_DIR) as [Hdir | ?]; cbn [negb].
  2: { eexists _, s. split; [done |]. split; [done | by left]. }
  destruct (find_entry s par leaf Hwf Hpar) as (r & -> & Hr). cbv beta iota. destruct r as [c |].
  { eexists _, s. split; [done |]. split; [done | by left]. }
  rewrite decide_False by (by apply (ok_native _ _ Hok)).
  destruct (malloc_ok s own sizeof_VNode Hm) as (n & h & -> & Hn); [unfold sizeof_VNode; lia |]. cbv beta iota.
  destruct Hn as [[-> Hm'] | (Hn0 & Hnone & Hrange & Hm')].
  { cbn [Z.eqb]. cbv beta iota. eexists _, _. split; [done |]. split; [by apply Hsame | by left]. }
  rewrite (proj2 (Z.eqb_neq n 0)) by done. cbv beta iota. rewrite (proj2 (Z.eqb_neq n 0)) by done. cbv beta iota.
  rewrite (proj2 (Z.eqb_neq n 0)) by done. cbv beta iota.
  assert (nodes s !! n = None) as Hfresh.
  { apply eq_None_not_Some. intros Hs. destruct (ok_node _ _ Hok n Hs) as [-> | ?]; [| congruence].
    unfold heap_range, tty_ptr in Hrange. lia. }
  assert (n <> par) as Hne by (intros ->; rewrite Hfresh in Hpar; by destruct Hpar).
  rewrite nd_insert, decide_True by done. set (s1 := set_nodes _ (set_nodes _ (set_heap h s))).
  assert (nodes s1 = <[n := Node (kstrcpy leaf NAME_MAX) ty 0 0 0 0 RamfsOps 0 0 0 0]> (nodes s)) as Hs1.
  { unfold s1. cbn [nodes set_nodes set_heap]. by rewrite insert_insert_eq. }
  pose proof (fun q => nd_alter s s1 n _ q Hs1) as Hnd1.
  rewrite add_child_run, !Hnd1, decide_False, decide_True, Hs1 by done. cbv beta iota. set (s' := set_nodes _ s1).
  assert (linked s s' par n leaf ty) as Hlk.
  { split; [| done | done | done]. unfold s'. cbn [nodes set_nodes]. by rewrite insert_insert_eq. }
  exists n, s'. split; [done |].
  assert (mem_ok (heap s') (<[n := ONode]> own)) as Hms by apply Hm'.
  assert (forall c, entry s par c -> name (nd s c) <> kstrcpy leaf NAME_MAX) as Hclash.
  { intros c Hc. unfold leaf. rewrite kstrcpy_idem. by apply Hr. }
  clearbody s'. split.
  - apply (fs_from_step base own (<[n := ONode]> own)); [done | by apply others_insert | done | by eapply linked_obj].
  - right. exists par, leaf. by split_and!.
Qed.

Lemma create_internal_ok s path ty : fs_ok s -> (length path <= 255)%nat ->
  exists n s', create_internal foreign_create path ty s = Some (n, s') /\ fs_ok s' /\
    ((n = 0 /\ nodes s' = nodes s /\ fds s' = fds s /\ vfs_root s' = vfs_root s /\ cwd s' = cwd s) \/ created s s' path ty n).
Proof. setoid_rewrite fs_ok_from. apply create_internal_from. Qed.

(** ** A created path resolves to the new node *)

Lemma words_app p1 p2 : words (p1 ++ slash :: p2) = words p1 ++ words p2.
Proof.
  induction p1 as [| c p1 IH]; [done |]. cbn [app words]. rewrite IH. destruct (c =? slash); [done |].
  destruct (words_cons p1) as (w & ws & ->). done.
Qed.

Lemma components_app p1 p2 : components (p1 ++ slash :: p2) = components p1 ++ components p2.
Proof. unfold components. by rewrite words_app, filter_app. Qed.

Lemma components_leaf p : slash ∉ p -> p <> [] -> components p = [p].
Proof.
  intros Hs Hne. assert (words p = [p]) as Hw.
  { clear Hne. induction p as [| c p IH]; [done |]. apply not_elem_of_cons in Hs as [Hc Hs]. cbn [words].
    rewrite (proj2 (Z.eqb_neq c slash)) by congruence. by rewrite IH. }
  unfold components. by rewrite Hw, filter_cons_True.
Qed.

Lemma leads_to_app s a l1 b l2 c : leads_to s a l1 b -> leads_to s b l2 c -> leads_to s a (l1 ++ l2) c.
Proof.
  intros H1 H2. induction H1 as [| | | | a d l b comp Hd Hdd Ht He Hc _ IH]; simpl;
    [done | constructor; auto | apply lt_up; auto | apply lt_top; auto |].
  apply (lt_name _ a d); auto.
Qed.

Lemma leads_to_det s a l b c : tree_wf s -> is_Some (nodes s !! a) -> leads_to s a l b -> leads_to s a l c -> b = c.
Proof.
  intros Hwf Ha H1. revert Ha c. induction H1 as [| a l b _ IH | a l b Hp _ IH | a l b Hp _ IH | a d l b comp Hd Hdd Ht He Hc _ IH]; intros Ha c0 H2.
  - by inversion H2.
  - inversion H2; subst; [by apply IH | done].
  - inversion H2; subst; [| done | done]. apply IH; [| done]. by apply (tw_parent _ Hwf).
  - inversion H2; subst; [done | by apply IH | done].
  - inversion H2 as [| | | | ? d' ? ? ? _ _ _ He' Hc' Hl]; subst; try done.
    assert (d' = d) as -> by (by apply (tw_names _ Hwf a)). apply IH; [| done]. by eapply entry_node.
Qed.

(** The walk finds the node a path leads to. *)
Lemma resolve_leads s path n : tree_wf s -> path <> [] -> short path ->
  leads_to s (starts_at s path) (components path) n -> is_Some (nodes s !! n) ->
  resolve path s = Some (Ok n, s).
Proof.
  intros Hwf Hne Hs Hl Hn. unfold resolve, lookup. run. rewrite (resolve_walk s path Hwf Hne Hs).
  destruct (starts_at_node s path Hwf Hne) as [H0 Ha].
  destruct (walk_leads s (components path) _ Hwf Ha H0) as (r & -> & [(Hr & _ & Hlr) | (_ & Hno)]); [| by destruct (Hno n)].
  rewrite (leads_to_det _ _ _ _ _ Hwf Ha Hlr Hl) in *. by rewrite (proj2 (Z.eqb_neq n 0)).
Qed.

Lemma resolve_inv s path n : tree_wf s -> path <> [] -> short path -> resolve path s = Some (Ok n, s) ->
  is_Some (nodes s !! n) /\ leads_to s (starts_at s path) (components path) n.
Proof.
  intros Hwf Hne Hs. unfold resolve, lookup. run. rewrite (resolve_walk s path Hwf Hne Hs).
  destruct (starts_at_node s path Hwf Hne) as [H0 Ha].
  destruct (walk_leads s (components path) _ Hwf Ha H0) as (r & -> & [(Hr & Hn & Hlr) | (-> & _)]); [| done].
  rewrite (proj2 (Z.eqb_neq r 0)) by done. by intros [= <-].
Qed.

Lemma components_dir_leaf path : leaf_part path <> [] ->
  match last_slash path with Some _ => components path = components (dir_part path) ++ [leaf_part path]
                        | None => components path = [leaf_part path] end.
Proof.
  unfold leaf_part, dir_part. pose proof (last_slash_spec path) as Hs. destruct (last_slash path) as [i |].
  - destruct Hs as (p1 & p2 & -> & Hp2 & ->). rewrite Nat.add_1_r.
    replace (drop (S (length p1)) (p1 ++ slash :: p2)) with p2; [intros Hne |].
    2: { change (slash :: p2) with ([slash] ++ p2). rewrite app_assoc, drop_app_length'; [done |]. rewrite length_app. simpl. lia. }
    rewrite components_app, (components_leaf p2) by done. f_equal. case_bool_decide as H0.
    + destruct p1; [| done]. done.
    + by rewrite take_app_length.
  - intros Hne. by apply components_leaf.
Qed.

Lemma starts_at_dir s path : last_slash path <> None -> starts_at s path = starts_at s (dir_part path) /\ dir_part path <> [].
Proof.
  unfold dir_part. pose proof (last_slash_spec path) as Hs. destruct (last_slash path) as [i |]; [| done].
  intros _. destruct Hs as (p1 & p2 & -> & _ & ->). case_bool_decide as H0.
  - by destruct p1.
  - rewrite take_app_length. by destruct p1.
Qed.

(** The directory part of the path of a created node leads to its directory. *)
Lemma parent_leads s path par leaf : tree_wf s -> short path -> leaf_part path <> [] -> (length path <= 255)%nat ->
  resolve_parent path NAME_MAX s = Some ((par, leaf), s) -> is_Some (nodes s !! par) ->
  exists l, components path = l ++ [leaf_part path] /\ leads_to s (starts_at s path) l par.
Proof.
  intros Hwf Hs Hne Hlen Hrp Hpar. rewrite resolve_parent_eq in Hrp by done.
  pose proof (components_dir_leaf path Hne) as Hc. destruct (last_slash path) as [i |] eqn:Hls.
  - exists (components (dir_part path)). split; [done |].
    destruct (starts_at_dir s path) as [-> Hd]; [by rewrite Hls |].
    assert (short (dir_part path)) as Hsd.
    { unfold short in *. rewrite Hc in Hs. by apply Forall_app in Hs as [? _]. }
    rewrite (resolve_walk s _ Hwf Hd Hsd) in Hrp. destruct (starts_at_node s (dir_part path) Hwf Hd) as [H0 Ha].
    destruct (walk_leads s (components (dir_part path)) _ Hwf Ha H0) as (r & Hw & Hr). rewrite Hw in Hrp.
    run_in Hrp. injection Hrp as <- _. destruct Hr as [(_ & _ & ?) | (-> & _)]; [done |].
    rewrite (tw_null _ Hwf) in Hpar. by destruct Hpar.
  - exists []. split; [done |]. injection Hrp as <- _. pose proof (last_slash_spec path) as Hsp. rewrite Hls in Hsp.
    destruct path as [| c path]; [by destruct Hne |]. cbn [starts_at].
    rewrite (proj2 (Z.eqb_neq c slash)); [constructor |]. intros ->. apply Hsp. by left.
Qed.

Lemma kstrcpy_short l : (length l <= 127)%nat -> kstrcpy l NAME_MAX = l.
Proof. intros Hl. unfold kstrcpy. apply take_ge. unfold NAME_MAX. lia. Qed.

(** C29: create/resolve round trip.  When [create] of a path with a proper last
    component succeeds, the path resolves to the node it returned, which is an
    empty ramfs node of that type and name, and every path that resolved before
    resolves to the same node. *)
Theorem create_then_resolve s path ty n s' : fs_ok s -> (length path <= 255)%nat -> short path ->
  leaf_part path <> [] -> leaf_part path <> dot -> leaf_part path <> dotdot ->
  create foreign_create path ty s = Some (Ok n, s') ->
  fs_ok s' /\ resolve path s' = Some (Ok n, s') /\
  name (nd s' n) = leaf_part path /\ type (nd s' n) = ty /\ fsize (nd s' n) = 0 /\
  (forall path' q, path' <> [] -> short path' -> resolve path' s = Some (Ok q, s) -> resolve path' s' = Some (Ok q, s')).
Proof.
  intros Hfs Hlen Hs Hl0 Hl1 Hl2. unfold create. run.
  destruct (create_internal_ok s path ty Hfs Hlen) as (n' & s1 & -> & Hfs' & Hr). cbv beta iota.
  destruct Hr as [(-> & _) | (par & leaf & Hrp & -> & Hpar & Hdir & Hclash & Hfresh & Hn0 & Hlk)]; [done |].
  rewrite (proj2 (Z.eqb_neq n' 0)) by done. intros [= -> ->]. split; [done |].
  destruct Hfs as (own & _ & Hok). pose proof (ok_tree _ _ Hok) as Hwf.
  pose proof (linked_wf _ _ _ _ _ _ Hlk Hwf Hpar Hfresh Hn0 Hdir Hclash) as Hwf'.
  assert (path <> []) as Hpne by (by intros ->).
  destruct (parent_leads s path par _ Hwf Hs Hl0 Hlen Hrp Hpar) as (l & Hcomp & Hlead).
  assert (length (leaf_part path) <= 127)%nat as Hlen'.
  { unfold short in Hs. rewrite Hcomp in Hs. by apply Forall_app in Hs as [_ [Hs _]%Forall_cons]. }
  rewrite (kstrcpy_short (leaf_part path)) in * by done.
  assert (forall p, starts_at s' p = starts_at s p) as Hst.
  { intros [| c p]; [done |]. unfold starts_at, get_cwd.
    by rewrite (lk_root _ _ _ _ _ _ Hlk), (lk_cwd _ _ _ _ _ _ Hlk). }
  assert (nd s' n = new_node (leaf_part path) ty par (children (nd s par))) as Hnew by (by eapply linked_new).
  rewrite Hnew. cbn [name type fsize new_node]. rewrite kstrcpy_short by done.
  split_and!; try done.
  - apply (resolve_leads s'); [done | done | done | |].
    + rewrite Hst, Hcomp. eapply leads_to_app.
      * eapply (linked_leads _ _ _ _ _ _ Hlk); try done. by apply starts_at_node.
      * apply (lt_name _ par n); try done.
        -- rewrite (linked_type _ _ _ _ _ _ Hlk); try done. intros ->. rewrite Hfresh in Hpar. by destruct Hpar.
        -- apply (linked_entry _ _ _ _ _ _ Hlk Hwf Hpar Hfresh Hn0 Hdir Hclash par n Hpar). by right.
        -- rewrite Hnew. cbn [name new_node]. by rewrite kstrcpy_short.
        -- constructor.
    + eapply linked_dom; [done .. |]. by left.
  - intros path' q Hne' Hs' Hq. destruct (resolve_inv s path' q Hwf Hne' Hs' Hq) as [Hqn Hql].
    apply (resolve_leads s'); [done | done | done | |].
    + rewrite Hst. eapply (linked_leads _ _ _ _ _ _ Hlk); try done. by apply starts_at_node.
    + eapply linked_dom; [done .. |]. by right.
Qed.

(** ** unlink *)

Lemma chain_head s c x l : chain s c (x :: l) -> c = x.
Proof. by intros (? & _). Qed.

Lemma find_prev_chain fuel s c l0 prev n l2 : chain s c (l0 ++ prev :: n :: l2) -> (length (l0 ++ prev :: n :: l2) < fuel)%nat ->
  find_prev fuel s c n = Some prev.
Proof.
  intros Hc. pose proof (chain_NoDup _ _ _ Hc) as Hnd. revert c fuel Hc Hnd.
  induction l0 as [| x l0 IH]; intros c [| fuel] Hc Hnd Hf; simpl in Hf; try lia; cbn [find_prev].
  - destruct Hc as (-> & H0 & _ & Hc). rewrite (proj2 (Z.eqb_neq prev 0)) by done.
    rewrite (chain_head _ _ _ _ Hc), Z.eqb_refl. done.
  - destruct Hc as (-> & H0 & _ & Hc). rewrite (proj2 (Z.eqb_neq x 0)) by done.
    apply NoDup_cons in Hnd as [_ Hnd].
    rewrite (proj2 (Z.eqb_neq (next_sibling (nd s x)) n)); [apply IH; [done | done | lia] |].
    intros Hx. rewrite Hx in Hc. destruct l0 as [| y l0]; simpl in Hc, Hnd; destruct Hc as (<- & _).
    + apply NoDup_cons in Hnd as [Hni _]. apply Hni. by left.
    + apply NoDup_cons in Hnd as [Hni _]. apply Hni. apply elem_of_app. right. right. by left.
Qed.

(** [n] taken out of the chain behind [prev]. *)
Lemma chain_splice s s' c l0 prev n l2 : chain s c (l0 ++ prev :: n :: l2) ->
  (forall x, x ∈ l0 ++ prev :: l2 -> is_Some (nodes s' !! x)) ->
  (forall x, x ∈ l0 ++ l2 -> next_sibling (nd s' x) = next_sibling (nd s x)) ->
  next_sibling (nd s' prev) = next_sibling (nd s n) -> chain s' c (l0 ++ prev :: l2).
Proof.
  revert c. induction l0 as [| x l0 IH]; intros c Hc Hdom Hnext Hp.
  - destruct Hc as (-> & H0 & _ & Hc). destruct Hc as (_ & _ & _ & Hc). simpl.
    split_and!; [done | done | apply Hdom; by left |]. rewrite Hp. apply (chain_ext s); [done |].
    intros x Hx. split; [apply Hdom; by right | by apply Hnext].
  - destruct Hc as (-> & H0 & _ & Hc). simpl. split_and!; [done | done | apply Hdom; by left |].
    rewrite (Hnext x) by (by left). apply IH; [done | | | done]; intros y Hy; [apply Hdom | apply Hnext]; by right.
Qed.

(** [s'] is [s] without the node [n]. *)
Record unlinked s s' (n : Z) : Prop := {
  ul_dom : forall p, is_Some (nodes s' !! p) <-> is_Some (nodes s !! p) /\ p <> n;
  ul_same : forall p, p <> n -> name (nd s' p) = name (nd s p) /\ type (nd s' p) = type (nd s p) /\
    parent (nd s' p) = parent (nd s p) /\ ops (nd s' p) = ops (nd s p) /\ fdata (nd s' p) = fdata (nd s p) /\
    refcount (nd s' p) = refcount (nd s p);
  ul_chain : forall p l, p <> n -> is_Some (nodes s !! p) -> chain s (children (nd s p)) l ->
    chain s' (children (nd s' p)) (filter (fun x => x <> n) l);
  ul_fds : fds s' = fds s;
  ul_root : vfs_root s' = vfs_root s;
  ul_cwd : cwd s' = cwd s;
}.

Lemma unlinked_entry s s' n p c : tree_wf s -> unlinked s s' n -> p <> n -> is_Some (nodes s !! p) ->
  entry s' p c <-> entry s p c /\ c <> n.
Proof.
  intros Hwf Hu Hpn Hp. destruct (tw_children _ Hwf p Hp) as [l Hl]. pose proof (ul_chain _ _ _ Hu p l Hpn Hp Hl) as Hl'.
  unfold entry. split.
  - intros (l2 & Hl2 & Hc). rewrite (chain_det _ _ _ _ Hl2 Hl') in Hc. apply list_elem_of_filter in Hc as [? ?].
    split; [by exists l | done].
  - intros [(l2 & Hl2 & Hc) Hcn]. rewrite (chain_det _ _ _ _ Hl2 Hl) in Hc. eexists. split; [done |].
    by apply list_elem_of_filter.
Qed.

Lemma unlinked_wf s s' n : tree_wf s -> unlinked s s' n -> type (nd s n) <> VFS_TYPE_DIR -> tree_wf s'.
Proof.
  intros Hwf Hu Ht. pose proof (ul_dom _ _ _ Hu) as Hdom. pose proof (ul_same _ _ _ Hu) as Hsame.
  pose proof (fun p c => unlinked_entry s s' n p c Hwf Hu) as Hent.
  split.
  - apply eq_None_not_Some. rewrite Hdom, (tw_null _ Hwf). by intros [[] _].
  - rewrite (ul_root _ _ _ Hu), Hdom. destruct (tw_root _ Hwf) as [? Hr].
    assert (vfs_root s <> n) as Hn by (intros Hn; by rewrite Hn in Hr). destruct (Hsame _ Hn) as (_ & -> & _). done.
  - rewrite (ul_cwd _ _ _ Hu), Hdom. destruct (tw_cwd _ Hwf) as [? | [? Hr]]; [by left | right].
    assert (cwd s <> n) as Hn by (intros Hn; by rewrite Hn in Hr). destruct (Hsame _ Hn) as (_ & -> & _). done.
  - intros p [Hp Hpn]%Hdom. destruct (Hsame p Hpn) as (_ & _ & -> & _). intros H0.
    destruct (tw_parent _ Hwf p Hp H0) as (Hq & Hqt & He).
    assert (parent (nd s p) <> n) as Hn by (intros Hn; by rewrite Hn in Hqt).
    rewrite Hdom, (Hent _ _ Hn Hq). by destruct (Hsame _ Hn) as (_ & -> & _).
  - intros p [Hp Hpn]%Hdom. destruct (tw_children _ Hwf p Hp) as [l Hl]. eexists. by eapply (ul_chain _ _ _ Hu).
  - intros p c [Hp Hpn]%Hdom. rewrite (Hent _ _ Hpn Hp). intros [He Hcn]. destruct (Hsame c Hcn) as (_ & _ & -> & _).
    by apply (tw_entry _ Hwf).
  - intros p c c' [Hp Hpn]%Hdom. rewrite !(Hent _ _ Hpn Hp). intros [He Hcn] [He' Hcn'].
    destruct (Hsame c Hcn) as (-> & _). destruct (Hsame c' Hcn') as (-> & _). by apply (tw_names _ Hwf p).
Qed.

Lemma unlinked_obj s s' own n : obj_ok s own -> unlinked s s' n -> is_Some (nodes s !! n) -> n <> tty_ptr ->
  type (nd s n) <> VFS_TYPE_DIR -> refcount (nd s n) = 0 ->
  obj_ok s' (delete n (delete (fdata (nd s n)) own)).
Proof.
  intros Hok Hu Hn Htty Ht Hrc. pose proof (ul_dom _ _ _ Hu) as Hdom. pose proof (ul_same _ _ _ Hu) as Hsame.
  destruct (own_release own s n Hok Hn) as (H1 & H2 & H3 & H4 & _). set (own1 := delete (fdata (nd s n)) own) in *.
  assert (own1 !! n = Some ONode) as Hown by (apply H1; by destruct (ok_node _ _ Hok n Hn)).
  assert (forall a o, o <> ONode -> own1 !! a = Some o -> delete n own1 !! a = Some o) as Hkeep.
  { intros a o Ho Ha. rewrite lookup_delete_ne; [done |]. intros <-. congruence. }
  split; rewrite ?(ul_fds _ _ _ Hu).
  - by apply (unlinked_wf s s' n (ok_tree _ _ Hok)).
  - intros p [Hp Hpn]%Hdom. destruct (ok_node _ _ Hok p Hp); [by left | right]. rewrite lookup_delete_ne by done. by apply H1.
  - intros f Hf. apply Hkeep; [done |]. by apply H2, (ok_fd _ _ Hok).
  - intros a. rewrite lookup_delete. case_decide; [by intros [] | apply H3].
  - intros p [Hp Hpn]%Hdom. destruct (Hsame p Hpn) as (_ & _ & _ & _ & -> & _). intros H0.
    destruct (H4 p _ (ok_data _ _ Hok p Hp H0)); [done |]. by apply Hkeep.
  - intros f d Hf. apply Hdom. split; [by apply (ok_open _ _ Hok f) |]. apply (opens_zero s n f d); [| done].
    by rewrite <- (ok_refs _ _ Hok n Hn).
  - intros p [Hp Hpn]%Hdom. rewrite (opens_ext s s') by apply (ul_fds _ _ _ Hu).
    destruct (Hsame p Hpn) as (_ & _ & _ & _ & _ & ->). by apply (ok_refs _ _ Hok).
  - intros p [Hp Hpn]%Hdom. destruct (Hsame p Hpn) as (_ & _ & _ & -> & _). by apply (ok_native _ _ Hok).
Qed.

Lemma filter_ne_id (n : Z) (l : list Z) : n ∉ l -> filter (fun x => x <> n) l = l.
Proof.
  induction l as [| x l IH]; [done |]. intros [Hx Hl]%not_elem_of_cons.
  rewrite filter_cons_True by congruence. by rewrite IH.
Qed.
Lemma filter_ne_split (n : Z) (l1 l2 : list Z) : NoDup (l1 ++ n :: l2) -> filter (fun x => x <> n) (l1 ++ n :: l2) = l1 ++ l2.
Proof.
  intros (_ & Hd & [Hn _]%NoDup_cons)%NoDup_app. rewrite filter_app, filter_cons_False by auto.
  rewrite !filter_ne_id; [done | done |]. intros Hx. apply (Hd n Hx). by left.
Qed.

(** The chain of a directory other than that of [n] does not meet the change. *)
Lemma chain_elsewhere s s' par n z v p l : tree_wf s -> is_Some (nodes s !! p) -> p <> par ->
  chain s (children (nd s p)) l -> parent (nd s n) = par -> (z = par /\ next_sibling v = next_sibling (nd s par)) \/ parent (nd s z) = par ->
  nodes s' = delete n (<[z := v]> (nodes s)) ->
  chain s' (children (nd s p)) (filter (fun x => x <> n) l).
Proof.
  intros Hwf Hp Hpp Hl Hn Hz Hnodes.
  assert (forall x, x ∈ l -> x <> n /\ parent (nd s x) <> par) as Hx.
  { intros x Hx. assert (parent (nd s x) = p) as Hpx by (apply (tw_entry _ Hwf); [done | by exists l]).
    split; [intros ->; congruence | congruence]. }
  rewrite filter_ne_id by (intros Hin; by apply (Hx n)).
  apply (chain_ext s); [done |]. intros x Hxl. destruct (Hx x Hxl) as [Hxn Hxp].
  destruct (chain_elem _ _ _ _ Hl Hxl) as [_ [w Hw]].
  unfold nd at 1. rewrite Hnodes, lookup_delete_ne, lookup_insert by done. case_decide as Hzx.
  - subst x. destruct Hz as [[-> Hv] | ?]; [| done]. cbn. by rewrite Hv.
  - unfold nd. rewrite Hw. by split.
Qed.

(** What [detach] does: it relinks one node [z], the directory or a sibling. *)
Lemma detach_ok s par n : tree_wf s -> is_Some (nodes s !! n) -> parent (nd s n) = par -> par <> 0 ->
  type (nd s n) <> VFS_TYPE_DIR ->
  exists z v, detach par n s = Some (tt, set_nodes (<[z := v]> (nodes s)) s) /\ is_Some (nodes s !! z) /\ z <> n /\
    ((z = par /\ v = set_children (next_sibling (nd s n)) (nd s z)) \/
     (parent (nd s z) = par /\ v = set_next (next_sibling (nd s n)) (nd s z))) /\
    forall s' l, nodes s' = delete n (<[z := v]> (nodes s)) -> chain s (children (nd s par)) l ->
      chain s' (children (nd s' par)) (filter (fun x => x <> n) l).
Proof.
  intros Hwf Hn Hpar Hp0 Htn. subst par. destruct (tw_parent _ Hwf n Hn Hp0) as (Hq & Ht & He).
  set (par := parent (nd s n)) in *. destruct He as (l & Hl & Hnl).
  pose proof (chain_NoDup _ _ _ Hl) as HND.
  assert (forall x, x ∈ l -> parent (nd s x) = par) as Hxp by (intros x Hx; apply (tw_entry _ Hwf); [done | by exists l]).
  assert (n <> par) as Hne by congruence.
  unfold detach. run. pose proof (chain_length _ _ _ Hl) as Hfuel.
  apply list_elem_of_split in Hnl as (l1 & l2 & ->).
  destruct l1 as [| prev l0 _] using rev_ind.
  - pose proof Hl as (Hc & _ & _ & Hl2). rewrite (proj2 (Z.eqb_eq _ _) Hc).
    exists par, (set_children (next_sibling (nd s n)) (nd s par)). split_and!; [done | done | congruence | by left |].
    intros s' l' Hnodes Hl'. rewrite (chain_det _ _ _ _ Hl' Hl), (filter_ne_split n [] l2) by done.
    assert (forall x, x <> n -> next_sibling (nd s' x) = next_sibling (nd s x) /\ (is_Some (nodes s !! x) -> is_Some (nodes s' !! x))) as Hnext.
    { intros x Hx. unfold nd. rewrite Hnodes, lookup_delete_ne, lookup_insert by done. case_decide as Heq; [rewrite <- Heq; by split | by split]. }
    assert (children (nd s' par) = next_sibling (nd s n)) as ->.
    { unfold nd at 1. by rewrite Hnodes, lookup_delete_ne, lookup_insert_eq. }
    apply (chain_ext s); [done |]. intros x Hx.
    apply NoDup_cons in HND as [Hni _]. destruct (Hnext x) as [H1 H2]; [by intros -> |].
    split; [apply H2; by apply (chain_elem _ _ _ x Hl2) | done].
  - rewrite <- app_assoc in *. cbn [app] in *.
    assert (children (nd s par) <> n) as Hcn.
    { intros Hc. rewrite Hc in Hl. destruct l0 as [| x l0]; simpl in Hl; destruct Hl as (-> & _).
      - apply NoDup_cons in HND as [Hni _]. apply Hni. by left.
      - apply NoDup_cons in HND as [Hni _]. apply Hni. apply elem_of_app. right. right. by left. }
    rewrite (proj2 (Z.eqb_neq _ n) Hcn). rewrite (find_prev_chain _ _ _ l0 prev n l2 Hl Hfuel).
    destruct (chain_elem _ _ _ prev Hl) as [Hprev0 Hprev]; [apply elem_of_app; right; by left |].
    rewrite (proj2 (Z.eqb_neq prev 0)) by done. cbn [negb].
    assert (prev <> n) as Hpn.
    { intros ->. apply NoDup_app in HND as (_ & _ & [Hni _]%NoDup_cons). apply Hni. by left. }
    exists prev, (set_next (next_sibling (nd s n)) (nd s prev)). split_and!; [done | done | done | |].
    { right. split; [| done]. apply Hxp. apply elem_of_app. right. by left. }
    intros s' l' Hnodes Hl'. rewrite (chain_det _ _ _ _ Hl' Hl).
    assert (filter (fun x => x <> n) (l0 ++ prev :: n :: l2) = l0 ++ prev :: l2) as ->.
    { assert (l0 ++ prev :: n :: l2 = (l0 ++ [prev]) ++ n :: l2) as Heq by (by rewrite <- app_assoc).
      rewrite Heq in *. rewrite filter_ne_split by done. by rewrite <- app_assoc. }
    assert (forall x, x <> n -> is_Some (nodes s !! x) -> is_Some (nodes s' !! x)) as Hdom.
    { intros x Hx. rewrite Hnodes, lookup_delete_ne, lookup_insert by done. by case_decide. }
    assert (children (nd s' par) = children (nd s par)) as ->.
    { unfold nd. rewrite Hnodes, lookup_delete_ne, lookup_insert by done. case_decide as Heq; [by rewrite <- Heq | done]. }
    assert (n ∉ l0 ++ prev :: l2) as Hnot.
    { apply NoDup_app in HND as (_ & Hd & [Hni [Hn2 _]%NoDup_cons]%NoDup_cons).
      intros [Hx | [-> | Hx]%elem_of_cons]%elem_of_app; [| done | done]. apply (Hd n Hx). right. by left. }
    apply (chain_splice s s' _ l0 prev n l2 Hl).
    + intros x Hx. apply Hdom; [by intros -> |]. apply (chain_elem _ _ _ x Hl).
      apply elem_of_app in Hx as [? | [-> | ?]%elem_of_cons]; apply elem_of_app; [by left | right; by left | right; right; by right].
    + intros x Hx. unfold nd. rewrite Hnodes, lookup_delete_ne.
      2: { intros <-. apply Hnot. apply elem_of_app in Hx as [? | ?]; apply elem_of_app; [by left | right; by right]. }
      rewrite lookup_insert_ne; [done |]. intros <-.
      apply NoDup_app in HND as (_ & Hd & [Hni _]%NoDup_cons). apply elem_of_app in Hx as [Hx | Hx].
      * apply (Hd prev Hx). by left.
      * apply Hni. by right.
    + unfold nd at 1. by rewrite Hnodes, lookup_delete_ne, lookup_insert_eq.
Qed.

Lemma unlinked_intro s s' n z v : tree_wf s -> is_Some (nodes s !! n) -> parent (nd s n) <> 0 ->
  z <> n -> is_Some (nodes s !! z) ->
  (z = parent (nd s n) /\ v = set_children (next_sibling (nd s n)) (nd s z)) \/
    (parent (nd s z) = parent (nd s n) /\ v = set_next (next_sibling (nd s n)) (nd s z)) ->
  (forall l, chain s (children (nd s (parent (nd s n)))) l ->
     chain s' (children (nd s' (parent (nd s n)))) (filter (fun x => x <> n) l)) ->
  nodes s' = delete n (<[z := v]> (nodes s)) -> fds s' = fds s -> vfs_root s' = vfs_root s -> cwd s' = cwd s ->
  unlinked s s' n.
Proof.
  intros Hwf Hn Hp0 Hzn Hz Hv Hchain Hnodes Hfds Hroot Hcwd.
  assert (forall p, p <> n -> nd s' p = if decide (z = p) then v else nd s p) as Hnd.
  { intros p Hp. unfold nd. rewrite Hnodes, lookup_delete_ne, lookup_insert by done. by case_decide. }
  split; [| | | done | done | done].
  - intros p. rewrite Hnodes, lookup_delete. case_decide as Hnp; [subst; split; [by intros [] | by intros []] |].
    rewrite lookup_insert. case_decide; [subst; split; [done | by eexists] |]. split; [by split | by intros []].
  - intros p Hp. rewrite (Hnd p Hp). case_decide; [subst p | done]. by destruct Hv as [[_ ->] | [_ ->]].
  - intros p l Hpn Hp Hl. destruct (decide (p = parent (nd s n))) as [-> | Hpp]; [by apply Hchain |].
    assert (children (nd s' p) = children (nd s p)) as ->.
    { rewrite (Hnd p Hpn). case_decide; [subst p | done]. by destruct Hv as [[? _] | [_ ->]]. }
    apply (chain_elsewhere s s' (parent (nd s n)) n z v p l); try done.
    destruct Hv as [[-> ->] | [? _]]; [by left | by right].
Qed.

Lemma unlink_from base s path : fs_from base s -> resolve_internal path s <> Some tty_ptr ->
  exists r s', unlink foreign_unlink path s = Some (r, s') /\ fs_from base s' /\
    match r with
    | Ok _ => exists n, resolve_internal path s = Some n /\ is_Some (nodes s !! n) /\ opens s n = 0 /\ unlinked s s' n
    | Err _ => s' = s
    end.
Proof.
  intros Hfs Htty. pose proof Hfs as (own & Hm & Hok & Hkeep). pose proof (ok_tree _ _ Hok) as Hwf. unfold unlink, lookup. run.
  destruct (lookup_total s path Hwf) as (n & Hres & Hn). rewrite Hres in *. cbv beta iota.
  destruct (Z.eqb_spec n 0) as [-> | Hn0]; [by exists (Err NotFound), s |]. destruct Hn as [? | Hn]; [done |].
  destruct (Z.eqb_spec (type (nd s n)) VFS_TYPE_DIR) as [? | Hty]; [by exists (Err IsDirectory), s |].
  destruct (Z.ltb_spec 0 (refcount (nd s n))) as [? | Hrc]; [by exists (Err Busy), s |].
  destruct (Z.eqb_spec (parent (nd s n)) 0) as [? | Hp0]; [by exists (Err InvalidArgument), s |].
  destruct (tw_parent _ Hwf n Hn Hp0) as (Hpar & Hpt & He).
  rewrite decide_False by (by apply (ok_native _ _ Hok)). cbv beta iota.
  destruct (detach_ok s (parent (nd s n)) n Hwf Hn eq_refl Hp0 Hty) as (z & v & -> & Hz & Hzn & Hv & Hchain).
  cbv beta iota. set (s1 := set_nodes (<[z := v]> (nodes s)) s).
  assert (nd s1 n = nd s n) as Hnd1 by (unfold s1; by rewrite nd_insert, decide_False).
  rewrite !Hnd1. destruct (free_data_ok s own n Hm Hok Hn) as (h & Hfree & Hm').
  assert (exists h1, (if negb (fdata (nd s n) =? 0) then free (fdata (nd s n)) else fun s0 => Some (tt, s0)) s1 = Some (tt, set_heap h1 s1) /\
    mem_ok h1 (delete (fdata (nd s n)) own)) as (h1 & Hfree1 & Hm1).
  { destruct (negb (fdata (nd s n) =? 0)).
    - unfold free in *. change (heap s1) with (heap s). destruct (kfree (fdata (nd s n)) (heap s)) as [h' |]; [| done].
      exists h'. split; [done |]. by injection Hfree as ->.
    - exists (heap s1). split; [by destruct s1 |]. injection Hfree as Hh. apply (f_equal heap) in Hh. cbn in Hh.
      change (heap s1) with (heap s). by rewrite Hh. }
  rewrite Hfree1. cbv beta iota.
  assert (delete (fdata (nd s n)) own !! n = Some ONode) as Hown.
  { apply (own_release own s n Hok Hn). destruct (ok_node _ _ Hok n Hn) as [-> |]; [by destruct Htty | done]. }
  destruct (free_ok (set_heap h1 s1) _ n Hm1) as (h2 & -> & Hm2); [by eexists |]. cbv beta iota.
  set (s' := set_nodes _ (set_heap h2 (set_heap h1 s1))). exists (Ok tt), s'. split; [done |].
  assert (refcount (nd s n) = 0) as Hrc0.
  { pose proof (opens_bound _ _ n Hok). pose proof (ok_refs _ _ Hok n Hn). lia. }
  assert (unlinked s s' n) as Hu.
  { apply (unlinked_intro s s' n z v); try done.
    intros l Hl. by apply Hchain. }
  split; [| exists n; split_and!; try done; by rewrite <- (ok_refs _ _ Hok n Hn)].
  assert (n <> tty_ptr) as Hnt by (intros ->; by destruct Htty).
  apply (fs_from_step base own (delete n (delete (fdata (nd s n)) own))); [done | | done | by apply (unlinked_obj s s' own n)].
  apply (others_trans _ (delete (fdata (nd s n)) own)); [apply (own_release own s n Hok Hn) | apply others_delete; congruence].
Qed.

Lemma unlink_ok s path : fs_ok s -> resolve_internal path s <> Some tty_ptr ->
  exists r s', unlink foreign_unlink path s = Some (r, s') /\ fs_ok s' /\
    match r with
    | Ok _ => exists n, resolve_internal path s = Some n /\ is_Some (nodes s !! n) /\ opens s n = 0 /\ unlinked s s' n
    | Err _ => s' = s
    end.
Proof. setoid_rewrite fs_ok_from. apply unlink_from. Qed.

(** ** open, mkdir, seek *)

Lemma new_fd_from base s n fl : fs_from base s -> is_Some (nodes s !! n) ->
  exists r s', new_fd n fl s = Some (r, s') /\ fs_from base s' /\ same_tree s s' /\
    match r with
    | Ok f => fds s !! f = None /\ exists d, fds s' = <[f := d]> (fds s) /\ node d = n /\ flags d = open_flags fl
    | Err e => e = OutOfMemory /\ fds s' = fds s
    end.
Proof.
  intros (own & Hm & Hok & Hkeep) Hn. unfold new_fd. run.
  destruct (malloc_ok s own sizeof_FileDescriptor Hm) as (f & h & -> & Hf); [unfold sizeof_FileDescriptor; lia |].
  cbv beta iota zeta. destruct Hf as [[-> Hm'] | (Hf0 & Hnone & Hr & Hm')].
  - cbn [Z.eqb]. eexists _, _. split; [done |]. split; [| by split]. exists own. split_and!; [done | | done].
    apply (obj_keep s _ own own Hok); try done. apply (ok_range _ _ Hok).
  - rewrite (proj2 (Z.eqb_neq f 0)) by done. eexists _, _. split; [done |]. split.
    + apply (fs_from_step base own (<[f := OFd]> own)); [done | by apply others_insert | apply Hm' |].
      eapply (obj_new_fd s _ own n f _ Hok Hn Hnone Hr); [| done | done | done | done]. done.
    + split; [split; try done; cbn; intros p; unfold nd; cbn; rewrite lookup_insert; case_decide; subst; first [done | by destruct Hn as [v ->] | split; [done | by eexists]] |].
      split; [| by eexists]. apply eq_None_not_Some. intros Hs%(ok_fd _ _ Hok). congruence.
Qed.

(** Resolution reads the tree only. *)
Lemma resolve_loop_same fuel s s' p n : same_tree s s' -> tree_wf s -> is_Some (nodes s !! n) ->
  resolve_loop fuel s' p n = resolve_loop fuel s p n.
Proof.
  intros Hs Hwf. revert p n. induction fuel as [| fuel IH]; intros p n Hn; [done |]. cbn [resolve_loop].
  destruct (path_next p NAME_MAX) as [comp rest]. case_bool_decide; [done |].
  destruct (kstreq comp dot); [by apply IH |].
  pose proof (st_links _ _ Hs n) as [= _ -> -> -> _]. destruct (kstreq comp dotdot).
  { apply IH. destruct (Z.eqb_spec (parent (nd s n)) 0); cbn [negb]; [done |]. by apply (tw_parent _ Hwf). }
  destruct (negb _); [done |]. destruct (tw_children _ Hwf n Hn) as [l Hl].
  pose proof (proj2 (same_tree_chain s s' _ l Hs) Hl) as Hl'.
  rewrite (find_child_chain _ s' _ l comp Hl' (chain_length _ _ _ Hl')), (find_child_chain _ s _ l comp Hl (chain_length _ _ _ Hl)).
  assert (forall x, name (nd s' x) = name (nd s x)) as Hname by (intros x; by pose proof (st_links _ _ Hs x) as [= -> _ _ _ _]).
  assert (List.find (fun x => kstreq (name (nd s' x)) comp) l = List.find (fun x => kstreq (name (nd s x)) comp) l) as ->
    by (clear Hl Hl'; induction l as [| x l IHl]; cbn; rewrite ?Hname, ?IHl; done).
  cbn [mbind option_bind]. destruct (List.find _ l) as [c |] eqn:Hf; [| done]. apply IH.
  apply List.find_some in Hf as [Hc%list_elem_of_In _]. by apply (chain_elem s (children (nd s n)) l).
Qed.

Lemma resolve_same s s' path : same_tree s s' -> tree_wf s -> resolve_internal path s' = resolve_internal path s.
Proof.
  intros Hs Hwf. destruct path as [| c path]; [done |]. unfold resolve_internal, get_cwd. rewrite (st_root _ _ Hs), (st_cwd _ _ Hs).
  apply resolve_loop_same; [done | done |]. destruct (start_node s (c =? slash) Hwf) as [E [_ ?]]. unfold get_cwd in *. by rewrite E.
Qed.

Lemma open_node_from base s path fl : fs_from base s -> (length path <= 255)%nat ->
  exists r s1, open_node foreign_create path fl s = Some (r, s1) /\ fs_from base s1 /\ fds s1 = fds s /\
    match r with Ok n => is_Some (nodes s1 !! n) | Err _ => True end.
Proof.
  intros Hfs Hlen. pose proof Hfs as (own & _ & Hok & _). unfold open_node, lookup. run.
  destruct (lookup_total s path (ok_tree _ _ Hok)) as (n0 & -> & Hn0). cbv beta iota.
  destruct (Z.eqb_spec n0 0) as [-> | Hne].
  - destruct (negb (has fl O_CREATE)); [by eexists _, s |].
    destruct (create_internal_from base s path VFS_TYPE_FILE Hfs Hlen) as (n & s1 & -> & Hfs1 & Hc).
    eexists _, s1. split; [done |]. split; [done |]. destruct Hc as [(-> & _ & -> & _) | Hc]; [done |].
    destruct Hc as (par & leaf & _ & _ & Hpar & _ & _ & Hfresh & Hn & Hlk). rewrite (proj2 (Z.eqb_neq n 0)) by done.
    split; [apply (lk_fds _ _ _ _ _ _ Hlk) |]. rewrite (lk_nodes _ _ _ _ _ _ Hlk), lookup_insert_ne, lookup_insert_eq; [by eexists |].
    intros ->. rewrite Hfresh in Hpar. by destruct Hpar.
  - destruct Hn0 as [? | Hn0]; [done |]. by eexists _, s.
Qed.

Lemma open_from base s path fl : fs_from base s -> (length path <= 255)%nat ->
  exists r s', open foreign_create path fl s = Some (r, s') /\ fs_from base s' /\
    match r with
    | Ok f => fds s !! f = None /\ exists d, fds s' = <[f := d]> (fds s) /\ flags d = open_flags fl
    | Err _ => fds s' = fds s
    end.
Proof.
  intros Hfs Hlen. unfold open. run.
  destruct (open_node_from base s path fl Hfs Hlen) as (r & s1 & -> & Hfs1 & Hfds1 & Hr).
  cbv beta iota. destruct r as [n | e]; [| by eexists _, s1].
  assert (exists s2, (if has fl O_TRUNC && (type (nd s1 n) =? VFS_TYPE_FILE) then truncate n else fun s => Some (tt, s)) s1 = Some (tt, s2) /\
    fs_from base s2 /\ fds s2 = fds s1 /\ is_Some (nodes s2 !! n)) as (s2 & -> & Hfs2 & Hfds2 & Hn2).
  { destruct (has fl O_TRUNC && _); [| by exists s1]. destruct Hfs1 as (own & Hm & Hok & Hkeep).
    destruct (truncate_ok s1 own n Hm Hok Hr) as (s2 & own2 & -> & ? & ? & ? & Hst & Hkp). exists s2. split_and!; try done.
    - by apply (fs_from_step base own own2).
    - by apply (st_dom _ _ Hst). }
  cbv beta iota. destruct (new_fd_from base s2 n fl Hfs2 Hn2) as (r & s' & -> & Hfs' & _ & Hpost).
  exists r, s'. split; [done |]. split; [done |]. rewrite Hfds2, Hfds1 in Hpost. destruct r as [f | e].
  - destruct Hpost as [? (d & ? & _ & ?)]. split; [done |]. by exists d.
  - by destruct Hpost as [_ ->].
Qed.

Lemma same_tree_refl s : same_tree s s.
Proof. by split. Qed.
Lemma same_tree_trans s1 s2 s3 : same_tree s1 s2 -> same_tree s2 s3 -> same_tree s1 s3.
Proof. intros [A1 A2 A3 A4] [B1 B2 B3 B4]. split; [congruence | congruence | intros p; by rewrite B3 | intros p; by rewrite B4]. Qed.

(** Opening what is there makes a descriptor on it, or fails for want of memory. *)
Lemma open_found base s path fl n : fs_from base s -> resolve_internal path s = Some n -> n <> 0 -> is_Some (nodes s !! n) ->
  exists r s', open foreign_create path fl s = Some (r, s') /\ fs_from base s' /\ same_tree s s' /\
    match r with
    | Ok f => fds s !! f = None /\ exists d, fds s' = <[f := d]> (fds s) /\ node d = n /\ flags d = open_flags fl
    | Err e => e = OutOfMemory /\ fds s' = fds s
    end.
Proof.
  intros Hfs Hres H0 Hn. unfold open, open_node, lookup. run. rewrite Hres. cbv beta iota. rewrite (proj2 (Z.eqb_neq n 0)) by done.
  cbv beta iota. assert (exists s2, (if has fl O_TRUNC && (type (nd s n) =? VFS_TYPE_FILE) then truncate n else fun s => Some (tt, s)) s = Some (tt, s2) /\
    fs_from base s2 /\ fds s2 = fds s /\ same_tree s s2) as (s2 & -> & Hfs2 & Hfds2 & Hst).
  { destruct (has fl O_TRUNC && _); [| exists s; split_and!; try done]. destruct Hfs as (own & Hm & Hok & Hkeep).
    destruct (truncate_ok s own n Hm Hok Hn) as (s2 & own2 & -> & ? & ? & ? & Hst & Hkp). exists s2. split_and!; try done.
    by apply (fs_from_step base own own2). }
  cbv beta iota. destruct (new_fd_from base s2 n fl Hfs2) as (r & s' & -> & Hfs' & Hst' & Hpost); [by apply (st_dom _ _ Hst) |].
  exists r, s'. split_and!; [done | done | by apply (same_tree_trans s s2) |]. by rewrite Hfds2 in Hpost.
Qed.

Lemma open_ok s path fl : fs_ok s -> (length path <= 255)%nat ->
  exists r s', open foreign_create path fl s = Some (r, s') /\ fs_ok s' /\
    match r with
    | Ok f => fds s !! f = None /\ exists d, fds s' = <[f := d]> (fds s) /\ flags d = open_flags fl
    | Err _ => fds s' = fds s
    end.
Proof. setoid_rewrite fs_ok_from. apply open_from. Qed.

Lemma mkdir_from base s path : fs_from base s -> (length path <= 255)%nat ->
  exists r s', mkdir foreign_create path s = Some (r, s') /\ fs_from base s' /\ fds s' = fds s.
Proof.
  intros Hfs Hlen. pose proof Hfs as (own & _ & Hok & _). unfold mkdir, lookup. run.
  destruct (lookup_total s path (ok_tree _ _ Hok)) as (n & -> & _). cbv beta iota.
  destruct (n =? 0); [| by eexists _, s]. cbn [negb].
  destruct (create_internal_from base s path VFS_TYPE_DIR Hfs Hlen) as (n' & s1 & -> & Hfs1 & Hc). eexists _, s1.
  split_and!; [done | done |]. destruct Hc as [(_ & _ & ? & _) | (par & leaf & _ & _ & _ & _ & _ & _ & _ & Hlk)]; [done |].
  apply (lk_fds _ _ _ _ _ _ Hlk).
Qed.

(** A descriptor moved, on the node it had. *)
Lemma obj_fd s own f d d' : obj_ok s own -> fds s !! f = Some d -> node d' = node d -> obj_ok (set_fds (<[f := d']> (fds s)) s) own.
Proof.
  intros Hok Hf Hd'. set (s' := set_fds _ s). pose proof (ok_open _ _ Hok f d Hf) as [v Hv].
  assert (nd s (node d) = v) as Hnd by (unfold nd; by rewrite Hv).
  assert (forall f', is_Some (fds s' !! f') -> is_Some (fds s !! f')) as Hdom.
  { intros f'. unfold s'. cbn [fds set_fds]. rewrite lookup_insert. case_decide; [subst; by eexists | done]. }
  apply (obj_change s s' own own (node d) v Hok); try done; rewrite ?Hnd; try done.
  - unfold s'. cbn [nodes set_fds]. by rewrite insert_id.
  - by left.
  - intros f' Hf'%Hdom. by apply (ok_fd _ _ Hok).
  - apply (ok_range _ _ Hok).
  - by right.
  - intros f' e. unfold s'. cbn [fds set_fds]. rewrite lookup_insert. case_decide as Hff; [| apply (ok_open _ _ Hok)].
    intros [= <-]. rewrite Hd'. by eexists.
  - intros p Hp. assert (opens s' p = opens s p) as -> by (unfold s'; by apply (opens_replace s p f d)).
    case_decide; [| done]. subst p. rewrite <- Hnd. symmetry. by apply (ok_refs _ _ Hok).
Qed.

Lemma seek_from base s f off whence : fs_from base s -> is_Some (fds s !! f) ->
  exists r s', seek f off whence s = Some (r, s') /\ fs_from base s' /\
    match r with Ok o => fds s' = <[f := set_offset (u64 o) (fd s f)]> (fds s) /\ 0 <= o | Err _ => s' = s end.
Proof.
  intros Hfs [d Hf]. pose proof Hfs as (own & Hm & Hok & Hkeep). unfold seek.
  destruct (f =? 0); [by eexists _, s |]. run. assert (fd s f = d) as Hfd by (unfold fd; by rewrite Hf). rewrite !Hfd.
  destruct (type _ =? _); [by eexists _, s |].
  match goal with |- context [match ?x with Some _ => _ | None => _ end] => destruct x as [b |] end; [| by eexists _, s].
  destruct (Z.ltb_spec (i64 (b + off)) 0) as [| Hnn]; [by eexists _, s |]. eexists _, _. split; [done |]. split.
  - exists own. split_and!; [done | | done]. rewrite ?Hfd. by apply (obj_fd s own f d).
  - split; [| done]. by rewrite Hfd.
Qed.

(** ** Sequences of calls *)

Inductive call :=
  | Open (path : list Z) (fl : Z)
  | Close (f : Z)
  | Dup (f : Z)
  | Seek (f off whence : Z)
  | Mkdir (path : list Z)
  | Unlink (path : list Z).

(** Descriptor arguments are open descriptors, paths fit the kernel's buffer, and
    the terminal device is not unlinked. *)
Definition allowed (c : call) s : Prop :=
  match c with
  | Open path _ | Mkdir path => (length path <= 255)%nat
  | Close f | Dup f | Seek f _ _ => is_Some (fds s !! f)
  | Unlink path => resolve_internal path s <> Some tty_ptr
  end.

Definition run_call (c : call) s : option (state H) :=
  match c with
  | Open path fl => snd <$> open foreign_create path fl s
  | Close f => snd <$> close foreign_close f s
  | Dup f => snd <$> dup f s
  | Seek f off whence => snd <$> seek f off whence s
  | Mkdir path => snd <$> mkdir foreign_create path s
  | Unlink path => snd <$> unlink foreign_unlink path s
  end.

Inductive reach s0 : state H -> Prop :=
  | reach_start : reach s0 s0
  | reach_call s c s' : reach s0 s -> allowed c s -> run_call c s = Some s' -> reach s0 s'.

Lemma run_call_ok c s : fs_ok s -> allowed c s -> exists s', run_call c s = Some s' /\ fs_ok s'.
Proof.
  intros Hfs. destruct c as [path fl | f | f | f off whence | path | path]; simpl; intros Ha.
  - destruct (open_ok s path fl Hfs Ha) as (r & s' & -> & ? & _). by exists s'.
  - destruct (close_ok s f Hfs Ha) as (s' & -> & ? & _). by exists s'.
  - destruct (dup_ok s f Hfs Ha) as (r & s' & -> & ?). by exists s'.
  - apply fs_ok_from in Hfs. destruct (seek_from ∅ s f off whence Hfs Ha) as (r & s' & -> & ? & _). exists s'. by rewrite fs_ok_from.
  - apply fs_ok_from in Hfs. destruct (mkdir_from ∅ s path Hfs Ha) as (r & s' & -> & ? & _). exists s'. by rewrite fs_ok_from.
  - destruct (unlink_ok s path Hfs Ha) as (r & s' & -> & ? & _). by exists s'.
Qed.

Lemma reach_ok s0 s : fs_ok s0 -> reach s0 s -> fs_ok s.
Proof.
  intros H0 Hr. induction Hr as [| s c s' _ IH Ha Hc]; [done |].
  destruct (run_call_ok c s IH Ha) as (s2 & Hc2 & ?). congruence.
Qed.

(** C5: no use after free of a node.  After any sequence of open, close, dup,
    seek, mkdir and unlink calls every open descriptor refers to an existing node,
    the reference count of every node is the number of descriptors open on it, the
    directory tree is well formed, and every further call returns. *)
Theorem descriptors_never_dangle s0 s : fs_ok s0 -> reach s0 s ->
  (forall f d, fds s !! f = Some d -> is_Some (nodes s !! node d)) /\
  (forall p, is_Some (nodes s !! p) -> refcount (nd s p) = opens s p) /\
  tree_wf s /\
  (forall c, allowed c s -> exists s', run_call c s = Some s').
Proof.
  intros H0 Hr. pose proof (reach_ok s0 s H0 Hr) as Hfs. pose proof Hfs as (own & _ & Hok).
  split; [apply (ok_open _ _ Hok) |]. split; [apply (ok_refs _ _ Hok) |]. split; [apply (ok_tree _ _ Hok) |].
  intros c Ha. destruct (run_call_ok c s Hfs Ha) as (s' & ? & _). by exists s'.
Qed.

(** [unlink] removes a file only when no descriptor is open on it; the path
    of a removed file no longer has a node, nothing else changes its name, parent
    or contents, and a failed [unlink] changes nothing. *)
Theorem unlink_removes s path : fs_ok s -> resolve_internal path s <> Some tty_ptr ->
  exists r s', unlink foreign_unlink path s = Some (r, s') /\
    match r with
    | Ok _ => exists n, resolve_internal path s = Some n /\ (forall f d, fds s !! f = Some d -> node d <> n) /\
        nodes s' !! n = None /\ (forall d c, is_Some (nodes s' !! d) -> entry s' d c <-> entry s d c /\ c <> n) /\
        (forall p, p <> n -> name (nd s' p) = name (nd s p) /\ parent (nd s' p) = parent (nd s p) /\ fdata (nd s' p) = fdata (nd s p))
    | Err _ => s' = s
    end.
Proof.
  intros Hfs Htty. destruct (unlink_ok s path Hfs Htty) as (r & s' & Hrun & _ & Hr). exists r, s'. split; [done |].
  destruct r; [| done]. destruct Hr as (n & Hres & Hn & Ho & Hu). exists n. destruct Hfs as (own & _ & Hok).
  split_and!; [done | | | |].
  - intros f d Hf. by apply (opens_zero s n f d).
  - apply eq_None_not_Some. rewrite (ul_dom _ _ _ Hu). by intros [_ ?].
  - intros d c [Hd Hdn]%(ul_dom _ _ _ Hu). by apply (unlinked_entry s s' n d c (ok_tree _ _ Hok)).
  - intros p Hp. by destruct (ul_same _ _ _ Hu p Hp) as (? & _ & ? & _ & ? & _).
Qed.

Lemma fs_tree s : fs_ok s -> tree_wf s.
Proof. intros (own & _ & Hok). apply (ok_tree _ _ Hok). Qed.

(** A tree of one directory. *)
Definition root_node : VNode := Node [slash] VFS_TYPE_DIR 0 0 0 0 RamfsOps 0 0 0 0.

Lemma root_only_ok s r : nodes s = {[r := root_node]} -> fds s = ∅ -> vfs_root s = r -> cwd s = 0 ->
  heap_range r -> mem_ok (heap s) {[r := ONode]} -> fs_ok s.
Proof.
  intros Hn Hf Hr Hc Hrange Hm. exists {[r := ONode]}. split; [done |].
  assert (r <> 0) as Hr0 by (intros ->; unfold heap_range in Hrange; lia).
  assert (forall p, is_Some (nodes s !! p) -> p = r) as Hdom.
  { intros p. rewrite Hn, lookup_singleton. case_decide; [done | by intros []]. }
  assert (nd s r = root_node) as Hnd by (unfold nd; by rewrite Hn, lookup_singleton_eq).
  assert (forall c, ~ entry s r c) as Hent.
  { intros c (l & Hl & Hcl). rewrite Hnd in Hl. destruct l as [| x l]; [by apply elem_of_nil in Hcl |].
    by destruct Hl as (<- & ? & _). }
  split; [split | ..]; rewrite ?Hf.
  - rewrite Hn. by apply lookup_singleton_ne.
  - rewrite Hr, Hnd, Hn, lookup_singleton_eq. split; [by eexists | done].
  - by left.
  - intros p ->%Hdom. by rewrite Hnd.
  - intros p ->%Hdom. exists []. by rewrite Hnd.
  - intros p c ->%Hdom. by intros []%Hent.
  - intros p c c' ->%Hdom. by intros []%Hent.
  - intros p ->%Hdom. right. by rewrite lookup_singleton_eq.
  - intros f. rewrite lookup_empty. by intros [].
  - intros a. rewrite lookup_singleton. case_decide; [by subst | by intros []].
  - intros p ->%Hdom. by rewrite Hnd.
  - intros f d. by rewrite lookup_empty.
  - intros p ->%Hdom. rewrite Hnd. symmetry. apply opens_none. intros f d. by rewrite Hf, lookup_empty.
  - intros p ->%Hdom. by rewrite Hnd.
Qed.
End tree.

(** ** Concrete instances, over the [Bump] allocator *)

#[local] Existing Instance Bump.bump_allocator.

Section demo.
(** The operations of a foreign file system that is never mounted. *)
Definition no_close (_ : Z) : M (H := Bump.state) unit := ret tt.
Definition no_create (_ : Z) (_ : list Z) (_ : Z) : M (H := Bump.state) Z := ret 0.
Definition no_unlink (_ : Z) (_ : list Z) : M (H := Bump.state) kStatus := ret (Err IOError).

(** A root directory and nothing else. *)
Definition tree0 : state Bump.state :=
  Vfs.State (Bump.State (Bump.base + 216) {[Bump.base := 216]}) {[Bump.base := root_node]} ∅ ∅ ∅ [] Bump.base 0 [] ∅ 0 0 Vga.demo.

Lemma tree0_ok : fs_ok tree0.
Proof.
  apply (root_only_ok tree0 Bump.base); try done.
  exists {[Bump.base := 216]}. split.
  - split; cbn [Bump.live Bump.next heap tree0]; [done | unfold Bump.base; lia | |].
    + intros p n [<- <-]%lookup_singleton_Some. unfold Bump.base, Bump.limit. lia.
    + intros p q n k [<- <-]%lookup_singleton_Some [<- <-]%lookup_singleton_Some. done.
  - intros a [o [<- _]%lookup_singleton_Some]. rewrite lookup_singleton_eq. by eexists.
Qed.

Definition path_f : list Z := [47; 102].          (* "/f" *)
Definition path_df : list Z := [47; 100; 47; 46; 47; 102]. (* "/d/./f" *)

(** The directory [/d], then the file [/f]. *)
Definition tree1 : state Bump.state :=
  match create_internal no_create [47; 100] VFS_TYPE_DIR tree0 with Some (_, s) => s | None => tree0 end.
Definition tree2 : state Bump.state :=
  match create_internal no_create path_f VFS_TYPE_FILE tree1 with Some (_, s) => s | None => tree1 end.

Lemma tree1_ok : fs_ok tree1.
Proof.
  unfold tree1. destruct (create_internal_ok no_create tree0 [47; 100] VFS_TYPE_DIR tree0_ok) as (n & s & -> & Hs & _);
    [simpl; lia | done].
Qed.
Lemma tree2_ok : fs_ok tree2.
Proof.
  unfold tree2. destruct (create_internal_ok no_create tree1 path_f VFS_TYPE_FILE tree1_ok) as (n & s & -> & Hs & _);
    [simpl; lia | done].
Qed.

Lemma path_df_short : short path_df.
Proof. repeat (constructor; [vm_compute; lia |]). constructor. Qed.
Lemma path_f_short : short path_f.
Proof. repeat (constructor; [vm_compute; lia |]). constructor. Qed.

Lemma resolve_correct_witness : exists n, resolve path_f tree2 = Some (Ok n, tree2) /\
  leads_to tree2 (starts_at tree2 path_f) (components path_f) n.
Proof.
  destruct (resolve_correct tree2 path_f (fs_tree _ tree2_ok) ltac:(done) path_f_short) as ([n | e] & Hr & Hspec).
  - exists n. split; [exact Hr | apply Hspec].
  - exfalso. assert (is_ok <$> (fst <$> resolve path_f tree2) = Some true) as H0 by (vm_compute; reflexivity).
    rewrite Hr in H0. discriminate H0.
Defined.

Lemma create_then_resolve_witness : exists n s', create no_create path_df VFS_TYPE_FILE tree2 = Some (Ok n, s') /\
  resolve path_df s' = Some (Ok n, s').
Proof.
  assert (is_ok <$> (fst <$> create no_create path_df VFS_TYPE_FILE tree2) = Some true) as H0 by (vm_compute; reflexivity).
  destruct (create no_create path_df VFS_TYPE_FILE tree2) as [[[n | e] s'] |] eqn:Hc; [| discriminate H0 | discriminate H0].
  exists n, s'. split; [reflexivity |].
  exact (proj1 (proj2 (create_then_resolve no_create tree2 path_df VFS_TYPE_FILE n s' tree2_ok
    ltac:(simpl; lia) path_df_short ltac:(done) ltac:(done) ltac:(done) Hc))).
Defined.

Lemma descriptors_never_dangle_witness : exists s, run_call no_close no_create no_unlink (Open path_f O_RDWR) tree2 = Some s /\
  (forall f d, fds s !! f = Some d -> is_Some (nodes s !! node d)) /\ size (fds s) = 1%nat.
Proof.
  assert ((fun s => size (fds s)) <$> run_call no_close no_create no_unlink (Open path_f O_RDWR) tree2 = Some 1%nat) as H0
    by (vm_compute; reflexivity).
  destruct (run_call no_close no_create no_unlink (Open path_f O_RDWR) tree2) as [s |] eqn:Hr; [| discriminate H0].
  exists s. split; [reflexivity |]. split; [| by injection H0].
  refine (proj1 (descriptors_never_dangle no_close no_create no_unlink tree2 s tree2_ok _)).
  apply (reach_call _ _ _ tree2 tree2 (Open path_f O_RDWR) s); [constructor | simpl; lia | exact Hr].
Defined.

Lemma unlink_removes_witness : exists s' n, unlink no_unlink path_f tree2 = Some (Ok tt, s') /\ nodes s' !! n = None /\ n <> 0.
Proof.
  assert (resolve_internal path_f tree2 <> Some tty_ptr) as Htty by (vm_compute; congruence).
  assert (is_ok <$> (fst <$> unlink no_unlink path_f tree2) = Some true) as H0 by (vm_compute; reflexivity).
  destruct (unlink_removes no_unlink tree2 path_f tree2_ok Htty) as ([[] | e] & s' & Hr & Hspec).
  - destruct Hspec as (n & Hn & _ & Hnone & _). exists s', n. split_and!; [exact Hr | exact Hnone |].
    intros ->. assert (resolve_internal path_f tree2 <> Some 0) as H1 by (vm_compute; congruence). by apply H1.
  - rewrite Hr in H0. discriminate H0.
Defined.
End demo.
