(* ===== verification/VfsCalls.v ===== *)
(** * Every call keeps the file system's invariant

    [VfsTree] proves it for the calls that change the tree and the set of
    descriptors.  Here are the calls that move data: reading and writing of RAM
    files, of the terminal and of pipes, listing of a directory, creation of a pipe,
    and the change of the working directory.  Blocks of other parts of the kernel
    stay theirs. *)
From S2P Require Import Prelude Alloc Vfs VfsTree.

#[local] Existing Instance M_bind.
#[local] Existing Instance M_ret.

Ltac run := unfold upd_node, upd_fd, mbind, M_bind, bind, get, modify, ret, mbind, option_bind; cbv beta iota zeta.

Section calls.
Context {H : Type} `{!Allocator H}.
Variable foreign_read : Z -> Z -> Z -> M (H := H) (kResult (list Z)).
Variable foreign_write : Z -> Z -> list Z -> M (H := H) (kResult Z).
Variable foreign_readdir : Z -> Z -> M (H := H) (kResult Dirent).
Implicit Types s : state H.

(** ** States that differ in data only *)

(** What a transfer leaves alone: the heap, the nodes, the descriptors and the
    directories in use. *)
Record same_objects s s' : Prop := {
  so_heap : heap s' = heap s;
  so_nodes : nodes s' = nodes s;
  so_fds : fds s' = fds s;
  so_root : vfs_root s' = vfs_root s;
  so_cwd : cwd s' = cwd s;
}.

#[global] Instance same_objects_preorder : PreOrder same_objects.
Proof. split; [by intros s | intros s1 s2 s3 [] []; split; congruence]. Qed.

Lemma fs_from_same base s s' : same_objects s s' -> fs_from base s -> fs_from base s'.
Proof.
  intros [Hh Hn Hf Hr Hc] (own & Hm & Hok & Hk). exists own. rewrite Hh. split_and!; [done | | done].
  apply (obj_keep s s' own own Hok); try done. apply (ok_range _ _ Hok).
Qed.

Lemma fs_from_fd base s f d d' : fs_from base s -> fds s !! f = Some d -> node d' = node d ->
  fs_from base (set_fds (<[f := d']> (fds s)) s).
Proof. intros (own & Hm & Hok & Hk) Hf Hn. exists own. split_and!; [done | by apply (obj_fd s own f d) | done]. Qed.

(** ** Reading *)

Lemma tty_push_same seq s : same_objects s (tty_push_seq seq s).
Proof.
  revert s. induction seq as [| c seq IH]; intros s; cbn [tty_push_seq]; [done |].
  destruct (tty_pb_len s <? PB_SIZE); [| done]. etrans; [| apply IH]. by split.
Qed.

Lemma drain_same room acc s : same_objects s (drain room acc s).2.
Proof.
  revert acc s. induction room as [| room IH]; intros acc s; cbn [drain]; [done |].
  destruct (0 <? tty_pb_len s); [| done]. unfold tty_pb_pop. etrans; [| apply IH]. by split.
Qed.

Lemma tty_loop_same fuel room acc s l s' : tty_loop fuel room acc s = Some (l, s') -> same_objects s s'.
Proof.
  revert room acc s. induction fuel as [| fuel IH]; intros room acc s; cbn [tty_loop]; [done |].
  pose proof (drain_same room acc s) as Hd. destruct (drain room acc s) as [[room1 acc1] s1]. cbn [snd] in Hd.
  intros Hrun. etrans; [exact Hd |]. destruct room1 as [| room1]; [by simplify_eq |].
  destruct (input s1) as [| e rest]; [done |]. assert (same_objects s1 (set_input rest s1)) as Hi by (by split).
  etrans; [exact Hi |]. destruct (negb (Keyboard.pressed e)); [by apply IH in Hrun |].
  destruct (negb (Keyboard.ascii e =? 0)).
  - destruct (_ || _); [by simplify_eq | by apply IH in Hrun].
  - destruct (key_sequence _) as [seq |]; [| by apply IH in Hrun]. etrans; [apply (tty_push_same seq) | by apply IH in Hrun].
Qed.

Lemma tty_read_same len s r s' : tty_read len s = Some (r, s') -> same_objects s s'.
Proof.
  unfold tty_read. destruct (len =? 0); [by intros [= <- <-] |].
  destruct (tty_loop _ _ _ s) as [[l s1] |] eqn:Hl; [| done]. intros [= <- <-]. by apply tty_loop_same in Hl.
Qed.

(** A read waits only for the terminal. *)
Definition ready_to_read (f len : Z) s : Prop := ops (nd s (node (fd s f))) = TtyOps -> is_Some (tty_read len s).

Lemma source_same s p off len : ops (nd s p) <> ForeignOps -> (ops (nd s p) = TtyOps -> is_Some (tty_read len s)) ->
  exists r s', (match ops (nd s p) with
     | NullOps => fun s => Some (Err IOError, s)
     | RamfsOps => ramfs_read p off len
     | TtyOps => tty_read len
     | PipeOps => pipe_read p len
     | ForeignOps => foreign_read p off len
     end : M (kResult (list Z))) s = Some (r, s') /\ same_objects s s'.
Proof.
  intros Hnf Hready. destruct (ops (nd s p)).
  - by eexists _, s.
  - by eexists _, s.
  - destruct Hready as [[r s'] Hr]; [done |]. exists r, s'. split; [done | by apply tty_read_same in Hr].
  - unfold pipe_read. run. destruct (_ =? 0); [by eexists _, s |]. eexists _, _. split; [done |]. by split.
  - done.
Qed.

(** A descriptor after a transfer: on the same node. *)
Definition fd_moved s s' (f : Z) : Prop := exists d', fds s' = <[f := d']> (fds s) /\ node d' = node (fd s f) /\ flags d' = flags (fd s f).

Lemma fd_moved_refl s f : is_Some (fds s !! f) -> fd_moved s s f.
Proof. intros [d Hd]. exists d. unfold fd. rewrite Hd. by rewrite insert_id. Qed.

Lemma open_fd_nonzero base s f : fs_from base s -> is_Some (fds s !! f) -> f <> 0.
Proof.
  intros (own & _ & Hok & _) Hf ->. assert (heap_range 0) as Hr by (apply (ok_range _ _ Hok); rewrite (ok_fd _ _ Hok 0 Hf); by eexists).
  unfold heap_range in Hr. lia.
Qed.

Lemma open_fd_node base s f : fs_from base s -> is_Some (fds s !! f) -> is_Some (nodes s !! node (fd s f)).
Proof. intros (own & _ & Hok & _) [d Hd]. unfold fd. rewrite Hd. by apply (ok_open _ _ Hok f). Qed.

Lemma native_node base s p : fs_from base s -> is_Some (nodes s !! p) -> ops (nd s p) <> ForeignOps.
Proof. intros (own & _ & Hok & _). apply (ok_native _ _ Hok). Qed.

(** Moving the descriptor after data was moved. *)
Lemma move_fd base s s' f (g : FileDescriptor -> FileDescriptor) : fs_from base s' -> fds s' = fds s -> is_Some (fds s !! f) ->
  (forall d, node (g d) = node d /\ flags (g d) = flags d) ->
  fs_from base (set_fds (<[f := g (fd s' f)]> (fds s')) s') /\ fd_moved s (set_fds (<[f := g (fd s' f)]> (fds s')) s') f.
Proof.
  intros Hfs Hf [d Hd] Hg. assert (fd s' f = d) as -> by (unfold fd; by rewrite Hf, Hd).
  split; [apply (fs_from_fd base s' f d); [done | by rewrite Hf | apply Hg] |].
  exists (g d). split; [cbn; by rewrite Hf |]. unfold fd. rewrite Hd. apply Hg.
Qed.

Lemma fd_moved_same s s' f : fds s' = fds s -> is_Some (fds s !! f) -> fd_moved s s' f.
Proof. intros E Hf. destruct (fd_moved_refl s f Hf) as (d & ? & ?). exists d. by rewrite E. Qed.

Lemma read_from base s f len : fs_from base s -> is_Some (fds s !! f) -> ready_to_read f len s ->
  exists r s', read foreign_read f len s = Some (r, s') /\ fs_from base s' /\ fd_moved s s' f.
Proof.
  intros Hfs Hf Hready. pose proof (fd_moved_refl s f Hf) as Hsame.
  unfold read. rewrite (proj2 (Z.eqb_neq f 0)) by by apply (open_fd_nonzero base s). run.
  destruct (negb _); [by eexists _, s |]. destruct (Z.eqb (type _) _); [by eexists _, s |].
  pose proof (open_fd_node base s f Hfs Hf) as Hn.
  destruct (source_same s (node (fd s f)) (offset (fd s f)) len (native_node base s _ Hfs Hn) Hready) as (r & s1 & -> & Hs).
  pose proof (fs_from_same base s s1 Hs Hfs) as Hfs1. pose proof (fd_moved_same s s1 f (so_fds _ _ Hs) Hf) as Hm1.
  destruct r as [l | e]; [destruct (0 <? _) |]; eexists _, _; (split; [done |]); [| done | done].
  apply (move_fd base s s1 f (fun d => set_offset (u64 (offset d + Z.of_nat (length l))) d)); try done. apply Hs.
Qed.

Lemma nth_child_total fuel s c l i : chain s c l -> (length l < fuel)%nat ->
  nth_child fuel s c i = Some (if 0 <=? i then l !! Z.to_nat i else None).
Proof.
  revert c l i. induction fuel as [| fuel IH]; intros c l i Hc Hl; [lia |]. cbn [nth_child]. destruct l as [| x l]; cbn [chain] in Hc.
  - subst c. cbn [Z.eqb]. by case_match.
  - destruct Hc as (-> & Hx & _ & Hc). rewrite (proj2 (Z.eqb_neq x 0)) by done. simpl in Hl.
    destruct (Z.eqb_spec i 0) as [-> | Hi]; [done |]. rewrite (IH _ l) by (done || lia).
    destruct (Z.leb_spec 0 i), (Z.leb_spec 0 (i - 1)); try lia; [| done].
    replace (Z.to_nat i) with (S (Z.to_nat (i - 1))) by lia. done.
Qed.

Lemma readdir_from base s f : fs_from base s -> is_Some (fds s !! f) ->
  exists r s', readdir foreign_readdir f s = Some (r, s') /\ fs_from base s' /\ fd_moved s s' f.
Proof.
  intros Hfs Hf. pose proof (fd_moved_refl s f Hf) as Hsame. pose proof (open_fd_node base s f Hfs Hf) as Hn.
  unfold readdir. rewrite (proj2 (Z.eqb_neq f 0)) by by apply (open_fd_nonzero base s). run.
  destruct (negb _); [by eexists _, s |]. pose proof (native_node base s _ Hfs Hn) as Hnat.
  destruct (ops _); try done; cbn [is_ok]; try by eexists _, s.
  destruct (tw_children _ (fs_from_tree base s Hfs) _ Hn) as [l Hl].
  unfold ramfs_readdir. rewrite (nth_child_total _ s _ l); [| done | by eapply chain_length]. cbn [mbind option_bind].
  destruct (if 0 <=? _ then _ else _) as [c |]; cbn [is_ok]; eexists _, _; (split; [done |]); [| done].
  apply (move_fd base s s f (fun d => set_dir_index (u64 (dir_index d + 1)) d)); by try done.
Qed.

(** ** Writing *)

Lemma stores_only_bytes a b (x : Z -> Z) (g : Z -> state H -> Z) s :
  only_bytes s (for_range a b (fun i s => store_byte (x i) (g i s) s) s).
Proof.
  destruct (Z.le_gt_cases a b); [| by rewrite for_range_done by lia; apply only_bytes_refl].
  apply (for_range_ind (fun _ s' => only_bytes s s')); [done | apply only_bytes_refl |].
  intros i s1 _ Hs. by eapply only_bytes_trans.
Qed.

Lemma bytes_same s s' : only_bytes s s' -> same_objects s s'.
Proof. intros ->. by split. Qed.

(** A node without a buffer gets one. *)
Lemma obj_set_data s s' own n v' : obj_ok s own -> is_Some (nodes s !! n) -> own !! fdata v' = None -> heap_range (fdata v') ->
  nodes s' = <[n := v']> (nodes s) -> links v' = links (nd s n) -> ops v' = ops (nd s n) -> refcount v' = refcount (nd s n) ->
  fds s' = fds s -> vfs_root s' = vfs_root s -> cwd s' = cwd s -> obj_ok s' (<[fdata v' := OData n]> own).
Proof.
  intros Hok Hn Hnone Hr Hnodes Hl Ho Hrc Hf Hroot Hcwd. pose proof (fun q => nd_alter s s' n v' q Hnodes) as Hnd.
  assert (forall a o, own !! a = Some o -> <[fdata v' := OData n]> own !! a = Some o) as Hkeep.
  { intros a o Ha. rewrite lookup_insert_ne; [done |]. intros <-. congruence. }
  assert (forall p, is_Some (nodes s' !! p) <-> is_Some (nodes s !! p)) as Hdom.
  { intros p. rewrite Hnodes, lookup_insert. case_decide; [| done]. subst. split; [done | by eexists]. }
  split; rewrite ?Hf.
  - apply (tree_wf_same s); [| apply (ok_tree _ _ Hok)]. split; [done | done | done |].
    intros p. rewrite Hnd. case_decide; [by subst | done].
  - intros p Hp%Hdom. destruct (ok_node _ _ Hok p Hp); [by left | right; auto].
  - intros f Hff. by apply Hkeep, (ok_fd _ _ Hok).
  - intros a. rewrite lookup_insert. case_decide; [by subst | apply (ok_range _ _ Hok)].
  - intros p Hp%Hdom. rewrite Hnd. case_decide; [subst p; by rewrite lookup_insert_eq |].
    intros Hd0. by apply Hkeep, (ok_data _ _ Hok).
  - intros f d Hd. rewrite Hdom. by apply (ok_open _ _ Hok f).
  - intros p Hp%Hdom. rewrite Hnd, (opens_ext s s') by done. case_decide; [| by apply (ok_refs _ _ Hok)].
    subst p. rewrite Hrc. by apply (ok_refs _ _ Hok).
  - intros p Hp%Hdom. rewrite Hnd. case_decide; [| by apply (ok_native _ _ Hok)]. subst p. rewrite Ho. by apply (ok_native _ _ Hok).
Qed.

(** The old buffer goes, the new one comes. *)
Lemma obj_rebuffer s s' own n v' : obj_ok s own -> is_Some (nodes s !! n) -> own !! fdata v' = None -> heap_range (fdata v') ->
  nodes s' = <[n := v']> (nodes s) -> links v' = links (nd s n) -> ops v' = ops (nd s n) -> refcount v' = refcount (nd s n) ->
  fds s' = fds s -> vfs_root s' = vfs_root s -> cwd s' = cwd s ->
  obj_ok s' (<[fdata v' := OData n]> (delete (fdata (nd s n)) own)).
Proof.
  intros Hok Hn Hnone Hr Hnodes Hl Ho Hrc Hf Hroot Hcwd. set (v0 := set_store 0 0 (nd s n)). set (s0 := set_nodes (<[n := v0]> (nodes s)) s).
  destruct (own_release own s n Hok Hn) as (H1 & H2 & H3 & H4 & _).
  assert (obj_ok s0 (delete (fdata (nd s n)) own)) as Hok0.
  { apply (obj_change s s0 own _ n v0 Hok Hn); try done.
    - by right.
    - intros f Hff. by apply H2, (ok_fd _ _ Hok).
    - intros p d Hd. destruct (H4 p d Hd); [by left | by right].
    - apply (ok_open _ _ Hok).
    - intros p Hp. rewrite (opens_ext s s0) by done. case_decide; [| done]. subst p. symmetry. by apply (ok_refs _ _ Hok). }
  assert (nd s0 n = v0) as Hnd by (unfold s0; by rewrite nd_insert, decide_True).
  apply (obj_set_data s0 s' _ n v' Hok0); rewrite ?Hnd; try done.
  - unfold s0. cbn. rewrite lookup_insert_eq. by eexists.
  - rewrite lookup_delete. by case_decide.
  - unfold s0. cbn. by rewrite insert_insert_eq.
Qed.

(** Only the size of a file changes. *)
Lemma fs_from_size base s n z : fs_from base s -> is_Some (nodes s !! n) -> fs_from base (set_nodes (<[n := set_fsize z (nd s n)]> (nodes s)) s).
Proof.
  intros (own & Hm & Hok & Hk) Hn. exists own. split_and!; [done | | done].
  apply (obj_change s _ own own n (set_fsize z (nd s n)) Hok Hn); try done.
  - by left.
  - apply (ok_fd _ _ Hok).
  - apply (ok_range _ _ Hok).
  - by right.
  - apply (ok_open _ _ Hok).
  - intros p Hp. rewrite (opens_ext s) by done. case_decide; [| done]. subst p. symmetry. by apply (ok_refs _ _ Hok).
Qed.

Lemma grow_from base s own p newcap nb : obj_ok s own -> others_kept base own -> is_Some (nodes s !! p) ->
  mem_ok (heap s) (<[nb := OData p]> own) -> own !! nb = None -> heap_range nb ->
  exists s', grow p newcap nb s = Some (tt, s') /\ fs_from base s' /\ fds s' = fds s /\ is_Some (nodes s' !! p).
Proof.
  intros Hok Hk Hp Hm Hnone Hr. unfold grow. run.
  set (v := nd s p). set (s1 := for_range 0 (fsize v) _ s). set (s2 := for_range (fsize v) newcap _ s1).
  assert (same_objects s s2) as Hs.
  { etrans; apply bytes_same; [apply (stores_only_bytes 0 (fsize v) (fun i => nb + i) (fun i s => byte s (fdata v + i))) |].
    apply (stores_only_bytes (fsize v) newcap (fun i => nb + i) (fun _ _ => 0)). }
  clearbody s2. clear s1. destruct Hs as [S1 S2 S3 S4 S5].
  assert (exists h2, (if negb (fdata v =? 0) then free (fdata v) else fun s => Some (tt, s)) s2 = Some (tt, set_heap h2 s2) /\
    mem_ok h2 (<[nb := OData p]> (delete (fdata v) own))) as (h2 & -> & Hm2).
  { destruct (Z.eqb_spec (fdata v) 0) as [E | E]; cbn [negb].
    - exists (heap s2). split; [by destruct s2 |]. rewrite delete_id; [congruence |].
      apply eq_None_not_Some. rewrite E. intros H0%(ok_range _ _ Hok). unfold heap_range in H0. lia.
    - pose proof (ok_data _ _ Hok p Hp E) as Hd. assert (fdata v <> nb) as Hne by (intros <-; unfold v in *; congruence).
      destruct (free_ok s2 (<[nb := OData p]> own) (fdata v)) as (h2 & Hf & Hm2).
      + by rewrite S1.
      + rewrite lookup_insert_ne by done. unfold v in *. rewrite Hd. by eexists.
      + exists h2. split; [done |]. by rewrite delete_insert_ne in Hm2 by done. }
  eexists. split; [done |]. assert (nd (set_heap h2 s2) p = v) as -> by (unfold nd; cbn; by rewrite S2).
  split_and!; [| done |].
  - apply (fs_from_step base own (<[nb := OData p]> (delete (fdata v) own))); [done | | done |].
    + apply (others_trans _ (delete (fdata v) own)); [apply (own_release own s p Hok Hp) |].
      apply others_insert. rewrite lookup_delete. by case_decide.
    + apply (obj_rebuffer s _ own p (set_store nb newcap v) Hok Hp); try done. cbn. by rewrite S2.
  - cbn. rewrite lookup_insert_eq. by eexists.
Qed.

Lemma ramfs_write_from base s p off src : fs_from base s -> is_Some (nodes s !! p) ->
  0 <= off + Z.of_nat (length src) <= 2 ^ 44 ->
  exists r s', ramfs_write p off src s = Some (r, s') /\ fs_from base s' /\ fds s' = fds s.
Proof.
  intros Hfs Hp Hb. unfold ramfs_write. run. change (2 ^ 44) with 17592186044416 in Hb.
  set (wend := u64 (off + _)). assert (wend = off + Z.of_nat (length src)) as Hw by (apply u64_small; mach; lia).
  set (newcap := if u64 (wend * 2) <? 64 then 64 else u64 (wend * 2)).
  match goal with |- exists r s', match ?x with _ => _ end = _ /\ _ => assert (exists o s1, x = Some (o, s1) /\ fs_from base s1 /\
    fds s1 = fds s /\ is_Some (nodes s1 !! p)) as (o & s1 & -> & Hfs1 & Hf1 & Hp1) end.
  { destruct (_ <? wend); [| by eexists _, s]. destruct Hfs as (own & Hm & Hok & Hk).
    assert (0 < newcap < max_request) as Hreq.
    { unfold newcap, max_request. change (2 ^ 46) with 70368744177664. rewrite u64_small by (mach; lia). destruct (Z.ltb_spec (wend * 2) 64); lia. }
    unfold malloc. destruct (mem_malloc (heap s) own newcap Hm Hreq) as (nb & h & -> & Hn). cbn [mbind option_bind].
    assert (obj_ok (set_heap h s) own) as Hok1 by (apply (obj_keep s _ own own Hok); try done; apply (ok_range _ _ Hok)).
    destruct Hn as [[-> Hm1] | (Hn0 & Hnone & Hr & Hm1)]; [eexists _, _; cbn [Z.eqb]; split; [done |]; split_and!; try done; by exists own |].
    rewrite (proj2 (Z.eqb_neq nb 0)) by done. destruct (grow_from base (set_heap h s) own p newcap nb) as (s1 & -> & Hfs1 & Hf1 & Hp1); [done | done | done | apply Hm1 | done | done |].
    by eexists _, s1. }
  destruct o as [u | e]; [| by eexists _, s1]. destruct (write_bytes_spec src (fdata (nd s1 p) + off) s1) as [Ho _].
  set (s2 := write_bytes _ _ s1) in *. clearbody s2. pose proof (bytes_same _ _ Ho) as Hs.
  pose proof (fs_from_same base s1 s2 Hs Hfs1) as Hfs2. destruct Hs as [_ S2 S3 _ _].
  destruct (_ <? wend); eexists _, _; (split; [done |]); [| by rewrite S3].
  split; [apply fs_from_size; [done | by rewrite S2] | cbn; by rewrite S3].
Qed.

(** What a write to a RAM file may reach: the sizes the heap can serve. *)
Definition room_to_write (f n : Z) s : Prop := ops (nd s (node (fd s f))) = RamfsOps ->
  0 <= (if has (flags (fd s f)) VFS_APPEND then fsize (nd s (node (fd s f))) else offset (fd s f)) + n <= 2 ^ 44.

Lemma sink_from base s p off src : fs_from base s -> is_Some (nodes s !! p) ->
  (ops (nd s p) = RamfsOps -> 0 <= off + Z.of_nat (length src) <= 2 ^ 44) ->
  exists r s', (match ops (nd s p) with
     | NullOps => fun s => Some (Err IOError, s)
     | RamfsOps => ramfs_write p off src
     | TtyOps => tty_write src
     | PipeOps => pipe_write p src
     | ForeignOps => foreign_write p off src
     end : M (kResult Z)) s = Some (r, s') /\ fs_from base s' /\ fds s' = fds s.
Proof.
  intros Hfs Hp Hroom. pose proof (native_node base s p Hfs Hp) as Hnat. destruct (ops (nd s p)).
  - by eexists _, s.
  - apply ramfs_write_from; [done | done | by apply Hroom].
  - eexists _, _. split; [done |]. split; [apply (fs_from_same base s); [by split | done] | done].
  - unfold pipe_write. run. destruct (_ =? 0); [by eexists _, s |]. eexists _, _. split; [done |].
    split; [apply (fs_from_same base s); [by split | done] | done].
  - done.
Qed.

Lemma fd_moved_trans s s1 s2 f : fd_moved s s1 f -> fd_moved s1 s2 f -> fd_moved s s2 f.
Proof.
  intros (d1 & E1 & N1 & F1) (d2 & E2 & N2 & F2). exists d2.
  assert (fd s1 f = d1) as Hd by (unfold fd; by rewrite E1, lookup_insert_eq). rewrite Hd in *.
  split_and!; [by rewrite E2, E1, insert_insert_eq | congruence | congruence].
Qed.

Lemma fd_moved_dom s s' f g : fd_moved s s' f -> is_Some (fds s !! f) -> is_Some (fds s' !! g) <-> is_Some (fds s !! g).
Proof. intros (d & -> & _) Hf. rewrite lookup_insert. case_decide; [subst; split; [done | by eexists] | done]. Qed.

Lemma write_from base s f src : fs_from base s -> is_Some (fds s !! f) -> room_to_write f (Z.of_nat (length src)) s ->
  exists r s', write foreign_write f src s = Some (r, s') /\ fs_from base s' /\ fd_moved s s' f.
Proof.
  intros Hfs Hf Hroom. pose proof (fd_moved_refl s f Hf) as Hsame. pose proof (open_fd_node base s f Hfs Hf) as Hn.
  unfold write. rewrite (proj2 (Z.eqb_neq f 0)) by by apply (open_fd_nonzero base s). run.
  destruct (negb _); [by eexists _, s |]. destruct (Z.eqb (type _) _); [by eexists _, s |].
  destruct (decide _); [by eexists _, s |]. set (p := node (fd s f)) in *.
  set (off := if has (flags (fd s f)) VFS_APPEND then fsize (nd s p) else offset (fd s f)).
  assert (ops (nd s p) = RamfsOps -> 0 <= off + Z.of_nat (length src) <= 2 ^ 44) as Hr by exact Hroom.
  match goal with |- exists r s', match ?x with _ => _ end = _ /\ _ => assert (exists s1, x = Some (tt, s1) /\ fs_from base s1 /\
    fd_moved s s1 f /\ nodes s1 = nodes s /\ offset (fd s1 f) = off) as (s1 & -> & Hfs1 & Hm1 & Hn1 & Ho1) end.
  { unfold off. destruct (has _ _); [| by exists s]. eexists. split; [done |].
    destruct (move_fd base s s f (set_offset (fsize (nd s p))) Hfs eq_refl Hf) as [? ?]; [done |].
    split_and!; [done | done | done |]. unfold fd at 1. cbn. by rewrite lookup_insert_eq. }
  assert (node (fd s1 f) = p) as -> by (destruct Hm1 as (d1 & E & N & _); unfold fd; by rewrite E, lookup_insert_eq).
  assert (nd s1 p = nd s p) as Hnd by (unfold nd; by rewrite Hn1). rewrite Ho1, <- Hnd.
  destruct (sink_from base s1 p off src Hfs1) as (r & s2 & -> & Hfs2 & Hf2); [by rewrite Hn1 | by rewrite Hnd |].
  assert (is_Some (fds s1 !! f)) as Hs1 by (by apply (fd_moved_dom s s1 f f Hm1 Hf)).
  assert (fd_moved s s2 f) as Hm2 by (apply (fd_moved_trans s s1); [done | by apply fd_moved_same]).
  destruct r as [k | e]; [destruct (0 <? k) |]; eexists _, _; (split; [done |]); [| done | done].
  destruct (move_fd base s1 s2 f (fun d => set_offset (u64 (offset d + k)) d) Hfs2 Hf2 Hs1) as [? ?]; [done |].
  split; [done |]. by apply (fd_moved_trans s s1).
Qed.

(** ** dup *)

Lemma dup_from base s f : fs_from base s -> is_Some (fds s !! f) ->
  exists r s', dup f s = Some (r, s') /\ fs_from base s' /\
    match r with Ok c => fds s !! c = None /\ fds s' = <[c := fd s f]> (fds s) | Err e => e = OutOfMemory /\ fds s' = fds s end.
Proof.
  intros (own & Hm & Hok & Hk) Hf. destruct (dup_own s own f Hm Hok Hf) as (r & s' & own' & Hrun & Hm' & Hok' & Hk' & Hr).
  exists r, s'. split; [done |]. split; [by apply (fs_from_step base own own') |]. destruct Hr as [[-> ?] | (c & -> & ? & ?)]; done.
Qed.

(** ** The working directory *)

(** Chains and entries are read off the nodes. *)
Lemma chain_grow s s' c l : (forall x v, nodes s !! x = Some v -> nodes s' !! x = Some v) -> chain s c l -> chain s' c l.
Proof.
  intros Hn Hc. apply (chain_ext s s' c l Hc). intros x Hx. destruct (chain_elem s c l x Hc Hx) as [_ [v Hv]].
  unfold nd. rewrite (Hn x v Hv), Hv. split; [by eexists | done].
Qed.

Lemma entry_grow s s' p c : (forall x v, nodes s !! x = Some v -> nodes s' !! x = Some v) -> is_Some (nodes s !! p) ->
  tree_wf s -> entry s' p c <-> entry s p c.
Proof.
  intros Hn [v Hv] Hwf. assert (nd s' p = nd s p) as Hnd by (unfold nd; by rewrite (Hn p v Hv), Hv).
  destruct (tw_children _ Hwf p ltac:(by eexists)) as [l Hl]. pose proof (chain_grow s s' _ l Hn Hl) as Hl'. unfold entry. rewrite Hnd.
  split; intros (l2 & Hl2 & Hc); [exists l | exists l]; (split; [done |]).
  - by rewrite (chain_det s' _ l l2 Hl' Hl2).
  - by rewrite (chain_det s _ l l2 Hl Hl2).
Qed.

Lemma set_cwd_from base s p : fs_from base s -> is_Some (nodes s !! p) -> type (nd s p) = VFS_TYPE_DIR ->
  fs_from base (set_cwd_field p s).
Proof.
  intros (own & Hm & Hok & Hk) Hp Hd. exists own. split_and!; [done | | done].
  destruct Hok as [Hwf O2 O3 O4 O5 O6 O7 O8]. split; try done.
  assert (forall q c, is_Some (nodes s !! q) -> entry (set_cwd_field p s) q c <-> entry s q c) as He by (intros q c Hq; by apply entry_grow).
  destruct Hwf as [T1 T2 T3 T4 T5 T6 T7]. split; try done.
  - by right.
  - intros q Hq Hpar. destruct (T4 q Hq Hpar) as (? & ? & ?). split_and!; try done. by apply He.
  - intros q Hq. destruct (T5 q Hq) as [l Hl]. exists l. by apply (chain_grow s).
  - intros q c Hq Hc%He; [| done]. by apply T6.
  - intros q c c' Hq Hc%He Hc'%He; [| done | done]. by apply (T7 q).
Qed.

End calls.

(** ** Pipes *)

Section pipes.
Context {H : Type} `{!Allocator H}.
Implicit Types s : state H.

(** A node outside the tree. *)
Lemma loose_tree s s' n v : tree_wf s -> nodes s !! n = None -> n <> 0 -> nodes s' = <[n := v]> (nodes s) ->
  vfs_root s' = vfs_root s -> cwd s' = cwd s -> parent v = 0 -> children v = 0 -> tree_wf s'.
Proof.
  intros Hwf Hfresh Hn0 Hnodes Hroot Hcwd V1 V2. pose proof (fun q => nd_alter s s' n v q Hnodes) as Hnd.
  assert (forall x w, nodes s !! x = Some w -> nodes s' !! x = Some w) as Hgrow.
  { intros x w Hx. rewrite Hnodes, lookup_insert_ne; [done |]. intros <-. congruence. }
  assert (forall p, is_Some (nodes s !! p) -> is_Some (nodes s' !! p) /\ nd s' p = nd s p) as Hold.
  { intros p [w Hw]. rewrite Hnd, decide_False by (intros <-; congruence). split; [exists w; by apply Hgrow | done]. }
  assert (forall p, is_Some (nodes s' !! p) -> p = n \/ is_Some (nodes s !! p)) as Hdom.
  { intros p. rewrite Hnodes, lookup_insert. case_decide; [by left | by right]. }
  assert (forall p c, is_Some (nodes s' !! p) -> entry s' p c -> is_Some (nodes s !! p) /\ entry s p c /\ nd s' c = nd s c) as Hent.
  { intros p c [-> | Hs]%Hdom He.
    - destruct He as (l & Hl & Hc). rewrite Hnd, decide_True, V2 in Hl by done. destruct l as [| x l]; [by apply not_elem_of_nil in Hc |].
      by destruct Hl as (<- & ? & _).
    - apply (entry_grow s s') in He; [| done ..]. split_and!; [done | done |]. apply Hold. by apply (entry_node s p). }
  pose proof Hwf as [T1 [T2 T2'] T3 T4 T5 T6 T7]. split.
  - by rewrite Hnodes, lookup_insert_ne.
  - rewrite Hroot. destruct (Hold _ T2) as [? ->]. done.
  - rewrite Hcwd. destruct T3 as [? | [Hs ?]]; [by left | right]. destruct (Hold _ Hs) as [? ->]. done.
  - intros p [-> | Hs]%Hdom Hpar; [by rewrite Hnd, decide_True in Hpar |]. destruct (Hold p Hs) as [_ E]. rewrite E in *.
    destruct (T4 p Hs Hpar) as (Hps & Hpt & He). destruct (Hold _ Hps) as [? ->]. split_and!; [done | done | by apply (entry_grow s s')].
  - intros p [-> | Hs]%Hdom; [exists []; by rewrite Hnd, decide_True |]. destruct (Hold p Hs) as [_ ->].
    destruct (T5 p Hs) as [l Hl]. exists l. by apply (chain_grow s).
  - intros p c Hp (Hs & He & ->)%Hent; [| done]. by apply T6.
  - intros p c c' Hp (Hs & He & ->)%Hent (_ & He' & ->)%Hent; [| done | done]. by apply (T7 p).
Qed.

Lemma obj_loose s s' own n v : obj_ok s own -> own !! n = None -> heap_range n ->
  nodes s' = <[n := v]> (nodes s) -> fds s' = fds s -> vfs_root s' = vfs_root s -> cwd s' = cwd s ->
  parent v = 0 -> children v = 0 -> fdata v = 0 -> refcount v = 0 -> ops v <> ForeignOps ->
  obj_ok s' (<[n := ONode]> own).
Proof.
  intros Hok Hnone Hr Hnodes Hf Hroot Hcwd V1 V2 V3 V4 V5. pose proof (fun q => nd_alter s s' n v q Hnodes) as Hnd.
  assert (nodes s !! n = None) as Hfresh.
  { apply eq_None_not_Some. intros Hs. destruct (ok_node _ _ Hok n Hs) as [-> | ?]; [| congruence]. unfold heap_range, tty_ptr in Hr. lia. }
  assert (forall p, is_Some (nodes s' !! p) -> (p = n /\ nd s' p = v) \/ (is_Some (nodes s !! p) /\ nd s' p = nd s p)) as Hdom.
  { intros p. rewrite Hnodes, lookup_insert, Hnd. case_decide; [by left | by right]. }
  assert (forall a o, own !! a = Some o -> <[n := ONode]> own !! a = Some o) as Hkeep.
  { intros a o Ha. rewrite lookup_insert_ne; [done |]. intros <-. congruence. }
  split; rewrite ?Hf.
  - apply (loose_tree s s' n v); try done; [apply (ok_tree _ _ Hok) |]. intros ->. unfold heap_range in Hr. lia.
  - intros p [[-> _] | [Hs _]]%Hdom; [right; by rewrite lookup_insert_eq |]. destruct (ok_node _ _ Hok p Hs); [by left | right; auto].
  - intros f Hff. by apply Hkeep, (ok_fd _ _ Hok).
  - intros a. rewrite lookup_insert. case_decide; [by subst | apply (ok_range _ _ Hok)].
  - intros p [[-> ->] | [Hs ->]]%Hdom; [done |]. intros Hd0. by apply Hkeep, (ok_data _ _ Hok).
  - intros f d Hd. rewrite Hnodes, lookup_insert. case_decide; [by eexists | by apply (ok_open _ _ Hok f d)].
  - intros p [[-> ->] | [Hs ->]]%Hdom; rewrite (opens_ext s s') by done; [| by apply (ok_refs _ _ Hok)].
    rewrite V4. symmetry. apply opens_none. intros f d Hd Hn. destruct (ok_open _ _ Hok f d Hd) as [w Hw]. congruence.
  - intros p [[-> ->] | [Hs ->]]%Hdom; [done | by apply (ok_native _ _ Hok)].
Qed.

Definition pipe_name : list Z := [91; 112; 105; 112; 101; 93].
Definition pipe_node (pb r : Z) : VNode := Node pipe_name VFS_TYPE_FILE 0 0 0 0 PipeOps pb 0 r 0.

(** The objects of a new pipe: the buffer, the node and two descriptors on it. *)
Lemma obj_new_pipe s s' own pb n rf wf : obj_ok s own ->
  own !! pb = None -> own !! n = None -> own !! rf = None -> own !! wf = None -> NoDup [pb; n; rf; wf] ->
  Forall heap_range [pb; n; rf; wf] ->
  nodes s' = <[n := pipe_node pb 2]> (nodes s) -> fds s' = <[wf := Fd n 0 VFS_WRITE 0]> (<[rf := Fd n 0 VFS_READ 0]> (fds s)) ->
  vfs_root s' = vfs_root s -> cwd s' = cwd s ->
  obj_ok s' (<[wf := OFd]> (<[rf := OFd]> (<[pb := OData n]> (<[n := ONode]> own)))).
Proof.
  intros Hok Npb Nn Nrf Nwf Hnd Hr Hnodes Hfds Hroot Hcwd. rewrite !NoDup_cons, !not_elem_of_cons in Hnd. rewrite !Forall_cons in Hr.
  destruct Hnd as ((D1 & D2 & D3 & _) & (D4 & D5 & _) & (D6 & _) & _). destruct Hr as (R1 & R2 & R3 & R4 & _).
  set (s1 := set_nodes (<[n := Node pipe_name VFS_TYPE_FILE 0 0 0 0 PipeOps 0 0 0 0]> (nodes s)) s).
  pose proof (obj_loose s s1 own n _ Hok Nn R2 eq_refl eq_refl eq_refl eq_refl eq_refl eq_refl eq_refl eq_refl ltac:(done)) as Hok1.
  assert (forall s0 r d, nodes s0 = <[n := pipe_node d r]> (nodes s) -> nd s0 n = pipe_node d r /\ is_Some (nodes s0 !! n)) as Hat.
  { intros s0 r d E. unfold nd. rewrite E, lookup_insert_eq. split; [done | by eexists]. }
  set (s2 := set_nodes (<[n := pipe_node pb 0]> (nodes s)) s).
  assert (obj_ok s2 (<[pb := OData n]> (<[n := ONode]> own))) as Hok2.
  { destruct (Hat s1 0 0 eq_refl) as [E ?]. apply (obj_set_data s1 s2 _ n (pipe_node pb 0) Hok1); rewrite ?E; try done.
    - by rewrite lookup_insert_ne.
    - cbn. by rewrite insert_insert_eq. }
  set (s3 := set_fds (<[rf := Fd n 0 VFS_READ 0]> (fds s)) (set_nodes (<[n := pipe_node pb 1]> (nodes s)) s)).
  assert (obj_ok s3 (<[rf := OFd]> (<[pb := OData n]> (<[n := ONode]> own)))) as Hok3.
  { destruct (Hat s2 0 pb eq_refl) as [E ?]. apply (obj_new_fd s2 s3 _ n rf (Fd n 0 VFS_READ 0) Hok2); try done.
    - by rewrite !lookup_insert_ne.
    - rewrite E. cbn. by rewrite insert_insert_eq. }
  destruct (Hat s3 1 pb eq_refl) as [E ?]. apply (obj_new_fd s3 s' _ n wf (Fd n 0 VFS_WRITE 0) Hok3); try done.
  - by rewrite !lookup_insert_ne.
  - rewrite E, Hnodes. cbn. by rewrite insert_insert_eq.
Qed.

(** What [pipe] gives back. *)
Definition pipe_result s (r : kResult (Z * Z)) s' : Prop :=
  match r with
  | Ok (rf, wf) => rf <> wf /\ fds s !! rf = None /\ fds s !! wf = None /\
      exists n pb, pb <> 0 /\ fds s' = <[wf := Fd n 0 VFS_WRITE 0]> (<[rf := Fd n 0 VFS_READ 0]> (fds s)) /\
        nodes s' = <[n := pipe_node pb 2]> (nodes s) /\ pipes s' = <[pb := Vfs.Pipe ∅ 0 0 0 2]> (pipes s)
  | Err e => e = OutOfMemory /\ fds s' = fds s
  end.

(** A step that leaves nothing but the state of the heap. *)
Lemma heap_only base s s' own : obj_ok s own -> others_kept base own -> mem_ok (heap s') own -> same_objects s (set_heap (heap s) s') ->
  fs_from base s' /\ fds s' = fds s.
Proof.
  intros Hok Hk Hm [_ S2 S3 S4 S5]. split; [| done]. exists own. split_and!; [done | | done].
  apply (obj_keep s s' own own Hok); try done. apply (ok_range _ _ Hok).
Qed.

Lemma pipe_failed base s s' own : obj_ok s own -> others_kept base own -> mem_ok (heap s') own -> same_objects s (set_heap (heap s) s') ->
  fs_from base s' /\ pipe_result s (Err OutOfMemory) s'.
Proof. intros Hok Hk Hm Hs. by destruct (heap_only base s s' own Hok Hk Hm Hs). Qed.

Lemma mem_sub (h : H) own own' : mem_ok h own -> (forall a, is_Some (own' !! a) -> is_Some (own !! a)) -> mem_ok h own'.
Proof. intros (m & Hb & Hm) Hs. exists m. split; [done |]. intros a Ha. by apply Hm, Hs. Qed.

(** Blocks obtained one after the other and given back: [bs] are live beside [own]. *)
Fixpoint with_blocks (bs : list Z) (own : gmap Z owner) : gmap Z owner :=
  match bs with [] => own | b :: bs => <[b := OOther]> (with_blocks bs own) end.

Lemma with_blocks_lookup bs own a : is_Some (with_blocks bs own !! a) <-> a ∈ bs \/ is_Some (own !! a).
Proof.
  induction bs as [| b bs IH]; cbn [with_blocks]; [by rewrite elem_of_nil; naive_solver |].
  rewrite lookup_insert, elem_of_cons. case_decide; [subst; split; [by left; left | by eexists] |]. rewrite IH. naive_solver.
Qed.

(** Giving back the optional block [b]. *)
Lemma give_back s bs own b : mem_ok (heap s) (with_blocks (if b =? 0 then bs else b :: bs) own) ->
  (b <> 0 -> b ∉ bs /\ own !! b = None) ->
  exists h, (if negb (b =? 0) then free b else fun s => Some (tt, s)) s = Some (tt, set_heap h s) /\ mem_ok h (with_blocks bs own).
Proof.
  destruct (Z.eqb_spec b 0) as [Eb | Hb]; cbn [negb]; intros Hm Hn.
  - exists (heap s). by destruct s.
  - destruct (free_ok s _ b Hm) as (h & -> & Hm'); [cbn; rewrite lookup_insert_eq; by eexists |].
    exists h. split; [done |]. destruct (Hn Hb) as [Hbs Ho]. cbn [with_blocks] in Hm'. rewrite delete_insert_id in Hm'; [done |].
    apply eq_None_not_Some. rewrite with_blocks_lookup, Ho. intros [? | [? ?]]; done.
Qed.

Lemma malloc_blocks s bs own n : mem_ok (heap s) (with_blocks bs own) -> 0 < n <= 5000 ->
  exists p h, malloc n s = Some (p, set_heap h s) /\ mem_ok h (with_blocks (if p =? 0 then bs else p :: bs) own) /\
    (p <> 0 -> p ∉ bs /\ own !! p = None /\ heap_range p).
Proof.
  intros Hm Hn. destruct (malloc_ok s _ n Hm Hn) as (p & h & -> & Hp). exists p, h. split; [done |].
  destruct Hp as [[-> Hm1] | (Hp0 & Hnone & Hr & Hm1)]; [done |]. rewrite (proj2 (Z.eqb_neq p 0)) by done. split; [apply Hm1 |]. intros _.
  assert (~ is_Some (with_blocks bs own !! p)) as Hno by (rewrite Hnone; by intros []). rewrite with_blocks_lookup in Hno.
  split_and!; [naive_solver | apply eq_None_not_Some; naive_solver | done].
Qed.

(** The end of [pipe], once the node is there: two descriptors, or everything is
    given back. *)
Lemma pipe_end base s s2 own pb n : obj_ok s own -> others_kept base own -> mem_ok (heap s2) (with_blocks [n; pb] own) ->
  NoDup [pb; n] -> own !! pb = None -> own !! n = None -> Forall heap_range [pb; n] ->
  nodes s2 = <[n := pipe_node pb 2]> (nodes s) -> nodes s !! n = None -> pb <> 0 ->
  pipes s2 = <[pb := Vfs.Pipe ∅ 0 0 0 2]> (pipes s) -> fds s2 = fds s -> vfs_root s2 = vfs_root s -> cwd s2 = cwd s ->
  exists r s', (rfd ← malloc sizeof_FileDescriptor;
    wfd ← malloc sizeof_FileDescriptor;
    if (rfd =? 0) || (wfd =? 0) then
      ((if negb (rfd =? 0) then free rfd else ret tt) ;;
       (if negb (wfd =? 0) then free wfd else ret tt) ;;
       free n ;; modify (fun s => set_nodes (delete n (nodes s)) s) ;;
       free pb ;; modify (fun s => set_pipes (delete pb (pipes s)) s) ;;
       ret (Err OutOfMemory))
    else
      (modify (fun s => set_fds (<[wfd := Fd n 0 VFS_WRITE 0]> (<[rfd := Fd n 0 VFS_READ 0]> (fds s))) s) ;;
       ret (Ok (rfd, wfd)))) s2 = Some (r, s') /\ fs_from base s' /\ pipe_result s r s'.
Proof.
  intros Hok Hk Hm Hnd Npb Nn Hr Hnodes Hfresh Hpb0 Hpipes Hfds Hroot Hcwd. run.
  destruct (malloc_blocks s2 [n; pb] own sizeof_FileDescriptor Hm) as (rf & h1 & -> & Hm1 & Hrf); [unfold sizeof_FileDescriptor; lia |]. cbv beta iota.
  destruct (malloc_blocks (set_heap h1 s2) _ own sizeof_FileDescriptor Hm1) as (wf & h2 & -> & Hm2 & Hwf); [unfold sizeof_FileDescriptor; lia |]. cbv beta iota.
  destruct ((rf =? 0) || (wf =? 0)) eqn:Hz.
  - assert (mem_ok h2 (with_blocks (if rf =? 0 then (if wf =? 0 then [n; pb] else [wf; n; pb]) else rf :: (if wf =? 0 then [n; pb] else [wf; n; pb])) own)) as Hm3.
    { apply (mem_sub _ _ _ Hm2). intros a. rewrite !with_blocks_lookup. destruct (rf =? 0), (wf =? 0); rewrite ?elem_of_cons; naive_solver. }
    destruct (give_back (set_heap h2 (set_heap h1 s2)) _ own rf Hm3) as (h3 & -> & Hm4).
    { intros Hr0. destruct (Hrf Hr0) as (? & ? & _). rewrite (proj2 (Z.eqb_neq rf 0) Hr0) in Hz. cbn [orb] in Hz. by rewrite Hz. }
    cbv beta iota. destruct (give_back (set_heap h3 (set_heap h2 (set_heap h1 s2))) [n; pb] own wf Hm4) as (h4 & -> & Hm5).
    { intros Hw0. destruct (Hwf Hw0) as (Hni & ? & _). split; [| done]. destruct (rf =? 0); [done |]. by apply not_elem_of_cons in Hni as [_ ?]. }
    cbv beta iota. rewrite NoDup_cons in Hnd. destruct Hnd as [Hne%not_elem_of_cons _]. destruct Hne as [Hne _].
    destruct (free_ok (set_heap h4 (set_heap h3 (set_heap h2 (set_heap h1 s2)))) _ n Hm5) as (h5 & -> & Hm6); [cbn; rewrite lookup_insert_eq; by eexists |].
    cbv beta iota. cbn [with_blocks] in Hm6. rewrite delete_insert_id in Hm6 by (by rewrite lookup_insert_ne).
    match goal with |- context [free pb ?x] => destruct (free_ok x _ pb Hm6) as (h6 & -> & Hm7); [rewrite lookup_insert_eq; by eexists |] end.
    rewrite delete_insert_id in Hm7 by done. eexists _, _. split; [done |]. apply (pipe_failed base s _ own); try done.
    split; try done. cbn. rewrite Hnodes. by rewrite delete_insert_id.
  - apply orb_false_iff in Hz as [Z1%Z.eqb_neq Z2%Z.eqb_neq]. rewrite (proj2 (Z.eqb_neq rf 0) Z1), (proj2 (Z.eqb_neq wf 0) Z2) in *.
    destruct (Hrf Z1) as (D1 & Nrf & Rrf), (Hwf Z2) as (D2 & Nwf & Rwf). rewrite !not_elem_of_cons in D1, D2.
    rewrite NoDup_cons in Hnd. destruct Hnd as [Hne%not_elem_of_cons _]. destruct Hne as [Hne _]. rewrite !Forall_cons in Hr.
    eexists _, _. split; [done |]. split.
    + apply (fs_from_step base own (<[wf := OFd]> (<[rf := OFd]> (<[pb := OData n]> (<[n := ONode]> own))))); [done | | |].
      * intros a Ha. rewrite !lookup_insert_ne; [done | intros <-; congruence ..].
      * apply (mem_sub _ _ _ Hm2). intros a. rewrite !with_blocks_lookup, !lookup_insert, !elem_of_cons. repeat case_decide; naive_solver.
      * apply (obj_new_pipe s _ own pb n rf wf Hok); try done.
        -- repeat constructor; set_solver.
        -- rewrite !Forall_cons. naive_solver.
        -- cbn. by rewrite Hfds.
    + split_and!; [naive_solver | | |].
      * apply eq_None_not_Some. intros Hs%(ok_fd _ _ Hok). congruence.
      * apply eq_None_not_Some. intros Hs%(ok_fd _ _ Hok). congruence.
      * exists n, pb. cbn. by rewrite Hfds.
Qed.

Lemma bind_run {A B} (m : M (H := H) A) (k : A -> M B) s x s' : m s = Some (x, s') -> (m ≫= k) s = k x s'.
Proof. run. by intros ->. Qed.

Lemma pipe_from base s : fs_from base s -> exists r s', pipe s = Some (r, s') /\ fs_from base s' /\ pipe_result s r s'.
Proof.
  intros (own & Hm & Hok & Hk). unfold pipe.
  destruct (malloc_blocks s [] own sizeof_PipeBuffer Hm) as (pb & h & Hrun & Hm1 & Hpb); [unfold sizeof_PipeBuffer; lia |].
  rewrite (bind_run _ _ _ _ _ Hrun). destruct (Z.eqb_spec pb 0) as [_ | P0]; [eexists _, _; split; [done |]; by apply (pipe_failed base s _ own) |].
  destruct (Hpb P0) as (_ & Npb & Rpb). erewrite bind_run by done. set (s1 := set_pipes _ (set_heap h s)). unfold alloc_vnode.
  destruct (malloc_blocks s1 [pb] own sizeof_VNode Hm1) as (n & h2 & Hrun2 & Hm2 & Hn); [unfold sizeof_VNode; lia |].
  destruct (Z.eqb_spec n 0) as [-> | N0].
  { erewrite bind_run by (by rewrite (bind_run _ _ _ _ _ Hrun2)). cbn [Z.eqb].
    destruct (free_ok (set_heap h2 s1) _ pb Hm2) as (h3 & Hrun3 & Hm3); [cbn; rewrite lookup_insert_eq; by eexists |].
    rewrite (bind_run _ _ _ _ _ Hrun3). erewrite bind_run by done. cbn [with_blocks] in Hm3. rewrite delete_insert_id in Hm3 by done.
    eexists _, _. split; [done |]. by apply (pipe_failed base s _ own). }
  destruct (Hn N0) as (Hni & Nn & Rn). apply not_elem_of_cons in Hni as [Hne _].
  erewrite bind_run by (rewrite (bind_run _ _ _ _ _ Hrun2), (proj2 (Z.eqb_neq n 0) N0); by erewrite bind_run by done).
  rewrite (proj2 (Z.eqb_neq n 0) N0). erewrite bind_run by done.
  assert (nodes s !! n = None) as Hfresh.
  { apply eq_None_not_Some. intros Hs. destruct (ok_node _ _ Hok n Hs) as [-> | ?]; [| congruence]. unfold heap_range, tty_ptr in Rn. lia. }
  apply (pipe_end base s _ own pb n); try done.
  - by apply NoDup_cons; split; [intros ?%list_elem_of_singleton | apply NoDup_singleton].
  - by rewrite !Forall_cons.
  - unfold nd. cbn. rewrite lookup_insert_eq. by rewrite insert_insert_eq.
Qed.

(** *** Through a descriptor *)

Variable foreign_read : Z -> Z -> Z -> M (H := H) (kResult (list Z)).
Variable foreign_write : Z -> Z -> list Z -> M (H := H) (kResult Z).

(** An open end of the pipe whose buffer at [q] is [b]. *)
Record pipe_fd s (f q : Z) (b : PipeBuffer) : Prop := {
  pf_nonnull : f <> 0;
  pf_type : type (nd s (node (fd s f))) <> VFS_TYPE_DIR;
  pf_ops : ops (nd s (node (fd s f))) = PipeOps;
  pf_data : fdata (nd s (node (fd s f))) = q;
  pf_buffer : q <> 0 /\ pp s q = b;
}.

(** What one end leaves to the other. *)
Record pipe_moved s s' (f q : Z) (b' : PipeBuffer) : Prop := {
  pm_nodes : nodes s' = nodes s;
  pm_pipes : pipes s' = <[q := b']> (pipes s);
  pm_fds : forall g, g <> f -> fds s' !! g = fds s !! g;
}.

Lemma pipe_fd_write s f q b src : pipe_fd s f q b -> has (flags (fd s f)) VFS_WRITE = true -> has (flags (fd s f)) VFS_APPEND = false ->
  exists s', write foreign_write f src s = Some ((pipe_put src b).1, s') /\ pipe_moved s s' f q (pipe_put src b).2.
Proof.
  intros [F1 F2 F3 F4 [F5 F6]] Hw Ha. unfold write. rewrite (proj2 (Z.eqb_neq f 0)) by done. run. rewrite Hw, (proj2 (Z.eqb_neq _ _) F2), F3, Ha. cbn [negb].
  rewrite decide_False by done. unfold pipe_write. run. rewrite F4, (proj2 (Z.eqb_neq q 0)), F6 by done.
  destruct (pipe_put src b) as [r b']. cbn [fst snd]. destruct r as [k | e]; [destruct (0 <? k) |]; eexists; (split; [done |]); split; try done.
  intros g Hg. cbn. by rewrite lookup_insert_ne.
Qed.

Lemma pipe_fd_read s f q b len : pipe_fd s f q b -> has (flags (fd s f)) VFS_READ = true ->
  exists s', read foreign_read f len s = Some (Ok (pipe_get len b).1, s') /\ pipe_moved s s' f q (pipe_get len b).2.
Proof.
  intros [F1 F2 F3 F4 [F5 F6]] Hr. unfold read. rewrite (proj2 (Z.eqb_neq f 0)) by done. run. rewrite Hr, (proj2 (Z.eqb_neq _ _) F2), F3. cbn [negb].
  unfold pipe_read. run. rewrite F4, (proj2 (Z.eqb_neq q 0)), F6 by done. destruct (pipe_get len b) as [l b']. cbn [fst snd].
  destruct (0 <? _); eexists; (split; [done |]); split; try done. intros g Hg. cbn. by rewrite lookup_insert_ne.
Qed.

(** Both ends of a new pipe. *)
Lemma pipe_result_fds s rf wf v : rf <> 0 -> wf <> 0 -> pipe_result s (Ok (rf, wf)) v ->
  exists q, pipe_fd v rf q (Vfs.Pipe ∅ 0 0 0 2) /\ pipe_fd v wf q (Vfs.Pipe ∅ 0 0 0 2) /\ fd v rf <> fd v wf /\
    flags (fd v rf) = VFS_READ /\ flags (fd v wf) = VFS_WRITE.
Proof.
  intros R0 W0 (Hne & _ & _ & n & q & Q0 & Hf & Hn & Hp). exists q.
  assert (fd v rf = Fd n 0 VFS_READ 0) as Er by (unfold fd; by rewrite Hf, lookup_insert_ne, lookup_insert_eq).
  assert (fd v wf = Fd n 0 VFS_WRITE 0) as Ew by (unfold fd; by rewrite Hf, lookup_insert_eq).
  assert (nd v n = pipe_node q 2) as En by (unfold nd; by rewrite Hn, lookup_insert_eq).
  assert (pp v q = Vfs.Pipe ∅ 0 0 0 2) as Eq by (unfold pp; by rewrite Hp, lookup_insert_eq).
  rewrite Er, Ew. split_and!; try done; split; rewrite ?Er, ?Ew; cbn [node]; rewrite ?En; done.
Qed.

Lemma pipe_fd_moved s s' f g q b b' : pipe_moved s s' f q b' -> f <> g -> pipe_fd s g q b -> pipe_fd s' g q b'.
Proof.
  intros [M1 M2 M3] Hne [F1 F2 F3 F4 [F5 F6]]. assert (fd s' g = fd s g) as E by (unfold fd; by rewrite M3).
  assert (forall p, nd s' p = nd s p) as En by (intros p; unfold nd; by rewrite M1).
  split; rewrite ?E, ?En; try done. split; [done |]. unfold pp. by rewrite M2, lookup_insert_eq.
Qed.
End pipes.
