(* ===== verification/FdTable.v ===== *)
(** * proc/fdtable.cpp: the descriptor table of a task

    A table is an array of 64 pointers to file descriptors and a count.  Tables
    live in a map keyed by the address [kmalloc] returned, next to the state of
    the virtual file system whose descriptors they hold.  A null pointer is 0; a
    slot that was never written is null.  [None] stands for a call that does not
    return. *)
From S2P Require Import Prelude Ring Alloc Vfs VfsTree.

Definition MAX_FDS : Z := 64.
Definition FD_OFFSET : Z := 3.
Definition sizeof_FDTable : Z := 520.

Record FDTable := Table { slots : gmap Z Z; count : Z }.

(** [table->fds[i]] *)
Definition file (t : FDTable) (i : Z) : Z := slot 0 (slots t) i.
Definition store (i f n : Z) (t : FDTable) : FDTable := Table (<[i := f]> (slots t)) n.

(** ** Operations on one table *)

(** The first free slot from 3 on receives the file. *)
Definition install (t : FDTable) (f : Z) : kResult Z * FDTable :=
  if f =? 0 then (Err InvalidArgument, t) else
  match find_range FD_OFFSET MAX_FDS (fun i => file t i =? 0) with
  | Some i => (Ok i, store i f (u32 (count t + 1)) t)
  | None => (Err OutOfFileDescriptors, t)
  end.

Definition install_at (t : FDTable) (f fd : Z) : kResult Z * FDTable :=
  if f =? 0 then (Err InvalidArgument, t) else
  if fd <? 0 then (Err InvalidArgument, t) else
  let idx := u32 fd in
  if MAX_FDS <=? idx then (Err InvalidArgument, t) else
  if negb (file t idx =? 0) then (Err AlreadyExists, t) else
  (Ok fd, store idx f (u32 (count t + 1)) t).

Definition lookup (t : FDTable) (fd : Z) : kResult Z :=
  if MAX_FDS <=? fd then Err BadFileDescriptor else
  if file t fd =? 0 then Err BadFileDescriptor else Ok (file t fd).

Definition remove (t : FDTable) (fd : Z) : kResult Z * FDTable :=
  if MAX_FDS <=? fd then (Err BadFileDescriptor, t) else
  if file t fd =? 0 then (Err BadFileDescriptor, t) else
  (Ok (file t fd), store fd 0 (u32 (count t - 1)) t).

(** ** A table is a partial map from descriptor numbers to files *)

Definition used (t : FDTable) (i : Z) : bool := negb (file t i =? 0).

Record table_wf (t : FDTable) : Prop := {
  tw_count : count t = count_range 0 MAX_FDS (used t);
}.

Lemma file_store i f n t j : file (store i f n t) j = if decide (i = j) then f else file t j.
Proof. unfold file, slot, store. cbn [slots]. rewrite lookup_insert. by case_decide. Qed.

Lemma used_store i f n t j : used (store i f n t) j = if decide (i = j) then negb (f =? 0) else used t j.
Proof. unfold used. rewrite file_store. by case_decide. Qed.

Lemma count_bound t : table_wf t -> 0 <= count t <= 64.
Proof. intros [->]. pose proof (count_range_bound 0 MAX_FDS (used t)). unfold MAX_FDS in *. lia. Qed.

(** Filling a free slot and clearing a used one keep the count exact. *)
Lemma store_wf t i f : table_wf t -> 0 <= i < MAX_FDS -> file t i = 0 -> f <> 0 ->
  table_wf (store i f (u32 (count t + 1)) t).
Proof.
  intros Hwf Hi Hfree Hf. pose proof (count_bound t Hwf). split. cbn [count store].
  rewrite u32_small by (mach; lia). rewrite (count_range_update 0 MAX_FDS (used t) _ i Hi).
  - rewrite used_store, decide_True by done. unfold used. rewrite Hfree, (proj2 (Z.eqb_neq f 0)) by done.
    rewrite (tw_count t Hwf). simpl. fold (used t). lia.
  - intros j _ Hj. by rewrite used_store, decide_False by done.
Qed.

Lemma remove_wf t i : table_wf t -> 0 <= i < MAX_FDS -> file t i <> 0 ->
  table_wf (store i 0 (u32 (count t - 1)) t).
Proof.
  intros Hwf Hi Hused. pose proof (count_bound t Hwf). split. cbn [count store].
  assert (count_range 0 MAX_FDS (used (store i 0 (u32 (count t - 1)) t)) = count t - 1) as Hc.
  { rewrite (count_range_update 0 MAX_FDS (used t) _ i Hi).
    - rewrite used_store, decide_True by done. unfold used at 2. rewrite (proj2 (Z.eqb_neq (file t i) 0)) by done.
      rewrite (tw_count t Hwf). simpl. lia.
    - intros j _ Hj. by rewrite used_store, decide_False by done. }
  rewrite Hc. pose proof (count_range_bound 0 MAX_FDS (used (store i 0 (u32 (count t - 1)) t))).
  apply u32_small. unfold MAX_FDS in *. mach. lia.
Qed.


Lemma empty_wf : table_wf (Table ∅ 0).
Proof. split. reflexivity. Qed.


(** ** Tables in memory *)

Section tables.
Context {H : Type} `{!Allocator H}.
Variable foreign_close : Z -> M (H := H) unit.

Record tstate := TState { vfs : Vfs.state H; tables : gmap Z FDTable }.

Definition table (s : tstate) (t : Z) : FDTable := default (Table ∅ 0) (tables s !! t).
Definition set_vfs (v : Vfs.state H) (s : tstate) : tstate := TState v (tables s).
Definition upd_table (t : Z) (f : FDTable -> FDTable) (s : tstate) : tstate :=
  TState (vfs s) (<[t := f (table s t)]> (tables s)).

Definition alloc (s : tstate) : option (Z * tstate) :=
  '(t, v) ← Vfs.malloc sizeof_FDTable (vfs s);
  if t =? 0 then Some (0, set_vfs v s) else Some (t, TState v (<[t := Table ∅ 0]> (tables s))).

(** [for (i = 0; i < MAX_FDS; i++) if (table->fds[i]) ...] from slot [i] on. *)
Fixpoint close_slots (n : nat) (i : Z) (t : Z) (s : tstate) : option tstate :=
  match n with
  | O => Some s
  | S n' =>
      if negb (file (table s t) i =? 0) then
        '(_, v) ← Vfs.close foreign_close (file (table s t) i) (vfs s);
        close_slots n' (i + 1) t (upd_table t (fun x => store i 0 (count x) x) (set_vfs v s))
      else close_slots n' (i + 1) t s
  end.

Definition free (t : Z) (s : tstate) : option tstate :=
  if t =? 0 then Some s else
  s ← close_slots (Z.to_nat MAX_FDS) 0 t s;
  '(_, v) ← Vfs.free t (vfs s);
  Some (TState v (delete t (tables s))).

(** The copying loop of [clone] from slot [i] on; [false] when a [dup] failed. *)
Fixpoint clone_slots (n : nat) (i src dst : Z) (s : tstate) : option (bool * tstate) :=
  match n with
  | O => Some (true, s)
  | S n' =>
      let f := file (table s src) i in
      if f =? 0 then clone_slots n' (i + 1) src dst s else
      '(r, v) ← Vfs.dup f (vfs s);
      let s := set_vfs v s in
      match r with
      | Err _ => Some (false, s)
      | Ok c => clone_slots n' (i + 1) src dst (upd_table dst (fun x => store i c (u32 (count x + 1)) x) s)
      end
  end.

Definition clone (src : Z) (s : tstate) : option (Z * tstate) :=
  if src =? 0 then Some (0, s) else
  '(dst, s) ← alloc s;
  if dst =? 0 then Some (0, s) else
  '(ok, s) ← clone_slots (Z.to_nat MAX_FDS) 0 src dst s;
  if ok : bool then Some (dst, s) else (s ← free dst s; Some (0, s)).

(** *** Invariant

    [own] is the ownership of heap blocks of [VfsTree], with the tables among the
    other parts of the kernel. *)

Record tables_ok (s : tstate) (own : gmap Z owner) : Prop := {
  tb_mem : mem_ok (heap (vfs s)) own;
  tb_obj : obj_ok (vfs s) own;
  tb_own : forall t, is_Some (tables s !! t) -> own !! t = Some OOther;
  tb_open : forall t i, 0 <= i < MAX_FDS -> file (table s t) i <> 0 -> is_Some (fds (vfs s) !! file (table s t) i);
  tb_private : forall t i u j, 0 <= i < MAX_FDS -> 0 <= j < MAX_FDS -> file (table s t) i <> 0 ->
    file (table s t) i = file (table s u) j -> t = u /\ i = j;
}.

Lemma table_upd t f s u : table (upd_table t f s) u = if decide (t = u) then f (table s t) else table s u.
Proof. unfold table, upd_table. cbn [tables]. rewrite lookup_insert. by case_decide. Qed.

Lemma file_upd t i f n s u j : file (table (upd_table t (fun x => store i f (n x) x) s) u) j =
  if decide (t = u /\ i = j) then f else file (table s u) j.
Proof.
  rewrite table_upd. destruct (decide (t = u)) as [-> |].
  - rewrite file_store. destruct (decide (i = j)) as [-> |]; [by rewrite decide_True | rewrite decide_False; [done | naive_solver]].
  - rewrite decide_False; [done | naive_solver].
Qed.

Lemma tables_upd_own t f s u : is_Some (tables s !! t) -> is_Some (tables (upd_table t f s) !! u) <-> is_Some (tables s !! u).
Proof.
  intros Ht. unfold upd_table. cbn [tables]. rewrite lookup_insert. case_decide; [subst; split; [done | by eexists] | done].
Qed.

(** One slot closed. *)
Lemma close_slot_ok s own t i : tables_ok s own -> is_Some (tables s !! t) -> 0 <= i < MAX_FDS -> file (table s t) i <> 0 ->
  exists v own', Vfs.close foreign_close (file (table s t) i) (vfs s) = Some (tt, v) /\
    fds v = delete (file (table s t) i) (fds (vfs s)) /\ others_kept own own' /\
    tables_ok (upd_table t (fun x => store i 0 (count x) x) (set_vfs v s)) own'.
Proof.
  intros [Hm Ho Hown Hopen Hpriv] Ht Hi Hf.
  destruct (close_own foreign_close (vfs s) own _ Hm Ho (Hopen t i Hi Hf)) as (v & own' & Hc & Hm' & Ho' & Hfds & Hkeep).
  exists v, own'. split; [done |]. split; [done |]. split; [done |].
  assert (forall u j, file (table (upd_table t (fun x => store i 0 (count x) x) (set_vfs v s)) u) j =
    if decide (t = u /\ i = j) then 0 else file (table s u) j) as Hfile by (intros u j; apply (file_upd t i 0 count (set_vfs v s))).
  split; [done | done | | |].
  - intros u Hu. apply Hkeep, Hown. by apply (tables_upd_own t) in Hu.
  - intros u j Hj. rewrite Hfile. case_decide as Hd; [done |]. intros Hne. cbn [vfs upd_table set_vfs]. rewrite Hfds.
    rewrite lookup_delete_ne; [by apply Hopen |]. intros Heq. apply Hd. by apply (Hpriv t i u j).
  - intros u j w k Hj Hk. rewrite !Hfile. repeat case_decide; try done; try naive_solver.
Qed.

(** [f] is in one of the [n] slots of table [t] from [i] on. *)
Definition in_slots (s : tstate) (t i n f : Z) : Prop := exists j, i <= j < i + n /\ file (table s t) j = f /\ f <> 0.

Lemma close_slots_ok n i s own t : tables_ok s own -> is_Some (tables s !! t) -> 0 <= i -> i + Z.of_nat n <= MAX_FDS ->
  exists s' own', close_slots n i t s = Some s' /\ tables_ok s' own' /\ others_kept own own' /\
    (forall u, is_Some (tables s' !! u) <-> is_Some (tables s !! u)) /\
    (forall u j, file (table s' u) j = if decide (t = u /\ i <= j < i + Z.of_nat n) then 0 else file (table s u) j) /\
    (forall f, in_slots s t i (Z.of_nat n) f -> fds (vfs s') !! f = None) /\
    (forall f, ~ in_slots s t i (Z.of_nat n) f -> fds (vfs s') !! f = fds (vfs s) !! f).
Proof.
  revert i s own. induction n as [| n IH]; intros i s own Hok Ht Hi Hn; cbn [close_slots].
  { exists s, own. split; [done |]. split; [done |]. split; [by intros a |]. split; [done |]. split_and!; [| intros f (j & ? & _); lia | done].
    intros u j. rewrite decide_False by lia. done. }
  destruct (Z.eqb_spec (file (table s t) i) 0) as [H0 | H0]; cbn [negb].
  - destruct (IH (i + 1) s own Hok Ht) as (s' & own' & -> & Hok' & Hkp & Hdom & Hfile & Hin & Hout); [lia | lia |].
    assert (forall f, in_slots s t i (Z.of_nat (S n)) f <-> in_slots s t (i + 1) (Z.of_nat n) f) as Heq.
    { intros f. split; intros (j & Hj & Hjf & Hne); exists j; (split; [| done]); [| lia].
      destruct (decide (i = j)) as [<- |]; [congruence | lia]. }
    exists s', own'. split; [done |]. split; [done |]. split; [done |]. split; [done |]. split_and!.
    + intros u j. rewrite Hfile. destruct (decide (t = u /\ i = j)) as [[<- <-] |].
      * rewrite decide_False, decide_True by lia. done.
      * apply decide_ext. lia.
    + intros f Hf%Heq. by apply Hin.
    + intros f Hf. apply Hout. by rewrite <- Heq.
  - destruct (close_slot_ok s own t i Hok Ht ltac:(lia) H0) as (v & own1 & -> & Hv & Hkp1 & Hok1). cbn [mbind option_bind].
    set (s1 := upd_table t (fun x => store i 0 (count x) x) (set_vfs v s)) in *.
    assert (forall u j, file (table s1 u) j = if decide (t = u /\ i = j) then 0 else file (table s u) j) as Hfile1
      by (intros u j; apply (file_upd t i 0 count (set_vfs v s))).
    assert (forall u, is_Some (tables s1 !! u) <-> is_Some (tables s !! u)) as Hdom1 by (intros u; by apply (tables_upd_own t _ (set_vfs v s))).
    destruct (IH (i + 1) s1 own1 Hok1) as (s' & own' & -> & Hok' & Hkp & Hdom & Hfile & Hin & Hout); [by apply Hdom1 | lia | lia |].
    assert (forall f, in_slots s1 t (i + 1) (Z.of_nat n) f <-> in_slots s t i (Z.of_nat (S n)) f /\ f <> file (table s t) i) as Heq.
    { intros f. split.
      - intros (j & Hj & Hjf & Hne). rewrite Hfile1, decide_False in Hjf by lia. split; [exists j; split_and!; (done || lia) |].
        intros ->. destruct (tb_private _ _ Hok t i t j) as [_ ?]; (done || lia || congruence).
      - intros [(j & Hj & Hjf & Hne) Hi']. exists j. assert (i <> j) by congruence.
        rewrite Hfile1, decide_False by lia. split_and!; (done || lia). }
    exists s', own'. split; [done |]. split; [done |]. split; [intros a Ha; by apply Hkp, Hkp1 |].
    split; [intros u; by rewrite Hdom, Hdom1 |]. split_and!.
    + intros u j. rewrite Hfile, Hfile1. destruct (decide (t = u /\ i = j)) as [[<- <-] |].
      * rewrite (decide_True (P := t = t /\ i <= i < _)) by lia. by case_decide.
      * apply decide_ext. lia.
    + intros f Hf. destruct (decide (f = file (table s t) i)) as [-> | Hne]; [| apply Hin; by apply Heq].
      rewrite Hout; [| rewrite Heq; by intros [_ ?]]. cbn [vfs s1 upd_table set_vfs]. by rewrite Hv, lookup_delete_eq.
    + intros f Hf. rewrite Hout; [| rewrite Heq; by intros [? _]]. cbn [vfs s1 upd_table set_vfs].
      rewrite Hv, lookup_delete_ne; [done |]. intros <-. apply Hf. exists i. split_and!; (done || lia).
Qed.

(** Releasing a block of another part of the kernel. *)
Lemma obj_drop (s : Vfs.state H) own t h : obj_ok s own -> own !! t = Some OOther -> obj_ok (set_heap h s) (delete t own).
Proof.
  intros Hok Ht. apply (obj_keep s _ own _ Hok); try done.
  - intros a o Ho Ha. rewrite lookup_delete_ne; [done |]. intros <-. congruence.
  - intros a. rewrite lookup_delete. case_decide; [by intros [] | apply (ok_range _ _ Hok)].
Qed.

Lemma file_delete s v t u j : file (table (TState v (delete t (tables s))) u) j = if decide (t = u) then 0 else file (table s u) j.
Proof. unfold table. cbn [tables]. rewrite lookup_delete. by case_decide. Qed.

Lemma free_table_ok s own t : tables_ok s own -> is_Some (tables s !! t) ->
  exists s' own', free t s = Some s' /\ tables_ok s' own' /\ (forall a, a <> t -> own !! a = Some OOther -> own' !! a = Some OOther) /\
    (forall u, is_Some (tables s' !! u) <-> is_Some (tables s !! u) /\ u <> t) /\
    (forall u j, 0 <= j < MAX_FDS -> file (table s' u) j = if decide (t = u) then 0 else file (table s u) j) /\
    (forall f, in_slots s t 0 MAX_FDS f -> fds (vfs s') !! f = None) /\
    (forall f, ~ in_slots s t 0 MAX_FDS f -> fds (vfs s') !! f = fds (vfs s) !! f).
Proof.
  intros Hok Ht. unfold free. rewrite (proj2 (Z.eqb_neq t 0)).
  2: { intros ->. assert (heap_range 0) as Hr by (apply (ok_range _ _ (tb_obj _ _ Hok)); rewrite (tb_own _ _ Hok 0 Ht); by eexists).
       unfold heap_range in Hr. lia. }
  destruct (close_slots_ok (Z.to_nat MAX_FDS) 0 s own t Hok Ht) as (s1 & own1 & -> & Hok1 & Hkp & Hdom & Hfile & Hin & Hout);
    [lia | by rewrite Z2Nat.id |].
  rewrite Z2Nat.id in * by done. cbn [mbind option_bind].
  pose proof (tb_own _ _ Hok1 t (proj2 (Hdom t) Ht)) as Hot.
  destruct (free_ok (vfs s1) own1 t (tb_mem _ _ Hok1)) as (h & -> & Hm); [by eexists |]. cbn [mbind option_bind].
  eexists _, (delete t own1). split; [done |].
  split; [| split; [intros a Hat Ha; rewrite lookup_delete_ne by done; by apply Hkp | split_and!]].
  - split; cbn [vfs tables].
    + done.
    + apply obj_drop; [apply (tb_obj _ _ Hok1) | done].
    + intros u Hu. cbn [tables] in Hu. rewrite lookup_delete in Hu. case_decide; [by destruct Hu |].
      rewrite lookup_delete_ne by done. by apply (tb_own _ _ Hok1).
    + intros u i Hi. rewrite file_delete. case_decide; [done |]. by apply (tb_open _ _ Hok1).
    + intros u i w j Hi Hj. rewrite !file_delete. repeat case_decide; try done. by apply (tb_private _ _ Hok1).
  - intros u. cbn [tables]. rewrite lookup_delete. case_decide; [subst; split; [by intros [] | by intros []] |].
    rewrite Hdom. naive_solver.
  - intros u j Hj. rewrite file_delete. case_decide; [done |]. rewrite Hfile, decide_False; [done | naive_solver].
  - intros f Hf. by apply Hin.
  - intros f Hf. by apply Hout.
Qed.

(** *** clone *)

(** One slot copied. *)
Lemma clone_slot_ok s own src dst i : tables_ok s own -> is_Some (tables s !! dst) -> 0 <= i < MAX_FDS ->
  file (table s src) i <> 0 -> file (table s dst) i = 0 ->
  exists r v own', Vfs.dup (file (table s src) i) (vfs s) = Some (r, v) /\ others_kept own own' /\
    match r with
    | Err _ => tables_ok (set_vfs v s) own' /\ fds v = fds (vfs s)
    | Ok c => tables_ok (upd_table dst (fun x => store i c (u32 (count x + 1)) x) (set_vfs v s)) own' /\
        c <> 0 /\ fds (vfs s) !! c = None /\
        exists d, fds (vfs s) !! file (table s src) i = Some d /\ fds v = <[c := d]> (fds (vfs s))
    end.
Proof.
  intros Hok Hdst Hi Hf Hfree. pose proof (tb_open _ _ Hok src i Hi Hf) as [d Hd].
  destruct (dup_own (vfs s) own _ (tb_mem _ _ Hok) (tb_obj _ _ Hok) ltac:(by eexists)) as (r & v & own' & Hdup & Hm & Ho & Hkeep & Hr).
  exists r, v, own'. split; [done |]. split; [done |]. destruct Hr as [[-> Hfds] | (c & -> & Hnone & Hfds)].
  - split; [| done]. split; cbn [vfs set_vfs]; [done | done | | |].
    + intros t Ht. by apply Hkeep, (tb_own _ _ Hok).
    + intros t j Hj Hne. rewrite Hfds. by apply (tb_open _ _ Hok t j).
    + apply (tb_private _ _ Hok).
  - assert (fd (vfs s) (file (table s src) i) = d) as Hfd by (unfold fd; by rewrite Hd). rewrite Hfd in Hfds.
    assert (c <> 0) as Hc0.
    { intros ->. assert (heap_range 0) as Hr by (apply (ok_range _ _ Ho); rewrite (ok_fd _ _ Ho 0); [by eexists |];
        rewrite Hfds, lookup_insert_eq; by eexists). unfold heap_range in Hr. lia. }
    split; [| split_and!; [done | done | by exists d]].
    assert (forall u j, file (table (upd_table dst (fun x => store i c (u32 (count x + 1)) x) (set_vfs v s)) u) j =
      if decide (dst = u /\ i = j) then c else file (table s u) j) as Hfile
      by (intros u j; apply (file_upd dst i c (fun x => u32 (count x + 1)) (set_vfs v s))).
    assert (forall u j, 0 <= j < MAX_FDS -> file (table s u) j <> 0 -> file (table s u) j <> c) as Hfresh.
    { intros u j Hj Hne Heq. destruct (tb_open _ _ Hok u j Hj Hne) as [x Hx]. congruence. }
    split; cbn [vfs set_vfs upd_table]; [done | done | | |].
    + intros t Ht. apply Hkeep, (tb_own _ _ Hok). by apply (tables_upd_own dst _ (set_vfs v s)) in Ht.
    + intros u j Hj. rewrite Hfile, Hfds, lookup_insert. case_decide; [intros _; by rewrite decide_True |].
      intros Hne. case_decide; [by eexists |]. by apply (tb_open _ _ Hok u j).
    + intros u j w k Hj Hk. rewrite !Hfile. repeat case_decide; intros Hne Heq.
      * naive_solver.
      * destruct (Hfresh w k Hk); congruence.
      * by destruct (Hfresh u j Hj Hne).
      * by apply (tb_private _ _ Hok u j w k).
Qed.

(** The state after some slots were copied: what was open stays as it was, and
    what was opened is in the new table. *)
Record copied (s s' : tstate) (dst i n : Z) : Prop := {
  cp_dom : forall u, is_Some (tables s' !! u) <-> is_Some (tables s !! u);
  cp_tables : forall u j, u <> dst \/ ~ (i <= j < i + n) -> file (table s' u) j = file (table s u) j;
  cp_old : forall f, is_Some (fds (vfs s) !! f) -> fds (vfs s') !! f = fds (vfs s) !! f;
  cp_new : forall f, fds (vfs s) !! f = None -> is_Some (fds (vfs s') !! f) -> in_slots s' dst i n f;
  cp_fresh : forall j, i <= j < i + n -> file (table s' dst) j <> 0 -> fds (vfs s) !! file (table s' dst) j = None;
}.

Lemma clone_slots_ok n i src dst s own : tables_ok s own -> is_Some (tables s !! dst) -> src <> dst ->
  0 <= i -> i + Z.of_nat n <= MAX_FDS -> (forall j, i <= j < MAX_FDS -> file (table s dst) j = 0) ->
  exists b s' own', clone_slots n i src dst s = Some (b, s') /\ tables_ok s' own' /\ others_kept own own' /\ copied s s' dst i (Z.of_nat n) /\
    (b = true -> forall j, i <= j < i + Z.of_nat n ->
       (file (table s' dst) j = 0 <-> file (table s src) j = 0) /\
       (file (table s src) j <> 0 -> fds (vfs s') !! file (table s' dst) j = fds (vfs s) !! file (table s src) j)).
Proof.
  intros Hok Hdst Hne. revert i s own Hok Hdst. induction n as [| n IH]; intros i s own Hok Hdst Hi Hn Hempty; cbn [clone_slots].
  { exists true, s, own. split; [done |]. split; [done |]. split; [by intros a |]. split; [split; try done |]; try (intros; lia).
    intros f Hnone [d Hd]. congruence. }
  destruct (Z.eqb_spec (file (table s src) i) 0) as [H0 | H0].
  - destruct (IH (i + 1) s own Hok Hdst) as (b & s' & own' & -> & Hok' & Hkp & [C1 C2 C3 C4 C5] & Hall); [lia | lia | intros; apply Hempty; lia |].
    exists b, s', own'. split; [done |]. split; [done |]. split; [done |].
    assert (file (table s' dst) i = 0) as Hi0 by (rewrite C2 by (right; lia); apply Hempty; lia).
    split; [split |].
    + done.
    + intros u j Hj. apply C2. destruct Hj; [by left | right; lia].
    + done.
    + intros f Hf Hs. destruct (C4 f Hf Hs) as (j & ? & ?). exists j. split; [lia | done].
    + intros j Hj Hnz. apply C5; [| done]. destruct (decide (j = i)); [congruence | lia].
    + intros Hb j Hj. destruct (decide (j = i)) as [-> |]; [split; [by rewrite H0, Hi0 | done] | apply Hall; (done || lia)].
  - destruct (clone_slot_ok s own src dst i Hok Hdst ltac:(lia) H0 ltac:(apply Hempty; lia)) as (r & v & own1 & -> & Hkp1 & Hr).
    cbn [mbind option_bind]. destruct r as [c | e].
    2: { destruct Hr as [Hok1 Hfds]. exists false, (set_vfs v s), own1. split; [done |]. split; [done |]. split; [done |]. split; [split |]; try done.
         - intros f _. cbn [vfs set_vfs]. by rewrite Hfds.
         - intros f Hf [d Hd]. cbn [vfs set_vfs] in Hd. rewrite Hfds in Hd. congruence.
         - intros j Hj Hnz. exfalso. apply Hnz. apply Hempty. lia. }
    destruct Hr as (Hok1 & Hc0 & Hcnone & d & Hd & Hfds).
    set (s1 := upd_table dst _ (set_vfs v s)) in *.
    assert (forall u j, file (table s1 u) j = if decide (dst = u /\ i = j) then c else file (table s u) j) as Hfile1
      by (intros u j; apply (file_upd dst i c (fun x => u32 (count x + 1)) (set_vfs v s))).
    assert (forall u, is_Some (tables s1 !! u) <-> is_Some (tables s !! u)) as Hdom1
      by (intros u; by apply (tables_upd_own dst _ (set_vfs v s))).
    assert (forall f, fds (vfs s1) !! f = if decide (c = f) then Some d else fds (vfs s) !! f) as Hfds1.
    { intros f. cbn [vfs s1 upd_table set_vfs]. rewrite Hfds, lookup_insert. by case_decide. }
    destruct (IH (i + 1) s1 own1 Hok1) as (b & s' & own' & -> & Hok' & Hkp & [C1 C2 C3 C4 C5] & Hall);
      [by apply Hdom1 | lia | lia | intros j Hj; rewrite Hfile1, decide_False by lia; apply Hempty; lia |].
    assert (file (table s' dst) i = c) as Hi0 by (rewrite C2 by (right; lia); by rewrite Hfile1, decide_True).
    assert (fds (vfs s') !! c = Some d) as Hcd by (rewrite C3; rewrite Hfds1, decide_True by done; [done | by eexists]).
    exists b, s', own'. split; [done |]. split; [done |]. split; [intros a Ha; by apply Hkp, Hkp1 |]. split; [split |].
    + intros u. by rewrite C1, Hdom1.
    + intros u j Hj. rewrite C2 by (destruct Hj; [by left | right; lia]). rewrite Hfile1, decide_False; [done |].
      intros [<- <-]. destruct Hj; [done | lia].
    + intros f [x Hx]. assert (c <> f) by congruence.
      rewrite C3; rewrite Hfds1, decide_False by done; [done | by eexists].
    + intros f Hf Hs. destruct (decide (c = f)) as [<- | Hcf].
      * exists i. split_and!; (done || lia).
      * destruct (C4 f) as (j & Hj & Hjf); [by rewrite Hfds1, decide_False | done |]. exists j. split; [lia | done].
    + intros j Hj Hnz. destruct (decide (j = i)) as [-> |]; [by rewrite Hi0 |].
      assert (fds (vfs s1) !! file (table s' dst) j = None) as Hn1 by (apply C5; (done || lia)).
      rewrite Hfds1 in Hn1. by case_decide.
    + intros Hb j Hj. destruct (decide (j = i)) as [-> |].
      * rewrite Hi0. split; [naive_solver |]. intros _. by rewrite Hcd, Hd.
      * destruct (Hall Hb j ltac:(lia)) as [A1 A2]. rewrite Hfile1, decide_False in A1, A2 by naive_solver.
        split; [done |]. intros Hnz. rewrite (A2 Hnz), Hfds1, decide_False; [done |]. intros Heq.
        destruct (tb_open _ _ Hok src j ltac:(lia) Hnz) as [x Hx]. congruence.
Qed.

Lemma fdt_alloc_ok s own : tables_ok s own ->
  exists t s' own', alloc s = Some (t, s') /\ tables_ok s' own' /\ others_kept own own' /\ fds (vfs s') = fds (vfs s) /\
    ((t = 0 /\ tables s' = tables s) \/
     (t <> 0 /\ own !! t = None /\ tables s !! t = None /\ tables s' = <[t := Table ∅ 0]> (tables s))).
Proof.
  intros Hok. unfold alloc.
  destruct (malloc_ok (vfs s) own sizeof_FDTable (tb_mem _ _ Hok)) as (t & h & -> & Ht); [unfold sizeof_FDTable; lia |].
  cbn [mbind option_bind]. destruct Ht as [[-> Hm] | (Ht0 & Hnone & Hr & Hm)].
  - cbn [Z.eqb]. eexists 0, _, own. split; [done |]. split; [| split; [by intros a | split; [done | by left]]].
    split; cbn [vfs tables set_vfs]; [done | | apply (tb_own _ _ Hok) | apply (tb_open _ _ Hok) | apply (tb_private _ _ Hok)].
    apply (obj_keep (vfs s) _ own own (tb_obj _ _ Hok)); try done. apply (ok_range _ _ (tb_obj _ _ Hok)).
  - rewrite (proj2 (Z.eqb_neq t 0)) by done. eexists t, _, (<[t := OOther]> own). split; [done |].
    assert (tables s !! t = None) as Hnot.
    { apply eq_None_not_Some. intros Hs%(tb_own _ _ Hok). congruence. }
    split; [| split; [| split; [done | right; by split_and!]]].
    2: { intros a Ha. rewrite lookup_insert_ne; [done |]. intros ->. congruence. }
    assert (forall u j, file (table (TState (set_heap h (vfs s)) (<[t := Table ∅ 0]> (tables s))) u) j = file (table s u) j) as Hfile.
    { intros u j. unfold table. cbn [tables]. rewrite lookup_insert. case_decide; [subst; by rewrite Hnot | done]. }
    split; cbn [vfs tables]; [done | | | |].
    + apply (obj_keep (vfs s) _ own _ (tb_obj _ _ Hok)); try done.
      * intros a o _ Ha. rewrite lookup_insert_ne; [done |]. intros ->. congruence.
      * intros a. rewrite lookup_insert. case_decide; [by subst | apply (ok_range _ _ (tb_obj _ _ Hok))].
    + intros u. rewrite !lookup_insert. case_decide; [done |]. intros Hu. by apply (tb_own _ _ Hok).
    + intros u j Hj. rewrite Hfile. by apply (tb_open _ _ Hok).
    + intros u j w k. rewrite !Hfile. by apply (tb_private _ _ Hok).
Qed.

(** An open descriptor that no table holds can be put into a free slot. *)
Lemma put_ok s own t i f n : tables_ok s own -> is_Some (tables s !! t) -> is_Some (fds (vfs s) !! f) ->
  (forall u j, 0 <= j < MAX_FDS -> file (table s u) j <> f) ->
  tables_ok (upd_table t (fun x => store i f (n x) x) s) own.
Proof.
  intros Hok Ht Hf Hfree. pose proof (file_upd t i f n s) as Hfile.
  split; cbn [vfs upd_table]; [apply (tb_mem _ _ Hok) | apply (tb_obj _ _ Hok) | | |].
  - intros u Hu. apply (tb_own _ _ Hok). by apply (tables_upd_own t _ s) in Hu.
  - intros u j Hj. rewrite Hfile. case_decide; [done |]. by apply (tb_open _ _ Hok).
  - intros u j w k Hj Hk. rewrite !Hfile. repeat case_decide; intros Hne Heq.
    + naive_solver.
    + by destruct (Hfree w k Hk).
    + by destruct (Hfree u j Hj).
    + by apply (tb_private _ _ Hok u j w k).
Qed.

(** What a call of [clone] on table [src] that returned [dst] did. *)
Definition cloned (s s' : tstate) (src dst : Z) : Prop :=
    (forall f, is_Some (fds (vfs s) !! f) -> fds (vfs s') !! f = fds (vfs s) !! f) /\
    (forall u j, 0 <= j < MAX_FDS -> is_Some (tables s !! u) -> file (table s' u) j = file (table s u) j) /\
    (if decide (dst = 0) then fds (vfs s') = fds (vfs s) /\ (forall u, is_Some (tables s' !! u) <-> is_Some (tables s !! u))
     else tables s !! dst = None /\ is_Some (tables s' !! dst) /\
       forall j, 0 <= j < MAX_FDS ->
         (file (table s' dst) j = 0 <-> file (table s src) j = 0) /\
         (file (table s src) j <> 0 -> fds (vfs s) !! file (table s' dst) j = None /\
            fds (vfs s') !! file (table s' dst) j = fds (vfs s) !! file (table s src) j)).

Lemma clone_ok s own src : tables_ok s own -> is_Some (tables s !! src) ->
  exists dst s' own', clone src s = Some (dst, s') /\ tables_ok s' own' /\ others_kept own own' /\ cloned s s' src dst /\
    (dst <> 0 -> own !! dst = None) /\ (forall u, is_Some (tables s' !! u) <-> is_Some (tables s !! u) \/ (u = dst /\ dst <> 0)).
Proof.
  intros Hok Hsrc. unfold clone.
  assert (src <> 0) as Hsrc0.
  { intros ->. assert (heap_range 0) as Hr by (apply (ok_range _ _ (tb_obj _ _ Hok)); rewrite (tb_own _ _ Hok 0 Hsrc); by eexists).
    unfold heap_range in Hr. lia. }
  rewrite (proj2 (Z.eqb_neq src 0)) by done.
  destruct (fdt_alloc_ok s own Hok) as (dst & s1 & own1 & -> & Hok1 & Hkp1 & Hfds1 & Hd). cbn [mbind option_bind].
  destruct Hd as [[-> Ht1] | (Hd0 & Hfresh0 & Hnone & Ht1)].
  { cbn [Z.eqb]. exists 0, s1, own1. split; [done |]. split; [done |]. unfold cloned, table. rewrite Hfds1, Ht1. split_and!; try done. naive_solver. }
  rewrite (proj2 (Z.eqb_neq dst 0)) by done.
  assert (src <> dst) as Hne by (intros ->; rewrite Hnone in Hsrc; by destruct Hsrc).
  assert (forall u j, file (table s1 u) j = file (table s u) j) as Hfile1.
  { intros u j. unfold table. rewrite Ht1, lookup_insert. case_decide; [subst; by rewrite Hnone | done]. }
  destruct (clone_slots_ok (Z.to_nat MAX_FDS) 0 src dst s1 own1 Hok1) as (b & s2 & own2 & -> & Hok2 & Hkp2 & [C1 C2 C3 C4 C5] & Hall);
    [rewrite Ht1, lookup_insert_eq; by eexists | done | lia | by rewrite Z2Nat.id | |].
  { intros j _. rewrite Hfile1. unfold table. by rewrite Hnone. }
  rewrite Z2Nat.id in * by done. cbn [mbind option_bind]. destruct b.
  - exists dst, s2, own2. split; [done |]. split; [done |]. split; [intros a Ha; by apply Hkp2, Hkp1 |]. unfold cloned. rewrite decide_False by done. rewrite Hfds1 in *.
    split; [split_and! | split; [done |]].
    + done.
    + intros u j _ Hu. rewrite C2, Hfile1; [done |]. left. intros ->. rewrite Hnone in Hu. by destruct Hu.
    + done.
    + apply C1. rewrite Ht1, lookup_insert_eq. by eexists.
    + intros j Hj. destruct (Hall eq_refl j Hj) as [A1 A2]. rewrite Hfile1 in *. split; [done |]. intros Hnz.
      split; [| by apply A2]. apply C5; [done |]. by rewrite A1.
    + intros u. rewrite C1, Ht1, lookup_insert. case_decide; [subst; split; [by right | by eexists] | naive_solver].
  - destruct (free_table_ok s2 own2 dst Hok2) as (s3 & own3 & -> & Hok3 & Hkp3 & F1 & F2 & F3 & F4).
    { apply C1. rewrite Ht1, lookup_insert_eq. by eexists. }
    cbn [mbind option_bind]. exists 0, s3, own3. split; [done |]. split; [done |].
    split; [intros a Ha; apply Hkp3; [| by apply Hkp2, Hkp1]; intros ->; by rewrite Hfresh0 in Ha |]. unfold cloned.
    assert (forall f, fds (vfs s3) !! f = fds (vfs s) !! f) as Hfds3.
    { intros f. rewrite <- Hfds1. destruct (fds (vfs s1) !! f) as [d |] eqn:Hf.
      - rewrite F4; [rewrite C3 by (by eexists); done |]. intros (j & Hj & Hjf & Hnz). subst f. rewrite C5 in Hf by done. done.
      - destruct (fds (vfs s2) !! f) eqn:Hf2; [apply F3, C4; [done | by eexists] |].
        destruct (fds (vfs s3) !! f) eqn:Hf3; [| done]. rewrite F4 in Hf3; [congruence |]. intros Hin. by rewrite F3 in Hf3. }
    assert (forall u, is_Some (tables s3 !! u) <-> is_Some (tables s !! u)) as Hdom3.
    { intros u. rewrite F1, C1, Ht1, lookup_insert.
      case_decide; [subst; rewrite Hnone; split; [by intros [_ ?] | by intros []] | naive_solver]. }
    split; [split_and! | split; [done |]].
    + done.
    + intros u j Hj Hu. assert (dst <> u) by (intros ->; rewrite Hnone in Hu; by destruct Hu).
      rewrite F2, decide_False, C2, Hfile1 by (done || by left). done.
    + rewrite decide_True by done. split; [by apply map_eq | done].
    + intros u. rewrite Hdom3. naive_solver.
Qed.

(** [clone] copies a descriptor table.  It either fails, and then no
    descriptor was opened or closed and no table changed, or returns a new table
    whose open slots are those of the source, each with a descriptor of its own
    that equals the source's; descriptors and tables that existed stay as they
    were, and the file system invariant holds. *)
Theorem clone_copies s own src : tables_ok s own -> is_Some (tables s !! src) ->
  exists dst s' own', clone src s = Some (dst, s') /\ tables_ok s' own' /\
    (forall f, is_Some (fds (vfs s) !! f) -> fds (vfs s') !! f = fds (vfs s) !! f) /\
    (forall u j, 0 <= j < MAX_FDS -> is_Some (tables s !! u) -> file (table s' u) j = file (table s u) j) /\
    (if decide (dst = 0) then fds (vfs s') = fds (vfs s) /\ (forall u, is_Some (tables s' !! u) <-> is_Some (tables s !! u))
     else tables s !! dst = None /\ is_Some (tables s' !! dst) /\
       forall j, 0 <= j < MAX_FDS ->
         (file (table s' dst) j = 0 <-> file (table s src) j = 0) /\
         (file (table s src) j <> 0 -> fds (vfs s) !! file (table s' dst) j = None /\
            fds (vfs s') !! file (table s' dst) j = fds (vfs s) !! file (table s src) j)).
Proof.
  intros Hok Hsrc. destruct (clone_ok s own src Hok Hsrc) as (dst & s' & own' & Hc & Hok' & _ & Hcl & _). by exists dst, s', own'.
Qed.
End tables.

(** ** A concrete instance *)

#[local] Existing Instance Bump.bump_allocator.

(** The file [/f] opened, and a table with the descriptor in slot 3. *)
Definition demo_open : kResult Z * Vfs.state Bump.state :=
  match Vfs.open no_create path_f O_RDWR tree2 with Some x => x | None => (Err IOError, tree2) end.
Definition demo_fd : Z := match fst demo_open with Ok f => f | Err _ => 0 end.
Definition demo_alloc : Z * tstate :=
  match alloc (TState (snd demo_open) ∅) with Some x => x | None => (0, TState (snd demo_open) ∅) end.
Definition demo_tables : tstate := upd_table (fst demo_alloc) (fun x => store 3 demo_fd 1 x) (snd demo_alloc).

Lemma demo_tables_ok : exists own, tables_ok demo_tables own /\ is_Some (tables demo_tables !! fst demo_alloc).
Proof.
  assert (exists own, tables_ok (TState (snd demo_open) ∅) own) as [own0 Hok0].
  { unfold demo_open. destruct (open_ok no_create tree2 path_f O_RDWR tree2_ok) as (r & s' & -> & (own & Hm & Ho) & _); [simpl; lia |].
    exists own. split; cbn [vfs tables snd]; [done | done | | |].
    - intros t. rewrite lookup_empty. by intros [].
    - intros t i _ Hf. unfold table in Hf. cbn [tables] in Hf. by rewrite lookup_empty in Hf.
    - intros t i u j _ _ Hf. unfold table in Hf. cbn [tables] in Hf. by rewrite lookup_empty in Hf. }
  assert (fst demo_alloc <> 0) as Hne by (vm_compute; congruence).
  assert (is_Some (fds (vfs (snd demo_alloc)) !! demo_fd)) as Hfd by (vm_compute; by eexists).
  assert (demo_fd <> 0) as Hfd0 by (vm_compute; congruence).
  unfold demo_tables. revert Hne Hfd. unfold demo_alloc.
  destruct (fdt_alloc_ok (TState (snd demo_open) ∅) own0 Hok0) as (t & s' & own' & -> & Hok' & _ & _ & Ht).
  cbn [fst snd]. intros Hne Hfd. destruct Ht as [[? _] | (_ & _ & _ & Htab)]; [done |].
  exists own'. split; [apply (put_ok no_close s' own' t 3 demo_fd (fun _ => 1)); [done | | done |] |].
  - rewrite Htab, lookup_insert_eq. by eexists.
  - intros u j _. assert (file (table s' u) j = 0) as ->; [| congruence].
    unfold table. rewrite Htab, lookup_insert. case_decide; [done |]. cbn [tables]. by rewrite lookup_empty.
  - unfold upd_table. cbn [tables]. rewrite lookup_insert_eq. by eexists.
Qed.

Lemma clone_copies_witness : exists dst s', clone no_close (fst demo_alloc) demo_tables = Some (dst, s') /\
  (forall j, 0 <= j < MAX_FDS -> is_Some (tables demo_tables !! fst demo_alloc) ->
     file (table s' (fst demo_alloc)) j = file (table demo_tables (fst demo_alloc)) j).
Proof.
  destruct demo_tables_ok as (own & Hok & Hsrc).
  destruct (clone_copies no_close demo_tables own (fst demo_alloc) Hok Hsrc) as (dst & s' & own' & Hc & _ & _ & Hsame & _).
  exists dst, s'. split; [exact Hc |]. intros j Hj Hd. exact (Hsame _ j Hj Hd).
Defined.
