(* ===== verification/Sched.v ===== *)
(** * kernel/scheduler.cpp: the round-robin scheduler

    Tasks live in a map keyed by their address and form a circular list through
    [next]; dead tasks form a list of their own.  An operation runs up to and
    including the context switch it ends in: the state it returns is what the next
    task finds.  [switch_context] is assembly: it stores the stack pointer in the
    old task's [ctx] below eleven saved words and takes the new one's.  Interrupts
    are off in every operation, so none is interleaved.  List walks get one step
    per task plus one, and return [None] if that is not enough. *)
From S2P Require Import Prelude Alloc Paging Vfs VfsTree FdTable Monad.
From S2P Require Vmm.

Inductive TState' := Ready | Running | Blocked | Dead.
#[global] Instance TState'_eq_dec : EqDecision TState'.
Proof. solve_decision. Defined.

Record Task := MkTask {
  ctx : Z;
  stack : Z;
  stack_size : Z;
  syscall_stack : Z;
  st : TState';
  tid : Z;
  parent_tid : Z;
  exit_code : Z;
  timeslice : Z;
  quantum : Z;
  next : Z;
  tname : list Z;
  pml4 : Z;
  tcwd : Z;
  troot : Z;
  fd_table : Z;
}.

Definition DEFAULT_STACK : Z := 16 * 1024.
Definition DEFAULT_QUANTUM : Z := 10.
Definition sizeof_Task : Z := 128.

Definition set_ctx x t := MkTask x (stack t) (stack_size t) (syscall_stack t) (st t) (tid t) (parent_tid t) (exit_code t) (timeslice t) (quantum t) (next t) (tname t) (pml4 t) (tcwd t) (troot t) (fd_table t).
Definition set_st x t := MkTask (ctx t) (stack t) (stack_size t) (syscall_stack t) x (tid t) (parent_tid t) (exit_code t) (timeslice t) (quantum t) (next t) (tname t) (pml4 t) (tcwd t) (troot t) (fd_table t).
Definition set_parent_tid x t := MkTask (ctx t) (stack t) (stack_size t) (syscall_stack t) (st t) (tid t) x (exit_code t) (timeslice t) (quantum t) (next t) (tname t) (pml4 t) (tcwd t) (troot t) (fd_table t).
Definition set_exit_code x t := MkTask (ctx t) (stack t) (stack_size t) (syscall_stack t) (st t) (tid t) (parent_tid t) x (timeslice t) (quantum t) (next t) (tname t) (pml4 t) (tcwd t) (troot t) (fd_table t).
Definition set_timeslice x t := MkTask (ctx t) (stack t) (stack_size t) (syscall_stack t) (st t) (tid t) (parent_tid t) (exit_code t) x (quantum t) (next t) (tname t) (pml4 t) (tcwd t) (troot t) (fd_table t).
Definition set_tnext x t := MkTask (ctx t) (stack t) (stack_size t) (syscall_stack t) (st t) (tid t) (parent_tid t) (exit_code t) (timeslice t) (quantum t) x (tname t) (pml4 t) (tcwd t) (troot t) (fd_table t).
Definition set_fd_table x t := MkTask (ctx t) (stack t) (stack_size t) (syscall_stack t) (st t) (tid t) (parent_tid t) (exit_code t) (timeslice t) (quantum t) (next t) (tname t) (pml4 t) (tcwd t) (troot t) x.

Definition no_task : Task := MkTask 0 0 0 0 Dead 0 0 0 0 0 0 [] 0 0 0 0.

(** The static [idle_task] and [idle_stack], and the two trampolines. *)
Definition idle_ptr : Z := 0x201000.
Definition idle_stack : Z := 0x202000.
Definition task_entry_trampoline : Z := 0x100100.
Definition user_task_trampoline : Z := 0x100200.
Definition USER_CODE : Z := 0x20.
Definition USER_DATA : Z := 0x18.

Section sched.
Context {H : Type} `{!Allocator H} `{!Paging H}.

(** What a fresh heap block holds before it is written. *)
Variable raw : Z -> Task.
Variable foreign_close : Z -> Vfs.M (H := H) unit.

Record sstate := SState {
  ts : tstate (H := H);
  tasks : gmap Z Task;
  run_queue : Z;
  current_task : Z;
  zombie_list : Z;
  next_tid : Z;
  preempt_count : Z;
  kmem : gmap Z Z;
  tss_rsp0 : Z;
  syscall_rsp : Z;
  cpu_rsp : Z;
}.

Definition set_ts x s := SState x (tasks s) (run_queue s) (current_task s) (zombie_list s) (next_tid s) (preempt_count s) (kmem s) (tss_rsp0 s) (syscall_rsp s) (cpu_rsp s).
Definition set_tasks x s := SState (ts s) x (run_queue s) (current_task s) (zombie_list s) (next_tid s) (preempt_count s) (kmem s) (tss_rsp0 s) (syscall_rsp s) (cpu_rsp s).
Definition set_run_queue x s := SState (ts s) (tasks s) x (current_task s) (zombie_list s) (next_tid s) (preempt_count s) (kmem s) (tss_rsp0 s) (syscall_rsp s) (cpu_rsp s).
Definition set_current x s := SState (ts s) (tasks s) (run_queue s) x (zombie_list s) (next_tid s) (preempt_count s) (kmem s) (tss_rsp0 s) (syscall_rsp s) (cpu_rsp s).
Definition set_zombies x s := SState (ts s) (tasks s) (run_queue s) (current_task s) x (next_tid s) (preempt_count s) (kmem s) (tss_rsp0 s) (syscall_rsp s) (cpu_rsp s).
Definition set_next_tid x s := SState (ts s) (tasks s) (run_queue s) (current_task s) (zombie_list s) x (preempt_count s) (kmem s) (tss_rsp0 s) (syscall_rsp s) (cpu_rsp s).
Definition set_preempt x s := SState (ts s) (tasks s) (run_queue s) (current_task s) (zombie_list s) (next_tid s) x (kmem s) (tss_rsp0 s) (syscall_rsp s) (cpu_rsp s).
Definition set_kmem x s := SState (ts s) (tasks s) (run_queue s) (current_task s) (zombie_list s) (next_tid s) (preempt_count s) x (tss_rsp0 s) (syscall_rsp s) (cpu_rsp s).
Definition set_stacks t y s := SState (ts s) (tasks s) (run_queue s) (current_task s) (zombie_list s) (next_tid s) (preempt_count s) (kmem s) t y (cpu_rsp s).
Definition set_cpu_rsp x s := SState (ts s) (tasks s) (run_queue s) (current_task s) (zombie_list s) (next_tid s) (preempt_count s) (kmem s) (tss_rsp0 s) (syscall_rsp s) x.

Definition task (s : sstate) (p : Z) : Task := default no_task (tasks s !! p).
Definition upd (p : Z) (f : Task -> Task) (s : sstate) : sstate := set_tasks (<[p := f (task s p)]> (tasks s)) s.

(** The parts of other components. *)
Definition hp (s : sstate) : H := heap (vfs (ts s)).
Definition put_hp (h : H) (s : sstate) : sstate := set_ts (set_vfs (set_heap h (vfs (ts s))) (ts s)) s.
Definition malloc (n : Z) : St sstate Z := run_on hp put_hp (kmalloc n).
Definition mfree (p : Z) : St sstate unit := run_on hp put_hp (fun h => h ← kfree p h; Some (tt, h)).
Definition on_vmm {A} (f : Vmm.state -> A * Vmm.state) : St sstate A :=
  run_on hp put_hp (fun h => let '(x, v) := f (vm h) in Some (x, set_vm v h)).
Definition on_tables {A} (m : St tstate A) : St sstate A := run_on ts set_ts m.

Definition activate (p : Z) : St sstate unit := on_vmm (fun v => (tt, Vmm.activate p v)).

(** ** The lists *)

Definition fuel (s : sstate) : nat := S (size (tasks s)).

Definition enqueue (t : Z) (s : sstate) : sstate :=
  if run_queue s =? 0 then set_run_queue t (upd t (set_tnext t) s)
  else
    let s := upd t (set_tnext (next (task s (run_queue s)))) s in
    upd (run_queue s) (set_tnext t) s.

(** [while (prev->next != victim && prev->next != run_queue) prev = prev->next;] *)
Fixpoint find_before (n : nat) (s : sstate) (prev victim : Z) : option Z :=
  match n with
  | O => None
  | S n' =>
      if negb (next (task s prev) =? victim) && negb (next (task s prev) =? run_queue s)
      then find_before n' s (next (task s prev)) victim
      else Some prev
  end.

Definition unlink_task (victim : Z) : St sstate unit := fun s =>
  if (run_queue s =? 0) || (victim =? 0) then Some (tt, s) else
  prev ← find_before (fuel s) s (run_queue s) victim;
  if negb (next (task s prev) =? victim) then Some (tt, s) else
  let s :=
    if next (task s victim) =? victim then set_run_queue 0 s
    else
      let rq := run_queue s in
      let s := upd prev (set_tnext (next (task s victim))) s in
      if rq =? victim then set_run_queue prev s else s in
  Some (tt, upd victim (set_tnext 0) s).

(** ** Zombies *)

(** [heap::kfree] of the stacks and of the task. *)
Definition free_task (z : Z) : St sstate unit :=
  v ← gets (fun s => task s z);
  when (negb (stack v =? 0)) (mfree (stack v)) ;;
  when (negb (syscall_stack v =? 0)) (mfree (syscall_stack v)) ;;
  mfree z ;;
  modify (fun s => set_tasks (delete z (tasks s)) s).

Fixpoint reap_loop (n : nat) : St sstate unit :=
  match n with
  | O => halt
  | S n' =>
      z ← gets zombie_list;
      if z =? 0 then skip else
      (modify (fun s => set_zombies (next (task s z)) s) ;; free_task z ;; reap_loop n')
  end.

Definition reap_zombies : St sstate unit := fun s => reap_loop (fuel s) s.

(** ** Choosing and switching *)

Definition runnable (t : Task) : bool := bool_decide (st t = Ready) || bool_decide (st t = Running).

(** [do { ... } while (t != start);] *)
Fixpoint pick_loop (n : nat) (s : sstate) (start t : Z) : option Z :=
  match n with
  | O => None
  | S n' =>
      if runnable (task s t) then Some t
      else
        let t := next (task s t) in
        if t =? start then Some idle_ptr else pick_loop n' s start t
  end.

Definition pick_next : St sstate Z := fun s =>
  t ← pick_loop (fuel s) s (run_queue s) (next (task s (run_queue s))); Some (t, s).

Definition switch_context (prev nxt : Z) (s : sstate) : sstate :=
  let s := upd prev (set_ctx (u64 (cpu_rsp s - 88))) s in
  set_cpu_rsp (u64 (ctx (task s nxt) + 88)) s.

(** The bookkeeping of [do_switch] up to the hardware. *)
Definition make_current (nxt : Z) (s : sstate) : sstate :=
  let prev := current_task s in
  let s := if decide (st (task s prev) = Running) then upd prev (set_st Ready) s else s in
  let s := upd nxt (fun t => set_timeslice (quantum t) (set_st Running t)) s in
  set_current nxt (set_run_queue nxt s).

Definition do_switch (nxt : Z) : St sstate unit :=
  prev ← gets current_task;
  if nxt =? prev then skip else
  modify (make_current nxt) ;;
  t ← gets (fun s => task s nxt);
  let top := u64 (stack t + stack_size t) in
  modify (set_stacks top (if negb (syscall_stack t =? 0) then u64 (syscall_stack t + DEFAULT_STACK) else top)) ;;
  (if negb (pml4 t =? 0) then activate (pml4 t)
   else k ← gets (fun s => Vmm.kernel_pml4 (vm (hp s))); activate k) ;;
  modify (switch_context prev nxt).

(** ** Preemption and time *)

Definition preempt_disable (s : sstate) : sstate := set_preempt (i32 (preempt_count s + 1)) s.
Definition preempt_enable (s : sstate) : sstate :=
  if 0 <? preempt_count s then set_preempt (preempt_count s - 1) s else s.
Definition preempt_enabled (s : sstate) : bool := preempt_count s =? 0.

Definition tick : St sstate unit :=
  reap_zombies ;;
  c ← gets current_task;
  if c =? 0 then skip else
  t ← gets (fun s => task s c);
  when (0 <? timeslice t) (modify (upd c (set_timeslice (timeslice t - 1)))) ;;
  t ← gets (fun s => task s c);
  p ← gets preempt_count;
  if (timeslice t =? 0) && (p =? 0) then (n ← pick_next; do_switch n) else skip.

Definition yield : St sstate unit :=
  reap_zombies ;;
  c ← gets current_task;
  modify (upd c (set_timeslice 0)) ;;
  n ← pick_next; do_switch n.

(** ** Blocking *)

Definition block_current : St sstate unit :=
  c ← gets current_task;
  modify (upd c (set_st Blocked)) ;;
  n ← pick_next; do_switch n.

Definition wake (t : Z) : St sstate unit :=
  if t =? 0 then skip else
  v ← gets (fun s => task s t);
  if negb (bool_decide (st v = Blocked)) then skip else
  modify (upd t (set_st Ready)) ;;
  c ← gets current_task;
  if c =? idle_ptr then do_switch t else skip.

(** ** Creation *)

Definition copy_name (nm : list Z) : list Z := take 31 nm.

(** [*(--sp) = w] for each word in order; the lowest address is the result. *)
Fixpoint push_words (ws : list Z) (sp : Z) (s : sstate) : Z * sstate :=
  match ws with
  | [] => (sp, s)
  | w :: ws' => push_words ws' (sp - 8) (set_kmem (<[sp - 8 := w]> (kmem s)) s)
  end.

Definition init (s : sstate) : sstate :=
  let '(sp, s) := push_words (replicate 11 0) (idle_stack + 4096) s in
  let idle := MkTask sp idle_stack 4096 0 Running 0 (parent_tid (task s idle_ptr)) (exit_code (task s idle_ptr))
                1 1 idle_ptr [105; 100; 108; 101] 0 0 (troot (task s idle_ptr)) 0 in
  set_current idle_ptr (set_run_queue idle_ptr (set_tasks (<[idle_ptr := idle]> (tasks s)) s)).

Definition spawn (entry : Z) (nm : list Z) (size quant : Z) : St sstate (kResult Z) :=
  t ← malloc sizeof_Task;
  if t =? 0 then mret (Err OutOfMemory) else
  stk ← malloc size;
  if stk =? 0 then (mfree t ;; mret (Err OutOfMemory)) else
  id ← gets next_tid;
  modify (set_next_tid (u32 (id + 1))) ;;
  modify (fun s =>
    let '(sp, s) := push_words ([task_entry_trampoline; entry] ++ replicate 9 0) (stk + size) s in
    set_tasks (<[t := MkTask sp stk size 0 Ready id (parent_tid (raw t)) (exit_code (raw t)) quant quant 0
                        (copy_name nm) 0 (tcwd (raw t)) (troot (raw t)) 0]> (tasks s)) s) ;;
  modify (enqueue t) ;;
  mret (Ok id).

(** The child's fields and first stack, once every part of it was obtained. *)
Definition fork_child (p : Task) (space t kstk sstk fdt user_rip user_rsp user_rflags : Z) : St sstate (kResult Z) :=
  id ← gets next_tid;
  modify (set_next_tid (u32 (id + 1))) ;;
  modify (fun s =>
    let '(sp, s) := push_words ([USER_DATA .| 3; user_rsp; user_rflags; USER_CODE .| 3; user_rip; user_task_trampoline]
                                  ++ replicate 10 0) (kstk + DEFAULT_STACK) s in
    set_tasks (<[t := MkTask sp kstk DEFAULT_STACK sstk Ready id (parent_tid (raw t)) (exit_code (raw t)) (quantum p) (quantum p) 0
                        (copy_name (tname p)) space (tcwd (raw t)) (troot (raw t)) fdt]> (tasks s)) s) ;;
  modify (enqueue t) ;;
  mret (Ok id).

Definition fork_current (user_rip user_rsp user_rflags : Z) : St sstate (kResult Z) :=
  c ← gets current_task;
  p ← gets (fun s => task s c);
  if (c =? 0) || (pml4 p =? 0) then mret (Err InvalidArgument) else
  space ← on_vmm (Vmm.clone_user_space (pml4 p));
  if space =? 0 then mret (Err OutOfMemory) else
  t ← malloc sizeof_Task;
  if t =? 0 then (on_vmm (fun v => (tt, Vmm.destroy_user_space space v)) ;; mret (Err OutOfMemory)) else
  kstk ← malloc DEFAULT_STACK;
  sstk ← malloc DEFAULT_STACK;
  if (kstk =? 0) || (sstk =? 0) then
    (when (negb (kstk =? 0)) (mfree kstk) ;; when (negb (sstk =? 0)) (mfree sstk) ;; mfree t ;;
     on_vmm (fun v => (tt, Vmm.destroy_user_space space v)) ;; mret (Err OutOfMemory))
  else
  fdt ← on_tables (clone foreign_close (fd_table p));
  if fdt =? 0 then
    (mfree sstk ;; mfree kstk ;; mfree t ;;
     on_vmm (fun v => (tt, Vmm.destroy_user_space space v)) ;; mret (Err OutOfMemory))
  else
  fork_child p space t kstk sstk fdt user_rip user_rsp user_rflags.

(** ** exit and wait *)

(** [do { if (t->parent_tid == dead->tid) t->parent_tid = 1; ... } while (t != start);] *)
Fixpoint reparent_loop (n : nat) (start t dead_tid : Z) : St sstate unit :=
  match n with
  | O => halt
  | S n' =>
      v ← gets (fun s => task s t);
      when (parent_tid v =? dead_tid) (modify (upd t (set_parent_tid 1))) ;;
      if next v =? start then skip else reparent_loop n' start (next v) dead_tid
  end.

(** The walk that wakes the parent. *)
Fixpoint wake_parent_loop (n : nat) (start t ptid : Z) : St sstate unit :=
  match n with
  | O => halt
  | S n' =>
      v ← gets (fun s => task s t);
      if (tid v =? ptid) && bool_decide (st v = Blocked) then modify (upd t (set_st Ready))
      else if next v =? start then skip else wake_parent_loop n' start (next v) ptid
  end.

Definition exit (code : Z) : St sstate unit :=
  dead ← gets current_task;
  modify (upd dead (fun t => set_st Dead (set_exit_code code t))) ;;
  v ← gets (fun s => task s dead);
  when (negb (fd_table v =? 0))
    (on_tables (fun t => t' ← FdTable.free foreign_close (fd_table v) t; Some (tt, t')) ;; modify (upd dead (set_fd_table 0))) ;;
  rq ← gets run_queue;
  n ← gets fuel;
  when (negb (rq =? 0)) (reparent_loop n rq rq (tid v)) ;;
  v ← gets (fun s => task s dead);
  when (negb (parent_tid v =? 0) && negb (rq =? 0)) (wake_parent_loop n rq rq (parent_tid v)) ;;
  unlink_task dead ;;
  modify (fun s => set_zombies dead (upd dead (set_tnext (zombie_list s)) s)) ;;
  rq ← gets run_queue;
  if rq =? 0 then halt else (n ← pick_next; do_switch n).

(** The first zombie whose parent is [ptid], with its predecessor, and whether the
    walk passed any zombie. *)
Fixpoint find_zombie (n : nat) (s : sstate) (prev z ptid : Z) (any : bool) : option (option (Z * Z) * bool) :=
  match n with
  | O => None
  | S n' =>
      if z =? 0 then Some (None, any)
      else if parent_tid (task s z) =? ptid then Some (Some (prev, z), any)
      else find_zombie n' s z (next (task s z)) ptid true
  end.

Fixpoint has_child (n : nat) (s : sstate) (start t ptid : Z) : option bool :=
  match n with
  | O => None
  | S n' =>
      if parent_tid (task s t) =? ptid then Some true
      else if next (task s t) =? start then Some false else has_child n' s start (next (task s t)) ptid
  end.

(** One turn of the loop of [wait]: the child's number and code, an error, or
    [None] after the caller was blocked; it runs again when it is woken. *)
Definition wait_turn : St sstate (option (kResult (Z * Z))) :=
  me ← gets (fun s => tid (task s (current_task s)));
  r ← (fun s => r ← find_zombie (fuel s) s 0 (zombie_list s) me false; Some (r, s)) : St sstate _;
  match r with
  | (Some (prev, z), _) =>
      v ← gets (fun s => task s z);
      modify (fun s => if negb (prev =? 0) then upd prev (set_tnext (next v)) s else set_zombies (next v) s) ;;
      free_task z ;;
      mret (Some (Ok (tid v, exit_code v)))
  | (None, any) =>
      rq ← gets run_queue;
      child ← (if negb (rq =? 0) then (fun s => b ← has_child (fuel s) s rq rq me; Some (b, s)) else mret false) : St sstate bool;
      if negb (any || child) then mret (Some (Err NotFound)) else
      (c ← gets current_task;
       modify (upd c (set_st Blocked)) ;;
       n ← pick_next; do_switch n ;; mret None)
  end.

(** ** Circular and linear lists of tasks *)

(** Following [next] from [a] visits [l] and ends at [b]. *)
Fixpoint path (s : sstate) (a : Z) (l : list Z) (b : Z) : Prop :=
  match l with
  | [] => a = b
  | x :: l' => a = x /\ is_Some (tasks s !! x) /\ path s (next (task s x)) l' b
  end.

Lemma path_app s a l1 l2 b : path s a (l1 ++ l2) b <-> exists c, path s a l1 c /\ path s c l2 b.
Proof.
  revert a. induction l1 as [| x l1 IH]; intros a; simpl.
  - split; [intros ?; by exists a | by intros (c & -> & ?)].
  - rewrite IH. split; [intros (-> & Hx & c & ? & ?); exists c; by split_and! | intros (c & (-> & ? & ?) & ?); split_and!; [done | done | by exists c]].
Qed.

Lemma path_elem s a l b x : path s a l b -> x ∈ l -> is_Some (tasks s !! x).
Proof.
  revert a. induction l as [| y l IH]; intros a; [by intros _ ?%elem_of_nil |].
  intros (-> & Hy & Hl) [-> | Hx]%elem_of_cons; [done | by apply (IH _ Hl)].
Qed.

(** The links of the nodes on the path are all it depends on. *)
Lemma path_ext s s' a l b : path s a l b ->
  (forall x, x ∈ l -> is_Some (tasks s' !! x) /\ next (task s' x) = next (task s x)) -> path s' a l b.
Proof.
  revert a. induction l as [| x l IH]; intros a; simpl; [done |].
  intros (-> & _ & Hl) He. destruct (He x) as [H1 H2]; [by left |]. split_and!; [done | done |].
  rewrite H2. apply IH; [done |]. intros y Hy. apply He. by right.
Qed.

Lemma path_fuel s a l b : path s a l b -> NoDup l -> (length l < fuel s)%nat.
Proof.
  intros Hp Hn. unfold fuel. apply Nat.lt_succ_r.
  rewrite <- (size_dom (tasks s)), <- (size_list_to_set (C := gset Z) l) by done.
  apply subseteq_size. intros x Hx%elem_of_list_to_set. apply elem_of_dom. by eapply path_elem.
Qed.

(** The run queue is the circular list [r :: l]. *)
Record ring (s : sstate) (r : Z) (l : list Z) : Prop := {
  rg_queue : run_queue s = r;
  rg_path : path s r (r :: l) r;
  rg_nodup : NoDup (r :: l);
  rg_null : 0 ∉ r :: l;
}.

Lemma ring_fuel s r l : ring s r l -> (S (length l) < fuel s)%nat.
Proof. intros [_ Hp Hn _]. pose proof (path_fuel _ _ _ _ Hp Hn). simpl in *. lia. Qed.

(** The queue seen from another of its members. *)
Lemma ring_rotate s s' r l1 t l2 : ring s r (l1 ++ t :: l2) -> run_queue s' = t ->
  (forall x, x ∈ r :: l1 ++ t :: l2 -> is_Some (tasks s' !! x) /\ next (task s' x) = next (task s x)) ->
  ring s' t (l2 ++ r :: l1).
Proof.
  intros [Hq Hp Hn H0] Hq' He.
  assert (t :: l2 ++ r :: l1 ≡ₚ r :: l1 ++ t :: l2) as Hperm.
  { change (t :: l2 ++ r :: l1) with ((t :: l2) ++ (r :: l1)). rewrite (Permutation_app_comm (t :: l2)). done. }
  split; [done | | |].
  - apply (path_ext s).
    + change (r :: l1 ++ t :: l2) with ((r :: l1) ++ (t :: l2)) in Hp. apply path_app in Hp as (c & Hp1 & Hp2).
      assert (c = t) as -> by (by destruct Hp2 as (-> & _)).
      change (t :: l2 ++ r :: l1) with ((t :: l2) ++ (r :: l1)). apply path_app. by exists r.
    + intros x Hx. apply He. by rewrite <- Hperm.
  - by rewrite Hperm.
  - by rewrite Hperm.
Qed.

Lemma ring_ext s s' r l : ring s r l -> run_queue s' = r ->
  (forall x, x ∈ r :: l -> is_Some (tasks s' !! x) /\ next (task s' x) = next (task s x)) -> ring s' r l.
Proof. intros [_ Hp Hn H0] Hq He. split; [done | by apply (path_ext s) | done | done]. Qed.

(** [pick_next]: the first task behind the head that can run. *)
Definition chosen (s : sstate) (r : Z) (l : list Z) : Z :=
  match List.find (fun t => runnable (task s t)) (if bool_decide (l = []) then [r] else l) with
  | Some t => t
  | None => idle_ptr
  end.

Lemma pick_loop_path n s start t l : path s t l start -> l <> [] -> start ∉ drop 1 l -> (length l <= n)%nat ->
  pick_loop n s start t = Some (match List.find (fun t => runnable (task s t)) l with Some t => t | None => idle_ptr end).
Proof.
  revert n t. induction l as [| x l IH]; intros n t Hp Hne Hs Hn; [done |].
  destruct n as [| n]; [simpl in Hn; lia |]. destruct Hp as (-> & _ & Hp). cbn [pick_loop List.find].
  destruct (runnable (task s x)); [done |]. simpl in Hs. destruct l as [| y l].
  - simpl in Hp. by rewrite Hp, Z.eqb_refl.
  - pose proof Hp as (Hy & _). rewrite Hy in Hp |- *. rewrite (proj2 (Z.eqb_neq y start)) by (intros ->; apply Hs; by left).
    apply IH; [exact Hp | done | | simpl in *; lia].
    intros Hin. apply Hs. by right.
Qed.

Lemma pick_next_ok s r l : ring s r l -> pick_next s = Some (chosen s r l, s).
Proof.
  intros Hr. pose proof (ring_fuel _ _ _ Hr) as Hf. destruct Hr as [Hq Hp Hn H0]. unfold pick_next, chosen. rewrite Hq.
  pose proof Hp as (_ & Hrs & Hl). destruct (decide (l = [])) as [-> | Hne].
  - rewrite bool_decide_eq_true_2 by done. simpl in Hl. rewrite Hl.
    rewrite (pick_loop_path (fuel s) s r r [r]); [done | by split_and! | done | by apply not_elem_of_nil | simpl; lia].
  - rewrite bool_decide_eq_false_2 by done. rewrite (pick_loop_path (fuel s) s r _ l); [done | done | done | | lia].
    apply NoDup_cons in Hn as [Hrl _]. intros Hin. apply Hrl. destruct l as [| y l]; [done |]. by right.
Qed.

Lemma chosen_in s r l : idle_ptr ∈ r :: l -> chosen s r l ∈ r :: l.
Proof.
  intros Hi. unfold chosen. destruct (List.find _ _) as [t |] eqn:Hf; [| done].
  apply List.find_some in Hf as [Ht%list_elem_of_In _]. case_bool_decide; [apply list_elem_of_singleton in Ht as ->; by left | by right].
Qed.

(** ** Memory of the tasks *)

(** The heap of the file system replaced by one with the blocks [own] says. *)
Lemma tables_heap (x : tstate (H := H)) own own' h : tables_ok x own -> mem_ok h own' ->
  (forall a o, o <> OOther -> own !! a = Some o -> own' !! a = Some o) ->
  (forall a, is_Some (own' !! a) -> heap_range a) ->
  (forall t, is_Some (tables x !! t) -> own' !! t = Some OOther) ->
  tables_ok (set_vfs (set_heap h (vfs x)) x) own'.
Proof.
  intros [Hm Ho Hown Hopen Hpriv] Hm' Hk Hr Ht. split; cbn [vfs set_vfs tables]; try done.
  by apply (obj_keep (vfs x) _ own).
Qed.

Lemma malloc_spec s own n : tables_ok (ts s) own -> 0 < n < max_request ->
  exists p h, malloc n s = Some (p, put_hp h s) /\
    ((p = 0 /\ tables_ok (ts (put_hp h s)) own) \/
     (p <> 0 /\ own !! p = None /\ heap_range p /\ tables_ok (ts (put_hp h s)) (<[p := OOther]> own))).
Proof.
  intros Hok Hn. unfold malloc, run_on. destruct (mem_malloc (hp s) own n (tb_mem _ _ Hok) Hn) as (p & h & -> & Hp).
  exists p, h. split; [done |]. destruct Hp as [[-> Hm] | (H0 & Hnone & Hr & Hm)]; [left | right].
  - split; [done |]. apply (tables_heap (ts s) own own h Hok Hm); [done | apply (ok_range _ _ (tb_obj _ _ Hok)) | apply (tb_own _ _ Hok)].
  - split_and!; try done. apply (tables_heap (ts s) own _ h Hok (Hm OOther)).
    + intros a o _ Ha. rewrite lookup_insert_ne; [done |]. intros ->. congruence.
    + intros a. rewrite lookup_insert. case_decide; [by subst | apply (ok_range _ _ (tb_obj _ _ Hok))].
    + intros t Ht. rewrite lookup_insert. case_decide; [done | by apply (tb_own _ _ Hok)].
Qed.

Lemma mfree_spec s own a : tables_ok (ts s) own -> own !! a = Some OOther -> tables (ts s) !! a = None ->
  exists h, mfree a s = Some (tt, put_hp h s) /\ tables_ok (ts (put_hp h s)) (delete a own).
Proof.
  intros Hok Ha Hnt. unfold mfree, run_on. destruct (mem_free (hp s) own a (tb_mem _ _ Hok)) as (h & Hf & Hm); [by eexists |].
  rewrite Hf. cbn [mbind option_bind]. exists h. split; [done |]. apply (tables_heap (ts s) own _ h Hok Hm).
  - intros b o Ho Hb. rewrite lookup_delete_ne; [done |]. intros <-. congruence.
  - intros b. rewrite lookup_delete. case_decide; [by intros [] | apply (ok_range _ _ (tb_obj _ _ Hok))].
  - intros t Ht. rewrite lookup_delete_ne; [by apply (tb_own _ _ Hok) |]. intros <-. rewrite Hnt in Ht. by destruct Ht.
Qed.

(** The memory manager's part changes no block. *)
Lemma on_vmm_spec {A} (f : Vmm.state -> A * Vmm.state) s own : tables_ok (ts s) own ->
  exists x h, on_vmm f s = Some (x, put_hp h s) /\ f (vm (hp s)) = (x, vm h) /\ tables_ok (ts (put_hp h s)) own.
Proof.
  intros Hok. unfold on_vmm, run_on. destruct (f (vm (hp s))) as [x v]. exists x, (set_vm v (hp s)).
  split; [done |]. split; [by rewrite vm_set |].
  apply (tables_heap (ts s) own own _ Hok); [| done | apply (ok_range _ _ (tb_obj _ _ Hok)) | apply (tb_own _ _ Hok)].
  destruct (tb_mem _ _ Hok) as (m & Hb & Ho). exists m. split; [by apply set_vm_blocks | done].
Qed.

(** The heap blocks of a task. *)
Definition blocks_of (v : Task) : list Z :=
  (if negb (stack v =? 0) then [stack v] else []) ++ (if negb (syscall_stack v =? 0) then [syscall_stack v] else []).
Definition assets (t : Z) (v : Task) : list Z := blocks_of v ++ [t].

(** Tasks own distinct blocks and distinct descriptor tables; the idle task is static. *)
Record res_ok (s : sstate) (own : gmap Z owner) : Prop := {
  rs_tables : tables_ok (ts s) own;
  rs_own : forall t v a, tasks s !! t = Some v -> t <> idle_ptr -> a ∈ assets t v -> own !! a = Some OOther /\ tables (ts s) !! a = None;
  rs_nodup : forall t v, tasks s !! t = Some v -> t <> idle_ptr -> NoDup (assets t v);
  rs_disj : forall t v t' v' a, tasks s !! t = Some v -> tasks s !! t' = Some v' -> t <> idle_ptr -> t' <> idle_ptr ->
    a ∈ assets t v -> a ∈ assets t' v' -> t = t';
  rs_fd : forall t v, tasks s !! t = Some v -> fd_table v <> 0 -> is_Some (tables (ts s) !! fd_table v);
  rs_fd_inj : forall t v t' v', tasks s !! t = Some v -> tasks s !! t' = Some v' -> fd_table v <> 0 ->
    fd_table v = fd_table v' -> t = t';
}.

(** What scheduling leaves alone in a task. *)
Definition keep (v : Task) := (stack v, stack_size v, syscall_stack v, tid v, parent_tid v, exit_code v, quantum v, pml4 v, fd_table v).

Definition same_tasks (s s' : sstate) : Prop := forall p, keep <$> tasks s' !! p = keep <$> tasks s !! p.

Lemma same_tasks_refl s : same_tasks s s.
Proof. by intros p. Qed.
Lemma same_tasks_trans s1 s2 s3 : same_tasks s1 s2 -> same_tasks s2 s3 -> same_tasks s1 s3.
Proof. intros H1 H2 p. by rewrite H2, H1. Qed.

Lemma same_tasks_dom s s' p : same_tasks s s' -> is_Some (tasks s' !! p) <-> is_Some (tasks s !! p).
Proof. intros Hs. rewrite <- !(fmap_is_Some keep). by rewrite Hs. Qed.

Lemma same_tasks_lookup s s' p v' : same_tasks s s' -> tasks s' !! p = Some v' -> exists v, tasks s !! p = Some v /\ keep v' = keep v.
Proof.
  intros Hs Hv. specialize (Hs p). rewrite Hv in Hs. destruct (tasks s !! p) as [v |]; [| done].
  exists v. split; [done |]. simpl in Hs. congruence.
Qed.

(** What the ownership of memory depends on in a task. *)
Definition holds (v : Task) := (stack v, syscall_stack v, fd_table v).

Lemma holds_assets t v v' : holds v' = holds v -> assets t v' = assets t v /\ fd_table v' = fd_table v.
Proof. unfold holds. intros [= E1 E2 E3]. unfold assets, blocks_of. split; [by rewrite E1, E2 | done]. Qed.

Lemma keep_holds v v' : keep v' = keep v -> holds v' = holds v.
Proof. unfold keep, holds. by intros [= -> _ -> _ _ _ _ _ ->]. Qed.

Definition same_holds (s s' : sstate) : Prop := forall p, holds <$> tasks s' !! p = holds <$> tasks s !! p.

Lemma same_holds_lookup s s' p v' : same_holds s s' -> tasks s' !! p = Some v' -> exists v, tasks s !! p = Some v /\ holds v' = holds v.
Proof.
  intros Hs Hv. specialize (Hs p). rewrite Hv in Hs. destruct (tasks s !! p) as [v |]; [| done].
  exists v. split; [done |]. simpl in Hs. congruence.
Qed.

Lemma same_tasks_holds s s' : same_tasks s s' -> same_holds s s'.
Proof.
  intros Hs p. specialize (Hs p). destruct (tasks s' !! p), (tasks s !! p); simpl in *; try done.
  injection Hs as Hk. f_equal. by apply keep_holds; unfold keep; congruence.
Qed.

Lemma res_holds s s' own : res_ok s own -> same_holds s s' -> tables_ok (ts s') own -> tables (ts s') = tables (ts s) -> res_ok s' own.
Proof.
  intros [R1 R2 R3 R4 R5 R6] Hs Ht Htab. split; rewrite ?Htab; [done | | | | |].
  - intros t v a Hv. destruct (same_holds_lookup _ _ _ _ Hs Hv) as (w & Hw & Hk). destruct (holds_assets t _ _ Hk) as [-> _]. by apply R2.
  - intros t v Hv. destruct (same_holds_lookup _ _ _ _ Hs Hv) as (w & Hw & Hk). destruct (holds_assets t _ _ Hk) as [-> _]. by apply R3.
  - intros t v t' v' a Hv Hv'. destruct (same_holds_lookup _ _ _ _ Hs Hv) as (w & Hw & Hk). destruct (same_holds_lookup _ _ _ _ Hs Hv') as (w' & Hw' & Hk').
    destruct (holds_assets t _ _ Hk) as [-> _]. destruct (holds_assets t' _ _ Hk') as [-> _]. by apply (R4 t w t' w').
  - intros t v Hv. destruct (same_holds_lookup _ _ _ _ Hs Hv) as (w & Hw & Hk). destruct (holds_assets t _ _ Hk) as [_ ->]. by apply (R5 t w).
  - intros t v t' v' Hv Hv'. destruct (same_holds_lookup _ _ _ _ Hs Hv) as (w & Hw & Hk). destruct (same_holds_lookup _ _ _ _ Hs Hv') as (w' & Hw' & Hk').
    destruct (holds_assets t _ _ Hk) as [_ ->]. destruct (holds_assets t' _ _ Hk') as [_ ->]. by apply (R6 t w t' w').
Qed.

Lemma res_same s s' own : res_ok s own -> same_tasks s s' -> tables_ok (ts s') own -> tables (ts s') = tables (ts s) -> res_ok s' own.
Proof. intros Hr Hs. apply (res_holds s s' own Hr). by apply same_tasks_holds. Qed.

Lemma task_upd p f s q : task (upd p f s) q = if decide (p = q) then f (task s p) else task s q.
Proof. unfold task, upd. cbn [tasks set_tasks]. rewrite lookup_insert. by case_decide. Qed.

Lemma tasks_upd p f s q : is_Some (tasks s !! p) -> is_Some (tasks (upd p f s) !! q) <-> is_Some (tasks s !! q).
Proof. intros Hp. unfold upd. cbn [tasks set_tasks]. rewrite lookup_insert. case_decide; [subst; split; [done | by eexists] | done]. Qed.

Lemma upd_id p f s : is_Some (tasks s !! p) -> f (task s p) = task s p -> upd p f s = s.
Proof.
  intros [v Hv] Hf. unfold upd. rewrite Hf, insert_id; [by destruct s |]. unfold task. by rewrite Hv.
Qed.

Lemma upd_same p f s : is_Some (tasks s !! p) -> keep (f (task s p)) = keep (task s p) -> same_tasks s (upd p f s).
Proof.
  intros [v Hv] Hk q. unfold upd. cbn [tasks set_tasks]. rewrite lookup_insert. case_decide; [subst q | done].
  unfold task in *. rewrite Hv in *. simpl in *. by rewrite Hk.
Qed.

(** ** Releasing tasks *)

Fixpoint free_all (l : list Z) : St sstate unit :=
  match l with [] => skip | a :: l' => mfree a ;; free_all l' end.

Lemma free_task_eq z s : free_task z s =
  match free_all (assets z (task s z)) s with Some (_, s') => Some (tt, set_tasks (delete z (tasks s')) s') | None => None end.
Proof.
  unfold free_task, assets, blocks_of. step_st.
  destruct (negb (stack (task s z) =? 0)), (negb (syscall_stack (task s z) =? 0)); cbn [app free_all]; step_st;
    repeat (match goal with |- context [mfree ?a ?x] => destruct (mfree a x) as [[[] ?] |] end; try done).
Qed.

Lemma free_all_ok l s own : tables_ok (ts s) own -> NoDup l ->
  (forall a, a ∈ l -> own !! a = Some OOther /\ tables (ts s) !! a = None) ->
  exists h own', free_all l s = Some (tt, put_hp h s) /\ tables_ok (ts (put_hp h s)) own' /\
    (forall a, a ∉ l -> own' !! a = own !! a).
Proof.
  revert s own. induction l as [| a l IH]; intros s own Hok Hn Ho; cbn [free_all].
  { exists (hp s), own. split_and!; [| | done]; unfold put_hp, hp, set_vfs, set_heap; destruct s as [[[] ?]]; done. }
  apply NoDup_cons in Hn as [Hal Hn]. destruct (Ho a) as [Ha Ht]; [by left |].
  destruct (mfree_spec s own a Hok Ha Ht) as (h & Hf & Hok1). step_st. rewrite Hf.
  destruct (IH (put_hp h s) (delete a own) Hok1 Hn) as (h' & own' & Hf' & Hok' & Hkeep).
  { intros b Hb. rewrite lookup_delete_ne by (by intros ->). apply Ho. by right. }
  exists h', own'. rewrite Hf'. split_and!; [done | done |]. intros b [Hba Hbl]%not_elem_of_cons.
  rewrite Hkeep by done. by rewrite lookup_delete_ne.
Qed.

(** A task other than the idle one is released with its stacks. *)
Lemma free_task_ok z s own : res_ok s own -> is_Some (tasks s !! z) -> z <> idle_ptr -> fd_table (task s z) = 0 ->
  exists h own', free_task z s = Some (tt, set_tasks (delete z (tasks s)) (put_hp h s)) /\
    res_ok (set_tasks (delete z (tasks s)) (put_hp h s)) own'.
Proof.
  intros Hok [v Hv] Hz Hfd. pose proof Hok as [R1 R2 R3 R4 R5 R6]. rewrite free_task_eq.
  assert (task s z = v) as Htv by (unfold task; by rewrite Hv). rewrite Htv in *.
  destruct (free_all_ok (assets z v) s own R1 (R3 z v Hv Hz)) as (h & own' & -> & Hok' & Hkeep); [intros a; by apply R2 |].
  exists h, own'. split; [done |].
  assert (forall t w, delete z (tasks s) !! t = Some w -> tasks s !! t = Some w /\ t <> z) as Hdel.
  { intros t w. rewrite lookup_delete. case_decide; [done | by split]. }
  split; cbn [tasks set_tasks ts put_hp set_ts set_vfs tables].
  - done.
  - intros t w a [Hw Htz]%Hdel Hti Ha. destruct (R2 t w a Hw Hti Ha) as [Hoa Hta]. split; [| done].
    rewrite Hkeep; [done |]. intros Haz. apply Htz. by apply (R4 t w z v a).
  - intros t w [Hw _]%Hdel. by apply R3.
  - intros t w t' w' a [Hw _]%Hdel [Hw' _]%Hdel. by apply (R4 t w t' w').
  - intros t w [Hw _]%Hdel. by apply (R5 t w).
  - intros t w t' w' [Hw _]%Hdel [Hw' _]%Hdel. by apply (R6 t w t' w').
Qed.

(** ** The scheduler's invariant *)

Record queues (s : sstate) (r : Z) (l zl : list Z) : Prop := {
  q_ring : ring s r l;
  q_current : current_task s = r;
  q_idle : idle_ptr ∈ r :: l;
  q_alive : st (task s r) <> Dead;
  q_rest : forall t, t ∈ l -> st (task s t) = Ready \/ st (task s t) = Blocked;
  q_zombies : path s (zombie_list s) zl 0;
  q_zombies_nodup : NoDup zl;
  q_zombies_null : 0 ∉ zl;
  q_dead : forall z, z ∈ zl -> st (task s z) = Dead /\ fd_table (task s z) = 0;
}.

Lemma ring_alive s r l zl t : queues s r l zl -> t ∈ r :: l -> st (task s t) <> Dead.
Proof.
  intros Hq [-> | Ht]%elem_of_cons; [apply (q_alive _ _ _ _ Hq) |]. by destruct (q_rest _ _ _ _ Hq t Ht) as [-> | ->].
Qed.

Lemma zombie_not_ring s r l zl z : queues s r l zl -> z ∈ zl -> z ∉ r :: l.
Proof. intros Hq Hz Hr. apply (ring_alive _ _ _ _ _ Hq Hr). by apply (q_dead _ _ _ _ Hq). Qed.

Lemma zombie_not_idle s r l zl z : queues s r l zl -> z ∈ zl -> z <> idle_ptr.
Proof. intros Hq Hz ->. apply (zombie_not_ring _ _ _ _ _ Hq Hz), (q_idle _ _ _ _ Hq). Qed.

(** A state with the same queues: the links and states of the listed tasks agree. *)
Lemma queues_ext s s' r l zl : queues s r l zl ->
  run_queue s' = run_queue s -> current_task s' = current_task s -> zombie_list s' = zombie_list s ->
  (forall t, t ∈ (r :: l) ++ zl -> is_Some (tasks s' !! t) /\ next (task s' t) = next (task s t) /\
     st (task s' t) = st (task s t) /\ fd_table (task s' t) = fd_table (task s t)) ->
  queues s' r l zl.
Proof.
  intros [Q1 Q2 Q3 Q4 Q5 Q6 Q7 Q8 Q9] Hrq Hc Hz He.
  assert (forall t, t ∈ r :: l -> is_Some (tasks s' !! t) /\ next (task s' t) = next (task s t) /\ st (task s' t) = st (task s t)) as Her.
  { intros t Ht. destruct (He t) as (? & ? & ? & _); [apply elem_of_app; by left | done]. }
  assert (forall t, t ∈ zl -> is_Some (tasks s' !! t) /\ next (task s' t) = next (task s t) /\ st (task s' t) = st (task s t) /\
    fd_table (task s' t) = fd_table (task s t)) as Hez.
  { intros t Ht. apply He, elem_of_app. by right. }
  split; try done.
  - apply (ring_ext s); [done | rewrite Hrq; apply (rg_queue _ _ _ Q1) |]. intros x Hx. by destruct (Her x Hx) as (? & ? & _).
  - congruence.
  - destruct (Her r) as (_ & _ & ->); [by left | done].
  - intros t Ht. destruct (Her t) as (_ & _ & ->); [by right | auto].
  - rewrite Hz. apply (path_ext s); [done |]. intros x Hx. by destruct (Hez x Hx) as (? & ? & _).
  - intros z Hzz. destruct (Hez z Hzz) as (_ & _ & -> & ->). auto.
Qed.

(** ** reap_zombies *)

Lemma reap_loop_ok n s own r l zl : queues s r l zl -> res_ok s own -> (length zl < n)%nat ->
  exists s' own', reap_loop n s = Some (tt, s') /\ queues s' r l [] /\ res_ok s' own' /\ zombie_list s' = 0 /\
    (forall t, t ∈ r :: l -> tasks s' !! t = tasks s !! t) /\ (forall t, t ∉ zl -> tasks s' !! t = tasks s !! t) /\
    next_tid s' = next_tid s /\ preempt_count s' = preempt_count s.
Proof.
  revert s own zl. induction n as [| n IH]; intros s own zl Hq Hok Hn; [lia |]. cbn [reap_loop]. step_st.
  destruct zl as [| z zl].
  { pose proof (q_zombies _ _ _ _ Hq) as Hz0. simpl in Hz0. rewrite Hz0. cbn [Z.eqb]. exists s, own. by split_and!. }
  pose proof (q_zombies _ _ _ _ Hq) as (Hz & Hzs & Hp). rewrite Hz.
  assert (z <> 0) as Hz0 by (intros ->; apply (q_zombies_null _ _ _ _ Hq); by left).
  rewrite (proj2 (Z.eqb_neq z 0)) by done.
  assert (z ∈ z :: zl) as Hin by (by left).
  set (s1 := set_zombies (next (task s z)) s).
  assert (res_ok s1 own) as Hok1 by (apply (res_same s); [done | by intros p | apply (rs_tables _ _ Hok) | done]).
  destruct (free_task_ok z s1 own Hok1 Hzs (zombie_not_idle _ _ _ _ _ Hq Hin)) as (h & own1 & -> & Hok2).
  { by apply (q_dead _ _ _ _ Hq). }
  set (s2 := set_tasks (delete z (tasks s1)) (put_hp h s1)) in *.
  assert (forall t, t <> z -> tasks s2 !! t = tasks s !! t) as Ht2 by (intros t Ht; cbn; by rewrite lookup_delete_ne).
  assert (forall t, t <> z -> task s2 t = task s t) as Hv2 by (intros t Ht; unfold task; by rewrite Ht2).
  pose proof (zombie_not_ring _ _ _ _ _ Hq Hin) as Hznr.
  pose proof Hq as [Q1 Q2 Q3 Q4 Q5 Q6 Q7 Q8 Q9]. apply NoDup_cons in Q7 as [Hzz Q7].
  assert (queues s2 r l zl) as Hq2.
  { split; try done.
    - apply (ring_ext s); [done | apply (rg_queue _ _ _ Q1) |]. intros x Hx. assert (x <> z) by (by intros ->).
      rewrite (Hv2 x), (Ht2 x) by done. split; [| done]. by apply (path_elem _ _ _ _ _ (rg_path _ _ _ Q1)).
    - rewrite Hv2; [done |]. intros ->. apply Hznr. by left.
    - intros t Ht. rewrite Hv2; [auto |]. intros ->. apply Hznr. by right.
    - apply (path_ext s); [done |]. intros x Hx. assert (x <> z) by (by intros ->). rewrite (Hv2 x), (Ht2 x) by done.
      split; [by apply (path_elem _ _ _ _ _ Hp) | done].
    - intros Hz'. apply Q8. by right.
    - intros x Hx. assert (x <> z) by (by intros ->). rewrite Hv2 by done. apply Q9. by right. }
  destruct (IH s2 own1 zl Hq2 Hok2) as (s' & own' & -> & Hq' & Hok' & Hzl & Hring & Hother & Hnt & Hpc); [simpl in Hn; lia |].
  exists s', own'. split_and!; try done.
  - intros t Ht. rewrite Hring by done. apply Ht2. by intros ->.
  - intros t [Htz Ht]%not_elem_of_cons. rewrite Hother by done. by apply Ht2.
Qed.

Lemma reap_ok s own r l zl : queues s r l zl -> res_ok s own ->
  exists s' own', reap_zombies s = Some (tt, s') /\ queues s' r l [] /\ res_ok s' own' /\ zombie_list s' = 0 /\
    (forall t, t ∈ r :: l -> tasks s' !! t = tasks s !! t) /\ (forall t, t ∉ zl -> tasks s' !! t = tasks s !! t) /\
    next_tid s' = next_tid s /\ preempt_count s' = preempt_count s.
Proof.
  intros Hq Hok. apply (reap_loop_ok (fuel s) s own r l zl Hq Hok).
  apply (path_fuel s _ _ _ (q_zombies _ _ _ _ Hq) (q_zombies_nodup _ _ _ _ Hq)).
Qed.

(** ** do_switch *)

Lemma task_queue a b x p : task (set_current a (set_run_queue b x)) p = task x p.
Proof. done. Qed.

Lemma make_current_task s t p : t <> current_task s ->
  task (make_current t s) p =
    if decide (p = t) then set_timeslice (quantum (task s t)) (set_st Running (task s t))
    else if decide (p = current_task s /\ st (task s p) = Running) then set_st Ready (task s p) else task s p.
Proof.
  intros Hne. unfold make_current. cbv zeta. rewrite task_queue.
  destruct (decide (st (task s (current_task s)) = Running)) as [Hr | Hr];
    rewrite !task_upd; repeat case_decide; subst; try done; try (destruct_and!; subst); try done; try tauto.
Qed.

Lemma make_current_dom s t p : is_Some (tasks s !! t) -> is_Some (tasks s !! current_task s) ->
  is_Some (tasks (make_current t s) !! p) <-> is_Some (tasks s !! p).
Proof.
  intros Ht Hc. unfold make_current. cbv zeta. cbn [tasks set_current set_run_queue].
  destruct (decide (st (task s (current_task s)) = Running)).
  - rewrite tasks_upd by (by apply tasks_upd). by apply tasks_upd.
  - by apply tasks_upd.
Qed.

Lemma make_current_rest s t : let s' := make_current t s in
  ts s' = ts s /\ zombie_list s' = zombie_list s /\ next_tid s' = next_tid s /\ preempt_count s' = preempt_count s.
Proof. cbv zeta. unfold make_current. cbv zeta. by case_decide. Qed.

(** The hardware state of a running task. *)
Record runs (s : sstate) (t : Z) : Prop := {
  rn_state : st (task s t) = Running;
  rn_slice : timeslice (task s t) = quantum (task s t);
  rn_stack : tss_rsp0 s = u64 (stack (task s t) + stack_size (task s t));
  rn_syscall : syscall_rsp s = (if negb (syscall_stack (task s t) =? 0) then u64 (syscall_stack (task s t) + DEFAULT_STACK)
                                else u64 (stack (task s t) + stack_size (task s t)));
  rn_space : pml4 (task s t) <> 0 -> Vmm.cr3 (vm (hp s)) = pml4 (task s t);
}.

Lemma activate_spec p s own : tables_ok (ts s) own ->
  exists h, activate p s = Some (tt, put_hp h s) /\ Vmm.cr3 (vm h) = p /\ tables_ok (ts (put_hp h s)) own.
Proof.
  intros Hok. unfold activate. destruct (on_vmm_spec (fun v => (tt, Vmm.activate p v)) s own Hok) as ([] & h & -> & Hf & Hok').
  exists h. split_and!; [done | | done]. injection Hf as <-. done.
Qed.

(** The steps of [do_switch] to another task. *)
Lemma do_switch_run s own t : tables_ok (ts s) own -> t <> current_task s ->
  exists h, let s1 := make_current t s in
    do_switch t s = Some (tt, switch_context (current_task s) t (put_hp h (set_stacks
      (u64 (stack (task s1 t) + stack_size (task s1 t)))
      (if negb (syscall_stack (task s1 t) =? 0) then u64 (syscall_stack (task s1 t) + DEFAULT_STACK)
       else u64 (stack (task s1 t) + stack_size (task s1 t))) s1))) /\
    (pml4 (task s1 t) <> 0 -> Vmm.cr3 (vm h) = pml4 (task s1 t)) /\
    tables_ok (set_vfs (set_heap h (vfs (ts s))) (ts s)) own.
Proof.
  intros Hok Hne. set (s1 := make_current t s). cbv zeta. unfold do_switch. step_st.
  rewrite (proj2 (Z.eqb_neq t _)) by done. fold s1.
  assert (ts s1 = ts s) as Hts by apply (make_current_rest s t).
  set (s2 := set_stacks _ _ s1).
  assert (tables_ok (ts s2) own) as Hok2 by (change (ts s2) with (ts s1); by rewrite Hts).
  destruct (Z.eqb_spec (pml4 (task s1 t)) 0) as [H0 | H0]; cbn [negb].
  - destruct (activate_spec (Vmm.kernel_pml4 (vm (hp s2))) s2 own Hok2) as (h & -> & _ & Hok3).
    exists h. split_and!; [done | done |]. rewrite <- Hts. exact Hok3.
  - destruct (activate_spec (pml4 (task s1 t)) s2 own Hok2) as (h & -> & Hcr & Hok3).
    exists h. split_and!; [done | done |]. rewrite <- Hts. exact Hok3.
Qed.

(** What a switch from [r] to [t] did to the tasks. *)
Record switched (s s' : sstate) (r t : Z) : Prop := {
  sw_dom : forall p, is_Some (tasks s' !! p) <-> is_Some (tasks s !! p);
  sw_next : forall p, next (task s' p) = next (task s p);
  sw_same : same_tasks s s';
  sw_fd : forall p, fd_table (task s' p) = fd_table (task s p);
  sw_st : forall p, st (task s' p) = if decide (p = t) then Running else
    if decide (p = r /\ st (task s r) = Running) then Ready else st (task s p);
  sw_queue : run_queue s' = t /\ current_task s' = t;
  sw_rest : zombie_list s' = zombie_list s /\ next_tid s' = next_tid s /\ preempt_count s' = preempt_count s;
  sw_runs : runs s' t;
  sw_tables : tables (ts s') = tables (ts s);
}.

Lemma do_switch_facts s own r t : res_ok s own -> current_task s = r -> is_Some (tasks s !! r) -> is_Some (tasks s !! t) -> t <> r ->
  exists s', do_switch t s = Some (tt, s') /\ switched s s' r t /\ res_ok s' own.
Proof.
  intros Hres Q2 Hrs Hts Htr.
  destruct (do_switch_run s own t (rs_tables _ _ Hres) ltac:(congruence)) as (h & Hrun & Hcr & Hok').
  rewrite Q2 in Hrun. set (s1 := make_current t s) in *.
  set (s2 := set_stacks _ _ s1) in *. set (s' := switch_context r t (put_hp h s2)) in *.
  assert (forall p, task s' p = if decide (p = r) then set_ctx (u64 (cpu_rsp s1 - 88)) (task s1 r) else task s1 p) as Hv'.
  { intros p. unfold s', switch_context. cbv zeta. change (task (set_cpu_rsp ?a ?x) p) with (task x p).
    etransitivity; [apply (task_upd r _ (put_hp h s2) p) |]. case_decide as E1; case_decide as E2; subst; done. }
  assert (forall p, is_Some (tasks s' !! p) <-> is_Some (tasks s !! p)) as Hdom.
  { intros p. etransitivity; [apply (tasks_upd r _ (put_hp h s2) p) | apply make_current_dom]; [| done | by rewrite Q2].
    apply make_current_dom; [done | by rewrite Q2 | done]. }
  assert (forall p, task s1 p = if decide (p = t) then set_timeslice (quantum (task s t)) (set_st Running (task s t))
    else if decide (p = r /\ st (task s p) = Running) then set_st Ready (task s p) else task s p) as Hv1.
  { intros p. unfold s1. rewrite make_current_task by congruence. by rewrite Q2. }
  assert (forall p, next (task s' p) = next (task s p) /\ keep (task s' p) = keep (task s p)) as Hfix.
  { intros p. rewrite Hv'. repeat case_decide; subst; rewrite Hv1; repeat case_decide; subst; try done. }
  assert (same_tasks s s') as Hsame.
  { intros p. pose proof (Hdom p) as Hd. destruct (Hfix p) as [_ Hk]. unfold task in Hk.
    destruct (tasks s' !! p) as [v |], (tasks s !! p) as [w |]; simpl in *; [by rewrite Hk | | | done].
    - by destruct (proj1 Hd ltac:(by eexists)).
    - by destruct (proj2 Hd ltac:(by eexists)). }
  destruct (make_current_rest s t) as (E1 & E2 & E3 & E4). fold s1 in E1, E2, E3, E4.
  assert (ts s' = set_vfs (set_heap h (vfs (ts s))) (ts s)) as Hts' by (rewrite <- E1; done).
  exists s'. split; [exact Hrun |]. split; [split |].
  - done.
  - intros p. apply Hfix.
  - done.
  - intros p. by destruct (Hfix p) as [_ [= _ _ _ _ _ _ _ _ ->]].
  - intros p. rewrite Hv'. destruct (decide (p = r)) as [-> |].
    + cbn [st set_ctx]. rewrite Hv1, !(decide_False (P := r = t)) by congruence. repeat case_decide; try done; tauto.
    + rewrite Hv1. case_decide; [by subst |]. rewrite !decide_False by tauto. done.
  - done.
  - split_and!; [exact E2 | exact E3 | exact E4].
  - assert (task s' t = task s1 t) as Htt by (rewrite Hv', decide_False by done; done).
    split; rewrite Htt; try done; by rewrite Hv1, decide_True.
  - by rewrite Hts'.
  - apply (res_same s s' own Hres Hsame); rewrite Hts'; [exact Hok' | done].
Qed.

Lemma switched_zombies s s' r t zl : switched s s' r t -> path s (zombie_list s) zl 0 -> t ∉ zl ->
  (forall z, z ∈ zl -> st (task s z) = Dead /\ fd_table (task s z) = 0) ->
  path s' (zombie_list s') zl 0 /\ (forall z, z ∈ zl -> st (task s' z) = Dead /\ fd_table (task s' z) = 0).
Proof.
  intros Hsw Hp Ht Hd. destruct (sw_rest _ _ _ _ Hsw) as (-> & _). split.
  - apply (path_ext s); [done |]. intros x Hx. rewrite (sw_dom _ _ _ _ Hsw), (sw_next _ _ _ _ Hsw).
    split; [by apply (path_elem _ _ _ _ _ Hp) | done].
  - intros z Hz. destruct (Hd z Hz) as [Hst Hfd]. rewrite (sw_st _ _ _ _ Hsw), (sw_fd _ _ _ _ Hsw).
    assert (z <> t) by (by intros ->). rewrite decide_False by done. split; [| done].
    case_decide as Hr; [| done]. destruct Hr as [-> ?]. congruence.
Qed.

(** The queues after a switch to another member of the run queue. *)
Lemma do_switch_ok s own r l zl t : queues s r l zl -> res_ok s own -> t ∈ l ->
  exists s' l1 l2, do_switch t s = Some (tt, s') /\ l = l1 ++ t :: l2 /\ queues s' t (l2 ++ r :: l1) zl /\
    res_ok s' own /\ switched s s' r t.
Proof.
  intros Hq Hres Ht. pose proof Hq as [Q1 Q2 Q3 Q4 Q5 Q6 Q7 Q8 Q9]. pose proof Q1 as [_ Hp Hnd Hnull].
  assert (t <> r) as Htr by (intros ->; by apply NoDup_cons in Hnd as [? _]).
  apply list_elem_of_split in Ht as (l1 & l2 & ->).
  assert (is_Some (tasks s !! r)) as Hrs by (apply (path_elem _ _ _ _ _ Hp); by left).
  assert (is_Some (tasks s !! t)) as Hts by (apply (path_elem _ _ _ _ _ Hp); right; apply elem_of_app; right; by left).
  destruct (do_switch_facts s own r t Hres Q2 Hrs Hts Htr) as (s' & Hrun & Hsw & Hres').
  destruct (switched_zombies s s' r t zl Hsw Q6) as [Z1 Z2]; [| exact Q9 |].
  { intros Hz. apply (zombie_not_ring _ _ _ _ _ Hq Hz). right. apply elem_of_app. right. by left. }
  exists s', l1, l2. split; [exact Hrun |]. split; [done |]. split; [split |]; try done.
  - apply (ring_rotate s s' r l1 t l2 Q1); [apply (sw_queue _ _ _ _ Hsw) |]. intros x Hx.
    split; [apply (sw_dom _ _ _ _ Hsw); by apply (path_elem _ _ _ _ _ Hp) | by apply (sw_next _ _ _ _ Hsw)].
  - apply (sw_queue _ _ _ _ Hsw).
  - change (t :: l2 ++ r :: l1) with ((t :: l2) ++ (r :: l1)). rewrite elem_of_app. apply elem_of_cons in Q3 as [-> | Hi]; [right; by left |].
    apply elem_of_app in Hi as [Hi | Hi]; [right; by right | by left].
  - rewrite (sw_st _ _ _ _ Hsw), decide_True by done. done.
  - intros x Hx. rewrite (sw_st _ _ _ _ Hsw). assert (x <> t) as Hxt.
    { intros ->. assert ((t ∉ l1) /\ (t ∉ l2)) as [N1 N2].
      { apply NoDup_cons in Hnd as [_ Hnd]. apply NoDup_app in Hnd as (_ & Hd & [N2 _]%NoDup_cons). split; [| done].
        intros N1. apply (Hd t N1). by left. }
      apply elem_of_app in Hx as [? | [? | ?]%elem_of_cons]; done. }
    rewrite (decide_False (P := x = t)) by done. destruct (decide (x = r /\ st (task s r) = Running)) as [Hr | Hr]; [by left |].
    destruct (decide (x = r)) as [-> |].
    + destruct (st (task s r)); auto; [destruct Hr; by split | by destruct Q4].
    + apply Q5. apply elem_of_app in Hx as [? | [? | ?]%elem_of_cons]; apply elem_of_app; [right; by right | done | by left].
Qed.

(** [do_switch(pick_next())] *)
Definition reschedule : St sstate unit := n ← pick_next; do_switch n.

Lemma reschedule_ok s own r l zl : queues s r l zl -> res_ok s own ->
  exists s' l', reschedule s = Some (tt, s') /\ queues s' (chosen s r l) l' zl /\ res_ok s' own /\
    chosen s r l :: l' ≡ₚ r :: l /\
    ((chosen s r l = r /\ s' = s /\ l' = l) \/
     (exists l1 l2, l = l1 ++ chosen s r l :: l2 /\ l' = l2 ++ r :: l1 /\ switched s s' r (chosen s r l))).
Proof.
  intros Hq Hres. unfold reschedule. unfold mbind, St_bind. rewrite (pick_next_ok s r l (q_ring _ _ _ _ Hq)).
  pose proof (chosen_in s r l (q_idle _ _ _ _ Hq)) as Hin. set (t := chosen s r l) in *.
  destruct (decide (t = r)) as [Htr | Htr].
  - exists s, l. unfold do_switch. step_st. rewrite (q_current _ _ _ _ Hq), Htr, Z.eqb_refl. split_and!; try done. by left.
  - apply elem_of_cons in Hin as [? | Hin]; [done |].
    destruct (do_switch_ok s own r l zl t Hq Hres Hin) as (s' & l1 & l2 & Hrun & Hl & Hq' & Hres' & Hsw).
    exists s', (l2 ++ r :: l1). split_and!; try done; [| right; by exists l1, l2].
    rewrite Hl. change (t :: l2 ++ r :: l1) with ((t :: l2) ++ (r :: l1)). by rewrite (Permutation_app_comm (t :: l2)).
Qed.

(** ** Changing one member of the run queue *)

Lemma res_upd s own p f : res_ok s own -> is_Some (tasks s !! p) -> holds (f (task s p)) = holds (task s p) -> res_ok (upd p f s) own.
Proof.
  intros Hr Hp Hk. apply (res_holds s _ own Hr); [| apply (rs_tables _ _ Hr) | done]. intros q. unfold upd. cbn [tasks set_tasks].
  rewrite lookup_insert. case_decide; [subst q | done]. destruct Hp as [v Hv]. unfold task in *. rewrite Hv in *. simpl in *. by rewrite Hk.
Qed.

Lemma queues_member s r l zl t : queues s r l zl -> t ∈ r :: l -> is_Some (tasks s !! t).
Proof. intros Hq. apply (path_elem _ _ _ _ _ (rg_path _ _ _ (q_ring _ _ _ _ Hq))). Qed.

Lemma head_nonnull s r l zl : queues s r l zl -> r <> 0.
Proof. intros Hq ->. apply (rg_null _ _ _ (q_ring _ _ _ _ Hq)). by left. Qed.

Lemma queues_nodup s r l zl : queues s r l zl -> NoDup (r :: l).
Proof. intros Hq. apply (rg_nodup _ _ _ (q_ring _ _ _ _ Hq)). Qed.

Lemma queues_upd s r l zl p f : queues s r l zl -> p ∈ r :: l -> next (f (task s p)) = next (task s p) ->
  st (f (task s p)) <> Dead -> (p ∈ l -> st (f (task s p)) = Ready \/ st (f (task s p)) = Blocked) ->
  queues (upd p f s) r l zl.
Proof.
  intros Hq Hp Hn Hd Hl. pose proof (queues_member _ _ _ _ _ Hq Hp) as Hps.
  pose proof Hq as [Q1 Q2 Q3 Q4 Q5 Q6 Q7 Q8 Q9].
  assert (forall z, z ∈ zl -> task (upd p f s) z = task s z) as Hz.
  { intros z Hz. rewrite task_upd, decide_False; [done |]. intros ->. by apply (zombie_not_ring _ _ _ _ _ Hq Hz). }
  assert (forall x, next (task (upd p f s) x) = next (task s x)) as Hnx.
  { intros x. rewrite task_upd. case_decide; by subst. }
  split; try done.
  - apply (ring_ext s); [done | apply (rg_queue _ _ _ Q1) |]. intros x Hx. rewrite tasks_upd by done.
    split; [by apply (queues_member _ _ _ _ _ Hq) | done].
  - rewrite task_upd. case_decide; [by subst | done].
  - intros t Ht. rewrite task_upd. case_decide; [subst; by apply Hl | auto].
  - apply (path_ext s); [done |]. intros x Hx. rewrite tasks_upd by done. split; [by apply (path_elem _ _ _ _ _ Q6) | done].
  - intros z Hzz. rewrite Hz by done. auto.
Qed.

Lemma find_ext {A} (f g : A -> bool) l : (forall x, x ∈ l -> f x = g x) -> List.find f l = List.find g l.
Proof.
  induction l as [| x l IH]; intros He; simpl; [done |]. rewrite (He x) by (by left). destruct (g x); [done |].
  apply IH. intros y Hy. apply He. by right.
Qed.

Lemma chosen_ext s s' r l : (forall t, t ∈ r :: l -> st (task s' t) = st (task s t)) -> chosen s' r l = chosen s r l.
Proof.
  intros He. unfold chosen. erewrite find_ext; [done |]. intros x Hx. cbv beta. unfold runnable. rewrite He; [done |].
  case_bool_decide; [apply list_elem_of_singleton in Hx as ->; by left | by right].
Qed.

(** ** yield and tick *)

(** What a turn of the scheduler that gives up the processor does. *)
Record gave_way (s s' : sstate) (r : Z) (l : list Z) : Prop := {
  gw_current : current_task s' = chosen s r l;
  gw_runs : chosen s r l <> r -> runs s' (chosen s r l);
  gw_prev : chosen s r l <> r -> st (task s' r) = if decide (st (task s r) = Running) then Ready else st (task s r);
  gw_stay : chosen s r l = r -> st (task s' r) = st (task s r);
  gw_others : forall t, t ∈ r :: l -> t <> r -> t <> chosen s r l -> st (task s' t) = st (task s t);
  gw_reaped : zombie_list s' = 0;
}.

Lemma keep_st s1 s2 r t : switched s1 s2 r t -> forall p, p <> t -> p <> r -> st (task s2 p) = st (task s1 p).
Proof. intros Hsw p Hp Hr. rewrite (sw_st _ _ _ _ Hsw), (decide_False (P := p = t)) by done. rewrite decide_False; [done | tauto]. Qed.

Lemma task_of s s' t : tasks s' !! t = tasks s !! t -> task s' t = task s t.
Proof. unfold task. by intros ->. Qed.

(** The common tail of [yield] and [tick]: the slice of the head is rewritten, then
    the queue is rescheduled. *)
Lemma give_way_ok s s1 own r l q : queues s1 r l [] -> res_ok s1 own -> zombie_list s1 = 0 ->
  (forall t, t ∈ r :: l -> st (task s1 t) = st (task s t)) ->
  exists s' l', reschedule (upd r (set_timeslice q) s1) = Some (tt, s') /\ queues s' (chosen s r l) l' [] /\ res_ok s' own /\
    chosen s r l :: l' ≡ₚ r :: l /\ gave_way s s' r l /\
    (chosen s r l = r /\ l' = l \/ exists l1 l2, l = l1 ++ chosen s r l :: l2 /\ l' = l2 ++ r :: l1).
Proof.
  intros Hq Hr Hz He. set (s2 := upd r (set_timeslice q) s1).
  assert (r ∈ r :: l) as Hin by (by left). pose proof (queues_member _ _ _ _ _ Hq Hin) as Hrs.
  assert (queues s2 r l []) as Hq2.
  { apply queues_upd; try done; [apply (q_alive _ _ _ _ Hq) |]. intros Hrl. by apply (q_rest _ _ _ _ Hq). }
  assert (res_ok s2 own) as Hr2 by (by apply res_upd).
  assert (forall t, t ∈ r :: l -> st (task s2 t) = st (task s t)) as He2.
  { intros t Ht. unfold s2. rewrite task_upd. case_decide; [subst; by rewrite <- He | by apply He]. }
  destruct (reschedule_ok s2 own r l [] Hq2 Hr2) as (s' & l' & Hrun & Hq' & Hr' & Hperm & Hcase).
  rewrite (chosen_ext s s2 r l He2) in *. exists s', l'. split_and!; try done.
  - destruct Hcase as [(Hc & -> & ->) | (l1 & l2 & Hl & _ & Hsw)].
    + split; [apply (q_current _ _ _ _ Hq') | done | done | intros _; by apply He2 | intros t Ht _ _; by apply He2 | exact Hz].
    + assert (chosen s r l <> r) as Hcr.
      { pose proof (queues_nodup _ _ _ _ Hq) as Hnd. apply NoDup_cons in Hnd as [Hnd _]. intros E. apply Hnd. rewrite Hl, E. apply elem_of_app. right. by left. }
      split; [apply (q_current _ _ _ _ Hq') | intros _; apply (sw_runs _ _ _ _ Hsw) | | done | |].
      * intros Hne. rewrite (sw_st _ _ _ _ Hsw), (decide_False (P := r = _)) by done. rewrite (He2 r Hin). apply decide_ext. tauto.
      * intros t Ht Htr Htc. rewrite (keep_st _ _ _ _ Hsw) by done. by apply He2.
      * destruct (sw_rest _ _ _ _ Hsw) as (-> & _). exact Hz.
  - destruct Hcase as [(? & _ & ?) | (l1 & l2 & ? & ? & _)]; [by left | right; by exists l1, l2].
Qed.

Lemma yield_ok s own r l zl : queues s r l zl -> res_ok s own ->
  exists s' own' l', yield s = Some (tt, s') /\ queues s' (chosen s r l) l' [] /\ res_ok s' own' /\
    chosen s r l :: l' ≡ₚ r :: l /\ gave_way s s' r l /\
    (chosen s r l = r /\ l' = l \/ exists l1 l2, l = l1 ++ chosen s r l :: l2 /\ l' = l2 ++ r :: l1).
Proof.
  intros Hq Hr. destruct (reap_ok s own r l zl Hq Hr) as (s1 & own1 & Hreap & Hq1 & Hr1 & Hz1 & Hring & _ & _).
  destruct (give_way_ok s s1 own1 r l 0 Hq1 Hr1 Hz1) as (s' & l' & Hrun & Hrest).
  { intros t Ht. by rewrite (task_of s s1) by auto. }
  exists s', own1, l'. split; [| exact Hrest]. unfold yield. rewrite (bind_Some _ _ _ _ _ Hreap).
  unfold gets at 1. unfold mbind at 1, St_bind at 1. rewrite (q_current _ _ _ _ Hq1). exact Hrun.
Qed.

(** The slice is used up with this tick and preemption is on. *)
Definition expires (s : sstate) (r : Z) : bool :=
  ((timeslice (task s r) =? 0) || (timeslice (task s r) =? 1)) && (preempt_count s =? 0).

Lemma tick_ok s own r l zl : queues s r l zl -> res_ok s own ->
  exists s' own' r' l', tick s = Some (tt, s') /\ queues s' r' l' [] /\ res_ok s' own' /\ r' :: l' ≡ₚ r :: l /\
    if expires s r then r' = chosen s r l /\ gave_way s s' r l
    else r' = r /\ l' = l /\ (0 <= timeslice (task s r) -> timeslice (task s' r) = Z.max 0 (timeslice (task s r) - 1)) /\
      (forall t, t ∈ r :: l -> st (task s' t) = st (task s t)).
Proof.
  intros Hq Hr. destruct (reap_ok s own r l zl Hq Hr) as (s1 & own1 & Hreap & Hq1 & Hr1 & Hz1 & Hring & _ & _ & Hpc).
  assert (r ∈ r :: l) as Hin by (by left). pose proof (queues_member _ _ _ _ _ Hq1 Hin) as Hrs.
  assert (task s1 r = task s r) as Hsr by (apply task_of; auto).
  set (q := Z.max 0 (timeslice (task s r) - 1)). set (s2 := upd r (set_timeslice q) s1).
  assert (r <> 0) as Hr0 by (intros ->; by apply (rg_null _ _ _ (q_ring _ _ _ _ Hq))).
  assert (tick s = if expires s r then reschedule (upd r (set_timeslice 0) s1) else
                   Some (tt, if 0 <? timeslice (task s r) then s2 else s1)) as Hrun.
  { unfold tick. rewrite (bind_Some _ _ _ _ _ Hreap). step_st. rewrite (q_current _ _ _ _ Hq1), (proj2 (Z.eqb_neq r 0)), Hsr by done.
    unfold expires. destruct (Z.ltb_spec 0 (timeslice (task s r))) as [Hlt | Hge].
    - rewrite task_upd, decide_True by done. cbn [timeslice set_timeslice preempt_count upd set_tasks]. rewrite Hpc.
      assert ((timeslice (task s r) =? 0) = false) as -> by lia. cbn [orb].
      assert (q = timeslice (task s r) - 1) as Hqv by (unfold q; lia). rewrite <- Hqv.
      assert ((q =? 0) = (timeslice (task s r) =? 1)) as -> by (rewrite Hqv; lia).
      destruct (Z.eqb_spec (timeslice (task s r)) 1), (preempt_count s =? 0); cbn [andb]; try done.
      assert (q = 0) as -> by lia. done.
    - rewrite Hsr, Hpc. destruct (Z.eqb_spec (timeslice (task s r)) 0) as [Ht0 | Ht0].
      2: { by assert ((timeslice (task s r) =? 1) = false) as -> by lia. }
      cbn [orb andb].
      destruct (preempt_count s =? 0); [| done]. rewrite upd_id; [done | done |]. rewrite Hsr.
      destruct (task s r); simpl in *. by rewrite Ht0. }
  destruct (expires s r).
  - destruct (give_way_ok s s1 own1 r l 0 Hq1 Hr1 Hz1) as (s' & l' & Hrs' & Hq' & Hr' & Hp & Hgw & _).
    { intros t Ht. by rewrite (task_of s s1) by auto. }
    exists s', own1, (chosen s r l), l'. rewrite Hrun. by split_and!.
  - rewrite Hrun. destruct (Z.ltb_spec 0 (timeslice (task s r))).
    + exists s2, own1, r, l. split_and!; try done.
      * apply queues_upd; try done; [apply (q_alive _ _ _ _ Hq1) |]. intros Hrl. by apply (q_rest _ _ _ _ Hq1).
      * by apply res_upd.
      * unfold s2. by rewrite task_upd, decide_True.
      * intros t Ht. unfold s2. rewrite task_upd. case_decide; [subst; cbn [st set_timeslice]; by rewrite Hsr | by rewrite (task_of s s1) by auto].
    + exists s1, own1, r, l. split_and!; try done; [rewrite Hsr; lia | intros t Ht; by rewrite (task_of s s1) by auto].
Qed.

(** ** block_current and wake *)

Lemma block_state s r l zl : queues s r l zl -> queues (upd r (set_st Blocked) s) r l zl.
Proof. intros Hq. apply queues_upd; try done; [by left | by right]. Qed.

Lemma block_current_ok s own r l zl : queues s r l zl -> res_ok s own ->
  exists s' l', block_current s = Some (tt, s') /\ let s1 := upd r (set_st Blocked) s in
    queues s' (chosen s1 r l) l' zl /\ res_ok s' own /\ chosen s1 r l :: l' ≡ₚ r :: l /\
    ((chosen s1 r l = r /\ s' = s1) \/ switched s1 s' r (chosen s1 r l)).
Proof.
  intros Hq Hr. set (s1 := upd r (set_st Blocked) s).
  assert (is_Some (tasks s !! r)) as Hrs by (apply (queues_member _ _ _ _ _ Hq); by left).
  destruct (reschedule_ok s1 own r l zl) as (s' & l' & Hrun & Hq' & Hr' & Hp & Hc).
  { by apply block_state. }
  { by apply res_upd. }
  exists s', l'. split.
  - unfold block_current. step_st. rewrite (q_current _ _ _ _ Hq). exact Hrun.
  - cbv zeta. fold s1. split_and!; try done. destruct Hc as [(? & ? & _) | (l1 & l2 & _ & _ & ?)]; auto.
Qed.

(** A blocked task becomes runnable; it takes the processor at once from the idle task. *)
Lemma wake_ok s own r l zl t : queues s r l zl -> res_ok s own -> t ∈ r :: l ->
  exists s' r' l', wake t s = Some (tt, s') /\ queues s' r' l' zl /\ res_ok s' own /\ r' :: l' ≡ₚ r :: l /\
    (st (task s t) <> Blocked -> s' = s) /\
    (st (task s t) = Blocked -> if decide (r = idle_ptr /\ t <> r) then r' = t /\ runs s' t
                                else r' = r /\ st (task s' t) = Ready).
Proof.
  intros Hq Hr Ht. assert (t <> 0) as H0 by (intros ->; by apply (rg_null _ _ _ (q_ring _ _ _ _ Hq))).
  pose proof (queues_member _ _ _ _ _ Hq Ht) as Hts.
  unfold wake. step_st. rewrite (proj2 (Z.eqb_neq t 0)) by done.
  destruct (decide (st (task s t) = Blocked)) as [Hb | Hb].
  2:{ rewrite bool_decide_eq_false_2 by done. exists s, r, l. by split_and!. }
  rewrite bool_decide_eq_true_2 by done. cbn [negb]. set (s1 := upd t (set_st Ready) s).
  assert (queues s1 r l zl) as Hq1 by (apply queues_upd; try done; by left).
  assert (res_ok s1 own) as Hr1 by (by apply res_upd).
  assert (st (task s1 t) = Ready) as Hst by (unfold s1; by rewrite task_upd, decide_True).
  rewrite (q_current _ _ _ _ Hq1). destruct (Z.eqb_spec r idle_ptr) as [-> | Hri].
  - destruct (decide (t = idle_ptr)) as [-> | Hti].
    + exists s1, idle_ptr, l. unfold do_switch. step_st. rewrite (q_current _ _ _ _ Hq1), Z.eqb_refl. split_and!; try done.
    + apply elem_of_cons in Ht as [? | Ht]; [done |].
      destruct (do_switch_ok s1 own idle_ptr l zl t Hq1 Hr1 Ht) as (s' & l1 & l2 & Hrun & Hl & Hq' & Hr' & Hsw).
      exists s', t, (l2 ++ idle_ptr :: l1). split_and!; try done.
      * rewrite Hl. change (t :: l2 ++ idle_ptr :: l1) with ((t :: l2) ++ (idle_ptr :: l1)). by rewrite (Permutation_app_comm (t :: l2)).
      * intros _. rewrite decide_True by done. split; [done | apply (sw_runs _ _ _ _ Hsw)].
  - exists s1, r, l. split_and!; try done. intros _. rewrite decide_False by tauto. done.
Qed.

(** ** Creating tasks *)

Lemma push_words_rest ws sp s : exists m, push_words ws sp s = (sp - 8 * Z.of_nat (length ws), set_kmem m s) /\
  (forall a, sp <= a -> m !! a = kmem s !! a) /\ (forall i w, ws !! i = Some w -> m !! (sp - 8 * (Z.of_nat i + 1)) = Some w).
Proof.
  revert sp s. induction ws as [| w ws IH]; intros sp s; cbn [push_words].
  - exists (kmem s). split_and!; [f_equal; [simpl; lia | by destruct s] | done | done].
  - destruct (IH (sp - 8) (set_kmem (<[sp - 8 := w]> (kmem s)) s)) as (m & -> & Hab & Hw). exists m. split_and!.
    + f_equal. simpl length. lia.
    + intros a Ha. rewrite Hab by lia. cbn [kmem set_kmem]. by rewrite lookup_insert_ne by lia.
    + intros [| i] x; simpl; [intros [= ->] | intros Hx].
      * rewrite Hab by lia. cbn [kmem set_kmem]. by rewrite lookup_insert_eq.
      * replace (sp - 8 * (Z.of_nat (S i) + 1)) with (sp - 8 - 8 * (Z.of_nat i + 1)) by lia. by apply Hw.
Qed.

(** The task list joined by a task that is not in it. *)
Definition add_task (t : Z) (v : Task) (s : sstate) : sstate := enqueue t (set_tasks (<[t := v]> (tasks s)) s).

Lemma enqueue_run t s : run_queue s <> 0 ->
  enqueue t s = upd (run_queue s) (set_tnext t) (upd t (set_tnext (next (task s (run_queue s)))) s).
Proof. intros H0. unfold enqueue. by rewrite (proj2 (Z.eqb_neq _ 0)). Qed.

Lemma add_task_lookup s r l zl t v p : queues s r l zl -> t <> r -> is_Some (tasks (add_task t v s) !! p) <-> is_Some (tasks s !! p) \/ p = t.
Proof.
  intros Hq Htr. pose proof (rg_queue _ _ _ (q_ring _ _ _ _ Hq)) as Hrq.
  pose proof (head_nonnull _ _ _ _ Hq) as H0.
  assert (is_Some (tasks s !! r)) as Hr by (apply (queues_member _ _ _ _ _ Hq); by left).
  unfold add_task. rewrite enqueue_run by (cbn; by rewrite Hrq). cbn [run_queue set_tasks]. rewrite Hrq.
  assert (forall q, is_Some (tasks (set_tasks (<[t:=v]> (tasks s)) s) !! q) <-> is_Some (tasks s !! q) \/ q = t) as Hi.
  { intros q. cbn [tasks set_tasks]. rewrite lookup_insert. case_decide; [subst; split; [by right | by eexists] | naive_solver]. }
  rewrite tasks_upd; [rewrite tasks_upd |]; [apply Hi | apply Hi; by right | apply tasks_upd; [apply Hi; by right |]; apply Hi; by left].
Qed.

Lemma add_task_task s r l zl t v p : queues s r l zl -> t <> r ->
  task (add_task t v s) p = if decide (p = t) then set_tnext (next (task s r)) v else
    if decide (p = r) then set_tnext t (task s r) else task s p.
Proof.
  intros Hq Htr. pose proof (rg_queue _ _ _ (q_ring _ _ _ _ Hq)) as Hrq.
  pose proof (head_nonnull _ _ _ _ Hq) as H0.
  unfold add_task. rewrite enqueue_run by (cbn; by rewrite Hrq). cbn [run_queue set_tasks]. rewrite Hrq, !task_upd.
  unfold task. cbn [tasks set_tasks]. rewrite !lookup_insert. repeat case_decide; subst; done.
Qed.

Lemma add_task_queues s r l zl t v : queues s r l zl -> tasks s !! t = None -> t <> 0 -> st v = Ready ->
  queues (add_task t v s) r (t :: l) zl.
Proof.
  intros Hq Hnone H0 Hst. pose proof Hq as [Q1 Q2 Q3 Q4 Q5 Q6 Q7 Q8 Q9]. pose proof Q1 as [Hrq Hp Hnd Hnull].
  assert (t ∉ r :: l) as Htn by (intros Hin; apply (queues_member _ _ _ _ _ Hq) in Hin; rewrite Hnone in Hin; by destruct Hin).
  assert (t ∉ zl) as Htz by (intros Hin; apply (path_elem _ _ _ _ _ Q6) in Hin; rewrite Hnone in Hin; by destruct Hin).
  assert (t <> r) as Htr by (intros ->; apply Htn; by left).
  pose proof (fun p => add_task_lookup s r l zl t v p Hq Htr) as Hdom. pose proof (fun p => add_task_task s r l zl t v p Hq Htr) as Htask.
  set (s' := add_task t v s) in *.
  assert (run_queue s' = r /\ current_task s' = r /\ zombie_list s' = zombie_list s) as (E1 & E2 & E3).
  { unfold s', add_task. rewrite enqueue_run by (cbn; rewrite Hrq; by apply (head_nonnull _ _ _ _ Hq)). cbn. by rewrite Hrq. }
  assert (forall x, x ∈ l \/ x ∈ zl -> task s' x = task s x) as Hsame.
  { intros x Hx. rewrite Htask, !decide_False; [done | |]; intros ->.
    - apply NoDup_cons in Hnd as [Hrl _]. destruct Hx as [? | Hz]; [done |]. apply (zombie_not_ring _ _ _ _ _ Hq Hz). by left.
    - destruct Hx as [? | ?]; [apply Htn; by right | done]. }
  split; try done.
  - split; [done | | |].
    + destruct Hp as (_ & Hrs & Hp). cbn [path]. split_and!; [done | apply Hdom; by left | | |].
      * rewrite Htask, decide_False, decide_True by done. done.
      * apply Hdom. by right.
      * rewrite Htask, decide_True by done. cbn [next set_tnext]. apply (path_ext s); [done |]. intros x Hx.
        rewrite Hdom, Hsame by (by left). split; [left; by apply (path_elem _ _ _ _ _ Hp) | done].
    + apply NoDup_cons in Hnd as [Hrl Hnd]. apply NoDup_cons. split; [intros [? | ?]%elem_of_cons; done |].
      apply NoDup_cons. split; [| done]. intros Hin. apply Htn. by right.
    + intros [E | [E | Hin]%elem_of_cons]%elem_of_cons; [apply Hnull; rewrite E; by left | by apply H0 | apply Hnull; by right].
  - apply elem_of_cons in Q3 as [-> | Hi]; [by left | right; by right].
  - rewrite Htask, decide_False, decide_True by done. done.
  - intros x [-> | Hx]%elem_of_cons; [rewrite Htask, decide_True by done; by left |]. rewrite Hsame by (by left). auto.
  - rewrite E3. apply (path_ext s); [done |]. intros x Hx. rewrite Hdom, Hsame by (by right).
    split; [left; by apply (path_elem _ _ _ _ _ Q6) | done].
  - intros z Hz. rewrite Hsame by (by right). auto.
Qed.

(** More blocks and more tables do not disturb the tasks. *)
Lemma res_more s s' own own' : res_ok s own -> tasks s' = tasks s -> tables_ok (ts s') own' -> others_kept own own' ->
  (forall u, is_Some (tables (ts s) !! u) -> is_Some (tables (ts s') !! u)) ->
  (forall u, is_Some (tables (ts s') !! u) -> is_Some (tables (ts s) !! u) \/ own !! u = None) -> res_ok s' own'.
Proof.
  intros [R1 R2 R3 R4 R5 R6] Ht Hok Hk Hd1 Hd2. split; rewrite ?Ht; try done.
  - intros t v a Hv Hti Ha. destruct (R2 t v a Hv Hti Ha) as [H1 H2]. split; [by apply Hk |].
    apply eq_None_not_Some. intros [Hs | Hn]%Hd2; [rewrite H2 in Hs; by destruct Hs | congruence].
  - intros t v Hv Hf. apply Hd1. by apply (R5 t v).
Qed.

(** The new task brings blocks and a table nobody else has. *)
Lemma res_insert s own t v : res_ok s own -> tasks s !! t = None -> t <> idle_ptr -> NoDup (assets t v) ->
  (forall a, a ∈ assets t v -> own !! a = Some OOther /\ tables (ts s) !! a = None) ->
  (forall u w a, tasks s !! u = Some w -> u <> idle_ptr -> a ∈ assets u w -> a ∉ assets t v) ->
  (fd_table v <> 0 -> is_Some (tables (ts s) !! fd_table v) /\ forall u w, tasks s !! u = Some w -> fd_table w <> fd_table v) ->
  res_ok (set_tasks (<[t := v]> (tasks s)) s) own.
Proof.
  intros [R1 R2 R3 R4 R5 R6] Hnone Hti Hnd Hown Hfresh Hfd.
  assert (forall u w, <[t := v]> (tasks s) !! u = Some w -> (u = t /\ w = v) \/ (u <> t /\ tasks s !! u = Some w)) as Hl.
  { intros u w. rewrite lookup_insert. case_decide; [intros [= <-]; by left | intros ?; right; by split]. }
  split; cbn [tasks ts set_tasks]; try done.
  - intros u w a [[-> ->] | [_ Hu]]%Hl Hui; [apply Hown | by apply R2].
  - intros u w [[-> ->] | [_ Hu]]%Hl Hui; [done | by apply R3].
  - intros u w u' w' a [[-> ->] | [Hn Hu]]%Hl [[-> ->] | [Hn' Hu']]%Hl Hi Hi' Ha Ha'; [done | | | by apply (R4 u w u' w' a)].
    + by destruct (Hfresh u' w' a Hu' Hi' Ha').
    + by destruct (Hfresh u w a Hu Hi Ha).
  - intros u w [[-> ->] | [_ Hu]]%Hl Hf; [by apply Hfd | by apply (R5 u w)].
  - intros u w u' w' [[-> ->] | [Hn Hu]]%Hl [[-> ->] | [Hn' Hu']]%Hl Hf Heq; [done | | | by apply (R6 u w u' w')].
    + destruct (Hfd Hf) as [_ Hx]. by destruct (Hx u' w' Hu').
    + rewrite Heq in Hf. destruct (Hfd Hf) as [_ Hx]. by destruct (Hx u w Hu).
Qed.

(** A heap block is not a task, not a part of one and not the idle task. *)
Lemma fresh_block s own a : res_ok s own -> own !! a = None -> heap_range a ->
  tasks s !! a = None /\ a <> idle_ptr /\ tables (ts s) !! a = None /\
  (forall u w, tasks s !! u = Some w -> u <> idle_ptr -> a ∉ assets u w).
Proof.
  intros Hr Hn Hh. assert (a <> idle_ptr) as Hi by (intros ->; unfold heap_range, idle_ptr in Hh; lia).
  assert (forall u w, tasks s !! u = Some w -> u <> idle_ptr -> a ∉ assets u w) as Ha.
  { intros u w Hu Hui Hin. destruct (rs_own _ _ Hr u w a Hu Hui Hin) as [? _]. congruence. }
  split_and!; try done.
  - destruct (tasks s !! a) as [v |] eqn:Hv; [| done]. exfalso. apply (Ha a v Hv Hi). unfold assets. apply elem_of_app. right. by left.
  - apply eq_None_not_Some. intros Ht%(tb_own _ _ (rs_tables _ _ Hr)). congruence.
Qed.

Lemma queues_same s s' r l zl : queues s r l zl -> tasks s' = tasks s ->
  run_queue s' = run_queue s -> current_task s' = current_task s -> zombie_list s' = zombie_list s -> queues s' r l zl.
Proof.
  intros Hq Ht. assert (forall p, task s' p = task s p) as Hv by (intros p; unfold task; by rewrite Ht).
  intros E1 E2 E3. apply (queues_ext s); try done. intros t Hin. rewrite Ht, Hv. split_and!; try done.
  apply elem_of_app in Hin as [Hin | Hin]; [by apply (queues_member _ _ _ _ _ Hq) |].
  by apply (path_elem _ _ _ _ _ (q_zombies _ _ _ _ Hq)).
Qed.

(** An allocation on behalf of the scheduler. *)
Lemma task_malloc s own r l zl n : queues s r l zl -> res_ok s own -> 0 < n < max_request ->
  exists p h own', malloc n s = Some (p, put_hp h s) /\ queues (put_hp h s) r l zl /\ res_ok (put_hp h s) own' /\
    others_kept own own' /\
    ((p = 0 /\ own' = own) \/ (p <> 0 /\ own !! p = None /\ heap_range p /\ own' = <[p := OOther]> own)).
Proof.
  intros Hq Hr Hn. destruct (malloc_spec s own n (rs_tables _ _ Hr) Hn) as (p & h & Hm & Hc).
  exists p, h, (if decide (p = 0) then own else <[p := OOther]> own). split; [done |].
  split; [by apply (queues_same s) |].
  destruct Hc as [[-> Hok] | (H0 & Hnone & Hh & Hok)].
  - rewrite decide_True by done. split; [apply (res_more s _ own own Hr); try done; [by intros a | intros u Hu; by left] | split; [by intros a | by left]].
  - rewrite decide_False by done. assert (others_kept own (<[p := OOther]> own)) as Hk.
    { intros a Ha. rewrite lookup_insert_ne; [done |]. congruence. }
    split; [apply (res_more s _ own _ Hr); try done; by (intros u Hu; left) | split; [done | by right]].
Qed.

(** Giving such a block back. *)
Lemma task_free s own r l zl a : queues s r l zl -> res_ok s own -> own !! a = Some OOther -> tables (ts s) !! a = None ->
  (forall t v, tasks s !! t = Some v -> t <> idle_ptr -> a ∉ assets t v) ->
  exists h, mfree a s = Some (tt, put_hp h s) /\ queues (put_hp h s) r l zl /\ res_ok (put_hp h s) (delete a own).
Proof.
  intros Hq Hr Ha Ht Hfree. destruct (mfree_spec s own a (rs_tables _ _ Hr) Ha Ht) as (h & Hf & Hok).
  exists h. split; [done |]. split; [by apply (queues_same s) |].
  pose proof Hr as [R1 R2 R3 R4 R5 R6]. split; try done.
  intros t v b Hv Hti Hb. destruct (R2 t v b Hv Hti Hb) as [H1 H2]. split; [| done].
  rewrite lookup_delete_ne; [done |]. intros ->. by apply (Hfree t v).
Qed.

(** A stack ready for the first switch to a task: [switch_context] will restore the
    registers and return to [pc]. *)
Definition starts_at (s : sstate) (sp pc r15 : Z) : Prop :=
  kmem s !! (sp + 80) = Some pc /\ kmem s !! (sp + 72) = Some r15.

Lemma add_task_rest s r l zl t v : queues s r l zl ->
  ts (add_task t v s) = ts s /\ next_tid (add_task t v s) = next_tid s /\ kmem (add_task t v s) = kmem s.
Proof.
  intros Hq. pose proof (head_nonnull _ _ _ _ Hq). unfold add_task.
  rewrite enqueue_run; [done |]. cbn. by rewrite (rg_queue _ _ _ (q_ring _ _ _ _ Hq)).
Qed.

Lemma add_task_res s own r l zl t v : queues s r l zl -> res_ok s own -> tasks s !! t = None -> t <> idle_ptr -> NoDup (assets t v) ->
  (forall a, a ∈ assets t v -> own !! a = Some OOther /\ tables (ts s) !! a = None) ->
  (forall u w a, tasks s !! u = Some w -> u <> idle_ptr -> a ∈ assets u w -> a ∉ assets t v) ->
  (fd_table v <> 0 -> is_Some (tables (ts s) !! fd_table v) /\ forall u w, tasks s !! u = Some w -> fd_table w <> fd_table v) ->
  res_ok (add_task t v s) own.
Proof.
  intros Hq Hr Hnone Hti Hnd Ho Hf Hfd. pose proof (res_insert s own t v Hr Hnone Hti Hnd Ho Hf Hfd) as Hr1.
  unfold add_task. set (s1 := set_tasks _ s) in *.
  assert (is_Some (tasks s !! r)) as [w Hw] by (apply (queues_member _ _ _ _ _ Hq); by left).
  assert (t <> r) as Htr by (intros ->; congruence).
  assert (is_Some (tasks s1 !! t)) as Ht1 by (cbn; rewrite lookup_insert_eq; by eexists).
  assert (is_Some (tasks s1 !! r)) as Hr1s by (cbn; rewrite lookup_insert_ne by done; by eexists).
  pose proof (rg_queue _ _ _ (q_ring _ _ _ _ Hq)) as Hrq. pose proof (head_nonnull _ _ _ _ Hq).
  rewrite enqueue_run by (cbn; by rewrite Hrq). change (run_queue s1) with (run_queue s). rewrite Hrq.
  apply res_upd; [by apply res_upd | by apply tasks_upd | done].
Qed.

Lemma spawn_ok s own r l zl entry nm size quant : queues s r l zl -> res_ok s own -> 0 < size < max_request ->
  exists res s' own', spawn entry nm size quant s = Some (res, s') /\ res_ok s' own' /\
    match res with
    | Ok id => id = next_tid s /\ next_tid s' = u32 (id + 1) /\ exists t, tasks s !! t = None /\ queues s' r (t :: l) zl /\
        tid (task s' t) = id /\ st (task s' t) = Ready /\ stack_size (task s' t) = size /\ timeslice (task s' t) = quant /\
        starts_at s' (ctx (task s' t)) task_entry_trampoline entry /\
        (forall p, p <> t -> p <> r -> task s' p = task s p)
    | Err e => e = OutOfMemory /\ queues s' r l zl /\ tasks s' = tasks s /\ next_tid s' = next_tid s
    end.
Proof.
  intros Hq Hr Hn. unfold spawn.
  destruct (task_malloc s own r l zl sizeof_Task Hq Hr ltac:(done)) as (t & h1 & own1 & Hm1 & Hq1 & Hr1 & Hk1 & Ht).
  rewrite (bind_Some _ _ _ _ _ Hm1). destruct Ht as [[-> ->] | (Ht0 & Htn & Hth & ->)].
  { cbn [Z.eqb]. exists (Err OutOfMemory), (put_hp h1 s), own. by split_and!. }
  rewrite (proj2 (Z.eqb_neq t 0)) by done. set (s1 := put_hp h1 s) in *. set (own1 := <[t := OOther]> own) in *.
  destruct (fresh_block s own t Hr Htn Hth) as (Hnt & Hti & Htt & Htf).
  destruct (task_malloc s1 own1 r l zl size Hq1 Hr1 Hn) as (stk & h2 & own2 & Hm2 & Hq2 & Hr2 & Hk2 & Hs).
  rewrite (bind_Some _ _ _ _ _ Hm2). set (s2 := put_hp h2 s1) in *. destruct Hs as [[-> ->] | (Hs0 & Hsn & Hsh & ->)].
  { cbn [Z.eqb]. destruct (task_free s2 own1 r l zl t Hq2 Hr2) as (h3 & Hf & Hq3 & Hr3);
      [unfold own1; by rewrite lookup_insert_eq | done | done |].
    step_st. rewrite Hf. exists (Err OutOfMemory), (put_hp h3 s2), (delete t own1). by split_and!. }
  rewrite (proj2 (Z.eqb_neq stk 0)) by done. set (own2 := <[stk := OOther]> own1) in *.
  destruct (fresh_block s1 own1 stk Hr1 Hsn Hsh) as (Hns & Hsi & Hst & Hsf).
  assert (stk <> t) as Hne by (intros ->; unfold own1 in Hsn; by rewrite lookup_insert_eq in Hsn).
  step_st. destruct (push_words_rest ([task_entry_trampoline; entry] ++ replicate 9 0) (stk + size) (set_next_tid (u32 (next_tid s2 + 1)) s2))
    as (m & -> & _ & Hw).
  set (v := MkTask _ stk _ _ _ _ _ _ _ _ _ _ _ _ _ _). set (s3 := set_kmem m (set_next_tid (u32 (next_tid s2 + 1)) s2)).
  change (enqueue t _) with (add_task t v s3).
  assert (queues s3 r l zl) as Hq3 by (by apply (queues_same s2)).
  assert (res_ok s3 own2) as Hr3 by (apply (res_more s2 _ own2 own2 Hr2); try done; [apply (rs_tables _ _ Hr2) | by intros a | intros u Hu; by left]).
  assert (assets t v = [stk; t]) as Ha by (unfold assets, blocks_of; cbn; by rewrite (proj2 (Z.eqb_neq stk 0))).
  assert (t <> r) as Htr.
  { intros ->. destruct (queues_member _ _ _ _ r Hq ltac:(by left)) as [? ?]. congruence. }
  destruct (add_task_rest s3 r l zl t v Hq3) as (_ & Htid & Hmem).
  exists (Ok (next_tid s2)), (add_task t v s3), own2. split; [done |]. split.
  - apply (add_task_res s3 own2 r l zl); try done; rewrite ?Ha.
    + apply NoDup_cons. split; [by rewrite list_elem_of_singleton | apply NoDup_singleton].
    + intros a [-> | ->%list_elem_of_singleton]%elem_of_cons; (split; [| done]); unfold own2, own1;
        [by rewrite lookup_insert_eq | by rewrite lookup_insert_ne, lookup_insert_eq].
    + intros u w a Hu Hui Hau [-> | ->%list_elem_of_singleton]%elem_of_cons; [by apply (Hsf u w) | by apply (Htf u w)].
  - split; [done |]. split; [by rewrite Htid |]. exists t. split; [done |]. split; [by apply add_task_queues |].
    rewrite (add_task_task s3 r l zl t v t Hq3 Htr), decide_True by done. split_and!; try done.
    + unfold starts_at. rewrite Hmem. cbn [ctx set_tnext v].
      split; [rewrite <- (Hw 0%nat _ eq_refl) | rewrite <- (Hw 1%nat _ eq_refl)]; cbn [kmem s3 set_kmem]; f_equal; cbn; lia.
    + intros p Hp Hpr. rewrite (add_task_task s3 r l zl t v p Hq3 Htr), !decide_False by done. done.
Qed.

(** ** exit *)

(** The walks of [exit] as functions on the tasks of the queue. *)
Definition reparent (d : Z) (v : Task) : Task := if parent_tid v =? d then set_parent_tid 1 v else v.

Lemma reparent_loop_ok n start t d l s : path s t l start -> l <> [] -> NoDup l -> start ∉ drop 1 l -> (length l <= n)%nat ->
  exists m, reparent_loop n start t d s = Some (tt, set_tasks m s) /\
    forall p, m !! p = if decide (p ∈ l) then reparent d <$> tasks s !! p else tasks s !! p.
Proof.
  revert n t s. induction l as [| x l IH]; intros n t s Hp Hne Hnd Hs Hn; [done |].
  destruct n as [| n]; [simpl in Hn; lia |]. destruct Hp as (-> & Hx & Hp). apply NoDup_cons in Hnd as [Hxl Hnd]. simpl in Hs, Hn.
  cbn [reparent_loop]. set (s1 := set_tasks (<[x := reparent d (task s x)]> (tasks s)) s).
  assert ((when (parent_tid (task s x) =? d) (modify (upd x (set_parent_tid 1)))) s = Some (tt, s1)) as Hw.
  { unfold s1, reparent. step_st. destruct (parent_tid (task s x) =? d); [done |]. f_equal. f_equal. symmetry.
    apply (upd_id x (fun v => v)); done. }
  rewrite (bind_Some _ _ s (task s x) s eq_refl), (bind_Some _ _ _ _ _ Hw).
  assert (forall p, tasks s1 !! p = if decide (p ∈ [x]) then reparent d <$> tasks s !! p else tasks s !! p) as Ht1.
  { intros p. cbn. rewrite lookup_insert. case_decide as E; [subst |]; rewrite ?decide_True, ?decide_False by (rewrite list_elem_of_singleton; congruence); [| done].
    destruct Hx as [v Hv]. unfold task. by rewrite Hv. }
  destruct l as [| y l].
  { simpl in Hp. rewrite Hp, Z.eqb_refl. exists (tasks s1). split; [by destruct s | exact Ht1]. }
  pose proof Hp as (Hy & _). rewrite Hy in Hp |- *. rewrite (proj2 (Z.eqb_neq y start)) by (intros ->; apply Hs; by left).
  destruct (IH n y s1) as (m & -> & Hm); [| done | done | simpl in *; intros ?; apply Hs; by right | lia |].
  { apply (path_ext s); [exact Hp |]. intros z Hz. assert (z <> x) by (by intros ->).
    unfold task. rewrite Ht1, decide_False by (by rewrite list_elem_of_singleton). split; [by apply (path_elem _ _ _ _ _ Hp) | done]. }
  exists m. split; [done |]. intros p. rewrite Hm, Ht1. destruct (decide (p = x)) as [-> |].
  - rewrite decide_False, !decide_True by (done || by left). done.
  - rewrite (decide_False (P := p ∈ [x])) by (by rewrite list_elem_of_singleton).
    apply decide_ext. rewrite (elem_of_cons _ p x). naive_solver.
Qed.

(** The first task of the queue that is blocked and has the number asked for. *)
Definition waiting (s : sstate) (ptid : Z) (t : Z) : bool := (tid (task s t) =? ptid) && bool_decide (st (task s t) = Blocked).

Lemma wake_parent_loop_ok n start t ptid l s : path s t l start -> l <> [] -> start ∉ drop 1 l -> (length l <= n)%nat ->
  wake_parent_loop n start t ptid s =
    Some (tt, match List.find (waiting s ptid) l with Some p => upd p (set_st Ready) s | None => s end).
Proof.
  revert n t. induction l as [| x l IH]; intros n t Hp Hne Hs Hn; [done |].
  destruct n as [| n]; [simpl in Hn; lia |]. destruct Hp as (-> & _ & Hp). cbn [wake_parent_loop List.find]. unfold waiting at 1. step_st.
  destruct ((tid (task s x) =? ptid) && bool_decide (st (task s x) = Blocked)); [done |]. simpl in Hs. destruct l as [| y l].
  - simpl in Hp. by rewrite Hp, Z.eqb_refl.
  - pose proof Hp as (Hy & _). rewrite Hy in Hp |- *. rewrite (proj2 (Z.eqb_neq y start)) by (intros ->; apply Hs; by left).
    apply IH; [exact Hp | done | | simpl in *; lia]. intros Hin. apply Hs. by right.
Qed.

Lemma find_before_path n s prev l p r : path s prev (l ++ [p]) r -> run_queue s = r -> r ∉ drop 1 (l ++ [p]) -> (length l < n)%nat ->
  find_before n s prev r = Some p.
Proof.
  revert n prev. induction l as [| x l IH]; intros n prev Hp Hq Hr Hn; (destruct n as [| n]; [simpl in Hn; lia |]); cbn [find_before].
  - destruct Hp as (-> & _ & Hp). simpl in Hp. by rewrite Hp, Z.eqb_refl.
  - destruct Hp as (-> & _ & Hp). rewrite Hq. simpl in Hr. destruct (l ++ [p]) as [| y k] eqn:Hk; [by destruct l |].
    pose proof Hp as (Hy & _). rewrite Hy in Hp |- *. rewrite (proj2 (Z.eqb_neq y r)) by (intros ->; apply Hr; by left). cbn [negb andb].
    apply IH; [exact Hp | done | simpl; intros ?; apply Hr; by right | simpl in *; lia].
Qed.

(** The head is taken out of a queue it is not alone in; the queue then starts at
    its last member, so that the search for a successor goes on where it was. *)
Lemma unlink_head s r l p : ring s r (l ++ [p]) ->
  exists s', unlink_task r s = Some (tt, s') /\ ring s' p l /\ current_task s' = current_task s /\ zombie_list s' = zombie_list s /\
    ts s' = ts s /\ next_tid s' = next_tid s /\ preempt_count s' = preempt_count s /\
    (forall q, task s' q = if decide (q = r) then set_tnext 0 (task s r) else
       if decide (q = p) then set_tnext (next (task s r)) (task s p) else task s q) /\
    (forall q, is_Some (tasks s' !! q) <-> is_Some (tasks s !! q)).
Proof.
  intros Hr. pose proof (ring_fuel _ _ _ Hr) as Hf. destruct Hr as [Hq Hp Hn H0].
  assert (r <> 0) as Hr0 by (intros ->; apply H0; by left).
  assert (p <> r) as Hpr by (intros ->; apply NoDup_cons in Hn as [Hn _]; apply Hn, elem_of_app; right; by left).
  assert (is_Some (tasks s !! r)) as Hrs by (apply (path_elem _ _ _ _ _ Hp); by left).
  assert (is_Some (tasks s !! p)) as Hps by (apply (path_elem _ _ _ _ _ Hp); right; apply elem_of_app; right; by left).
  pose proof Hp as (_ & _ & Htl).
  set (s' := upd r (set_tnext 0) (set_run_queue p (upd p (set_tnext (next (task s r))) s))).
  assert (next (task s p) = r) as Hnp.
  { apply path_app in Htl as (c & _ & Hc). destruct Hc as (-> & _ & Hc). exact Hc. }
  exists s'. split.
  { unfold unlink_task. rewrite Hq, (proj2 (Z.eqb_neq r 0)) by done. cbn [orb].
    rewrite (find_before_path (fuel s) s r (r :: l) p r); [| exact Hp | done | | rewrite length_app in Hf; simpl in *; lia].
    2: { simpl. by apply NoDup_cons in Hn as [Hn _]. }
    cbn [mbind option_bind]. rewrite Hnp, Z.eqb_refl. cbn [negb].
    rewrite (proj2 (Z.eqb_neq (next (task s r)) r)); [done |].
    intros He. rewrite He in Htl. destruct (l ++ [p]) as [| y k] eqn:Hk; [by destruct l |]. destruct Htl as (<- & _).
    apply NoDup_cons in Hn as [Hn _]. apply Hn. by left. }
  assert (forall q, task s' q = if decide (q = r) then set_tnext 0 (task s r) else
       if decide (q = p) then set_tnext (next (task s r)) (task s p) else task s q) as Hv.
  { intros q. unfold s'. rewrite task_upd. change (task (set_run_queue p ?x) ?y) with (task x y). rewrite !task_upd.
    repeat case_decide; subst; done. }
  assert (forall q, is_Some (tasks s' !! q) <-> is_Some (tasks s !! q)) as Hd.
  { intros q. unfold s'. rewrite tasks_upd; [by apply tasks_upd | by apply tasks_upd]. }
  split_and!; try done. apply NoDup_cons in Hn as [Hrl Hn]. split; [done | | |].
  - cbn [path]. split_and!; [done | by apply Hd |]. rewrite Hv, decide_False, decide_True by done. cbn [next set_tnext].
    apply path_app in Htl as (c & Hl & Hc). destruct Hc as (-> & _). apply (path_ext s); [done |]. intros x Hx. rewrite Hd.
    split; [by apply (path_elem _ _ _ _ _ Hl) |]. rewrite Hv, !decide_False; [done | |]; intros ->.
    + apply NoDup_app in Hn as (_ & Hd' & _). apply (Hd' p Hx). by left.
    + apply Hrl, elem_of_app. by left.
  - by rewrite Permutation_cons_append.
  - intros Hin. apply H0. right. by rewrite <- Permutation_cons_append.
Qed.

(** The queues while the head is leaving: it is dead but still linked. *)
Record leaving (s : sstate) (r : Z) (l zl : list Z) : Prop := {
  lv_ring : ring s r l;
  lv_current : current_task s = r;
  lv_idle : idle_ptr ∈ l;
  lv_rest : forall t, t ∈ l -> st (task s t) = Ready \/ st (task s t) = Blocked;
  lv_zombies : path s (zombie_list s) zl 0;
  lv_nodup : NoDup (r :: zl);
  lv_null : 0 ∉ zl;
  lv_dead : forall z, z ∈ r :: zl -> st (task s z) = Dead;
  lv_fd : forall z, z ∈ zl -> fd_table (task s z) = 0;
}.

Lemma leaving_ext s s' r l zl : leaving s r l zl ->
  run_queue s' = run_queue s -> current_task s' = current_task s -> zombie_list s' = zombie_list s ->
  (forall p, is_Some (tasks s' !! p) <-> is_Some (tasks s !! p)) -> (forall p, next (task s' p) = next (task s p)) ->
  (forall p, st (task s' p) = st (task s p) \/ (p ∈ l /\ st (task s' p) = Ready)) ->
  (forall p, fd_table (task s' p) = fd_table (task s p) \/ fd_table (task s' p) = 0) -> leaving s' r l zl.
Proof.
  intros [L1 L2 L3 L4 L5 L6 L7 L8 L9] Hq Hc Hz Hd Hn Hs Hf. split; try done.
  - apply (ring_ext s); [done | rewrite Hq; apply (rg_queue _ _ _ L1) |]. intros x Hx. rewrite Hd.
    split; [by apply (path_elem _ _ _ _ _ (rg_path _ _ _ L1)) | done].
  - congruence.
  - intros t Ht. destruct (Hs t) as [-> | [_ ->]]; [auto | by left].
  - rewrite Hz. apply (path_ext s); [done |]. intros x Hx. rewrite Hd. split; [by apply (path_elem _ _ _ _ _ L5) | done].
  - intros z Hzz. destruct (Hs z) as [-> | [Hl _]]; [auto |]. exfalso.
    destruct (L4 z Hl) as [E | E]; rewrite (L8 z Hzz) in E; done.
  - intros z Hzz. destruct (Hf z) as [-> | ->]; auto.
Qed.

(** The task marked dead; its descriptors are closed. *)
Definition buried (code : Z) (v : Task) : Task := set_fd_table 0 (set_st Dead (set_exit_code code v)).

(** A task's descriptor table is released. *)
Lemma res_drop_table s own t' own' r v : res_ok s own -> tasks s !! r = Some v -> fd_table v <> 0 -> tables_ok t' own' ->
  (forall a, a <> fd_table v -> own !! a = Some OOther -> own' !! a = Some OOther) ->
  (forall u, is_Some (tables t' !! u) <-> is_Some (tables (ts s) !! u) /\ u <> fd_table v) ->
  res_ok (upd r (set_fd_table 0) (set_ts t' s)) own'.
Proof.
  intros [R1 R2 R3 R4 R5 R6] Hlr H0 Hok Hk Hdom. pose proof (R5 r v Hlr H0) as Htab. set (s2 := upd _ _ _).
  assert (forall t w, tasks s2 !! t = Some w -> exists w', tasks s !! t = Some w' /\ assets t w = assets t w' /\ (fd_table w = 0 \/ fd_table w = fd_table w' /\ t <> r)) as Hw'.
  { intros t w. unfold s2, upd, task. cbn [tasks set_tasks set_ts]. rewrite Hlr, lookup_insert. case_decide; [intros [= <-]; subst; exists v | intros ?; exists w]; split_and!; auto. }
  split; [done | | | | |].
  - intros t w a Ht Hti Ha. destruct (Hw' t w Ht) as (w' & Ht' & Has & _). rewrite Has in Ha. destruct (R2 t w' a Ht' Hti Ha) as [H1 H2].
    assert (a <> fd_table v) as Hav by (intros ->; rewrite H2 in Htab; by destruct Htab).
    split; [by apply Hk |]. apply eq_None_not_Some. intros [Hs _]%Hdom. rewrite H2 in Hs. by destruct Hs.
  - intros t w Ht Hti. destruct (Hw' t w Ht) as (w' & Ht' & Has & _). rewrite Has. by apply R3.
  - intros t w u x a Ht Hu Hti Hui. destruct (Hw' t w Ht) as (w' & Ht' & -> & _). destruct (Hw' u x Hu) as (x' & Hu' & -> & _). by apply (R4 t w' u x').
  - intros t w Ht Hn0. destruct (Hw' t w Ht) as (w' & Ht' & _ & [? | [He Htr]]); [done |]. apply Hdom. rewrite He in *.
    split; [by apply (R5 t w') |]. intros Heq. apply Htr. by apply (R6 t w' r v).
  - intros t w u x Ht Hu Hn0 Heq. destruct (Hw' t w Ht) as (w' & Ht' & _ & [? | [He Htr]]); [done |].
    destruct (Hw' u x Hu) as (x' & Hu' & _ & [? | [He' Hur]]); [congruence |]. apply (R6 t w' u x'); congruence.
Qed.

Lemma release_ok s own r l zl code : queues s r l zl -> res_ok s own -> r <> idle_ptr ->
  let s1 := upd r (fun t => set_st Dead (set_exit_code code t)) s in
  let v := task s1 r in
  exists s2 own2,
    when (negb (fd_table v =? 0))
      (on_tables (fun t => t' ← FdTable.free foreign_close (fd_table v) t; Some (tt, t')) ;; modify (upd r (set_fd_table 0))) s1 = Some (tt, s2) /\
    leaving s2 r l zl /\ res_ok s2 own2 /\ (forall p, task s2 p = if decide (p = r) then buried code (task s r) else task s p) /\
    (fd_table (task s r) <> 0 -> tables (ts s2) !! fd_table (task s r) = None).
Proof.
  intros Hq Hr Hri s1 v. assert (is_Some (tasks s !! r)) as Hrs by (apply (queues_member _ _ _ _ _ Hq); by left).
  assert (forall p, task s1 p = if decide (p = r) then set_st Dead (set_exit_code code (task s r)) else task s p) as Ht1.
  { intros p. unfold s1. rewrite task_upd. repeat case_decide; subst; done. }
  assert (res_ok s1 own) as Hr1 by (by apply res_upd).
  assert (forall p, is_Some (tasks s1 !! p) <-> is_Some (tasks s !! p)) as Hd1 by (intros p; by apply tasks_upd).
  assert (v = set_st Dead (set_exit_code code (task s r))) as Hv by (unfold v; by rewrite Ht1, decide_True).
  assert (leaving s1 r l zl) as Hl1.
  { pose proof Hq as [Q1 Q2 Q3 Q4 Q5 Q6 Q7 Q8 Q9].
    assert (r ∉ zl) as Hrz by (intros Hz; apply (zombie_not_ring _ _ _ _ _ Hq Hz); by left).
    assert (forall p, next (task s1 p) = next (task s p)) as Hn by (intros p; rewrite Ht1; case_decide; by subst).
    split; try done.
    - apply (ring_ext s); [done | apply (rg_queue _ _ _ Q1) |]. intros x Hx. rewrite Hd1. split; [by apply (queues_member _ _ _ _ _ Hq) | done].
    - apply elem_of_cons in Q3 as [? | ?]; [congruence | done].
    - intros t Ht. rewrite Ht1, decide_False; [auto |]. intros ->. by apply queues_nodup, NoDup_cons in Hq as [? _].
    - apply (path_ext s); [done |]. intros x Hx. rewrite Hd1. split; [by apply (path_elem _ _ _ _ _ Q6) | done].
    - apply NoDup_cons. done.
    - intros z Hz. rewrite Ht1. case_decide; [done |]. apply elem_of_cons in Hz as [? | Hz]; [done |]. by apply Q9.
    - intros z Hz. rewrite Ht1, decide_False by (by intros ->). by apply Q9. }
  assert (fd_table v = fd_table (task s r)) as Hfv by (by rewrite Hv).
  destruct (Z.eqb_spec (fd_table v) 0) as [H0 | H0]; cbn [negb when].
  { exists s1, own. split_and!; [done | done | done | | intros; congruence].
    intros p. rewrite Ht1. case_decide; [| done]. assert (fd_table (task s r) = 0) as Hf0 by congruence. unfold buried. destruct (task s r); simpl in *. by rewrite Hf0. }
  assert (tasks s1 !! r = Some v) as Hlr.
  { destruct (proj2 (Hd1 r) Hrs) as [w Hw]. rewrite Hw. unfold v, task. by rewrite Hw. }
  pose proof (rs_fd _ _ Hr1 r v Hlr H0) as Htab.
  destruct (free_table_ok foreign_close (ts s1) own (fd_table v) (rs_tables _ _ Hr1) Htab) as (t' & own2 & Hf & Hok2 & Hk2 & Hdom2 & _).
  set (s2 := upd r (set_fd_table 0) (set_ts t' s1)).
  assert (forall p, task s2 p = if decide (p = r) then buried code (task s r) else task s p) as Ht2.
  { intros p. unfold s2. rewrite task_upd. change (task (set_ts t' s1)) with (task s1). rewrite !Ht1. repeat case_decide; subst; done. }
  assert (forall p, is_Some (tasks s2 !! p) <-> is_Some (tasks s1 !! p)) as Hd2 by (intros p; apply (tasks_upd r _ (set_ts t' s1)); by rewrite Hd1).
  exists s2, own2. split_and!; [| | | done |].
  - step_st. unfold on_tables, run_on. rewrite Hf. cbn [mbind option_bind]. done.
  - apply (leaving_ext s1); try done; intros p; rewrite Ht2, Ht1; case_decide; subst; auto.
  - by apply (res_drop_table s1 own t' own2 r v).
  - intros _. rewrite <- Hfv. apply eq_None_not_Some. intros [_ ?]%Hdom2. done.
Qed.

Lemma same_tasks_task s s' p : same_tasks s s' -> keep (task s' p) = keep (task s p).
Proof. intros Hs. specialize (Hs p). unfold task. destruct (tasks s' !! p), (tasks s !! p); simpl in *; congruence. Qed.

(** The queue [t :: l'] seen from its member [t], whoever runs now. *)
Lemma ring_at s r l t : ring s r l -> t ∈ r :: l -> exists l', t :: l' ≡ₚ r :: l /\
  forall s', run_queue s' = t -> (forall x, x ∈ r :: l -> is_Some (tasks s' !! x) /\ next (task s' x) = next (task s x)) -> ring s' t l'.
Proof.
  intros Hr [-> | Ht]%elem_of_cons.
  - exists l. split; [done |]. intros s' Hq He. by apply (ring_ext s).
  - apply list_elem_of_split in Ht as (l1 & l2 & ->). exists (l2 ++ r :: l1). split.
    + change (t :: l2 ++ r :: l1) with ((t :: l2) ++ (r :: l1)). by rewrite (Permutation_app_comm (t :: l2)).
    + intros s' Hq He. by apply (ring_rotate s s' r l1 t l2).
Qed.

(** The dead head is moved from the run queue to the zombies. *)
Lemma bury_ok s r l zl : leaving s r l zl ->
  exists s' p l', (unlink_task r ;; modify (fun s => set_zombies r (upd r (set_tnext (zombie_list s)) s))) s = Some (tt, s') /\
    ring s' p l' /\ p :: l' ≡ₚ l /\ current_task s' = r /\ path s' (zombie_list s') (r :: zl) 0 /\ ts s' = ts s /\ same_tasks s s' /\
    (forall q, st (task s' q) = st (task s q)).
Proof.
  intros [L1 L2 L3 L4 L5 L6 L7 L8 L9].
  destruct (exists_last (l := l)) as (k & p & ->); [intros ->; by apply elem_of_nil in L3 |].
  destruct (unlink_head s r k p L1) as (s1 & Hun & Hring & Hc & Hz & Hts & _ & _ & Hv & Hd).
  pose proof (rg_nodup _ _ _ L1) as Hnd. apply NoDup_cons in Hnd as [Hrl _].
  assert (is_Some (tasks s !! r)) as Hrs by (apply (path_elem _ _ _ _ _ (rg_path _ _ _ L1)); by left).
  set (s2 := upd r (set_tnext (zombie_list s1)) s1).
  assert (forall q, is_Some (tasks s2 !! q) <-> is_Some (tasks s !! q)) as Hd2.
  { intros q. unfold s2. rewrite tasks_upd; [apply Hd | by apply Hd]. }
  assert (forall q, q <> r -> task s2 q = task s1 q) as Hv2 by (intros q Hq; unfold s2; by rewrite task_upd, decide_False).
  assert (forall q, st (task s2 q) = st (task s q) /\ keep (task s2 q) = keep (task s q)) as Hsame.
  { intros q. unfold s2. rewrite task_upd, !Hv. repeat case_decide; subst; done. }
  assert (same_tasks s s2) as Hst.
  { intros q. pose proof (Hd2 q) as Hdq. destruct (Hsame q) as [_ Hk]. unfold task in Hk.
    destruct (tasks s2 !! q) as [v |], (tasks s !! q) as [w |]; simpl in *; [by rewrite Hk | | | done].
    - by destruct (proj1 Hdq ltac:(by eexists)).
    - by destruct (proj2 Hdq ltac:(by eexists)). }
  exists (set_zombies r s2), p, k. split; [step_st; by rewrite Hun |]. split_and!; try done.
  - apply (ring_ext s1); [done | apply (rg_queue _ _ _ Hring) |]. intros x Hx.
    change (tasks (set_zombies r s2)) with (tasks s2). change (task (set_zombies r s2) x) with (task s2 x).
    assert (x <> r) as Hxr by (intros ->; apply Hrl; by rewrite <- Permutation_cons_append).
    rewrite Hd2, Hv2 by done. split; [| done]. apply Hd. by apply (path_elem _ _ _ _ _ (rg_path _ _ _ Hring)).
  - apply Permutation_cons_append.
  - change (current_task s1 = r). by rewrite Hc.
  - cbn [zombie_list set_zombies path]. split_and!; [done | by apply Hd2 |].
    change (task (set_zombies r s2) r) with (task s2 r). unfold s2 at 2. rewrite task_upd, decide_True by done. cbn [next set_tnext].
    rewrite Hz. apply (path_ext s); [done |]. intros x Hx. apply NoDup_cons in L6 as [Hrz _].
    change (tasks (set_zombies r s2)) with (tasks s2). change (task (set_zombies r s2) x) with (task s2 x).
    assert (x <> r) as Hxr by (by intros ->). rewrite Hd2, Hv2, Hv by done. split; [by apply (path_elem _ _ _ _ _ L5) |].
    rewrite !decide_False; [done | | done]. intros ->. destruct (L4 p) as [E | E]; [apply elem_of_app; right; by left | |];
      rewrite L8 in E by (by right); done.
  - intros q. apply Hsame.
Qed.

Lemma leave_ok s own r l zl : leaving s r l zl -> res_ok s own -> fd_table (task s r) = 0 ->
  exists s' t l', (unlink_task r ;; modify (fun s => set_zombies r (upd r (set_tnext (zombie_list s)) s)) ;;
      rq ← gets run_queue; if rq =? 0 then halt else (n ← pick_next; do_switch n)) s = Some (tt, s') /\
    queues s' t l' (r :: zl) /\ res_ok s' own /\ t :: l' ≡ₚ l /\ runs s' t /\ tables (ts s') = tables (ts s) /\ same_tasks s s' /\
    (forall q, st (task s' q) = if decide (q = t) then Running else st (task s q)).
Proof.
  intros Hl Hr Hfd. destruct (bury_ok s r l zl Hl) as (s1 & p & k & Hbury & Hring & Hperm & Hc & Hz & Hts & Hsame & Hst).
  pose proof Hl as [L1 L2 L3 L4 L5 L6 L7 L8 L9].
  assert (res_ok s1 own) as Hr1 by (apply (res_same s); [done | done | rewrite Hts; apply (rs_tables _ _ Hr) | by rewrite Hts]).
  set (t := chosen s1 p k). assert (t ∈ p :: k) as Htin by (apply chosen_in; by rewrite Hperm).
  assert (r ∉ l) as Hrl by (pose proof (rg_nodup _ _ _ L1) as Hn; by apply NoDup_cons in Hn as [? _]).
  assert (t <> r) as Htr by (intros E; apply Hrl; rewrite <- Hperm; by rewrite <- E).
  assert (is_Some (tasks s1 !! t)) as Hts1 by (apply (path_elem _ _ _ _ _ (rg_path _ _ _ Hring)); done).
  assert (is_Some (tasks s1 !! r)) as Hrs1 by (apply (path_elem _ _ _ _ _ Hz); by left).
  destruct (do_switch_facts s1 own r t Hr1 Hc Hrs1 Hts1 Htr) as (s' & Hrun & Hsw & Hr').
  assert (forall q, st (task s' q) = if decide (q = t) then Running else st (task s q)) as Hst'.
  { intros q. rewrite (sw_st _ _ _ _ Hsw), Hst. destruct (decide (q = t)); [done |]. rewrite Hst, (L8 r) by (by left).
    rewrite decide_False; [done |]. by intros [_ ?]. }
  destruct (ring_at s1 p k t Hring Htin) as (l' & Hperm' & Hrot).
  exists s', t, l'. split.
  { unfold mbind, St_bind in Hbury |- *. destruct (unlink_task r s) as [[[] s0] |]; [| done]. cbv beta iota in *. unfold modify, gets in *.
    injection Hbury as ->. cbv beta iota.
    rewrite (rg_queue _ _ _ Hring), (proj2 (Z.eqb_neq p 0)) by (intros E; apply (rg_null _ _ _ Hring); rewrite <- E; by left).
    rewrite (pick_next_ok s1 p k Hring). exact Hrun. }
  assert (t ∉ r :: zl) as Htz.
  { intros [? | Hin]%elem_of_cons; [done |]. assert (t ∈ l) as Htl by (by rewrite <- Hperm).
    destruct (L4 t Htl) as [E | E]; rewrite L8 in E by (by right); done. }
  destruct (switched_zombies s1 s' r t (r :: zl) Hsw Hz Htz) as [Z1 Z2].
  { intros z Hzz. rewrite Hst. split; [by apply L8 |].
    pose proof (keep_holds _ _ (same_tasks_task _ _ z Hsame)) as [= _ _ ->]. apply elem_of_cons in Hzz as [-> | Hzz]; [done | by apply L9]. }
  split; [| split_and!; try done].
  - split; try done.
    + apply Hrot; [apply (sw_queue _ _ _ _ Hsw) |]. intros x Hx. rewrite (sw_dom _ _ _ _ Hsw), (sw_next _ _ _ _ Hsw).
      split; [by apply (path_elem _ _ _ _ _ (rg_path _ _ _ Hring)) | done].
    + apply (sw_queue _ _ _ _ Hsw).
    + by rewrite Hperm', Hperm.
    + rewrite Hst', decide_True by done. done.
    + intros x Hx. assert (x <> t) as Hxt.
      { intros ->. pose proof (rg_nodup _ _ _ Hring) as Hn. rewrite <- Hperm' in Hn. by apply NoDup_cons in Hn as [? _]. }
      rewrite Hst', decide_False by done. apply L4. rewrite <- Hperm, <- Hperm'. by right.
    + apply not_elem_of_cons. split; [| done]. intros <-. apply (rg_null _ _ _ L1). by left.
  - by rewrite Hperm'.
  - apply (sw_runs _ _ _ _ Hsw).
  - rewrite (sw_tables _ _ _ _ Hsw). by rewrite Hts.
  - apply (same_tasks_trans _ s1); [done | apply (sw_same _ _ _ _ Hsw)].
Qed.

(** The children of the dead task go to task 1. *)
Lemma adopt_ok s own r l zl d : leaving s r l zl -> res_ok s own ->
  exists s', when (negb (r =? 0)) (reparent_loop (fuel s) r r d) s = Some (tt, s') /\ leaving s' r l zl /\ res_ok s' own /\ ts s' = ts s /\
    (forall p, task s' p = if decide (p ∈ r :: l) then reparent d (task s p) else task s p).
Proof.
  intros Hl Hr. pose proof (lv_ring _ _ _ _ Hl) as Hring. pose proof (ring_fuel _ _ _ Hring) as Hf.
  pose proof (rg_path _ _ _ Hring) as Hp. pose proof (rg_nodup _ _ _ Hring) as Hn.
  assert (r <> 0) as H0 by (intros E; apply (rg_null _ _ _ Hring); rewrite E; by left).
  assert (r ∉ drop 1 (r :: l)) as Hrl by (simpl; by apply NoDup_cons in Hn as [? _]).
  destruct (reparent_loop_ok (fuel s) r r d (r :: l) s Hp ltac:(done) Hn Hrl ltac:(simpl; lia)) as (m & Hrun & Hm).
  assert (forall p, task (set_tasks m s) p = if decide (p ∈ r :: l) then reparent d (task s p) else task s p) as Ht1.
  { intros p. unfold task. cbn [tasks set_tasks]. rewrite Hm. destruct (decide (p ∈ r :: l)) as [Hin |]; [| done].
    destruct (path_elem _ _ _ _ _ Hp Hin) as [v Hv]. by rewrite Hv. }
  exists (set_tasks m s). rewrite (proj2 (Z.eqb_neq r 0)) by done. split; [exact Hrun |]. split; [| split; [| done]].
  - apply (leaving_ext s); try done; intros p; [| rewrite Ht1; unfold reparent; destruct (decide (p ∈ r :: l)), (parent_tid (task s p) =? d); auto ..].
    cbn [tasks set_tasks]. rewrite Hm. case_decide; [apply fmap_is_Some | done].
  - apply (res_holds s); [done | | apply (rs_tables _ _ Hr) | done]. intros p. cbn [tasks set_tasks]. rewrite Hm.
    case_decide; [| done]. destruct (tasks s !! p) as [v |]; [| done]. simpl. f_equal. unfold reparent. by destruct (parent_tid v =? d).
Qed.

(** The parent is woken if it is blocked. *)
Lemma wake_parent_ok n s own r l zl : leaving s r l zl -> res_ok s own -> (S (length l) <= n)%nat ->
  let pt := parent_tid (task s r) in
  exists s', when (negb (pt =? 0) && negb (r =? 0)) (wake_parent_loop n r r pt) s = Some (tt, s') /\
    leaving s' r l zl /\ res_ok s' own /\ ts s' = ts s /\
    (forall p, task s' p = task s p \/ (p ∈ l /\ st (task s p) = Blocked /\ task s' p = set_st Ready (task s p))) /\
    (forall p, p ∈ l -> tid (task s p) = pt -> pt <> 0 -> (forall q, q ∈ l -> tid (task s q) = pt -> q = p) -> st (task s' p) = Ready).
Proof.
  intros Hl Hr Hn pt. pose proof (lv_ring _ _ _ _ Hl) as Hring.
  assert (r <> 0) as H0 by (intros E; apply (rg_null _ _ _ Hring); rewrite E; by left).
  assert (r ∉ drop 1 (r :: l)) as Hrl by (simpl; pose proof (rg_nodup _ _ _ Hring) as Hd; by apply NoDup_cons in Hd as [? _]).
  rewrite (proj2 (Z.eqb_neq r 0)), andb_true_r by done.
  destruct (Z.eqb_spec pt 0) as [Hpt | Hpt]; cbn [negb when].
  { exists s. split_and!; try done; by left. }
  rewrite (wake_parent_loop_ok n r r pt (r :: l) s (rg_path _ _ _ Hring) ltac:(done) Hrl ltac:(simpl; lia)).
  eexists. split; [done |].
  destruct (List.find (waiting s pt) (r :: l)) as [q |] eqn:Hfind.
  - apply List.find_some in Hfind as [Hq%list_elem_of_In Hw]. apply andb_true_iff in Hw as [Hqt%Z.eqb_eq Hb%bool_decide_eq_true].
    assert (q ∈ l) as Hql.
    { apply elem_of_cons in Hq as [-> | ?]; [| done]. rewrite (lv_dead _ _ _ _ Hl) in Hb by (by left). done. }
    assert (is_Some (tasks s !! q)) as Hqs by (by apply (path_elem _ _ _ _ _ (rg_path _ _ _ Hring))).
    assert (forall p, task (upd q (set_st Ready) s) p = if decide (q = p) then set_st Ready (task s q) else task s p) as Ht by (intros p; by rewrite task_upd).
    split_and!; [| by apply res_upd | done | |].
    + apply (leaving_ext s); try done; [by intros p; apply tasks_upd | ..]; intros p; rewrite Ht; case_decide; subst; auto.
    + intros p. rewrite Ht. case_decide; [subst; right | left]; done.
    + intros p Hp Hpt' _ Hu. rewrite Ht. rewrite (Hu q Hql Hqt), decide_True by done. done.
  - split_and!; try done; [by left |]. intros p Hp Hpt' _ _. destruct (lv_rest _ _ _ _ Hl p Hp) as [? | Hb]; [done |].
    assert (waiting s pt p = false) as Hw by (apply (List.find_none _ _ Hfind), list_elem_of_In; by right).
    unfold waiting in Hw. by rewrite Hb, Hpt', Z.eqb_refl in Hw.
Qed.

(** [exit]: the caller leaves the queue for the zombies with its code, its
    descriptors are closed, its children adopted, its parent woken, and another
    task runs. *)
Lemma exit_ok s own r l zl code : queues s r l zl -> res_ok s own -> r <> idle_ptr ->
  exists s' own' t l', exit code s = Some (tt, s') /\ queues s' t l' (r :: zl) /\ res_ok s' own' /\ t :: l' ≡ₚ l /\ runs s' t /\
    exit_code (task s' r) = code /\ (forall p, tid (task s' p) = tid (task s p)) /\
    (forall p, p ∈ r :: l -> parent_tid (task s' p) = if parent_tid (task s p) =? tid (task s r) then 1 else parent_tid (task s p)) /\
    (forall p, p ∈ l -> tid (task s p) = parent_tid (task s' r) -> parent_tid (task s' r) <> 0 ->
       (forall q, q ∈ l -> tid (task s q) = parent_tid (task s' r) -> q = p) -> st (task s' p) = Ready \/ p = t) /\
    (fd_table (task s r) <> 0 -> tables (ts s') !! fd_table (task s r) = None).
Proof.
  intros Hq Hr Hri. destruct (release_ok s own r l zl code Hq Hr Hri) as (s2 & own2 & Hrel & Hl2 & Hr2 & Ht2 & Hfree).
  destruct (adopt_ok s2 own2 r l zl (tid (task s r)) Hl2 Hr2) as (s3 & Hadopt & Hl3 & Hr3 & Hts3 & Ht3).
  destruct (wake_parent_ok (fuel s2) s3 own2 r l zl Hl3 Hr3) as (s4 & Hwake & Hl4 & Hr4 & Hts4 & Ht4 & Hrdy).
  { pose proof (ring_fuel _ _ _ (lv_ring _ _ _ _ Hl2)). lia. }
  assert (r ∉ l) as Hrl by (apply queues_nodup, NoDup_cons in Hq as [? _]; done).
  assert (r ∈ r :: l) as Hrin by (by left).
  assert (task s4 r = task s3 r) as Hr43 by (by destruct (Ht4 r) as [-> | [? _]]).
  assert (task s3 r = reparent (tid (task s r)) (buried code (task s r))) as Hr3t by (rewrite Ht3, decide_True, Ht2, decide_True by done; done).
  assert (fd_table (task s4 r) = 0) as Hfd4 by (rewrite Hr43, Hr3t; unfold reparent; by case_match).
  destruct (leave_ok s4 own2 r l zl Hl4 Hr4 Hfd4) as (s' & t & l' & Hleave & Hq' & Hr' & Hperm & Hruns & Htab & Hsame & Hst).
  assert (forall p, tid (task s' p) = tid (task s p) /\ tid (task s3 p) = tid (task s p) /\ parent_tid (task s' p) = parent_tid (task s3 p) /\
    exit_code (task s' p) = exit_code (task s3 p)) as Hview.
  { intros p. pose proof (same_tasks_task _ _ p Hsame) as [= _ _ _ -> -> -> _ _ _].
    assert (tid (task s3 p) = tid (task s p)) as <-.
    { rewrite Ht3, Ht2. unfold reparent. destruct (decide (p = r)) as [-> |]; repeat case_match; done. }
    destruct (Ht4 p) as [-> | (_ & _ & ->)]; done. }
  exists s', own2, t, l'. split.
  { unfold exit. rewrite (bind_Some _ _ s (current_task s) s eq_refl), (q_current _ _ _ _ Hq).
    erewrite bind_Some by reflexivity. erewrite bind_Some by reflexivity. rewrite (bind_Some _ _ _ _ _ Hrel).
    rewrite (bind_Some _ _ s2 r s2), (bind_Some _ _ s2 (fuel s2) s2 eq_refl).
    2: { unfold gets. by rewrite (rg_queue _ _ _ (lv_ring _ _ _ _ Hl2)). }
    rewrite task_upd, decide_True by done. cbn [tid set_st set_exit_code]. rewrite (bind_Some _ _ _ _ _ Hadopt).
    rewrite (bind_Some _ _ s3 (task s3 r) s3 eq_refl), (bind_Some _ _ _ _ _ Hwake). exact Hleave. }
  split_and!; try done.
  - destruct (Hview r) as (_ & _ & _ & ->). rewrite Hr3t. unfold reparent. by case_match.
  - intros p. apply Hview.
  - intros p Hp. destruct (Hview p) as (_ & _ & -> & _). rewrite Ht3, decide_True, Ht2 by done.
    unfold reparent. destruct (decide (p = r)) as [-> |]; cbn [buried set_fd_table set_st set_exit_code parent_tid]; by case_match.
  - destruct (Hview r) as (_ & _ & -> & _). intros p Hp Hpt Hpt0 Hu. rewrite Hst. case_decide; [by right | left].
    apply Hrdy; [done | by destruct (Hview p) as (_ & -> & _) | done |]. intros q Hqin Hqt. apply Hu; [done |].
    by destruct (Hview q) as (_ & <- & _).
  - intros Hf. rewrite Htab, Hts4, Hts3. by apply Hfree.
Qed.

(** ** wait *)

Definition is_child (s : sstate) (ptid t : Z) : bool := parent_tid (task s t) =? ptid.

Lemma find_zombie_ok n s prev a zl ptid any : path s a zl 0 -> 0 ∉ zl -> (length zl < n)%nat ->
  (exists pre z post, zl = pre ++ z :: post /\ (forall x, x ∈ pre -> is_child s ptid x = false) /\ is_child s ptid z = true /\
     exists any', find_zombie n s prev a ptid any = Some (Some (default prev (last pre), z), any')) \/
  ((forall x, x ∈ zl -> is_child s ptid x = false) /\ find_zombie n s prev a ptid any = Some (None, any || negb (bool_decide (zl = [])))).
Proof.
  revert n prev a any. induction zl as [| z zl IH]; intros n prev a any Hp H0 Hn; (destruct n as [| n]; [simpl in Hn; lia |]); cbn [find_zombie].
  - right. simpl in Hp. rewrite Hp. split; [by intros x ?%elem_of_nil |]. by rewrite orb_false_r.
  - destruct Hp as (-> & _ & Hp). apply not_elem_of_cons in H0 as [Hz0 H0]. rewrite (proj2 (Z.eqb_neq z 0)) by done.
    fold (is_child s ptid z). destruct (is_child s ptid z) eqn:Hc.
    + left. exists [], z, zl. split_and!; [done | by intros x ?%elem_of_nil | done | by exists any].
    + destruct (IH n z (next (task s z)) true Hp H0) as [(pre & y & post & -> & Hpre & Hy & any' & Hf) | [Hall Hf]]; [simpl in Hn; lia | left | right].
      * exists (z :: pre), y, post. split_and!; [done | intros x [-> | Hx]%elem_of_cons; auto | done |]. exists any'. rewrite Hf. do 3 f_equal.
        destruct pre as [| b pre]; [done |].
        rewrite (last_cons z). destruct (last (b :: pre)) eqn:Hl; [done |]. by apply last_None in Hl.
      * split; [intros x [-> | Hx]%elem_of_cons; auto |]. rewrite Hf. cbn. by rewrite orb_true_r.
Qed.

Lemma has_child_ok n s start t ptid l : path s t l start -> l <> [] -> start ∉ drop 1 l -> (length l <= n)%nat ->
  has_child n s start t ptid = Some (existsb (is_child s ptid) l).
Proof.
  revert n t. induction l as [| x l IH]; intros n t Hp Hne Hs Hn; [done |].
  destruct n as [| n]; [simpl in Hn; lia |]. destruct Hp as (-> & _ & Hp). cbn [has_child existsb]. fold (is_child s ptid x).
  destruct (is_child s ptid x); [done |]. simpl in Hs. cbn [orb]. destruct l as [| y l].
  - simpl in Hp. by rewrite Hp, Z.eqb_refl.
  - pose proof Hp as (Hy & _). rewrite Hy in Hp |- *. rewrite (proj2 (Z.eqb_neq y start)) by (intros ->; apply Hs; by left).
    apply IH; [exact Hp | done | | simpl in *; lia]. intros Hin. apply Hs. by right.
Qed.

(** A zombie is unlinked, whatever its place. *)
Definition drop_zombie (prev z : Z) (s : sstate) : sstate :=
  if negb (prev =? 0) then upd prev (set_tnext (next (task s z))) s else set_zombies (next (task s z)) s.

Lemma drop_zombie_ok s r l pre z post : queues s r l (pre ++ z :: post) ->
  let s' := drop_zombie (default 0 (last pre)) z s in
  queues s' r l (pre ++ post) /\ same_tasks s s' /\ ts s' = ts s.
Proof.
  intros Hq s'. pose proof Hq as [Q1 Q2 Q3 Q4 Q5 Q6 Q7 Q8 Q9].
  apply path_app in Q6 as (c & Hp1 & Hp2). pose proof Hp2 as (-> & Hzs & Hp3).
  assert (NoDup (pre ++ post) /\ (0 ∉ pre ++ post) /\ forall x, x ∈ pre ++ post -> x ∈ pre ++ z :: post) as (N1 & N2 & N3).
  { apply NoDup_app in Q7 as (? & Hd & [? ?]%NoDup_cons). split_and!.
    - apply NoDup_app. split_and!; [done | | done]. intros x Hx Hx'. apply (Hd x Hx). by right.
    - intros Hin. apply Q8. apply elem_of_app in Hin as [? | ?]; apply elem_of_app; [by left | right; by right].
    - intros x [? | ?]%elem_of_app; apply elem_of_app; [by left | right; by right]. }
  destruct (list_eq_nil_dec pre) as [-> | Hne].
  - simpl in s', Hp1. unfold drop_zombie in s'. cbn [Z.eqb negb] in s'. split_and!; [| by intros p | done]. split; try done.
    + apply (ring_ext s); [done | apply (rg_queue _ _ _ Q1) |]. intros x Hx. split; [by apply (queues_member _ _ _ _ _ Hq) | done].
    + apply (path_ext s); [exact Hp3 |]. intros x Hx. split; [by apply (path_elem _ _ _ _ _ Hp3) | done].
    + intros x Hx. apply Q9. by right.
  - destruct (exists_last Hne) as (pre' & b & ->). unfold s', drop_zombie. rewrite last_snoc. change (default 0 (Some b)) with b.
    assert (b ∈ (pre' ++ [b]) ++ z :: post) as Hb by (rewrite <- app_assoc; apply elem_of_app; right; by left).
    assert (b <> 0) as Hb0 by (intros ->; done). rewrite (proj2 (Z.eqb_neq b 0)) by done. cbn [negb].
    apply path_app in Hp1 as (c & Hp0 & Hp1). pose proof Hp1 as (-> & Hbs & Hp1'). simpl in Hp1'.
    set (s1 := upd b _ s).
    assert (forall x, x <> b -> task s1 x = task s x) as Ht1 by (intros x Hx; unfold s1; by rewrite task_upd, decide_False).
    assert (forall x, is_Some (tasks s1 !! x) <-> is_Some (tasks s !! x)) as Hd1 by (intros x; by apply tasks_upd).
    assert (same_tasks s s1) as Hsame by (by apply upd_same).
    assert (forall x, x ∈ r :: l -> x <> b) as Hrb by (intros x Hx ->; by apply (zombie_not_ring _ _ _ _ _ Hq Hb)).
    assert ((b ∉ pre') /\ (b ∉ post)) as [Hbp Hbq].
    { rewrite <- app_assoc in N1. apply NoDup_app in N1 as (_ & Hd & [? _]%NoDup_cons). split; [| done]. intros Hin. apply (Hd b Hin). by left. }
    split_and!; [| done | done]. split; try done.
    + apply (ring_ext s); [done | apply (rg_queue _ _ _ Q1) |]. intros x Hx. rewrite Hd1, Ht1 by auto. split; [by apply (queues_member _ _ _ _ _ Hq) | done].
    + rewrite Ht1; [done | apply Hrb; by left].
    + intros x Hx. rewrite Ht1; [auto | apply Hrb; by right].
    + rewrite <- app_assoc. apply path_app. exists b. split.
      * apply (path_ext s); [done |]. intros x Hx. rewrite Hd1, Ht1 by (by intros ->). split; [by apply (path_elem _ _ _ _ _ Hp0) | done].
      * cbn [app path]. split_and!; [done | by apply Hd1 |]. unfold s1 at 2. rewrite task_upd, decide_True by done. cbn [next set_tnext].
        apply (path_ext s); [done |]. intros x Hx. rewrite Hd1, Ht1 by (by intros ->). split; [by apply (path_elem _ _ _ _ _ Hp3) | done].
    + intros x Hx. destruct (Q9 x (N3 x Hx)) as [Hst Hfd]. unfold s1. rewrite task_upd. case_decide; by subst.
Qed.

(** A task in no list is released. *)
Lemma delete_queues s r l zl z h : queues s r l zl -> z ∉ (r :: l) ++ zl ->
  queues (set_tasks (delete z (tasks s)) (put_hp h s)) r l zl.
Proof.
  intros Hq Hz. apply (queues_ext s); try done. intros t Ht. assert (t <> z) by (by intros ->). unfold task. cbn [tasks set_tasks put_hp set_ts].
  rewrite !lookup_delete_ne by done. split; [| done].
  apply elem_of_app in Ht as [Ht | Ht]; [by apply (queues_member _ _ _ _ _ Hq) | by apply (path_elem _ _ _ _ _ (q_zombies _ _ _ _ Hq))].
Qed.

Lemma reap_child_ok s own r l pre z post : queues s r l (pre ++ z :: post) -> res_ok s own ->
  exists s' own', (modify (drop_zombie (default 0 (last pre)) z) ;; free_task z) s = Some (tt, s') /\
    queues s' r l (pre ++ post) /\ res_ok s' own' /\ tasks s' !! z = None.
Proof.
  intros Hq Hr. destruct (drop_zombie_ok s r l pre z post Hq) as (Hq1 & Hsame & Hts). set (s1 := drop_zombie _ z s) in *.
  assert (z ∈ pre ++ z :: post) as Hz by (apply elem_of_app; right; by left).
  assert (res_ok s1 own) as Hr1 by (apply (res_same s); [done | done | rewrite Hts; apply (rs_tables _ _ Hr) | by rewrite Hts]).
  destruct (free_task_ok z s1 own Hr1) as (h & own' & Hf & Hr').
  - apply (same_tasks_dom s s1 z Hsame), (path_elem _ _ _ _ _ (q_zombies _ _ _ _ Hq) Hz).
  - by apply (zombie_not_idle _ _ _ _ _ Hq).
  - destruct (q_dead _ _ _ _ Hq z Hz) as [_ Hfd]. by pose proof (keep_holds _ _ (same_tasks_task _ _ z Hsame)) as [= _ _ ->].
  - eexists _, own'. split; [step_st; exact Hf |]. split_and!; [| done | cbn [tasks set_tasks put_hp set_ts]; apply lookup_delete_eq].
    apply delete_queues; [done |]. pose proof (zombie_not_ring _ _ _ _ _ Hq Hz) as Hzr.
    pose proof (q_zombies_nodup _ _ _ _ Hq) as Hn. apply NoDup_app in Hn as (_ & Hd & [Hn _]%NoDup_cons).
    intros [? | [Hin | Hin]%elem_of_app]%elem_of_app; [done | | done]. apply (Hd z Hin). by left.
Qed.

(** A turn of [wait]: the first zombie child is released and reported; without one
    the call fails when there is no zombie and no child at all, and blocks otherwise. *)
Lemma wait_turn_ok s own r l zl : queues s r l zl -> res_ok s own ->
  let me := tid (task s r) in
  exists res s' own', wait_turn s = Some (res, s') /\ res_ok s' own' /\
    ((exists pre z post, zl = pre ++ z :: post /\ (forall x, x ∈ pre -> is_child s me x = false) /\ is_child s me z = true /\
        res = Some (Ok (tid (task s z), exit_code (task s z))) /\ queues s' r l (pre ++ post) /\ tasks s' !! z = None) \/
     ((forall x, x ∈ zl -> is_child s me x = false) /\
      if bool_decide (zl = []) && negb (existsb (is_child s me) (r :: l)) then res = Some (Err NotFound) /\ s' = s
      else res = None /\ exists l', let s1 := upd r (set_st Blocked) s in
        queues s' (chosen s1 r l) l' zl /\ chosen s1 r l :: l' ≡ₚ r :: l)).
Proof.
  intros Hq Hr me. pose proof (q_ring _ _ _ _ Hq) as Hring.
  unfold wait_turn. rewrite (bind_Some _ _ s me s) by (unfold gets; by rewrite (q_current _ _ _ _ Hq)).
  destruct (find_zombie_ok (fuel s) s 0 (zombie_list s) zl me false (q_zombies _ _ _ _ Hq) (q_zombies_null _ _ _ _ Hq)
    (path_fuel _ _ _ _ (q_zombies _ _ _ _ Hq) (q_zombies_nodup _ _ _ _ Hq)))
    as [(pre & z & post & -> & Hpre & Hz & any & Hf) | [Hall Hf]].
  - erewrite bind_Some by (rewrite Hf; reflexivity). cbv iota. rewrite (bind_Some _ _ s (task s z) s eq_refl).
    destruct (reap_child_ok s own r l pre z post Hq Hr) as (s' & own' & Hrun & Hq' & Hr' & Hnone).
    exists (Some (Ok (tid (task s z), exit_code (task s z)))), s', own'. split; [| split; [done |]].
    + unfold mbind, St_bind, modify in Hrun |- *. cbv beta iota in *. fold (drop_zombie (default 0 (last pre)) z s). by rewrite Hrun.
    + left. by exists pre, z, post.
  - erewrite bind_Some by (rewrite Hf; reflexivity). cbv iota.
    rewrite (bind_Some _ _ s r s) by (unfold gets; by rewrite (rg_queue _ _ _ Hring)).
    rewrite (proj2 (Z.eqb_neq r 0)) by (apply (head_nonnull _ _ _ _ Hq)). cbn [negb].
    pose proof (ring_fuel _ _ _ Hring) as Hfu. pose proof (queues_nodup _ _ _ _ Hq) as Hn. apply NoDup_cons in Hn as [Hrl _].
    erewrite bind_Some by (rewrite (has_child_ok (fuel s) s r r me (r :: l) (rg_path _ _ _ Hring)) by (done || (simpl; lia)); reflexivity).
    cbn [orb]. destruct (bool_decide (zl = [])) eqn:Hb, (existsb (is_child s me) (r :: l)) eqn:Hc; cbn [negb orb andb].
    2: { exists (Some (Err NotFound)), s, own. split_and!; [done | done |]. right. by split. }
    all: destruct (block_current_ok s own r l zl Hq Hr) as (s' & l' & Hrun & Hq' & Hr' & Hp & _);
      exists None, s', own; split; [| split; [done | right; split; [done | split; [done | by exists l']]]];
      unfold block_current, gets, modify, mbind, St_bind, mret, St_ret in Hrun |- *; cbv beta iota in *;
      destruct (pick_next _) as [[x1 s1] |]; [by rewrite Hrun | done].
Qed.

(** ** fork_current *)

(** A block of the scheduler that no task holds yet. *)
Record spare (s : sstate) (own : gmap Z owner) (a : Z) : Prop := {
  sp_own : own !! a = Some OOther;
  sp_table : tables (ts s) !! a = None;
  sp_free : forall t v, tasks s !! t = Some v -> t <> idle_ptr -> a ∉ assets t v;
}.

Lemma spare_same s s' own own' a : spare s own a -> others_kept own own' -> tasks s' = tasks s ->
  (tables (ts s) !! a = None -> tables (ts s') !! a = None) -> spare s' own' a.
Proof. intros [S1 S2 S3] Hk Ht Htab. split; [by apply Hk | by apply Htab | by rewrite Ht]. Qed.

Lemma spare_malloc s own r l zl n : queues s r l zl -> res_ok s own -> 0 < n < max_request ->
  exists p h own', malloc n s = Some (p, put_hp h s) /\ queues (put_hp h s) r l zl /\ res_ok (put_hp h s) own' /\
    (forall a, spare s own a -> spare (put_hp h s) own' a /\ a <> p) /\
    (p <> 0 -> spare (put_hp h s) own' p /\ tasks s !! p = None /\ p <> idle_ptr).
Proof.
  intros Hq Hr Hn. destruct (task_malloc s own r l zl n Hq Hr Hn) as (p & h & own' & Hm & Hq' & Hr' & Hk & Hc).
  exists p, h, own'. split_and!; try done.
  - intros a Ha. split; [by apply (spare_same s _ own) |]. intros ->. destruct Ha as [Ha _ _].
    destruct Hc as [[-> _] | (_ & Hnone & _)]; [| congruence].
    pose proof (ok_range _ _ (tb_obj _ _ (rs_tables _ _ Hr)) 0 ltac:(by eexists)) as Hh. unfold heap_range in Hh. lia.
  - intros H0. destruct Hc as [[? _] | (_ & Hnone & Hh & ->)]; [done |].
    destruct (fresh_block s own p Hr Hnone Hh) as (F1 & F2 & F3 & F4). split_and!; try done. split; [by rewrite lookup_insert_eq | done | done].
Qed.

Lemma task_vmm {A} (f : Vmm.state -> A * Vmm.state) s own r l zl : queues s r l zl -> res_ok s own ->
  exists x h, on_vmm f s = Some (x, put_hp h s) /\ f (vm (hp s)) = (x, vm h) /\ queues (put_hp h s) r l zl /\ res_ok (put_hp h s) own.
Proof.
  intros Hq Hr. destruct (on_vmm_spec f s own (rs_tables _ _ Hr)) as (x & h & Hv & Hf & Hok). exists x, h.
  split_and!; [done | done | by apply (queues_same s) |]. apply (res_same s); [done | by intros p | done | done].
Qed.

(** Giving back what a failed [fork_current] took. *)
Lemma undo_ok bl f s own r l zl : queues s r l zl -> res_ok s own -> NoDup bl -> (forall a, a ∈ bl -> spare s own a) ->
  exists h own', (free_all bl ;; on_vmm (fun v => (tt, f v)) ;; mret (Err OutOfMemory)) s = Some (Err OutOfMemory : kResult Z, put_hp h s) /\
    queues (put_hp h s) r l zl /\ res_ok (put_hp h s) own'.
Proof.
  revert s own. induction bl as [| a bl IH]; intros s own Hq Hr Hn Hs; cbn [free_all].
  - destruct (task_vmm (fun v => (tt, f v)) s own r l zl Hq Hr) as ([] & h & Hrun & _ & Hq' & Hr'). exists h, own.
    step_st. by rewrite Hrun.
  - apply NoDup_cons in Hn as [Hab Hn]. destruct (Hs a) as [S1 S2 S3]; [by left |].
    destruct (task_free s own r l zl a Hq Hr S1 S2 S3) as (h & Hf & Hq1 & Hr1).
    destruct (IH (put_hp h s) (delete a own) Hq1 Hr1 Hn) as (h' & own' & Hrun & Hq' & Hr').
    { intros b Hb. destruct (Hs b) as [B1 B2 B3]; [by right |]. split; [| done | done]. by rewrite lookup_delete_ne by (by intros ->). }
    exists h', own'. split; [| by split]. unfold mbind, St_bind in Hrun |- *. rewrite Hf. exact Hrun.
Qed.

Lemma clone_step s own r l zl src : queues s r l zl -> res_ok s own -> (src <> 0 -> is_Some (tables (ts s) !! src)) ->
  exists fdt x own', on_tables (clone foreign_close src) s = Some (fdt, set_ts x s) /\ queues (set_ts x s) r l zl /\ res_ok (set_ts x s) own' /\
    (forall a, spare s own a -> spare (set_ts x s) own' a) /\
    (fdt <> 0 -> is_Some (tables x !! fdt) /\ (forall t v, tasks s !! t = Some v -> fd_table v <> fdt) /\ cloned (ts s) x src fdt).
Proof.
  intros Hq Hr Hsrc. unfold on_tables, run_on. destruct (decide (src = 0)) as [-> | H0].
  { exists 0, (ts s), own. assert (set_ts (ts s) s = s) as -> by (by destruct s). split_and!; try done. cbn. f_equal. f_equal. by destruct s. }
  destruct (clone_ok foreign_close (ts s) own src (rs_tables _ _ Hr) (Hsrc H0)) as (fdt & x & own' & -> & Hok & Hk & Hcl & Hnew & Hdom).
  exists fdt, x, own'. split; [done |]. split; [by apply (queues_same s) |]. split.
  - apply (res_more s _ own own' Hr); try done; cbn [ts set_ts]; intros u Hu; [apply Hdom; by left |].
    apply Hdom in Hu as [Hu | [-> Hd]]; [by left | right; by apply Hnew].
  - split.
    + intros a Ha. apply (spare_same s _ own own' a Ha Hk); [done |]. intros Hn. cbn [ts set_ts]. apply eq_None_not_Some.
      intros [Hs | [-> Hd]]%Hdom; [rewrite Hn in Hs; by destruct Hs |]. rewrite (sp_own _ _ _ Ha) in Hnew. by specialize (Hnew Hd).
    + intros Hd. split_and!; [apply Hdom; by right | | done]. intros t v Hv Heq. subst fdt. pose proof (rs_fd _ _ Hr t v Hv Hd) as Ht.
      rewrite (tb_own _ _ (rs_tables _ _ Hr) _ Ht) in Hnew. by specialize (Hnew Hd).
Qed.

(** A first stack that enters user mode: [switch_context] returns to the trampoline,
    which ends in [iretq] on the five words above. *)
Definition user_frame (s : sstate) (sp rip rsp rflags : Z) : Prop :=
  kmem s !! (sp + 80) = Some user_task_trampoline /\
  map (fun i => kmem s !! (sp + 88 + 8 * i)) [0; 1; 2; 3; 4] = map Some [rip; USER_CODE .| 3; rflags; rsp; USER_DATA .| 3].

(** The child: a ready copy of the caller with stacks, address space and
    descriptors of its own, that will return to user mode at [rip] with 0. *)
Definition is_fork (s s' : sstate) (r t id : Z) (rip rsp rflags : Z) : Prop :=
  let p := task s r in let c := task s' t in
  tid c = id /\ st c = Ready /\ tname c = copy_name (tname p) /\ quantum c = quantum p /\ timeslice c = quantum p /\
  stack_size c = DEFAULT_STACK /\ cloned (ts s) (ts s') (fd_table p) (fd_table c) /\
  pml4 c <> 0 /\ pml4 c = fst (Vmm.clone_user_space (pml4 p) (vm (hp s))) /\
  user_frame s' (ctx c) rip rsp rflags.

Lemma copy_res s own r l zl t kstk sstk v : queues s r l zl -> res_ok s own ->
  stack v = kstk -> syscall_stack v = sstk -> kstk <> 0 -> sstk <> 0 -> NoDup [kstk; sstk; t] -> t <> idle_ptr -> tasks s !! t = None ->
  (forall a, a ∈ [kstk; sstk; t] -> spare s own a) ->
  (fd_table v <> 0 -> is_Some (tables (ts s) !! fd_table v) /\ forall u w, tasks s !! u = Some w -> fd_table w <> fd_table v) ->
  res_ok (add_task t v s) own.
Proof.
  intros Hq Hr E1 E2 H1 H2 Hn Hti Hnone Hs Hfd.
  assert (assets t v = [kstk; sstk; t]) as Ha by (unfold assets, blocks_of; rewrite E1, E2, !(proj2 (Z.eqb_neq _ 0)) by done; done).
  apply (add_task_res s own r l zl); rewrite ?Ha; try done.
  - intros a Hin. destruct (Hs a Hin) as [S1 S2 _]. done.
  - intros u w a Hu Hui Hau Hin. by apply (sp_free _ _ _ (Hs a Hin) u w).
Qed.

(** A task whose first switch enters user mode, on stacks and a descriptor table that
    nobody holds. *)
Lemma user_task_ok s own r l zl (mk : Z -> Task) t kstk sstk fdt rip rsp rflags : queues s r l zl -> res_ok s own ->
  kstk <> 0 -> sstk <> 0 -> t <> 0 -> NoDup [kstk; sstk; t] -> t <> idle_ptr -> tasks s !! t = None ->
  (forall a, a ∈ [kstk; sstk; t] -> spare s own a) -> is_Some (tables (ts s) !! fdt) ->
  (forall u w, tasks s !! u = Some w -> fd_table w <> fdt) ->
  (forall sp, stack (mk sp) = kstk /\ syscall_stack (mk sp) = sstk /\ fd_table (mk sp) = fdt /\ st (mk sp) = Ready) ->
  exists sp m, push_words ([USER_DATA .| 3; rsp; rflags; USER_CODE .| 3; rip; user_task_trampoline] ++ replicate 10 0) (kstk + DEFAULT_STACK) s = (sp, set_kmem m s) /\
    let s' := add_task t (mk sp) (set_kmem m s) in
    res_ok s' own /\ queues s' r (t :: l) zl /\ ts s' = ts s /\ next_tid s' = next_tid s /\
    task s' t = set_tnext (next (task s r)) (mk sp) /\ user_frame s' sp rip rsp rflags.
Proof.
  intros Hq Hr K0 S0 Ht0 Hnd Hti Hnone Hspall Hfx Hfu Hmk.
  destruct (push_words_rest ([USER_DATA .| 3; rsp; rflags; USER_CODE .| 3; rip; user_task_trampoline] ++ replicate 10 0) (kstk + DEFAULT_STACK) s)
    as (m & E & _ & Hw). eexists _, m. split; [exact E |]. set (sp := kstk + DEFAULT_STACK - _) in *. cbv zeta.
  destruct (Hmk sp) as (M1 & M2 & M3 & M4). set (v := mk sp) in *. set (s6 := set_kmem m s).
  assert (queues s6 r l zl) as Hq6 by (by apply (queues_same s)).
  assert (res_ok s6 own) as Hr6 by (apply (res_same s); [done | by intros q | apply (rs_tables _ _ Hr) | done]).
  assert (t <> r) as Htr by (intros ->; destruct (queues_member _ _ _ _ r Hq ltac:(by left)) as [? ?]; congruence).
  destruct (add_task_rest s6 r l zl t v Hq6) as (Htsx & Htid & Hmem). split_and!; try done.
  - apply (copy_res s6 own r l zl t kstk sstk v); try done; [| by rewrite M3]. intros a Ha.
    apply (spare_same s _ own); try done; [by apply Hspall | by intros ?].
  - by apply add_task_queues.
  - by rewrite (add_task_task s6 r l zl t v t Hq6 Htr), decide_True by done.
  - unfold user_frame. rewrite Hmem. split.
    + rewrite <- (Hw 5%nat _ eq_refl). cbn [kmem s6 set_kmem]. f_equal. unfold sp. cbn. lia.
    + cbn [map]. repeat f_equal; [rewrite <- (Hw 4%nat _ eq_refl) | rewrite <- (Hw 3%nat _ eq_refl) | rewrite <- (Hw 2%nat _ eq_refl) |
        rewrite <- (Hw 1%nat _ eq_refl) | rewrite <- (Hw 0%nat _ eq_refl)]; cbn [kmem s6 set_kmem]; f_equal; unfold sp; cbn; lia.
Qed.

Lemma fork_child_ok s own r l zl p space t kstk sstk fdt rip rsp rflags : queues s r l zl -> res_ok s own ->
  kstk <> 0 -> sstk <> 0 -> t <> 0 -> NoDup [kstk; sstk; t] -> t <> idle_ptr -> tasks s !! t = None -> space <> 0 ->
  (forall a, a ∈ [kstk; sstk; t] -> spare s own a) -> is_Some (tables (ts s) !! fdt) ->
  (forall u w, tasks s !! u = Some w -> fd_table w <> fdt) ->
  exists s', fork_child p space t kstk sstk fdt rip rsp rflags s = Some (Ok (next_tid s), s') /\ res_ok s' own /\
    next_tid s' = u32 (next_tid s + 1) /\ queues s' r (t :: l) zl /\ ts s' = ts s /\
    let c := task s' t in
    tid c = next_tid s /\ st c = Ready /\ tname c = copy_name (tname p) /\ quantum c = quantum p /\ timeslice c = quantum p /\
    stack_size c = DEFAULT_STACK /\ pml4 c = space /\ fd_table c = fdt /\ user_frame s' (ctx c) rip rsp rflags.
Proof.
  intros Hq Hr K0 S0 Ht0 Hnd Hti Hnone Hsp Hspall Hfx Hfu. unfold fork_child. step_st. set (s1 := set_next_tid (u32 (next_tid s + 1)) s).
  destruct (user_task_ok s1 own r l zl (fun sp => MkTask sp kstk DEFAULT_STACK sstk Ready (next_tid s) (parent_tid (raw t)) (exit_code (raw t)) (quantum p) (quantum p) 0
    (copy_name (tname p)) space (tcwd (raw t)) (troot (raw t)) fdt) t kstk sstk fdt rip rsp rflags) as (sp & m & -> & Hr' & Hq' & Hts & Hid & Htask & Hf); try done.
  - by apply (queues_same s).
  - apply (res_same s); [done | by intros q | apply (rs_tables _ _ Hr) | done].
  - intros a Ha. apply (spare_same s _ own); try done; [by apply Hspall | by intros ?].
  - eexists. split; [done |]. change (enqueue t _) with (add_task t (MkTask sp kstk DEFAULT_STACK sstk Ready (next_tid s) (parent_tid (raw t)) (exit_code (raw t)) (quantum p) (quantum p) 0
      (copy_name (tname p)) space (tcwd (raw t)) (troot (raw t)) fdt) (set_kmem m s1)). cbv zeta. rewrite Htask. by split_and!.
Qed.

Lemma fork_ok s own r l zl rip rsp rflags : queues s r l zl -> res_ok s own ->
  exists res s' own', fork_current rip rsp rflags s = Some (res, s') /\ res_ok s' own' /\
    match res with
    | Ok id => id = next_tid s /\ next_tid s' = u32 (id + 1) /\ exists t, tasks s !! t = None /\ queues s' r (t :: l) zl /\ is_fork s s' r t id rip rsp rflags
    | Err e => queues s' r l zl /\ tasks s' = tasks s /\ next_tid s' = next_tid s /\ (e = InvalidArgument <-> pml4 (task s r) = 0)
    end.
Proof.
  intros Hq Hr. unfold fork_current.
  rewrite (bind_Some _ _ s r s) by (unfold gets; by rewrite (q_current _ _ _ _ Hq)).
  rewrite (bind_Some _ _ s (task s r) s eq_refl). rewrite (proj2 (Z.eqb_neq r 0)) by (apply (head_nonnull _ _ _ _ Hq)). cbn [orb].
  destruct (Z.eqb_spec (pml4 (task s r)) 0) as [Hp0 | Hp0].
  { exists (Err InvalidArgument), s, own. by split_and!. }
  destruct (task_vmm (Vmm.clone_user_space (pml4 (task s r))) s own r l zl Hq Hr) as (space & h1 & Hv & Hspace & Hq1 & Hr1).
  rewrite (bind_Some _ _ _ _ _ Hv). set (s1 := put_hp h1 s) in *.
  destruct (Z.eqb_spec space 0) as [-> | Hs0].
  { exists (Err OutOfMemory), s1, own. by split_and!. }
  destruct (spare_malloc s1 own r l zl sizeof_Task Hq1 Hr1 ltac:(done)) as (t & h2 & own2 & Hm2 & Hq2 & Hr2 & _ & Ht).
  rewrite (bind_Some _ _ _ _ _ Hm2). set (s2 := put_hp h2 s1) in *.
  destruct (Z.eqb_spec t 0) as [-> | Ht0].
  { destruct (undo_ok [] (Vmm.destroy_user_space space) s2 own2 r l zl Hq2 Hr2 ltac:(apply NoDup_nil_2) ltac:(by intros a ?%elem_of_nil)) as (h & own' & Hun & Hq' & Hr').
    cbn [free_all] in Hun. eexists _, _, own'. split; [exact Hun |]. by split_and!. }
  destruct (Ht Ht0) as (Hst & Htn & Hti).
  destruct (spare_malloc s2 own2 r l zl DEFAULT_STACK Hq2 Hr2 ltac:(done)) as (kstk & h3 & own3 & Hm3 & Hq3 & Hr3 & Hk3 & Hks).
  rewrite (bind_Some _ _ _ _ _ Hm3). set (s3 := put_hp h3 s2) in *. destruct (Hk3 t Hst) as [Hst3 Htk].
  destruct (spare_malloc s3 own3 r l zl DEFAULT_STACK Hq3 Hr3 ltac:(done)) as (sstk & h4 & own4 & Hm4 & Hq4 & Hr4 & Hk4 & Hss).
  rewrite (bind_Some _ _ _ _ _ Hm4). set (s4 := put_hp h4 s3) in *. destruct (Hk4 t Hst3) as [Hst4 Hts].
  assert (kstk <> 0 -> spare s4 own4 kstk /\ kstk <> sstk) as Hks4 by (intros Hn0; destruct (Hks Hn0) as [Hk _]; by apply Hk4).
  destruct ((kstk =? 0) || (sstk =? 0)) eqn:Hor.
  { set (bl := (if negb (kstk =? 0) then [kstk] else []) ++ (if negb (sstk =? 0) then [sstk] else []) ++ [t]).
    assert (NoDup bl /\ (forall a, a ∈ bl -> spare s4 own4 a)) as [Hn Hsp].
    { unfold bl. destruct (Z.eqb_spec kstk 0) as [-> | K0], (Z.eqb_spec sstk 0) as [-> | S0]; try done; cbn [negb app].
      all: split; [repeat (apply NoDup_cons; split; [set_solver |]); apply NoDup_nil_2 | set_solver]. }
    destruct (undo_ok bl (Vmm.destroy_user_space space) s4 own4 r l zl Hq4 Hr4 Hn Hsp) as (h & own' & Hun & Hq' & Hr').
    exists (Err OutOfMemory), (put_hp h s4), own'. split; [rewrite <- Hun; unfold bl | by split_and!].
    destruct (negb (kstk =? 0)), (negb (sstk =? 0)); cbn [app free_all]; step_st;
      repeat (match goal with |- context [mfree ?a ?x] => destruct (mfree a x) as [[[] ?] |] end; try done). }
  apply orb_false_iff in Hor as [K0%Z.eqb_neq S0%Z.eqb_neq]. destruct (Hks4 K0) as [Hks5 Hkne]. destruct (Hss S0) as [Hss4 _].
  destruct (clone_step s4 own4 r l zl (fd_table (task s r)) Hq4 Hr4) as (fdt & x & own5 & Hcl & Hq5 & Hr5 & Hsp5 & Hfdt).
  { intros Hf. destruct (queues_member _ _ _ _ r Hq ltac:(by left)) as [w Hw]. assert (task s r = w) as Hrw by (unfold task; by rewrite Hw).
    rewrite Hrw in *. by apply (rs_fd _ _ Hr4 r w). }
  rewrite (bind_Some _ _ _ _ _ Hcl). set (s5 := set_ts x s4) in *.
  assert (NoDup [kstk; sstk; t]) as Hnd by (repeat (apply NoDup_cons; split; [set_solver |]); apply NoDup_nil_2).
  assert (forall a, a ∈ [kstk; sstk; t] -> spare s5 own5 a) as Hspall by (intros a Ha; apply Hsp5; set_solver).
  destruct (Z.eqb_spec fdt 0) as [-> | Hf0].
  { destruct (undo_ok [sstk; kstk; t] (Vmm.destroy_user_space space) s5 own5 r l zl Hq5 Hr5) as (h & own' & Hun & Hq' & Hr').
    - repeat (apply NoDup_cons; split; [set_solver |]); apply NoDup_nil_2.
    - intros a Ha. apply Hspall. set_solver.
    - exists (Err OutOfMemory), (put_hp h s5), own'. split; [rewrite <- Hun | by split_and!]. cbn [free_all]. step_st.
      repeat (match goal with |- context [mfree ?a ?x] => destruct (mfree a x) as [[[] ?] |] end; try done). }
  destruct (Hfdt Hf0) as (Hfx & Hfu & Hclo).
  destruct (fork_child_ok s5 own5 r l zl (task s r) space t kstk sstk fdt rip rsp rflags) as (s' & Hrun & Hr' & Htid & Hq' & Hts' & Hc); try done.
  exists (Ok (next_tid s5)), s', own5. split; [exact Hrun |]. split; [done |]. split; [done |]. split; [done |]. exists t. split; [done |]. split; [done |].
  unfold is_fork. destruct Hc as (C1 & C2 & C3 & C4 & C5 & C6 & C7 & C8 & C9). rewrite C7, C8, Hts', Hspace. by split_and!.
Qed.
End sched.
