(* ===== verification/SchedRun.v ===== *)
(** * Runs of the scheduler

    The calls into the scheduler as steps, the invariant of every state they reach,
    and what each promises: round-robin choice, preemption by the timer, progress
    of every ready task, creation, and the hand-over of an exit code. *)
From S2P Require Import Prelude Alloc Paging Vfs VfsTree FdTable Monad Sched.
From S2P Require Vmm Vga.

Section run.
Context {H : Type} `{!Allocator H} `{!Paging H}.
Variable raw : Z -> Task.
Variable foreign_close : Z -> Vfs.M (H := H) unit.

#[local] Abbreviation kstate := (sstate (H := H)).

(** ** Calls *)

Inductive call :=
  | CSpawn (entry : Z) (nm : list Z) (size quant : Z)
  | CFork (rip rsp rflags : Z)
  | CYield
  | CTick
  | CBlock
  | CWake (t : Z)
  | CExit (code : Z)
  | CWait
  | CPreempt (on : bool).

Definition run_call (c : call) : St kstate unit :=
  match c with
  | CSpawn e nm n q => spawn raw e nm n q ;; skip
  | CFork rip rsp fl => fork_current raw foreign_close rip rsp fl ;; skip
  | CYield => yield
  | CTick => tick
  | CBlock => block_current
  | CWake t => wake t
  | CExit code => exit foreign_close code
  | CWait => wait_turn ;; skip
  | CPreempt on => modify (if on then preempt_enable else preempt_disable)
  end.

(** A task is woken while it is in the run queue, the idle task does not exit, and
    a stack has a positive size the heap can serve. *)
Definition allowed (c : call) (s : kstate) : Prop :=
  match c with
  | CSpawn _ _ n _ => 0 < n < max_request
  | CWake t => t = 0 \/ exists r l, ring s r l /\ t ∈ r :: l
  | CExit _ => current_task s <> idle_ptr
  | _ => True
  end.

Inductive steps : kstate -> kstate -> Prop :=
  | steps_refl s : steps s s
  | steps_call s1 c s2 s3 : steps s1 s2 -> allowed c s2 -> run_call c s2 = Some (tt, s3) -> steps s1 s3.

(** ** The invariant *)

(** The queues and the memory of the tasks are in order: [r] is the current task,
    [l] the rest of the run queue, [zl] the zombies. *)
Definition valid (s : kstate) (own : gmap Z owner) (r : Z) (l zl : list Z) : Prop := queues s r l zl /\ res_ok s own.

Definition sched_ok (s : kstate) : Prop := exists own r l zl, valid s own r l zl.

Lemma path_det (s : kstate) a l l' b : path s a l b -> path s a l' b -> (b ∉ drop 1 l) -> (b ∉ drop 1 l') -> l <> [] -> l' <> [] -> l = l'.
Proof.
  revert a l'. induction l as [| x l IH]; intros a [| y l'] Hp Hp' Hb Hb' Hn Hn'; try done.
  destruct Hp as (<- & _ & Hp), Hp' as (<- & _ & Hp'). simpl in *. f_equal.
  destruct l as [| z l], l' as [| z' l']; try done.
  - simpl in Hp. destruct Hp' as (E & _). exfalso. apply Hb'. rewrite <- Hp, E. by left.
  - simpl in Hp'. destruct Hp as (E & _). exfalso. apply Hb. rewrite <- Hp', E. by left.
  - apply (IH (next (task s a))); try done; intros Hin; [apply Hb | apply Hb']; by right.
Qed.

Lemma ring_det (s : kstate) r l r' l' : ring s r l -> ring s r' l' -> r = r' /\ l = l'.
Proof.
  intros [Q1 P1 N1 _] [Q2 P2 N2 _]. assert (r' = r) as -> by congruence. split; [done |].
  apply NoDup_cons in N1 as [N1 _]. apply NoDup_cons in N2 as [N2 _].
  by pose proof (path_det s r (r :: l) (r :: l') r P1 P2 N1 N2 ltac:(done) ltac:(done)) as [= ->].
Qed.

Lemma init_ok (s : kstate) own : tables_ok (ts s) own -> tasks s = ∅ -> zombie_list s = 0 -> sched_ok (init s).
Proof.
  intros Hok Ht Hz. unfold init. destruct (push_words_rest (replicate 11 0) (idle_stack + 4096) s) as (m & -> & _).
  set (v := MkTask _ _ _ _ _ _ _ _ _ _ _ _ _ _ _ _). set (s' := set_current _ _).
  assert (tasks s' = {[idle_ptr := v]}) as Ht' by (unfold s'; cbn; by rewrite Ht).
  assert (task s' idle_ptr = v) as Hv by (unfold task; by rewrite Ht', lookup_singleton_eq).
  exists own, idle_ptr, [], []. split.
  - split; try done; [| by left | by rewrite Hv | by intros t ?%elem_of_nil | by apply NoDup_nil_2 | by apply not_elem_of_nil | by intros t ?%elem_of_nil].
    split; [done | | apply NoDup_singleton |].
    + cbn [path]. rewrite Hv, Ht', lookup_singleton_eq. by split_and!.
    + intros [E | ?%elem_of_nil]%elem_of_cons; [by unfold idle_ptr in E | done].
  - assert (forall t w, tasks s' !! t = Some w -> t = idle_ptr /\ w = v) as Hl by (intros t w; rewrite Ht'; by intros [<- <-]%lookup_singleton_Some).
    split; [done | ..]; intros t w.
    + by intros a [-> ->]%Hl.
    + by intros [-> ->]%Hl.
    + by intros t' w' a [-> ->]%Hl [-> ->]%Hl.
    + by intros [-> ->]%Hl.
    + by intros t' w' [-> ->]%Hl [-> ->]%Hl.
Qed.

Lemma sched_call_ok c s : sched_ok s -> allowed c s -> exists s', run_call c s = Some (tt, s') /\ sched_ok s'.
Proof.
  intros (own & r & l & zl & Hq & Hr) Ha. destruct c as [e nm n q | rip rsp fl | | | | t | code | | on]; cbn [run_call].
  - destruct (spawn_ok raw foreign_close s own r l zl e nm n q Hq Hr Ha) as (res & s' & own' & Hrun & Hr' & Hm).
    exists s'. split; [by rewrite (bind_Some _ _ _ _ _ Hrun) |]. destruct res as [id | er].
    + destruct Hm as (_ & _ & t & _ & Hq' & _). by exists own', r, (t :: l), zl.
    + destruct Hm as (_ & Hq' & _). by exists own', r, l, zl.
  - destruct (fork_ok raw foreign_close s own r l zl rip rsp fl Hq Hr) as (res & s' & own' & Hrun & Hr' & Hm).
    exists s'. split; [by rewrite (bind_Some _ _ _ _ _ Hrun) |]. destruct res as [id | er].
    + destruct Hm as (_ & _ & t & _ & Hq' & _). by exists own', r, (t :: l), zl.
    + destruct Hm as (Hq' & _). by exists own', r, l, zl.
  - destruct (yield_ok raw foreign_close s own r l zl Hq Hr) as (s' & own' & l' & Hrun & Hq' & Hr' & _).
    exists s'. split; [done |]. by eexists _, _, _, _.
  - destruct (tick_ok raw foreign_close s own r l zl Hq Hr) as (s' & own' & r' & l' & Hrun & Hq' & Hr' & _).
    exists s'. split; [done |]. by eexists _, _, _, _.
  - destruct (block_current_ok raw foreign_close s own r l zl Hq Hr) as (s' & l' & Hrun & Hq' & Hr' & _).
    exists s'. split; [done |]. by eexists _, _, _, _.
  - destruct Ha as [-> | (r0 & l0 & Hring & Ht)].
    { exists s. split; [done |]. by exists own, r, l, zl. }
    destruct (ring_det s r0 l0 r l Hring (q_ring _ _ _ _ Hq)) as [-> ->].
    destruct (wake_ok raw foreign_close s own r l zl t Hq Hr Ht) as (s' & r' & l' & Hrun & Hq' & Hr' & _).
    exists s'. split; [done |]. by eexists _, _, _, _.
  - destruct (exit_ok raw foreign_close s own r l zl code Hq Hr) as (s' & own' & t & l' & Hrun & Hq' & Hr' & _).
    { by rewrite <- (q_current _ _ _ _ Hq). }
    exists s'. split; [done |]. by eexists _, _, _, _.
  - destruct (wait_turn_ok raw foreign_close s own r l zl Hq Hr) as (res & s' & own' & Hrun & Hr' & Hm).
    exists s'. split; [by rewrite (bind_Some _ _ _ _ _ Hrun) |].
    destruct Hm as [(pre & z & post & _ & _ & _ & _ & Hq' & _) | [_ Hm]]; [by eexists _, _, _, _ |].
    destruct (_ && _); destruct Hm as [_ Hm]; [subst; by exists own, r, l, zl |]. destruct Hm as (l' & Hq' & _). by eexists _, _, _, _.
  - eexists. split; [done |]. exists own, r, l, zl.
    assert (forall k, queues (set_preempt k s) r l zl /\ res_ok (set_preempt k s) own) as Hk.
    { intros k. split; [by apply (queues_same s) | apply (res_same s); [done | by intros p | apply (rs_tables _ _ Hr) | done]]. }
    destruct on; [| apply Hk]. unfold preempt_enable. destruct (0 <? preempt_count s); [apply Hk | done].
Qed.

Lemma steps_ok s s' : sched_ok s -> steps s s' -> sched_ok s'.
Proof.
  intros Hs Hst. induction Hst as [| s1 c s2 s3 Hst IH Ha Hrun]; [done |].
  destruct (sched_call_ok c s2 (IH Hs) Ha) as (s' & Hrun' & Hok). by simplify_eq.
Qed.

(** C4: Whatever sequence of scheduler calls follows [init] (creating, forking,
    yielding, timer ticks, blocking, waking, exiting, waiting and switching
    preemption on and off, each as its callers may make it), the next call returns,
    and in every state so reached: the run queue is a duplicate-free circular list
    that starts at the current task and contains the idle task; the current task is
    alive and every other queued task is ready or blocked; the zombies are a
    null-terminated list of dead tasks without descriptors, apart from the queue;
    and each task owns its own heap blocks and its own descriptor table. *)
Theorem scheduler_invariant (s0 : kstate) own0 s : tables_ok (ts s0) own0 -> tasks s0 = ∅ -> zombie_list s0 = 0 -> steps (init s0) s ->
  (exists own r l zl, ring s r l /\ current_task s = r /\ idle_ptr ∈ r :: l /\ st (task s r) <> Dead /\
     (forall t, t ∈ l -> st (task s t) = Ready \/ st (task s t) = Blocked) /\
     path s (zombie_list s) zl 0 /\ NoDup zl /\ (forall z, z ∈ zl -> st (task s z) = Dead /\ fd_table (task s z) = 0 /\ (z ∉ r :: l)) /\
     res_ok s own) /\
  (forall c, allowed c s -> exists s', run_call c s = Some (tt, s')).
Proof.
  intros Hok Ht Hz Hst. pose proof (steps_ok _ _ (init_ok s0 own0 Hok Ht Hz) Hst) as Hs. split.
  - destruct Hs as (own & r & l & zl & Hq & Hr). pose proof Hq as [Q1 Q2 Q3 Q4 Q5 Q6 Q7 Q8 Q9]. exists own, r, l, zl. split_and!; try done.
    intros z Hzz. destruct (Q9 z Hzz). split_and!; try done. by apply (zombie_not_ring _ _ _ _ _ Hq).
  - intros c Ha. destruct (sched_call_ok c s Hs Ha) as (s' & Hrun & _). by exists s'.
Qed.

(** ** Choosing *)

(** [yield] gives the processor to the first runnable task behind the caller
    in the queue, or to the idle task when none is runnable; a new task runs with a
    full time slice, on its own kernel and system-call stacks and in its own address
    space; the caller becomes ready if it was running, no other task changes state,
    and every zombie is released. *)
Theorem yield_round_robin (s : kstate) own r l zl : valid s own r l zl ->
  exists s' own' l', yield s = Some (tt, s') /\ queues s' (chosen s r l) l' [] /\ res_ok s' own' /\ gave_way s s' r l /\
    (l <> [] -> match List.find (fun t => runnable (task s t)) l with
                | Some t => exists l1 l2, l = l1 ++ t :: l2 /\ current_task s' = t /\ runs s' t /\ l' = l2 ++ r :: l1
                | None => current_task s' = idle_ptr
                end).
Proof.
  intros [Hq Hr]. destruct (yield_ok raw foreign_close s own r l zl Hq Hr) as (s' & own' & l' & Hrun & Hq' & Hr' & _ & Hgw & Hc).
  exists s', own', l'. split_and!; try done. intros Hne.
  assert (chosen s r l = match List.find (fun t => runnable (task s t)) l with Some t => t | None => idle_ptr end) as Hch
    by (unfold chosen; by rewrite bool_decide_eq_false_2).
  destruct (List.find _ l) as [t |] eqn:Hf; [| rewrite (gw_current _ _ _ _ Hgw); done].
  assert (t <> r) as Htr.
  { intros ->. apply List.find_some in Hf as [Hin%list_elem_of_In _]. by apply queues_nodup, NoDup_cons in Hq as [? _]. }
  rewrite Hch in *. destruct Hc as [[? _] | (l1 & l2 & Hl & Hl')]; [done |]. exists l1, l2. split_and!; try done.
  - rewrite (gw_current _ _ _ _ Hgw). done.
  - rewrite <- Hch. apply (gw_runs _ _ _ _ Hgw). by rewrite Hch.
Qed.

(** A timer tick takes one unit from the running task's time slice; it switches,
    to the same task as [yield] would, exactly when the slice is used up and
    preemption is on, and otherwise leaves the queue and the running task alone. *)
Theorem tick_preempts (s : kstate) own r l zl : valid s own r l zl -> 0 <= timeslice (task s r) ->
  exists s' own' r' l', tick s = Some (tt, s') /\ queues s' r' l' [] /\ res_ok s' own' /\
    if ((timeslice (task s r) =? 0) || (timeslice (task s r) =? 1)) && (preempt_count s =? 0)
    then r' = chosen s r l /\ gave_way s s' r l
    else r' = r /\ l' = l /\ timeslice (task s' r) = Z.max 0 (timeslice (task s r) - 1) /\
      (forall t, t ∈ r :: l -> st (task s' t) = st (task s t)).
Proof.
  intros [Hq Hr] H0. destruct (tick_ok raw foreign_close s own r l zl Hq Hr) as (s' & own' & r' & l' & Hrun & Hq' & Hr' & _ & Hc).
  exists s', own', r', l'. split_and!; try done. unfold expires in Hc. destruct (_ && _); [done |].
  destruct Hc as (? & ? & Ht & Hst). split_and!; auto.
Qed.

Lemma pivot_unique (x : Z) l1 l2 l3 l4 : l1 ++ x :: l2 = l3 ++ x :: l4 -> x ∉ l1 -> x ∉ l3 -> l1 = l3 /\ l2 = l4.
Proof.
  revert l3. induction l1 as [| a l1 IH]; intros [| b l3] He H1 H3; simpl in He; injection He.
  - by intros ->.
  - intros _ <-. by destruct H3; left.
  - intros _ ->. by destruct H1; left.
  - intros He' ->. apply not_elem_of_cons in H1 as [_ H1]. apply not_elem_of_cons in H3 as [_ H3]. by destruct (IH l3 He' H1 H3) as [-> ->].
Qed.

Lemma NoDup_pivot (x : Z) l1 l2 : NoDup (l1 ++ x :: l2) -> x ∉ l1.
Proof. intros (_ & Hd & _)%NoDup_app Hx. apply (Hd x Hx). by left. Qed.

(** Consecutive calls of [yield], by whichever task runs. *)
Fixpoint yields (n : nat) (s : kstate) : option kstate :=
  match n with
  | O => Some s
  | S n' => '(_, s) ← yield s; yields n' s
  end.

Lemma yields_reach n s own r l1 t l2 zl : (length l1 < n)%nat -> queues s r (l1 ++ t :: l2) zl -> res_ok s own -> st (task s t) = Ready ->
  exists k s', (k <= S (length l1))%nat /\ yields k s = Some s' /\ current_task s' = t /\ runs s' t.
Proof.
  revert s own r l1 l2 zl. induction n as [| n IH]; intros s own r l1 l2 zl Hn Hq Hr Hst; [lia |].
  destruct (yield_ok raw foreign_close s own r (l1 ++ t :: l2) zl Hq Hr) as (s1 & own1 & l' & Hrun & Hq1 & Hr1 & _ & Hgw & Hc).
  set (c := chosen s r (l1 ++ t :: l2)) in *.
  pose proof (queues_nodup _ _ _ _ Hq) as Hnd. apply NoDup_cons in Hnd as [Hrl Hnd].
  assert (t <> r) as Htr by (intros ->; apply Hrl, elem_of_app; right; by left).
  assert (c = t \/ exists a b, l1 = a ++ c :: b) as Hct.
  { unfold c, chosen. rewrite bool_decide_eq_false_2 by (by destruct l1).
    assert (forall k, List.find (fun t => runnable (task s t)) (k ++ t :: l2) = Some t \/
      exists x a b, k = a ++ x :: b /\ List.find (fun t => runnable (task s t)) (k ++ t :: l2) = Some x) as Hk.
    { induction k as [| x k IHk]; simpl; [left; unfold runnable; by rewrite Hst |].
      destruct (runnable (task s x)); [right; by exists x, [], k |].
      destruct IHk as [-> | (y & a & b & -> & ->)]; [by left | right; by exists y, (x :: a), b]. }
    destruct (Hk l1) as [-> | (x & a & b & -> & ->)]; [by left | right; by exists a, b]. }
  destruct (decide (c = t)) as [Hceq | Hne].
  - exists 1%nat, s1. split; [lia |]. cbn [yields]. rewrite Hrun. split_and!; [done | by rewrite (gw_current _ _ _ _ Hgw) |].
    rewrite <- Hceq. apply (gw_runs _ _ _ _ Hgw). fold c. by rewrite Hceq.
  - destruct Hct as [? | (a & b & Hl1)]; [done |].
    assert (t ∈ r :: l1 ++ t :: l2) as Htin by (right; apply elem_of_app; right; by left).
    assert (c <> r) as Hcr by (intros E; apply Hrl; rewrite Hl1, <- app_assoc, E; apply elem_of_app; right; by left).
    destruct Hc as [[? _] | (l3 & l4 & Hl & Hl')]; [done |].
    assert (l3 = a /\ l4 = b ++ t :: l2) as [-> ->].
    { pose proof Hnd as Hnd'. rewrite Hl1, <- app_assoc in Hnd. rewrite Hl in Hnd'. cbn [app] in Hnd.
      rewrite Hl1, <- app_assoc in Hl. cbn [app] in Hl. apply pivot_unique in Hl as [-> ->]; [done | |].
      - by apply NoDup_pivot in Hnd.
      - by apply NoDup_pivot in Hnd'. }
    rewrite Hl', <- app_assoc in Hq1. cbn [app] in Hq1.
    destruct (IH s1 own1 c b (l2 ++ r :: a) [] ltac:(rewrite Hl1, length_app in Hn; simpl in Hn; lia) Hq1 Hr1) as (k & s' & Hk & Hy & Hcur & Hrs).
    { by rewrite (gw_others _ _ _ _ Hgw). }
    exists (S k), s'. split_and!; [rewrite Hl1, length_app; simpl; lia | cbn [yields]; by rewrite Hrun | done | done].
Qed.

(** C10: No ready task starves: a ready task with [n] tasks between it and the
    running one is running after at most [n + 1] calls of [yield], with a full time
    slice, whatever the other tasks' states are. *)
Theorem no_starvation (s : kstate) own r l1 t l2 zl : valid s own r (l1 ++ t :: l2) zl -> st (task s t) = Ready ->
  exists k s', (k <= S (length l1))%nat /\ yields k s = Some s' /\ current_task s' = t /\ runs s' t.
Proof. intros [Hq Hr]. apply (yields_reach (S (length l1)) s own r l1 t l2 zl); [lia | done | done]. Qed.

(** ** Creating *)

(** [fork_current] returns.  It fails with [InvalidArgument] exactly for a
    task without an address space, and any failure leaves the tasks, the queues and
    the numbering as they were, every block of the attempt given back.  On success
    the new task is placed right behind the caller: it has the next number, a copy
    of the caller's address space, of its name, quantum and descriptors, stacks of
    its own, and a first stack frame that enters user mode at the given instruction
    and stack pointers. *)
Theorem fork_makes_child (s : kstate) own r l zl rip rsp rflags : valid s own r l zl ->
  exists res s' own', fork_current raw foreign_close rip rsp rflags s = Some (res, s') /\ res_ok s' own' /\
    match res with
    | Ok id => id = next_tid s /\ next_tid s' = u32 (id + 1) /\
        exists t, tasks s !! t = None /\ queues s' r (t :: l) zl /\ is_fork s s' r t id rip rsp rflags
    | Err e => queues s' r l zl /\ tasks s' = tasks s /\ next_tid s' = next_tid s /\ (e = InvalidArgument <-> pml4 (task s r) = 0)
    end.
Proof. intros [Hq Hr]. by apply (fork_ok raw foreign_close s own). Qed.

(** ** Exit and wait *)


(** If the other task yields first, or the timer ticks, the zombie is released
    unseen and no [wait] reports its code any more. *)
Lemma exit_code_lost (s : kstate) own r l zl code s1 s2 res s3 : queues s r l zl -> res_ok s own -> r <> idle_ptr ->
  exit foreign_close code s = Some (tt, s1) -> yield s1 = Some (tt, s2) -> wait_turn s2 = Some (res, s3) ->
  forall x, res <> Some (Ok x).
Proof.
  intros Hq Hr Hri He Hy Hw x. destruct (exit_ok raw foreign_close s own r l zl code Hq Hr Hri) as (s1' & own1 & t & l1 & He' & Hq1 & Hr1 & _).
  simplify_eq. destruct (yield_ok raw foreign_close _ _ _ _ _ Hq1 Hr1) as (s2' & own2 & l2 & Hy' & Hq2 & Hr2 & _). simplify_eq.
  destruct (wait_turn_ok raw foreign_close _ _ _ _ _ Hq2 Hr2) as (res' & s3' & own3 & Hw' & _ & Hm). simplify_eq.
  destruct Hm as [(pre & z & post & Hz & _) | [_ Hm]]; [by destruct pre |]. destruct (_ && _); by destruct Hm as [-> _].
Qed.

(** A turn of [wait] releases and reports the first zombie whose parent is the
    caller.  Without such a zombie it fails with [NotFound], changing nothing, when
    there is neither a zombie nor a queued child; otherwise the caller is blocked and
    the scheduler moves on. *)
Theorem wait_collects (s : kstate) own r l zl : valid s own r l zl ->
  exists res s' own', wait_turn s = Some (res, s') /\ res_ok s' own' /\
    match List.find (is_child s (tid (task s r))) zl with
    | Some z => res = Some (Ok (tid (task s z), exit_code (task s z))) /\ tasks s' !! z = None /\
        exists pre post, zl = pre ++ z :: post /\ queues s' r l (pre ++ post)
    | None => if bool_decide (zl = []) && negb (existsb (is_child s (tid (task s r))) (r :: l)) then res = Some (Err NotFound) /\ s' = s
        else res = None /\ exists l', let s1 := upd r (set_st Blocked) s in queues s' (chosen s1 r l) l' zl
    end.
Proof.
  intros [Hq Hr]. destruct (wait_turn_ok raw foreign_close s own r l zl Hq Hr) as (res & s' & own' & Hw & Hr' & Hm).
  exists res, s', own'. split_and!; try done. destruct Hm as [(pre & z & post & -> & Hpre & Hz & -> & Hq' & Hnone) | [Hall Hm]].
  - assert (List.find (is_child s (tid (task s r))) (pre ++ z :: post) = Some z) as ->.
    { clear -Hpre Hz. induction pre as [| x pre IH]; simpl; [by rewrite Hz |]. rewrite Hpre by (by left). apply IH. intros y Hy. apply Hpre. by right. }
    split_and!; try done. by exists pre, post.
  - destruct (List.find _ zl) as [z |] eqn:Hf.
    { apply List.find_some in Hf as [Hin%list_elem_of_In Hc]. by rewrite Hall in Hc. }
    destruct (_ && _); [done |]. destruct Hm as (-> & l' & Hq' & _). split; [done | by exists l'].
Qed.
End run.

(** ** A concrete system: the idle task and two spawned ones *)

Section demo.
#[local] Abbreviation kstate := (sstate (H := bump_vm)).

Definition raw0 (_ : Z) : Task := no_task.
Definition no_close_vm (_ : Z) : Vfs.M (H := bump_vm) unit := ret tt.

Definition boot_fs : Vfs.state bump_vm :=
  Vfs.State (Bump.State (Bump.base + 216) {[Bump.base := 216]}, Vmm.demo_boot) {[Bump.base := root_node]} ∅ ∅ ∅ [] Bump.base 0 [] ∅ 0 0 Vga.demo.
Definition boot : kstate := SState (TState boot_fs ∅) ∅ 0 0 0 1 0 ∅ 0 0 0.

Lemma boot_ok : exists own, tables_ok (ts boot) own.
Proof.
  destruct (root_only_ok boot_fs Bump.base) as (own & Hm & Ho); try done.
  - exists {[Bump.base := 216]}. split.
    + split; cbn [Bump.live Bump.next heap boot_fs fst]; [done | unfold Bump.base; lia | |].
      * intros p n [<- <-]%lookup_singleton_Some. unfold Bump.base, Bump.limit. lia.
      * intros p q n k [<- <-]%lookup_singleton_Some [<- <-]%lookup_singleton_Some. done.
    + intros a [o [<- _]%lookup_singleton_Some]. rewrite lookup_singleton_eq. by eexists.
  - exists own. split; cbn [ts boot vfs tables]; [done | done | | |].
    + intros t [? Ht]. by rewrite lookup_empty in Ht.
    + intros t i _ Hf. unfold table in Hf. cbn [tables] in Hf. by rewrite lookup_empty in Hf.
    + intros t i u j _ _ Hf. unfold table in Hf. cbn [tables] in Hf. by rewrite lookup_empty in Hf.
Qed.

Definition after (m : option (kResult Z * kstate)) (s : kstate) : kstate := match m with Some (_, s') => s' | None => s end.
Definition demo0 : kstate := init boot.
Definition demo1 : kstate := after (spawn raw0 0x1000 [97] DEFAULT_STACK 10 demo0) demo0.
Definition demo2 : kstate := after (spawn raw0 0x2000 [98] DEFAULT_STACK 10 demo1) demo1.
Definition task_a : Z := next (task demo1 idle_ptr).
Definition task_b : Z := next (task demo2 idle_ptr).

Lemma spawn_demo s own r l e nm s' t : queues s r l [] -> res_ok s own ->
  (match spawn raw0 e nm DEFAULT_STACK 10 s with Some (Ok _, _) => true | _ => false end) = true ->
  s' = after (spawn raw0 e nm DEFAULT_STACK 10 s) s -> t = next (task s' r) ->
  exists own', queues s' r (t :: l) [] /\ res_ok s' own'.
Proof.
  intros Hq Hr Hok -> ->. revert Hok. destruct (spawn_ok raw0 no_close_vm s own r l [] e nm DEFAULT_STACK 10 Hq Hr ltac:(done)) as (res & s1 & own' & -> & Hr' & Hm).
  destruct res as [id | er]; [| done]. intros _. cbn [after]. destruct Hm as (_ & _ & t & _ & Hq' & _).
  pose proof (rg_path _ _ _ (q_ring _ _ _ _ Hq')) as (_ & _ & Ht & _). exists own'. by rewrite Ht.
Qed.

Lemma demo0_queues : exists own, queues demo0 idle_ptr [] [] /\ res_ok demo0 own.
Proof.
  destruct boot_ok as [own Hown]. destruct (init_ok boot own Hown eq_refl eq_refl) as (own0 & r & l & zl & Hq & Hr).
  change (init boot) with demo0 in Hq, Hr.
  assert (run_queue demo0 = idle_ptr /\ zombie_list demo0 = 0 /\ next (task demo0 idle_ptr) = idle_ptr) as (Hrq & Hz & Hnx) by (vm_compute; done).
  generalize dependent demo0. intros d Hq Hr Hrq Hz Hnx.
  pose proof (rg_queue _ _ _ (q_ring _ _ _ _ Hq)) as Hr0. rewrite Hrq in Hr0. subst r.
  assert (l = []) as ->.
  { destruct (rg_path _ _ _ (q_ring _ _ _ _ Hq)) as (_ & _ & Hp). rewrite Hnx in Hp. destruct l as [| x l]; [done |]. destruct Hp as (<- & _).
    by apply queues_nodup, NoDup_cons in Hq as [[] _]; left. }
  assert (zl = []) as ->; [| by exists own0].
  destruct zl as [| z zl]; [done |]. destruct (q_zombies _ _ _ _ Hq) as (E & _). exfalso. apply (q_zombies_null _ _ _ _ Hq). rewrite <- Hz, E. by left.
Qed.

Lemma demo1_queues : exists own, queues demo1 idle_ptr [task_a] [] /\ res_ok demo1 own.
Proof.
  destruct demo0_queues as (own & Hq & Hr). apply (spawn_demo demo0 own idle_ptr [] 0x1000 [97]); [done | done | vm_compute; reflexivity | reflexivity | reflexivity].
Qed.

Lemma demo_queues : exists own, queues demo2 idle_ptr [task_b; task_a] [] /\ res_ok demo2 own.
Proof.
  destruct demo1_queues as (own & Hq & Hr). apply (spawn_demo demo1 own idle_ptr [task_a] 0x2000 [98]); [done | done | vm_compute; reflexivity | reflexivity | reflexivity].
Qed.

Lemma scheduler_invariant_witness : exists own r l zl, ring demo2 r l /\ res_ok demo2 own /\ path demo2 (zombie_list demo2) zl 0.
Proof.
  destruct boot_ok as [own0 Hown].
  assert (steps raw0 no_close_vm (init boot) demo2) as Hst.
  { apply (steps_call _ _ _ (CSpawn 0x2000 [98] DEFAULT_STACK 10) demo1); [| by cbn | vm_compute; reflexivity].
    apply (steps_call _ _ _ (CSpawn 0x1000 [97] DEFAULT_STACK 10) demo0); [apply steps_refl | by cbn | vm_compute; reflexivity]. }
  destruct (scheduler_invariant raw0 no_close_vm boot own0 demo2 Hown eq_refl eq_refl Hst) as [(own & r & l & zl & Hring & _ & _ & _ & _ & Hz & _ & _ & Hr) _].
  exists own, r, l, zl. split; [exact Hring |]. split; [exact Hr | exact Hz].
Defined.

Lemma yield_round_robin_witness : exists s', yield demo2 = Some (tt, s') /\ current_task s' = task_b.
Proof.
  destruct demo_queues as (own & Hq & Hr).
  destruct (yield_round_robin raw0 no_close_vm demo2 own idle_ptr [task_b; task_a] [] (conj Hq Hr)) as (s' & own' & l' & Hrun & _ & _ & Hgw & _).
  exists s'. split; [exact Hrun |]. rewrite (gw_current _ _ _ _ Hgw). vm_compute. reflexivity.
Defined.

Lemma tick_preempts_witness : exists s', tick demo2 = Some (tt, s') /\ current_task s' = task_b.
Proof.
  destruct demo_queues as (own & Hq & Hr).
  assert (0 <= timeslice (task demo2 idle_ptr)) as H0 by (vm_compute; congruence).
  destruct (tick_preempts raw0 no_close_vm demo2 own idle_ptr [task_b; task_a] [] (conj Hq Hr) H0) as (s' & own' & r' & l' & Hrun & Hq' & _ & Hc).
  exists s'. split; [exact Hrun |]. rewrite (q_current _ _ _ _ Hq').
  assert ((((timeslice (task demo2 idle_ptr) =? 0) || (timeslice (task demo2 idle_ptr) =? 1)) && (preempt_count demo2 =? 0)) = true) as He by (vm_compute; reflexivity).
  rewrite He in Hc. destruct Hc as [-> _]. vm_compute. reflexivity.
Defined.

Lemma no_starvation_witness : exists k s', (k <= 2)%nat /\ yields k demo2 = Some s' /\ current_task s' = task_a.
Proof.
  destruct demo_queues as (own & Hq & Hr).
  destruct (no_starvation raw0 no_close_vm demo2 own idle_ptr [task_b] task_a [] [] (conj Hq Hr) ltac:(vm_compute; reflexivity)) as (k & s' & Hk & Hy & Hc & _).
  exists k, s'. split; [exact Hk |]. split; [exact Hy | exact Hc].
Defined.

Lemma fork_makes_child_witness : exists s', fork_current raw0 no_close_vm 0 0 0 demo2 = Some (Err InvalidArgument, s') /\ tasks s' = tasks demo2.
Proof.
  destruct demo_queues as (own & Hq & Hr).
  destruct (fork_makes_child raw0 no_close_vm demo2 own idle_ptr [task_b; task_a] [] 0 0 0 (conj Hq Hr)) as (res & s' & own' & Hrun & _ & Hm).
  assert (match fork_current raw0 no_close_vm 0 0 0 demo2 with Some (Err InvalidArgument, _) => true | _ => false end = true) as Hf
    by (vm_compute; reflexivity).
  rewrite Hrun in Hf. destruct res as [id | []]; try discriminate Hf. destruct Hm as (_ & Ht & _). exists s'. split; [exact Hrun | exact Ht].
Defined.

(** The task that runs after one [yield]. *)
Definition demo3 : kstate := match yield demo2 with Some (_, s) => s | None => demo2 end.

Lemma demo3_queues : exists own l, queues demo3 task_b l [] /\ res_ok demo3 own.
Proof.
  destruct demo_queues as (own & Hq & Hr). unfold demo3.
  destruct (yield_ok raw0 no_close_vm demo2 own idle_ptr [task_b; task_a] [] Hq Hr) as (s' & own' & l' & -> & Hq' & Hr' & _).
  exists own', l'. split; [| done]. assert (chosen demo2 idle_ptr [task_b; task_a] = task_b) as <- by (vm_compute; reflexivity). exact Hq'.
Qed.


Lemma wait_collects_witness : exists res s', wait_turn demo3 = Some (res, s') /\ res = Some (Err NotFound).
Proof.
  destruct demo3_queues as (own & l & Hq & Hr).
  destruct (wait_collects raw0 no_close_vm demo3 own task_b l [] (conj Hq Hr)) as (res & s' & own' & Hrun & _ & _).
  assert (match wait_turn demo3 with Some (Some (Err NotFound), _) => true | _ => false end = true) as Hf by (vm_compute; reflexivity).
  rewrite Hrun in Hf. exists res, s'. split; [exact Hrun |]. destruct res as [[id | []] |]; try discriminate Hf. reflexivity.
Defined.
End demo.
