(* ===== verification/Sync.v ===== *)
(** * kernel/include/mutex.hpp, kernel/mutex.cpp: spinlock and sleeping mutex

    A mutex over the scheduler.  Waiters are nodes on the stacks of their tasks,
    linked through [waiters]; their memory is the map [wnodes], and the address of
    the caller's own node is an argument of [lock].  The code between
    [guard.acquire] and [guard.release] runs with interrupts off and is one step;
    between the release and the [yield] of [lock] the timer may tick, so the two are
    separate steps of a run. *)
From S2P Require Import Prelude Alloc Paging Vfs VfsTree FdTable Monad Sched SchedRun.

Record WaitNode := Wait { wtask : Z; wnext : Z }.
Record Mutex := MkMutex { locked : Z; owner : Z; guard : Z; waiters : Z }.

Section sync.
Context {H : Type} `{!Allocator H} `{!Paging H}.
#[local] Abbreviation kstate := (sstate (H := H)).

Record mstate := MState { sch : kstate; mutex : Mutex; wnodes : gmap Z WaitNode; int_on : bool }.

Definition set_sch x m := MState x (mutex m) (wnodes m) (int_on m).
Definition set_locked x m := MState (sch m) (MkMutex x (owner (mutex m)) (guard (mutex m)) (waiters (mutex m))) (wnodes m) (int_on m).
Definition set_owner x m := MState (sch m) (MkMutex (locked (mutex m)) x (guard (mutex m)) (waiters (mutex m))) (wnodes m) (int_on m).
Definition set_guard x m := MState (sch m) (MkMutex (locked (mutex m)) (owner (mutex m)) x (waiters (mutex m))) (wnodes m) (int_on m).
Definition set_waiters x m := MState (sch m) (MkMutex (locked (mutex m)) (owner (mutex m)) (guard (mutex m)) x) (wnodes m) (int_on m).
Definition set_wnodes x m := MState (sch m) (mutex m) x (int_on m).
Definition set_int x m := MState (sch m) (mutex m) (wnodes m) x.

Definition on_sched {A} (f : St kstate A) : St mstate A := run_on sch set_sch f.

(** ** Spinlock *)

(** [cli], the exchange, and [sti] when the flag was set. *)
Definition try_acquire : St mstate bool :=
  modify (set_int false) ;;
  old ← gets (fun m => guard (mutex m));
  modify (set_guard 1) ;;
  if old =? 0 then mret true else (modify (set_int true) ;; mret false).

(** The loop spins as long as the flag is set. *)
Definition acquire : St mstate unit := b ← try_acquire; if b : bool then skip else halt.

Definition release : St mstate unit := modify (set_guard 0) ;; modify (set_int true).

(** ** Mutex *)

Definition current_tid (m : mstate) : Z :=
  if negb (current_task (sch m) =? 0) then tid (task (sch m) (current_task (sch m))) else 0.

(** A turn of [lock] up to the release of the guard: the mutex is taken, or the
    caller is linked in and marked as blocked. *)
Definition lock_enter (node : Z) : St mstate bool :=
  acquire ;;
  l ← gets (fun m => locked (mutex m));
  if l =? 0 then
    modify (set_locked 1) ;;
    o ← gets current_tid;
    modify (set_owner o) ;;
    release ;; mret true
  else
    me ← gets (fun m => current_task (sch m));
    modify (fun m => set_wnodes (<[node := Wait me (waiters (mutex m))]> (wnodes m)) m) ;;
    modify (set_waiters node) ;;
    when (negb (me =? 0)) (modify (fun m => set_sch (upd me (set_st Blocked) (sch m)) m)) ;;
    release ;; mret false.

(** A whole turn of the loop; [false] means that the loop goes round again. *)
Definition lock_turn (node : Z) : St mstate bool :=
  b ← lock_enter node;
  if b : bool then mret true else (on_sched yield ;; mret false).

Definition unlock : St mstate unit :=
  acquire ;;
  modify (set_locked 0) ;;
  modify (set_owner 0) ;;
  w ← gets (fun m => waiters (mutex m));
  when (negb (w =? 0))
    (v ← gets (fun m => default (Wait 0 0) (wnodes m !! w));
     modify (set_waiters (wnext v)) ;;
     when (negb (wtask v =? 0)) (modify (fun m => set_sch (upd (wtask v) (set_st Ready) (sch m)) m))) ;;
  release.

Definition try_lock : St mstate bool :=
  acquire ;;
  l ← gets (fun m => locked (mutex m));
  if l =? 0 then
    modify (set_locked 1) ;;
    o ← gets current_tid;
    modify (set_owner o) ;;
    release ;; mret true
  else (release ;; mret false).

(** ** Runs

    [holders], [parked] and [woken] are bookkeeping of the run: who returned from
    [lock] and did not unlock, the linked nodes with their tasks, and the tasks an
    [unlock] took off the list that did not try again yet. *)
Record run := Run { ms : mstate; holders : list Z; parked : list (Z * Z); woken : list Z }.

Definition caller (g : run) : Z := current_task (sch (ms g)).
Definition leave (t : Z) (l : list Z) : list Z := filter (fun x => x <> t) l.

Inductive mstep (g : run) : run -> Prop :=
  | step_lock node b m : caller g <> idle_ptr -> caller g ∉ holders g -> caller g ∉ (parked g).*2 ->
      node <> 0 -> node ∉ (parked g).*1 -> lock_enter node (ms g) = Some (b, m) ->
      mstep g (Run m (if b then caller g :: holders g else holders g)
                     (if b then parked g else (node, caller g) :: parked g) (leave (caller g) (woken g)))
  | step_try b m : caller g ∉ holders g -> caller g ∉ (parked g).*2 -> try_lock (ms g) = Some (b, m) ->
      mstep g (Run m (if b then caller g :: holders g else holders g) (parked g) (woken g))
  | step_unlock m : caller g ∈ holders g -> unlock (ms g) = Some (tt, m) ->
      mstep g (Run m (leave (caller g) (holders g)) (tail (parked g)) (option_list (head (parked g).*2) ++ woken g))
  | step_yield m : on_sched yield (ms g) = Some (tt, m) -> mstep g (Run m (holders g) (parked g) (woken g))
  | step_tick m : on_sched tick (ms g) = Some (tt, m) -> mstep g (Run m (holders g) (parked g) (woken g)).

Inductive msteps : run -> run -> Prop :=
  | msteps_refl g : msteps g g
  | msteps_step g1 g2 g3 : msteps g1 g2 -> mstep g2 g3 -> msteps g1 g3.

(** ** The invariant *)

(** The nodes linked from [a] are those of the parked tasks, in order. *)
Fixpoint wchain (ns : gmap Z WaitNode) (a : Z) (p : list (Z * Z)) : Prop :=
  match p with
  | [] => a = 0
  | (n, t) :: p' => a = n /\ n <> 0 /\ exists x, ns !! n = Some (Wait t x) /\ wchain ns x p'
  end.

Lemma wchain_insert ns a p n w : wchain ns a p -> n ∉ p.*1 -> wchain (<[n := w]> ns) a p.
Proof.
  revert a. induction p as [| [n' t] p IH]; intros a; [done |]. cbn. intros (-> & H0 & x & Hx & Hp) [Hn Hnp]%not_elem_of_cons.
  split_and!; [done | done |]. exists x. rewrite lookup_insert_ne by done. auto.
Qed.

Record mok (g : run) (own : gmap Z VfsTree.owner) (r : Z) (l zl : list Z) : Prop := {
  mk_queues : queues (sch (ms g)) r l zl;
  mk_res : res_ok (sch (ms g)) own;
  mk_guard : guard (mutex (ms g)) = 0;
  mk_holder : (holders g = [] /\ locked (mutex (ms g)) = 0) \/ (exists h, holders g = [h] /\ locked (mutex (ms g)) = 1);
  mk_list : wchain (wnodes (ms g)) (waiters (mutex (ms g))) (parked g);
  mk_nodes : NoDup (parked g).*1;
  mk_tasks : NoDup (parked g).*2;
  mk_blocked : forall t, t ∈ (parked g).*2 -> t ∈ r :: l /\ st (task (sch (ms g)) t) = Blocked /\ t <> idle_ptr /\ (t ∉ holders g);
  mk_wakeup : parked g <> [] -> holders g <> [] \/ woken g <> [];
  mk_woken : forall t, t ∈ woken g -> t ∈ r :: l /\ runnable (task (sch (ms g)) t) = true;
}.

(** ** The steps keep it *)

Lemma acquire_free (m : mstate) : guard (mutex m) = 0 -> acquire m = Some (tt, set_guard 1 (set_int false m)).
Proof. intros Hg. unfold acquire, try_acquire. step_st. cbn [guard mutex set_int]. by rewrite Hg. Qed.

Definition released (m : mstate) : mstate := set_int true (set_guard 0 m).

Lemma lock_enter_run node m : guard (mutex m) = 0 -> current_task (sch m) <> 0 ->
  lock_enter node m = Some (if locked (mutex m) =? 0 then (true, released (set_owner (current_tid m) (set_locked 1 m)))
    else (false, released (set_sch (upd (current_task (sch m)) (set_st Blocked) (sch m))
           (set_waiters node (set_wnodes (<[node := Wait (current_task (sch m)) (waiters (mutex m))]> (wnodes m)) m))))).
Proof.
  intros Hg Hc. unfold lock_enter. rewrite (bind_Some _ _ _ _ _ (acquire_free m Hg)). step_st. unfold release. step_st.
  cbn [locked mutex set_guard set_int sch]. destruct (locked (mutex m) =? 0); [done |].
  rewrite (proj2 (Z.eqb_neq _ 0)) by done. done.
Qed.

Lemma try_lock_run m : guard (mutex m) = 0 ->
  try_lock m = Some (if locked (mutex m) =? 0 then (true, released (set_owner (current_tid m) (set_locked 1 m))) else (false, released m)).
Proof.
  intros Hg. unfold try_lock. rewrite (bind_Some _ _ _ _ _ (acquire_free m Hg)). step_st. unfold release. step_st.
  cbn [locked mutex set_guard set_int sch]. by destruct (locked (mutex m) =? 0).
Qed.

Lemma unlock_run m : guard (mutex m) = 0 -> (waiters (mutex m) <> 0 -> forall t x, wnodes m !! waiters (mutex m) = Some (Wait t x) -> t <> 0) ->
  unlock m = Some (tt, released (let m1 := set_owner 0 (set_locked 0 m) in
    if waiters (mutex m) =? 0 then m1 else
    match wnodes m !! waiters (mutex m) with
    | Some (Wait t x) => set_sch (upd t (set_st Ready) (sch m)) (set_waiters x m1)
    | None => set_waiters 0 m1
    end)).
Proof.
  intros Hg Ht. unfold unlock. rewrite (bind_Some _ _ _ _ _ (acquire_free m Hg)). step_st. unfold release. step_st.
  cbn [waiters mutex set_guard set_int sch set_locked set_owner wnodes]. destruct (Z.eqb_spec (waiters (mutex m)) 0) as [| Hw0]; cbn [negb]; [done |].
  change (wnodes (set_owner 0 (set_locked 0 (set_guard 1 (set_int false m))))) with (wnodes m).
  destruct (wnodes m !! waiters (mutex m)) as [[t x] |] eqn:Hw; [| done]. change (default _ (Some ?y)) with y. cbn [wtask wnext].
  rewrite (proj2 (Z.eqb_neq t 0)) by (by apply (Ht Hw0 t x)). done.
Qed.

Lemma mok_caller g own r l zl : mok g own r l zl -> caller g = r /\ r <> 0.
Proof. intros Hm. pose proof (mk_queues _ _ _ _ _ Hm) as Hq. split; [apply (q_current _ _ _ _ Hq) | apply (head_nonnull _ _ _ _ Hq)]. Qed.

Lemma leave_sub t x l : x ∈ leave t l -> x ∈ l /\ x <> t.
Proof. unfold leave. rewrite list_elem_of_filter. tauto. Qed.

Lemma mok_lock g own r l zl node : mok g own r l zl -> r <> idle_ptr -> r ∉ holders g -> r ∉ (parked g).*2 -> node <> 0 -> node ∉ (parked g).*1 ->
  exists b m, lock_enter node (ms g) = Some (b, m) /\ (b = true <-> holders g = []) /\
    mok (Run m (if b then r :: holders g else holders g) (if b then parked g else (node, r) :: parked g) (leave r (woken g))) own r l zl.
Proof.
  intros Hm Hri Hrh Hrp Hn0 Hnp. destruct (mok_caller _ _ _ _ _ Hm) as [Hc Hr0]. unfold caller in Hc. pose proof Hm as [M1 M2 M3 M4 M5 M6 M7 M8 M9 M10].
  rewrite lock_enter_run by (done || congruence). rewrite Hc.
  destruct M4 as [[Hh Hl] | (h & Hh & Hl)]; rewrite Hl; cbn [Z.eqb].
  - eexists true, _. split; [done |]. rewrite Hh. split; [done |]. split; try done; cbn.
    + right. by exists r.
    + intros t Ht. destruct (M8 t Ht) as (? & ? & ? & _). split_and!; try done. rewrite list_elem_of_singleton. by intros ->.
    + by left.
    + intros t [Ht _]%leave_sub. auto.
  - eexists false, _. split; [done |]. rewrite Hh. split; [done |].
    assert (is_Some (tasks (sch (ms g)) !! r)) as Hrs by (apply (queues_member _ _ _ _ _ M1); by left).
    split; cbn [ms sch mutex wnodes holders parked woken released set_int set_guard set_sch set_waiters set_wnodes guard locked waiters]; try done.
    + by apply block_state.
    + by apply res_upd.
    + right. by exists h.
    + cbn. split_and!; [done | done |]. eexists. rewrite lookup_insert_eq. split; [done |]. by apply wchain_insert.
    + apply NoDup_cons. done.
    + apply NoDup_cons. done.
    + intros t [-> | Ht]%elem_of_cons; rewrite task_upd.
      * rewrite decide_True by done. rewrite <- Hh. split_and!; try done. by left.
      * destruct (M8 t Ht) as (? & ? & ? & ?). rewrite <- Hh. case_decide; [by subst | by split_and!].
    + by left.
    + intros t [Ht Htr]%leave_sub. rewrite task_upd, decide_False by done. auto.
Qed.

Lemma mok_try g own r l zl : mok g own r l zl -> r ∉ holders g -> r ∉ (parked g).*2 ->
  exists b m, try_lock (ms g) = Some (b, m) /\ (b = true <-> holders g = []) /\
    mok (Run m (if b then r :: holders g else holders g) (parked g) (woken g)) own r l zl.
Proof.
  intros Hm Hrh Hrp. pose proof Hm as [M1 M2 M3 M4 M5 M6 M7 M8 M9 M10]. rewrite try_lock_run by done.
  destruct M4 as [[Hh Hl] | (h & Hh & Hl)]; rewrite Hl; cbn [Z.eqb].
  - eexists true, _. split; [done |]. rewrite Hh. split; [done |]. split; try done; cbn.
    + right. by exists r.
    + intros t Ht. destruct (M8 t Ht) as (? & ? & ? & _). split_and!; try done. rewrite list_elem_of_singleton. by intros ->.
    + by left.
  - eexists false, _. split; [done |]. rewrite Hh. split; [done |]. rewrite <- Hh. split; try done. right. by exists h.
Qed.

Lemma mok_unlock g own r l zl : mok g own r l zl -> r ∈ holders g ->
  exists m, unlock (ms g) = Some (tt, m) /\
    mok (Run m (leave r (holders g)) (tail (parked g)) (option_list (head (parked g).*2) ++ woken g)) own r l zl.
Proof.
  intros Hm Hrh. pose proof Hm as [M1 M2 M3 M4 M5 M6 M7 M8 M9 M10].
  assert (holders g = [r]) as Hh.
  { destruct M4 as [[E _] | (h & E & _)]; rewrite E in Hrh |- *; [by apply elem_of_nil in Hrh | by apply list_elem_of_singleton in Hrh as ->]. }
  assert (leave r [r] = []) as Hlv by (unfold leave; rewrite filter_cons_False by tauto; done).
  rewrite Hh, Hlv in *. destruct (parked g) as [| [n t] p] eqn:Hp; simpl in M5.
  - rewrite unlock_run by done. rewrite M5. cbn [Z.eqb]. eexists. split; [done |].
    split; cbn [ms sch mutex wnodes holders parked woken released set_int set_guard set_sch set_waiters set_wnodes set_owner set_locked guard locked waiters tail]; try done.
    + by left.
    + by intros t ?%elem_of_nil.
  - destruct M5 as (Hw & Hn0 & x & Hx & Hch). destruct (M8 t) as (Htr & Hst & Hti & Hth); [by left |].
    assert (t <> 0) as Ht0 by (intros ->; by apply (rg_null _ _ _ (q_ring _ _ _ _ M1))).
    assert (is_Some (tasks (sch (ms g)) !! t)) as Hts by (by apply (queues_member _ _ _ _ _ M1)).
    rewrite unlock_run by (done || (intros _; rewrite Hw, Hx; by intros ? ? [= <- _])). rewrite Hw, Hx, (proj2 (Z.eqb_neq n 0)) by done.
    eexists. split; [done |]. apply NoDup_cons in M6 as [Hnp M6]. apply NoDup_cons in M7 as [Htp M7].
    split; cbn [ms sch mutex wnodes holders parked woken released set_int set_guard set_sch set_waiters set_wnodes set_owner set_locked guard locked waiters tail]; try done.
    + apply queues_upd; try done. by left.
    + by apply res_upd.
    + by left.
    + intros u Hu. destruct (M8 u) as (? & ? & ? & _); [by right |]. rewrite task_upd, decide_False by (by intros ->). split_and!; try done. by apply not_elem_of_nil.
    + intros _. by right.
    + intros u [-> | Hu]%elem_of_cons; rewrite task_upd; [rewrite decide_True by done; by split |].
      destruct (M10 u Hu). case_decide; [subst; by split | by split].
Qed.

Lemma chosen_runnable (s : kstate) r l : chosen s r l = idle_ptr \/ runnable (task s (chosen s r l)) = true.
Proof. unfold chosen. destruct (List.find _ _) as [t |] eqn:Hf; [right | by left]. by apply List.find_some in Hf as [_ ?]. Qed.

Lemma gave_way_blocked (s s' : kstate) r l t : gave_way s s' r l -> t ∈ r :: l -> t <> idle_ptr ->
  st (task s t) = Blocked -> st (task s' t) = Blocked.
Proof.
  intros [G1 G2 G3 G4 G5 G6] Ht Hti Hb. destruct (decide (t = r)) as [-> |].
  - destruct (decide (chosen s r l = r)) as [Hc | Hc]; [by rewrite G4 | rewrite G3 by done; by rewrite Hb].
  - rewrite G5; try done. intros E. destruct (chosen_runnable s r l) as [Hc | Hc]; [congruence |].
    rewrite <- E in Hc. unfold runnable in Hc. by rewrite Hb in Hc.
Qed.

Lemma gave_way_runnable (s s' : kstate) r l t : gave_way s s' r l -> t ∈ r :: l ->
  runnable (task s t) = true -> runnable (task s' t) = true.
Proof.
  intros [G1 G2 G3 G4 G5 G6] Ht Hr. unfold runnable in *. destruct (decide (t = r)) as [-> |].
  - destruct (decide (chosen s r l = r)) as [Hc | Hc]; [by rewrite G4 |]. rewrite G3 by done. case_decide; [done | done].
  - destruct (decide (t = chosen s r l)) as [E | E]; [| by rewrite G5]. rewrite E in n |- *. by rewrite (rn_state _ _ (G2 n)).
Qed.

(** A scheduler step that keeps blocked tasks blocked and runnable ones runnable. *)
Lemma mok_sched g own own' r l zl s' r' l' zl' : mok g own r l zl -> queues s' r' l' zl' -> res_ok s' own' -> r' :: l' ≡ₚ r :: l ->
  (forall t, t ∈ r :: l -> t <> idle_ptr -> st (task (sch (ms g)) t) = Blocked -> st (task s' t) = Blocked) ->
  (forall t, t ∈ r :: l -> runnable (task (sch (ms g)) t) = true -> runnable (task s' t) = true) ->
  mok (Run (set_sch s' (ms g)) (holders g) (parked g) (woken g)) own' r' l' zl'.
Proof.
  intros [M1 M2 M3 M4 M5 M6 M7 M8 M9 M10] Hq Hr Hp Hb Hrun. split; try done; cbn [ms holders parked woken sch set_sch].
  - intros t Ht. destruct (M8 t Ht) as (? & ? & ? & ?). rewrite Hp. split_and!; auto.
  - intros t Ht. destruct (M10 t Ht). rewrite Hp. split; auto.
Qed.

Definition no_raw (_ : Z) : Task := no_task.
Definition no_foreign (_ : Z) : Vfs.M (H := H) unit := ret tt.

Lemma mok_yield g own r l zl : mok g own r l zl ->
  exists m own' r' l' zl', on_sched yield (ms g) = Some (tt, m) /\ mok (Run m (holders g) (parked g) (woken g)) own' r' l' zl'.
Proof.
  intros Hm. destruct (yield_ok no_raw no_foreign _ _ _ _ _ (mk_queues _ _ _ _ _ Hm) (mk_res _ _ _ _ _ Hm))
    as (s' & own' & l' & Hrun & Hq & Hr & Hp & Hgw & _).
  unfold on_sched, run_on. rewrite Hrun. eexists _, own', _, l', _. split; [done |].
  apply (mok_sched g own own' r l zl); try done; intros t Ht; [by apply (gave_way_blocked _ _ r l) | by apply (gave_way_runnable _ _ r l)].
Qed.

Lemma mok_tick g own r l zl : mok g own r l zl ->
  exists m own' r' l' zl', on_sched tick (ms g) = Some (tt, m) /\ mok (Run m (holders g) (parked g) (woken g)) own' r' l' zl'.
Proof.
  intros Hm. destruct (tick_ok no_raw no_foreign _ _ _ _ _ (mk_queues _ _ _ _ _ Hm) (mk_res _ _ _ _ _ Hm))
    as (s' & own' & r' & l' & Hrun & Hq & Hr & Hp & Hc).
  unfold on_sched, run_on. rewrite Hrun. eexists _, own', r', l', _. split; [done |].
  apply (mok_sched g own own' r l zl); try done; intros t Ht; destruct (expires _ _).
  - destruct Hc as [_ Hgw]. by apply (gave_way_blocked _ _ r l).
  - destruct Hc as (_ & _ & _ & Hst). intros _ Hb. by rewrite Hst.
  - destruct Hc as [_ Hgw]. by apply (gave_way_runnable _ _ r l).
  - destruct Hc as (_ & _ & _ & Hst). unfold runnable. by rewrite Hst.
Qed.

Definition mutex_ok (g : run) : Prop := exists own r l zl, mok g own r l zl.

Lemma mstep_ok g g' : mutex_ok g -> mstep g g' -> mutex_ok g'.
Proof.
  intros (own & r & l & zl & Hm) Hs. destruct (mok_caller _ _ _ _ _ Hm) as [Hc _].
  destruct Hs as [node b m Hi Hh Hp Hn0 Hnp Hrun | b m Hh Hp Hrun | m Hh Hrun | m Hrun | m Hrun]; rewrite ?Hc in *.
  - destruct (mok_lock g own r l zl node Hm Hi Hh Hp Hn0 Hnp) as (b' & m' & Hrun' & _ & Hm'). simplify_eq. by eexists _, _, _, _.
  - destruct (mok_try g own r l zl Hm Hh Hp) as (b' & m' & Hrun' & _ & Hm'). simplify_eq. by eexists _, _, _, _.
  - destruct (mok_unlock g own r l zl Hm Hh) as (m' & Hrun' & Hm'). simplify_eq. by eexists _, _, _, _.
  - destruct (mok_yield g own r l zl Hm) as (m' & own' & r' & l' & zl' & Hrun' & Hm'). simplify_eq. by eexists _, _, _, _.
  - destruct (mok_tick g own r l zl Hm) as (m' & own' & r' & l' & zl' & Hrun' & Hm'). simplify_eq. by eexists _, _, _, _.
Qed.

(** A free mutex on a well-formed scheduler. *)
Definition fresh (s : kstate) (b : bool) : run := Run (MState s (MkMutex 0 0 0 0) ∅ b) [] [] [].

Lemma fresh_ok s own r l zl b : queues s r l zl -> res_ok s own -> mutex_ok (fresh s b).
Proof.
  intros Hq Hr. exists own, r, l, zl. split; try done; cbn.
  - by left.
  - apply NoDup_nil_2.
  - apply NoDup_nil_2.
  - by intros t ?%elem_of_nil.
  - by intros t ?%elem_of_nil.
Qed.

Lemma msteps_ok g g' : mutex_ok g -> msteps g g' -> mutex_ok g'.
Proof. intros Hm Hs. induction Hs as [| g1 g2 g3 Hs IH Hst]; [done |]. by apply (mstep_ok g2), Hst; apply IH. Qed.

(** C6: In every run of tasks that lock, try, unlock, yield and are preempted, from
    a free mutex: at most one task is between a successful [lock] or [try_lock] and
    its [unlock]; [locked] says whether one is; a try succeeds exactly when none is;
    the guard is free between steps, so no caller spins for ever; each waiter is
    blocked, so it costs no time; and no wake-up is lost: while tasks wait, either
    the mutex is held, or a task taken off the list is in the run queue, runnable,
    and will try again. *)
Theorem mutex_correct s own r l zl b g : queues s r l zl -> res_ok s own -> msteps (fresh s b) g ->
  (length (holders g) <= 1)%nat /\ locked (mutex (ms g)) = Z.of_nat (length (holders g)) /\ guard (mutex (ms g)) = 0 /\
  (forall t, t ∈ (parked g).*2 -> st (task (sch (ms g)) t) = Blocked /\ (t ∉ holders g)) /\
  wchain (wnodes (ms g)) (waiters (mutex (ms g))) (parked g) /\
  (parked g <> [] -> holders g <> [] \/
     exists t r' l', t ∈ woken g /\ ring (sch (ms g)) r' l' /\ t ∈ r' :: l' /\ runnable (task (sch (ms g)) t) = true) /\
  (caller g ∉ holders g -> caller g ∉ (parked g).*2 -> exists ok m, try_lock (ms g) = Some (ok, m) /\ (ok = true <-> holders g = [])).
Proof.
  intros Hq Hr Hs. destruct (msteps_ok _ _ (fresh_ok s own r l zl b Hq Hr) Hs) as (own' & r' & l' & zl' & Hm).
  pose proof Hm as [M1 M2 M3 M4 M5 M6 M7 M8 M9 M10].
  split; [destruct M4 as [[-> _] | (h & -> & _)]; simpl; lia |].
  split; [by destruct M4 as [[-> ->] | (h & -> & ->)] |]. split_and!; try done.
  - intros t Ht. by destruct (M8 t Ht) as (_ & ? & _ & ?).
  - intros Hp. destruct (M9 Hp) as [? | Hw]; [by left | right]. destruct (woken g) as [| t w] eqn:Hwo; [done |].
    destruct (M10 t) as [Htr Hrun]; [by left |]. exists t, r', l'. split_and!; try done; [by left | apply (q_ring _ _ _ _ M1)].
  - destruct (mok_caller _ _ _ _ _ Hm) as [Hc _]. rewrite Hc. intros Hh Hp.
    destruct (mok_try g own' r' l' zl' Hm Hh Hp) as (ok & m & Hrun & Hiff & _). by exists ok, m.
Qed.

(** The waiters are woken last in, first out, and a task that is made ready by
    anything but [unlock] while it waits takes the free mutex and leaves its node,
    on a stack frame that is gone, at the head of the list. *)
Lemma spurious_wake_dangles m node : guard (mutex m) = 0 -> current_task (sch m) <> 0 -> waiters (mutex m) = node -> locked (mutex m) = 0 ->
  exists m', lock_enter node m = Some (true, m') /\ waiters (mutex m') = node.
Proof. intros Hg Hc Hw Hl. rewrite lock_enter_run, Hl by done. eexists. split; [done | exact Hw]. Qed.
End sync.

(** ** A concrete run: one task takes the mutex, yields, and the next one waits *)

Section demo.
#[local] Abbreviation mdemo := (mstate (H := bump_vm)).

Definition out {A} (m : option (A * mdemo)) (d : mdemo) : mdemo := match m with Some (_, m') => m' | None => d end.
Definition m0 : mdemo := MState demo3 (MkMutex 0 0 0 0) ∅ true.
Definition m1 : mdemo := out (lock_enter 0x9000 m0) m0.
Definition m2 : mdemo := out (on_sched yield m1) m1.
Definition m3 : mdemo := out (lock_enter 0x9800 m2) m2.
Definition lock3 : run := Run m3 [task_b] [(0x9800, task_a)] [].

Lemma out_Some {A} (m : option (A * mdemo)) d x : (match m with Some (y, _) => Some y | None => None end) = Some x -> m = Some (x, out m d).
Proof. destruct m as [[y m'] |]; [| done]. by intros [= ->]. Qed.

Lemma take_step c node m m' : current_task (sch m) = c -> c <> idle_ptr -> node <> 0 -> lock_enter node m = Some (true, m') ->
  mstep (H := bump_vm) (Run m [] [] []) (Run m' [c] [] []).
Proof.
  intros Hc Hi Hn Hrun. subst c. apply (step_lock (Run m [] [] []) node true m'); try done; apply not_elem_of_nil.
Qed.

Lemma wait_step c h node m m' : current_task (sch m) = c -> c <> idle_ptr -> c <> h -> node <> 0 -> lock_enter node m = Some (false, m') ->
  mstep (H := bump_vm) (Run m [h] [] []) (Run m' [h] [(node, c)] []).
Proof.
  intros Hc Hi Hh Hn Hrun. subst c. apply (step_lock (Run m [h] [] []) node false m'); [done | | apply not_elem_of_nil | done | apply not_elem_of_nil | done].
  cbn [holders]. by rewrite list_elem_of_singleton.
Qed.

Lemma lock_run : msteps (fresh demo3 true) lock3.
Proof.
  change (fresh demo3 true) with (Run m0 [] [] []). unfold lock3.
  apply (msteps_step _ (Run m2 [task_b] [] [])); [apply (msteps_step _ (Run m1 [task_b] [] [])); [apply (msteps_step _ (Run m0 [] [] [])); [apply msteps_refl |] |] |].
  - apply (take_step task_b 0x9000); [vm_compute; reflexivity | vm_compute; congruence | done |]. apply out_Some. vm_compute. reflexivity.
  - apply (step_yield (Run m1 [task_b] [] [])). apply out_Some. vm_compute. reflexivity.
  - apply (wait_step task_a task_b 0x9800); [vm_compute; reflexivity | vm_compute; congruence | vm_compute; congruence | done |]. apply out_Some. vm_compute. reflexivity.
Qed.

Lemma mutex_correct_witness : locked (mutex (ms lock3)) = 1 /\ st (task (sch (ms lock3)) task_a) = Blocked.
Proof.
  destruct demo3_queues as (own & l & Hq & Hr).
  destruct (mutex_correct demo3 own task_b l [] true lock3 Hq Hr lock_run) as (_ & Hl & _ & Hb & _).
  assert (task_a ∈ (parked lock3).*2) as Hin by (change ((parked lock3).*2) with [task_a]; by apply list_elem_of_singleton).
  split; [exact Hl | exact (proj1 (Hb task_a Hin))].
Defined.
End demo.
