(* ===== verification/Elf.v ===== *)
(** * proc/elf.cpp: the ELF64 loader

    [load] reads a file of the virtual file system into a heap buffer and checks
    its headers.  The buffer is a range of the byte memory of [Vfs.state]; headers
    are decoded from it where the code casts a pointer, with pointer and offset
    arithmetic modulo 2^64.  Messages on the serial line are left out. *)
From S2P Require Import Prelude Alloc Vfs VfsTree.

(** ** Formats *)

Definition PT_LOAD : Z := 1.
Definition ET_EXEC : Z := 2.
Definition ET_DYN : Z := 3.
Definition EM_X86_64 : Z := 0x3E.
Definition MAX_SEGMENTS : Z := 16.
Definition sizeof_Phdr : Z := 56.

Record Elf64Header := Header {
  ident : list Z;
  e_type : Z;
  machine : Z;
  e_version : Z;
  e_entry : Z;
  phoff : Z;
  shoff : Z;
  e_flags : Z;
  ehsize : Z;
  phentsize : Z;
  phnum : Z;
  shentsize : Z;
  shnum : Z;
  shstrndx : Z;
}.

Record Elf64Phdr := Phdr {
  p_type : Z;
  p_flags : Z;
  p_offset : Z;
  p_vaddr : Z;
  p_paddr : Z;
  p_filesz : Z;
  p_memsz : Z;
  p_align : Z;
}.

Record Segment := MkSegment {
  seg_vaddr : Z;
  seg_filesz : Z;
  seg_memsz : Z;
  seg_flags : Z;
  seg_data : Z;
}.

Record Image := MkImage {
  entry : Z;
  segments : list Segment;
  file_data : Z;
  file_size : Z;
}.

(** [img.segment_count] *)
Definition segment_count (img : Image) : Z := Z.of_nat (length (segments img)).

Section elf.
Context {H : Type} `{!Allocator H}.
Variable foreign_read : Z -> Z -> Z -> M (H := H) (kResult (list Z)).
Variable foreign_close : Z -> M (H := H) unit.
Variable foreign_create : Z -> list Z -> Z -> M (H := H) Z.

#[local] Abbreviation vstate := (Vfs.state H).
#[local] Existing Instance M_bind.

(** The little-endian integer of [n] bytes at [a]. *)
Definition le (s : vstate) (a : Z) (n : Z) : Z := foldr (fun b acc => b + 256 * acc) 0 (read_bytes s (u64 a) n).

Definition header (s : vstate) (a : Z) : Elf64Header :=
  Header (read_bytes s a 16) (le s (a + 16) 2) (le s (a + 18) 2) (le s (a + 20) 4) (le s (a + 24) 8) (le s (a + 32) 8) (le s (a + 40) 8)
    (le s (a + 48) 4) (le s (a + 52) 2) (le s (a + 54) 2) (le s (a + 56) 2) (le s (a + 58) 2) (le s (a + 60) 2) (le s (a + 62) 2).

Definition phdr (s : vstate) (a : Z) : Elf64Phdr :=
  Phdr (le s a 4) (le s (a + 4) 4) (le s (a + 8) 8) (le s (a + 16) 8) (le s (a + 24) 8) (le s (a + 32) 8) (le s (a + 40) 8) (le s (a + 48) 8).

(** ** Validation *)

Definition id_byte (eh : Elf64Header) (i : nat) : Z := default 0 (ident eh !! i).

(** The checks of the file header, in order. *)
Definition header_ok (eh : Elf64Header) (size : Z) : bool :=
  (id_byte eh 0 =? 0x7F) && (id_byte eh 1 =? 69) && (id_byte eh 2 =? 76) && (id_byte eh 3 =? 70) &&
  (id_byte eh 4 =? 2) && (id_byte eh 5 =? 1) &&
  ((e_type eh =? ET_EXEC) || (e_type eh =? ET_DYN)) &&
  (machine eh =? EM_X86_64) &&
  (phentsize eh =? sizeof_Phdr) &&
  negb ((phnum eh =? 0) || (64 <? phnum eh)) &&
  negb (size <? u64 (phoff eh + phnum eh * sizeof_Phdr)).

Definition phdr_at (s : vstate) (buf : Z) (i : nat) : Elf64Phdr :=
  phdr s (u64 (u64 (buf + phoff (header s buf)) + sizeof_Phdr * Z.of_nat i)).

Definition segment_of (buf : Z) (ph : Elf64Phdr) : Segment :=
  MkSegment (p_vaddr ph) (p_filesz ph) (p_memsz ph) (p_flags ph) (u64 (buf + p_offset ph)).

(** The loop over the program headers from [i] on, [n] of them left; [None] is [fail]. *)
Fixpoint walk (n i : nat) (s : vstate) (buf size : Z) (segs : list Segment) : option (list Segment) :=
  match n with
  | O => Some segs
  | S n' =>
      let ph := phdr_at s buf i in
      if negb (p_type ph =? PT_LOAD) then walk n' (S i) s buf size segs
      else if size <? u64 (p_offset ph + p_filesz ph) then None
      else if p_memsz ph <? p_filesz ph then None
      else if MAX_SEGMENTS <=? Z.of_nat (length segs) then None
      else walk n' (S i) s buf size (segs ++ [segment_of buf ph])
  end.

Definition parse (s : vstate) (buf size : Z) : kResult Image :=
  let eh := header s buf in
  if negb (header_ok eh size) then Err FilesystemCorrupt else
  match walk (Z.to_nat (phnum eh)) 0 s buf size [] with
  | None => Err FilesystemCorrupt
  | Some segs =>
      if Z.of_nat (length segs) =? 0 then Err FilesystemCorrupt
      else Ok (MkImage (e_entry eh) segs buf size)
  end.

(** ** Loading *)

(** [while (total < size)]: a read that stores nothing ends the loop. *)
Fixpoint read_all (n : nat) (f buf total size : Z) : M (H := H) (kResult Z) :=
  match n with
  | O => fun _ => None
  | S n' =>
      if size <=? total then ret (Ok total) else
      r ← Vfs.read foreign_read f (u64 (size - total));
      match r with
      | Err e => ret (Err e)
      | Ok l =>
          modify (write_bytes (buf + total) l) ;;
          if Z.of_nat (length l) =? 0 then ret (Ok total) else read_all n' f buf (u64 (total + Z.of_nat (length l))) size
      end
  end.

(** The part of [load] that has a buffer. *)
Definition load_image (f buf size : Z) : M (H := H) (kResult Image) :=
  t ← read_all (S (Z.to_nat size)) f buf 0 size;
  match t with
  | Err e => Vfs.free buf ;; Vfs.close foreign_close f ;; ret (Err e)
  | Ok total =>
      Vfs.close foreign_close f ;;
      if negb (total =? size) then (Vfs.free buf ;; ret (Err IOError)) else
      p ← get (fun s => parse s buf size);
      match p with
      | Ok img => ret (Ok img)
      | Err e => Vfs.free buf ;; ret (Err e)
      end
  end.

Definition load (path : list Z) : M (H := H) (kResult Image) :=
  r ← Vfs.open foreign_create path O_READ;
  match r with
  | Err _ => ret (Err NotFound)
  | Ok f =>
      size ← get (fun s => fsize (nd s (node (fd s f))));
      if size <? 64 then (Vfs.close foreign_close f ;; ret (Err FilesystemCorrupt)) else
      buf ← Vfs.malloc size;
      if buf =? 0 then (Vfs.close foreign_close f ;; ret (Err OutOfMemory)) else load_image f buf size
  end.

Definition free_image (img : Image) : M (H := H) Image :=
  if negb (file_data img =? 0) then (Vfs.free (file_data img) ;; ret (MkImage (entry img) (segments img) 0 (file_size img)))
  else ret img.

(** ** What is accepted *)

Definition loads_from (n i : nat) (s : vstate) (buf : Z) : list Elf64Phdr :=
  filter (fun ph => p_type ph = PT_LOAD) (phdr_at s buf <$> seq i n).

(** The loadable headers of the file at [buf], in order. *)
Definition loads (s : vstate) (buf : Z) : list Elf64Phdr := loads_from (Z.to_nat (phnum (header s buf))) 0 s buf.

Definition seg_ok (size : Z) (ph : Elf64Phdr) : bool :=
  (u64 (p_offset ph + p_filesz ph) <=? size) && (p_filesz ph <=? p_memsz ph).

Lemma walk_spec n i s buf size segs : Z.of_nat (length segs) <= MAX_SEGMENTS ->
  walk n i s buf size segs =
    let l := loads_from n i s buf in
    if forallb (seg_ok size) l && (Z.of_nat (length segs + length l) <=? MAX_SEGMENTS) then Some (segs ++ (segment_of buf <$> l)) else None.
Proof.
  revert i segs. induction n as [| n IH]; intros i segs Hs; cbn [walk].
  - unfold loads_from. cbn. rewrite Nat.add_0_r, app_nil_r. by rewrite (proj2 (Z.leb_le _ _) Hs).
  - unfold loads_from. cbn [seq fmap list_fmap]. rewrite filter_cons. fold (loads_from n (S i) s buf). cbv zeta.
    destruct (Z.eqb_spec (p_type (phdr_at s buf i)) PT_LOAD) as [Ht | Ht]; cbn [negb].
    2: { rewrite decide_False by done. by apply IH. }
    rewrite decide_True by done. cbn [forallb length fmap list_fmap]. unfold seg_ok at 1.
    rewrite !Z.ltb_antisym. destruct (u64 _ <=? size); cbn [negb andb]; [| done]. destruct (p_filesz _ <=? p_memsz _); cbn [negb andb]; [| done].
    destruct (Z.leb_spec MAX_SEGMENTS (Z.of_nat (length segs))) as [Hm | Hm].
    + rewrite (proj2 (Z.leb_gt _ MAX_SEGMENTS)) by lia. by rewrite andb_false_r.
    + rewrite IH by (rewrite length_app; simpl; lia). cbv zeta. rewrite length_app. cbn [length].
      replace (length segs + 1 + length (loads_from n (S i) s buf))%nat with (length segs + S (length (loads_from n (S i) s buf)))%nat by lia.
      rewrite <- app_assoc. done.
Qed.

Lemma parse_spec s buf size :
  parse s buf size = let eh := header s buf in let l := loads s buf in
    if header_ok eh size && forallb (seg_ok size) l && (1 <=? Z.of_nat (length l)) && (Z.of_nat (length l) <=? MAX_SEGMENTS)
    then Ok (MkImage (e_entry eh) (segment_of buf <$> l) buf size) else Err FilesystemCorrupt.
Proof.
  unfold parse. cbv zeta. destruct (header_ok _ size); cbn [negb andb]; [| done].
  rewrite walk_spec by done. cbv zeta. fold (loads s buf). cbn [length app Nat.add].
  destruct (forallb _ _); cbn [andb]; [| done].
  destruct (Z.leb_spec (Z.of_nat (length (loads s buf))) MAX_SEGMENTS); [| by rewrite andb_false_r]. rewrite andb_true_r, length_fmap.
  destruct (Z.eqb_spec (Z.of_nat (length (loads s buf))) 0), (Z.leb_spec 1 (Z.of_nat (length (loads s buf)))); (done || lia).
Qed.

(** Decoded fields are in range when memory holds bytes. *)
Lemma le_range s a n : (forall x, 0 <= byte s x < 256) -> 0 <= n -> 0 <= le s a n < 256 ^ n.
Proof.
  intros Hb Hn. unfold le, read_bytes.
  assert (forall l : list Z, (forall x, x ∈ l -> 0 <= x < 256) -> 0 <= foldr (fun b acc => b + 256 * acc) 0 l < 256 ^ Z.of_nat (length l)) as Hl.
  { induction l as [| x l IH]; intros Hx; [simpl; lia |]. cbn [foldr length]. destruct (Hx x) as [H1 H2]; [by left |].
    assert (0 <= foldr (fun b acc => b + 256 * acc) 0 l < 256 ^ Z.of_nat (length l)) as IHl by (apply IH; intros y Hy; apply Hx; by right).
    rewrite Nat2Z.inj_succ, Z.pow_succ_r by lia. lia. }
  specialize (Hl ((fun i => byte s (u64 a + i)) <$> seqZ 0 n)). rewrite length_fmap, length_seqZ, Z2Nat.id in Hl by done. apply Hl.
  intros x (i & -> & _)%list_elem_of_fmap. apply Hb.
Qed.

Lemma phdr_range s a : (forall x, 0 <= byte s x < 256) ->
  0 <= p_offset (phdr s a) < 2 ^ 64 /\ 0 <= p_filesz (phdr s a) < 2 ^ 64.
Proof. intros Hb. split; apply (le_range s _ 8 Hb); done. Qed.

(** ** Reading the file *)

Ltac run_vfs := unfold upd_node, upd_fd, mbind, M_bind, Vfs.bind, get, modify, ret, mbind, option_bind; cbv beta iota zeta.

(** A read from a file of the ramfs moves at most the offset of its descriptor. *)
Lemma file_read_step s f d len : fds s !! f = Some d -> f <> 0 -> ops (nd s (node d)) = RamfsOps -> 0 <= len ->
  exists r o, Vfs.read foreign_read f len s = Some (r, set_fds (<[f := set_offset o d]> (fds s)) s) /\
    match r with Ok l => Z.of_nat (length l) <= len | Err _ => True end.
Proof.
  intros Hf H0 Hops Hlen. unfold Vfs.read. rewrite (proj2 (Z.eqb_neq f 0)) by done. run_vfs.
  assert (fd s f = d) as Hfd by (unfold fd; by rewrite Hf). rewrite Hfd.
  assert (set_fds (<[f := set_offset (offset d) d]> (fds s)) s = s) as Hsame.
  { rewrite insert_id; [by destruct s |]. by destruct d. }
  destruct (negb (has (flags d) VFS_READ)). { exists (Err PermissionDenied), (offset d). by rewrite Hsame. }
  destruct (type _ =? _). { exists (Err IsDirectory), (offset d). by rewrite Hsame. }
  rewrite Hops. unfold ramfs_read. run_vfs. destruct ((fdata _ =? 0) || (fsize _ <=? offset d)).
  { exists (Ok []), (offset d). by rewrite Hsame. }
  set (n := if _ <? len then _ else len).
  assert (n <= len) as Hn by (unfold n; destruct (Z.ltb_spec (u64 (fsize (nd s (node d)) - offset d)) len); lia).
  set (l := read_bytes s _ n). assert (Z.of_nat (length l) <= len) as Hl.
  { unfold l, read_bytes. rewrite length_fmap, length_seqZ. lia. }
  destruct (0 <? Z.of_nat (length l)).
  - exists (Ok l), (u64 (offset d + Z.of_nat (length l))). by rewrite Hfd.
  - exists (Ok l), (offset d). by rewrite Hsame.
Qed.

(** What the loop keeps: everything but the buffer's bytes and the offset. *)
Record reading (s s' : vstate) (f : Z) (d : FileDescriptor) : Prop := {
  rd_heap : heap s' = heap s;
  rd_nodes : nodes s' = nodes s;
  rd_root : vfs_root s' = vfs_root s /\ cwd s' = cwd s;
  rd_fds : exists o, fds s' = <[f := set_offset o d]> (fds s);
}.

Lemma reading_obj s s' own f d : reading s s' f d -> obj_ok s own -> fds s !! f = Some d -> obj_ok s' own.
Proof.
  intros [Hh Hn [Hr Hc] [o Hf]] Hok Hd. apply (obj_keep (set_fds (<[f := set_offset o d]> (fds s)) s) s' own own); try done.
  - by eapply obj_fd.
  - apply (ok_range _ _ Hok).
Qed.

Lemma read_all_ok n f buf total size s d : fds s !! f = Some d -> f <> 0 -> ops (nd s (node d)) = RamfsOps ->
  0 <= total <= size -> size < 2 ^ 63 -> (Z.to_nat (size - total) < n)%nat ->
  exists r s', read_all n f buf total size s = Some (r, s') /\ reading s s' f d.
Proof.
  revert total s d. induction n as [| n IH]; intros total s d Hf H0 Hops Ht Hs Hn; [lia |]. cbn [read_all].
  assert (reading s s f d) as Hid by (split; try done; exists (offset d); rewrite insert_id; [done | by destruct d]).
  destruct (Z.leb_spec size total); [by exists (Ok total), s |].
  assert (u64 (size - total) = size - total) as -> by (rewrite u64_small; [done |]; change (2 ^ 63) with 9223372036854775808 in *; mach; lia).
  destruct (file_read_step s f d (size - total) Hf H0 Hops) as (r & o & Hrun & Hl); [lia |].
  unfold mbind, M_bind, bind. rewrite Hrun. cbv beta iota. set (s1 := set_fds _ s) in *. cbn [mbind option_bind].
  assert (fds s1 !! f = Some (set_offset o d)) as Hf1 by (cbn; by rewrite lookup_insert_eq).
  assert (reading s s1 f d) as Hrd1 by (split; try done; by exists o).
  destruct r as [l | e]; [| by exists (Err e), s1]. unfold modify. cbn [mbind option_bind].
  destruct (write_bytes_spec l (buf + total) s1) as [Hob _]. set (s2 := write_bytes (buf + total) l s1) in *.
  assert (heap s2 = heap s1 /\ nodes s2 = nodes s1 /\ fds s2 = fds s1 /\ vfs_root s2 = vfs_root s1 /\ cwd s2 = cwd s1) as (B1 & B2 & B3 & B4 & B5) by (rewrite Hob; done).
  assert (reading s s2 f d) as Hrd2 by (split; [by rewrite B1 | by rewrite B2 | by rewrite B4, B5 | exists o; by rewrite B3]).
  destruct (Z.eqb_spec (Z.of_nat (length l)) 0); [by exists (Ok total), s2 |].
  assert (u64 (total + Z.of_nat (length l)) = total + Z.of_nat (length l)) as ->.
  { rewrite u64_small; [done |]. change (2 ^ 63) with 9223372036854775808 in *. mach. lia. }
  destruct (IH (total + Z.of_nat (length l)) s2 (set_offset o d)) as (r & s' & Hrun' & [E1 E2 [E3 E4] [o' E5]]); [| done | | lia | done | lia |].
  - by rewrite B3.
  - cbn [node set_offset]. unfold nd. rewrite (rd_nodes _ _ _ _ Hrd2). exact Hops.
  - exists r, s'. split; [exact Hrun' |]. destruct Hrd2 as [F1 F2 [F3 F4] _]. split; [congruence | congruence | split; congruence |].
    exists o'. rewrite E5, B3. cbn [fds s1 set_fds]. by rewrite insert_insert_eq.
Qed.

(** The file that [path] names has a size the loader rejects, or is a file of the
    ramfs: the terminal and pipes have size 0. *)
Definition regular (s : vstate) (path : list Z) : Prop := forall f s1,
  Vfs.open foreign_create path O_READ s = Some (Ok f, s1) ->
  let v := nd s1 (node (fd s1 f)) in fsize v < 64 \/ (ops v = RamfsOps /\ fsize v < max_request).

Lemma block_free (s : vstate) own a : mem_ok (heap s) own -> obj_ok s own -> own !! a = Some OOther ->
  exists h, Vfs.free a s = Some (tt, set_heap h s) /\ mem_ok h (delete a own) /\ obj_ok (set_heap h s) (delete a own).
Proof.
  intros Hm Hok Ha. destruct (free_ok s own a Hm) as (h & Hf & Hm'); [by eexists |]. exists h. split_and!; [done | done |].
  apply (obj_keep s _ own); try done.
  - intros b o Ho Hb. rewrite lookup_delete_ne; [done |]. intros <-. congruence.
  - intros b. rewrite lookup_delete. case_decide; [by intros [] | apply (ok_range _ _ Hok)].
Qed.

(** What [load] leaves behind. *)
Definition loaded (s' : vstate) (r : kResult Image) (own : gmap Z owner) : Prop :=
  mem_ok (heap s') own /\ obj_ok s' own /\
  match r with
  | Ok img => own !! file_data img = Some OOther /\ 64 <= file_size img /\ parse s' (file_data img) (file_size img) = Ok img
  | Err _ => True
  end.

Lemma parse_image s buf size img : parse s buf size = Ok img -> file_data img = buf /\ file_size img = size.
Proof. rewrite parse_spec. cbv zeta. destruct (_ && _); [by intros [= <-] | done]. Qed.

Lemma load_image_ok s own f d buf size : mem_ok (heap s) own -> obj_ok s own -> fds s !! f = Some d -> f <> 0 ->
  ops (nd s (node d)) = RamfsOps -> own !! buf = Some OOther -> 64 <= size < max_request ->
  exists r s' own', load_image f buf size s = Some (r, s') /\ fds s' = delete f (fds s) /\ loaded s' r own'.
Proof.
  intros Hm Hok Hfd Hf0 Hops Hown Hsz. unfold max_request in Hsz. change (2 ^ 46) with 70368744177664 in Hsz.
  unfold load_image, mbind, M_bind, bind. 
  destruct (read_all_ok (S (Z.to_nat size)) f buf 0 size s d Hfd Hf0 Hops) as (r & s3 & -> & Hrd); [lia | change (2 ^ 63) with 9223372036854775808; lia | lia |].
  cbn [mbind option_bind]. pose proof (reading_obj s s3 own f d Hrd Hok Hfd) as Hok3.
  assert (mem_ok (heap s3) own) as Hm3 by (rewrite (rd_heap _ _ _ _ Hrd); done).
  destruct (rd_fds _ _ _ _ Hrd) as [o Hf3].
  assert (forall h own2, mem_ok h own2 -> obj_ok (set_heap h s3) own2 ->
    exists s' own', Vfs.close foreign_close f (set_heap h s3) = Some (tt, s') /\ fds s' = delete f (fds s) /\ mem_ok (heap s') own' /\ obj_ok s' own' /\ others_kept own2 own') as Hclose.
  { intros h own2 Hmh Hokh. destruct (close_own foreign_close (set_heap h s3) own2 f Hmh Hokh) as (s' & own' & Hc & Hm' & Hok' & Hd & Hk).
    - cbn. rewrite Hf3, lookup_insert_eq. by eexists.
    - exists s', own'. split_and!; try done. rewrite Hd. cbn. by rewrite Hf3, delete_insert_eq. }
  destruct r as [total | e].
  - destruct (Hclose (heap s3) own Hm3) as (s4 & own4 & Hc & Hf4 & Hm4 & Hok4 & Hk4); [by destruct s3 |].
    assert (set_heap (heap s3) s3 = s3) as Hid by (by destruct s3). rewrite Hid in Hc. rewrite Hc. cbn [mbind option_bind].
    destruct (block_free s4 own4 buf Hm4 Hok4 (Hk4 _ Hown)) as (h5 & Hfree & Hm5 & Hok5).
    destruct (total =? size); cbn [negb].
    2: { rewrite Hfree. cbn [mbind option_bind]. eexists _, _, _. split; [done |]. split; [done |]. by split_and!. }
    unfold get. cbn [mbind option_bind]. destruct (parse s4 buf size) as [img | e] eqn:Hp.
    + exists (Ok img), s4, own4. split; [done |]. split; [done |]. destruct (parse_image _ _ _ _ Hp) as [E1 E2].
      unfold loaded. rewrite E1, E2. split_and!; try done; [by apply Hk4 | lia].
    + rewrite Hfree. cbn [mbind option_bind]. eexists _, _, _. split; [done |]. split; [done |]. by split_and!.
  - destruct (block_free s3 own buf Hm3 Hok3 Hown) as (h4 & -> & Hm4 & Hok4). cbn [mbind option_bind].
    destruct (Hclose h4 (delete buf own) Hm4 Hok4) as (s' & own' & -> & Hf' & Hm' & Hok' & _). cbn [mbind option_bind].
    exists (Err e), s', own'. by split_and!.
Qed.

Lemma load_ok s path : fs_ok s -> (length path <= 255)%nat -> regular s path ->
  exists r s' own, load path s = Some (r, s') /\ fds s' = fds s /\ loaded s' r own.
Proof.
  intros Hfs Hlen Hreg. unfold load.
  destruct (open_ok foreign_create s path O_READ Hfs Hlen) as (r & s1 & Hopen & (own1 & Hm1 & Hok1) & Hr).
  unfold mbind, M_bind, bind. rewrite Hopen. cbn [mbind option_bind].
  destruct r as [f | e]; [| exists (Err NotFound), s1, own1; by split_and!].
  destruct Hr as (Hnone & d & Hfds & _). unfold get, ret. cbn [mbind option_bind].
  assert (fds s1 !! f = Some d) as Hfd by (rewrite Hfds; by rewrite lookup_insert_eq).
  assert (fd s1 f = d) as Hfv by (unfold fd; by rewrite Hfd). rewrite Hfv.
  assert (f <> 0) as Hf0.
  { intros ->. assert (heap_range 0) as Hh by (apply (ok_range _ _ Hok1); rewrite (ok_fd _ _ Hok1); by eexists). unfold heap_range in Hh. lia. }
  assert (delete f (fds s1) = fds s) as Hdel by (rewrite Hfds, delete_insert_eq; by apply delete_id).
  set (size := fsize (nd s1 (node d))). destruct (Z.ltb_spec size 64) as [Hsmall | Hbig].
  { destruct (close_own foreign_close s1 own1 f Hm1 Hok1) as (s' & own' & -> & Hm' & Hok' & Hf' & _); [by eexists |].
    cbn [mbind option_bind]. exists (Err FilesystemCorrupt), s', own'. rewrite Hf'. by split_and!. }
  assert (ops (nd s1 (node d)) = RamfsOps /\ size < max_request) as [Hops Hmax].
  { destruct (Hreg f s1 Hopen) as [Hs | Hs]; rewrite Hfv in Hs; [unfold size in Hbig; lia | done]. }
  unfold Vfs.malloc. destruct (mem_malloc (heap s1) own1 size Hm1) as (buf & h & -> & Hbuf); [lia |]. cbn [mbind option_bind].
  destruct Hbuf as [[-> Hm2] | (Hb0 & Hbn & Hbh & Hm2)].
  { cbn [Z.eqb]. destruct (close_own foreign_close (set_heap h s1) own1 f Hm2) as (s' & own' & -> & Hm' & Hok' & Hf' & _); [| by eexists |].
    - apply (obj_keep s1 _ own1 own1 Hok1); try done. apply (ok_range _ _ Hok1).
    - cbn [mbind option_bind]. exists (Err OutOfMemory), s', own'. rewrite Hf'. by split_and!. }
  rewrite (proj2 (Z.eqb_neq buf 0)) by done.
  destruct (load_image_ok (set_heap h s1) (<[buf := OOther]> own1) f d buf size) as (r & s' & own' & Hrun & Hf' & Hl); try done.
  - apply (obj_keep s1 _ own1 _ Hok1); try done.
    + intros a o _ Ha. rewrite lookup_insert_ne; [done |]. congruence.
    + intros a. rewrite lookup_insert. case_decide; [by subst | apply (ok_range _ _ Hok1)].
  - by rewrite lookup_insert_eq.
  - exists r, s', own'. split; [exact Hrun |]. rewrite Hf'. by split.
Qed.

(** [load] of a path to a regular file returns.  Whatever the outcome, the
    descriptors are as before the call and the file system is intact; a success
    hands over one live heap block that is no part of the file system and whose
    bytes parse to the image returned. *)
Theorem elf_load_safe s path : fs_ok s -> (length path <= 255)%nat -> regular s path ->
  exists r s' own, load path s = Some (r, s') /\ fds s' = fds s /\ mem_ok (heap s') own /\ obj_ok s' own /\
    match r with
    | Ok img => own !! file_data img = Some OOther /\ 64 <= file_size img /\ parse s' (file_data img) (file_size img) = Ok img
    | Err _ => True
    end.
Proof. intros Hfs Hlen Hreg. destruct (load_ok s path Hfs Hlen Hreg) as (r & s' & own & ? & ? & ? & ? & ?). by exists r, s', own. Qed.

End elf.

(** ** Concrete instances, over the [Bump] allocator *)

Section demo.
#[local] Existing Instance Bump.bump_allocator.

Definition no_read (_ _ _ : Z) : M (H := Bump.state) (kResult (list Z)) := ret (Err IOError).

(** The empty file [/f] is refused. *)
Lemma elf_load_safe_witness : exists r s', load no_read no_close no_create path_f tree2 = Some (r, s') /\ fds s' = fds tree2.
Proof.
  assert (regular no_create tree2 path_f) as Hreg.
  { intros f s1 Ho. left.
    assert (match Vfs.open no_create path_f O_READ tree2 with Some (Ok f, s1) => fsize (nd s1 (node (fd s1 f))) <? 64 | _ => true end = true) as Hc
      by (vm_compute; reflexivity).
    rewrite Ho in Hc. by apply Z.ltb_lt. }
  assert (length path_f <= 255)%nat as Hl by (simpl; lia).
  destruct (elf_load_safe no_read no_close no_create tree2 path_f tree2_ok Hl Hreg) as (r & s' & own & Hrun & Hf & _).
  exists r, s'. split; [exact Hrun | exact Hf].
Defined.

Definition quad (v : Z) : list Z := (fun i => Z.shiftr v (8 * i) .& 255) <$> seqZ 0 8.

(** A file of 120 bytes: the header and one program header. *)
Definition elf_file (off filesz memsz : Z) : list Z :=
  [0x7F; 69; 76; 70; 2; 1; 1; 0; 0; 0; 0; 0; 0; 0; 0; 0] ++ [2; 0; 0x3E; 0; 1; 0; 0; 0] ++ quad 0x400000 ++ quad 64 ++ quad 0 ++
  [0; 0; 0; 0; 64; 0; 56; 0; 1; 0; 0; 0; 0; 0; 0; 0] ++
  [1; 0; 0; 0; 5; 0; 0; 0] ++ quad off ++ quad 0x400000 ++ quad 0x400000 ++ quad filesz ++ quad memsz ++ quad 4096.

Definition at_buf (l : list Z) : Vfs.state Bump.state := write_bytes 0x100000 l tree0.

Lemma at_buf_bytes l : Forall (fun b => 0 <= b < 256) l -> forall x, 0 <= byte (at_buf l) x < 256.
Proof.
  intros Hl x. unfold at_buf. destruct (write_bytes_spec l 0x100000 tree0) as [_ ->]. case_decide; [| vm_compute; split; congruence].
  destruct (l !! Z.to_nat (x - 0x100000)) as [b |] eqn:Hb; [| simpl; lia]. simpl. by apply (Forall_lookup_1 _ _ _ _ Hl Hb).
Qed.


(** A header whose offset and size wrap around is accepted, with a segment that
    starts eight bytes before the buffer. *)
Lemma wrapped_segment_accepted : match parse (at_buf (elf_file (2 ^ 64 - 8) 16 16)) 0x100000 120 with
  | Ok img => seg_data <$> segments img = [0x100000 - 8]
  | Err _ => False
  end.
Proof. vm_compute. reflexivity. Qed.
End demo.
