(* ===== verification/Bytes.v ===== *)
(** * Byte buffers

    A buffer is the list of its bytes.  Little-endian words in a buffer: reading one
    depends on the bytes it covers, and reads back what was stored. *)
From S2P Require Import Prelude.

(** [buf[i]] *)
Definition at_index (buf : list Z) (i : Z) : Z := default 0 (buf !! Z.to_nat i).

(** The bytes of a word of [n] bytes. *)
Definition le_bytes (n : nat) (w : Z) : list Z := (fun i => u8 (w .>> (8 * Z.of_nat i))) <$> seq 0 n.

(** [buf[off + i] = src[i]] for the indices of [src]. *)
Definition store (off : Z) (src buf : list Z) : list Z := list_inserts (Z.to_nat off) src buf.

(** The bytes [buf[off], ..., buf[off + n - 1]]. *)
Definition slice (off n : Z) (buf : list Z) : list Z := take (Z.to_nat n) (drop (Z.to_nat off) buf).

Definition get16 (buf : list Z) (off : Z) : Z := read_le (at_index buf) off 2.
Definition get32 (buf : list Z) (off : Z) : Z := read_le (at_index buf) off 4.

Lemma length_le_bytes n w : length (le_bytes n w) = n.
Proof. unfold le_bytes. by rewrite length_fmap, length_seq. Qed.

Lemma le_bytes_U8 n w : Forall U8 (le_bytes n w).
Proof. unfold le_bytes. apply Forall_fmap, Forall_true. intros i. apply u8_bound. Qed.

Lemma le_bytes_lookup n w i : (i < n)%nat -> le_bytes n w !! i = Some (u8 (w .>> (8 * Z.of_nat i))).
Proof. intros Hi. unfold le_bytes. rewrite list_lookup_fmap, lookup_seq_lt by done. done. Qed.

Lemma read_le_ext (f g : Z -> Z) a b n : (forall i, 0 <= i < Z.of_nat n -> f (a + i) = g (b + i)) -> read_le f a n = read_le g b n.
Proof.
  revert a b. induction n as [| n IH]; intros a b He; [done |]. cbn [read_le].
  pose proof (He 0 ltac:(lia)) as H0. rewrite !Z.add_0_r in H0. rewrite H0. do 2 f_equal. apply IH. intros i Hi.
  replace (a + 1 + i) with (a + (1 + i)) by lia. replace (b + 1 + i) with (b + (1 + i)) by lia. apply He. lia.
Qed.

Lemma read_le_spec (f : Z -> Z) w n a : 0 <= w -> (forall i, 0 <= i < Z.of_nat n -> f (a + i) = u8 (w .>> (8 * i))) ->
  read_le f a n = w mod 2 ^ (8 * Z.of_nat n).
Proof.
  revert a w. induction n as [| n IH]; intros a w Hw He; [cbn [read_le]; by rewrite Z.mod_1_r |]. cbn [read_le].
  pose proof (He 0 ltac:(lia)) as H0. rewrite Z.add_0_r, Z.mul_0_r, Z.shiftr_0_r in H0. rewrite H0.
  rewrite (IH (a + 1) (w .>> 8)).
  - replace (8 * Z.of_nat (S n)) with (8 + 8 * Z.of_nat n) by lia. unfold u8, wrap. rewrite Z.mod_mod by done.
    rewrite Z.shiftr_div_pow2, Z.shiftl_mul_pow2 by lia.
    rewrite Z.lor_comm, (lor_disjoint 8); [| lia | apply Z.mod_mul; lia | apply Z.mod_pos_bound; lia].
    rewrite Z.pow_add_r, Z.rem_mul_r by lia. lia.
  - apply Z.shiftr_nonneg. done.
  - intros i Hi. replace (a + 1 + i) with (a + (1 + i)) by lia. rewrite He by lia. f_equal. rewrite Z.shiftr_shiftr by lia. f_equal. lia.
Qed.

(** ** Stores *)

Lemma length_store off src buf : length (store off src buf) = length buf.
Proof. apply length_inserts. Qed.

Lemma store_index off src buf i : 0 <= off -> 0 <= i -> off + Z.of_nat (length src) <= Z.of_nat (length buf) ->
  at_index (store off src buf) i = if decide (off <= i < off + Z.of_nat (length src)) then at_index src (i - off) else at_index buf i.
Proof.
  intros Ho Hi Hl. unfold at_index, store. case_decide as Hr.
  - rewrite list_lookup_inserts by lia. do 2 f_equal. lia.
  - destruct (decide (Z.to_nat i < Z.to_nat off)%nat).
    + by rewrite list_lookup_inserts_lt by lia.
    + by rewrite list_lookup_inserts_ge by lia.
Qed.

Lemma store_all src buf : length src = length buf -> store 0 src buf = src.
Proof.
  intros Hl. unfold store. apply list_eq. intros i. destruct (decide (i < length src)%nat).
  - rewrite list_lookup_inserts by lia. f_equal. lia.
  - rewrite !lookup_ge_None_2; [done | lia | rewrite length_inserts; lia].
Qed.

Lemma store_U8 off src buf : Forall U8 src -> Forall U8 buf -> Forall U8 (store off src buf).
Proof. intros Hs Hb. unfold store. revert off. generalize (Z.to_nat). intros f off. generalize (f off). clear f off. intros k.
  revert k. induction Hs as [| x src Hx Hs IH]; intros k; [done |]. cbn [list_inserts]. by apply Forall_insert. Qed.

Lemma store_word n w off buf : 0 <= off -> 0 <= w < 2 ^ (8 * Z.of_nat n) -> off + Z.of_nat n <= Z.of_nat (length buf) ->
  read_le (at_index (store off (le_bytes n w) buf)) off n = w.
Proof.
  intros Ho Hw Hl. rewrite (read_le_spec _ w); [by apply Z.mod_small | lia |]. intros i Hi.
  rewrite store_index; rewrite ?length_le_bytes; try lia. rewrite decide_True by lia. unfold at_index. replace (off + i - off) with i by lia.
  rewrite le_bytes_lookup by lia. cbn [default]. by rewrite Z2Nat.id by lia.
Qed.

Lemma store_word_other n k off off' src buf : 0 <= off -> 0 <= off' -> off + Z.of_nat (length src) <= Z.of_nat (length buf) ->
  (off' + Z.of_nat n <= off \/ off + Z.of_nat (length src) <= off') -> k = n ->
  read_le (at_index (store off src buf)) off' k = read_le (at_index buf) off' n.
Proof.
  intros Ho Ho' Hl Hd ->. apply read_le_ext. intros i Hi. rewrite store_index by lia. by rewrite decide_False by lia.
Qed.

Lemma slice_length off n buf : 0 <= off -> 0 <= n -> off + n <= Z.of_nat (length buf) -> Z.of_nat (length (slice off n buf)) = n.
Proof. intros. unfold slice. rewrite length_take, length_drop. lia. Qed.

Lemma slice_index off n buf i : 0 <= off -> 0 <= i < n -> at_index (slice off n buf) i = at_index buf (off + i).
Proof. intros. unfold at_index, slice. rewrite lookup_take_lt, lookup_drop by lia. do 2 f_equal. lia. Qed.

(** A list is its entries. *)
Lemma seqZ_index (l : list Z) : l = (fun i => at_index l i) <$> seqZ 0 (Z.of_nat (length l)).
Proof.
  apply list_eq. intros i. rewrite list_lookup_fmap. destruct (decide (i < length l)%nat) as [Hi | Hi].
  - rewrite lookup_seqZ_lt by lia. unfold at_index. cbn [fmap option_fmap option_map].
    replace (Z.to_nat (0 + Z.of_nat i)) with i by lia. destruct (lookup_lt_is_Some_2 l i Hi) as [x ->]. done.
  - rewrite lookup_seqZ_ge by lia. rewrite lookup_ge_None_2 by lia. done.
Qed.

Lemma at_index_U8 buf i : Forall U8 buf -> U8 (at_index buf i).
Proof.
  intros Hb. unfold at_index. destruct (buf !! Z.to_nat i) as [x |] eqn:Hx; cbn [default]; [by apply (Forall_lookup_1 _ _ _ _ Hb Hx) |].
  unfold U8. lia.
Qed.
