(* ===== verification/Syscall.v ===== *)
(** * kernel/syscall.cpp, kernel/asm/syscall.asm: system calls

    The state is the scheduler's (with tables, files and heap inside it), the memory
    of every address space as bytes, and the little the system-call layer keeps
    itself.  A byte that was never written is zero: page faults are not modelled, and
    the handlers check no user pointer but for null.  Every handler is a definition;
    [dispatch_syscall] looks the number up in [kRoutes], and [syscall_entry] is the
    path around it in assembly. *)
From S2P Require Import Prelude Bytes Alloc Paging.
From S2P Require Import Vfs VfsTree VfsCalls FdTable Sched Monad.

(** ** Constants (kernel/include/syscall.hpp) *)

Inductive Syscall :=
  | Read | Write | Open | Close | Stat | Seek | Mmap | Fstat | Dup | Dup2 | Pipe | Getcwd | Chdir | Brk | Readdir
  | GetTid | Reboot | Yield | Fork | Execve | Exit | ExitGroup | Mkdir | Unlink | GetTicks | Spawn.

Definition number (c : Syscall) : Z :=
  match c with
  | Read => 0 | Write => 1 | Open => 2 | Close => 3 | Stat => 4 | Seek => 8 | Mmap => 9 | Fstat => 5 | Dup => 32 | Dup2 => 33
  | Pipe => 22 | Getcwd => 79 | Chdir => 80 | Brk => 12 | Readdir => 78 | GetTid => 186 | Reboot => 169 | Yield => 24
  | Fork => 57 | Execve => 59 | Exit => 60 | ExitGroup => 231 | Mkdir => 83 | Unlink => 87 | GetTicks => 228 | Spawn => 220
  end.

Definition FD_STDERR : Z := 2.
Definition E_OK : Z := 0.
Definition E_NOENT : Z := -2.
Definition E_INVAL : Z := -22.
Definition E_BADF : Z := -9.
Definition E_FAULT : Z := -14.
Definition E_NOSYS : Z := -38.
Definition E_NOTDIR : Z := -20.
Definition E_NOSPACE : Z := -28.
Definition sizeof_StatBuf : nat := 144.

(** The model-specific registers [init] writes. *)
Definition MSR_EFER : Z := 0xC0000080.
Definition MSR_STAR : Z := 0xC0000081.
Definition MSR_LSTAR : Z := 0xC0000082.
Definition MSR_FMASK : Z := 0xC0000084.
Definition MSR_KERNEL_GS : Z := 0xC0000102.
Definition MSR_GS_BASE : Z := 0xC0000101.

Record SyscallArgs := Args { arg0 : Z; arg1 : Z; arg2 : Z; arg3 : Z; arg4 : Z }.

(** What a handler does with its caller: it returns a value, or the task is gone. *)
Inductive outcome := Returns (r : Z) | Gone.

(** The registers the entry keeps on the kernel stack of the task. *)
Record frame := Frame { rax : Z; rcx : Z; r11 : Z }.

Section syscall.
Context {H : Type} `{!Allocator H} `{!Paging H}.
Variable raw : Z -> Task.
Variable foreign_read : Z -> Z -> Z -> Vfs.M (H := H) (kResult (list Z)).
Variable foreign_write : Z -> Z -> list Z -> Vfs.M (H := H) (kResult Z).
Variable foreign_close : Z -> Vfs.M (H := H) unit.
Variable foreign_create : Z -> list Z -> Z -> Vfs.M (H := H) Z.
Variable foreign_unlink : Z -> list Z -> Vfs.M (H := H) kStatus.
Variable foreign_readdir : Z -> Z -> Vfs.M (H := H) (kResult Dirent).

(** ** State *)

Record kstate := KState {
  sch : sstate (H := H);
  umem : gmap (Z * Z) Z;
  user_rsp : Z;
  last_user : Z * Z * Z;
  exec_user : Z * Z * Z;
  exec_pending : bool;
  yield_pending : bool;
  ticks : Z;
  serial : list Z;
  ports : list (Z * Z);
  msrs : gmap Z Z;
}.

Definition set_sch x s := KState x (umem s) (user_rsp s) (last_user s) (exec_user s) (exec_pending s) (yield_pending s) (ticks s) (serial s) (ports s) (msrs s).
Definition set_umem x s := KState (sch s) x (user_rsp s) (last_user s) (exec_user s) (exec_pending s) (yield_pending s) (ticks s) (serial s) (ports s) (msrs s).
Definition set_last rsp l s := KState (sch s) (umem s) rsp l (exec_user s) (exec_pending s) (yield_pending s) (ticks s) (serial s) (ports s) (msrs s).
Definition set_user_rsp x s := KState (sch s) (umem s) x (last_user s) (exec_user s) (exec_pending s) (yield_pending s) (ticks s) (serial s) (ports s) (msrs s).
Definition set_exec_pending x s := KState (sch s) (umem s) (user_rsp s) (last_user s) (exec_user s) x (yield_pending s) (ticks s) (serial s) (ports s) (msrs s).
Definition set_yield_pending x s := KState (sch s) (umem s) (user_rsp s) (last_user s) (exec_user s) (exec_pending s) x (ticks s) (serial s) (ports s) (msrs s).
Definition set_ticks x s := KState (sch s) (umem s) (user_rsp s) (last_user s) (exec_user s) (exec_pending s) (yield_pending s) x (serial s) (ports s) (msrs s).
Definition set_serial x s := KState (sch s) (umem s) (user_rsp s) (last_user s) (exec_user s) (exec_pending s) (yield_pending s) (ticks s) x (ports s) (msrs s).
Definition set_ports x s := KState (sch s) (umem s) (user_rsp s) (last_user s) (exec_user s) (exec_pending s) (yield_pending s) (ticks s) (serial s) x (msrs s).
Definition wrmsr (r v : Z) (s : kstate) := KState (sch s) (umem s) (user_rsp s) (last_user s) (exec_user s) (exec_pending s) (yield_pending s) (ticks s) (serial s) (ports s) (<[r := v]> (msrs s)).

(** The parts of other components. *)
Definition fs (s : kstate) : Vfs.state H := vfs (ts (sch s)).
Definition put_fs (v : Vfs.state H) (s : kstate) : kstate := set_sch (set_ts (set_vfs v (ts (sch s))) (sch s)) s.
Definition on_fs {A} (m : Vfs.M (H := H) A) : St kstate A := run_on fs put_fs m.
Definition on_sched {A} (m : St (sstate (H := H)) A) : St kstate A := run_on sch set_sch m.

Definition current (s : kstate) : Task := task (sch s) (current_task (sch s)).

(** *** User memory *)

Definition space (s : kstate) : Z := pml4 (current s).
Definition ubyte (s : kstate) (a : Z) : Z := default 0 (umem s !! (space s, a)).

(** The zero-terminated string at [a]. *)
Fixpoint c_string (fuel : nat) (m : Z -> Z) (a : Z) : list Z :=
  match fuel with
  | O => []
  | S fuel' => if m a =? 0 then [] else m a :: c_string fuel' m (a + 1)
  end.
Definition user_string (s : kstate) (a : Z) : list Z := c_string (S (size (umem s))) (ubyte s) a.
Definition user_bytes (s : kstate) (a n : Z) : list Z := (fun i => ubyte s (a + i)) <$> seqZ 0 n.

(** [dst[i] = l[i]] *)
Fixpoint put_bytes (sp a : Z) (l : list Z) (m : gmap (Z * Z) Z) : gmap (Z * Z) Z :=
  match l with
  | [] => m
  | b :: l' => put_bytes sp (a + 1) l' (<[(sp, a) := b]> m)
  end.
Definition store_user (a : Z) (l : list Z) : St kstate unit := modify (fun s => set_umem (put_bytes (space s) a l (umem s)) s).

(** ** Set-up *)

Definition init (syscall_entry gs_block : Z) (s : kstate) : kstate :=
  let efer := default 0 (msrs s !! MSR_EFER) in
  let s := wrmsr MSR_EFER (efer .| 1) s in
  let star := (0x0008 .<< 32) .| (0x0010 .<< 48) in
  let s := wrmsr MSR_STAR star s in
  let s := wrmsr MSR_LSTAR syscall_entry s in
  let s := wrmsr MSR_FMASK ((1 .<< 9) .| (1 .<< 10)) s in
  let s := wrmsr MSR_KERNEL_GS gs_block s in
  wrmsr MSR_GS_BASE 0 s.

Definition consume_exec_pending : St kstate Z :=
  b ← gets exec_pending;
  if b : bool then (modify (set_exec_pending false) ;; mret 1) else mret 0.

Definition consume_yield_pending : St kstate Z :=
  b ← gets yield_pending;
  if b : bool then (modify (set_yield_pending false) ;; mret 1) else mret 0.

Definition do_yield : St kstate unit := on_sched yield.

(** ** Helpers *)

Definition current_fdt (s : kstate) : Z := if negb (current_task (sch s) =? 0) then fd_table (current s) else 0.

Definition table_of (t : Z) (s : kstate) : FDTable := table (ts (sch s)) t.
Definition put_table (t : Z) (x : FDTable) (s : kstate) : kstate := set_sch (set_ts (upd_table t (fun _ => x) (ts (sch s))) (sch s)) s.

(** [*out] stays null on an error. *)
Definition fdt_lookup (t fd : Z) : St kstate (Z * Z) :=
  r ← gets (fun s => FdTable.lookup (table_of t s) fd);
  mret (match r with Err _ => (E_BADF, 0) | Ok f => (E_OK, f) end).

Definition fdt_remove (t fd : Z) : St kstate (Z * Z) :=
  r ← gets (fun s => FdTable.remove (table_of t s) fd);
  modify (put_table t (snd r)) ;;
  mret (match fst r with Err _ => (E_BADF, 0) | Ok f => (E_OK, f) end).

Definition fdt_install (t f : Z) : St kstate Z :=
  r ← gets (fun s => FdTable.install (table_of t s) f);
  modify (put_table t (snd r)) ;;
  mret (match fst r with Err _ => E_NOSPACE | Ok fd => fd end).

Definition fdt_install_at (t f fd : Z) : St kstate Z :=
  r ← gets (fun s => FdTable.install_at (table_of t s) f fd);
  modify (put_table t (snd r)) ;;
  mret (match fst r with Err _ => E_BADF | Ok fd => fd end).

Definition close_file (f : Z) : St kstate unit := on_fs (Vfs.close foreign_close f).

(** ** exit and the simple calls *)

(** [syscall_exit_unwind] leaves the kernel stack and jumps to [sched::exit]. *)
Definition handle_exit (a : SyscallArgs) : St kstate outcome :=
  on_sched (modify preempt_enable) ;;
  on_sched (Sched.exit foreign_close (i32 (arg0 a))) ;;
  mret Gone.

Definition handle_get_tid (_ : SyscallArgs) : St kstate Z :=
  gets (fun s => if negb (current_task (sch s) =? 0) then tid (current s) else 0).

Definition handle_get_ticks (_ : SyscallArgs) : St kstate Z := gets (fun s => i64 (ticks s)).

Definition handle_yield (_ : SyscallArgs) : St kstate Z := modify (set_yield_pending true) ;; mret E_OK.

Definition handle_spawn (a : SyscallArgs) : St kstate Z :=
  name ← gets (fun s => if negb (arg1 a =? 0) then user_string s (arg1 a) else [116; 97; 115; 107]);
  r ← on_sched (Sched.spawn raw (arg0 a) name DEFAULT_STACK DEFAULT_QUANTUM);
  mret (match r with Ok t => t | Err _ => E_INVAL end).

Definition handle_mmap (_ : SyscallArgs) : St kstate Z := mret E_NOSYS.
Definition handle_brk (_ : SyscallArgs) : St kstate Z := mret 0.

(** ** Reading and writing *)

Definition handle_write (a : SyscallArgs) : St kstate Z :=
  let fd := arg0 a in let buf := arg1 a in let len := arg2 a in
  if buf =? 0 then mret E_FAULT else
  when (fd =? FD_STDERR) (modify (fun s => set_serial (serial s ++ user_bytes s buf len) s)) ;;
  fdt ← gets current_fdt;
  if fdt =? 0 then mret E_BADF else
  '(e, f) ← fdt_lookup fdt fd;
  if negb (e =? 0) then mret e else
  src ← gets (fun s => user_bytes s buf len);
  r ← on_fs (Vfs.write foreign_write f src);
  mret (match r with Ok n => n | Err _ => E_INVAL end).

Definition handle_read (a : SyscallArgs) : St kstate Z :=
  let fd := arg0 a in let buf := arg1 a in let len := arg2 a in
  if (buf =? 0) || (len =? 0) then mret E_FAULT else
  fdt ← gets current_fdt;
  if fdt =? 0 then mret E_BADF else
  '(e, f) ← fdt_lookup fdt fd;
  if negb (e =? 0) then mret e else
  r ← on_fs (Vfs.read foreign_read f len);
  match r with
  | Ok l => store_user buf l ;; mret (Z.of_nat (length l))
  | Err _ => mret E_INVAL
  end.

(** ** open, close, seek *)

Definition handle_open (a : SyscallArgs) : St kstate Z :=
  let flags := arg1 a in
  if arg0 a =? 0 then mret E_FAULT else
  fdt ← gets current_fdt;
  if fdt =? 0 then mret E_BADF else
  path ← gets (fun s => user_string s (arg0 a));
  r ← on_fs (Vfs.open foreign_create path flags);
  match r with
  | Err _ => mret E_NOENT
  | Ok f =>
      fd ← fdt_install fdt f;
      if fd <? 0 then (close_file f ;; mret E_NOSPACE) else mret fd
  end.

Definition handle_close (a : SyscallArgs) : St kstate Z :=
  fdt ← gets current_fdt;
  if fdt =? 0 then mret E_BADF else
  '(e, f) ← fdt_remove fdt (arg0 a);
  if negb (e =? 0) then mret e else
  close_file f ;;
  mret E_OK.

Definition handle_seek (a : SyscallArgs) : St kstate Z :=
  fdt ← gets current_fdt;
  if fdt =? 0 then mret E_BADF else
  '(e, f) ← fdt_lookup fdt (arg0 a);
  if negb (e =? 0) then mret e else
  r ← on_fs (Vfs.seek f (i64 (arg1 a)) (arg2 a));
  mret (match r with Ok o => o | Err _ => E_INVAL end).

(** ** stat and fstat *)

(** The fields of [StatBuf] at their offsets, over zeros. *)
Definition fill_stat (out : Z) (v : VNode) : St kstate unit :=
  store_user out (replicate sizeof_StatBuf 0) ;;
  store_user (out + 48) (le_bytes 8 (fsize v)) ;;
  store_user (out + 24) (le_bytes 4 ((if type v =? VFS_TYPE_DIR then S_IFDIR else S_IFREG) .| S_IRWX)) ;;
  store_user (out + 56) (le_bytes 8 512) ;;
  store_user (out + 64) (le_bytes 8 (u64 (fsize v + 511) / 512)).

Definition handle_stat (a : SyscallArgs) : St kstate Z :=
  let out := arg1 a in
  if (arg0 a =? 0) || (out =? 0) then mret E_FAULT else
  path ← gets (fun s => user_string s (arg0 a));
  r ← on_fs (Vfs.resolve path);
  match r with
  | Err _ => mret E_NOENT
  | Ok n => v ← gets (fun s => nd (fs s) n); fill_stat out v ;; mret E_OK
  end.

Definition handle_fstat (a : SyscallArgs) : St kstate Z :=
  fdt ← gets current_fdt;
  if fdt =? 0 then mret E_BADF else
  '(e, f) ← fdt_lookup fdt (arg0 a);
  if negb (e =? 0) then mret e else
  if arg1 a =? 0 then mret E_FAULT else
  v ← gets (fun s => nd (fs s) (node (Vfs.fd (fs s) f)));
  fill_stat (arg1 a) v ;;
  mret E_OK.

(** ** Directories *)

(** [Dirent]: 128 characters of name, of which [kstrcpy] writes the string and its
    end, and the type. *)
Definition put_dirent (out : Z) (d : Dirent) : St kstate unit :=
  store_user out (d_name d ++ [0]) ;;
  store_user (out + 128) (le_bytes 4 (d_type d)).

Definition handle_readdir (a : SyscallArgs) : St kstate Z :=
  fdt ← gets current_fdt;
  if fdt =? 0 then mret E_BADF else
  '(e, f) ← fdt_lookup fdt (arg0 a);
  if negb (e =? 0) then mret e else
  if arg1 a =? 0 then mret E_FAULT else
  r ← on_fs (Vfs.readdir foreign_readdir f);
  match r with
  | Ok d => put_dirent (arg1 a) d ;; mret E_OK
  | Err _ => mret E_FAULT
  end.

Definition handle_mkdir (a : SyscallArgs) : St kstate Z :=
  if arg0 a =? 0 then mret E_FAULT else
  path ← gets (fun s => user_string s (arg0 a));
  r ← on_fs (Vfs.mkdir foreign_create path);
  mret (if is_ok r then E_OK else E_INVAL).

Definition handle_unlink (a : SyscallArgs) : St kstate Z :=
  if arg0 a =? 0 then mret E_FAULT else
  path ← gets (fun s => user_string s (arg0 a));
  r ← on_fs (Vfs.unlink foreign_unlink path);
  mret (if is_ok r then E_OK else E_NOENT).

(** ** dup, dup2, pipe *)

Definition handle_dup (a : SyscallArgs) : St kstate Z :=
  fdt ← gets current_fdt;
  if fdt =? 0 then mret E_BADF else
  '(e, f) ← fdt_lookup fdt (arg0 a);
  if negb (e =? 0) then mret e else
  r ← on_fs (Vfs.dup f);
  match r with
  | Err _ => mret E_NOSPACE
  | Ok c =>
      fd ← fdt_install fdt c;
      if fd <? 0 then (close_file c ;; mret E_NOSPACE) else mret fd
  end.

(** [existing] is null and stays so: what [remove] took out is not closed. *)
Definition handle_dup2 (a : SyscallArgs) : St kstate Z :=
  fdt ← gets current_fdt;
  if fdt =? 0 then mret E_BADF else
  let oldfd := arg0 a in let newfd := arg1 a in
  if oldfd =? newfd then mret (i64 newfd) else
  '(e, f) ← fdt_lookup fdt oldfd;
  if negb (e =? 0) then mret e else
  let existing := 0 in
  '(e, _) ← fdt_remove fdt newfd;
  when (e =? 0) (close_file existing) ;;
  r ← on_fs (Vfs.dup f);
  match r with
  | Err _ => mret E_NOSPACE
  | Ok c =>
      fd ← fdt_install_at fdt c (i32 newfd);
      if fd <? 0 then (close_file c ;; mret E_NOSPACE) else mret fd
  end.

Definition handle_pipe (a : SyscallArgs) : St kstate Z :=
  let fds := arg0 a in
  if fds =? 0 then mret E_FAULT else
  fdt ← gets current_fdt;
  if fdt =? 0 then mret E_BADF else
  r ← on_fs Vfs.pipe;
  match r with
  | Err _ => mret E_NOSPACE
  | Ok (read_end, write_end) =>
      rfd ← fdt_install fdt read_end;
      if rfd <? 0 then (close_file read_end ;; close_file write_end ;; mret E_NOSPACE) else
      wfd ← fdt_install fdt write_end;
      if wfd <? 0 then
        (fdt_remove fdt (u64 rfd) ;; close_file read_end ;; close_file write_end ;; mret E_NOSPACE)
      else
        (store_user fds (le_bytes 4 (u32 rfd)) ;; store_user (fds + 4) (le_bytes 4 (u32 wfd)) ;; mret E_OK)
  end.

(** ** The working directory *)

Definition handle_getcwd (a : SyscallArgs) : St kstate Z :=
  let buf := arg0 a in let size := arg1 a in
  if (buf =? 0) || (size =? 0) then mret E_FAULT else
  path ← gets (fun s => build_path (get_cwd (fs s)) size (fs s));
  store_user buf (path ++ [0]) ;;
  gets (fun s => Z.of_nat (length (user_string s buf))).

Definition handle_chdir (a : SyscallArgs) : St kstate Z :=
  if arg0 a =? 0 then mret E_FAULT else
  path ← gets (fun s => user_string s (arg0 a));
  r ← on_fs (Vfs.resolve path);
  match r with
  | Err _ => mret E_NOENT
  | Ok n =>
      v ← gets (fun s => nd (fs s) n);
      if negb (type v =? VFS_TYPE_DIR) then mret E_NOTDIR else
      (on_fs (set_cwd n) ;; mret E_OK)
  end.

(** ** reboot *)

Definition LINUX_REBOOT_MAGIC1 : Z := 0xfee1dead.
Definition LINUX_REBOOT_MAGIC2 : Z := 0x28121969.
Definition LINUX_REBOOT_CMD_POWER_OFF : Z := 0x4321fedc.
Definition LINUX_REBOOT_CMD_RESTART : Z := 0x01234567.

Definition outw (port v : Z) : St kstate unit := modify (fun s => set_ports (ports s ++ [(port, v)]) s).

Definition handle_reboot (a : SyscallArgs) : St kstate Z :=
  if negb (arg0 a =? LINUX_REBOOT_MAGIC1) || negb (arg1 a =? LINUX_REBOOT_MAGIC2) then mret E_INVAL else
  if arg2 a =? LINUX_REBOOT_CMD_POWER_OFF then (outw 0x604 0x2000 ;; mret E_OK)
  else if arg2 a =? LINUX_REBOOT_CMD_RESTART then (outw 0x604 0 ;; mret E_OK)
  else mret E_INVAL.

(** ** Dispatch *)

Definition returns (h : SyscallArgs -> St kstate Z) (a : SyscallArgs) : St kstate outcome := r ← h a; mret (Returns r).

Definition kRoutes : list (Syscall * (SyscallArgs -> St kstate outcome)) :=
  [(Read, returns handle_read); (Write, returns handle_write); (Open, returns handle_open); (Close, returns handle_close);
   (Stat, returns handle_stat); (Fstat, returns handle_fstat); (Seek, returns handle_seek); (Mmap, returns handle_mmap);
   (Brk, returns handle_brk); (Yield, returns handle_yield); (Exit, handle_exit); (ExitGroup, handle_exit);
   (Readdir, returns handle_readdir); (Mkdir, returns handle_mkdir); (Unlink, returns handle_unlink);
   (GetTid, returns handle_get_tid); (Spawn, returns handle_spawn); (GetTicks, returns handle_get_ticks);
   (Reboot, returns handle_reboot); (Dup, returns handle_dup); (Dup2, returns handle_dup2); (Pipe, returns handle_pipe);
   (Getcwd, returns handle_getcwd); (Chdir, returns handle_chdir)].

Fixpoint dispatch_routes (l : list (Syscall * (SyscallArgs -> St kstate outcome))) (nr : Z) (a : SyscallArgs) : St kstate outcome :=
  match l with
  | [] => mret (Returns E_NOSYS)
  | (c, h) :: l' => if number c =? nr then h a else dispatch_routes l' nr a
  end.

Definition dispatch_syscall (nr : Z) (a : SyscallArgs) : St kstate outcome := dispatch_routes kRoutes nr a.

Definition syscall_handler (nr a0 a1 a2 a3 a4 : Z) : St kstate outcome := dispatch_syscall nr (Args a0 a1 a2 a3 a4).

(** ** Entry *)

(** The way in and out (kernel/asm/syscall.asm).  The task's frame is what its kernel
    stack keeps while other tasks run after a yield; [sysret] takes the user's stack
    pointer from the one block the processor has. *)
Definition syscall_entry (rip rsp rflags nr : Z) (a : SyscallArgs) : St kstate (option frame) :=
  modify (set_last rsp (rip, rsp, rflags)) ;;
  on_sched (modify preempt_disable) ;;
  o ← syscall_handler nr (arg0 a) (arg1 a) (arg2 a) (arg3 a) (arg4 a);
  match o with
  | Gone => mret None
  | Returns r =>
      on_sched (modify preempt_enable) ;;
      e ← consume_exec_pending;
      x ← gets exec_user;
      let '(xrip, xrsp, xrflags) := x in
      when (negb (e =? 0)) (modify (set_user_rsp xrsp)) ;;
      let fr := if negb (e =? 0) then Frame r xrip xrflags else Frame r rip rflags in
      y ← consume_yield_pending;
      when (negb (y =? 0)) do_yield ;;
      mret (Some fr)
  end.

(** ** The timer interrupt (kernel/timer.cpp, kernel/pic.cpp) *)

Definition PIC1_CMD : Z := 0x20.
Definition PIC2_CMD : Z := 0xA0.
Definition IRQ_TIMER : Z := 0.

Definition outb (port v : Z) : St kstate unit := modify (fun s => set_ports (ports s ++ [(port, u8 v)]) s).

Definition eoi (irq : Z) : St kstate unit :=
  when (8 <=? irq) (outb PIC2_CMD 0x20) ;;
  outb PIC1_CMD 0x20.

Definition timer_handler : St kstate unit :=
  modify (fun s => set_ticks (u64 (ticks s + 1)) s) ;;
  eoi IRQ_TIMER ;;
  on_sched tick.

(** The registers a task leaves the kernel with: its frame and the stack pointer. *)
Definition sysret (fr : frame) (s : kstate) : frame * Z := (fr, user_rsp s).
End syscall.
