(* ===== verification/SyscallRun.v ===== *)
(** * Runs of system calls

    The invariant of the kernel over every system call, and what the calls promise to
    a program: files, pipes, descriptors and error numbers. *)
From S2P Require Import Prelude Ring Bytes Alloc Paging.
From S2P Require Import Vfs VfsTree VfsCalls FdTable Sched SchedRun Monad Syscall.

Section run.
Context {H : Type} `{!Allocator H} `{!Paging H}.
Variable raw : Z -> Task.
Variable foreign_read : Z -> Z -> Z -> Vfs.M (H := H) (kResult (list Z)).
Variable foreign_write : Z -> Z -> list Z -> Vfs.M (H := H) (kResult Z).
Variable foreign_close : Z -> Vfs.M (H := H) unit.
Variable foreign_create : Z -> list Z -> Z -> Vfs.M (H := H) Z.
Variable foreign_unlink : Z -> list Z -> Vfs.M (H := H) kStatus.
Variable foreign_readdir : Z -> Z -> Vfs.M (H := H) (kResult Dirent).

#[local] Abbreviation kstate := (Syscall.kstate (H := H)).
Implicit Types s : kstate.

(** ** The invariant *)

(** Queues, tasks, tables, descriptors, nodes and heap blocks are in order. *)
Definition kernel_ok s : Prop := sched_ok (sch s).

(** An open file that no table holds. *)
Definition loose s (f : Z) : Prop :=
  is_Some (fds (fs s) !! f) /\ forall u j, 0 <= j < MAX_FDS -> file (table (ts (sch s)) u) j <> f.

Definition has_table s (t : Z) : Prop := is_Some (tables (ts (sch s)) !! t).

(** Replacing the tables and files under the scheduler. *)
Lemma valid_ts (x : sstate (H := H)) own own' r l zl t' : valid x own r l zl -> tables_ok t' own' -> others_kept own own' ->
  (forall u, is_Some (tables t' !! u) <-> is_Some (tables (ts x) !! u)) -> valid (set_ts t' x) own' r l zl.
Proof.
  intros [Hq [R1 R2 R3 R4 R5 R6]] Ht Hk Hdom. split; [by apply (queues_same x) |]. split; cbn; try done.
  - intros t v a Hv Hi Ha. destruct (R2 t v a Hv Hi Ha) as [? Hn]. split; [by apply Hk |].
    apply eq_None_not_Some. rewrite Hdom, Hn. by intros [].
  - intros t v Hv Hf. rewrite Hdom. by apply (R5 t).
Qed.

(** Another file system under the tables: every file in a slot stays open. *)
Lemma tables_vfs (x : tstate (H := H)) own v : tables_ok x own -> fs_from own v ->
  (forall u j, 0 <= j < MAX_FDS -> file (table x u) j <> 0 -> is_Some (fds v !! file (table x u) j)) ->
  exists own', tables_ok (set_vfs v x) own' /\ others_kept own own'.
Proof.
  intros [_ _ T3 _ T5] (own' & Hm & Ho & Hk) Hopen. exists own'. split; [| done]. split; cbn; try done.
  intros t Ht. by apply Hk, T3.
Qed.

Lemma put_fs_ok s v : kernel_ok s -> (forall base, fs_from base (fs s) -> fs_from base v) ->
  (forall u j, 0 <= j < MAX_FDS -> file (table (ts (sch s)) u) j <> 0 -> is_Some (fds v !! file (table (ts (sch s)) u) j)) ->
  kernel_ok (put_fs v s).
Proof.
  intros (own & r & l & zl & Hv) Hfs Hopen. pose proof (rs_tables _ _ (proj2 Hv)) as Ht.
  destruct (tables_vfs (ts (sch s)) own v Ht) as (own' & Ht' & Hk); [| done |].
  - apply Hfs. exists own. split_and!; [apply (tb_mem _ _ Ht) | apply (tb_obj _ _ Ht) | by intros a].
  - exists own', r, l, zl. by apply (valid_ts (sch s) own).
Qed.

Lemma open_files s u j : kernel_ok s -> 0 <= j < MAX_FDS -> file (table (ts (sch s)) u) j <> 0 ->
  is_Some (fds (fs s) !! file (table (ts (sch s)) u) j).
Proof. intros (own & r & l & zl & Hv). apply (tb_open _ _ (rs_tables _ _ (proj2 Hv))). Qed.

Lemma kernel_fs s : kernel_ok s -> fs_from ∅ (fs s).
Proof.
  intros (own & r & l & zl & Hv). pose proof (rs_tables _ _ (proj2 Hv)) as Ht. exists own.
  split_and!; [apply (tb_mem _ _ Ht) | apply (tb_obj _ _ Ht) | done].
Qed.

(** A call into the file system that closes nothing. *)
Lemma on_fs_ok {A} (m : Vfs.M (H := H) A) s (Q : A -> Vfs.state H -> Prop) : kernel_ok s ->
  (forall base, fs_from base (fs s) -> exists r v, m (fs s) = Some (r, v) /\ fs_from base v /\
     (forall f, is_Some (fds (fs s) !! f) -> is_Some (fds v !! f)) /\ Q r v) ->
  exists r v, on_fs m s = Some (r, put_fs v s) /\ kernel_ok (put_fs v s) /\
    (forall f, is_Some (fds (fs s) !! f) -> is_Some (fds v !! f)) /\ Q r v.
Proof.
  intros Hs Hm. destruct (Hm ∅ (kernel_fs s Hs)) as (r & v & Hrun & _ & Hmono & HQ). exists r, v.
  split; [unfold on_fs, run_on; by rewrite Hrun |]. split; [| done]. apply put_fs_ok; [done | |].
  - intros base Hb. destruct (Hm base Hb) as (r' & v' & Hrun' & Hfs & _). by simplify_eq.
  - intros u j Hj Hne. by apply Hmono, open_files.
Qed.

(** ** Descriptor tables *)

Lemma file_put t x s u j : file (table (ts (sch (put_table t x s))) u) j = if decide (t = u) then file x j else file (table (ts (sch s)) u) j.
Proof. unfold put_table. cbn. rewrite table_upd. by case_decide. Qed.

Lemma kernel_put_table s t x : kernel_ok s -> has_table s t ->
  (forall own, tables_ok (ts (sch s)) own -> tables_ok (upd_table t (fun _ => x) (ts (sch s))) own) -> kernel_ok (put_table t x s).
Proof.
  intros (own & r & l & zl & Hv) Ht Hx. exists own, r, l, zl. apply (valid_ts (sch s) own); [done | | by intros a |].
  - apply Hx, (rs_tables _ _ (proj2 Hv)).
  - intros u. by apply tables_upd_own.
Qed.

Lemma upd_const t (g : FDTable -> FDTable) (x : tstate (H := H)) : upd_table t (fun _ => g (table x t)) x = upd_table t g x.
Proof. done. Qed.

Lemma put_same s t : has_table s t -> put_table t (table_of t s) s = s.
Proof.
  intros [x Hx]. unfold put_table, upd_table, table_of, table. rewrite Hx. cbn. rewrite insert_id by done. destruct s as [[[? ?]]]; done.
Qed.

(** Emptying a slot. *)
Lemma take_ok (x : tstate (H := H)) own t i n : tables_ok x own -> is_Some (tables x !! t) -> tables_ok (upd_table t (store i 0 n) x) own.
Proof.
  intros [T1 T2 T3 T4 T5] Ht. assert (forall u j, file (table (upd_table t (store i 0 n) x) u) j =
    if decide (t = u /\ i = j) then 0 else file (table x u) j) as Hfile by (intros u j; apply (file_upd t i 0 (fun _ => n))).
  split; cbn; try done.
  - intros u Hu. apply T3. by apply (tables_upd_own t (store i 0 n) x).
  - intros u j Hj. rewrite Hfile. case_decide; [done |]. by apply T4.
  - intros u j w k Hj Hk. rewrite !Hfile. repeat case_decide; intros Hne Heq; first [congruence | by apply T5].
Qed.

Definition open_at s (t fd f : Z) : Prop := 0 <= fd < MAX_FDS /\ file (table_of t s) fd = f /\ f <> 0.

Lemma lookup_run s t fd : 0 <= fd -> exists e f, fdt_lookup t fd s = Some ((e, f), s) /\
  ((e = E_OK /\ open_at s t fd f) \/ (e = E_BADF /\ f = 0 /\ forall g, ~ open_at s t fd g)).
Proof.
  intros Hfd. unfold fdt_lookup. step_st. unfold FdTable.lookup. unfold open_at.
  destruct (Z.leb_spec MAX_FDS fd); [eexists _, _; split; [done |]; right; split_and!; [done | done | intros g ?; lia] |].
  destruct (Z.eqb_spec (file (table_of t s) fd) 0) as [E | E].
  - eexists _, _. split; [done |]. right. split_and!; [done | done |]. intros g (_ & <- & ?). done.
  - eexists _, _. split; [done |]. left. by split_and!.
Qed.

Lemma open_at_fd s t fd f : kernel_ok s -> open_at s t fd f -> is_Some (fds (fs s) !! f).
Proof. intros Hs (Hfd & <- & Hne). by apply open_files. Qed.

(** What [install] and [install_at] do: the file is in the slot that was free, or
    nothing changed. *)
Definition installed s s' (t f fd : Z) : Prop :=
  0 <= fd < MAX_FDS /\ file (table_of t s) fd = 0 /\ fs s' = fs s /\ has_table s' t /\
  (forall u j, file (table (ts (sch s')) u) j = if decide (t = u /\ fd = j) then f else file (table (ts (sch s)) u) j) /\
  (exists x, s' = put_table t x s).

Lemma has_put s t x u : has_table s t -> has_table (put_table t x s) u <-> has_table s u.
Proof. intros Ht. unfold has_table. cbn. by apply (tables_upd_own t (fun _ => x)). Qed.

Lemma put_loose s t f fd n : kernel_ok s -> has_table s t -> loose s f -> 0 <= fd < MAX_FDS -> file (table_of t s) fd = 0 ->
  kernel_ok (put_table t (store fd f n (table_of t s)) s) /\ installed s (put_table t (store fd f n (table_of t s)) s) t f fd.
Proof.
  intros Hs Ht [Hf Hl] Hfd Hfree. split.
  - apply kernel_put_table; [done | done |]. intros own Hok. by apply (put_ok foreign_close (ts (sch s)) own t fd f (fun _ => n)).
  - split_and!; try done; [lia | lia | by apply has_put | | by eexists].
    intros u j. rewrite file_put. unfold table_of. destruct (decide (t = u)) as [-> |].
    + rewrite file_store. by apply decide_ext; split; [| intros [_ ?]].
    + by rewrite decide_False by (by intros [? _]).
Qed.

Lemma loose_nonzero s f : kernel_ok s -> loose s f -> f <> 0.
Proof. intros Hs [Hf _]. by apply (open_fd_nonzero ∅ (fs s) f (kernel_fs s Hs)). Qed.

Lemma install_run s t f : kernel_ok s -> has_table s t -> loose s f ->
  exists fd s', fdt_install t f s = Some (fd, s') /\ kernel_ok s' /\
    ((fd = E_NOSPACE /\ s' = s /\ forall j, 3 <= j < MAX_FDS -> file (table_of t s) j <> 0) \/
     (3 <= fd /\ installed s s' t f fd /\ forall j, 3 <= j < fd -> file (table_of t s) j <> 0)).
Proof.
  intros Hs Ht Hf. unfold fdt_install. step_st. unfold install. rewrite (proj2 (Z.eqb_neq f 0)) by by apply (loose_nonzero s).
  destruct (find_range FD_OFFSET MAX_FDS _) as [i |] eqn:Hfind; cbn [fst snd].
  - apply find_range_Some in Hfind as (Hi & Hfree & Hbefore). apply Z.eqb_eq in Hfree. unfold FD_OFFSET, MAX_FDS in *.
    destruct (put_loose s t f i (u32 (count (table_of t s) + 1)) Hs Ht Hf) as [Hok Hin]; [unfold MAX_FDS; lia | done |].
    eexists _, _. split; [done |]. split; [done |]. right. split_and!; [lia | done |]. intros j Hj. by apply Z.eqb_neq, Hbefore.
  - rewrite find_range_None in Hfind. rewrite put_same by done. eexists _, _. split; [done |]. split; [done |]. left.
    split_and!; [done | done |]. unfold FD_OFFSET, MAX_FDS in *. intros j Hj. by apply Z.eqb_neq, Hfind.
Qed.

Lemma install_at_run s t f fd : kernel_ok s -> has_table s t -> loose s f ->
  exists r s', fdt_install_at t f fd s = Some (r, s') /\ kernel_ok s' /\
    ((r = E_BADF /\ s' = s /\ (~ 0 <= fd \/ MAX_FDS <= u32 fd \/ file (table_of t s) (u32 fd) <> 0)) \/ (r = fd /\ 0 <= fd /\ installed s s' t f (u32 fd))).
Proof.
  intros Hs Ht Hf. unfold fdt_install_at. step_st. unfold install_at. rewrite (proj2 (Z.eqb_neq f 0)) by by apply (loose_nonzero s).
  destruct (Z.ltb_spec fd 0); cbn [fst snd]; [rewrite put_same by done; eexists _, _; split_and!; [done | done |]; left; split_and!; [done | done |]; lia |].
  destruct (Z.leb_spec MAX_FDS (u32 fd)); cbn [fst snd]; [rewrite put_same by done; eexists _, _; split_and!; [done | done |]; left; split_and!; [done | done |]; lia |].
  destruct (Z.eqb_spec (file (table_of t s) (u32 fd)) 0) as [E | E]; cbn [negb fst snd].
  - destruct (put_loose s t f (u32 fd) (u32 (count (table_of t s) + 1)) Hs Ht Hf) as [Hok Hin]; [pose proof (u32_bound fd); mach; lia | done |].
    eexists _, _. split; [done |]. split; [done |]. by right.
  - rewrite put_same by done. eexists _, _. split_and!; [done | done |]. left. split_and!; [done | done |]. by right; right.
Qed.

(** [remove] takes a file out of its slot and leaves it loose. *)
Lemma remove_run s t fd : kernel_ok s -> has_table s t -> 0 <= fd ->
  exists e f s', fdt_remove t fd s = Some ((e, f), s') /\ kernel_ok s' /\ has_table s' t /\ fs s' = fs s /\
    ((e = E_BADF /\ s' = s /\ forall g, ~ open_at s t fd g) \/
     (e = E_OK /\ open_at s t fd f /\ loose s' f /\ (exists x, s' = put_table t x s) /\
      forall u j, file (table (ts (sch s')) u) j = if decide (t = u /\ fd = j) then 0 else file (table (ts (sch s)) u) j)).
Proof.
  intros Hs Ht Hfd. unfold fdt_remove. step_st. unfold remove.
  destruct (Z.leb_spec MAX_FDS fd); cbn [fst snd].
  { rewrite put_same by done. eexists _, _, _. split; [done |]. split_and!; try done. left. split_and!; try done. intros g [? _]. lia. }
  destruct (Z.eqb_spec (file (table_of t s) fd) 0) as [E | E]; cbn [fst snd].
  { rewrite put_same by done. eexists _, _, _. split; [done |]. split_and!; try done. left. split_and!; try done. by intros g (_ & <- & ?). }
  set (x := store fd 0 _ _). assert (forall u j, file (table (ts (sch (put_table t x s))) u) j =
    if decide (t = u /\ fd = j) then 0 else file (table (ts (sch s)) u) j) as Hfile.
  { intros u j. rewrite file_put. unfold x, table_of. destruct (decide (t = u)) as [-> |].
    - rewrite file_store. by apply decide_ext; split; [| intros [_ ?]].
    - by rewrite decide_False by (by intros [? _]). }
  eexists _, _, _. split; [done |]. split_and!.
  - apply kernel_put_table; [done | done |]. intros own Hok. by apply (take_ok (ts (sch s)) own t fd).
  - by apply has_put.
  - done.
  - right. split_and!; [done | by split_and! | | by eexists | done]. split; [by apply (open_files s t fd Hs) |].
    intros u j Hj. rewrite Hfile. case_decide as Hd; [done |]. intros Heq. apply Hd.
    destruct Hs as (own & r & l & zl & Hv). pose proof (tb_private _ _ (rs_tables _ _ (proj2 Hv)) t fd u j) as Hp.
    apply Hp; try done.
Qed.

Lemma loose_put_fs s v f : loose s f -> is_Some (fds v !! f) -> loose (put_fs v s) f.
Proof. intros [_ Hl] Hf. by split. Qed.

(** Closing a loose file. *)
Lemma close_loose s f : kernel_ok s -> loose s f ->
  exists v, close_file foreign_close f s = Some (tt, put_fs v s) /\ kernel_ok (put_fs v s) /\ fds v = delete f (fds (fs s)).
Proof.
  intros Hs Hf. pose proof Hs as (own & r & l & zl & Hv). pose proof (rs_tables _ _ (proj2 Hv)) as Ht.
  destruct (close_own foreign_close (fs s) own f (tb_mem _ _ Ht) (tb_obj _ _ Ht) (proj1 Hf)) as (v & own' & Hrun & Hm & Ho & Hfds & Hk).
  exists v. split; [unfold close_file, on_fs, run_on; by rewrite Hrun |]. split; [| done].
  destruct (tables_vfs (ts (sch s)) own v Ht) as (own2 & Ht2 & Hk2).
  - by exists own'.
  - intros u j Hj Hne. rewrite Hfds, lookup_delete_ne by (apply not_eq_sym; by apply (proj2 Hf)). by apply open_files.
  - exists own2, r, l, zl. by apply (valid_ts (sch s) own).
Qed.

(** ** Every handler returns and keeps the invariant *)

Definition safe {A} (m : St kstate A) s : Prop := exists x s', m s = Some (x, s') /\ kernel_ok s'.

Lemma safe_ret {A} (x : A) s : kernel_ok s -> safe (mret x) s.
Proof. intros Hs. by exists x, s. Qed.

Lemma safe_bind {A B} (m : St kstate A) (k : A -> St kstate B) s x s' : m s = Some (x, s') -> safe (k x) s' -> safe (m ≫= k) s.
Proof. intros Hm (y & s2 & Hk & Hok). exists y, s2. by rewrite (bind_Some _ _ _ _ _ Hm). Qed.

Lemma safe_gets {A B} (f : kstate -> A) (k : A -> St kstate B) s : safe (k (f s)) s -> safe (gets f ≫= k) s.
Proof. apply safe_bind. done. Qed.

Lemma safe_modify {B} (f : kstate -> kstate) (k : unit -> St kstate B) s : safe (k tt) (f s) -> safe (modify f ≫= k) s.
Proof. apply safe_bind. done. Qed.

Lemma current_table s : kernel_ok s -> current_fdt s <> 0 -> has_table s (current_fdt s).
Proof.
  intros (own & r & l & zl & Hq & Hr) Hf. unfold current_fdt in *. destruct (negb _); [| done]. unfold current, task in *.
  destruct (tasks (sch s) !! _) as [v |] eqn:Hv; [| done]. by apply (rs_fd _ _ Hr _ v Hv).
Qed.

(** With a descriptor table, or without one. *)
Lemma safe_table (k : Z -> St kstate Z) s : kernel_ok s -> (forall t, t = current_fdt s -> t <> 0 -> has_table s t -> safe (k t) s) ->
  safe (fdt ← gets current_fdt; if fdt =? 0 then mret E_BADF else k fdt) s.
Proof.
  intros Hs Hk. apply safe_gets. destruct (Z.eqb_spec (current_fdt s) 0) as [E | E]; [by apply safe_ret |].
  apply Hk; [done | done | by apply current_table].
Qed.

(** With an open file, or without one. *)
Lemma safe_lookup (k : Z -> St kstate Z) s t fd : kernel_ok s -> 0 <= fd -> (forall f, open_at s t fd f -> is_Some (fds (fs s) !! f) -> safe (k f) s) ->
  safe ('(e, f) ← fdt_lookup t fd; if negb (e =? 0) then mret e else k f) s.
Proof.
  intros Hs Hfd Hk. destruct (lookup_run s t fd Hfd) as (e & f & Hrun & He). apply (safe_bind _ _ _ _ _ Hrun).
  destruct He as [[-> Ho] | (-> & _)]; [| by apply safe_ret]. cbn [negb Z.eqb E_OK]. apply Hk; [done | by apply (open_at_fd s t fd)].
Qed.

(** A file that was just opened: into a slot, or closed again. *)
Lemma safe_install s t f : kernel_ok s -> has_table s t -> loose s f ->
  safe (fd ← fdt_install t f; if fd <? 0 then (close_file foreign_close f ;; mret E_NOSPACE) else mret fd) s.
Proof.
  intros Hs Ht Hf. destruct (install_run s t f Hs Ht Hf) as (fd & s' & Hrun & Hs' & Hr). apply (safe_bind _ _ _ _ _ Hrun).
  destruct Hr as [(-> & -> & _) | (H3 & _)].
  - cbn [Z.ltb Z.compare E_NOSPACE]. destruct (close_loose s f Hs Hf) as (v & Hc & Hok & _). apply (safe_bind _ _ _ _ _ Hc). by apply safe_ret.
  - rewrite (proj2 (Z.ltb_ge fd 0)) by lia. by apply safe_ret.
Qed.

(** A file that was not open before is loose. *)
Lemma fresh_loose s v f : kernel_ok s -> fds (fs s) !! f = None -> is_Some (fds v !! f) -> f <> 0 -> loose (put_fs v s) f.
Proof.
  intros Hs Hnone Hf Hf0. split; [done |]. intros u j Hj Heq. cbn in Heq.
  assert (is_Some (fds (fs s) !! f)) as Hs2 by (rewrite <- Heq; apply open_files; [done | done |]; intros E; apply Hf0; rewrite <- Heq; exact E). rewrite Hnone in Hs2. by destruct Hs2.
Qed.

Lemma handle_read_ok a s : kernel_ok s -> 0 <= arg0 a ->
  (forall f, open_at s (current_fdt s) (arg0 a) f -> ready_to_read f (arg2 a) (fs s)) -> safe (handle_read foreign_read a) s.
Proof.
  intros Hs Ha Hready. unfold handle_read. destruct (_ || _); [by apply safe_ret |].
  apply safe_table; [done |]. intros t Et _ _. subst t. apply safe_lookup; [done | done |]. intros f Ho Hf.
  destruct (on_fs_ok (Vfs.read foreign_read f (arg2 a)) s (fun _ _ => True) Hs) as (r & v & Hrun & Hok & _).
  { intros base Hb. destruct (read_from foreign_read base (fs s) f (arg2 a) Hb Hf (Hready f Ho)) as (r & v & Hr & Hfs & Hm).
    exists r, v. split_and!; try done. intros g. by apply (fd_moved_dom (fs s) v f g Hm Hf). }
  apply (safe_bind _ _ _ _ _ Hrun). destruct r as [x | e]; [| by apply safe_ret]. by apply safe_modify, safe_ret.
Qed.

Lemma length_user_bytes s a n : 0 <= n -> Z.of_nat (length (user_bytes s a n)) = n.
Proof. intros Hn. unfold user_bytes. rewrite length_fmap, length_seqZ. lia. Qed.

Lemma handle_write_ok a s : kernel_ok s -> 0 <= arg0 a -> 0 <= arg2 a ->
  (forall f, open_at s (current_fdt s) (arg0 a) f -> room_to_write f (arg2 a) (fs s)) -> safe (handle_write foreign_write a) s.
Proof.
  intros Hs Ha Hlen Hroom. unfold handle_write. destruct (arg1 a =? 0); [by apply safe_ret |].
  assert (exists s1, when (arg0 a =? FD_STDERR) (modify (fun s => set_serial (serial s ++ user_bytes s (arg1 a) (arg2 a)) s)) s = Some (tt, s1) /\
    sch s1 = sch s /\ umem s1 = umem s) as (s1 & Hrun1 & Hsch & Hum) by (destruct (arg0 a =? FD_STDERR); by eexists).
  apply (safe_bind _ _ _ _ _ Hrun1).
  assert (kernel_ok s1) as Hs1 by (unfold kernel_ok; by rewrite Hsch). assert (fs s1 = fs s) as Hfs1 by (unfold fs; by rewrite Hsch).
  apply safe_table; [done |]. intros t Et _ _. subst t. apply safe_lookup; [done | done |]. intros f Ho Hf. apply safe_gets.
  destruct (on_fs_ok (Vfs.write foreign_write f (user_bytes s1 (arg1 a) (arg2 a))) s1 (fun _ _ => True) Hs1) as (r & v & Hrun & Hok & _).
  { intros base Hb. destruct (write_from foreign_write base (fs s1) f (user_bytes s1 (arg1 a) (arg2 a)) Hb Hf) as (r & v & Hr & Hfs & Hm).
    - rewrite length_user_bytes, Hfs1 by done. apply Hroom. destruct Ho as (? & <- & ?). unfold open_at, table_of, current_fdt, current in *. by rewrite Hsch in *.
    - exists r, v. split_and!; try done. intros g. by apply (fd_moved_dom (fs s1) v f g Hm Hf). }
  apply (safe_bind _ _ _ _ _ Hrun). by apply safe_ret.
Qed.

Lemma handle_open_ok a s : kernel_ok s -> (length (user_string s (arg0 a)) <= 255)%nat -> safe (handle_open foreign_close foreign_create a) s.
Proof.
  intros Hs Hlen. unfold handle_open. destruct (arg0 a =? 0); [by apply safe_ret |].
  apply safe_table; [done |]. intros t _ _ Ht. apply safe_gets. set (path := user_string s (arg0 a)) in *.
  destruct (on_fs_ok (Vfs.open foreign_create path (arg1 a)) s (fun r v => match r with Ok f => loose (put_fs v s) f | Err _ => True end) Hs)
    as (r & v & Hrun & Hok & _ & HQ).
  { intros base Hb. destruct (open_from foreign_create base (fs s) path (arg1 a) Hb Hlen) as (r & v & Hr & Hfs & Hm). exists r, v.
    split_and!; try done; destruct r as [f | e]; rewrite ?Hm; try done; destruct Hm as (Hnone & d & E & _).
    - intros g Hg. rewrite E, lookup_insert. by case_decide; [eexists |].
    - assert (is_Some (fds v !! f)) as Hf by (rewrite E, lookup_insert_eq; by eexists).
      apply fresh_loose; [done | done | done | by apply (open_fd_nonzero base v)]. }
  apply (safe_bind _ _ _ _ _ Hrun). destruct r as [f | e]; [| by apply safe_ret]. by apply safe_install.
Qed.

Lemma handle_close_ok a s : kernel_ok s -> 0 <= arg0 a -> safe (handle_close foreign_close a) s.
Proof.
  intros Hs Ha. unfold handle_close. apply safe_table; [done |]. intros t _ _ Ht.
  destruct (remove_run s t (arg0 a) Hs Ht Ha) as (e & f & s1 & Hrun & Hs1 & _ & _ & Hr). apply (safe_bind _ _ _ _ _ Hrun).
  destruct Hr as [(-> & _) | (-> & _ & Hl & _)]; [by apply safe_ret |]. cbn [negb Z.eqb E_OK].
  destruct (close_loose s1 f Hs1 Hl) as (v & Hc & Hok & _). apply (safe_bind _ _ _ _ _ Hc). by apply safe_ret.
Qed.

Lemma handle_seek_ok a s : kernel_ok s -> 0 <= arg0 a -> safe (handle_seek a) s.
Proof.
  intros Hs Ha. unfold handle_seek. apply safe_table; [done |]. intros t _ _ Ht. apply safe_lookup; [done | done |]. intros f Ho Hf.
  destruct (on_fs_ok (Vfs.seek f (i64 (arg1 a)) (arg2 a)) s (fun _ _ => True) Hs) as (r & v & Hrun & Hok & _).
  { intros base Hb. destruct (seek_from base (fs s) f (i64 (arg1 a)) (arg2 a) Hb Hf) as (r & v & Hr & Hfs & Hm). exists r, v.
    split_and!; try done. intros g Hg. destruct r; [destruct Hm as [-> _] | by subst v]. rewrite lookup_insert. by case_decide; [eexists |]. }
  apply (safe_bind _ _ _ _ _ Hrun). by apply safe_ret.
Qed.

Lemma fill_stat_run out v s : exists m, fill_stat out v s = Some (tt, set_umem m s).
Proof. eexists. unfold fill_stat, store_user. step_st. done. Qed.

Lemma resolve_run s path : kernel_ok s -> exists r, on_fs (Vfs.resolve path) s = Some (r, put_fs (fs s) s) /\
  kernel_ok (put_fs (fs s) s) /\ match r with Ok n => is_Some (nodes (fs s) !! n) | Err _ => True end.
Proof.
  intros Hs. destruct (lookup_total (fs s) path (fs_from_tree ∅ _ (kernel_fs s Hs))) as (n & Hres & Hn).
  exists (if n =? 0 then Err NotFound else Ok n). split_and!.
  - unfold on_fs, run_on, resolve, Vfs.lookup, mbind, M_bind, bind, mbind, option_bind. rewrite Hres. done.
  - by destruct s as [[[]]].
  - destruct (Z.eqb_spec n 0); [done |]. by destruct Hn.
Qed.

Lemma handle_stat_ok a s : kernel_ok s -> safe (handle_stat a) s.
Proof.
  intros Hs. unfold handle_stat. destruct (_ || _); [by apply safe_ret |]. apply safe_gets.
  destruct (resolve_run s (user_string s (arg0 a)) Hs) as (r & Hrun & Hok & _). apply (safe_bind _ _ _ _ _ Hrun).
  destruct r as [n | e]; [| by apply safe_ret]. apply safe_gets.
  destruct (fill_stat_run (arg1 a) (nd (fs (put_fs (fs s) s)) n) (put_fs (fs s) s)) as (m & Hf). apply (safe_bind _ _ _ _ _ Hf). by apply safe_ret.
Qed.

Lemma handle_fstat_ok a s : kernel_ok s -> 0 <= arg0 a -> safe (handle_fstat a) s.
Proof.
  intros Hs Ha. unfold handle_fstat. apply safe_table; [done |]. intros t _ _ Ht. apply safe_lookup; [done | done |]. intros f Ho Hf.
  destruct (arg1 a =? 0); [by apply safe_ret |]. apply safe_gets.
  destruct (fill_stat_run (arg1 a) (nd (fs s) (node (Vfs.fd (fs s) f))) s) as (m & Hr). apply (safe_bind _ _ _ _ _ Hr). by apply safe_ret.
Qed.

Lemma handle_readdir_ok a s : kernel_ok s -> 0 <= arg0 a -> safe (handle_readdir foreign_readdir a) s.
Proof.
  intros Hs Ha. unfold handle_readdir. apply safe_table; [done |]. intros t _ _ Ht. apply safe_lookup; [done | done |]. intros f Ho Hf.
  destruct (arg1 a =? 0); [by apply safe_ret |].
  destruct (on_fs_ok (Vfs.readdir foreign_readdir f) s (fun _ _ => True) Hs) as (r & v & Hrun & Hok & _).
  { intros base Hb. destruct (readdir_from foreign_readdir base (fs s) f Hb Hf) as (r & v & Hr & Hfs & Hm). exists r, v.
    split_and!; try done. intros g. by apply (fd_moved_dom (fs s) v f g Hm Hf). }
  apply (safe_bind _ _ _ _ _ Hrun). destruct r as [d | e]; [| by apply safe_ret].
  eapply safe_bind; [unfold put_dirent, store_user; step_st; done |]. by apply safe_ret.
Qed.

Lemma handle_mkdir_ok a s : kernel_ok s -> (length (user_string s (arg0 a)) <= 255)%nat -> safe (handle_mkdir foreign_create a) s.
Proof.
  intros Hs Hlen. unfold handle_mkdir. destruct (arg0 a =? 0); [by apply safe_ret |]. apply safe_gets.
  destruct (on_fs_ok (Vfs.mkdir foreign_create (user_string s (arg0 a))) s (fun _ _ => True) Hs) as (r & v & Hrun & Hok & _).
  { intros base Hb. destruct (mkdir_from foreign_create base (fs s) _ Hb Hlen) as (r & v & Hr & Hfs & E). exists r, v. by rewrite E. }
  apply (safe_bind _ _ _ _ _ Hrun). by apply safe_ret.
Qed.

Lemma handle_unlink_ok a s : kernel_ok s -> resolve_internal (user_string s (arg0 a)) (fs s) <> Some tty_ptr -> safe (handle_unlink foreign_unlink a) s.
Proof.
  intros Hs Htty. unfold handle_unlink. destruct (arg0 a =? 0); [by apply safe_ret |]. apply safe_gets.
  destruct (on_fs_ok (Vfs.unlink foreign_unlink (user_string s (arg0 a))) s (fun _ _ => True) Hs) as (r & v & Hrun & Hok & _).
  { intros base Hb. destruct (unlink_from foreign_unlink base (fs s) _ Hb Htty) as (r & v & Hr & Hfs & E). exists r, v. split_and!; try done.
    destruct r; [destruct E as (n & _ & _ & _ & Hu); by rewrite (ul_fds _ _ _ Hu) | by subst v]. }
  apply (safe_bind _ _ _ _ _ Hrun). by apply safe_ret.
Qed.

(** A duplicate of an open file is loose. *)
Lemma dup_run s f : kernel_ok s -> is_Some (fds (fs s) !! f) ->
  exists r v, on_fs (Vfs.dup f) s = Some (r, put_fs v s) /\ kernel_ok (put_fs v s) /\
    match r with
    | Ok c => loose (put_fs v s) c /\ fds (fs s) !! c = None /\ fds v = <[c := Vfs.fd (fs s) f]> (fds (fs s))
    | Err _ => fds v = fds (fs s)
    end.
Proof.
  intros Hs Hf. destruct (on_fs_ok (Vfs.dup f) s (fun r v => match r with
    | Ok c => loose (put_fs v s) c /\ fds (fs s) !! c = None /\ fds v = <[c := Vfs.fd (fs s) f]> (fds (fs s))
    | Err _ => fds v = fds (fs s) end) Hs) as (r & v & Hrun & Hok & _ & HQ); [| by exists r, v].
  intros base Hb. destruct (dup_from base (fs s) f Hb Hf) as (r & v & Hr & Hfs & Hm). exists r, v.
  split_and!; [done | done | |]; destruct r as [c | e]; destruct Hm as [Hn E]; rewrite ?E; try done.
  - intros g Hg. rewrite lookup_insert. by case_decide; [eexists |].
  - assert (is_Some (fds v !! c)) as Hc by (rewrite E, lookup_insert_eq; by eexists).
    split; [| done]. apply fresh_loose; [done | done | done | by apply (open_fd_nonzero base v)].
Qed.

Lemma handle_dup_ok a s : kernel_ok s -> 0 <= arg0 a -> safe (handle_dup foreign_close a) s.
Proof.
  intros Hs Ha. unfold handle_dup. apply safe_table; [done |]. intros t _ _ Ht. apply safe_lookup; [done | done |]. intros f Ho Hf.
  destruct (dup_run s f Hs Hf) as (r & v & Hrun & Hok & Hr). apply (safe_bind _ _ _ _ _ Hrun).
  destruct r as [c | e]; [| by apply safe_ret]. apply safe_install; [done | done | apply Hr].
Qed.

Lemma handle_dup2_ok a s : kernel_ok s -> 0 <= arg0 a -> 0 <= arg1 a -> safe (handle_dup2 foreign_close a) s.
Proof.
  intros Hs Ha Hb. unfold handle_dup2. apply safe_table; [done |]. intros t _ _ Ht. destruct (arg0 a =? arg1 a); [by apply safe_ret |].
  apply safe_lookup; [done | done |]. intros f Ho Hf.
  destruct (remove_run s t (arg1 a) Hs Ht Hb) as (e & g & s1 & Hrm & Hs1 & Ht1 & Hfs1 & _). apply (safe_bind _ _ _ _ _ Hrm).
  assert (exists s2, when (e =? 0) (close_file foreign_close 0) s1 = Some (tt, s2) /\ kernel_ok s2 /\ has_table s2 t /\ fs s2 = fs s1) as (s2 & Hw & Hs2 & Ht2 & Hfs2).
  { destruct (e =? 0); [| by exists s1]. exists (put_fs (fs s1) s1). split_and!; try done. by destruct s1 as [[[]]]. }
  apply (safe_bind _ _ _ _ _ Hw). rewrite <- Hfs1, <- Hfs2 in Hf.
  destruct (dup_run s2 f Hs2 Hf) as (r & v & Hrun & Hok & Hr). apply (safe_bind _ _ _ _ _ Hrun).
  destruct r as [c | er]; [| by apply safe_ret]. destruct Hr as [Hl _].
  destruct (install_at_run (put_fs v s2) t c (i32 (arg1 a)) Hok Ht2 Hl) as (fd & s3 & Hin & Hs3 & Hc). apply (safe_bind _ _ _ _ _ Hin).
  destruct Hc as [(-> & -> & _) | (-> & H0 & _)].
  - cbn [Z.ltb Z.compare E_BADF]. destruct (close_loose _ c Hok Hl) as (v' & Hcl & Hok' & _). apply (safe_bind _ _ _ _ _ Hcl). by apply safe_ret.
  - rewrite (proj2 (Z.ltb_ge (i32 (arg1 a)) 0)) by done. by apply safe_ret.
Qed.

(** A loose file stays so when another one goes into a slot. *)
Lemma loose_installed s s' t f g fd : installed s s' t f fd -> g <> f -> loose s g -> loose s' g.
Proof.
  intros (Hfd & _ & Hfs & _ & Hfile & _) Hne [Hg Hl]. split; [by rewrite Hfs |]. intros u j Hj. rewrite Hfile. case_decide; [done | by apply Hl].
Qed.

Lemma loose_closed s v f g : fds v = delete f (fds (fs s)) -> g <> f -> loose s g -> loose (put_fs v s) g.
Proof. intros E Hne [Hg Hl]. split; [| done]. cbn. unfold fs in *. cbn. rewrite E, lookup_delete_ne by done. done. Qed.

Lemma safe_close_two s f g (x : Z) : kernel_ok s -> loose s f -> loose s g -> g <> f ->
  safe (close_file foreign_close f ;; close_file foreign_close g ;; mret x) s.
Proof.
  intros Hs Hf Hg Hne. destruct (close_loose s f Hs Hf) as (v & Hc & Hok & E). apply (safe_bind _ _ _ _ _ Hc).
  destruct (close_loose (put_fs v s) g Hok) as (v2 & Hc2 & Hok2 & _); [by apply (loose_closed s v f) |].
  apply (safe_bind _ _ _ _ _ Hc2). by apply safe_ret.
Qed.

Lemma pipe_run s : kernel_ok s ->
  exists r v, on_fs Vfs.pipe s = Some (r, put_fs v s) /\ kernel_ok (put_fs v s) /\ pipe_result (fs s) r v /\
    match r with Ok (rf, wf) => loose (put_fs v s) rf /\ loose (put_fs v s) wf | Err _ => True end.
Proof.
  intros Hs. destruct (on_fs_ok Vfs.pipe s (fun r v => pipe_result (fs s) r v /\
    match r with Ok (rf, wf) => loose (put_fs v s) rf /\ loose (put_fs v s) wf | Err _ => True end) Hs) as (r & v & Hrun & Hok & _ & HQ);
    [| by exists r, v].
  intros base Hb. destruct (pipe_from base (fs s) Hb) as (r & v & Hr & Hfs & Hm). exists r, v.
  split_and!; [done | done | | done |]; destruct r as [[rf wf] | e]; try done.
  - destruct Hm as (_ & _ & _ & n & pb & _ & -> & _). intros g Hg. rewrite !lookup_insert. repeat case_decide; by eauto.
  - destruct Hm as [_ ->]. done.
  - destruct Hm as (Hne & N1 & N2 & n & pb & _ & E & _).
    assert (is_Some (fds v !! rf) /\ is_Some (fds v !! wf)) as [H1 H2] by (rewrite E, !lookup_insert; repeat case_decide; by eauto).
    split; apply fresh_loose; try done; by apply (open_fd_nonzero base v).
Qed.

(** The state after a pipe was made: both ends in slots, their numbers in memory. *)
Definition piped s s1 (p : Z) : Prop :=
  exists v rf wf rfd wfd sa sb, current_fdt s <> 0 /\ pipe_result (fs s) (Ok (rf, wf)) v /\ rf <> 0 /\ wf <> 0 /\
    installed (put_fs v s) sa (current_fdt s) rf rfd /\ installed sa sb (current_fdt s) wf wfd /\ 3 <= rfd /\ 3 <= wfd /\
    s1 = set_umem (put_bytes (space s) (p + 4) (le_bytes 4 (u32 wfd)) (put_bytes (space s) p (le_bytes 4 (u32 rfd)) (umem s))) sb.

Lemma installed_keeps s s' t f fd : installed s s' t f fd -> space s' = space s /\ umem s' = umem s /\ current_fdt s' = current_fdt s.
Proof. intros (_ & _ & _ & _ & _ & x & ->). done. Qed.

(** A pipe that gets no second slot is taken apart again. *)
Lemma safe_unpipe s0 s t rf wf rfd : kernel_ok s0 -> kernel_ok s -> installed s0 s t rf rfd -> loose s0 rf -> loose s0 wf -> wf <> rf ->
  safe (fdt_remove t (u64 rfd) ;; close_file foreign_close rf ;; close_file foreign_close wf ;; mret E_NOSPACE) s.
Proof.
  intros Hs0 Hs Hi Hrf Hwf Hne. pose proof (loose_installed _ _ _ _ wf _ Hi Hne Hwf) as Hwf1.
  pose proof Hi as (Hfd & _ & _ & Ht & Hfile1 & _). unfold MAX_FDS in Hfd. rewrite u64_small by (mach; lia).
  destruct (remove_run s t rfd Hs Ht) as (e & f & s2 & Hrm & Hs2 & _ & Hfs2 & Hr); [lia |]. apply (safe_bind _ _ _ _ _ Hrm).
  assert (file (table_of t s) rfd = rf) as Eg by (unfold table_of; rewrite Hfile1; by rewrite decide_True).
  pose proof (loose_nonzero s0 rf Hs0 Hrf). destruct Hr as [(_ & _ & Hno) | (_ & (_ & Ef & _) & Hlf & _ & Hfile)].
  { destruct (Hno rf). by split; [unfold MAX_FDS |]. }
  rewrite Eg in Ef. subst f. apply safe_close_two; try done. split; [rewrite Hfs2; apply Hwf1 |].
  intros u j Hj. rewrite Hfile. case_decide; [| by apply Hwf1]. apply not_eq_sym. by apply (loose_nonzero s).
Qed.

Lemma handle_pipe_run a s : kernel_ok s ->
  exists r s1, handle_pipe foreign_close a s = Some (r, s1) /\ kernel_ok s1 /\ (r = E_OK -> piped s s1 (arg0 a)).
Proof.
  intros Hs. assert (forall m : St kstate Z, safe m s -> (forall r s', m s = Some (r, s') -> r <> E_OK) ->
    exists r s1, m s = Some (r, s1) /\ kernel_ok s1 /\ (r = E_OK -> piped s s1 (arg0 a))) as Hfail.
  { intros m (r & s1 & Hm & Hok) Hr. exists r, s1. split_and!; [done | done |]. intros ->. by destruct (Hr E_OK s1). }
  unfold handle_pipe. destruct (arg0 a =? 0); [apply Hfail; [by apply safe_ret | by intros r s' [= <- _]] |].
  rewrite (bind_Some _ _ _ (current_fdt s) s) by done.
  destruct (Z.eqb_spec (current_fdt s) 0) as [E | E]; [apply Hfail; [by apply safe_ret | by intros r s' [= <- _]] |].
  pose proof (current_table s Hs E) as Ht. destruct (pipe_run s Hs) as (r & v & Hrun & Hok & Hp & Hl). rewrite (bind_Some _ _ _ _ _ Hrun).
  destruct r as [[rf wf] | e]; [| by eexists _, _]. destruct Hl as [Hrf Hwf]. pose proof Hp as (Hne & _).
  assert (forall m : St kstate Z, forall s2, safe m s2 -> (forall r s', m s2 = Some (r, s') -> r = E_NOSPACE) ->
    exists r s1, m s2 = Some (r, s1) /\ kernel_ok s1 /\ (r = E_OK -> piped s s1 (arg0 a))) as Hfail2.
  { intros m s2 (r & s1 & Hm & Hk) Hr. exists r, s1. split_and!; [done | done |]. intros ->. by apply Hr in Hm. }
  destruct (install_run (put_fs v s) (current_fdt s) rf Hok Ht Hrf) as (rfd & sa & Hin & Hsa & Hc). rewrite (bind_Some _ _ _ _ _ Hin).
  destruct Hc as [(-> & -> & _) | (H3 & Hi & _)].
  { cbn [Z.ltb Z.compare E_NOSPACE]. apply Hfail2; [by apply safe_close_two |]. intros r s'. unfold mbind, St_bind.
    destruct (close_file _ rf _) as [[] |]; [| done]. destruct (close_file _ wf _) as [[] |]; [| done]. by intros [= <- _]. }
  rewrite (proj2 (Z.ltb_ge rfd 0)) by lia. pose proof Hi as (_ & _ & _ & Ht1 & _).
  destruct (install_run sa (current_fdt s) wf Hsa Ht1 (loose_installed _ _ _ _ wf _ Hi ltac:(done) Hwf)) as (wfd & sb & Hin2 & Hsb & Hc2).
  rewrite (bind_Some _ _ _ _ _ Hin2). destruct Hc2 as [(-> & -> & _) | (H3' & Hi2 & _)].
  { cbn [Z.ltb Z.compare E_NOSPACE]. apply Hfail2; [by apply (safe_unpipe (put_fs v s)) |]. intros r s'. unfold mbind, St_bind.
    destruct (fdt_remove _ _ _) as [[] |]; [| done]. destruct (close_file _ rf _) as [[] |]; [| done].
    destruct (close_file _ wf _) as [[] |]; [| done]. by intros [= <- _]. }
  rewrite (proj2 (Z.ltb_ge wfd 0)) by lia. eexists _, _. split; [done |]. split; [done |]. intros _.
  destruct (installed_keeps _ _ _ _ _ Hi) as (E1 & E2 & _), (installed_keeps _ _ _ _ _ Hi2) as (E3 & E4 & _).
  exists v, rf, wf, rfd, wfd, sa, sb. split_and!; try done.
  - by apply (loose_nonzero (put_fs v s)).
  - by apply (loose_nonzero (put_fs v s)).
  - unfold set_umem. cbn. change (space (KState _ _ _ _ _ _ _ _ _ _ _)) with (space sb). by rewrite E3, E1, E4, E2.
Qed.

Lemma handle_pipe_ok a s : kernel_ok s -> safe (handle_pipe foreign_close a) s.
Proof. intros Hs. destruct (handle_pipe_run a s Hs) as (r & s1 & ? & ? & _). by exists r, s1. Qed.

Lemma handle_getcwd_ok a s : kernel_ok s -> safe (handle_getcwd a) s.
Proof.
  intros Hs. unfold handle_getcwd. destruct (_ || _); [by apply safe_ret |]. apply safe_gets, safe_modify. by eexists _, _.
Qed.

Lemma handle_chdir_ok a s : kernel_ok s -> safe (handle_chdir a) s.
Proof.
  intros Hs. unfold handle_chdir. destruct (arg0 a =? 0); [by apply safe_ret |]. apply safe_gets.
  destruct (resolve_run s (user_string s (arg0 a)) Hs) as (r & Hrun & Hok & Hn). apply (safe_bind _ _ _ _ _ Hrun).
  destruct r as [n | e]; [| by apply safe_ret]. apply safe_gets.
  destruct (Z.eqb_spec (type (nd (fs (put_fs (fs s) s)) n)) VFS_TYPE_DIR) as [E | E]; [| by apply safe_ret]. cbn [negb].
  eapply safe_bind; [done |]. apply safe_ret. apply (put_fs_ok (put_fs (fs s) s)); [done | |].
  - intros base Hb. by apply set_cwd_from.
  - intros u j Hj Hne. by apply (open_files (put_fs (fs s) s)).
Qed.

Lemma handle_reboot_ok a s : kernel_ok s -> safe (handle_reboot a) s.
Proof.
  intros Hs. unfold handle_reboot. destruct (_ || _); [by apply safe_ret |]. destruct (_ =? _); [by apply safe_modify, safe_ret |].
  destruct (_ =? LINUX_REBOOT_CMD_RESTART); [by apply safe_modify, safe_ret | by apply safe_ret].
Qed.

(** A call into the scheduler. *)
Lemma on_sched_ok c s : kernel_ok s -> SchedRun.allowed c (sch s) ->
  exists x, SchedRun.run_call raw foreign_close c (sch s) = Some (tt, x) /\ kernel_ok (set_sch x s).
Proof. apply sched_call_ok. Qed.

Lemma handle_spawn_ok a s : kernel_ok s -> safe (handle_spawn raw a) s.
Proof.
  intros Hs. unfold handle_spawn. apply safe_gets. set (nm := if negb (arg1 a =? 0) then user_string s (arg1 a) else [116; 97; 115; 107]).
  destruct (on_sched_ok (CSpawn (arg0 a) nm DEFAULT_STACK DEFAULT_QUANTUM) s Hs) as (s' & Hrun & Hok).
  { cbn. unfold DEFAULT_STACK, max_request. lia. }
  cbn [SchedRun.run_call] in Hrun. unfold mbind, St_bind in Hrun.
  destruct (Sched.spawn raw (arg0 a) nm DEFAULT_STACK DEFAULT_QUANTUM (sch s)) as [[r s1] |] eqn:Hsp; [| done].
  injection Hrun as <-. eapply safe_bind; [unfold on_sched, run_on; by rewrite Hsp |]. by apply safe_ret.
Qed.

Lemma preempt_ok s b : kernel_ok s -> kernel_ok (set_sch ((if b : bool then preempt_enable else preempt_disable) (sch s)) s).
Proof. intros Hs. destruct (on_sched_ok (CPreempt b) s Hs I) as (s' & Hrun & Hok). injection Hrun as <-. by destruct b. Qed.

Lemma handle_exit_ok a s : kernel_ok s -> current_task (sch s) <> idle_ptr -> safe (handle_exit foreign_close a) s.
Proof.
  intros Hs Hidle. unfold handle_exit. eapply safe_bind; [done |]. pose proof (preempt_ok s true Hs) as Hs1.
  destruct (on_sched_ok (CExit (i32 (arg0 a))) _ Hs1) as (s' & Hrun & Hok).
  { cbn. unfold preempt_enable. by destruct (0 <? _). }
  eapply safe_bind; [unfold on_sched, run_on; cbn [SchedRun.run_call] in Hrun; by rewrite Hrun |]. by apply safe_ret.
Qed.

(** ** Calls a program may make *)

(** The number is the one of a call in the table with conditions of its own: the
    arguments are machine words, paths fit the kernel's buffer, a read does not wait
    for the terminal forever, a RAM file stays below 16 TiB, the terminal device is
    not unlinked and the idle task does not exit. *)
Definition may_call (nr : Z) (a : SyscallArgs) s : Prop :=
  (0 <= arg0 a /\ 0 <= arg1 a /\ 0 <= arg2 a) /\
  (nr = number Read -> forall f, open_at s (current_fdt s) (arg0 a) f -> ready_to_read f (arg2 a) (fs s)) /\
  (nr = number Write -> forall f, open_at s (current_fdt s) (arg0 a) f -> room_to_write f (arg2 a) (fs s)) /\
  (nr = number Open \/ nr = number Mkdir -> (length (user_string s (arg0 a)) <= 255)%nat) /\
  (nr = number Unlink -> resolve_internal (user_string s (arg0 a)) (fs s) <> Some tty_ptr) /\
  (nr = number Exit \/ nr = number ExitGroup -> current_task (sch s) <> idle_ptr).

#[local] Abbreviation handler := (syscall_handler raw foreign_read foreign_write foreign_close foreign_create foreign_unlink foreign_readdir).
#[local] Abbreviation entry_point := (syscall_entry raw foreign_read foreign_write foreign_close foreign_create foreign_unlink foreign_readdir).
#[local] Abbreviation routes := (kRoutes raw foreign_read foreign_write foreign_close foreign_create foreign_unlink foreign_readdir).

Lemma safe_returns h a s : safe (h a) s -> safe (returns h a) s.
Proof. intros (r & s' & Hr & Hok). apply (safe_bind _ _ _ _ _ Hr). by apply safe_ret. Qed.

(** The route of a number. *)
Lemma dispatch_spec (l : list (Syscall * (SyscallArgs -> St kstate outcome))) nr a :
  (exists c h, (c, h) ∈ l /\ number c = nr /\ dispatch_routes l nr a = h a) \/
  ((forall c h, (c, h) ∈ l -> number c <> nr) /\ dispatch_routes l nr a = mret (Returns E_NOSYS)).
Proof.
  induction l as [| [c h] l IH]; cbn [dispatch_routes]; [right; split; [by intros c h ?%not_elem_of_nil | done] |].
  destruct (Z.eqb_spec (number c) nr) as [E | E]; [left; exists c, h; split_and!; [by left | done | done] |].
  destruct IH as [(c' & h' & ? & ? & ?) | [Hno ->]]; [left; exists c', h'; split_and!; [by right | done | done] | right].
  split; [| done]. intros c' h' [[= -> ->] | Hin]%elem_of_cons; [done | by apply (Hno c' h')].
Qed.

Lemma handler_ok nr a s : kernel_ok s -> may_call nr a s -> safe (handler nr (arg0 a) (arg1 a) (arg2 a) (arg3 a) (arg4 a)) s.
Proof.
  intros Hs (Hw & M1 & M2 & M3 & M4 & M5). destruct Hw as (W0 & W1 & W2). unfold syscall_handler.
  destruct a as [a0 a1 a2 a3 a4]. cbn [arg0 arg1 arg2 arg3 arg4] in *. set (a := Args a0 a1 a2 a3 a4). unfold dispatch_syscall.
  destruct (dispatch_spec routes nr a) as [(c & h & Hin & Hc & ->) | [_ ->]]; [| by apply safe_ret].
  subst nr.
  unfold kRoutes in Hin. rewrite !elem_of_cons in Hin.
  repeat (destruct Hin as [[= -> ->] | Hin]; [try apply safe_returns |]); [.. | by apply not_elem_of_nil in Hin].
  - apply handle_read_ok; auto.
  - apply handle_write_ok; auto.
  - apply handle_open_ok; auto.
  - by apply handle_close_ok.
  - by apply handle_stat_ok.
  - by apply handle_fstat_ok.
  - by apply handle_seek_ok.
  - by apply safe_ret.
  - by apply safe_ret.
  - by apply safe_modify, safe_ret.
  - apply handle_exit_ok; auto.
  - apply handle_exit_ok; auto.
  - by apply handle_readdir_ok.
  - apply handle_mkdir_ok; auto.
  - apply handle_unlink_ok; auto.
  - by eexists _, _.
  - by apply handle_spawn_ok.
  - by eexists _, _.
  - by apply handle_reboot_ok.
  - by apply handle_dup_ok.
  - by apply handle_dup2_ok.
  - by apply handle_pipe_ok.
  - by apply handle_getcwd_ok.
  - by apply handle_chdir_ok.
Qed.

(** ** Any sequence of system calls and timer interrupts *)

(** What the conditions of a call depend on. *)
Lemma may_call_ext nr a s s' : umem s' = umem s -> ts (sch s') = ts (sch s) -> tasks (sch s') = tasks (sch s) ->
  current_task (sch s') = current_task (sch s) -> may_call nr a s -> may_call nr a s'.
Proof.
  destruct s as [[] ? ? ? ? ? ? ? ? ? ?], s' as [[] ? ? ? ? ? ? ? ? ? ?]. cbn. intros -> -> -> -> Hm. exact Hm.
Qed.

Lemma entry_ok rip rsp rflags nr a s : kernel_ok s -> may_call nr a s -> safe (entry_point rip rsp rflags nr a) s.
Proof.
  intros Hs Hm. unfold syscall_entry. eapply safe_bind; [done |]. eapply safe_bind; [done |].
  set (s1 := set_sch _ _). assert (kernel_ok s1) as Hs1 by (by apply (preempt_ok (set_last rsp (rip, rsp, rflags) s) false)).
  destruct (handler_ok nr a s1 Hs1) as (o & s2 & Hrun & Hs2); [by apply (may_call_ext nr a s) |].
  apply (safe_bind _ _ _ _ _ Hrun). destruct o as [r |]; [| by apply safe_ret].
  eapply safe_bind; [done |]. pose proof (preempt_ok s2 true Hs2) as Hs3. cbn in Hs3. set (s3 := set_sch (preempt_enable (sch s2)) s2) in *.
  assert (exists e s4, consume_exec_pending s3 = Some (e, s4) /\ kernel_ok s4) as (e & s4 & He & Hs4).
  { unfold consume_exec_pending. step_st. destruct (exec_pending s3); by eexists _, _. }
  apply (safe_bind _ _ _ _ _ He), safe_gets. destruct (exec_user s4) as [[xrip xrsp] xfl].
  assert (exists s5, when (negb (e =? 0)) (modify (set_user_rsp xrsp)) s4 = Some (tt, s5) /\ kernel_ok s5) as (s5 & Hx & Hs5) by (destruct (negb _); by eexists).
  apply (safe_bind _ _ _ _ _ Hx).
  assert (exists y s6, consume_yield_pending s5 = Some (y, s6) /\ kernel_ok s6) as (y & s6 & Hy & Hs6).
  { unfold consume_yield_pending. step_st. destruct (yield_pending s5); by eexists _, _. }
  apply (safe_bind _ _ _ _ _ Hy).
  assert (exists s7, when (negb (y =? 0)) do_yield s6 = Some (tt, s7) /\ kernel_ok s7) as (s7 & Hd & Hs7).
  { destruct (negb (y =? 0)); [| by exists s6]. destruct (on_sched_ok CYield s6 Hs6 I) as (x & Hr & Hok). cbn in Hr.
    exists (set_sch x s6). split; [| done]. unfold when, do_yield, on_sched, run_on. by rewrite Hr. }
  apply (safe_bind _ _ _ _ _ Hd). by apply safe_ret.
Qed.

Lemma timer_ok s : kernel_ok s -> safe timer_handler s.
Proof.
  intros Hs. unfold timer_handler. eapply safe_bind; [done |]. eapply safe_bind; [done |]. set (s1 := set_ports _ _).
  destruct (on_sched_ok CTick s1 Hs I) as (x & Hr & Hok). cbn in Hr. exists tt, (set_sch x s1). split; [| done].
  unfold on_sched, run_on. change (sch s1) with (sch s). by rewrite Hr.
Qed.

(** The kernel is entered by the system calls of the running task and by the timer. *)
Inductive traps : kstate -> kstate -> Prop :=
  | traps_refl s : traps s s
  | traps_call s1 s2 s3 rip rsp rflags nr a o : traps s1 s2 -> may_call nr a s2 ->
      entry_point rip rsp rflags nr a s2 = Some (o, s3) -> traps s1 s3
  | traps_tick s1 s2 s3 : traps s1 s2 -> timer_handler s2 = Some (tt, s3) -> traps s1 s3.

Lemma traps_ok s s' : kernel_ok s -> traps s s' -> kernel_ok s'.
Proof.
  intros Hs Ht. induction Ht as [| s1 s2 s3 rip rsp rflags nr a o Ht IH Hm Hrun | s1 s2 s3 Ht IH Hrun]; [done | |].
  - destruct (entry_ok rip rsp rflags nr a s2 (IH Hs) Hm) as (o' & s' & Hr & Hok). by simplify_eq.
  - destruct (timer_ok s2 (IH Hs)) as (x & s' & Hr & Hok). by simplify_eq.
Qed.


(** ** User memory *)

Lemma put_bytes_lookup sp a l m q x : put_bytes sp a l m !! (q, x) =
  if decide (q = sp /\ a <= x < a + Z.of_nat (length l)) then l !! Z.to_nat (x - a) else m !! (q, x).
Proof.
  revert a m. induction l as [| b l IH]; intros a m; cbn [put_bytes length]; [by rewrite decide_False by lia |].
  rewrite IH. destruct (decide (q = sp /\ a + 1 <= x < a + 1 + Z.of_nat (length l))) as [Hx | Hx].
  - rewrite decide_True by lia. replace (Z.to_nat (x - a)) with (S (Z.to_nat (x - (a + 1)))) by lia. done.
  - destruct (decide (x = a /\ q = sp)) as [[-> ->] |].
    + rewrite lookup_insert_eq, decide_True by lia. by replace (a - a) with 0 by lia.
    + rewrite lookup_insert_ne by (intros E; simplify_eq; lia). rewrite decide_False by lia. done.
Qed.

Lemma ubyte_put s a l x : ubyte (set_umem (put_bytes (space s) a l (umem s)) s) x =
  if decide (a <= x < a + Z.of_nat (length l)) then at_index l (x - a) else ubyte s x.
Proof.
  unfold ubyte, at_index. change (space (set_umem _ s)) with (space s). cbn [umem set_umem]. rewrite put_bytes_lookup.
  repeat case_decide; try done; lia.
Qed.

(** A word read back from where it was stored, other words being kept. *)
Lemma uword_put s a w x : 0 <= w < 2 ^ 32 -> x = a \/ x + 4 <= a \/ a + 4 <= x ->
  read_le (ubyte (set_umem (put_bytes (space s) a (le_bytes 4 w) (umem s)) s)) x 4 = if decide (x = a) then w else read_le (ubyte s) x 4.
Proof.
  intros Hw Hx. case_decide as E.
  - subst x. rewrite (read_le_spec _ w); [apply Z.mod_small; done | lia |]. intros i Hi. change (Z.of_nat 4) with 4 in Hi.
    rewrite ubyte_put, length_le_bytes, decide_True by lia. unfold at_index. replace (a + i - a) with i by lia.
    rewrite le_bytes_lookup by lia. cbn. do 2 f_equal. lia.
  - apply read_le_ext. intros i Hi. rewrite ubyte_put, length_le_bytes, decide_False by lia. done.
Qed.

Lemma user_bytes_put s a l : user_bytes (set_umem (put_bytes (space s) a l (umem s)) s) a (Z.of_nat (length l)) = l.
Proof.
  unfold user_bytes. apply list_eq. intros i. rewrite list_lookup_fmap. destruct (decide (i < length l)%nat) as [Hi | Hi].
  - rewrite lookup_seqZ_lt by lia. cbn. rewrite ubyte_put, decide_True by lia. unfold at_index.
    replace (Z.to_nat (a + (0 + Z.of_nat i) - a)) with i by lia. by destruct (lookup_lt_is_Some_2 l i Hi) as [b ->].
  - rewrite lookup_seqZ_ge by lia. symmetry. apply lookup_ge_None. lia.
Qed.

(** ** Calls on an open file *)

Lemma lookup_open s t fd f : open_at s t fd f -> fdt_lookup t fd s = Some ((E_OK, f), s).
Proof.
  intros ([_ Hfd] & E & Hf). unfold fdt_lookup. step_st. unfold FdTable.lookup. rewrite (proj2 (Z.leb_gt MAX_FDS fd)) by done.
  by rewrite E, (proj2 (Z.eqb_neq f 0)).
Qed.

Lemma write_open s fd f buf n r v : current_fdt s <> 0 -> open_at s (current_fdt s) fd f -> buf <> 0 -> fd <> FD_STDERR ->
  Vfs.write foreign_write f (user_bytes s buf n) (fs s) = Some (Ok r, v) ->
  handle_write foreign_write (Args fd buf n 0 0) s = Some (r, put_fs v s).
Proof.
  intros Ht Ho Hb Hfd Hw. unfold handle_write. cbn [arg0 arg1 arg2]. rewrite (proj2 (Z.eqb_neq buf 0)), (proj2 (Z.eqb_neq fd FD_STDERR)) by done.
  cbn [when]. rewrite (bind_Some _ _ _ tt s) by done. rewrite (bind_Some _ _ _ (current_fdt s) s) by done.
  rewrite (proj2 (Z.eqb_neq _ 0)) by done. rewrite (bind_Some _ _ _ _ _ (lookup_open s _ fd f Ho)). cbn [Z.eqb negb E_OK].
  rewrite (bind_Some _ _ _ (user_bytes s buf n) s) by done. rewrite (bind_Some _ _ _ (Ok r) (put_fs v s)); [done |].
  unfold on_fs, run_on. by rewrite Hw.
Qed.

Lemma read_open s fd f buf n l v : current_fdt s <> 0 -> open_at s (current_fdt s) fd f -> buf <> 0 -> n <> 0 ->
  Vfs.read foreign_read f n (fs s) = Some (Ok l, v) ->
  handle_read foreign_read (Args fd buf n 0 0) s =
    Some (Z.of_nat (length l), set_umem (put_bytes (space (put_fs v s)) buf l (umem (put_fs v s))) (put_fs v s)).
Proof.
  intros Ht Ho Hb Hn Hr. unfold handle_read. cbn [arg0 arg1 arg2]. rewrite (proj2 (Z.eqb_neq buf 0)), (proj2 (Z.eqb_neq n 0)) by done. cbn [orb].
  rewrite (bind_Some _ _ _ (current_fdt s) s) by done. rewrite (proj2 (Z.eqb_neq _ 0)) by done.
  rewrite (bind_Some _ _ _ _ _ (lookup_open s _ fd f Ho)). cbn [Z.eqb negb E_OK].
  rewrite (bind_Some _ _ _ (Ok l) (put_fs v s)); [done |]. unfold on_fs, run_on. by rewrite Hr.
Qed.

(** The ends of a pipe and their numbers. *)
Lemma piped_ends s s1 p : piped s s1 p ->
  exists rf wf q, current_fdt s1 <> 0 /\
    open_at s1 (current_fdt s1) (read_le (ubyte s1) p 4) rf /\ open_at s1 (current_fdt s1) (read_le (ubyte s1) (p + 4) 4) wf /\
    read_le (ubyte s1) p 4 <> read_le (ubyte s1) (p + 4) 4 /\ 3 <= read_le (ubyte s1) (p + 4) 4 /\ rf <> wf /\
    pipe_fd (fs s1) rf q (Vfs.Pipe ∅ 0 0 0 2) /\ pipe_fd (fs s1) wf q (Vfs.Pipe ∅ 0 0 0 2) /\
    flags (Vfs.fd (fs s1) rf) = VFS_READ /\ flags (Vfs.fd (fs s1) wf) = VFS_WRITE.
Proof.
  intros (v & rf & wf & rfd & wfd & sa & sb & Ht & Hp & R0 & W0 & Ia & Ib & H3 & H3' & ->).
  destruct (installed_keeps _ _ _ _ _ Ia) as (A1 & A2 & A3), (installed_keeps _ _ _ _ _ Ib) as (B1 & B2 & B3).
  pose proof Ia as (Ra & _ & Fa & _ & Ta & _). pose proof Ib as (Rb & Zb & Fb & _ & Tb & _).
  destruct (pipe_result_fds (fs s) rf wf v R0 W0 Hp) as (q & P1 & P2 & _ & F1 & F2). pose proof Hp as (Hne & _).
  assert (rfd <> wfd) as Hnum.
  { intros <-. unfold table_of in Zb. rewrite Ta, decide_True in Zb by done. by apply R0. }
  set (m := put_bytes _ _ _ _).
  unfold MAX_FDS in Ra, Rb.
  set (m1 := put_bytes (space s) p (le_bytes 4 (u32 rfd)) (umem s)) in *.
  assert (space s = space (set_umem m1 sb)) as Esp by (change (space (set_umem m1 sb)) with (space sb); by rewrite B1, A1).
  assert (set_umem m sb = set_umem (put_bytes (space (set_umem m1 sb)) (p + 4) (le_bytes 4 (u32 wfd)) (umem (set_umem m1 sb))) (set_umem m1 sb)) as Em
    by (unfold m; rewrite Esp; done).
  assert (set_umem m1 sb = set_umem (put_bytes (space sb) p (le_bytes 4 (u32 rfd)) (umem sb)) sb) as Em1
    by (unfold m1; rewrite B2, A2; by rewrite B1, A1).
  assert (read_le (ubyte (set_umem m sb)) (p + 4) 4 = wfd) as Ew.
  { rewrite Em, uword_put, decide_True; [apply u32_small; mach; lia | done | apply u32_bound | by left]. }
  assert (read_le (ubyte (set_umem m sb)) p 4 = rfd) as Er.
  { rewrite Em, uword_put, decide_False; [| lia | apply u32_bound | lia].
    rewrite Em1, uword_put, decide_True; [apply u32_small; mach; lia | done | apply u32_bound | by left]. }
  change (current_fdt (set_umem m sb)) with (current_fdt sb). change (fs (set_umem m sb)) with (fs sb). rewrite Ew, Er, B3, A3.
  change (current_fdt (put_fs v s)) with (current_fdt s). exists rf, wf, q. rewrite Fb, Fa. change (fs (put_fs v s)) with v.
  unfold open_at, table_of. cbn [sch set_umem]. unfold MAX_FDS. split; [done |].
  rewrite !Tb, Ta, (decide_False (P := _ /\ wfd = rfd)), !decide_True by lia. split_and!; done || lia.
Qed.

(** C14: A pipe carries data between its ends.  When [pipe] returns success, the two
    words it stored are different open descriptors of the caller; [n] bytes, at most
    what the pipe holds, written to the second are all taken, and reading [n] bytes
    from the first then puts exactly these bytes into the reader's buffer. *)
Theorem pipe_delivers s p s1 buf dst n : kernel_ok s -> handle_pipe foreign_close (Args p 0 0 0 0) s = Some (E_OK, s1) ->
  buf <> 0 -> dst <> 0 -> 0 < n <= PIPE_BUF_SIZE ->
  let rfd := read_le (ubyte s1) p 4 in let wfd := read_le (ubyte s1) (p + 4) 4 in
  rfd <> wfd /\ exists s2 s3, handle_write foreign_write (Args wfd buf n 0 0) s1 = Some (n, s2) /\
    handle_read foreign_read (Args rfd dst n 0 0) s2 = Some (n, s3) /\ user_bytes s3 dst n = user_bytes s1 buf n.
Proof.
  intros Hs Hrun Hb Hd Hn. destruct (handle_pipe_run (Args p 0 0 0 0) s Hs) as (r & s' & Hrun' & _ & Hp). rewrite Hrun in Hrun'.
  injection Hrun' as <- <-. specialize (Hp eq_refl). cbn [arg0] in Hp. cbv zeta.
  destruct (piped_ends s s1 p Hp) as (rf & wf & q & Ht & Or & Ow & Hne & H3 & Hfne & Pr & Pw & Fr & Fw). split; [done |].
  set (src := user_bytes s1 buf n). assert (Z.of_nat (length src) = n) as Hlen by (apply length_user_bytes; lia).
  destruct (pipe_fd_write foreign_write (fs s1) wf q _ src Pw) as (v & Hw & Mw); [by rewrite Fw | by rewrite Fw |].
  assert (pipe_wf (Vfs.Pipe ∅ 0 0 0 2)) as Hwf by (by split).
  pose proof (pipe_put_spec _ src Hwf) as Hput. destruct (pipe_put src (Vfs.Pipe ∅ 0 0 0 2)) as [r b]. cbn [fst snd] in Hw, Mw.
  cbv zeta in Hput. change (pipe_contents (Vfs.Pipe ∅ 0 0 0 2)) with (@nil Z) in Hput. cbn [length Z.of_nat app] in Hput.
  replace (Z.min _ _) with n in Hput by lia. destruct Hput as (Hwf' & Hc & ->). rewrite (proj2 (Z.eqb_neq n 0)) in Hw by lia.
  rewrite take_ge in Hc by lia. pose proof (write_open s1 _ wf buf n n v Ht Ow Hb) as Hwrite. exists (put_fs v s1).
  assert (pipe_fd v rf q b) as Pr' by (by apply (pipe_fd_moved (fs s1) v wf rf q (Vfs.Pipe ∅ 0 0 0 2) b Mw)).
  destruct (pipe_fd_read foreign_read v rf q b n Pr') as (v2 & Hr & _).
  { assert (Vfs.fd v rf = Vfs.fd (fs s1) rf) as -> by (unfold Vfs.fd; by rewrite (pm_fds _ _ _ _ _ Mw) by done). by rewrite Fr. }
  pose proof (pipe_get_spec b n Hwf' ltac:(lia)) as Hget. destruct (pipe_get n b) as [l b2]. destruct Hget as (_ & -> & _).
  cbn [fst] in Hr. rewrite Hc, take_ge in Hr by lia. eexists. split; [apply Hwrite; [unfold FD_STDERR; lia | done] |].
  split; [rewrite (read_open (put_fs v s1) _ rf dst n src v2); try done; [by rewrite Hlen | lia] |].
  rewrite <- Hlen at 1. apply user_bytes_put.
Qed.

(** ** Errors *)

Lemma lookup_closed s t fd : 0 <= fd -> (forall f, ~ open_at s t fd f) -> fdt_lookup t fd s = Some ((E_BADF, 0), s).
Proof.
  intros Hfd Hno. destruct (lookup_run s t fd Hfd) as (e & f & Hrun & [[-> Ho] | (-> & -> & _)]); [by destruct (Hno f) | done].
Qed.

Lemma table_or_bad (k : Z -> St kstate Z) s : (current_fdt s <> 0 -> k (current_fdt s) s = Some (E_BADF, s)) ->
  (fdt ← gets current_fdt; if fdt =? 0 then mret E_BADF else k fdt) s = Some (E_BADF, s).
Proof.
  intros Hk. rewrite (bind_Some _ _ _ (current_fdt s) s) by done. destruct (Z.eqb_spec (current_fdt s) 0) as [E | E]; [done | by apply Hk].
Qed.

Lemma lookup_or_bad (k : Z -> St kstate Z) s t fd : 0 <= fd -> (forall f, ~ open_at s t fd f) ->
  ('(e, f) ← fdt_lookup t fd; if negb (e =? 0) then mret e else k f) s = Some (E_BADF, s).
Proof. intros Hfd Hno. by rewrite (bind_Some _ _ _ _ _ (lookup_closed s t fd Hfd Hno)). Qed.


Lemma dispatch_unique (l : list (Syscall * (SyscallArgs -> St kstate outcome))) c h a : NoDup (number <$> l.*1) -> (c, h) ∈ l ->
  dispatch_routes l (number c) a = h a.
Proof.
  induction l as [| [c' h'] l IH]; [by intros _ ?%not_elem_of_nil |]. rewrite !fmap_cons, NoDup_cons. cbn [fst]. intros [Hno Hnd] Hin.
  cbn [dispatch_routes]. apply elem_of_cons in Hin as [[= -> ->] | Hin]; [by rewrite Z.eqb_refl |].
  rewrite (proj2 (Z.eqb_neq (number c') (number c))); [by apply IH |]. intros E. apply Hno. rewrite E.
  apply list_elem_of_fmap. exists c. split; [done |]. apply list_elem_of_fmap. by exists (c, h).
Qed.

(** The dispatch table is a function of the call number: every number in
    [kRoutes] runs the handler listed with it, and every other number, [fork] and
    [execve] among them, returns [E_NOSYS] and changes nothing. *)
Theorem dispatch_numbers nr a s :
  (forall c h, (c, h) ∈ routes -> handler (number c) (arg0 a) (arg1 a) (arg2 a) (arg3 a) (arg4 a) s = h a s) /\
  (nr ∉ number <$> routes.*1 -> handler nr (arg0 a) (arg1 a) (arg2 a) (arg3 a) (arg4 a) s = Some (Returns E_NOSYS, s)) /\
  number Fork ∉ number <$> routes.*1 /\ number Execve ∉ number <$> routes.*1.
Proof.
  assert (NoDup (number <$> routes.*1)) as Hnd.
  { change (number <$> routes.*1) with [0; 1; 2; 3; 4; 5; 8; 9; 12; 24; 60; 231; 78; 83; 87; 186; 220; 228; 169; 32; 33; 22; 79; 80].
    apply (bool_decide_unpack _). by vm_compute. }
  destruct a as [a0 a1 a2 a3 a4]. unfold syscall_handler, dispatch_syscall. cbn [arg0 arg1 arg2 arg3 arg4]. set (a := Args a0 a1 a2 a3 a4). split_and!.
  - intros c h Hin. by rewrite (dispatch_unique routes c h a).
  - intros Hno. destruct (dispatch_spec routes nr a) as [(c & h & Hin & Hc & _) | [_ ->]]; [| done]. destruct Hno.
    apply list_elem_of_fmap. exists c. split; [done |]. apply list_elem_of_fmap. by exists (c, h).
  - by apply (bool_decide_unpack _); vm_compute.
  - by apply (bool_decide_unpack _); vm_compute.
Qed.

(** ** stat *)

Definition st_mode_of (v : VNode) : Z := (if type v =? VFS_TYPE_DIR then S_IFDIR else S_IFREG) .| S_IRWX.

(** The value of [l] stored at [a], or what was below it. *)
Definition over (a : Z) (l : list Z) (g : Z -> Z) (x : Z) : Z :=
  if decide (a <= x < a + Z.of_nat (length l)) then at_index l (x - a) else g x.

Lemma ubyte_over sp a l m s : sp = space s ->
  forall x, ubyte (set_umem (put_bytes sp a l m) s) x = over a l (ubyte (set_umem m s)) x.
Proof.
  intros -> x. unfold ubyte, over, at_index. change (space (set_umem _ s)) with (space s). cbn [umem set_umem]. rewrite put_bytes_lookup.
  change (space (set_umem m s)) with (space s). repeat case_decide; try done; lia.
Qed.

Lemma over_ext a l g g' x : (forall y, g y = g' y) -> over a l g x = over a l g' x.
Proof. intros E. unfold over. by case_decide. Qed.

Lemma fill_stat_spec out v s : exists s', fill_stat out v s = Some (tt, s') /\
  forall x, ubyte s' x = over (out + 64) (le_bytes 8 (u64 (fsize v + 511) / 512)) (over (out + 56) (le_bytes 8 512)
    (over (out + 24) (le_bytes 4 (st_mode_of v)) (over (out + 48) (le_bytes 8 (fsize v)) (over out (replicate sizeof_StatBuf 0) (ubyte s))))) x.
Proof.
  exists (set_umem (put_bytes (space s) (out + 64) (le_bytes 8 (u64 (fsize v + 511) / 512)) (put_bytes (space s) (out + 56) (le_bytes 8 512)
    (put_bytes (space s) (out + 24) (le_bytes 4 (st_mode_of v)) (put_bytes (space s) (out + 48) (le_bytes 8 (fsize v))
    (put_bytes (space s) out (replicate sizeof_StatBuf 0) (umem s)))))) s).
  split; [done |]. intros x. rewrite ubyte_over by done. apply over_ext. intros y. rewrite ubyte_over by done. apply over_ext. intros z.
  rewrite ubyte_over by done. apply over_ext. intros w. rewrite ubyte_over by done. apply over_ext. intros u. rewrite ubyte_over by done.
  apply over_ext. by destruct s.
Qed.

Lemma over_in a n w g x : a <= x < a + Z.of_nat n -> over a (le_bytes n w) g x = u8 (w .>> (8 * (x - a))).
Proof.
  intros Hx. unfold over. rewrite length_le_bytes, decide_True by done. unfold at_index. rewrite le_bytes_lookup by lia. cbn. do 2 f_equal. lia.
Qed.

Lemma over_out a n w g x : ~ a <= x < a + Z.of_nat n -> over a (le_bytes n w) g x = g x.
Proof. intros Hx. unfold over. by rewrite length_le_bytes, decide_False. Qed.

(** C35: [fstat] fills the structure of the Linux ABI.  For an open descriptor it
    succeeds, and the caller reads at the offsets of [st_size], [st_mode],
    [st_blksize] and [st_blocks] the size of the node, its type with all permissions,
    512, and the number of 512-byte blocks that cover the size; every other byte of
    the 144 is zero and no other byte of memory changes. *)
Theorem fstat_reports s fd f out : current_fdt s <> 0 -> open_at s (current_fdt s) fd f -> out <> 0 ->
  let v := nd (fs s) (node (Vfs.fd (fs s) f)) in
  0 <= fsize v < 2 ^ 63 ->
  exists s', handle_fstat (Args fd out 0 0 0) s = Some (E_OK, s') /\
    read_le (ubyte s') (out + 48) 8 = fsize v /\ read_le (ubyte s') (out + 24) 4 = st_mode_of v /\
    read_le (ubyte s') (out + 56) 8 = 512 /\ read_le (ubyte s') (out + 64) 8 = (fsize v + 511) / 512 /\
    (forall i, 0 <= i < 144 -> ~ 24 <= i < 28 -> ~ 48 <= i < 72 -> ubyte s' (out + i) = 0) /\
    (forall x, ~ out <= x < out + 144 -> ubyte s' x = ubyte s x).
Proof.
  intros Ht Ho Hout v Hv. destruct (fill_stat_spec out v s) as (s' & Hrun & Hb). exists s'. split.
  { unfold handle_fstat. cbn [arg0 arg1]. rewrite (bind_Some _ _ _ (current_fdt s) s), (proj2 (Z.eqb_neq _ 0)) by done.
    rewrite (bind_Some _ _ _ _ _ (lookup_open s _ fd f Ho)). cbn [Z.eqb negb E_OK]. rewrite (proj2 (Z.eqb_neq out 0)) by done.
    rewrite (bind_Some _ _ _ v s) by done. by rewrite (bind_Some _ _ _ _ _ Hrun). }
  change (2 ^ 63) with 9223372036854775808 in Hv. rewrite u64_small in Hb by (mach; lia).
  assert (0 <= (fsize v + 511) / 512 < 9223372036854775808) as Hq by (split; [apply Z.div_pos; lia | apply Z.div_lt_upper_bound; lia]).
  assert (0 <= st_mode_of v < 2 ^ 32) as Hmode by (unfold st_mode_of; by destruct (_ =? _)).
  assert (forall a n w, 0 <= w < 2 ^ (8 * Z.of_nat n) -> (forall i, 0 <= i < Z.of_nat n -> ubyte s' (out + a + i) = u8 (w .>> (8 * i))) ->
    read_le (ubyte s') (out + a) n = w) as Hread.
  { intros a n w Hw Hi. rewrite (read_le_spec _ w); [by apply Z.mod_small | lia | done]. }
  split_and!.
  - apply Hread; [change (2 ^ (8 * Z.of_nat 8)) with 18446744073709551616; lia |]. intros i Hi. rewrite Hb, !over_out, over_in by lia. do 3 f_equal. lia.
  - apply Hread; [done |]. intros i Hi. rewrite Hb, !over_out, over_in by lia. do 3 f_equal. lia.
  - apply Hread; [done |]. intros i Hi. rewrite Hb, over_out, over_in by lia. do 3 f_equal. lia.
  - apply Hread; [change (2 ^ (8 * Z.of_nat 8)) with 18446744073709551616; lia |]. intros i Hi. rewrite Hb, over_in by lia. do 3 f_equal. lia.
  - intros i Hi H1 H2. rewrite Hb, !over_out by lia. unfold over. rewrite length_replicate. change (Z.of_nat sizeof_StatBuf) with 144.
    rewrite decide_True by lia. unfold at_index. replace (out + i - out) with i by lia. unfold sizeof_StatBuf. by rewrite lookup_replicate_2 by lia.
  - intros x Hx. rewrite Hb, !over_out by lia. unfold over. rewrite length_replicate. change (Z.of_nat sizeof_StatBuf) with 144. by rewrite decide_False.
Qed.

(** ** dup2 *)

(** [dup2] over an open number does not close what was there: that descriptor stays
    open in no table, and its node can never be unlinked. *)
Lemma dup2_leaks s old new f g : kernel_ok s -> current_fdt s <> 0 -> old <> new ->
  open_at s (current_fdt s) old f -> open_at s (current_fdt s) new g ->
  exists r s', handle_dup2 foreign_close (Args old new 0 0 0) s = Some (r, s') /\ loose s' g.
Proof.
  intros Hs Ht Hne Ho Hg. pose proof (current_table s Hs Ht) as Htab. set (t := current_fdt s) in *.
  unfold handle_dup2. cbn [arg0 arg1]. rewrite (bind_Some _ _ _ t s), (proj2 (Z.eqb_neq _ 0)), (proj2 (Z.eqb_neq _ _) Hne) by done.
  rewrite (bind_Some _ _ _ _ _ (lookup_open s t old f Ho)). cbn [Z.eqb negb E_OK].
  pose proof (open_at_fd s t old f Hs Ho) as Hf.
  destruct (remove_run s t new Hs Htab ltac:(apply Hg)) as (e & g' & s1 & Hrm & Hs1 & Ht1 & Hfs1 & Hr). rewrite (bind_Some _ _ _ _ _ Hrm).
  destruct Hr as [(_ & _ & Hno) | (-> & Hg' & Hl & _)]; [by destruct (Hno g) |].
  assert (g' = g) as -> by (destruct Hg as (_ & <- & _), Hg' as (_ & <- & _); done). cbn [Z.eqb E_OK when].
  rewrite (bind_Some _ _ _ tt (put_fs (fs s1) s1)) by done. set (s2 := put_fs (fs s1) s1).
  assert (kernel_ok s2) as Hs2 by (by destruct s1 as [[[]]]). assert (loose s2 g) as Hl2 by (by apply loose_put_fs; [| apply Hl]).
  destruct (dup_run s2 f Hs2) as (r & v & Hrun & Hok & Hd); [change (fs s2) with (fs s1); by rewrite Hfs1 |]. rewrite (bind_Some _ _ _ _ _ Hrun).
  destruct r as [c | er]; [| eexists _, _; split; [done |]; apply loose_put_fs; [done | rewrite Hd; apply Hl2]].
  destruct Hd as (Hlc & Hnone & Hv). assert (g <> c) as Hgc by (intros ->; destruct (proj1 Hl2) as [d Hd]; congruence).
  assert (loose (put_fs v s2) g) as Hlg by (apply loose_put_fs; [done |]; rewrite Hv, lookup_insert_ne by done; apply Hl2).
  destruct (install_at_run (put_fs v s2) t c (i32 new) Hok Ht1 Hlc) as (fd & s3 & Hin & Hs3 & Hc). rewrite (bind_Some _ _ _ _ _ Hin).
  destruct Hc as [(-> & -> & _) | (-> & H0 & Hi)].
  - cbn [Z.ltb Z.compare E_BADF]. destruct (close_loose _ c Hok Hlc) as (v' & Hcl & _ & E). rewrite (bind_Some _ _ _ _ _ Hcl).
    eexists _, _. split; [done |]. by apply (loose_closed (put_fs v s2) v' c).
  - rewrite (proj2 (Z.ltb_ge (i32 new) 0)) by done. eexists _, _. split; [done |]. by apply (loose_installed (put_fs v s2) s3 t c g (u32 (i32 new))).
Qed.

(** ** getcwd *)

(** With a buffer of one byte [getcwd] writes past its end. *)
Lemma getcwd_overflows s : get_cwd (fs s) = vfs_root (fs s) -> length (build_path (get_cwd (fs s)) 1 (fs s) ++ [0]) = 2%nat.
Proof. intros ->. unfold build_path. rewrite Z.eqb_refl. by rewrite orb_true_r. Qed.

(** ** A task with a descriptor table *)

Lemma give_table (x : sstate (H := H)) own r l zl : valid x own r l zl -> fd_table (task x r) = 0 ->
  exists t y, FdTable.alloc (ts x) = Some (t, y) /\
    (t <> 0 -> exists own', valid (upd r (set_fd_table t) (set_ts y x)) own' r l zl).
Proof.
  intros [Hq Hr] Hf. destruct (fdt_alloc_ok (ts x) own (rs_tables _ _ Hr)) as (t & y & own' & Hrun & Hok & Hk & _ & Ht).
  exists t, y. split; [done |]. intros Ht0. destruct Ht as [[? _] | (_ & Hnone & Hnt & Htab)]; [done |]. exists own'.
  destruct (queues_member _ _ _ _ r Hq ltac:(by left)) as [v Hv]. assert (task x r = v) as Ev by (unfold task; by rewrite Hv).
  split.
  - apply queues_upd; [by apply (queues_same x) | by left | done | apply (q_alive _ _ _ _ Hq) |].
    intros Hin. pose proof (queues_nodup _ _ _ _ Hq) as Hnd. by apply NoDup_cons in Hnd as [[] _].
  - destruct Hr as [R1 R2 R3 R4 R5 R6].
    assert (forall p w, tasks (upd r (set_fd_table t) (set_ts y x)) !! p = Some w ->
      exists w0, tasks x !! p = Some w0 /\ assets p w = assets p w0 /\ (p = r /\ fd_table w = t \/ p <> r /\ w = w0)) as Hold.
    { intros p w. unfold upd. cbn [tasks set_tasks set_ts]. rewrite lookup_insert. case_decide as E; [| intros Hw; exists w; split_and!; [done | done | by right]].
      subst p. change (task (set_ts y x) r) with (task x r). rewrite Ev. intros [= <-]. exists v. split_and!; [done | done | by left]. }
    assert (forall p w, tasks x !! p = Some w -> fd_table w <> t) as Hfresh.
    { intros p w Hw E. subst t. pose proof (R5 p w Hw Ht0) as Hs. rewrite Hnt in Hs. by destruct Hs. }
    split; cbn [ts upd set_tasks set_ts]; [done | | | | |].
    + intros p w a (w0 & Hw0 & -> & _)%Hold Hi Ha. destruct (R2 p w0 a Hw0 Hi Ha) as [Ho Hn]. split; [by apply Hk |].
      rewrite Htab, lookup_insert_ne; [done |]. intros ->. congruence.
    + intros p w (w0 & Hw0 & -> & _)%Hold. by apply R3.
    + intros p w p' w' a (w0 & Hw0 & -> & _)%Hold (w0' & Hw0' & -> & _)%Hold. by apply (R4 p w0 p' w0').
    + intros p w (w0 & Hw0 & _ & [[-> ->] | [_ ->]])%Hold; [intros _; rewrite Htab, lookup_insert_eq; by eexists |].
      intros Hne. rewrite Htab, lookup_insert. case_decide; [by eexists | by apply (R5 p)].
    + intros p w p' w' (w0 & Hw0 & _ & [[-> E1] | [? ->]])%Hold (w0' & Hw0' & _ & [[-> E2] | [? ->]])%Hold Hne E; [done | | |].
      * destruct (Hfresh p' w0' Hw0'). congruence.
      * destruct (Hfresh p w0 Hw0). congruence.
      * by apply (R6 p w0 p' w0').
Qed.
End run.

(** ** A concrete system: the running task has a descriptor table *)

Section demo.
#[local] Abbreviation kstate := (Syscall.kstate (H := bump_vm)).

Definition no_read_vm (_ _ _ : Z) : Vfs.M (H := bump_vm) (kResult (list Z)) := ret (Err IOError).
Definition no_write_vm (_ _ : Z) (_ : list Z) : Vfs.M (H := bump_vm) (kResult Z) := ret (Err IOError).
Definition no_create_vm (_ : Z) (_ : list Z) (_ : Z) : Vfs.M (H := bump_vm) Z := ret 0.
Definition no_unlink_vm (_ : Z) (_ : list Z) : Vfs.M (H := bump_vm) kStatus := ret (Err IOError).
Definition no_readdir_vm (_ _ : Z) : Vfs.M (H := bump_vm) (kResult Dirent) := ret (Err IOError).

#[local] Abbreviation demo_entry := (syscall_entry raw0 no_read_vm no_write_vm no_close_vm no_create_vm no_unlink_vm no_readdir_vm).

(** The table of [task_b]. *)
Definition table_b : Z * tstate (H := bump_vm) := match FdTable.alloc (ts demo3) with Some x => x | None => (0, ts demo3) end.
Definition sch_b : sstate (H := bump_vm) := upd task_b (set_fd_table (fst table_b)) (set_ts (snd table_b) demo3).

(** Five characters at address 1000. *)
Definition user_b : kstate :=
  KState sch_b (put_bytes 0 1000 [104; 101; 108; 108; 111] ∅) 0 (0, 0, 0) (0, 0, 0) false false 0 [] [] ∅.

Lemma some_pair_inj {A B} (a a' : A) (b b' : B) : Some (a, b) = Some (a', b') -> a = a' /\ b = b'.
Proof. by intros [= -> ->]. Qed.

Lemma user_b_ok : kernel_ok user_b.
Proof.
  destruct demo3_queues as (own & l & Hq & Hr).
  assert (fd_table (task demo3 task_b) = 0) as Hf by (vm_compute; reflexivity).
  destruct (give_table demo3 own task_b l [] (conj Hq Hr) Hf) as (t & y & Ha & Hv).
  assert (FdTable.alloc (ts demo3) = Some (fst table_b, snd table_b)) as Ht by (vm_compute; reflexivity).
  assert (fst table_b <> 0) as Hne by (vm_compute; congruence).
  rewrite Ha in Ht. destruct (some_pair_inj _ _ _ _ Ht) as [E1 E2]. rewrite E1, E2 in Hv. destruct (Hv Hne) as (own' & Hv'). exists own', task_b, l, []. exact Hv'.
Qed.

Definition run {A} (m : option (A * kstate)) (s : kstate) : kstate := match m with Some (_, s') => s' | None => s end.

(** [pipe] with the numbers stored at address 2000. *)
Definition piped_b : kstate := run (handle_pipe no_close_vm (Args 2000 0 0 0 0) user_b) user_b.

Lemma pipe_delivers_witness : exists s2 s3, handle_write no_write_vm (Args 4 1000 5 0 0) piped_b = Some (5, s2) /\
  handle_read no_read_vm (Args 3 3000 5 0 0) s2 = Some (5, s3) /\ user_bytes s3 3000 5 = [104; 101; 108; 108; 111].
Proof.
  assert (handle_pipe no_close_vm (Args 2000 0 0 0 0) user_b = Some (E_OK, piped_b)) as Hrun by (vm_compute; reflexivity).
  destruct (pipe_delivers no_read_vm no_write_vm no_close_vm user_b 2000 piped_b 1000 3000 5 user_b_ok Hrun) as [_ (s2 & s3 & Hw & Hr & Hb)];
    [lia | lia | unfold PIPE_BUF_SIZE; lia |].
  assert (read_le (ubyte piped_b) 2000 4 = 3) as E1 by (vm_compute; reflexivity).
  assert (read_le (ubyte piped_b) (2000 + 4) 4 = 4) as E2 by (vm_compute; reflexivity).
  assert (user_bytes piped_b 1000 5 = [104; 101; 108; 108; 111]) as E3 by (vm_compute; reflexivity).
  rewrite E1 in Hr. rewrite E2 in Hw. rewrite E3 in Hb. exists s2, s3. split; [exact Hw |]. split; [exact Hr | exact Hb].
Defined.

(** The call number of [pipe] through the entry, and then a timer interrupt. *)
Definition entered_b : kstate := run (demo_entry 11 12 13 (number Pipe) (Args 2000 0 0 0 0) user_b) user_b.

Lemma may_pipe : may_call (number Pipe) (Args 2000 0 0 0 0) user_b.
Proof.
  unfold may_call. cbn [arg0 arg1 arg2]. split; [split; [lia | split; lia] |]. split; [intros Hn; discriminate Hn |].
  split; [intros Hn; discriminate Hn |]. split; [intros [Hn | Hn]; discriminate Hn |]. split; [intros Hn; discriminate Hn |].
  intros [Hn | Hn]; discriminate Hn.
Qed.

Lemma entered_run : demo_entry 11 12 13 (number Pipe) (Args 2000 0 0 0 0) user_b = Some (Some (Frame 0 11 13), entered_b).
Proof. vm_compute. reflexivity. Qed.

Lemma entered_traps : traps raw0 no_read_vm no_write_vm no_close_vm no_create_vm no_unlink_vm no_readdir_vm user_b entered_b.
Proof.
  apply (traps_call _ _ _ _ _ _ _ user_b user_b entered_b 11 12 13 (number Pipe) (Args 2000 0 0 0 0) (Some (Frame 0 11 13)) (traps_refl _ _ _ _ _ _ _ user_b) may_pipe entered_run).
Qed.



Lemma fstat_reports_witness : exists s', handle_fstat (Args 3 4000 0 0 0) piped_b = Some (E_OK, s') /\
  read_le (ubyte s') (4000 + 24) 4 = S_IFREG .| S_IRWX /\ read_le (ubyte s') (4000 + 56) 8 = 512.
Proof.
  set (t := current_fdt piped_b).
  assert (current_fdt piped_b <> 0) as Ht by (vm_compute; congruence).
  assert (open_at piped_b (current_fdt piped_b) 3 (file (table_of (current_fdt piped_b) piped_b) 3)) as Ho.
  { split; [unfold MAX_FDS; lia |]. split; [reflexivity | vm_compute; congruence]. }
  destruct (fstat_reports piped_b 3 _ 4000 Ht Ho ltac:(lia) ltac:(vm_compute; split; congruence)) as (s' & Hrun & _ & Hm & Hb & _).
  assert (st_mode_of (nd (fs piped_b) (node (Vfs.fd (fs piped_b) (file (table_of (current_fdt piped_b) piped_b) 3)))) = S_IFREG .| S_IRWX) as E
    by (vm_compute; reflexivity).
  rewrite E in Hm. exists s'. split; [exact Hrun |]. split; [exact Hm | exact Hb].
Defined.

(** The stack pointer of a task that yields is the one of whoever entered the kernel
    last: [task_b] yields with 0x7000, [task_a] with 0x8000, and when [task_b] runs
    again it leaves the kernel on the other's stack. *)
Definition yielded_b := demo_entry 0x1000 0x7000 0x202 (number Yield) (Args 0 0 0 0 0) user_b.
Definition yielded_a := match yielded_b with Some (_, s) => demo_entry 0x2000 0x8000 0x202 (number Yield) (Args 0 0 0 0 0) s | None => None end.

Example yield_loses_stack :
  match yielded_b with
  | Some (Some fr, s1) =>
      current_task (sch s1) = task_a /\
      match yielded_a with
      | Some (_, s2) => match do_yield s2 with
          | Some (_, s3) => current_task (sch s3) = task_b /\ snd (sysret fr s3) = 0x8000
          | None => False end
      | None => False end
  | _ => False
  end.
Proof. vm_compute. split; [reflexivity | split; reflexivity]. Qed.
End demo.
