(* ===== verification/UserStack.v ===== *)
(** * kernel/scheduler.cpp, [spawn_user]: the first stack of a user program

    The kernel builds the argument block of a new program in a zeroed heap buffer,
    from its top downwards, and copies the used part to the top of the program's
    stack.  Memory is a map of bytes by kernel address; it is not cut off at the
    buffer's ends, so that a store below the buffer shows. *)
From S2P Require Import Prelude Bytes Alloc.
From S2P Require Vmm.

Definition STACK_BUF_SIZE : Z := 4096.
Definition MAX_STACK_STRINGS : Z := 32.
Definition AT_NULL : Z := 0.
Definition AT_PAGESZ : Z := 6.
Definition AT_ENTRY : Z := 9.
Definition AT_UID : Z := 11.
Definition AT_EUID : Z := 12.
Definition AT_GID : Z := 13.
Definition AT_EGID : Z := 14.

(** A null-terminated string without its terminator, and an array of pointers to
    strings some of which may be null. *)
Definition cstr : Type := list Z.
Definition strings : Type := list (option cstr).

Record image := Img { mem : gmap Z Z; sp : Z }.

Definition at_byte (m : gmap Z Z) (a : Z) : Z := default 0 (m !! a).

Fixpoint put (a : Z) (l : list Z) (m : gmap Z Z) : gmap Z Z :=
  match l with
  | [] => m
  | b :: l' => put (a + 1) l' (<[a := b]> m)
  end.

(** [*(--sp) = w] *)
Definition push (s : image) (w : Z) : image := Img (put (sp s - 8) (le_bytes 8 w) (mem s)) (sp s - 8).

Definition to_user_va (buf_top p : Z) : Z := u64 (Vmm.USER_STACK_TOP - u64 (buf_top - p)).

(** [while (strs[count] && count < 32) count++;] *)
Fixpoint leading (n : nat) (strs : strings) : Z :=
  match n, strs with
  | S n', Some _ :: strs' => 1 + leading n' strs'
  | _, _ => 0
  end.

Definition count_strings (strs : option strings) (explicit_count : Z) : Z :=
  match strs with
  | None => 0
  | Some l => if 0 <? explicit_count then explicit_count else leading 32 l
  end.

Definition str_at (src : strings) (i : nat) : cstr := default [] (default None (src !! i)).

(** The loop over [i = n - 1, ..., 0]; [ptrs] are the pointers stored so far. *)
Fixpoint push_down (n : nat) (src : strings) (base top : Z) (s : image) (ptrs : list Z) : option (list Z) * image :=
  match n with
  | O => (Some ptrs, s)
  | S i =>
      let str := str_at src i in
      let sp8 := sp s - (Z.of_nat (length str) + 1) in
      if sp8 <? base then (None, s)
      else push_down i src base top (Img (put sp8 (str ++ [0]) (mem s)) (sp8 .& 0xFFFFFFFFFFFFFFF8)) (to_user_va top sp8 :: ptrs)
  end.

(** The count and the pointers; both are empty when a string does not fit. *)
Definition push_strings (src : option strings) (requested_count base top : Z) (s : image) : list Z * image :=
  let count := count_strings src requested_count in
  let count := if MAX_STACK_STRINGS <? count then MAX_STACK_STRINGS else count in
  match push_down (Z.to_nat count) (default [] src) base top s [] with
  | (Some ptrs, s) => (ptrs, s)
  | (None, s) => ([], s)
  end.

(** The auxiliary vector in the order it is pushed. *)
Definition auxv (entry_point : Z) : list Z :=
  [0; AT_NULL; 0x1000; AT_PAGESZ; entry_point; AT_ENTRY; 0; AT_EGID; 0; AT_GID; 0; AT_EUID; 0; AT_UID].

Record built := Built { block : image; argv_ptrs : list Z; envp_ptrs : list Z }.

Definition build (base entry_point : Z) (argv : option strings) (argc : Z) (envp : option strings) (envc : Z) : built :=
  let top := base + STACK_BUF_SIZE in
  let s := Img ∅ top in
  let '(aptrs, s) := push_strings argv argc base top s in
  let '(eptrs, s) := push_strings envp envc base top s in
  let s := Img (mem s) (sp s .& 0xFFFFFFFFFFFFFFF0) in
  let s := foldl push s (auxv entry_point) in
  let s := foldl push (push s 0) (reverse eptrs) in
  let s := foldl push (push s 0) (reverse aptrs) in
  let s := push s (Z.of_nat (length aptrs)) in
  Built s aptrs eptrs.

Definition user_sp (base : Z) (b : built) : Z := to_user_va (base + STACK_BUF_SIZE) (sp (block b)).

(** What the program finds at a user address after the block was copied. *)
Definition user_byte (base : Z) (b : built) (u : Z) : Z := at_byte (mem (block b)) (base + STACK_BUF_SIZE - (Vmm.USER_STACK_TOP - u)).
Definition user_word (base : Z) (b : built) (u : Z) : Z := read64 (user_byte base b) u.

(** ** Memory *)

Lemma put_byte l a m x : at_byte (put a l m) x = if decide (a <= x < a + Z.of_nat (length l)) then default 0 (l !! Z.to_nat (x - a)) else at_byte m x.
Proof.
  revert a m. induction l as [| b l IH]; intros a m; cbn [put length].
  { rewrite decide_False by lia. done. }
  rewrite IH. destruct (decide (x = a)) as [-> |].
  - rewrite decide_False, decide_True by lia. unfold at_byte. rewrite lookup_insert_eq. by rewrite Z.sub_diag.
  - unfold at_byte. rewrite lookup_insert_ne by done. destruct (decide (a + 1 <= x < a + 1 + Z.of_nat (length l))).
    + rewrite decide_True by lia. replace (Z.to_nat (x - a)) with (S (Z.to_nat (x - (a + 1)))) by lia. done.
    + rewrite decide_False by lia. done.
Qed.

Lemma word_put w a m : U64 w -> read64 (at_byte (put a (le_bytes 8 w) m)) a = w.
Proof.
  intros Hw. unfold read64. unfold U64 in Hw. rewrite (read_le_spec _ w); [| lia |].
  - apply Z.mod_small. exact Hw.
  - intros i Hi. rewrite put_byte, length_le_bytes, decide_True by lia. replace (a + i - a) with i by lia.
    rewrite le_bytes_lookup by lia. cbn [default]. by rewrite Z2Nat.id by lia.
Qed.

(** ** Pushing words *)

(** The stack grew downwards and left what was above alone. *)
Definition deeper (s s' : image) : Prop := sp s' <= sp s /\ forall x, sp s <= x -> at_byte (mem s') x = at_byte (mem s) x.

Lemma deeper_refl s : deeper s s.
Proof. split; [lia | done]. Qed.
Lemma deeper_trans s1 s2 s3 : deeper s1 s2 -> deeper s2 s3 -> deeper s1 s3.
Proof. intros [H1 K1] [H2 K2]. split; [lia |]. intros x Hx. rewrite K2 by lia. by apply K1. Qed.

(** The words [ws] lie in memory from [a] on. *)
Definition words_at (m : gmap Z Z) (a : Z) (ws : list Z) : Prop := forall i w, ws !! i = Some w -> read64 (at_byte m) (a + 8 * Z.of_nat i) = w.

(** The string and its terminator lie in memory at [p]. *)
Definition string_at (f : Z -> Z) (p : Z) (str : cstr) : Prop := forall j b, (str ++ [0]) !! j = Some b -> f (p + Z.of_nat j) = b.

Lemma push_all ws s : Forall U64 ws ->
  let s' := foldl push s ws in sp s' = sp s - 8 * Z.of_nat (length ws) /\ deeper s s' /\ words_at (mem s') (sp s') (reverse ws).
Proof.
  induction ws as [| w ws IH] using rev_ind; intros Hw; cbv zeta.
  { cbn. split; [lia |]. split; [apply deeper_refl | by intros i w]. }
  apply Forall_app in Hw as [Hws [Hw _]%Forall_cons]. destruct (IH Hws) as (E & K & W). rewrite foldl_app. cbn [foldl].
  set (s1 := foldl push s ws) in *. cbn [sp mem push].
  assert (forall x, sp s1 <= x -> at_byte (put (sp s1 - 8) (le_bytes 8 w) (mem s1)) x = at_byte (mem s1) x) as Hk.
  { intros x Hx. rewrite put_byte, decide_False; [done |]. rewrite length_le_bytes. lia. }
  rewrite length_app. cbn [length]. split; [lia |]. split.
  - apply (deeper_trans _ s1); [done |]. split; [cbn; lia | exact Hk].
  - rewrite reverse_snoc. intros [| i] x; cbn [lookup list_lookup].
    + intros [= ->]. change (8 * Z.of_nat 0) with 0. rewrite Z.add_0_r. by apply word_put.
    + intros Hx. rewrite <- (W i x Hx). unfold read64. apply read_le_ext. intros j Hj.
      replace (sp s1 - 8 + 8 * Z.of_nat (S i) + j) with (sp s1 + 8 * Z.of_nat i + j) by lia. apply Hk. lia.
Qed.

Lemma align8 x : 0 <= x < 2 ^ 64 -> x - 8 < x .& 0xFFFFFFFFFFFFFFF8 <= x.
Proof.
  intros Hx. replace 0xFFFFFFFFFFFFFFF8 with (wrap 64 (Z.lnot (2 ^ 3 - 1))) by reflexivity. rewrite (land_align 64 3) by lia.
  pose proof (Z.mod_pos_bound x (2 ^ 3) ltac:(lia)). change (2 ^ 3) with 8 in *. lia.
Qed.
Lemma align16 x : 0 <= x < 2 ^ 64 -> x - 16 < x .& 0xFFFFFFFFFFFFFFF0 <= x /\ (x .& 0xFFFFFFFFFFFFFFF0) mod 16 = 0.
Proof.
  intros Hx. replace 0xFFFFFFFFFFFFFFF0 with (wrap 64 (Z.lnot (2 ^ 4 - 1))) by reflexivity. rewrite (land_align 64 4) by lia.
  pose proof (Z.mod_pos_bound x (2 ^ 4) ltac:(lia)). change (2 ^ 4) with 16 in *. split; [lia |].
  rewrite Zminus_mod_idemp_r, Z.sub_diag. done.
Qed.

(** ** Pushing strings *)

(** [ps] are the kernel addresses of the first strings of [src], between [lo] and [hi]. *)
Definition placed (m : gmap Z Z) (src : strings) (ps : list Z) (lo hi : Z) : Prop :=
  forall i p, ps !! i = Some p -> lo <= p < hi /\ p + Z.of_nat (length (str_at src i)) + 1 <= hi /\ string_at (at_byte m) p (str_at src i).

Lemma placed_deeper s s' src ps lo hi : placed (mem s) src ps lo hi -> deeper s s' -> sp s <= lo -> sp s' <= lo /\ placed (mem s') src ps lo hi.
Proof.
  intros Hp [H1 K] Hlo. split; [lia |]. intros i p Hi. destruct (Hp i p Hi) as (A & B & C). split_and!; try lia; try done.
  intros j b Hb. rewrite K by lia. by apply C.
Qed.

Lemma push_down_ok n src base top s ptrs : 7 <= base -> base - 7 <= sp s -> sp s < 2 ^ 64 ->
  match push_down n src base top s ptrs with
  | (Some r, s') => exists ps, r = (to_user_va top <$> ps) ++ ptrs /\ length ps = n /\ placed (mem s') src ps (sp s') (sp s) /\
      deeper s s' /\ base - 7 <= sp s' /\
      sp s - sp s' <= foldr (fun i acc => Z.of_nat (length (str_at src i)) + 8 + acc) 0 (seq 0 n)
  | (None, s') => deeper s s' /\ base - 7 <= sp s'
  end.
Proof.
  revert s ptrs. induction n as [| n IH]; intros s ptrs Hb Hlo Hs; cbn [push_down].
  { exists []. split_and!; try done; simpl; lia. }
  set (str := str_at src n). set (sp8 := sp s - (Z.of_nat (length str) + 1)).
  destruct (Z.ltb_spec sp8 base) as [Hlt | Hge]; [split; [apply deeper_refl | done] |].
  pose proof (align8 sp8 ltac:(lia)) as Hal. set (s1 := Img _ (sp8 .& _)).
  assert (deeper s s1) as K1.
  { split; [cbn [sp s1]; lia |]. intros x Hx. cbn [mem s1]. rewrite put_byte, decide_False; [done |]. rewrite length_app. cbn [length]. lia. }
  specialize (IH s1 (to_user_va top sp8 :: ptrs) Hb). cbn [sp s1] in IH. specialize (IH ltac:(lia) ltac:(lia)).
  destruct (push_down n src base top s1 _) as [[r |] s'].
  2: { destruct IH as [K2 ?]. split; [by apply (deeper_trans _ s1) | done]. }
  destruct IH as (ps & -> & Hlen & Hps & K2 & Hlo' & Hsum).
  assert (forall x, sp8 <= x -> at_byte (mem s') x = at_byte (mem s1) x) as Hx by (intros x Hx; apply K2; cbn [sp s1]; lia).
  exists (ps ++ [sp8]). rewrite fmap_app, <- app_assoc, length_app. cbn [length fmap list_fmap]. split_and!; [done | lia | | by apply (deeper_trans _ s1) | done |].
  - intros i p Hi. destruct K2 as [K2 _]. cbn [sp s1] in K2. apply lookup_app_Some in Hi as [Hi | [Hi1 Hi2]].
    + destruct (Hps i p Hi) as (A & B & C). cbn [sp s1] in *. split_and!; (done || lia).
    + apply list_lookup_singleton_Some in Hi2 as [Hi2 <-]. assert (i = n) as -> by lia. fold str. split_and!; try lia.
      intros j b Hj. pose proof (lookup_lt_Some _ _ _ Hj) as Hjl. rewrite Hx by lia. cbn [mem s1].
      rewrite put_byte, decide_True by lia. replace (sp8 + Z.of_nat j - sp8) with (Z.of_nat j) by lia. rewrite Nat2Z.id, Hj. done.
  - rewrite seq_S, foldr_app. cbn [foldr Nat.add]. fold str.
    assert (forall l (c : Z), foldr (fun i acc => Z.of_nat (length (str_at src i)) + 8 + acc) c l = foldr (fun i acc => Z.of_nat (length (str_at src i)) + 8 + acc) 0 l + c) as Hf.
    { induction l as [| x l IHl]; intros c; simpl; [lia |]. rewrite IHl. lia. }
    rewrite Hf. cbn [sp s1] in Hsum. lia.
Qed.

(** The number of strings asked for, and a bound for the room they take. *)
Definition wanted (src : option strings) (req : Z) : nat := Z.to_nat (Z.min (count_strings src req) MAX_STACK_STRINGS).
Definition room (n : nat) (src : strings) : Z := foldr (fun i acc => Z.of_nat (length (str_at src i)) + 8 + acc) 0 (seq 0 n).

Lemma room_S n src : room (S n) src = room n src + Z.of_nat (length (str_at src n)) + 8.
Proof.
  unfold room. rewrite seq_S, foldr_app. cbn [foldr Nat.add].
  assert (forall l (c : Z), foldr (fun i acc => Z.of_nat (length (str_at src i)) + 8 + acc) c l = foldr (fun i acc => Z.of_nat (length (str_at src i)) + 8 + acc) 0 l + c) as Hf.
  { induction l as [| x l IHl]; intros c; simpl; [lia |]. rewrite IHl. lia. }
  rewrite Hf. lia.
Qed.

Lemma room_nonneg n src : 0 <= room n src.
Proof. induction n as [| n IH]; [done |]. rewrite room_S. lia. Qed.

Lemma push_down_fits n src base top s ptrs : 0 <= base -> base + room n src <= sp s -> sp s < 2 ^ 64 ->
  is_Some (fst (push_down n src base top s ptrs)).
Proof.
  revert s ptrs. induction n as [| n IH]; intros s ptrs Hb Hr Hs; cbn [push_down]; [by eexists |].
  rewrite room_S in Hr. pose proof (room_nonneg n src). set (sp8 := sp s - _).
  rewrite (proj2 (Z.ltb_ge sp8 base)) by lia. pose proof (align8 sp8 ltac:(lia)). apply IH; cbn [sp]; lia.
Qed.

(** What [push_strings] did: the strings are placed and pointed to, or none is. *)
Lemma push_strings_ok src req base top s : 7 <= base -> base - 7 <= sp s -> sp s < 2 ^ 64 ->
  exists ps s', push_strings src req base top s = (to_user_va top <$> ps, s') /\ placed (mem s') (default [] src) ps (sp s') (sp s) /\
    deeper s s' /\ base - 7 <= sp s' /\ (length ps = wanted src req \/ ps = []) /\
    (base + room (wanted src req) (default [] src) <= sp s ->
       length ps = wanted src req /\ sp s - room (wanted src req) (default [] src) <= sp s').
Proof.
  intros Hb Hlo Hs. unfold push_strings.
  assert (Z.to_nat (if MAX_STACK_STRINGS <? count_strings src req then MAX_STACK_STRINGS else count_strings src req) = wanted src req) as ->.
  { unfold wanted. destruct (Z.ltb_spec MAX_STACK_STRINGS (count_strings src req)); f_equal; lia. }
  pose proof (push_down_ok (wanted src req) (default [] src) base top s [] Hb Hlo Hs) as Hok.
  pose proof (push_down_fits (wanted src req) (default [] src) base top s [] ltac:(lia)) as Hfit.
  destruct (push_down _ _ _ _ _ _) as [[r |] s'].
  - destruct Hok as (ps & -> & Hlen & Hp & K & Hlo' & Hsum). exists ps, s'. rewrite app_nil_r. fold (room (wanted src req) (default [] src)) in Hsum.
    split; [done |]. split; [done |]. split; [done |]. split; [done |]. split; [by left |]. intros _. split; [done | lia].
  - destruct Hok as [K Hlo']. exists [], s'. split; [done |]. split; [by intros i p |]. split; [done |]. split; [done |]. split; [by right |].
    intros Hr. by destruct (Hfit Hr Hs).
Qed.

Lemma user_va base p : heap_range base -> base - 2000 <= p <= base + 4096 ->
  to_user_va (base + STACK_BUF_SIZE) p = Vmm.USER_STACK_TOP - (base + 4096 - p).
Proof.
  intros Hb Hp. unfold to_user_va, STACK_BUF_SIZE, heap_range, Vmm.USER_STACK_TOP in *. rewrite (u64_small (base + 4096 - p)) by (mach; lia).
  rewrite u64_small by (mach; lia). done.
Qed.

(** The program's view of a kernel address of the block. *)
Lemma user_view base b p i : user_byte base b (Vmm.USER_STACK_TOP - (base + 4096 - p) + i) = at_byte (mem (block b)) (p + i).
Proof. unfold user_byte, STACK_BUF_SIZE. f_equal. lia. Qed.

Lemma auxv_words e : U64 e -> Forall U64 (auxv e).
Proof. intros He. unfold auxv. repeat (apply Forall_cons; split; [try done; unfold U64; vm_compute; split; congruence |]). apply Forall_nil_2. Qed.

(** The words of the block in the order they are pushed. *)
Definition pushed (e : Z) (aptrs eptrs : list Z) : list Z :=
  auxv e ++ [0] ++ reverse eptrs ++ [0] ++ reverse aptrs ++ [Z.of_nat (length aptrs)].

(** ... and as the program reads them. *)
Definition block_words (e : Z) (aptrs eptrs : list Z) : list Z :=
  Z.of_nat (length aptrs) :: aptrs ++ [0] ++ eptrs ++ [0] ++ reverse (auxv e).

Lemma pushed_reverse e aptrs eptrs : reverse (pushed e aptrs eptrs) = block_words e aptrs eptrs.
Proof.
  unfold pushed, block_words. rewrite !reverse_app, !reverse_involutive. cbn [reverse rev_append app]. rewrite <- !app_assoc. done.
Qed.

Lemma build_run base e argv argc envp envc aptrs s1 eptrs s2 :
  push_strings argv argc base (base + STACK_BUF_SIZE) (Img ∅ (base + STACK_BUF_SIZE)) = (aptrs, s1) ->
  push_strings envp envc base (base + STACK_BUF_SIZE) s1 = (eptrs, s2) ->
  build base e argv argc envp envc = Built (foldl push (Img (mem s2) (sp s2 .& 0xFFFFFFFFFFFFFFF0)) (pushed e aptrs eptrs)) aptrs eptrs.
Proof. intros H1 H2. unfold build. cbv zeta. rewrite H1, H2. unfold pushed. rewrite !foldl_app. done. Qed.

Lemma wanted_bound src req : (wanted src req <= 32)%nat.
Proof. unfold wanted, MAX_STACK_STRINGS. lia. Qed.

Definition block_ok (base e : Z) (argv : option strings) (argc : Z) (envp : option strings) (envc : Z) (b : built) : Prop :=
  let u := user_sp base b in
  (forall i w, block_words e (argv_ptrs b) (envp_ptrs b) !! i = Some w -> user_word base b (u + 8 * Z.of_nat i) = w) /\
  (forall i p, argv_ptrs b !! i = Some p -> u <= p < Vmm.USER_STACK_TOP /\ string_at (user_byte base b) p (str_at (default [] argv) i)) /\
  (forall i p, envp_ptrs b !! i = Some p -> u <= p < Vmm.USER_STACK_TOP /\ string_at (user_byte base b) p (str_at (default [] envp) i)).

(** What a list of placed strings looks like to the program. *)
Lemma placed_user base b src ps lo hi i p : heap_range base -> placed (mem (block b)) src ps lo hi -> base - 2000 <= sp (block b) <= lo -> hi <= base + 4096 ->
  (to_user_va (base + STACK_BUF_SIZE) <$> ps) !! i = Some p ->
  user_sp base b <= p < Vmm.USER_STACK_TOP /\ string_at (user_byte base b) p (str_at src i).
Proof.
  intros Hb Hp Hlo Hhi Hi. rewrite list_lookup_fmap in Hi. destruct (ps !! i) as [k |] eqn:Hk; [| done]. simpl in Hi. injection Hi as <-.
  destruct (Hp i k Hk) as (A & B & C). unfold user_sp. rewrite !user_va by (done || lia). split; [lia |].
  intros j c Hj. rewrite user_view. by apply C.
Qed.

(** The stages of [build]. *)
Record stages (base e : Z) (argv : option strings) (argc : Z) (envp : option strings) (envc : Z) (ap ep : list Z) (s1 s2 s4 : image) : Prop := {
  sg_args : placed (mem s1) (default [] argv) ap (sp s1) (base + 4096);
  sg_envs : placed (mem s2) (default [] envp) ep (sp s2) (sp s1);
  sg_top : sp s1 <= base + 4096;
  sg_keep1 : deeper s1 s2;
  sg_keep2 : deeper s2 s4;
  sg_low : base - 2000 <= sp s4;
  sg_words : words_at (mem s4) (sp s4)
    (block_words e (to_user_va (base + STACK_BUF_SIZE) <$> ap) (to_user_va (base + STACK_BUF_SIZE) <$> ep));
  sg_argc : length ap = wanted argv argc \/ ap = [];
  sg_envc : length ep = wanted envp envc \/ ep = [];
  sg_sp : exists k, k mod 16 = 0 /\ sp s2 - 16 < k <= sp s2 /\ sp s4 = k - 8 * Z.of_nat (17 + length ap + length ep);
  sg_fit1 : room (wanted argv argc) (default [] argv) <= 4096 ->
    length ap = wanted argv argc /\ base + 4096 - room (wanted argv argc) (default [] argv) <= sp s1;
  sg_fit2 : base + room (wanted envp envc) (default [] envp) <= sp s1 ->
    length ep = wanted envp envc /\ sp s1 - room (wanted envp envc) (default [] envp) <= sp s2;
}.

Lemma counts_small argv argc ap : length ap = wanted argv argc \/ ap = [] :> list Z -> (length ap <= 32)%nat.
Proof. pose proof (wanted_bound argv argc). intros [-> | ->]; cbn [length]; lia. Qed.

Lemma pushed_u64 e top (ap ep : list Z) : U64 e -> (length ap <= 32)%nat -> Forall U64 (pushed e (to_user_va top <$> ap) (to_user_va top <$> ep)).
Proof.
  intros He Hn.
  assert (forall ps : list Z, Forall U64 (to_user_va top <$> ps)) as Hv by (intros ps; apply Forall_fmap, Forall_true; intros x; apply u64_bound).
  unfold pushed. repeat (apply Forall_app; split); try (apply Forall_reverse, Hv); try (apply Forall_singleton; unfold U64; split; [lia |]).
  - by apply auxv_words.
  - done.
  - done.
  - rewrite length_fmap. change (2 ^ 64) with 18446744073709551616. lia.
Qed.

Lemma build_stages base e argv argc envp envc : heap_range base -> U64 e -> exists ap ep s1 s2 s4,
  build base e argv argc envp envc = Built s4 (to_user_va (base + STACK_BUF_SIZE) <$> ap) (to_user_va (base + STACK_BUF_SIZE) <$> ep) /\
  stages base e argv argc envp envc ap ep s1 s2 s4.
Proof.
  intros Hb He. unfold heap_range in Hb. set (top := base + STACK_BUF_SIZE). assert (top = base + 4096) as Ht by done.
  destruct (push_strings_ok argv argc base top (Img ∅ top)) as (ap & s1 & E1 & P1 & K1 & L1 & N1 & F1); [lia | cbn; lia | cbn; lia |].
  cbn [sp] in *. assert (sp s1 <= top) as Htop1 by apply K1.
  destruct (push_strings_ok envp envc base top s1) as (ep & s2 & E2 & P2 & K2 & L2 & N2 & F2); [lia | done | lia |].
  assert (sp s2 <= sp s1) as Htop2 by apply K2. destruct (align16 (sp s2)) as [Hal Hal0]; [lia |].
  pose proof (counts_small _ _ _ N1) as A32. pose proof (counts_small _ _ _ N2) as B32.
  set (s3 := Img (mem s2) (sp s2 .& 0xFFFFFFFFFFFFFFF0)).
  destruct (push_all _ s3 (pushed_u64 e top ap ep He A32)) as (E4 & K4 & W4). rewrite pushed_reverse in W4.
  assert (length (pushed e (to_user_va top <$> ap) (to_user_va top <$> ep)) = (17 + length ap + length ep)%nat) as Hlen.
  { unfold pushed, auxv. rewrite !length_app, !length_reverse, !length_fmap. cbn [length]. lia. }
  rewrite Hlen in E4. cbn [sp s3] in E4. exists ap, ep, s1, s2, (foldl push s3 (pushed e (to_user_va top <$> ap) (to_user_va top <$> ep))).
  split; [by apply (build_run _ _ _ _ _ _ _ s1 _ s2) |]. split; try done; try (by rewrite <- Ht).
  - apply (deeper_trans _ s3); [split; [cbn; lia | done] | done].
  - lia.
  - eexists. split; [exact Hal0 |]. split; [lia | exact E4].
  - intros Hr. destruct F1 as [F F']; [lia |]. split; [done | lia].
Qed.

(** The layout of the block, as the program finds it. *)
Lemma block_layout base e argv argc envp envc : heap_range base -> U64 e -> block_ok base e argv argc envp envc (build base e argv argc envp envc).
Proof.
  intros Hb He. destruct (build_stages base e argv argc envp envc Hb He) as (ap & ep & s1 & s2 & s4 & -> & S).
  pose proof S as [S1 S2 S3 S4 S5 S6 S7 _ _ _ _ _]. pose proof S4 as [Hk1 _]. pose proof S5 as [Hk2 _].
  destruct (placed_deeper s1 s2 _ ap (sp s1) (base + 4096) S1 S4 ltac:(lia)) as [_ S1'].
  destruct (placed_deeper s2 s4 _ ap (sp s1) (base + 4096) S1' S5 ltac:(lia)) as [_ S1''].
  destruct (placed_deeper s2 s4 _ ep (sp s2) (sp s1) S2 S5 ltac:(lia)) as [_ S2'].
  split; [| split]; cbn [argv_ptrs envp_ptrs].
  - intros i w Hi. rewrite <- (S7 i w Hi). unfold user_word, read64, user_sp. cbn [block]. rewrite user_va by (done || lia).
    apply read_le_ext. intros j Hj. rewrite <- Z.add_assoc, user_view. cbn [block mem]. f_equal. lia.
  - intros i p. apply (placed_user base (Built s4 _ _) _ ap (sp s1) (base + 4096)); cbn [block]; (done || lia).
  - intros i p. apply (placed_user base (Built s4 _ _) _ ep (sp s2) (sp s1)); cbn [block]; (done || lia).
Qed.

(** The bytes that are enough for the whole block: the strings, the alignment and
    the words. *)
Definition block_room (argv : option strings) (argc : Z) (envp : option strings) (envc : Z) : Z :=
  room (wanted argv argc) (default [] argv) + room (wanted envp envc) (default [] envp) + 16 +
  8 * Z.of_nat (17 + wanted argv argc + wanted envp envc).

(** For every buffer and every argument vector, the block that spawn_user
    builds reads, from the user stack pointer upwards, as argc, the argv pointers, a
    null, the envp pointers, a null and the auxiliary vector; each pointer lies in
    the block and points to its string with its terminator; argv and envp are
    complete or, when a string does not fit, empty; and when the strings, the
    alignment and the words need no more than the 4096 bytes of the buffer, both are
    complete and nothing is written below the buffer. *)
Theorem user_stack_layout base e argv argc envp envc : heap_range base -> U64 e ->
  let b := build base e argv argc envp envc in
  block_ok base e argv argc envp envc b /\
  (length (argv_ptrs b) = wanted argv argc \/ argv_ptrs b = []) /\
  (length (envp_ptrs b) = wanted envp envc \/ envp_ptrs b = []) /\
  (block_room argv argc envp envc <= STACK_BUF_SIZE ->
     length (argv_ptrs b) = wanted argv argc /\ length (envp_ptrs b) = wanted envp envc /\ base <= sp (block b)).
Proof.
  intros Hb He b. split; [by apply block_layout |]. subst b.
  destruct (build_stages base e argv argc envp envc Hb He) as (ap & ep & s1 & s2 & s4 & -> & [_ _ _ _ _ _ _ N1 N2 (k & _ & Hk & E4) F1 F2]).
  cbn [argv_ptrs envp_ptrs block]. rewrite !length_fmap.
  split; [destruct N1 as [? | ->]; auto |]. split; [destruct N2 as [? | ->]; auto |].
  unfold block_room, STACK_BUF_SIZE. intros Hr.
  pose proof (room_nonneg (wanted argv argc) (default [] argv)). pose proof (room_nonneg (wanted envp envc) (default [] envp)).
  destruct F1 as [L1 B1]; [lia |]. destruct F2 as [L2 B2]; [lia |]. split_and!; (done || lia).
Qed.

(** ** Concrete blocks *)

(** [argv = {"ls", "-a"}], [envp = {"A"}]. *)
Definition demo_argv : strings := [Some [108; 115]; Some [45; 97]; None].
Definition demo_envp : strings := [Some [65]; None].

Lemma user_stack_layout_witness :
  let b := build 0xFFFF900000001000 0x400000 (Some demo_argv) 0 (Some demo_envp) 0 in
  length (argv_ptrs b) = 2%nat /\ length (envp_ptrs b) = 1%nat /\ user_word 0xFFFF900000001000 b (user_sp 0xFFFF900000001000 b) = 2.
Proof.
  assert (heap_range 0xFFFF900000001000) as Hb by (unfold heap_range; lia).
  assert (U64 0x400000) as He by (unfold U64; lia).
  destruct (user_stack_layout 0xFFFF900000001000 0x400000 (Some demo_argv) 0 (Some demo_envp) 0 Hb He) as ((W & _ & _) & _ & _ & F).
  destruct F as (La & Le & _); [vm_compute; congruence |]. split; [exact La |]. split; [exact Le |].
  rewrite <- (Z.add_0_r (user_sp _ _)). apply (W 0%nat). vm_compute. reflexivity.
Defined.

(** The stack pointer is aligned before the words are pushed, and not for their
    number: it is a multiple of 16, as the ABI wants it at a program's entry, exactly
    when the number of strings is odd. *)
Lemma user_sp_alignment base e argv argc envp envc : heap_range base -> U64 e -> base mod 16 = 0 ->
  let b := build base e argv argc envp envc in
  user_sp base b mod 16 = 0 <-> (Z.of_nat (length (argv_ptrs b)) + Z.of_nat (length (envp_ptrs b))) mod 2 = 1.
Proof.
  intros Hb He H16. cbv zeta.
  destruct (build_stages base e argv argc envp envc Hb He) as (ap & ep & s1 & s2 & s4 & -> & [_ _ S3 [K1 _] [K2 _] S6 _ _ _ (k & Hk0 & Hk & E4) _ _]).
  cbn [argv_ptrs envp_ptrs]. rewrite !length_fmap. unfold user_sp. cbn [block]. rewrite user_va by (done || lia).
  unfold Vmm.USER_STACK_TOP. rewrite E4. apply Z.mod_divide in Hk0 as [q ->]; [| done]. apply Z.mod_divide in H16 as [r ->]; [| done].
  set (n := Z.of_nat (length ap) + Z.of_nat (length ep)).
  replace (Z.of_nat (17 + length ap + length ep)) with (17 + n) by lia. clearbody n. clear -q r.
  replace (0x7FFFFFF000 - (r * 16 + 4096 - (q * 16 - 8 * (17 + n)))) with (8 * (1 + n) + (34359737847 + q - r - n) * (8 * 2)) by lia.
  change 16 with (8 * 2). rewrite Z.mod_add, Z.mul_mod_distr_l by done.
  pose proof (Z.mod_pos_bound n 2 eq_refl). pose proof (Z.mod_pos_bound (1 + n) 2 eq_refl).
  pose proof (Z.div_mod n 2 ltac:(done)). pose proof (Z.div_mod (1 + n) 2 ltac:(done)). lia.
Qed.

(** A program started without arguments gets a misaligned stack. *)
Lemma misaligned_without_arguments : user_sp 0xFFFF900000001000 (build 0xFFFF900000001000 0x400000 None 0 None 0) mod 16 = 8.
Proof. vm_compute. reflexivity. Qed.

(** One argument of 4000 bytes passes the check on the strings, and the words after
    it are written below the buffer. *)
Lemma block_overflows :
  let b := build 0xFFFF900000001000 0x400000 (Some [Some (replicate 4000 65)]) 1 None 0 in
  length (argv_ptrs b) = 1%nat /\ sp (block b) = 0xFFFF900000001000 - 64.
Proof. vm_compute. split; reflexivity. Qed.
