(* ===== verification/Spawn.v ===== *)
(** * kernel/scheduler.cpp: [init_stdio], [spawn_user] and [spawn_elf]

    A user program gets an address space with its segments and a stack, an argument
    block on the stack, two kernel stacks, a descriptor table with the terminal in
    its first three slots, and a task whose first context switch enters user mode.
    The state is that of the system calls: the scheduler's, with the memory of
    every address space as bytes. *)
From S2P Require Import Prelude Ring Bytes Alloc Paging.
From S2P Require Import Vfs VfsTree FdTable Sched SchedRun Syscall SyscallRun Monad.
From S2P Require Pmm Vmm Elf UserStack.
Import UserStack (STACK_BUF_SIZE, strings, build, user_sp, block, at_byte).

(** ** Pages *)

(** A new frame for each of the [n] pages from [va] on:
    [for (va = ...; va < vend; va += 0x1000)]. *)
Fixpoint map_pages (n : nat) (space va : Z) (v : Vmm.state) : bool * Vmm.state :=
  match n with
  | O => (true, v)
  | S n' =>
      let '(frame, p) := Pmm.alloc_frame (Vmm.pmm v) in
      let v := Vmm.set_pmm p v in
      if frame =? 0 then (false, v) else
      let '(ok, v) := Vmm.map_page space va frame (Vmm.FLAG_PRESENT .| Vmm.FLAG_WRITE .| Vmm.FLAG_USER) v in
      if negb ok then (false, v) else map_pages n' space (va + 0x1000) v
  end.

Definition page_down (a : Z) : Z := u64 a .& u64 (Z.lnot 0xFFF).

(** The pages a segment touches. *)
Definition seg_start (g : Elf.Segment) : Z := page_down (Elf.seg_vaddr g).
Definition seg_end (g : Elf.Segment) : Z := page_down (Elf.seg_vaddr g + Elf.seg_memsz g + 0xFFF).
Definition seg_pages (g : Elf.Segment) : nat := Z.to_nat ((seg_end g - seg_start g) / 0x1000).

Fixpoint map_segments (space : Z) (l : list Elf.Segment) (v : Vmm.state) : bool * Vmm.state :=
  match l with
  | [] => (true, v)
  | g :: l' =>
      let '(ok, v) := map_pages (seg_pages g) space (seg_start g) v in
      if negb ok then (false, v) else map_segments space l' v
  end.

(** [/dev/tty] *)
Definition dev_tty : list Z := [47; 100; 101; 118; 47; 116; 116; 121].

Section spawn.
Context {H : Type} `{!Allocator H} `{!Paging H}.
Variable raw : Z -> Task.
Variable foreign_close : Z -> Vfs.M (H := H) unit.
Variable foreign_create : Z -> list Z -> Z -> Vfs.M (H := H) Z.

#[local] Abbreviation kstate := (Syscall.kstate (H := H)).
#[local] Abbreviation sstate := (Sched.sstate (H := H)).
#[local] Abbreviation tstate := (FdTable.tstate (H := H)).

(** ** Standard input and output *)

Definition open_tty (fl : Z) : St tstate (kResult Z) := run_on vfs set_vfs (Vfs.open foreign_create dev_tty fl).

Definition install_std (fdt : Z) (r : kResult Z) (fd : Z) : St tstate unit :=
  match r with
  | Ok f => modify (upd_table fdt (fun x => snd (install_at x f fd)))
  | Err _ => skip
  end.

Definition init_stdio (fdt : Z) : St tstate unit :=
  tty_r ← open_tty VFS_READ;
  tty_w ← open_tty VFS_WRITE;
  tty_e ← open_tty VFS_WRITE;
  install_std fdt tty_r 0 ;; install_std fdt tty_w 1 ;; install_std fdt tty_e 2.

(** ** spawn_user *)

(** The fields of the task and the words on its kernel stack. *)
Definition start_task (space : Z) (nm : list Z) (entry_point quant usp t kstk scstk fdt id cwd : Z) : St sstate unit :=
  modify (fun s =>
    let '(sp, s) := push_words ([USER_DATA .| 3; usp; 0x202; USER_CODE .| 3; entry_point; user_task_trampoline]
                                  ++ replicate 10 0) (kstk + DEFAULT_STACK) s in
    set_tasks (<[t := MkTask sp kstk DEFAULT_STACK scstk Ready id (parent_tid (raw t)) (exit_code (raw t)) quant quant 0
                        (copy_name nm) space cwd (troot (raw t)) fdt]> (tasks s)) s) ;;
  modify (enqueue t).

(** From the allocation of the task on. *)
Definition create_task (space : Z) (nm : list Z) (entry_point quant usp : Z) : St sstate (kResult Z) :=
  t ← malloc sizeof_Task;
  if t =? 0 then mret (Err OutOfMemory) else
  kstk ← malloc DEFAULT_STACK;
  if kstk =? 0 then (mfree t ;; mret (Err OutOfMemory)) else
  scstk ← malloc DEFAULT_STACK;
  if scstk =? 0 then (mfree kstk ;; mfree t ;; mret (Err OutOfMemory)) else
  fdt ← on_tables FdTable.alloc;
  if fdt =? 0 then (mfree scstk ;; mfree kstk ;; mfree t ;; mret (Err OutOfMemory)) else
  id ← gets next_tid;
  modify (set_next_tid (u32 (id + 1))) ;;
  cwd_res ← on_tables (run_on vfs set_vfs (Vfs.resolve [slash]));
  let cwd := match cwd_res with Ok n => n | Err _ => 0 end in
  on_tables (init_stdio fdt) ;;
  start_task space nm entry_point quant usp t kstk scstk fdt id cwd ;;
  mret (Ok id).

Definition activate_kernel : St sstate unit :=
  k ← gets (fun s => Vmm.kernel_pml4 (vm (hp s))); activate k.

(** Bytes into the memory of an address space while it is active. *)
Definition store_in (space a : Z) (l : list Z) : St kstate unit := modify (fun s => set_umem (put_bytes space a l (umem s)) s).

Definition stack_pages : nat := Z.to_nat (Vmm.USER_STACK_SIZE / 0x1000).

Definition spawn_user (space : Z) (nm : list Z) (entry_point quant : Z) (argv : option strings) (argc : Z) (envp : option strings) (envc : Z) :
    St kstate (kResult Z) :=
  ok ← on_sched (on_vmm (map_pages stack_pages space (Vmm.USER_STACK_TOP - Vmm.USER_STACK_SIZE)));
  if negb ok then mret (Err OutOfMemory) else
  stack_buf ← on_sched (malloc STACK_BUF_SIZE);
  if stack_buf =? 0 then mret (Err OutOfMemory) else
  let b := build stack_buf entry_point argv argc envp envc in
  let sp := UserStack.sp (block b) in
  let used := stack_buf + STACK_BUF_SIZE - sp in
  on_sched (activate space) ;;
  store_in space (Vmm.USER_STACK_TOP - used) ((fun i => at_byte (UserStack.mem (block b)) (sp + i)) <$> seqZ 0 used) ;;
  on_sched activate_kernel ;;
  on_sched (mfree stack_buf) ;;
  on_sched (create_task space nm entry_point quant (user_sp stack_buf b)).

(** ** spawn_elf *)

(** One segment: zeros, then the bytes of the file. *)
Definition load_segment (space : Z) (g : Elf.Segment) : St kstate unit :=
  store_in space (Elf.seg_vaddr g) (replicate (Z.to_nat (Elf.seg_memsz g)) 0) ;;
  data ← gets (fun s => read_bytes (fs s) (Elf.seg_data g) (Elf.seg_filesz g));
  store_in space (Elf.seg_vaddr g) data.

Fixpoint load_segments (space : Z) (l : list Elf.Segment) : St kstate unit :=
  match l with
  | [] => skip
  | g :: l' => load_segment space g ;; load_segments space l'
  end.

Definition destroy (space : Z) : St kstate unit := on_sched (on_vmm (fun v => (tt, Vmm.destroy_user_space space v))).

Definition spawn_elf (img : Elf.Image) (nm : list Z) (argv : option strings) (argc : Z) (envp : option strings) (envc : Z) :
    St kstate (kResult Z) :=
  space ← on_sched (on_vmm Vmm.create_user_space);
  if space =? 0 then mret (Err OutOfMemory) else
  ok ← on_sched (on_vmm (map_segments space (Elf.segments img)));
  if negb ok then (destroy space ;; mret (Err OutOfMemory)) else
  on_sched (activate space) ;;
  load_segments space (Elf.segments img) ;;
  on_sched activate_kernel ;;
  tid_res ← spawn_user space nm (Elf.entry img) DEFAULT_QUANTUM argv argc envp envc;
  if is_err tid_res then (destroy space ;; mret tid_res) else mret tid_res.

End spawn.

(** ** The pages of a program

    A frame that is in use stays in use while pages are mapped. *)

Definition held (v : Vmm.state) (g : Z) : Prop := Pmm.wf (Vmm.pmm v) /\ Pmm.used (Vmm.pmm v) g = true.

Lemma alloc_table_held v g : held v g -> held (snd (Vmm.alloc_table v)) g.
Proof.
  intros [Hw Hu]. unfold Vmm.alloc_table, held. pose proof (Pmm.alloc_frame_keeps (Vmm.pmm v) g Hw Hu) as Hk.
  destruct (Pmm.alloc_frame (Vmm.pmm v)) as [r p]. destruct (r =? 0); [done |]. cbn [snd] in *.
  destruct (Vmm.rd_fill r (fun _ => 0) 0 512 (Vmm.set_pmm p v)) as (_ & _ & E & _). by rewrite E.
Qed.

Lemma held_pmm v v' g : Vmm.pmm v' = Vmm.pmm v -> held v g -> held v' g.
Proof. unfold held. by intros ->. Qed.

Lemma held_wr v a x g : held v g -> held (Vmm.wr a x v) g.
Proof. done. Qed.

Lemma get_or_create_held e fl v g : held v g -> held (snd (Vmm.get_or_create e fl v)) g.
Proof.
  intros Hh. unfold Vmm.get_or_create. set (v0 := if Vmm.has fl Vmm.FLAG_USER then _ else v).
  assert (held v0 g) as Hh0 by (unfold v0; by destruct (Vmm.has fl Vmm.FLAG_USER)).
  destruct (Vmm.has (Vmm.rd v e) Vmm.FLAG_PRESENT).
  - clearbody v0. cbv zeta. destruct (Vmm.has (Vmm.rd v0 e) Vmm.FLAG_HUGE); [| done].
    pose proof (alloc_table_held v0 g Hh0) as Hk. destruct (Vmm.alloc_table v0) as [pt v1].
    destruct (pt =? 0); [done |]. pose proof (Vmm.rd_fill pt (Vmm.slice (Vmm.rd v1 e)) 0 512 v1) as (_ & _ & E & _).
    cbn [snd]. apply held_wr. unfold Vmm.slice in E. apply (held_pmm v1 _ g E Hk).
  - pose proof (alloc_table_held v g Hh) as Hk. destruct (Vmm.alloc_table v) as [c v1]. by destruct (c =? 0).
Qed.

Lemma map_page_held root virt phys fl v g : held v g -> held (snd (Vmm.map_page root virt phys fl v)) g.
Proof.
  intros Hh. unfold Vmm.map_page.
  pose proof (get_or_create_held (Vmm.entry root (Vmm.pml4_idx virt)) (Vmm.table_flags fl) v g Hh) as H1.
  destruct (Vmm.get_or_create _ _ v) as [pdpt v1]. destruct (pdpt =? 0); [done |].
  pose proof (get_or_create_held (Vmm.entry pdpt (Vmm.pdpt_idx virt)) (Vmm.table_flags fl) v1 g H1) as H2.
  destruct (Vmm.get_or_create _ _ v1) as [pd v2]. destruct (pd =? 0); [done |].
  pose proof (get_or_create_held (Vmm.entry pd (Vmm.pd_idx virt)) (Vmm.table_flags fl) v2 g H2) as H3.
  destruct (Vmm.get_or_create _ _ v2) as [pt v3]. by destruct (pt =? 0).
Qed.

Lemma vpage_at va o : va mod 4096 = 0 -> 0 <= va < 2 ^ 48 -> 0 <= o < 4096 -> Vmm.vpage (va + o) = va / 4096.
Proof.
  intros Ha Hlt Ho. unfold Vmm.vpage. change (2 ^ 12) with 4096. pose proof (Z.div_mod va 4096 ltac:(done)) as E. rewrite Ha, Z.add_0_r in E.
  set (q := va / 4096) in *. rewrite E in *. clearbody q. clear E Ha. change (2 ^ 48) with 281474976710656 in *.
  replace (4096 * q + o) with (q * 4096 + o) by lia. rewrite Z.mod_small by lia. rewrite Z.div_add_l, Z.div_small by lia. lia.
Qed.

(** A frame that was free in [v] and is not in [v']. *)
Definition taken (v v' : Vmm.state) (f : Z) : Prop := exists g, f = g * 4096 /\ 0 < g /\ Pmm.used (Vmm.pmm v) g = false /\ held v' g.

Lemma page_frame v r p : Pmm.wf (Vmm.pmm v) -> Pmm.alloc_frame (Vmm.pmm v) = (r, p) -> r <> 0 ->
  Vmm.entry_phys r = r /\ taken v (Vmm.set_pmm p v) r.
Proof.
  intros Hw Ha Hr. destruct (Pmm.alloc_frame_ok _ _ _ Hw Ha Hr) as (f & E & Hf & Hu & _ & Hset & Htot & Hw').
  assert (r = f * 4096) as -> by (rewrite E; unfold Pmm.PAGE_SIZE; lia). split.
  - apply Vmm.entry_phys_idem; [| apply Z.mod_mul; done]. pose proof (Pmm.wf_total _ Hw) as Ht. rewrite Pmm.max_frames_val in Ht. lia.
  - exists f. split_and!; [done | lia | done | split; [done | by rewrite Hset, Z.eqb_refl]].
Qed.

Lemma taken_later v v1 v' f : taken v1 v' f -> (forall g, held v g -> held v1 g) -> Pmm.wf (Vmm.pmm v) -> taken v v' f.
Proof.
  intros (g & E & Hg & Hu & Hh) Hk Hw. exists g. split_and!; try done. destruct (Pmm.used (Vmm.pmm v) g) eqn:Hv; [| done].
  destruct (Hk g) as [_ Hk1]; [by split |]. congruence.
Qed.

(** The loops over pages and segments as one loop over the pages. *)
Fixpoint map_list (space : Z) (l : list Z) (v : Vmm.state) : bool * Vmm.state :=
  match l with
  | [] => (true, v)
  | va :: l' => let '(ok, v) := map_pages 1 space va v in if negb ok then (false, v) else map_list space l' v
  end.

Definition pages (n : nat) (va : Z) : list Z := (fun i => va + 0x1000 * Z.of_nat i) <$> seq 0 n.

Lemma pages_S n va : pages (S n) va = va :: pages n (va + 0x1000).
Proof.
  unfold pages. cbn [seq fmap list_fmap]. f_equal; [lia |]. rewrite <- fmap_S_seq, <- list_fmap_compose. apply list_fmap_ext. intros i x _. cbn. lia.
Qed.

Lemma map_list_app space l l' v : map_list space (l ++ l') v = (let '(ok, v) := map_list space l v in if negb ok then (false, v) else map_list space l' v).
Proof.
  revert v. induction l as [| va l IH]; intros v; cbn [app map_list]; [done |].
  destruct (map_pages 1 space va v) as [[] v1]; [apply IH | done].
Qed.

Lemma map_pages_list n space va v : map_pages n space va v = map_list space (pages n va) v.
Proof.
  revert va v. induction n as [| n IH]; intros va v; [done |]. rewrite pages_S. cbn [map_list map_pages].
  destruct (Pmm.alloc_frame (Vmm.pmm v)) as [r p]. destruct (r =? 0); [done |].
  destruct (Vmm.map_page _ _ _ _ _) as [[] v1]; [apply IH | done].
Qed.

Lemma map_segments_list space l v : map_segments space l v = map_list space (g ← l; pages (seg_pages g) (seg_start g)) v.
Proof.
  revert v. induction l as [| g l IH]; intros v; cbn [map_segments mbind list_bind]; [done |].
  rewrite map_list_app, <- map_pages_list. destruct (map_pages _ _ _ _) as [[] v1]; [apply IH | done].
Qed.

Lemma map_one root va v ok v' : Vmm.pt_wf v root -> va mod 4096 = 0 -> 0 <= va < 2 ^ 48 -> map_pages 1 root va v = (ok, v') ->
  Vmm.pt_wf v' root /\ (forall g, held v g -> held v' g) /\
  (forall x, Vmm.vpage x <> va / 4096 -> Vmm.virt_to_phys root x v' = Vmm.virt_to_phys root x v) /\
  (if ok then exists f, taken v v' f /\ forall o, 0 <= o < 4096 -> Vmm.virt_to_phys root (va + o) v' = f + o else Vmm.out_of_frames v').
Proof.
  intros Hwf Ha Hva. cbn [map_pages]. pose proof (Vmm.pw_pmm _ _ Hwf) as Hw.
  destruct (Pmm.alloc_frame (Vmm.pmm v)) as [r p] eqn:Hal. destruct (Z.eqb_spec r 0) as [-> | Hr].
  { intros [= <- <-]. destruct (Pmm.alloc_frame_fail _ _ Hw Hal) as [-> _].
    assert (Vmm.set_pmm (Vmm.pmm v) v = v) as -> by (by destruct v). split_and!; try done. unfold Vmm.out_of_frames. by rewrite Hal. }
  destruct (page_frame v r p Hw Hal Hr) as [Hphys Htk].
  pose proof (Vmm.pt_wf_alloc v root r p Hwf Hal Hr) as Hwf1. set (v1 := Vmm.set_pmm p v) in *.
  assert (forall g, held v g -> held v1 g) as Hk1.
  { intros g [_ Hu]. pose proof (Pmm.alloc_frame_keeps _ g Hw Hu) as Hk. by rewrite Hal in Hk. }
  destruct (Vmm.map_page root va r _ v1) as [k v2] eqn:Hm.
  pose proof (Vmm.map_page_spec v1 root va r _ k v2 Hwf1 Vmm.user_rw_flags Hm) as [Hwf2 Htr].
  assert (forall g, held v1 g -> held v2 g) as Hk2.
  { intros g Hg. pose proof (map_page_held root va r (Vmm.FLAG_PRESENT .| Vmm.FLAG_WRITE .| Vmm.FLAG_USER) v1 g Hg) as Hk. by rewrite Hm in Hk. }
  assert (forall x, Vmm.virt_to_phys root x v1 = Vmm.virt_to_phys root x v) as Hsame1 by done.
  pose proof (vpage_at va 0 Ha Hva ltac:(lia)) as Hpg. rewrite Z.add_0_r in Hpg.
  destruct k; cbn [negb]; intros [= <- <-]; destruct Htr as [H1 H2]; (split; [done |]); (split; [by auto |]).
  - split.
    + intros x Hx. rewrite <- Hsame1, !Vmm.virt_to_phys_translate by done. apply H2. congruence.
    + exists r. split.
      * destruct Htk as (g & ? & ? & ? & Hh). exists g. split_and!; auto.
      * intros o Ho. rewrite Vmm.virt_to_phys_translate by done. rewrite H1 by (rewrite Hpg; by apply vpage_at).
        rewrite Hphys, Vmm.land_fff. f_equal. rewrite Z.add_mod, Ha, Z.add_0_l, Zmod_mod by done. by apply Z.mod_small.
  - split; [| done]. intros x _. rewrite <- Hsame1, !Vmm.virt_to_phys_translate by done. apply H2.
Qed.

(** Every page gets a frame of its own that was free. *)
Definition own_frames (root : Z) (l : list Z) (v v' : Vmm.state) : Prop := exists F : Z -> Z,
  (forall va, va ∈ l -> taken v v' (F va) /\ forall o, 0 <= o < 4096 -> Vmm.virt_to_phys root (va + o) v' = F va + o) /\
  (forall va va', va ∈ l -> va' ∈ l -> F va = F va' -> va = va').

Lemma map_list_spec root l v ok v' : Vmm.pt_wf v root -> Forall (fun va => va mod 4096 = 0 /\ 0 <= va < 2 ^ 48) l -> map_list root l v = (ok, v') ->
  Vmm.pt_wf v' root /\ (forall g, held v g -> held v' g) /\
  (forall x, (forall va, va ∈ l -> Vmm.vpage x <> va / 4096) -> Vmm.virt_to_phys root x v' = Vmm.virt_to_phys root x v) /\
  (if ok then own_frames root l v v' else Vmm.out_of_frames v').
Proof.
  revert v. induction l as [| va l IH]; intros v Hwf Hl; cbn [map_list].
  { intros [= <- <-]. split_and!; try done. exists id. split; [by intros ? ?%elem_of_nil | by intros ? ? ?%elem_of_nil]. }
  apply Forall_cons in Hl as [[Ha Hva] Hl]. destruct (map_pages 1 root va v) as [k v1] eqn:Hm.
  destruct (map_one root va v k v1 Hwf Ha Hva Hm) as (Hwf1 & Hk1 & Hout1 & Hin1). destruct k; cbn [negb].
  2: { intros [= <- <-]. split_and!; try done. intros x Hx. apply Hout1, Hx. by left. }
  intros Hrest. destruct (IH v1 Hwf1 Hl Hrest) as (Hwf' & Hk' & Hout & Hin). split_and!; [done | by auto | |].
  { intros x Hx. rewrite Hout by (intros w Hw; apply Hx; by right). apply Hout1, Hx. by left. }
  destruct ok; [| done]. destruct Hin as (F & HF & Hinj). destruct Hin1 as (f & Htk & Hf). pose proof (Vmm.pw_pmm _ _ Hwf) as Hw.
  assert (forall x, x ∈ l -> F x <> f) as Hne.
  { intros x Hx <-. destruct (HF x Hx) as [(g & E & _ & Hu & _) _]. destruct Htk as (g' & E' & _ & _ & [_ Hu']). assert (g' = g) as -> by lia. congruence. }
  exists (fun x => if decide (x ∈ l) then F x else f). split.
  - intros x Hx. case_decide as Hxl.
    + destruct (HF x Hxl) as [Ht Hv]. split; [by apply (taken_later v v1) | done].
    + apply elem_of_cons in Hx as [-> | ?]; [| done]. split.
      * destruct Htk as (g & ? & ? & ? & Hh). exists g. split_and!; auto.
      * intros o Ho. rewrite Hout; [by apply Hf |]. intros w Hw' E. rewrite vpage_at in E by done. apply Hxl.
        rewrite Forall_forall in Hl. destruct (Hl w Hw') as [Hwa Hwr].
        assert (w = va) as ->; [| done]. rewrite (Z.div_mod w 4096), (Z.div_mod va 4096) by done. congruence.
  - intros x y Hx Hy. apply elem_of_cons in Hx, Hy. repeat case_decide; destruct Hx as [-> | Hx]; destruct Hy as [-> | Hy]; try done;
      intros E; first [by apply Hinj | by edestruct Hne; eauto].
Qed.

(** A segment in the lower half, as a linker places it. *)
Definition seg_low (g : Elf.Segment) : Prop := 0 <= Elf.seg_vaddr g /\ 0 <= Elf.seg_memsz g /\ Elf.seg_vaddr g + Elf.seg_memsz g < 2 ^ 47.

Lemma page_down_val a : 0 <= a < 2 ^ 64 -> page_down a = 4096 * (a / 4096).
Proof.
  intros Ha. unfold page_down. rewrite u64_small by done. change 0xFFF with (2 ^ 12 - 1). change (u64 (Z.lnot (2 ^ 12 - 1))) with (wrap 64 (Z.lnot (2 ^ 12 - 1))).
  rewrite (land_align 64 12) by lia. change (2 ^ 12) with 4096. pose proof (Z.div_mod a 4096 ltac:(done)). lia.
Qed.

Lemma seg_bounds g : seg_low g -> seg_start g = 4096 * (Elf.seg_vaddr g / 4096) /\
  seg_end g = 4096 * ((Elf.seg_vaddr g + Elf.seg_memsz g + 4095) / 4096) /\ 0 <= seg_start g <= seg_end g /\ seg_end g <= 2 ^ 47.
Proof.
  intros (H1 & H2 & H3). change (2 ^ 47) with 140737488355328 in *. unfold seg_start, seg_end.
  rewrite !page_down_val by (change (2 ^ 64) with 18446744073709551616; lia). change 0xFFF with 4095. split; [done |]. split; [done |].
  set (a := Elf.seg_vaddr g) in *. set (m := Elf.seg_memsz g) in *. clearbody a m. Z.div_mod_to_equations. lia.
Qed.

Lemma elem_of_pages n va x : x ∈ pages n va <-> exists i, 0 <= i < Z.of_nat n /\ x = va + 4096 * i.
Proof.
  unfold pages. rewrite list_elem_of_fmap. split.
  - intros (i & -> & [_ Hi]%elem_of_seq). exists (Z.of_nat i). lia.
  - intros (i & Hi & ->). exists (Z.to_nat i). split; [lia |]. apply elem_of_seq. lia.
Qed.

(** The pages of a segment are those of the addresses between its bounds. *)
Lemma seg_page g x : seg_low g -> x ∈ pages (seg_pages g) (seg_start g) <-> x mod 4096 = 0 /\ seg_start g <= x < seg_end g.
Proof.
  intros Hg. destruct (seg_bounds g Hg) as (E1 & E2 & Hle & _). rewrite elem_of_pages. unfold seg_pages. rewrite E1, E2 in *. change 0x1000 with 4096.
  set (a := Elf.seg_vaddr g / 4096) in *. set (b := (_ + 4095) / 4096) in *. clearbody a b. clear E1 E2.
  replace (4096 * b - 4096 * a) with ((b - a) * 4096) by lia. rewrite Z.div_mul by done. split.
  - intros (i & Hi & ->). split; [| lia]. replace (4096 * a + 4096 * i) with ((a + i) * 4096) by lia. by apply Z.mod_mul.
  - intros [Hm Hx]. exists (x / 4096 - a). pose proof (Z.div_mod x 4096 ltac:(done)). lia.
Qed.

Lemma seg_addr g a : seg_low g -> Elf.seg_vaddr g <= a < Elf.seg_vaddr g + Elf.seg_memsz g -> 4096 * (a / 4096) ∈ pages (seg_pages g) (seg_start g).
Proof.
  intros Hg Ha. apply seg_page; [done |]. destruct (seg_bounds g Hg) as (-> & -> & _). split.
  - rewrite Z.mul_comm. by apply Z.mod_mul.
  - Z.div_mod_to_equations. lia.
Qed.

(** C36: Mapping the segments of a program into a well-formed address space.  On
    success every address of every segment translates, each page into a frame of its
    own that was free before, so that no two pages of the program share memory with
    each other or with anything that was mapped; the other translations are as they
    were.  On failure the frames have run out.  The address space stays well formed. *)
Theorem program_pages root l v ok v' : Vmm.pt_wf v root -> Forall seg_low l -> map_segments root l v = (ok, v') ->
  Vmm.pt_wf v' root /\
  (forall x, 0 <= x < 2 ^ 48 -> (forall g, g ∈ l -> ~ seg_start g <= x < seg_end g) -> Vmm.virt_to_phys root x v' = Vmm.virt_to_phys root x v) /\
  (if ok then exists F : Z -> Z,
     (forall g a, g ∈ l -> Elf.seg_vaddr g <= a < Elf.seg_vaddr g + Elf.seg_memsz g ->
        taken v v' (F (a / 4096)) /\ Vmm.virt_to_phys root a v' = F (a / 4096) + a mod 4096) /\
     (forall g a g' a', g ∈ l -> g' ∈ l -> Elf.seg_vaddr g <= a < Elf.seg_vaddr g + Elf.seg_memsz g ->
        Elf.seg_vaddr g' <= a' < Elf.seg_vaddr g' + Elf.seg_memsz g' -> F (a / 4096) = F (a' / 4096) -> a / 4096 = a' / 4096)
   else Vmm.out_of_frames v').
Proof.
  intros Hwf Hl. rewrite map_segments_list. intros Hm. set (ps := g ← l; _) in Hm. rewrite Forall_forall in Hl.
  assert (forall x, x ∈ ps <-> exists g, g ∈ l /\ x ∈ pages (seg_pages g) (seg_start g)) as Hps.
  { intros x. unfold ps. rewrite list_elem_of_bind. split; intros (g & ? & ?); by exists g. }
  destruct (map_list_spec root ps v ok v' Hwf) as (Hwf' & _ & Hout & Hok); [| exact Hm |].
  { apply Forall_forall. intros x (g & Hg & Hx)%Hps. apply seg_page in Hx as [? ?]; [| by apply Hl]. destruct (seg_bounds g (Hl g Hg)) as (_ & _ & ? & ?).
    change (2 ^ 47) with 140737488355328 in *. change (2 ^ 48) with 281474976710656. split; [done | lia]. }
  split; [done |]. split.
  - intros x Hx Hno. apply Hout. intros va (g & Hg & Hva)%Hps E. apply (Hno g Hg). apply seg_page in Hva as [Hmod Hva]; [| by apply Hl].
    destruct (seg_bounds g (Hl g Hg)) as (E1 & E2 & _). unfold Vmm.vpage in E. rewrite Z.mod_small in E by done. change (2 ^ 12) with 4096 in E.
    assert (seg_start g mod 4096 = 0 /\ seg_end g mod 4096 = 0) as [M1 M2] by (rewrite E1, E2, !(Z.mul_comm 4096); split; by apply Z.mod_mul).
    clear -E Hmod Hva M1 M2. Z.div_mod_to_equations. lia.
  - destruct ok; [| done]. destruct Hok as (F & HF & Hinj). exists (fun k => F (4096 * k)). split.
    + intros g a Hg Ha. destruct (HF (4096 * (a / 4096))) as [Ht Hv]; [apply Hps; exists g; split; [done | by apply seg_addr, Ha; apply Hl] |].
      split; [done |]. rewrite <- Hv by (apply Z.mod_pos_bound; done). f_equal. apply Z.div_mod. done.
    + intros g a g' a' Hg Hg' Ha Ha' E. enough (4096 * (a / 4096) = 4096 * (a' / 4096)) by lia.
      apply Hinj; [apply Hps; exists g | apply Hps; exists g' | done]; (split; [done |]); apply seg_addr; auto.
Qed.

(** ** Standard input and output *)

Section program.
Context {H : Type} `{!Allocator H} `{!Paging H}.
Variable raw : Z -> Task.
Variable foreign_close : Z -> Vfs.M (H := H) unit.
Variable foreign_create : Z -> list Z -> Z -> Vfs.M (H := H) Z.

#[local] Abbreviation kstate := (Syscall.kstate (H := H)).
#[local] Abbreviation sstate := (Sched.sstate (H := H)).
#[local] Abbreviation tstate := (FdTable.tstate (H := H)).

(** The node the terminal's path leads to. *)
Definition terminal (x : tstate) (n : Z) : Prop := resolve_internal dev_tty (vfs x) = Some n /\ n <> 0 /\ is_Some (nodes (vfs x) !! n).

Lemma terminal_same (x x' : tstate) n own : tables_ok x own -> same_tree (vfs x) (vfs x') -> terminal x n -> terminal x' n.
Proof.
  intros Hx Hs (H1 & H2 & H3). pose proof (ok_tree _ _ (tb_obj _ _ Hx)) as Hwf. split_and!; [| done | by apply (st_dom _ _ Hs)].
  by rewrite (resolve_same (vfs x)).
Qed.

Lemma nonzero_file (x : tstate) own f : tables_ok x own -> is_Some (fds (vfs x) !! f) -> f <> 0.
Proof.
  intros Hx Hf ->. pose proof (ok_range _ _ (tb_obj _ _ Hx) 0) as Hr. rewrite (ok_fd _ _ (tb_obj _ _ Hx) 0 Hf) in Hr.
  specialize (Hr ltac:(by eexists)). unfold heap_range in Hr. lia.
Qed.

(** An open file that is in no slot. *)
Definition unslotted (x : tstate) (f : Z) : Prop := is_Some (fds (vfs x) !! f) /\ forall u j, 0 <= j < MAX_FDS -> file (table x u) j <> f.

Definition on_terminal (x : tstate) (n fl f : Z) : Prop := exists d, fds (vfs x) !! f = Some d /\ node d = n /\ flags d = open_flags fl.

Lemma open_tty_ok (x : tstate) own fl n : tables_ok x own -> terminal x n ->
  exists r x' own', open_tty foreign_create fl x = Some (r, x') /\ tables_ok x' own' /\ others_kept own own' /\ tables x' = tables x /\
    same_tree (vfs x) (vfs x') /\ (forall f d, fds (vfs x) !! f = Some d -> fds (vfs x') !! f = Some d) /\
    match r with Ok f => fds (vfs x) !! f = None /\ unslotted x' f /\ on_terminal x' n fl f | Err _ => True end.
Proof.
  intros Hx (Hres & H0 & Hn).
  destruct (open_found foreign_create own (vfs x) dev_tty fl n) as (r & v & Hrun & Hfs & Hst & Hr); try done.
  { exists own. split_and!; [apply (tb_mem _ _ Hx) | apply (tb_obj _ _ Hx) | by intros a]. }
  assert (forall f d, fds (vfs x) !! f = Some d -> fds v !! f = Some d) as Hkeep.
  { intros f d Hf. destruct r as [g | e]; [| by destruct Hr as [_ ->]]. destruct Hr as (Hnone & d' & -> & _).
    rewrite lookup_insert_ne; [done |]. intros ->. congruence. }
  destruct (tables_vfs x own v Hx Hfs) as (own' & Hok & Hk).
  { intros u j Hj Hne. destruct (tb_open _ _ Hx u j Hj Hne) as [d Hd]. rewrite (Hkeep _ _ Hd). by eexists. }
  exists r, (set_vfs v x), own'. split; [unfold open_tty, run_on; by rewrite Hrun |]. split_and!; try done.
  destruct r as [f | e]; [| done]. destruct Hr as (Hnone & d & E & Hd). split; [done |].
  assert (fds v !! f = Some d) as Hf by (by rewrite E, lookup_insert_eq). split; [split; [by exists d |] | by exists d].
  intros u j Hj Heq. cbn in Heq. assert (f <> 0) as Hf0 by (apply (nonzero_file (set_vfs v x) own'); [done | by exists d]).
  destruct (tb_open _ _ Hx u j Hj) as [d' Hd']; [rewrite <- Heq in Hf0; exact Hf0 |].
  change (table (set_vfs v x) u) with (table x u) in Heq. congruence.
Qed.

Definition file_of (r : kResult Z) : Z := match r with Ok f => f | Err _ => 0 end.

Lemma install_std_ok (x : tstate) own fdt r fd : tables_ok x own -> is_Some (tables x !! fdt) -> 0 <= fd < 3 -> file (table x fdt) fd = 0 ->
  (forall f, r = Ok f -> f <> 0 /\ unslotted x f) ->
  exists x', install_std fdt r fd x = Some (tt, x') /\ tables_ok x' own /\ vfs x' = vfs x /\
    (forall u, is_Some (tables x' !! u) <-> is_Some (tables x !! u)) /\
    (forall u j, file (table x' u) j = if decide (fdt = u /\ fd = j) then file_of r else file (table x u) j).
Proof.
  intros Hx Ht Hfd Hfree Hr. destruct r as [f | e]; cbn [install_std file_of].
  - destruct (Hr f eq_refl) as (Hf0 & Hf & Hl). eexists. split; [done |].
    assert (upd_table fdt (fun y => snd (install_at y f fd)) x = upd_table fdt (fun y => store fd f (u32 (count y + 1)) y) x) as ->.
    { unfold upd_table. f_equal. f_equal. unfold install_at. rewrite (proj2 (Z.eqb_neq f 0)), (proj2 (Z.ltb_ge fd 0)) by (done || lia).
      rewrite u32_small by (mach; lia). rewrite (proj2 (Z.leb_gt MAX_FDS fd)) by (unfold MAX_FDS; lia). by rewrite Hfree. }
    split_and!; [by apply (put_ok foreign_close) | done | intros u; by apply tables_upd_own | intros u j; apply (file_upd fdt fd f)].
  - eexists. split_and!; try done. intros u j. case_decide as Hd; [| done]. destruct Hd as [<- <-]. done.
Qed.

(** Slot [fd] of the new table: the terminal, unless there was no memory for it. *)
Definition std_slot (x : tstate) (fdt n fl fd : Z) : Prop := file (table x fdt) fd = 0 \/ on_terminal x n fl (file (table x fdt) fd).

Lemma on_terminal_keep (x x' : tstate) n fl f : on_terminal x n fl f -> (forall f d, fds (vfs x) !! f = Some d -> fds (vfs x') !! f = Some d) -> on_terminal x' n fl f.
Proof. intros (d & Hd & ?) Hk. exists d. split; [by apply Hk | done]. Qed.

Lemma unslotted_keep (x x' : tstate) own f : tables_ok x own -> unslotted x f -> tables x' = tables x ->
  (forall f d, fds (vfs x) !! f = Some d -> fds (vfs x') !! f = Some d) -> f <> 0 /\ unslotted x' f.
Proof.
  intros Hx [[d Hd] Hl] Ht Hk. split; [apply (nonzero_file x own); by eauto |]. split; [exists d; by apply Hk |].
  intros u j Hj. unfold table. rewrite Ht. by apply Hl.
Qed.

Lemma unslotted_put (x x' : tstate) fdt fd r f : unslotted x f -> vfs x' = vfs x -> file_of r <> f ->
  (forall u j, file (table x' u) j = if decide (fdt = u /\ fd = j) then file_of r else file (table x u) j) -> unslotted x' f.
Proof. intros [Hf Hl] Hv Hne Hfile. split; [by rewrite Hv |]. intros u j Hj. rewrite Hfile. case_decide; [done | by apply Hl]. Qed.

(** The result of an open is a file that no slot holds yet, or nothing. *)
Definition opened (x : tstate) (n fl : Z) (r : kResult Z) : Prop := forall f, r = Ok f -> f <> 0 /\ unslotted x f /\ on_terminal x n fl f.

Lemma opened_keep (x x' : tstate) own n fl r : tables_ok x own -> opened x n fl r -> tables x' = tables x ->
  (forall f d, fds (vfs x) !! f = Some d -> fds (vfs x') !! f = Some d) -> opened x' n fl r.
Proof.
  intros Hx Ho Ht Hk f Hf. destruct (Ho f Hf) as (_ & Hu & Hd). destruct (unslotted_keep x x' own f Hx Hu Ht Hk) as [? ?].
  split_and!; [done | done |]. by apply (on_terminal_keep x).
Qed.

Lemma tty_opened (x x' : tstate) own n fl r : tables_ok x' own ->
  match r with Ok f => fds (vfs x) !! f = None /\ unslotted x' f /\ on_terminal x' n fl f | Err _ => True end -> opened x' n fl r.
Proof. intros Hx Hr f ->. destruct Hr as (_ & Hu & Hd). split_and!; [| done | done]. apply (nonzero_file x' own); [done | apply Hu]. Qed.

(** Two opens never give the same file. *)
Lemma opened_fresh (x : tstate) n fl r (r' : kResult Z) f : opened x n fl r ->
  match r' with Ok f => fds (vfs x) !! f = None | Err _ => True end -> r' = Ok f -> f <> 0 -> file_of r <> f.
Proof.
  intros Ho Hr' -> Hf0 <-. destruct r as [g | e]; [| done]. destruct (Ho g eq_refl) as (_ & [[d Hd] _] & _). cbn in Hr'. congruence.
Qed.

Lemma init_stdio_ok (x : tstate) own fdt n : tables_ok x own -> tables x !! fdt = Some (Table ∅ 0) -> terminal x n ->
  exists x' own', init_stdio foreign_create fdt x = Some (tt, x') /\ tables_ok x' own' /\ others_kept own own' /\
    (forall u, is_Some (tables x' !! u) <-> is_Some (tables x !! u)) /\
    vfs_root (vfs x') = vfs_root (vfs x) /\ (forall u j, u <> fdt -> file (table x' u) j = file (table x u) j) /\
    std_slot x' fdt n VFS_READ 0 /\ std_slot x' fdt n VFS_WRITE 1 /\ std_slot x' fdt n VFS_WRITE 2.
Proof.
  intros Hx Ht Hterm. unfold init_stdio.
  destruct (open_tty_ok x own VFS_READ n Hx Hterm) as (r1 & x1 & own1 & Hrun1 & Hx1 & Hk1 & Ht1 & Hst1 & Hf1 & Hr1).
  rewrite (bind_Some _ _ _ _ _ Hrun1). pose proof (terminal_same x x1 n own Hx Hst1 Hterm) as Hterm1. pose proof (tty_opened x x1 own1 n _ r1 Hx1 Hr1) as O1.
  destruct (open_tty_ok x1 own1 VFS_WRITE n Hx1 Hterm1) as (r2 & x2 & own2 & Hrun2 & Hx2 & Hk2 & Ht2 & Hst2 & Hf2 & Hr2).
  rewrite (bind_Some _ _ _ _ _ Hrun2). pose proof (terminal_same x1 x2 n own1 Hx1 Hst2 Hterm1) as Hterm2. pose proof (tty_opened x1 x2 own2 n _ r2 Hx2 Hr2) as O2.
  pose proof (opened_keep x1 x2 own1 n _ r1 Hx1 O1 Ht2 Hf2) as O12.
  destruct (open_tty_ok x2 own2 VFS_WRITE n Hx2 Hterm2) as (r3 & x3 & own3 & Hrun3 & Hx3 & Hk3 & Ht3 & Hst3 & Hf3 & Hr3).
  rewrite (bind_Some _ _ _ _ _ Hrun3). pose proof (tty_opened x2 x3 own3 n _ r3 Hx3 Hr3) as P3.
  pose proof (opened_keep x2 x3 own2 n _ r1 Hx2 O12 Ht3 Hf3) as P1. pose proof (opened_keep x2 x3 own2 n _ r2 Hx2 O2 Ht3 Hf3) as P2.
  assert (tables x3 = tables x) as E3 by congruence. assert (forall u j, file (table x3 u) j = file (table x u) j) as F0 by (intros; unfold table; by rewrite E3).
  assert (forall j, file (table x3 fdt) j = 0) as Hempty by (intros j; rewrite F0; unfold table; by rewrite Ht).
  destruct (install_std_ok x3 own3 fdt r1 0 Hx3) as (x4 & Hrun4 & Hx4 & Hv4 & Hd4 & F4); [rewrite E3, Ht; by eexists | lia | done | intros f Hf; by destruct (P1 f Hf) as (? & ? & _) |].
  rewrite (bind_Some _ _ _ _ _ Hrun4).
  destruct (install_std_ok x4 own3 fdt r2 1 Hx4) as (x5 & Hrun5 & Hx5 & Hv5 & Hd5 & F5).
  { apply Hd4. rewrite E3, Ht. by eexists. } { lia. } { rewrite F4, decide_False by (by intros [_ ?]). apply Hempty. }
  { intros f Hf. destruct (P2 f Hf) as (? & Hu & _). split; [done |]. apply (unslotted_put x3 x4 fdt 0 r1 f Hu Hv4); [| exact F4].
    apply (opened_fresh x1 n VFS_READ r1 r2); try done. destruct r2; [by apply Hr2 | done]. }
  rewrite (bind_Some _ _ _ _ _ Hrun5).
  destruct (install_std_ok x5 own3 fdt r3 2 Hx5) as (x6 & Hrun6 & Hx6 & Hv6 & Hd6 & F6).
  { apply Hd5, Hd4. rewrite E3, Ht. by eexists. } { lia. } { rewrite F5, decide_False, F4, decide_False by (by intros [_ ?]). apply Hempty. }
  { intros f Hf. destruct (P3 f Hf) as (? & Hu & _). assert (match r3 with Ok f => fds (vfs x2) !! f = None | Err _ => True end) as Hr3' by (destruct r3; [by apply Hr3 | done]).
    split; [done |]. apply (unslotted_put x4 x5 fdt 1 r2 f); [| done | by apply (opened_fresh x2 n VFS_WRITE r2 r3) | exact F5].
    apply (unslotted_put x3 x4 fdt 0 r1 f); [done | done | by apply (opened_fresh x2 n VFS_READ r1 r3) | exact F4]. }
  exists x6, own3. split; [exact Hrun6 |]. split; [done |]. split; [intros a Ha; by apply Hk3, Hk2, Hk1 |]. split; [intros u; by rewrite Hd6, Hd5, Hd4, E3 |].
  split; [by rewrite Hv6, Hv5, Hv4, (st_root _ _ Hst3), (st_root _ _ Hst2), (st_root _ _ Hst1) |]. split.
  { intros u j Hu. rewrite F6, decide_False, F5, decide_False, F4, decide_False by (by intros [-> _]). apply F0. }
  assert (forall fl fd r, opened x3 n fl r -> file (table x6 fdt) fd = file_of r -> std_slot x6 fdt n fl fd) as Hslot.
  { intros fl fd r Ho Hfile. unfold std_slot. rewrite Hfile. destruct r as [f | e]; [right | by left]. destruct (Ho f eq_refl) as (_ & _ & d & Hd & ?).
    exists d. by rewrite Hv6, Hv5, Hv4. }
  split_and!; [apply (Hslot _ _ r1 P1) | apply (Hslot _ _ r2 P2) | apply (Hslot _ _ r3 P3)]; rewrite F6.
  - rewrite decide_False, F5, decide_False, F4, decide_True by (done || by intros [_ ?]). done.
  - rewrite decide_False, F5, decide_True by (done || by intros [_ ?]). done.
  - by rewrite decide_True.
Qed.

(** ** The task of a program *)

Lemma blocks_returned bl (s : sstate) own r l zl : queues s r l zl -> res_ok s own -> NoDup bl -> (forall a, a ∈ bl -> spare s own a) ->
  exists h own', free_all bl s = Some (tt, put_hp h s) /\ queues (put_hp h s) r l zl /\ res_ok (put_hp h s) own'.
Proof.
  revert s own. induction bl as [| a bl IH]; intros s own Hq Hr Hn Hs; cbn [free_all].
  - exists (hp s), own. assert (put_hp (hp s) s = s) as -> by (by destruct s as [[[]]]). done.
  - apply NoDup_cons in Hn as [Hab Hn]. destruct (Hs a) as [S1 S2 S3]; [by left |].
    destruct (task_free s own r l zl a Hq Hr S1 S2 S3) as (h & Hf & Hq1 & Hr1).
    destruct (IH (put_hp h s) (delete a own) Hq1 Hr1 Hn) as (h' & own' & Hrun & Hq' & Hr').
    { intros b Hb. destruct (Hs b) as [B1 B2 B3]; [by right |]. split; [| done | done]. by rewrite lookup_delete_ne by (by intros ->). }
    exists h', own'. split; [| by split]. by rewrite (bind_Some _ _ _ _ _ Hf).
Qed.

(** A descriptor table for a task to come. *)
Lemma new_table (s : sstate) own r l zl : queues s r l zl -> res_ok s own ->
  exists fdt x own', on_tables FdTable.alloc s = Some (fdt, set_ts x s) /\ queues (set_ts x s) r l zl /\ res_ok (set_ts x s) own' /\
    (forall a, spare s own a -> spare (set_ts x s) own' a) /\
    (forall n, terminal (ts s) n -> terminal x n) /\
    (fdt <> 0 -> tables x !! fdt = Some (Table ∅ 0) /\ (forall t v, tasks s !! t = Some v -> fd_table v <> fdt)).
Proof.
  intros Hq Hr. pose proof (rs_tables _ _ Hr) as Ht. unfold on_tables, run_on.
  destruct (fdt_alloc_ok (ts s) own Ht) as (fdt & x & own' & Hal & Hok & Hk & _ & Hc). rewrite Hal.
  assert (forall u, is_Some (tables x !! u) <-> is_Some (tables (ts s) !! u) \/ (u = fdt /\ fdt <> 0)) as Hdom.
  { destruct Hc as [[-> ->] | (H0 & _ & _ & ->)]; intros u; [split; [by left | by intros [? | [_ ?]]] |].
    rewrite lookup_insert. case_decide; [subst; split; [by right | by eexists] | split; [by left | by intros [? | [-> _]]]]. }
  assert (fdt <> 0 -> own !! fdt = None) as Hnew by (intros H0; by destruct Hc as [[? _] | (_ & ? & _)]).
  exists fdt, x, own'. split; [done |]. split; [by apply (queues_same s) |]. split_and!.
  - apply (res_more s _ own own' Hr); try done; cbn [ts set_ts]; intros u Hu; [apply Hdom; by left |].
    apply Hdom in Hu as [Hu | [-> Hd]]; [by left | right; by apply Hnew].
  - intros a Ha. apply (spare_same s _ own own' a Ha Hk); [done |]. intros Hn. cbn [ts set_ts]. apply eq_None_not_Some.
    intros [Hs | [-> Hd]]%Hdom; [rewrite Hn in Hs; by destruct Hs |]. rewrite (sp_own _ _ _ Ha) in Hnew. by specialize (Hnew Hd).
  - unfold FdTable.alloc in Hal. intros n (T1 & T2 & T3).
    destruct (malloc_ok (vfs (ts s)) own sizeof_FDTable (tb_mem _ _ Ht)) as (p & h & Hm & _); [unfold sizeof_FDTable; lia |].
    rewrite Hm in Hal. cbn [mbind option_bind] in Hal.
    assert (vfs x = set_heap h (vfs (ts s))) as Hv by (destruct (p =? 0); by injection Hal as <- <-).
    split_and!; [| done | by rewrite Hv]. rewrite Hv. rewrite <- T1. apply resolve_same; [| apply (ok_tree _ _ (tb_obj _ _ Ht))]. by split.
  - intros H0. destruct Hc as [[? _] | (_ & _ & _ & E)]; [done |]. rewrite E, lookup_insert_eq. split; [done |].
    intros t v Hv Heq. subst fdt. pose proof (rs_fd _ _ Hr t v Hv H0) as Hf. rewrite (tb_own _ _ Ht _ Hf) in Hnew. by specialize (Hnew H0).
Qed.

Lemma free_all_bind {A} bl (k : St sstate A) s : (foldr (fun a m => mfree a ;; m) k bl) s = (free_all bl ;; k) s.
Proof.
  revert s. induction bl as [| a bl IH]; intros s; cbn [foldr free_all]; [done |]. unfold mbind, St_bind in *.
  destruct (mfree a s) as [[[] s1] |]; [apply IH | done].
Qed.

Lemma nodup_pair (a b : Z) : a <> b -> NoDup [a; b].
Proof. intros Hab. apply NoDup_cons. split; [by rewrite list_elem_of_singleton | apply NoDup_singleton]. Qed.

Lemma terminal_heap (s : sstate) own h n : res_ok s own -> terminal (ts s) n -> terminal (ts (put_hp h s)) n.
Proof. intros Hr. apply (terminal_same _ _ n own (rs_tables _ _ Hr)). by split. Qed.

Lemma nodup_three (a b c : Z) : a <> b -> a <> c -> b <> c -> NoDup [a; b; c].
Proof.
  intros Hab Hac Hbc. apply NoDup_cons. split; [| by apply nodup_pair]. rewrite !elem_of_cons, elem_of_nil. by intros [? | [? | []]].
Qed.

(** A ready program: its registers, its memory, its files. *)
Definition is_program (s : sstate) (t id space : Z) (nm : list Z) (entry_point quant usp n : Z) : Prop :=
  let c := task s t in
  tid c = id /\ st c = Ready /\ tname c = copy_name nm /\ quantum c = quant /\ timeslice c = quant /\ stack_size c = DEFAULT_STACK /\
  pml4 c = space /\ tcwd c = vfs_root (vfs (ts s)) /\ user_frame s (ctx c) entry_point usp 0x202 /\
  std_slot (ts s) (fd_table c) n VFS_READ 0 /\ std_slot (ts s) (fd_table c) n VFS_WRITE 1 /\ std_slot (ts s) (fd_table c) n VFS_WRITE 2.

Lemma resolve_root (x : tstate) own : tables_ok x own -> Vfs.resolve [slash] (vfs x) = Some (Ok (vfs_root (vfs x)), vfs x).
Proof.
  intros Hx. pose proof (ok_tree _ _ (tb_obj _ _ Hx)) as Hwf. pose proof (node_nonzero _ _ Hwf (proj1 (tw_root _ Hwf))) as H0.
  assert (resolve_internal [slash] (vfs x) = Some (vfs_root (vfs x))) as E by (unfold resolve_internal; cbn; by rewrite (proj2 (Z.eqb_neq _ 0))).
  unfold Vfs.resolve, Vfs.lookup, M_bind, bind, mbind, option_bind, ret. rewrite E. by rewrite (proj2 (Z.eqb_neq _ 0)).
Qed.

Lemma init_stdio_step (s : sstate) own r l zl fdt n : queues s r l zl -> res_ok s own -> tables (ts s) !! fdt = Some (Table ∅ 0) -> terminal (ts s) n ->
  exists x own', on_tables (init_stdio foreign_create fdt) s = Some (tt, set_ts x s) /\ queues (set_ts x s) r l zl /\ res_ok (set_ts x s) own' /\
    (forall a, spare s own a -> spare (set_ts x s) own' a) /\ is_Some (tables x !! fdt) /\ vfs_root (vfs x) = vfs_root (vfs (ts s)) /\
    std_slot x fdt n VFS_READ 0 /\ std_slot x fdt n VFS_WRITE 1 /\ std_slot x fdt n VFS_WRITE 2.
Proof.
  intros Hq Hr Ht Hn. destruct (init_stdio_ok (ts s) own fdt n (rs_tables _ _ Hr) Ht Hn) as (x & own' & Hrun & Hok & Hk & Hdom & Hroot & _ & S0 & S1 & S2).
  exists x, own'. split; [unfold on_tables, run_on; by rewrite Hrun |]. split; [by apply (queues_same s) |]. split_and!; try done.
  - apply (res_more s _ own own' Hr); try done; intros u; rewrite Hdom; [done | by left].
  - intros a Ha. apply (spare_same s _ own own' a Ha Hk); [done |]. intros Hnone. apply eq_None_not_Some. cbn [ts set_ts]. rewrite Hdom, Hnone. by intros [].
  - apply Hdom. rewrite Ht. by eexists.
Qed.

Lemma create_task_ok (s : sstate) own r l zl space nm e q usp n : queues s r l zl -> res_ok s own -> terminal (ts s) n ->
  exists res s' own', create_task raw foreign_create space nm e q usp s = Some (res, s') /\ res_ok s' own' /\
    match res with
    | Ok id => id = next_tid s /\ next_tid s' = u32 (id + 1) /\
        exists t, tasks s !! t = None /\ queues s' r (t :: l) zl /\ is_program s' t id space nm e q usp n
    | Err k => k = OutOfMemory /\ queues s' r l zl /\ tasks s' = tasks s /\ next_tid s' = next_tid s
    end.
Proof.
  intros Hq Hr Hterm. unfold create_task.
  assert (forall bl s1 own1, queues s1 r l zl -> res_ok s1 own1 -> NoDup bl -> (forall a, a ∈ bl -> spare s1 own1 a) -> tasks s1 = tasks s -> next_tid s1 = next_tid s ->
    exists s' own', (free_all bl ;; mret (Err OutOfMemory)) s1 = Some (Err OutOfMemory : kResult Z, s') /\ res_ok s' own' /\
      OutOfMemory = OutOfMemory /\ queues s' r l zl /\ tasks s' = tasks s /\ next_tid s' = next_tid s) as Hundo.
  { intros bl s1 own1 Hq1 Hr1 Hnd Hsp T1 T2. destruct (blocks_returned bl s1 own1 r l zl Hq1 Hr1 Hnd Hsp) as (h & own' & Hf & Hq' & Hr').
    exists (put_hp h s1), own'. rewrite (bind_Some _ _ _ _ _ Hf). by split_and!. }
  destruct (spare_malloc s own r l zl sizeof_Task Hq Hr ltac:(done)) as (t & h1 & own1 & Hm1 & Hq1 & Hr1 & _ & Ht).
  rewrite (bind_Some _ _ _ _ _ Hm1). set (s1 := put_hp h1 s) in *. destruct (Z.eqb_spec t 0) as [-> | Ht0]; [by exists (Err OutOfMemory), s1, own1 |].
  destruct (Ht Ht0) as (Hst1 & Htn & Hti).
  destruct (spare_malloc s1 own1 r l zl DEFAULT_STACK Hq1 Hr1 ltac:(done)) as (kstk & h2 & own2 & Hm2 & Hq2 & Hr2 & Hk2 & Hks).
  rewrite (bind_Some _ _ _ _ _ Hm2). set (s2 := put_hp h2 s1) in *. destruct (Hk2 t Hst1) as [Hst2 Htk]. destruct (Z.eqb_spec kstk 0) as [-> | K0].
  { exists (Err OutOfMemory). destruct (Hundo [t] s2 own2) as (s' & own' & Hrun & ?); try done; [apply NoDup_singleton | by intros a ->%list_elem_of_singleton |].
    exists s', own'. split; [| done]. rewrite <- Hrun. exact (free_all_bind [t] _ s2). }
  destruct (Hks K0) as (Hks2 & _). destruct (spare_malloc s2 own2 r l zl DEFAULT_STACK Hq2 Hr2 ltac:(done)) as (sstk & h3 & own3 & Hm3 & Hq3 & Hr3 & Hk3 & Hss).
  rewrite (bind_Some _ _ _ _ _ Hm3). set (s3 := put_hp h3 s2) in *. destruct (Hk3 t Hst2) as [Hst3 Hts]. destruct (Hk3 kstk Hks2) as [Hks3 Hkss].
  pose proof (terminal_heap s2 own2 h3 n Hr2 (terminal_heap s1 own1 h2 n Hr1 (terminal_heap s own h1 n Hr Hterm))) as Hterm3.
  assert (forall a, a ∈ [kstk; t] -> spare s3 own3 a) as Hsp3 by (intros a; rewrite !elem_of_cons, elem_of_nil; intros [-> | [-> | []]]; done).
  destruct (Z.eqb_spec sstk 0) as [-> | S0].
  { exists (Err OutOfMemory). destruct (Hundo [kstk; t] s3 own3) as (s' & own' & Hrun & ?); try done; [by apply nodup_pair |].
    exists s', own'. split; [| done]. rewrite <- Hrun. exact (free_all_bind [kstk; t] _ s3). }
  destruct (Hss S0) as (Hss3 & _). destruct (new_table s3 own3 r l zl Hq3 Hr3) as (fdt & x & own4 & Hal & Hq4 & Hr4 & Hsp4 & Hterm4 & Hfdt).
  rewrite (bind_Some _ _ _ _ _ Hal). set (s4 := set_ts x s3) in *.
  assert (forall a, a ∈ [kstk; sstk; t] -> spare s4 own4 a) as Hspall.
  { intros a. rewrite !elem_of_cons, elem_of_nil. intros [-> | [-> | [-> | []]]]; by apply Hsp4. }
  assert (NoDup [kstk; sstk; t]) as Hnd by (by apply nodup_three).
  destruct (Z.eqb_spec fdt 0) as [-> | F0].
  { exists (Err OutOfMemory). destruct (Hundo [sstk; kstk; t] s4 own4) as (s' & own' & Hrun & ?); try done.
    - apply nodup_three; auto.
    - intros a. rewrite !elem_of_cons. intros Ha. apply Hspall. rewrite !elem_of_cons. tauto.
    - exists s', own'. split; [| done]. rewrite <- Hrun. exact (free_all_bind [sstk; kstk; t] _ s4). }
  destruct (Hfdt F0) as [Hempty Hunused]. rewrite (bind_Some _ _ s4 (next_tid s4) s4 eq_refl). rewrite (bind_Some _ _ s4 tt (set_next_tid (u32 (next_tid s4 + 1)) s4) eq_refl).
  set (s5 := set_next_tid (u32 (next_tid s4 + 1)) s4) in *.
  assert (queues s5 r l zl) as Hq5 by (by apply (queues_same s4)).
  assert (res_ok s5 own4) as Hr5 by (apply (res_same s4); [done | by intros p | apply (rs_tables _ _ Hr4) | done]).
  assert (on_tables (run_on vfs set_vfs (Vfs.resolve [slash])) s5 = Some (Ok (vfs_root (vfs x)), s5)) as Hroot.
  { unfold on_tables, run_on. cbn [ts s5 s4 set_next_tid set_ts]. rewrite (resolve_root x own4 (rs_tables _ _ Hr4)). by destruct x. }
  rewrite (bind_Some _ _ _ _ _ Hroot). cbv zeta.
  destruct (init_stdio_step s5 own4 r l zl fdt n Hq5 Hr5 Hempty (Hterm4 n Hterm3)) as (y & own6 & Hio & Hq6 & Hr6 & Hsp6 & Hfy & Hrt & Z0 & Z1 & Z2).
  rewrite (bind_Some _ _ _ _ _ Hio). set (s6 := set_ts y s5) in *.
  pose (mk := fun sp => MkTask sp kstk DEFAULT_STACK sstk Ready (next_tid s) (parent_tid (raw t)) (exit_code (raw t)) q q 0
    (copy_name nm) space (vfs_root (vfs x)) (troot (raw t)) fdt).
  destruct (user_task_ok raw foreign_close s6 own6 r l zl mk t kstk sstk fdt e usp 0x202) as (sp & m & Hpush & Hr' & Hq' & Hts' & Hid & Htask & Hfr); try done.
  { intros a Ha. apply Hsp6. apply (spare_same s4 _ own4); try done; [by apply Hspall | by intros ?]. }
  unfold start_task.
  exists (Ok (next_tid s)), (add_task t (mk sp) (set_kmem m s6)), own6. split; [| split; [done |]].
  { unfold mbind, St_bind, modify. rewrite Hpush. done. }
  split; [done |]. split; [by rewrite Hid |]. exists t. split; [done |]. split; [done |].
  unfold is_program. rewrite Htask, Hts'. cbn [tid st tname quantum timeslice stack_size pml4 tcwd ctx fd_table set_tnext mk ts s6 set_ts]. by split_and!.
Qed.

(** ** The memory of a program *)

Definition mem_of (s : kstate) (space a : Z) : Z := default 0 (umem s !! (space, a)).

(** What a program finds at its stack pointer: argc, pointers to its arguments, a
    null, pointers to its environment, a null, the auxiliary vector; and the strings. *)
Definition args_at (m : Z -> Z) (usp e : Z) (argv : option strings) (argc : Z) (envp : option strings) (envc : Z) : Prop := exists ap ep,
  length ap = UserStack.wanted argv argc /\ length ep = UserStack.wanted envp envc /\
  (forall i w, UserStack.block_words e ap ep !! i = Some w -> read64 m (usp + 8 * Z.of_nat i) = w) /\
  (forall i p, ap !! i = Some p -> UserStack.string_at m p (UserStack.str_at (default [] argv) i)) /\
  (forall i p, ep !! i = Some p -> UserStack.string_at m p (UserStack.str_at (default [] envp) i)).

(** The bounds of the block in its buffer. *)
Lemma block_bounds base e argv argc envp envc : heap_range base -> U64 e -> UserStack.block_room argv argc envp envc <= STACK_BUF_SIZE ->
  let sp := UserStack.sp (block (build base e argv argc envp envc)) in
  base <= sp <= base + STACK_BUF_SIZE /\ user_sp base (build base e argv argc envp envc) = Vmm.USER_STACK_TOP - (base + STACK_BUF_SIZE - sp).
Proof.
  intros Hb He Hroom. cbv zeta. destruct (UserStack.build_stages base e argv argc envp envc Hb He) as (ap & ep & s1 & s2 & s4 & -> & [_ _ S3 [K1 _] [K2 _] S6 _ _ _ (k & _ & Hk & E4) F1 F2]).
  unfold user_sp. cbn [block]. unfold STACK_BUF_SIZE, UserStack.block_room in *.
  pose proof (UserStack.room_nonneg (UserStack.wanted argv argc) (default [] argv)). pose proof (UserStack.room_nonneg (UserStack.wanted envp envc) (default [] envp)).
  destruct F1 as [L1 B1]; [lia |]. destruct F2 as [L2 B2]; [lia |]. rewrite L1, L2 in E4. split; [lia |]. rewrite UserStack.user_va by (done || lia). done.
Qed.

Lemma string_moved (m : Z -> Z) base b src ps lo hi i p : UserStack.placed (UserStack.mem (block b)) src ps lo hi -> ps !! i = Some p ->
  hi <= base + 4096 -> UserStack.sp (block b) <= lo -> UserStack.sp (block b) <= base + 4096 ->
  (forall a, UserStack.sp (block b) <= a < base + 4096 -> m (Vmm.USER_STACK_TOP - (base + 4096 - a)) = at_byte (UserStack.mem (block b)) a) ->
  UserStack.string_at m (Vmm.USER_STACK_TOP - (base + 4096 - p)) (UserStack.str_at src i).
Proof.
  intros Hp Hi Hhi Hlo Hsp Hm j c Hj. destruct (Hp i p Hi) as (A & B & C). pose proof (lookup_lt_Some _ _ _ Hj) as Hlt. rewrite length_app in Hlt. cbn in Hlt.
  rewrite <- (C j c Hj). replace (Vmm.USER_STACK_TOP - (base + 4096 - p) + Z.of_nat j) with (Vmm.USER_STACK_TOP - (base + 4096 - (p + Z.of_nat j))) by lia.
  apply Hm. lia.
Qed.

Lemma args_visible (m : Z -> Z) base e argv argc envp envc : heap_range base -> U64 e -> UserStack.block_room argv argc envp envc <= STACK_BUF_SIZE ->
  let b := build base e argv argc envp envc in
  (forall a, UserStack.sp (block b) <= a < base + 4096 -> m (Vmm.USER_STACK_TOP - (base + 4096 - a)) = at_byte (UserStack.mem (block b)) a) ->
  args_at m (user_sp base b) e argv argc envp envc.
Proof.
  intros Hb He Hroom. cbv zeta. pose proof (block_bounds base e argv argc envp envc Hb He Hroom) as [Hsp ->].
  destruct (UserStack.build_stages base e argv argc envp envc Hb He) as (ap & ep & s1 & s2 & s4 & Eb & [S1 S2 S3 S4 S5 S6 S7 _ _ (k & _ & Hk & E4) F1 F2]).
  rewrite Eb in *. cbn [block] in *. unfold STACK_BUF_SIZE, UserStack.block_room in *. intros Hm. pose proof S4 as [K1 _]. pose proof S5 as [K2 _].
  pose proof (UserStack.room_nonneg (UserStack.wanted argv argc) (default [] argv)). pose proof (UserStack.room_nonneg (UserStack.wanted envp envc) (default [] envp)).
  destruct F1 as [L1 B1]; [lia |]. destruct F2 as [L2 B2]; [lia |].
  destruct (UserStack.placed_deeper s1 s2 _ ap _ _ S1 S4 ltac:(lia)) as [_ S1'].
  destruct (UserStack.placed_deeper s2 s4 _ ap _ _ S1' S5 ltac:(lia)) as [_ S1'']. destruct (UserStack.placed_deeper s2 s4 _ ep _ _ S2 S5 ltac:(lia)) as [_ S2'].
  exists (UserStack.to_user_va (base + 4096) <$> ap), (UserStack.to_user_va (base + 4096) <$> ep). rewrite !length_fmap. split_and!; [done | done | | |].
  - intros i w Hi. rewrite <- (S7 i w Hi). pose proof (lookup_lt_Some _ _ _ Hi) as Hlt. unfold UserStack.block_words in Hlt.
    repeat (rewrite length_app in Hlt || rewrite length_cons in Hlt). rewrite !length_fmap, length_reverse in Hlt. cbn [length UserStack.auxv] in Hlt.
    unfold read64. apply read_le_ext. intros j Hj. rewrite <- Hm by lia. f_equal. lia.
  - intros i p Hi. rewrite list_lookup_fmap in Hi. destruct (ap !! i) as [q |] eqn:Hq; [| done]. injection Hi as <-. destruct (S1'' i q Hq) as (A & _ & _).
    fold STACK_BUF_SIZE. rewrite UserStack.user_va by (done || lia). eapply (string_moved m base (UserStack.Built s4 [] [])); [eassumption | done | | | | done]; cbn [block]; lia.
  - intros i p Hi. rewrite list_lookup_fmap in Hi. destruct (ep !! i) as [q |] eqn:Hq; [| done]. injection Hi as <-. destruct (S2' i q Hq) as (A & _ & _).
    fold STACK_BUF_SIZE. rewrite UserStack.user_va by (done || lia). eapply (string_moved m base (UserStack.Built s4 [] [])); [eassumption | done | | | | done]; cbn [block]; lia.
Qed.

(** ** Creating a program *)

(** The scheduler is in order, and there is a terminal. *)
Definition ready (s : kstate) (own : gmap Z owner) (r : Z) (l zl : list Z) (n : Z) : Prop :=
  queues (sch s) r l zl /\ res_ok (sch s) own /\ terminal (ts (sch s)) n.

Abbreviation with_heap h s := (set_sch (put_hp h (sch s)) s).

Lemma vmm_step {A} (f : Vmm.state -> A * Vmm.state) (s : kstate) own r l zl n : ready s own r l zl n ->
  exists x h, on_sched (on_vmm f) s = Some (x, with_heap h s) /\ ready (with_heap h s) own r l zl n /\ f (vm (hp (sch s))) = (x, vm h).
Proof.
  intros (Hq & Hr & Hn). destruct (task_vmm f (sch s) own r l zl Hq Hr) as (x & h & Hrun & Hf & Hq' & Hr'). exists x, h.
  split; [unfold on_sched, run_on; by rewrite Hrun |]. split; [| done]. split_and!; [done | done | by apply (terminal_heap (sch s) own)].
Qed.

Lemma kernel_step (s : kstate) own r l zl n : ready s own r l zl n -> exists h, on_sched activate_kernel s = Some (tt, with_heap h s) /\ ready (with_heap h s) own r l zl n.
Proof.
  intros Hs. destruct (vmm_step (fun v => (tt, Vmm.activate (Vmm.kernel_pml4 (vm (hp (sch s)))) v)) s own r l zl n Hs) as ([] & h & Hrun & Hok & _).
  exists h. split; [exact Hrun | done].
Qed.

Lemma ready_umem (s : kstate) own r l zl n m : ready s own r l zl n -> ready (set_umem m s) own r l zl n.
Proof. done. Qed.

(** The stack buffer comes and goes. *)
Lemma buffer_step (s : kstate) own r l zl n size : ready s own r l zl n -> 0 < size < max_request ->
  exists p h own', on_sched (malloc size) s = Some (p, with_heap h s) /\ ready (with_heap h s) own' r l zl n /\
    (p <> 0 -> heap_range p /\ spare (sch (with_heap h s)) own' p).
Proof.
  intros (Hq & Hr & Hn) Hs. destruct (spare_malloc (sch s) own r l zl size Hq Hr Hs) as (p & h & own' & Hrun & Hq' & Hr' & _ & Hp).
  exists p, h, own'. split; [unfold on_sched, run_on; by rewrite Hrun |]. split; [split_and!; [done | done | by apply (terminal_heap (sch s) own)] |].
  intros Hp0. destruct (Hp Hp0) as [Hsp _]. split; [| done]. apply (ok_range _ _ (tb_obj _ _ (rs_tables _ _ Hr'))). rewrite (sp_own _ _ _ Hsp). by eexists.
Qed.

Lemma spare_heap (s : sstate) own h h' a : spare (put_hp h s) own a -> spare (put_hp h' s) own a.
Proof. intros [S1 S2 S3]. by split. Qed.

Lemma buffer_free (s : kstate) own r l zl n p : ready s own r l zl n -> spare (sch s) own p ->
  exists h, on_sched (mfree p) s = Some (tt, with_heap h s) /\ ready (with_heap h s) (delete p own) r l zl n.
Proof.
  intros (Hq & Hr & Hn) [S1 S2 S3]. destruct (task_free (sch s) own r l zl p Hq Hr S1 S2 S3) as (h & Hrun & Hq' & Hr').
  exists h. split; [unfold on_sched, run_on; by rewrite Hrun |]. split_and!; [done | done | by apply (terminal_heap (sch s) own)].
Qed.

(** The user memory outside the stack of [space]. *)
Definition off_stack (s s' : kstate) (space : Z) : Prop := forall q a,
  (q <> space \/ ~ Vmm.USER_STACK_TOP - STACK_BUF_SIZE <= a < Vmm.USER_STACK_TOP) -> umem s' !! (q, a) = umem s !! (q, a).

Definition spawned (s s' : kstate) (own' : gmap Z owner) (r : Z) (l zl : list Z) (n space : Z) (nm : list Z) (e q : Z)
    (argv : option strings) (argc : Z) (envp : option strings) (envc : Z) (res : kResult Z) : Prop :=
  res_ok (sch s') own' /\
  match res with
  | Ok id => id = next_tid (sch s) /\ next_tid (sch s') = u32 (id + 1) /\
      exists t usp, tasks (sch s) !! t = None /\ queues (sch s') r (t :: l) zl /\ is_program (sch s') t id space nm e q usp n /\
        args_at (mem_of s' space) usp e argv argc envp envc
  | Err k => k = OutOfMemory /\ queues (sch s') r l zl /\ tasks (sch s') = tasks (sch s) /\ next_tid (sch s') = next_tid (sch s)
  end.

Lemma spawn_user_ok (s : kstate) own r l zl n space nm e q argv argc envp envc : ready s own r l zl n -> U64 e ->
  UserStack.block_room argv argc envp envc <= STACK_BUF_SIZE ->
  exists res s' own', spawn_user raw foreign_create space nm e q argv argc envp envc s = Some (res, s') /\
    off_stack s s' space /\ spawned s s' own' r l zl n space nm e q argv argc envp envc res.
Proof.
  intros Hs He Hroom. unfold spawn_user.
  destruct (vmm_step (map_pages stack_pages space (Vmm.USER_STACK_TOP - Vmm.USER_STACK_SIZE)) s own r l zl n Hs) as (ok & h1 & Hrun1 & Hs1 & _).
  rewrite (bind_Some _ _ _ _ _ Hrun1). set (s1 := with_heap h1 s) in *.
  destruct ok; cbn [negb]; [| exists (Err OutOfMemory), s1, own; destruct Hs1 as (? & ? & _); by split_and!].
  destruct (buffer_step s1 own r l zl n STACK_BUF_SIZE Hs1) as (p & h2 & own2 & Hrun2 & Hs2 & Hp); [done |].
  rewrite (bind_Some _ _ _ _ _ Hrun2). set (s2 := with_heap h2 s1) in *.
  destruct (Z.eqb_spec p 0) as [-> | Hp0]; [exists (Err OutOfMemory), s2, own2; destruct Hs2 as (? & ? & _); by split_and! |].
  destruct (Hp Hp0) as [Hrange Hspare]. cbv zeta. set (b := build p e argv argc envp envc).
  pose proof (block_bounds p e argv argc envp envc Hrange He Hroom) as [Hsp Husp]. fold b in Hsp, Husp. set (sp := UserStack.sp (block b)) in *.
  destruct (vmm_step (fun v => (tt, Vmm.activate space v)) s2 own2 r l zl n Hs2) as ([] & h3 & Hrun3 & Hs3 & _).
  rewrite (bind_Some _ _ _ _ _ (Hrun3 : on_sched (activate space) s2 = _)). set (s3 := with_heap h3 s2) in *.
  rewrite (bind_Some _ _ s3 tt (set_umem (put_bytes space (Vmm.USER_STACK_TOP - (p + STACK_BUF_SIZE - sp))
    ((fun i => at_byte (UserStack.mem (block b)) (sp + i)) <$> seqZ 0 (p + STACK_BUF_SIZE - sp)) (umem s3)) s3) eq_refl).
  set (m := put_bytes _ _ _ _). pose proof (ready_umem s3 own2 r l zl n m Hs3) as Hs4. set (s4 := set_umem m s3) in *.
  destruct (kernel_step s4 own2 r l zl n Hs4) as (h5 & Hrun5 & Hs5). rewrite (bind_Some _ _ _ _ _ Hrun5). set (s5 := with_heap h5 s4) in *.
  destruct (buffer_free s5 own2 r l zl n p Hs5) as (h6 & Hrun6 & Hs6); [by apply (spare_heap (sch s1) own2 h2) |].
  rewrite (bind_Some _ _ _ _ _ Hrun6). set (s6 := with_heap h6 s5) in *. destruct Hs6 as (Hq6 & Hr6 & Hn6).
  destruct (create_task_ok (sch s6) (delete p own2) r l zl space nm e q (user_sp p b) n Hq6 Hr6 Hn6) as (res & x & own' & Hrun & Hr' & Hres).
  assert (forall a, sp <= a < p + STACK_BUF_SIZE -> m !! (space, Vmm.USER_STACK_TOP - (p + STACK_BUF_SIZE - a)) = Some (at_byte (UserStack.mem (block b)) a)) as Hm.
  { intros a Ha. unfold m. rewrite put_bytes_lookup, length_fmap, length_seqZ, decide_True by lia. rewrite list_lookup_fmap, lookup_seqZ_lt by lia. cbn. f_equal. f_equal. lia. }
  exists res, (set_sch x s6), own'. split; [unfold on_sched, run_on; by rewrite Hrun |]. split.
  { intros q' a Ha. change (m !! (q', a) = umem s !! (q', a)). unfold m. rewrite put_bytes_lookup, length_fmap, length_seqZ, decide_False; [done |].
    unfold STACK_BUF_SIZE in *. lia. }
  split; [done |]. destruct res as [id | k]; [| done]. destruct Hres as (-> & Hid & t & Ht & Hq' & Hprog). split; [done |]. split; [done |].
  exists t, (user_sp p b). split; [done |]. split; [done |]. split; [done |]. apply args_visible; [done | done | done |]. intros a Ha.
  unfold mem_of. change (umem (set_sch x s6)) with m. change (p + 4096) with (p + STACK_BUF_SIZE). by rewrite Hm.
Qed.

(** Segments below the stack. *)
Definition seg_fits (g : Elf.Segment) : Prop :=
  0 <= Elf.seg_vaddr g /\ 0 <= Elf.seg_filesz g <= Elf.seg_memsz g /\ Elf.seg_vaddr g + Elf.seg_memsz g <= Vmm.USER_STACK_TOP - STACK_BUF_SIZE.

Definition in_seg (g : Elf.Segment) (a : Z) : Prop := Elf.seg_vaddr g <= a < Elf.seg_vaddr g + Elf.seg_memsz g.

(** The byte of the program at an address of a segment. *)
Definition seg_byte (v : Vfs.state H) (g : Elf.Segment) (a : Z) : Z :=
  if decide (a < Elf.seg_vaddr g + Elf.seg_filesz g) then byte v (Elf.seg_data g + (a - Elf.seg_vaddr g)) else 0.

Definition put_segment (v : Vfs.state H) (space : Z) (m : gmap (Z * Z) Z) (g : Elf.Segment) : gmap (Z * Z) Z :=
  put_bytes space (Elf.seg_vaddr g) (read_bytes v (Elf.seg_data g) (Elf.seg_filesz g))
    (put_bytes space (Elf.seg_vaddr g) (replicate (Z.to_nat (Elf.seg_memsz g)) 0) m).

Lemma load_segments_run space l (s : kstate) : load_segments space l s = Some (tt, set_umem (foldl (put_segment (fs s) space) (umem s) l) s).
Proof.
  revert s. induction l as [| g l IH]; intros s; cbn [load_segments foldl]; [by destruct s |].
  rewrite (bind_Some _ _ s tt (set_umem (put_segment (fs s) space (umem s) g) s) eq_refl). rewrite IH. done.
Qed.

Lemma put_segment_lookup v space m g q a : seg_fits g ->
  put_segment v space m g !! (q, a) = if decide (q = space /\ in_seg g a) then Some (seg_byte v g a) else m !! (q, a).
Proof.
  intros (H1 & H2 & H3). unfold put_segment, in_seg, seg_byte. rewrite !put_bytes_lookup. unfold read_bytes. rewrite length_fmap, length_seqZ, length_replicate.
  destruct (decide (q = space)) as [-> |]; [| by rewrite !decide_False by (by intros [? _])].
  destruct (decide (Elf.seg_vaddr g <= a < Elf.seg_vaddr g + Elf.seg_memsz g)) as [Ha | Ha]; [| by rewrite !decide_False by lia].
  destruct (decide (a < Elf.seg_vaddr g + Elf.seg_filesz g)) as [Hf | Hf].
  - rewrite (decide_True (P := space = space /\ Elf.seg_vaddr g <= a < _)) by lia. rewrite decide_True by done. rewrite list_lookup_fmap, lookup_seqZ_lt by lia. cbn.
    f_equal. f_equal. lia.
  - rewrite decide_False, !decide_True by lia. apply lookup_replicate_2. lia.
Qed.

Lemma put_segments_other v space l m q a : Forall seg_fits l -> (forall g, g ∈ l -> q = space -> ~ in_seg g a) ->
  foldl (put_segment v space) m l !! (q, a) = m !! (q, a).
Proof.
  revert m. induction l as [| g l IH]; intros m Hl Hno; [done |]. apply Forall_cons in Hl as [Hg Hl]. cbn [foldl].
  rewrite IH; [| done | intros g' Hg'; apply Hno; by right]. rewrite put_segment_lookup by done. rewrite decide_False; [done |].
  intros [-> Ha]. by apply (Hno g ltac:(by left) eq_refl).
Qed.

(** A byte of a segment that no later one covers. *)
Lemma put_segments_in v space l1 g l2 m a : Forall seg_fits (l1 ++ g :: l2) -> in_seg g a -> (forall g', g' ∈ l2 -> ~ in_seg g' a) ->
  foldl (put_segment v space) m (l1 ++ g :: l2) !! (space, a) = Some (seg_byte v g a).
Proof.
  intros [_ [Hg Hl]%Forall_cons]%Forall_app Ha Hno. rewrite foldl_app. cbn [foldl].
  rewrite put_segments_other; [| done | intros g' Hg' _; by apply Hno]. rewrite put_segment_lookup by done. by rewrite decide_True.
Qed.

(** What [spawn_elf] leaves behind. *)
Definition elf_spawned (s s' : kstate) (img : Elf.Image) (nm : list Z) (argv : option strings) (argc : Z) (envp : option strings) (envc n : Z) (res : kResult Z) : Prop :=
  kernel_ok s' /\
  match res with
  | Err k => k = OutOfMemory /\ tasks (sch s') = tasks (sch s) /\ next_tid (sch s') = next_tid (sch s)
  | Ok id => id = next_tid (sch s) /\ next_tid (sch s') = u32 (id + 1) /\ exists t space usp,
      space <> 0 /\ tasks (sch s) !! t = None /\ next (task (sch s') (current_task (sch s))) = t /\
      is_program (sch s') t id space nm (Elf.entry img) DEFAULT_QUANTUM usp n /\
      args_at (mem_of s' space) usp (Elf.entry img) argv argc envp envc /\
      (forall l1 g l2 a, Elf.segments img = l1 ++ g :: l2 -> in_seg g a -> (forall g', g' ∈ l2 -> ~ in_seg g' a) ->
         mem_of s' space a = seg_byte (fs s) g a) /\
      (forall q a, q <> space -> mem_of s' q a = mem_of s q a)
  end.

Lemma spawn_elf_ok (s : kstate) img nm argv argc envp envc n : kernel_ok s -> terminal (ts (sch s)) n -> U64 (Elf.entry img) ->
  Forall seg_fits (Elf.segments img) -> UserStack.block_room argv argc envp envc <= STACK_BUF_SIZE ->
  exists res s', spawn_elf raw foreign_create img nm argv argc envp envc s = Some (res, s') /\ elf_spawned s s' img nm argv argc envp envc n res.
Proof.
  unfold elf_spawned. intros (own & r & l & zl & Hq & Hr) Hn He Hsegs Hroom. assert (ready s own r l zl n) as Hs by done. unfold spawn_elf.
  destruct (vmm_step Vmm.create_user_space s own r l zl n Hs) as (space & h1 & Hrun1 & Hs1 & _).
  rewrite (bind_Some _ _ _ _ _ Hrun1). set (s1 := with_heap h1 s) in *.
  destruct (Z.eqb_spec space 0) as [-> | H0]; [exists (Err OutOfMemory), s1; destruct Hs1 as (? & ? & _); split_and!; try done; by exists own, r, l, zl |].
  destruct (vmm_step (map_segments space (Elf.segments img)) s1 own r l zl n Hs1) as (ok & h2 & Hrun2 & Hs2 & _).
  rewrite (bind_Some _ _ _ _ _ Hrun2). set (s2 := with_heap h2 s1) in *.
  destruct ok; cbn [negb].
  2: { destruct (vmm_step (fun v => (tt, Vmm.destroy_user_space space v)) s2 own r l zl n Hs2) as ([] & h & Hrun & Hs3 & _).
       unfold destroy. rewrite (bind_Some _ _ _ _ _ Hrun). eexists _, _. split; [done |]. destruct Hs3 as (? & ? & _). split; [by exists own, r, l, zl | done]. }
  destruct (vmm_step (fun v => (tt, Vmm.activate space v)) s2 own r l zl n Hs2) as ([] & h3 & Hrun3 & Hs3 & _).
  rewrite (bind_Some _ _ _ _ _ (Hrun3 : on_sched (activate space) s2 = _)). set (s3 := with_heap h3 s2) in *.
  rewrite (bind_Some _ _ _ _ _ (load_segments_run space (Elf.segments img) s3)). set (m := foldl _ _ _).
  pose proof (ready_umem s3 own r l zl n m Hs3) as Hs4. set (s4 := set_umem m s3) in *.
  destruct (kernel_step s4 own r l zl n Hs4) as (h5 & Hrun5 & Hs5). rewrite (bind_Some _ _ _ _ _ Hrun5). set (s5 := with_heap h5 s4) in *.
  destruct (spawn_user_ok s5 own r l zl n space nm (Elf.entry img) DEFAULT_QUANTUM argv argc envp envc Hs5 He Hroom) as (res & s6 & own' & Hrun6 & Hoff & Hr6 & Hres).
  rewrite (bind_Some _ _ _ _ _ Hrun6). destruct res as [id | k]; cbn [is_err is_ok negb].
  2: { destruct Hres as (-> & Hq6 & Ht6 & Hid6). destruct (task_vmm (fun v => (tt, Vmm.destroy_user_space space v)) (sch s6) own' r l zl Hq6 Hr6) as ([] & h & Hrun & _ & Hq7 & Hr7).
       eexists (Err OutOfMemory), (with_heap h s6). split; [unfold destroy, on_sched, run_on, mbind, St_bind; by rewrite Hrun |]. split; [by exists own', r, l, zl | done]. }
  destruct Hres as (-> & Hid & t & usp & Ht & Hq6 & Hprog & Hargs). exists (Ok (next_tid (sch s))), s6. split; [done |]. split; [by exists own', r, (t :: l), zl |].
  split; [done |]. split; [done |]. exists t, space, usp. split_and!; try done.
  - rewrite (q_current _ _ _ _ Hq). by destruct (rg_path _ _ _ (q_ring _ _ _ _ Hq6)) as (_ & _ & ? & _).
  - intros l1 g l2 a E Ha Hno. unfold mem_of. rewrite Hoff.
    + change (umem s5) with m. unfold m. rewrite E in *. by rewrite put_segments_in.
    + right. rewrite E in Hsegs. apply Forall_app in Hsegs as [_ [Hg _]%Forall_cons]. destruct Hg as (_ & _ & ?). unfold in_seg in Ha. lia.
  - intros q a Hne. unfold mem_of. rewrite Hoff by (by left). change (umem s5) with m. unfold m. by rewrite put_segments_other.
Qed.

End program.

(** ** Concrete programs *)

Section demo.
#[local] Existing Instance bump_vm_paging.

(** Six kilobytes of memory at 0x400000, five bytes of which come from the file. *)
Definition demo_seg : Elf.Segment := Elf.MkSegment 0x400000 5 0x1800 0 5000.
Definition demo_img : Elf.Image := Elf.MkImage 0x400000 [demo_seg] 5000 5.

Lemma program_pages_witness : exists v' f1 f2, map_segments Vmm.demo_root [demo_seg] Vmm.demo = (true, v') /\ f1 <> f2 /\
  Vmm.virt_to_phys Vmm.demo_root 0x400004 v' = f1 + 4 /\ Vmm.virt_to_phys Vmm.demo_root 0x401004 v' = f2 + 4 /\
  Vmm.virt_to_phys Vmm.demo_root 0x402000 v' = 0x402000.
Proof.
  assert (Forall seg_low [demo_seg]) as Hl by (repeat constructor; vm_compute; congruence).
  assert (fst (map_segments Vmm.demo_root [demo_seg] Vmm.demo) = true) as Hok by (vm_compute; reflexivity).
  destruct (map_segments Vmm.demo_root [demo_seg] Vmm.demo) as [ok v'] eqn:Hm. cbn [fst] in Hok. subst ok.
  destruct (program_pages Vmm.demo_root [demo_seg] Vmm.demo true v' Vmm.vmm_demo_wf Hl Hm) as (_ & Hout & F & HF & Hinj).
  assert (demo_seg ∈ [demo_seg]) as Hin by (by left).
  exists v', (F 0x400), (F 0x401). split; [reflexivity |]. split.
  { intros E. specialize (Hinj demo_seg 0x400000 demo_seg 0x401000 Hin Hin ltac:(cbn; lia) ltac:(cbn; lia) E). discriminate Hinj. }
  split; [exact (proj2 (HF demo_seg 0x400004 Hin ltac:(cbn; lia))) |]. split; [exact (proj2 (HF demo_seg 0x401004 Hin ltac:(cbn; lia))) |].
  rewrite Hout; [vm_compute; reflexivity | lia |]. intros g ->%list_elem_of_singleton. intros [_ Hx]. vm_compute in Hx. discriminate Hx.
Defined.

(** The system of [SyscallRun] with 128 frames of memory and a file at [/dev/tty]. *)
Definition frames_b : Vmm.state := Vmm.State (Pmm.State {[0 := 1]} 128 1) ∅ 0 0.
Definition roomy_b : Syscall.kstate (H := bump_vm) := set_sch (put_hp (set_vm frames_b (hp (sch user_b))) (sch user_b)) user_b.
Definition dev_b : Syscall.kstate (H := bump_vm) := run (on_fs (Vfs.mkdir no_create_vm [47; 100; 101; 118]) roomy_b) roomy_b.
Definition tty_b : Syscall.kstate (H := bump_vm) := run (on_fs (Vfs.open no_create_vm dev_tty O_CREATE) dev_b) dev_b.
Definition tty_at : Z := default 0 (resolve_internal dev_tty (fs tty_b)).

Lemma roomy_ok : kernel_ok roomy_b.
Proof.
  destruct user_b_ok as (own & r & l & zl & Hq & Hr). exists own, r, l, zl.
  destruct (task_vmm (fun _ => (tt, frames_b)) (sch user_b) own r l zl Hq Hr) as ([] & h & Hrun & _ & Hq' & Hr').
  assert (on_vmm (fun _ => (tt, frames_b)) (sch user_b) = Some (tt, sch roomy_b)) as E by reflexivity.
  rewrite Hrun in E. destruct (some_pair_inj _ _ _ _ E) as [_ <-]. split; [exact Hq' | exact Hr'].
Qed.

Lemma tty_b_ok : kernel_ok tty_b.
Proof.
  assert (kernel_ok dev_b) as Hdev.
  { unfold dev_b. destruct (on_fs_ok (Vfs.mkdir no_create_vm [47; 100; 101; 118]) roomy_b (fun _ _ => True) roomy_ok) as (r & v & -> & Hok & _); [| exact Hok].
    intros base Hb. destruct (mkdir_from no_create_vm base (fs roomy_b) [47; 100; 101; 118] Hb ltac:(cbn; lia)) as (r & v & Hr & Hfs & E).
    exists r, v. split; [exact Hr |]. split; [exact Hfs |]. split; [intros f; by rewrite E | exact I]. }
  unfold tty_b. destruct (on_fs_ok (Vfs.open no_create_vm dev_tty O_CREATE) dev_b (fun _ _ => True) Hdev) as (r & v & -> & Hok & _); [| exact Hok].
  intros base Hb. destruct (open_from no_create_vm base (fs dev_b) dev_tty O_CREATE Hb ltac:(cbn; lia)) as (r & v & Hr & Hfs & Hm).
  exists r, v. split; [exact Hr |]. split; [exact Hfs |]. split; [| exact I]. intros g. destruct r as [f | e]; [| by rewrite Hm].
  destruct Hm as (_ & d & -> & _). rewrite lookup_insert. case_decide; [by eexists | done].
Qed.

End demo.
(** Two segments in one page: the page gets a frame for each, and the first is in use
    and mapped nowhere. *)
Definition text_seg : Elf.Segment := Elf.MkSegment 0x400000 0 0x800 0 0.
Definition data_seg : Elf.Segment := Elf.MkSegment 0x400800 0 0x800 0 0.

Example shared_page_loses_frame :
  let one := snd (map_segments Vmm.demo_root [text_seg] Vmm.demo) in
  let both := snd (map_segments Vmm.demo_root [text_seg; data_seg] Vmm.demo) in
  let lost := Vmm.virt_to_phys Vmm.demo_root 0x400000 one in
  lost <> 0 /\ Pmm.used (Vmm.pmm both) (lost / 4096) = true /\
  Vmm.virt_to_phys Vmm.demo_root 0x400000 both <> lost /\ Vmm.virt_to_phys Vmm.demo_root 0x400800 both = Vmm.virt_to_phys Vmm.demo_root 0x400000 both + 0x800.
Proof. vm_compute. split; [discriminate |]. split; [reflexivity |]. split; [discriminate | reflexivity]. Qed.
