(* ===== verification/Block.v ===== *)
(** * drivers/block.cpp, drivers/include/block.hpp: block devices

    A block device as the file system uses it: sectors of 512 bytes that are read
    and written one at a time.  The operations are the two function pointers of
    [BlockDevice] for a count of 1; what a client relies on is a class, because the
    driver behind the pointers talks to hardware.  [Ram] is a disk in memory.  The
    registry of devices is the whole of block.cpp. *)
From S2P Require Import Prelude Bytes.

Definition SECTOR_SIZE : Z := 512.
Definition MAX_DEVICES : Z := 4.

(** A sector of a device that works: inside the device reads and writes succeed, a
    sector holds what was written to it last, and beyond its end reads fail, as far as
    the 28 bits of a sector address reach. *)
Class BlockDevice (D : Type) := {
  read : D -> Z -> kResult (list Z);
  write : D -> Z -> list Z -> kStatus * D;
  sector_count : D -> Z;
  read_size : forall d lba b, read d lba = Ok b -> length b = 512%nat /\ Forall U8 b;
  read_ok : forall d lba, 0 <= lba < sector_count d -> exists b, read d lba = Ok b;
  read_out : forall d lba, sector_count d <= lba < 2 ^ 28 -> exists e, read d lba = Err e;
  write_ok : forall d lba b, 0 <= lba < sector_count d -> length b = 512%nat -> Forall U8 b ->
    exists d', write d lba b = (Ok tt, d') /\ forall l, 0 <= l < sector_count d -> read d' l = if decide (l = lba) then Ok b else read d l;
  write_count : forall d lba b, sector_count (write d lba b).2 = sector_count d;
}.

(** ** A disk in memory *)
Module Ram.

Record disk := Disk { sectors : gmap Z (list Z); count : Z }.

(** 512 bytes of a list, zeroes beyond its end. *)
Definition full (b : list Z) : list Z := (fun i => u8 (default 0 (b !! i))) <$> seq 0 512.

Definition read (d : disk) (lba : Z) : kResult (list Z) :=
  if (0 <=? lba) && (lba <? count d) then Ok (full (default [] (sectors d !! lba))) else Err IOError.
Definition write (d : disk) (lba : Z) (b : list Z) : kStatus * disk :=
  if (0 <=? lba) && (lba <? count d) then (Ok tt, Disk (<[lba := b]> (sectors d)) (count d)) else (Err IOError, d).

Lemma full_id b : length b = 512%nat -> Forall U8 b -> full b = b.
Proof.
  intros Hl Hb. apply list_eq. intros i. unfold full. rewrite list_lookup_fmap. destruct (decide (i < 512)%nat).
  - rewrite lookup_seq_lt by done. cbn [fmap option_fmap option_map Nat.add]. destruct (lookup_lt_is_Some_2 b i) as [x Hx]; [lia |].
    rewrite Hx. cbn [default]. by rewrite u8_small by apply (Forall_lookup_1 _ _ _ _ Hb Hx).
  - rewrite lookup_seq_ge by lia. by rewrite lookup_ge_None_2 by lia.
Qed.

#[global] Instance ram_device : BlockDevice disk.
Proof.
  refine {| Block.read := read; Block.write := write; sector_count := count |}.
  - intros d lba b. unfold read. case_match; [| done]. intros [= <-]. unfold full. split; [by rewrite length_fmap, length_seq |].
    apply Forall_fmap, Forall_true. intros i. apply u8_bound.
  - intros d lba Hl. unfold read. rewrite (proj2 (Z.leb_le 0 lba)), (proj2 (Z.ltb_lt lba (count d))) by lia. by eexists.
  - intros d lba Hl. unfold read. rewrite (proj2 (Z.ltb_ge lba (count d))), andb_false_r by lia. by eexists.
  - intros d lba b Hl Hlen Hb. unfold write. rewrite (proj2 (Z.leb_le 0 lba)), (proj2 (Z.ltb_lt lba (count d))) by lia. cbn [andb].
    eexists. split; [done |]. intros l _. unfold read. cbn [count sectors]. case_decide as El.
    + subst l. rewrite (proj2 (Z.leb_le 0 lba)), (proj2 (Z.ltb_lt lba (count d))) by lia. cbn [andb].
      rewrite lookup_insert_eq. cbn [default]. by rewrite full_id.
    + by rewrite lookup_insert_ne by done.
  - intros d lba b. unfold write. by case_match.
Defined.
End Ram.

(** ** The registry *)
Module Registry.

(** [devices] and [device_count]; a device is its address. *)
Record state := State { devices : list Z; device_count : Z }.

Definition init : state := State (replicate 4 0) 0.

Definition register_device (dev : Z) (s : state) : bool * state :=
  if MAX_DEVICES <=? device_count s then (false, s)
  else (true, State (<[Z.to_nat (device_count s) := dev]> (devices s)) (device_count s + 1)).

Definition device (s : state) (i : Z) : Z := at_index (devices s) i.

Definition get (s : state) (index : Z) : Z := if device_count s <=? index then 0 else device s index.

(** [while ( *a || *b )]: the strings agree to the terminator. *)
Fixpoint match_name (a b : list Z) : bool :=
  match a, b with
  | [], [] => true
  | x :: a', y :: b' => if x =? y then match_name a' b' else false
  | _, _ => false
  end.

(** [name_of] reads the name of a device. *)
Definition find (name_of : Z -> list Z) (s : state) (name : list Z) : Z :=
  match find_range 0 (device_count s) (fun i => match_name (name_of (device s i)) name) with
  | Some i => device s i
  | None => 0
  end.

Definition count (s : state) : Z := device_count s.

(** The registered devices in order. *)
Definition registered (s : state) (l : list Z) : Prop :=
  length (devices s) = 4%nat /\ device_count s = Z.of_nat (length l) /\ (length l <= 4)%nat /\ take (length l) (devices s) = l.

Lemma init_registered : registered init [].
Proof. unfold registered. cbn. split_and!; (done || lia). Qed.

Lemma register_refines dev s l : registered s l ->
  exists s', register_device dev s = (bool_decide (length l < 4)%nat, s') /\ registered s' (if decide (length l < 4)%nat then l ++ [dev] else l).
Proof.
  intros (Hd & Hc & Hl & Ht). unfold register_device, MAX_DEVICES. destruct (Z.leb_spec 4 (device_count s)).
  - exists s. rewrite bool_decide_eq_false_2, decide_False by lia. done.
  - eexists. rewrite bool_decide_eq_true_2, decide_True by lia. split; [done |]. unfold registered. cbn [devices device_count].
    rewrite length_insert, length_app. cbn [length]. split_and!; try lia. rewrite Hc, Nat2Z.id, Nat.add_1_r.
    rewrite (take_S_r _ _ dev) by (apply list_lookup_insert_eq; lia). by rewrite take_insert_ge, Ht by lia.
Qed.

Lemma match_name_spec a b : match_name a b = bool_decide (a = b).
Proof.
  revert b. induction a as [| x a IH]; intros [| y b]; cbn [match_name]; try done. rewrite IH. destruct (Z.eqb_spec x y) as [-> |].
  - apply bool_decide_ext. split; [by intros -> | by intros [= ->]].
  - symmetry. apply bool_decide_eq_false_2. by intros [= ? ?].
Qed.

Lemma registered_device s l i : registered s l -> (i < length l)%nat -> l !! i = Some (device s (Z.of_nat i)).
Proof.
  intros (Hd & Hc & Hl & Ht) Hi. rewrite <- Ht at 1. rewrite lookup_take_lt by done. unfold device, at_index. rewrite Nat2Z.id.
  destruct (lookup_lt_is_Some_2 (devices s) i) as [x ->]; [lia | done].
Qed.

(** [find] returns the device registered first under the name, or null. *)
Lemma find_first name_of s l name : registered s l ->
  match list_find (fun p => name_of p = name) l with
  | Some (_, p) => find name_of s name = p
  | None => find name_of s name = 0
  end.
Proof.
  intros Hr. pose proof Hr as (_ & Hc & _). unfold find. destruct (list_find _ l) as [[i p] |] eqn:Hf.
  - apply list_find_Some in Hf as (Hi & Hn & Hmin). pose proof (lookup_lt_Some _ _ _ Hi) as Hlt.
    rewrite (registered_device s l i Hr Hlt) in Hi. injection Hi as Hp.
    rewrite (proj2 (find_range_Some 0 (device_count s) _ (Z.of_nat i))).
    + done.
    + rewrite match_name_spec, Hp. split; [lia |]. split; [by apply bool_decide_eq_true_2 |]. intros j Hj. rewrite match_name_spec.
      apply bool_decide_eq_false_2. intros Hnj. refine (Hmin (Z.to_nat j) (device s j) _ _ Hnj); [| lia].
      rewrite (registered_device s l (Z.to_nat j) Hr) by lia. by rewrite Z2Nat.id by lia.
  - apply list_find_None in Hf. rewrite (proj2 (find_range_None 0 (device_count s) _)); [done |]. intros j Hj. rewrite match_name_spec.
    apply bool_decide_eq_false_2. intros Hnj. rewrite Forall_forall in Hf. refine (Hf (device s j) _ Hnj).
    apply (list_elem_of_lookup_2 _ (Z.to_nat j)). rewrite (registered_device s l (Z.to_nat j) Hr) by lia. by rewrite Z2Nat.id by lia.
Qed.
End Registry.
