(* ===== verification/Ports.v ===== *)
(** * Port input and output

    A device is a state that changes with every access to one of its ports; the
    drivers are functions of any such state.  The laws a driver relies on are stated
    with the driver. *)
From S2P Require Import Prelude.

Class Ports (D : Type) := {
  inb : Z -> D -> Z * D;
  outb : Z -> Z -> D -> D;
  inw : Z -> D -> Z * D;
  outw : Z -> Z -> D -> D;
  inl : Z -> D -> Z * D;
  outl : Z -> Z -> D -> D;
}.

(** [x & f], as a condition. *)
Definition set_in (x f : Z) : bool := negb (x .& f =? 0).

(** [for (i = 0; i < n; i++) { s = inb(port); ... }]: [f] says what a value read
    means, [None] to go on. *)
Definition poll {D R} `{!Ports D} (n : Z) (port : Z) (f : Z -> option R) : D -> option R * D :=
  for_exit 0 n (fun _ d => let '(s, d) := inb port d in (f s, d)).
