(* ===== verification/Serial.v ===== *)
(** * kernel/serial.cpp: the serial port

    The driver over any device with ports.  The two loops that wait have no bound in
    the code: they get fuel, and the theorems show that the fuel is enough on a port
    that becomes ready.  [Uart] is what the driver relies on of the chip.  The last
    section is the text the kernel writes to the screen and to the port, as a list of
    calls. *)
From Stdlib Require Import Ascii String.
From S2P Require Import Prelude Monad Ports Vga.
Open Scope Z_scope.

(** The characters of a literal; [char] is signed. *)
Definition schar (x : Z) : Z := if 128 <=? x then x - 256 else x.
Definition txt (s : string) : list Z := (fun a => schar (Z.of_N (N_of_ascii a))) <$> list_ascii_of_string s.
Arguments txt s%_string.

Module Serial.

Definition COM1 : Z := 0x3F8.
Definition DATA : Z := 0.
Definition INT_ENABLE : Z := 1.
Definition BAUD_LOW : Z := 0.
Definition BAUD_HIGH : Z := 1.
Definition FIFO_CTRL : Z := 2.
Definition LINE_CTRL : Z := 3.
Definition MODEM_CTRL : Z := 4.
Definition LINE_STATUS : Z := 5.

Section driver.
Context {D : Type} `{!Ports D} (fuel : nat) (base_port : Z).

Definition put (reg v : Z) : St D unit := modify (outb (base_port + reg) v).
Definition take (reg : Z) : St D Z := fun d => Some (inb (base_port + reg) d).

(** [base_port] is the port given. *)
Definition init : St D unit :=
  put INT_ENABLE 0x00 ;;
  put LINE_CTRL 0x80 ;;
  put BAUD_LOW 0x03 ;;
  put BAUD_HIGH 0x00 ;;
  put LINE_CTRL 0x03 ;;
  put FIFO_CTRL 0xC7 ;;
  put MODEM_CTRL 0x0B.

Definition transmit_ready : St D bool := s ← take LINE_STATUS; mret (set_in s 0x20).
Definition received : St D bool := s ← take LINE_STATUS; mret (set_in s 0x01).

(** [while (!ready());] *)
Fixpoint spin (n : nat) (ready : St D bool) : St D unit :=
  match n with
  | O => halt
  | S n' => r ← ready; if r : bool then skip else spin n' ready
  end.

Definition write_char (c : Z) : St D unit := spin fuel transmit_ready ;; put DATA (u8 c).

Fixpoint write (str : list Z) : St D unit :=
  match str with
  | [] => skip
  | c :: str' => when (c =? 10) (write_char 13) ;; write_char c ;; write str'
  end.

Definition write_line (str : list Z) : St D unit := write str ;; write_char 13 ;; write_char 10.

(** The two buffers are filled as in the console's routines of the same names. *)
Definition write_hex (val : Z) : St D unit := write (hex_string val).
Definition write_dec (val : Z) : St D unit := if val =? 0 then write_char 48 else write (dec_loop 20 val []).

(** [-val] for the least value is itself. *)
Definition write_int (val : Z) : St D unit :=
  if val <? 0 then write_char 45 ;; write_dec (u64 (i64 (- val))) else write_dec (u64 val).

Definition read_char : St D Z := spin fuel received ;; c ← take DATA; mret (schar c).
End driver.

(** ** The chip *)

(** What the port has sent and what waits to be read; a status read shows the
    transmitter free after at most [slow] reads, and a character waiting when there is
    one. *)
Class Uart (D : Type) `{!Ports D} (base_port : Z) := {
  sent : D -> list Z;
  queue : D -> list Z;
  busy : D -> nat;
  slow : nat;
  busy_slow : forall d, (busy d <= slow)%nat;
  on_line_status : forall d, let '(s, d') := inb (base_port + LINE_STATUS) d in
    set_in s 0x20 = bool_decide (busy d = 0%nat) /\ set_in s 0x01 = bool_decide (queue d <> []) /\
    busy d' = Nat.pred (busy d) /\ sent d' = sent d /\ queue d' = queue d;
  on_send : forall d c, U8 c -> busy d = 0%nat -> let d' := outb (base_port + DATA) c d in
    sent d' = sent d ++ [c] /\ queue d' = queue d;
  on_receive : forall d c q, queue d = c :: q -> let '(x, d') := inb (base_port + DATA) d in
    x = c /\ sent d' = sent d /\ queue d' = q;
}.

(** The bytes a text becomes on the line. *)
Definition crlf (str : list Z) : list Z := str ≫= fun c => if c =? 10 then [13; 10] else [u8 c].

Section correct.
Context {D : Type} `{!Ports D} (base_port : Z) `{!Uart D base_port} (fuel : nat).
Hypothesis Hfuel : (slow < fuel)%nat.

(** The call returns and sends [bs]. *)
Definition sends (m : St D unit) (bs : list Z) : Prop := forall d, exists d', m d = Some (tt, d') /\ sent d' = sent d ++ bs /\ queue d' = queue d.

Lemma sends_bind m1 m2 b1 b2 : sends m1 b1 -> sends m2 b2 -> sends (m1 ;; m2) (b1 ++ b2).
Proof.
  intros H1 H2 d. destruct (H1 d) as (d1 & E1 & S1 & Q1). destruct (H2 d1) as (d2 & E2 & S2 & Q2). exists d2.
  split; [unfold mbind, St_bind; by rewrite E1 |]. split; [by rewrite S2, S1, app_assoc | congruence].
Qed.

Lemma sends_skip : sends skip [].
Proof. intros d. exists d. by rewrite app_nil_r. Qed.

Lemma spin_transmit n d : (busy d < n)%nat -> exists d', spin n (transmit_ready base_port) d = Some (tt, d') /\ busy d' = 0%nat /\ sent d' = sent d /\ queue d' = queue d.
Proof.
  revert d. induction n as [| n IH]; intros d Hb; [lia |]. cbn [spin]. unfold transmit_ready, take. step_st.
  pose proof (on_line_status d) as H. destruct (inb (base_port + LINE_STATUS) d) as [s d1]. destruct H as (H1 & _ & H2 & H3 & H4). rewrite H1. case_bool_decide as Hz.
  - exists d1. split; [done |]. split; [lia | done].
  - destruct (IH d1 ltac:(lia)) as (d' & E & HB & HS & HQ). exists d'. split; [done |]. split; [done |]. split; congruence.
Qed.

Lemma write_char_sends c : sends (write_char fuel base_port c) [u8 c].
Proof.
  intros d. pose proof (busy_slow d) as Hb. destruct (spin_transmit fuel d ltac:(lia)) as (d1 & E1 & B1 & S1 & Q1). unfold write_char, put. step_st. rewrite E1.
  destruct (on_send d1 (u8 c) (u8_bound c) B1) as [S2 Q2]. eexists. split; [done |]. split; [by rewrite S2, S1 | congruence].
Qed.

Lemma write_sends str : sends (write fuel base_port str) (crlf str).
Proof.
  induction str as [| c str IH]; [apply sends_skip |]. cbn [write]. unfold crlf. rewrite bind_cons. destruct (Z.eqb_spec c 10) as [-> |]; cbn [when].
  - apply (sends_bind _ _ [13]); [apply write_char_sends |]. apply (sends_bind _ _ [10]); [apply write_char_sends | done].
  - apply (sends_bind _ _ []); [apply sends_skip |]. apply (sends_bind _ _ [u8 c]); [apply write_char_sends | done].
Qed.

Lemma write_line_sends str : sends (write_line fuel base_port str) (crlf str ++ [13; 10]).
Proof. apply sends_bind; [apply write_sends |]. apply (sends_bind _ _ [13] [10]); apply write_char_sends. Qed.

(** Digits are sent as they are. *)
Lemma crlf_plain str : Forall (fun c => 10 < c < 256) str -> crlf str = str.
Proof.
  induction 1 as [| c str Hc _ IH]; [done |]. unfold crlf. rewrite bind_cons. rewrite (proj2 (Z.eqb_neq c 10)) by lia. rewrite u8_small by (unfold U8; lia). by fold (crlf str) in IH |- *; rewrite IH.
Qed.

Lemma write_plain str : Forall (fun c => 10 < c < 256) str -> sends (write fuel base_port str) str.
Proof. intros Hs. pose proof (write_sends str) as H. by rewrite crlf_plain in H. Qed.

Lemma write_dec_sends val : U64 val -> sends (write_dec fuel base_port val) (dec_string val).
Proof.
  intros Hv. unfold write_dec, dec_string. destruct (Z.eqb_spec val 0); [apply write_char_sends |]. apply write_plain.
  eapply Forall_impl; [apply dec_loop_digits; [apply Hv | constructor] |]. unfold digit. cbn. lia.
Qed.

Lemma hex_loop_plain n val acc : Forall (fun c => 10 < c < 256) acc -> Forall (fun c => 10 < c < 256) (hex_loop n val acc).
Proof.
  revert val acc. induction n as [| n IH]; intros val acc Ha; [done |]. cbn [hex_loop]. apply IH. constructor; [| done].
  set (d := Z.land val 15). assert (0 <= d < 16) as Hd by (unfold d; change 15 with (Z.ones 4); rewrite Z.land_ones by lia; apply Z.mod_pos_bound; lia). clearbody d.
  assert (Forall (fun c => 10 < c < 256) hex_digits) as Hf by (repeat constructor; lia).
  destruct (lookup_lt_is_Some_2 hex_digits (Z.to_nat d)) as [x Hx]; [cbn; lia |]. rewrite Hx. apply (Forall_lookup_1 _ _ _ _ Hf Hx).
Qed.

Lemma write_hex_sends val : sends (write_hex fuel base_port val) (hex_string val).
Proof. apply write_plain. unfold hex_string. do 2 (constructor; [lia |]). apply hex_loop_plain. constructor. Qed.

(** The text of a signed number. *)
Definition int_string (val : Z) : list Z := if val <? 0 then 45 :: dec_string (- val) else dec_string val.

Lemma write_int_sends val : - 2 ^ 63 <= val < 2 ^ 63 -> sends (write_int fuel base_port val) (int_string val).
Proof.
  intros Hv. unfold write_int, int_string. destruct (Z.ltb_spec val 0) as [Hn |].
  - assert (u64 (i64 (- val)) = - val) as ->.
    { destruct (decide (val = - 2 ^ 63)) as [-> |]; [done |]. rewrite i64_small by lia. apply u64_small. mach. lia. }
    apply (sends_bind _ _ [45]); [apply write_char_sends |]. apply write_dec_sends. mach. lia.
  - rewrite u64_small by (mach; lia). apply write_dec_sends. mach. lia.
Qed.

Lemma read_char_reads d c q : queue d = c :: q -> exists d', read_char fuel base_port d = Some (schar c, d') /\ queue d' = q /\ sent d' = sent d.
Proof using Hfuel.
  intros Hq. destruct fuel as [| n]; [lia |]. unfold read_char. cbn [spin]. unfold received, take. step_st.
  pose proof (on_line_status d) as H. destruct (inb (base_port + LINE_STATUS) d) as [s d1]. destruct H as (_ & H1 & _ & H3 & H4).
  rewrite H1, bool_decide_eq_true_2 by (by rewrite Hq). pose proof (on_receive d1 c q ltac:(by rewrite H4)) as H. destruct (inb (base_port + DATA) d1) as [x d2].
  destruct H as (-> & H5 & H6). exists d2. split; [done |]. split; congruence.
Qed.
End correct.

(** ** A chip in software *)

Module Sim.
Record chip := Chip { line : list Z; keys : list Z; wait : nat }.

Definition on_inb (p : Z) (d : chip) : Z * chip :=
  if p =? COM1 + LINE_STATUS then
    (match wait d with O => 0x20 | S _ => 0 end + match keys d with [] => 0 | _ => 1 end, Chip (line d) (keys d) (Nat.pred (Nat.min (wait d) 3)))
  else match keys d with c :: q => (c, Chip (line d) q (wait d)) | [] => (0, d) end.
Definition on_outb (p v : Z) (d : chip) : chip :=
  if p =? COM1 + DATA then Chip (line d ++ [v]) (keys d) 3 else d.

#[global] Instance ports : Ports chip := {| inb := on_inb; outb := on_outb; inw := fun _ d => (0, d); outw := fun _ _ d => d; inl := fun _ d => (0, d); outl := fun _ _ d => d |}.

#[global] Instance uart : Uart chip COM1.
Proof.
  refine {| sent := line; queue := keys; busy := fun d => Nat.min (wait d) 3; slow := 3%nat |}.
  - intros d. lia.
  - intros d. cbn [inb ports]. unfold on_inb. rewrite Z.eqb_refl. cbn [line keys wait].
    assert (Nat.min (Nat.pred (Nat.min (wait d) 3)) 3 = Nat.pred (Nat.min (wait d) 3)) as Hw by lia.
    destruct (wait d) as [| n]; destruct (keys d) as [| k q]; (split; [| split]; [by rewrite ?bool_decide_eq_false_2 by lia | done | done]).
  - intros d c Hc Hb. done.
  - intros d c q Hq. cbn [inb ports]. unfold on_inb. cbn. by rewrite Hq.
Defined.
End Sim.

(** ** Results *)

(** C37: On a port whose transmitter becomes free, every print routine returns and sends
    exactly its text: strings with each newline as CR LF, [write_line] with a final CR
    LF, a number's digits so that they read back as the number, the sixteen hexadecimal
    digits likewise, and a minus sign before the magnitude of a negative number, the
    least one included. *)
Theorem serial_prints {D} `{!Ports D} (base_port : Z) `{!Uart D base_port} fuel str val n : (slow < fuel)%nat -> U64 val -> - 2 ^ 63 <= n < 2 ^ 63 ->
  sends base_port (write fuel base_port str) (crlf str) /\
  sends base_port (write_line fuel base_port str) (crlf str ++ [13; 10]) /\
  (exists ds, sends base_port (write_dec fuel base_port val) ds /\ parse_dec ds = val /\ Forall digit ds) /\
  (exists ds, sends base_port (write_hex fuel base_port val) (48 :: 120 :: ds) /\ parse_hex ds = val /\ length ds = 16%nat) /\
  (exists ds, sends base_port (write_int fuel base_port n) (if n <? 0 then 45 :: ds else ds) /\ parse_dec ds = Z.abs n).
Proof.
  intros Hf Hv Hn. split; [by apply write_sends |]. split; [by apply write_line_sends |]. split; [| split].
  - exists (dec_string val). destruct (dec_string_spec val Hv) as (H1 & H2 & _). split; [by apply write_dec_sends | done].
  - exists (hex_loop 16 val []). split; [by apply write_hex_sends |]. split; [| by rewrite hex_loop_length].
    unfold parse_hex. rewrite hex_loop_value; [done |]. change (16 ^ Z.of_nat 16) with (2 ^ 64). done.
  - exists (dec_string (Z.abs n)). destruct (dec_string_spec (Z.abs n)) as (H1 & _ & _); [mach; lia |]. split; [| done].
    pose proof (write_int_sends base_port fuel Hf n Hn) as H. unfold int_string in H. destruct (Z.ltb_spec n 0); [by rewrite Z.abs_neq by lia | by rewrite Z.abs_eq by lia].
Qed.

Lemma serial_prints_witness : exists d', write_int 4 COM1 (- 2 ^ 63) (Sim.Chip [] [] 3) = Some (tt, d') /\ Sim.line d' = txt "-9223372036854775808".
Proof.
  destruct (@serial_prints Sim.chip Sim.ports COM1 Sim.uart 4 [] 0 (- 2 ^ 63) (Nat.lt_succ_diag_r 3) ltac:(mach; lia) ltac:(lia)) as (_ & _ & _ & _ & ds & H & Hp).
  destruct (H (Sim.Chip [] [] 3)) as (d' & Hd & Hs & _). exists d'. split; [exact Hd |].
  assert (write_int 4 COM1 (- 2 ^ 63) (Sim.Chip [] [] 3) = Some (tt, Sim.Chip (txt "-9223372036854775808") [] 3)) as E by (vm_compute; reflexivity).
  rewrite E in Hd. by injection Hd as <-.
Defined.
End Serial.

(** ** Reports

    The calls that print a report, in order. *)

Inductive call :=
  | VColor (fg bg : Color)
  | VText (s : list Z) | VLine (s : list Z) | VHex (n : Z) | VDec (n : Z)
  | SText (s : list Z) | SLine (s : list Z) | SHex (n : Z) | SDec (n : Z).

Section report.
Context {D : Type} `{!Ports D} (fuel : nat) (base_port : Z).

Definition on_screen_do (f : Vga.state -> Vga.state) : St (Vga.state * D) unit := modify (fun s => (f s.1, s.2)).
Definition on_port (m : St D unit) : St (Vga.state * D) unit := run_on snd (fun d s => (s.1, d)) m.

Definition perform (c : call) : St (Vga.state * D) unit :=
  match c with
  | VColor fg bg => on_screen_do (set_color fg bg)
  | VText s => on_screen_do (Vga.write s)
  | VLine s => on_screen_do (Vga.write_line s)
  | VHex n => on_screen_do (Vga.write_hex n)
  | VDec n => on_screen_do (Vga.write_dec n)
  | SText s => on_port (Serial.write fuel base_port s)
  | SLine s => on_port (Serial.write_line fuel base_port s)
  | SHex n => on_port (Serial.write_hex fuel base_port n)
  | SDec n => on_port (Serial.write_dec fuel base_port n)
  end.

Fixpoint report (l : list call) : St (Vga.state * D) unit :=
  match l with
  | [] => skip
  | c :: l' => perform c ;; report l'
  end.
End report.

(** What a report sends to the port. *)
Definition port_text (c : call) : list Z :=
  match c with
  | SText s => Serial.crlf s
  | SLine s => Serial.crlf s ++ [13; 10]
  | SHex n => hex_string n
  | SDec n => dec_string n
  | _ => []
  end.

Definition call_ok (c : call) : Prop := match c with SDec n => U64 n | _ => True end.

Lemma perform_ok {D} `{!Ports D} base_port `{!Serial.Uart D base_port} fuel c v d : (Serial.slow < fuel)%nat -> call_ok c -> wf v ->
  exists v' d', perform fuel base_port c (v, d) = Some (tt, (v', d')) /\ wf v' /\ Serial.sent d' = Serial.sent d ++ port_text c.
Proof.
  intros Hf Hc Hv. assert (forall f, wf (f v) -> exists v' d', on_screen_do f (v, d) = Some (tt, (v', d')) /\ wf v' /\ Serial.sent d' = Serial.sent d ++ []) as HV.
  { intros f Hw. exists (f v), d. by rewrite app_nil_r. }
  assert (forall m bs, Serial.sends base_port m bs -> exists v' d', on_port m (v, d) = Some (tt, (v', d')) /\ wf v' /\ Serial.sent d' = Serial.sent d ++ bs) as HS.
  { intros m bs Hm. destruct (Hm d) as (d' & E & Hs & _). exists v, d'. unfold on_port, run_on. cbn [snd fst]. by rewrite E. }
  destruct c; cbn [perform port_text]; first [apply HV | apply HS].
  - by apply wf_color.
  - by apply write_wf.
  - by apply put_char_wf, write_wf.
  - by apply write_wf.
  - by apply write_wf.
  - by apply Serial.write_sends.
  - by apply Serial.write_line_sends.
  - by apply Serial.write_hex_sends.
  - by apply Serial.write_dec_sends.
Qed.

(** A report ends, keeps the screen in order and sends its text. *)
Lemma report_ok {D} `{!Ports D} base_port `{!Serial.Uart D base_port} fuel l v d : (Serial.slow < fuel)%nat -> Forall call_ok l -> wf v ->
  exists v' d', report fuel base_port l (v, d) = Some (tt, (v', d')) /\ wf v' /\ Serial.sent d' = Serial.sent d ++ (l ≫= port_text).
Proof.
  intros Hf Hl. revert v d. induction Hl as [| c l Hc _ IH]; intros v d Hv; [exists v, d; by rewrite app_nil_r |].
  destruct (perform_ok base_port fuel c v d Hf Hc Hv) as (v1 & d1 & E1 & W1 & S1). destruct (IH v1 d1 W1) as (v2 & d2 & E2 & W2 & S2). exists v2, d2.
  cbn [report]. unfold mbind, St_bind. rewrite E1. split; [done |]. split; [done |]. by rewrite S2, S1, bind_cons, app_assoc.
Qed.
