(* ===== verification/Pci.v ===== *)
(** * kernel/pci.cpp: enumeration of the PCI bus

    The configuration space is reached through two ports.  The scan recurses into the
    bus behind a bridge; the depth of the recursion has no bound of its own in the
    code, so the scan has fuel, and the theorems show that one more than the size of the
    device table is enough on any machine, also one whose bridges form a cycle, because
    a bridge is stored before the scan goes into it. *)
From Stdlib Require Import String.
From S2P Require Import Prelude Monad Ports Vga Serial.

Definition CLASS_STORAGE : Z := 0x01.
Definition CLASS_NETWORK : Z := 0x02.
Definition CLASS_DISPLAY : Z := 0x03.
Definition CLASS_MULTIMEDIA : Z := 0x04.
Definition CLASS_BRIDGE : Z := 0x06.
Definition CLASS_INPUT : Z := 0x09.
Definition CLASS_SERIAL_BUS : Z := 0x0C.
Definition SUB_STORAGE_IDE : Z := 0x01.
Definition SUB_STORAGE_SATA : Z := 0x06.
Definition SUB_STORAGE_NVME : Z := 0x08.
Definition SUB_USB : Z := 0x03.
Definition SUB_BRIDGE_HOST : Z := 0x00.
Definition SUB_BRIDGE_ISA : Z := 0x01.
Definition SUB_BRIDGE_PCI : Z := 0x04.
Definition MAX_DEVICES : Z := 256.

Record Device := Dev {
  bus : Z; slot : Z; func : Z; vendor_id : Z; device_id : Z;
  class_code : Z; subclass : Z; prog_if : Z; revision : Z;
  header_type : Z; multifunction : bool; irq_line : Z; irq_pin : Z; bar : list Z;
}.

Definition config_address (bus slot func offset : Z) : Z :=
  (1 .<< 31) .| u32 (bus .<< 16) .| u32 (slot .<< 11) .| u32 (func .<< 8) .| (offset .& 0xFC).

(** No device answers with all ones. *)
Definition no_device (id : Z) : bool := id .& 0xFFFF =? 0xFFFF.
Definition is_multi (hdr : Z) : bool := set_in (hdr .>> 16) 0x80.

Definition is_bridge (d : Device) : bool := (class_code d =? CLASS_BRIDGE) && (subclass d =? SUB_BRIDGE_PCI).

(** The fields of a header from its registers. *)
Definition header (b s f : Z) (reg : Z -> Z) : Device :=
  let id := reg 0x00 in
  let class_rev := reg 0x08 in
  let hdr := reg 0x0C in
  let irq := reg 0x3C in
  let header_type := u8 ((hdr .>> 16) .& 0x7F) in
  Dev b s f (u16 (id .& 0xFFFF)) (u16 (id .>> 16))
    (u8 ((class_rev .>> 24) .& 0xFF)) (u8 ((class_rev .>> 16) .& 0xFF)) (u8 ((class_rev .>> 8) .& 0xFF)) (u8 (class_rev .& 0xFF))
    header_type (is_multi hdr) (u8 (irq .& 0xFF)) (u8 ((irq .>> 8) .& 0xFF))
    (if header_type =? 0 then (fun i => reg (0x10 + i * 4)) <$> seqZ 0 6 else replicate 6 0).

Section scan.
Context {D : Type} `{!Ports D}.

Definition config_read (bus slot func offset : Z) (d : D) : Z * D :=
  inl 0xCFC (outl 0xCF8 (config_address bus slot func offset) d).

Definition config_write (bus slot func offset val : Z) (d : D) : D :=
  outl 0xCFC val (outl 0xCF8 (config_address bus slot func offset) d).

(** The registers at the offsets [os], in order. *)
Fixpoint read_regs (b s f : Z) (os : list Z) (regs : gmap Z Z) (d : D) : gmap Z Z * D :=
  match os with
  | [] => (regs, d)
  | o :: os' => let '(v, d) := config_read b s f o d in read_regs b s f os' (<[o := v]> regs) d
  end.

Definition read_device (b s f : Z) (d : D) : option Device * D :=
  let '(id, d) := config_read b s f 0x00 d in
  if no_device id then (None, d) else
  let '(regs, d) := read_regs b s f [0x08; 0x0C] {[0x00 := id]} d in
  let bars := if u8 ((default 0 (regs !! 0x0C) .>> 16) .& 0x7F) =? 0 then (fun i => 0x10 + i * 4) <$> seqZ 0 6 else [] in
  let '(regs, d) := read_regs b s f (bars ++ [0x3C]) regs d in
  (Some (header b s f (fun o => default 0 (regs !! o))), d).

(** [dev_list] up to [dev_count], and the machine. *)
Definition pci : Type := list Device * D.

Definition config (b s f o : Z) : St pci Z := fun st => let '(v, d) := config_read b s f o st.2 in Some (v, (st.1, d)).

(** [scan] is the call of [scan_bus]. *)
Definition scan_func (scan : Z -> St pci unit) (b s f : Z) : St pci unit := fun st =>
  if MAX_DEVICES <=? Z.of_nat (length st.1) then Some (tt, st) else
  match read_device b s f st.2 with
  | (None, d) => Some (tt, (st.1, d))
  | (Some dv, d) =>
      (if is_bridge dv then
        buses ← config b s f 0x18;
        let secondary := u8 ((buses .>> 8) .& 0xFF) in
        if negb (secondary =? 0) then scan secondary else skip
      else skip) (st.1 ++ [dv], d)
  end.

(** [for (x : l) f(x);] *)
Fixpoint each (l : list Z) (f : Z -> St pci unit) : St pci unit :=
  match l with
  | [] => skip
  | x :: l' => f x ;; each l' f
  end.

Definition scan_slot (scan : Z -> St pci unit) (b s : Z) : St pci unit :=
  id ← config b s 0 0x00;
  if no_device id then skip else
  scan_func scan b s 0 ;;
  hdr ← config b s 0 0x0C;
  if is_multi hdr then each (seqZ 1 7) (scan_func scan b s) else skip.

Fixpoint scan_bus (fuel : nat) (b : Z) : St pci unit :=
  match fuel with
  | O => halt
  | S fuel' => each (seqZ 0 32) (scan_slot (scan_bus fuel') b)
  end.

(** The loop over the functions of the host bridge, with its [break]. *)
Fixpoint scan_hosts (fuel : nat) (l : list Z) : St pci unit :=
  match l with
  | [] => skip
  | f :: l' => id ← config 0 0 f 0x00; if no_device id then skip else scan_bus fuel f ;; scan_hosts fuel l'
  end.

Definition init (fuel : nat) (d : D) : option (unit * pci) :=
  (hdr ← config 0 0 0 0x0C;
   if negb (is_multi hdr) then scan_bus fuel 0 else scan_hosts fuel (seqZ 0 8)) ([], d).
End scan.
Arguments pci : clear implicits.

(** ** Lookup *)

Definition find_class (devs : list Device) (cls sub : Z) : option Device :=
  snd <$> list_find (fun d => class_code d = cls /\ subclass d = sub) devs.
Definition find_device (devs : list Device) (vendor id : Z) : option Device :=
  snd <$> list_find (fun d => vendor_id d = vendor /\ device_id d = id) devs.
Definition device_count (devs : list Device) : Z := Z.of_nat (length devs).

(** ** The listing *)

Definition class_name (cls sub : Z) : list Z :=
  if cls =? CLASS_STORAGE then
    if sub =? SUB_STORAGE_IDE then txt "IDE controller" else if sub =? SUB_STORAGE_SATA then txt "SATA controller"
    else if sub =? SUB_STORAGE_NVME then txt "NVMe controller" else txt "Storage controller"
  else if cls =? CLASS_NETWORK then txt "Network controller"
  else if cls =? CLASS_DISPLAY then txt "Display controller"
  else if cls =? CLASS_BRIDGE then
    if sub =? SUB_BRIDGE_HOST then txt "Host bridge" else if sub =? SUB_BRIDGE_ISA then txt "ISA bridge"
    else if sub =? SUB_BRIDGE_PCI then txt "PCI-PCI bridge" else txt "Bridge"
  else if cls =? CLASS_SERIAL_BUS then if sub =? SUB_USB then txt "USB controller" else txt "Serial bus controller"
  else if cls =? CLASS_INPUT then txt "Input controller"
  else if cls =? CLASS_MULTIMEDIA then txt "Multimedia controller"
  else txt "Unknown".

Definition dump_device (d : Device) : list call :=
  [SText (txt "  ["); SDec (bus d); SText (txt ":"); SDec (slot d); SText (txt "."); SDec (func d); SText (txt "] ");
   SHex (vendor_id d); SText (txt ":"); SHex (device_id d); SText (txt "  "); SText (class_name (class_code d) (subclass d))] ++
  (if negb (irq_line d =? 0xFF) then [SText (txt "  IRQ="); SDec (irq_line d)] else []) ++
  [SLine (txt "")].

Definition dump (devs : list Device) : list call :=
  [SText (txt "[PCI] Found "); SDec (device_count devs); SLine (txt " devices:")] ++
  (devs ≫= dump_device) ++
  [VColor LightGreen Black; VText (txt "[PCI] "); VDec (device_count devs); VLine (txt " devices found"); VColor White Black].

(** ** Addresses *)

(** The address of a register has the fields of the configuration mechanism, so two
    registers have different addresses. *)
Lemma config_address_fields b s f o : 0 <= b < 256 -> 0 <= s < 32 -> 0 <= f < 8 -> 0 <= o < 256 ->
  config_address b s f o = 2 ^ 31 + b * 2 ^ 16 + s * 2 ^ 11 + f * 2 ^ 8 + (o - o mod 4).
Proof.
  intros Hb Hs Hf Ho. unfold config_address. assert (o .& 0xFC = o - o mod 4) as ->.
  { exact (land_align 8 2 o ltac:(lia) Ho). }
  rewrite !Z.shiftl_mul_pow2 by lia. rewrite !u32_small by (mach; lia). change (1 * 2 ^ 31) with (2 ^ 31).
  pose proof (Z.mod_pos_bound o 4 ltac:(lia)) as Hm. pose proof (Z.mod_le o 4 ltac:(lia) ltac:(lia)) as Hle.
  rewrite (lor_disjoint 24 (2 ^ 31) (b * 2 ^ 16)) by (first [lia | done]).
  rewrite (lor_disjoint 16 (2 ^ 31 + b * 2 ^ 16) (s * 2 ^ 11)) by (first [lia | replace (2 ^ 31 + b * 2 ^ 16) with ((2 ^ 15 + b) * 2 ^ 16) by lia; by apply Z.mod_mul]).
  rewrite (lor_disjoint 11 _ (f * 2 ^ 8)) by (first [lia | replace (2 ^ 31 + b * 2 ^ 16 + s * 2 ^ 11) with ((2 ^ 20 + b * 2 ^ 5 + s) * 2 ^ 11) by lia; by apply Z.mod_mul]).
  rewrite (lor_disjoint 8) by (first [lia | replace (2 ^ 31 + b * 2 ^ 16 + s * 2 ^ 11 + f * 2 ^ 8) with ((2 ^ 23 + b * 2 ^ 8 + s * 2 ^ 3 + f) * 2 ^ 8) by lia; by apply Z.mod_mul]).
  lia.
Qed.

Lemma config_address_inj b s f o b' s' f' o' : 0 <= b < 256 -> 0 <= s < 32 -> 0 <= f < 8 -> 0 <= o < 256 ->
  0 <= b' < 256 -> 0 <= s' < 32 -> 0 <= f' < 8 -> 0 <= o' < 256 -> config_address b s f o = config_address b' s' f' o' ->
  b = b' /\ s = s' /\ f = f' /\ o / 4 = o' / 4.
Proof. intros. rewrite !config_address_fields in * by done. Z.to_euclidean_division_equations. lia. Qed.

(** ** The scan ends *)

Section ends.
Context {D : Type} `{!Ports D}.

(** From [k] stored devices on, [m] returns and the table only grows, within its size. *)
Definition grows (k : nat) (m : St (pci D) unit) : Prop := forall devs d, (k <= length devs <= 256)%nat ->
  exists devs' d', m (devs, d) = Some (tt, (devs', d')) /\ (length devs <= length devs' <= 256)%nat.

Lemma grows_skip k : grows k skip.
Proof. intros devs d Hk. exists devs, d. split; [done | lia]. Qed.

Lemma grows_mono k k' m : (k <= k')%nat -> grows k m -> grows k' m.
Proof. intros Hk Hm devs d Hd. apply Hm. lia. Qed.

Lemma grows_config k b s f o (g : Z -> St (pci D) unit) : (forall v, grows k (g v)) -> grows k (v ← config b s f o; g v).
Proof.
  intros Hg devs d Hk. unfold config, mbind, St_bind. cbn [fst snd]. destruct (config_read b s f o d) as [v d1]. by apply Hg.
Qed.

Lemma grows_bind k m1 m2 : grows k m1 -> grows k m2 -> grows k (m1 ;; m2).
Proof.
  intros H1 H2 devs d Hk. destruct (H1 devs d Hk) as (devs1 & d1 & E1 & L1). destruct (H2 devs1 d1 ltac:(lia)) as (devs2 & d2 & E2 & L2).
  exists devs2, d2. unfold mbind, St_bind. rewrite E1. split; [done | lia].
Qed.

Lemma grows_each k l f : (forall x, grows k (f x)) -> grows k (each l f).
Proof. intros Hf. induction l as [| x l IH]; [apply grows_skip | by apply grows_bind]. Qed.

Lemma grows_func k scan b s f : (forall x, grows (S k) (scan x)) -> grows k (scan_func scan b s f).
Proof.
  intros Hs devs d Hk. unfold scan_func. cbn [fst snd]. unfold MAX_DEVICES. destruct (Z.leb_spec 256 (Z.of_nat (length devs))); [exists devs, d; split; [done | lia] |].
  destruct (read_device b s f d) as [[dv |] d1]; [| exists devs, d1; split; [done | lia]].
  assert (grows (S k) (if is_bridge dv then buses ← config b s f 0x18; let secondary := u8 ((buses .>> 8) .& 0xFF) in if negb (secondary =? 0) then scan secondary else skip else skip)) as Hg.
  { destruct (is_bridge dv); [| apply grows_skip]. apply grows_config. intros v. cbv zeta. case_match; [apply Hs | apply grows_skip]. }
  destruct (Hg (devs ++ [dv]) d1) as (devs' & d' & E & L); [rewrite length_app; cbn; lia |]. exists devs', d'. split; [done |]. rewrite length_app in L. cbn in L. lia.
Qed.

Lemma grows_slot k scan b s : (forall x, grows (S k) (scan x)) -> grows k (scan_slot scan b s).
Proof.
  intros Hs. unfold scan_slot. apply grows_config. intros id. case_match; [apply grows_skip |]. apply grows_bind; [by apply grows_func |].
  apply grows_config. intros hdr. case_match; [| apply grows_skip]. apply grows_each. intros x. by apply grows_func.
Qed.

Lemma grows_bus n b : grows (257 - n) (scan_bus n b).
Proof.
  revert b. induction n as [| n IH]; intros b; [intros devs d Hk; lia |]. cbn [scan_bus]. apply grows_each. intros s. apply grows_slot. intros x.
  apply (grows_mono (257 - n)); [lia | apply IH].
Qed.

(** The loop of the functions of the host bridge. *)
Lemma grows_hosts n l : grows (257 - n) (scan_hosts n l).
Proof.
  induction l as [| f l IH]; [apply grows_skip |]. cbn [scan_hosts]. apply grows_config. intros id. case_match; [apply grows_skip |].
  apply grows_bind; [apply grows_bus | done].
Qed.
End ends.

(** C38: Enumeration ends on every machine, whatever its configuration space answers,
    also when bridges lead back to a bus that is being scanned: a recursion depth of one
    more than the table's size is enough, and at most 256 devices are stored. *)
Theorem enumeration_ends {D} `{!Ports D} (d : D) : exists devs d', init 257 d = Some (tt, (devs, d')) /\ 0 <= device_count devs <= MAX_DEVICES.
Proof.
  assert (grows 0 (hdr ← config 0 0 0 0x0C; if negb (is_multi hdr) then scan_bus 257 0 else scan_hosts 257 (seqZ 0 8) : St (pci D) unit)) as H.
  { apply grows_config. intros hdr. case_match; [apply (grows_bus 257) | apply (grows_hosts 257)]. }
  destruct (H [] d ltac:(cbn; lia)) as (devs & d' & E & L). exists devs, d'. split; [done |]. unfold device_count, MAX_DEVICES. lia.
Qed.

(** ** What the scan finds *)

(** A configuration space that answers a read with the register at the address, and
    does not change. *)
Class ConfigSpace (D : Type) `{!Ports D} := {
  cfg : D -> Z -> Z;
  on_config : forall d a, let '(v, d') := inl 0xCFC (outl 0xCF8 a d) in v = cfg d a /\ cfg d' = cfg d;
}.

(** A register of a function, the function's header, and the bus behind it. *)
Definition reg (c : Z -> Z) (b s f o : Z) : Z := c (config_address b s f o).
Definition device_at (c : Z -> Z) (b s f : Z) : option Device :=
  if no_device (reg c b s f 0x00) then None else Some (header b s f (reg c b s f)).
Definition behind (c : Z -> Z) (dv : Device) : Z := u8 ((reg c (bus dv) (slot dv) (func dv) 0x18 .>> 8) .& 0xFF).

(** The functions of a bus: of a slot whose function 0 answers, that one, and the other
    seven when it says so. *)
Inductive on_bus (c : Z -> Z) (b : Z) (dv : Device) : Prop :=
  On_bus s f : 0 <= s < 32 -> is_Some (device_at c b s 0) -> f = 0 \/ 1 <= f < 8 /\ is_multi (reg c b s 0 0x0C) = true ->
    device_at c b s f = Some dv -> on_bus c b dv.

(** The buses of the machine: those of the host bridge, and those behind a bridge. *)
Inductive reached (c : Z -> Z) : Z -> Prop :=
  | Root_single : is_multi (reg c 0 0 0 0x0C) = false -> reached c 0
  | Root_multi f : is_multi (reg c 0 0 0 0x0C) = true -> 0 <= f < 8 -> (forall g, 0 <= g <= f -> no_device (reg c 0 0 g 0x00) = false) -> reached c f
  | Behind b dv : reached c b -> on_bus c b dv -> is_bridge dv = true -> behind c dv <> 0 -> reached c (behind c dv).

Section finds.
Context {D : Type} `{!Ports D, !ConfigSpace D} (c : Z -> Z).

Lemma config_read_cfg b s f o d : let '(v, d') := config_read b s f o d in v = reg (cfg d) b s f o /\ cfg d' = cfg d.
Proof. apply on_config. Qed.

Lemma read_regs_cfg b s f os regs d : cfg d = c -> let '(regs', d') := read_regs b s f os regs d in
  cfg d' = c /\ forall o, regs' !! o = if decide (o ∈ os) then Some (reg c b s f o) else regs !! o.
Proof.
  revert regs d. induction os as [| o os IH]; intros regs d Hc; cbn [read_regs]; [split; [done |]; intros o; by rewrite decide_False by apply not_elem_of_nil |].
  pose proof (config_read_cfg b s f o d) as H. destruct (config_read b s f o d) as [v d1]. destruct H as [-> H1]. rewrite Hc in *.
  specialize (IH (<[o := reg c b s f o]> regs) d1 H1). destruct (read_regs b s f os _ d1) as [regs' d']. destruct IH as [IH1 IH2]. split; [done |]. intros o'. rewrite IH2.
  destruct (decide (o' = o)) as [-> | Hne].
  - rewrite (decide_True (P := o ∈ o :: os)) by by left. case_decide; [done |]. by rewrite lookup_insert_eq.
  - destruct (decide (o' ∈ os)); [by rewrite decide_True by by right |]. rewrite decide_False, lookup_insert_ne by set_solver. done.
Qed.

Lemma read_device_cfg b s f d : cfg d = c -> exists d', read_device b s f d = (device_at c b s f, d') /\ cfg d' = c.
Proof.
  intros Hc. unfold read_device, device_at. pose proof (config_read_cfg b s f 0 d) as H. destruct (config_read b s f 0 d) as [v d1]. destruct H as [-> H1]. rewrite Hc in *.
  case_match; [by exists d1 |]. pose proof (read_regs_cfg b s f [8; 12] {[0 := reg c b s f 0]} d1 H1) as H2. destruct (read_regs b s f [8; 12] _ d1) as [regs d2]. destruct H2 as [H2 H3].
  assert (regs !! 12 = Some (reg c b s f 12)) as H12 by (by rewrite H3, decide_True by set_solver). rewrite H12. cbn [from_option id].
  set (bars := if u8 _ =? 0 then _ else _). pose proof (read_regs_cfg b s f (bars ++ [60]) regs d2 H2) as H4. destruct (read_regs b s f _ regs d2) as [regs' d3].
  destruct H4 as [H4 H5]. exists d3. split; [| done]. f_equal. f_equal.
  assert (forall o, o ∈ bars \/ o = 60 \/ o = 0 \/ o = 8 \/ o = 12 -> default 0 (regs' !! o) = reg c b s f o) as Hr.
  { intros o Ho. rewrite H5. destruct (decide (o ∈ bars ++ [60])) as [| Hn]; [done |]. rewrite H3. case_decide as H8; [done |].
    rewrite !elem_of_app, !elem_of_cons, elem_of_nil in *. assert (o = 0) as -> by tauto. by rewrite lookup_singleton_eq. }
  unfold header. rewrite (Hr 0), (Hr 8), (Hr 12), (Hr 60) by tauto. f_equal. subst bars. case_match; [| done].
  apply list_fmap_ext. intros i x Hx. apply Hr. left. apply list_elem_of_fmap. exists x. split; [lia |]. by apply list_elem_of_lookup_2 in Hx.
Qed.

(** ** The invariant of the scan *)

Definition closed (devs : list Device) (dv : Device) : Prop :=
  is_bridge dv = true -> behind c dv <> 0 -> forall x, on_bus c (behind c dv) x -> x ∈ devs.

(** [devs'] adds to [devs] functions of the machine; unless the table is full, it has
    those in [G] and those behind every bridge added. *)
Definition found (G : Device -> Prop) (devs devs' : list Device) : Prop := exists new, devs' = devs ++ new /\
  Forall (fun x => reached c (bus x) /\ on_bus c (bus x) x) new /\ (length devs' <= 256)%nat /\
  (length devs' = 256%nat \/ (forall x, G x -> x ∈ devs') /\ Forall (closed devs') new).

Definition visits (k : nat) (m : St (pci D) unit) (G : Device -> Prop) : Prop := forall devs d, (k <= length devs <= 256)%nat -> cfg d = c ->
  exists devs' d', m (devs, d) = Some (tt, (devs', d')) /\ cfg d' = c /\ found G devs devs'.

Lemma found_trans G1 G2 l1 l2 l3 : found G1 l1 l2 -> found G2 l2 l3 -> found (fun x => G1 x \/ G2 x) l1 l3.
Proof.
  intros (n1 & -> & S1 & L1 & C1) (n2 & -> & S2 & L2 & C2). exists (n1 ++ n2). split; [by rewrite app_assoc |]. split; [by apply Forall_app |]. split; [done |].
  destruct C2 as [C2 | [G2' C2]]; [by left |]. destruct C1 as [C1 | [G1' C1]]; [left; rewrite !length_app in *; lia |]. right. split.
  - intros x [Hx | Hx]; [apply elem_of_app; left; by apply G1' | by apply G2'].
  - apply Forall_app. split; [| done]. eapply Forall_impl; [exact C1 |]. intros x Hx Hb Hn y Hy. apply elem_of_app. left. by apply Hx.
Qed.

Lemma visits_weaken k m (G G' : Device -> Prop) : (forall x, G' x -> G x) -> visits k m G -> visits k m G'.
Proof.
  intros HG Hm devs d Hk Hc. destruct (Hm devs d Hk Hc) as (devs' & d' & E & C & new & N1 & N2 & N3 & N4). exists devs', d'. split; [done |]. split; [done |].
  exists new. split_and!; try done. destruct N4 as [? | [N4 N5]]; [by left | right]. split; [auto | done].
Qed.

Lemma visits_skip k : visits k skip (fun _ => False).
Proof. intros devs d Hk Hc. exists devs, d. split; [done |]. split; [done |]. exists []. rewrite app_nil_r. split; [done |]. split; [constructor |]. split; [lia |]. right. split; [done | constructor]. Qed.

Lemma visits_bind k m1 m2 G1 G2 : visits k m1 G1 -> visits k m2 G2 -> visits k (m1 ;; m2) (fun x => G1 x \/ G2 x).
Proof.
  intros H1 H2 devs d Hk Hc. destruct (H1 devs d Hk Hc) as (devs1 & d1 & E1 & C1 & F1). pose proof F1 as (new & N1 & _ & N3 & _).
  destruct (H2 devs1 d1) as (devs2 & d2 & E2 & C2 & F2); [rewrite N1, length_app in *; lia | done |]. exists devs2, d2. unfold mbind, St_bind. rewrite E1.
  split; [done |]. split; [done |]. by apply (found_trans _ _ _ devs1).
Qed.

Lemma visits_config k b s f o (g : Z -> St (pci D) unit) G : visits k (g (reg c b s f o)) G -> visits k (v ← config b s f o; g v) G.
Proof.
  intros Hg devs d Hk Hc. unfold config, mbind, St_bind. cbn [fst snd]. pose proof (config_read_cfg b s f o d) as H. destruct (config_read b s f o d) as [v d1].
  destruct H as [-> H1]. rewrite Hc in *. by apply Hg.
Qed.

Lemma visits_each k l f (G : Z -> Device -> Prop) : (forall x, x ∈ l -> visits k (f x) (G x)) -> visits k (each l f) (fun y => exists x, x ∈ l /\ G x y).
Proof.
  induction l as [| x l IH]; intros Hf; cbn [each].
  - apply (visits_weaken _ _ (fun _ => False)); [| apply visits_skip]. intros y (x & Hx & _). by apply elem_of_nil in Hx.
  - apply (visits_weaken _ _ (fun y => G x y \/ exists x', x' ∈ l /\ G x' y)); [| apply visits_bind; [apply Hf; by left | apply IH; intros; apply Hf; by right]].
    intros y (x' & Hx & Hy). apply elem_of_cons in Hx as [-> | Hx]; [by left | right; by exists x'].
Qed.

Lemma device_at_place b s f dv : device_at c b s f = Some dv -> bus dv = b /\ slot dv = s /\ func dv = f.
Proof. unfold device_at. case_match; [done |]. by intros [= <-]. Qed.

Lemma visits_func k scan b s f : reached c b -> (forall dv, device_at c b s f = Some dv -> on_bus c b dv) ->
  (forall x, reached c x -> visits (S k) (scan x) (on_bus c x)) -> visits k (scan_func scan b s f) (fun dv => device_at c b s f = Some dv).
Proof.
  intros Hb Hon Hs devs d Hk Hc. unfold scan_func. cbn [fst snd]. unfold MAX_DEVICES. destruct (Z.leb_spec 256 (Z.of_nat (length devs))).
  { exists devs, d. split; [done |]. split; [done |]. exists []. rewrite app_nil_r. split; [done |]. split; [constructor |]. split; [lia |]. left. lia. }
  destruct (read_device_cfg b s f d Hc) as (d1 & -> & C1). destruct (device_at c b s f) as [dv |] eqn:Ed.
  - destruct (device_at_place b s f dv Ed) as (Eb & Es & Ef). pose proof (Hon dv eq_refl) as Hdv.
    assert (visits (S k) (if is_bridge dv then buses ← config b s f 0x18; let secondary := u8 ((buses .>> 8) .& 0xFF) in if negb (secondary =? 0) then scan secondary else skip else skip)
      (fun x => is_bridge dv = true /\ behind c dv <> 0 /\ on_bus c (behind c dv) x)) as Hv.
    { destruct (is_bridge dv) eqn:Ebr; [| apply (visits_weaken _ _ (fun _ => False)); [naive_solver | apply visits_skip]]. apply visits_config. cbv zeta.
      assert (behind c dv = u8 ((reg c b s f 0x18 .>> 8) .& 0xFF)) as Ebh by (unfold behind; by rewrite Eb, Es, Ef). rewrite <- Ebh.
      destruct (Z.eqb_spec (behind c dv) 0) as [| Hn]; cbn [negb]; [apply (visits_weaken _ _ (fun _ => False)); [naive_solver | apply visits_skip] |].
      apply (visits_weaken _ _ (on_bus c (behind c dv))); [naive_solver |]. apply Hs. by apply (Behind c b). }
    destruct (Hv (devs ++ [dv]) d1) as (devs' & d' & E & C & new & N1 & N2 & N3 & N4); [rewrite length_app; cbn; lia | done |]. exists devs', d'. split; [done |]. split; [done |].
    exists (dv :: new). split; [by rewrite N1, <- app_assoc |]. split; [constructor; [by rewrite Eb | done] |]. split; [done |]. destruct N4 as [N4 | [N4 N5]]; [by left | right]. split.
    + intros x [= <-]. rewrite N1. set_solver.
    + constructor; [| done]. intros Hbr Hn x Hx. by apply N4.
  - exists devs, d1. split; [done |]. split; [done |]. exists []. rewrite app_nil_r. split; [done |]. split; [constructor |]. split; [lia |]. right. split; [done | constructor].
Qed.

Lemma visits_slot k scan b s : 0 <= s < 32 -> reached c b -> (forall x, reached c x -> visits (S k) (scan x) (on_bus c x)) ->
  visits k (scan_slot scan b s) (fun dv => is_Some (device_at c b s 0) /\ exists f, (f = 0 \/ 1 <= f < 8 /\ is_multi (reg c b s 0 0x0C) = true) /\ device_at c b s f = Some dv).
Proof.
  intros Hs Hb Hscan. unfold scan_slot. apply visits_config. destruct (no_device (reg c b s 0 0)) eqn:En.
  { apply (visits_weaken _ _ (fun _ => False)); [| apply visits_skip]. intros x [[y Hy] _]. unfold device_at in Hy. by rewrite En in Hy. }
  assert (is_Some (device_at c b s 0)) as H0 by (unfold device_at; rewrite En; by eexists).
  set (G := fun f dv => device_at c b s f = Some dv).
  apply (visits_weaken _ _ (fun dv => G 0 dv \/ (exists f, f ∈ seqZ 1 7 /\ is_multi (reg c b s 0 0x0C) = true /\ G f dv))).
  - intros x (_ & f & [-> | [Hf Hm]] & Hx); [by left | right]. exists f. split; [apply elem_of_seqZ; lia | done].
  - apply visits_bind.
    + apply visits_func; [done | | done]. intros dv Hdv. apply (On_bus c b dv s 0); [done | done | by left | done].
    + apply visits_config. destruct (is_multi (reg c b s 0 12)) eqn:Em; [| apply (visits_weaken _ _ (fun _ => False)); [naive_solver | apply visits_skip]].
      apply (visits_weaken _ _ (fun y => exists f, f ∈ seqZ 1 7 /\ G f y)); [naive_solver |]. apply visits_each. intros f Hf. apply elem_of_seqZ in Hf.
      apply visits_func; [done | | done]. intros dv Hdv. apply (On_bus c b dv s f); [done | done | right; split; [lia | done] | done].
Qed.

Lemma visits_bus n b : reached c b -> visits (257 - n) (scan_bus n b) (on_bus c b).
Proof.
  revert b. induction n as [| n IH]; intros b Hb; [intros devs d Hk; lia |]. cbn [scan_bus].
  eapply visits_weaken; [| apply visits_each; intros s Hs; apply elem_of_seqZ in Hs; apply visits_slot; [lia | exact Hb |]].
  - intros x [s f Hs H0 Hf Hx]. exists s. split; [apply elem_of_seqZ; lia |]. cbn beta. split; [done |]. by exists f.
  - intros x Hx devs d Hk. apply IH; [done | lia].
Qed.

Lemma visits_hosts n a m : is_multi (reg c 0 0 0 0x0C) = true -> 0 <= a -> a + m <= 8 -> (forall g, 0 <= g < a -> no_device (reg c 0 0 g 0x00) = false) ->
  visits (257 - n) (scan_hosts n (seqZ a m)) (fun x => exists f, a <= f < a + m /\ (forall g, 0 <= g <= f -> no_device (reg c 0 0 g 0x00) = false) /\ on_bus c f x).
Proof.
  intros Hm. remember (Z.to_nat m) as j eqn:Hj. revert a m Hj. induction j as [| j IH]; intros a m Hj Ha Hl Hg.
  - rewrite seqZ_nil by lia. apply (visits_weaken _ _ (fun _ => False)); [| apply visits_skip]. intros x (f & Hf & _). lia.
  - rewrite seqZ_cons by lia. cbn [scan_hosts]. apply visits_config. destruct (no_device (reg c 0 0 a 0)) eqn:En.
    { apply (visits_weaken _ _ (fun _ => False)); [| apply visits_skip]. intros x (f & Hf & Hp & _). rewrite Hp in En by lia. done. }
    assert (forall g, 0 <= g < Z.succ a -> no_device (reg c 0 0 g 0) = false) as Hg' by (intros g Hlt; destruct (decide (g = a)) as [-> |]; [done | apply Hg; lia]).
    apply (visits_weaken _ _ (fun x => on_bus c a x \/ exists f, Z.succ a <= f < Z.succ a + Z.pred m /\ (forall g, 0 <= g <= f -> no_device (reg c 0 0 g 0x00) = false) /\ on_bus c f x)).
    + intros x (f & Hf & Hp & Hx). destruct (decide (f = a)) as [-> |]; [by left | right]. exists f. split; [lia | done].
    + apply visits_bind; [apply visits_bus | apply IH; [lia | lia | lia | done]]. apply Root_multi; [done | lia |]. intros g Hlt. apply Hg'. lia.
Qed.
End finds.


(** ** Machines in software *)

Module Sim.
(** The address last written and the registers. *)
Record machine := Machine { address : Z; registers : Z -> Z }.

#[global] Instance ports : Ports machine := {| inb := fun _ d => (0, d); outb := fun _ _ d => d; inw := fun _ d => (0, d); outw := fun _ _ d => d;
  inl := fun _ d => (registers d (address d), d); outl := fun p v d => if p =? 0xCF8 then Machine v (registers d) else d |}.

#[global] Instance space : ConfigSpace machine.
Proof. by refine {| cfg := registers |}. Defined.

(** Function 0 of some slots, by its identification, class and bus registers. *)
Fixpoint slots (l : list (Z * Z * (Z * Z * Z))) (a : Z) : Z :=
  match l with
  | (b, s, (id, cls, buses)) :: l' =>
      if a =? config_address b s 0 0x00 then id else if a =? config_address b s 0 0x08 then cls
      else if a =? config_address b s 0 0x18 then buses else slots l' a
  | [] => if a .& 0xFF =? 0 then 0xFFFFFFFF else 0
  end.

(** A bridge to bus 1, which has a disk controller; and a bridge that leads to its own bus. *)
Definition pc : machine := Machine 0 (slots [(0, 2, (0x12348086, 0x06040000, 0x00000100)); (1, 3, (0x71118086, 0x01010000, 0))]).
Definition cycle : machine := Machine 0 (slots [(0, 2, (0x12348086, 0x06040000, 0x00000100)); (1, 3, (0x12348086, 0x06040000, 0x00000100))]).
End Sim.

(** The table a call leaves. *)
Definition table {D} (r : option (unit * pci D)) : list Device := match r with Some (_, (devs, _)) => devs | None => [] end.

Lemma enumeration_ends_witness : exists devs d', init 257 Sim.cycle = Some (tt, (devs, d')) /\ 0 <= device_count devs <= MAX_DEVICES.
Proof. exact (enumeration_ends Sim.cycle). Defined.


(** ** What the scan does not check *)

(** A bridge that leads to its own bus is stored until the table is full. *)
Example bridge_cycle_fills : exists devs d', init 257 Sim.cycle = Some (tt, (devs, d')) /\ device_count devs = MAX_DEVICES.
Proof.
  assert (device_count (table (init 257 Sim.cycle)) = MAX_DEVICES) as H by (vm_compute; reflexivity).
  destruct (init 257 Sim.cycle) as [[[] [devs d']] |]; [by exists devs, d' | discriminate H].
Qed.
