(* ===== verification/Ata.v ===== *)
(** * drivers/ata.cpp: the disk driver

    The driver over any device with ports.  A sector is 256 words; the buffers are
    maps from word indices.  What the driver relies on of the drive is the register
    protocol of the ATA specification for programmed input and output, which [AtaDisk]
    states as a class; under it the driver reads and writes the sectors of the medium,
    and is a block device. *)
From Stdlib Require Import String.
From S2P Require Import Prelude Monad Vga Serial Bytes Ports Block.

Definition ATA_PRIMARY_BASE : Z := 0x1F0.
Definition ATA_PRIMARY_CTRL : Z := 0x3F6.
Definition ATA_SECONDARY_BASE : Z := 0x170.
Definition ATA_SECONDARY_CTRL : Z := 0x376.
Definition REG_DATA : Z := 0.
Definition REG_ERROR : Z := 1.
Definition REG_SECCOUNT : Z := 2.
Definition REG_LBA_LO : Z := 3.
Definition REG_LBA_MID : Z := 4.
Definition REG_LBA_HI : Z := 5.
Definition REG_DRIVE_HEAD : Z := 6.
Definition REG_STATUS : Z := 7.
Definition REG_COMMAND : Z := 7.
Definition STATUS_ERR : Z := 1.
Definition STATUS_DRQ : Z := 1 .<< 3.
Definition STATUS_DF : Z := 1 .<< 5.
Definition STATUS_RDY : Z := 1 .<< 6.
Definition STATUS_BSY : Z := 1 .<< 7.
Definition CMD_READ_SECTORS : Z := 0x20.
Definition CMD_WRITE_SECTORS : Z := 0x30.
Definition CMD_FLUSH_CACHE : Z := 0xE7.
Definition CMD_IDENTIFY : Z := 0xEC.

Record ATADrive := Drive { base : Z; ctrl : Z; slave : Z; sectors : Z; present : bool }.

Definition no_drive : ATADrive := Drive 0 0 0 0 false.

Section driver.
Context {D : Type} `{!Ports D}.

Definition ata_delay (ctrl : Z) (d : D) : D :=
  snd (inb ctrl (snd (inb ctrl (snd (inb ctrl (snd (inb ctrl d))))))).

(** ** Waiting *)

Definition waited (r : option bool * D) : bool * D := (default false (fst r), snd r).

Definition wait_ready (ctrl : Z) (d : D) : bool * D :=
  waited (poll 100000 ctrl (fun status =>
    if set_in status STATUS_BSY then None
    else if set_in status (STATUS_ERR .| STATUS_DF) then Some false
    else if set_in status STATUS_RDY then Some true else None) d).

Definition wait_drq (base : Z) (d : D) : bool * D :=
  waited (poll 100000 (base + REG_STATUS) (fun status =>
    if set_in status STATUS_ERR then Some false
    else if set_in status STATUS_DF then Some false
    else if set_in status STATUS_DRQ then Some true else None) d).

Definition wait_bsy_clear (ctrl : Z) (d : D) : bool * D :=
  waited (poll 100000 ctrl (fun status => if negb (set_in status STATUS_BSY) then Some true else None) d).

Definition wait_drq_or_err (base : Z) (d : D) : bool * D :=
  waited (poll 1000000 (base + REG_STATUS) (fun s =>
    if set_in s STATUS_BSY then None
    else if set_in s (STATUS_ERR .| STATUS_DF) then Some false
    else if set_in s STATUS_DRQ then Some true else None) d).

(** ** One sector *)

Definition setup_lba28 (drv : ATADrive) (lba count : Z) (d : D) : D :=
  let b := base drv in
  let d := outb (b + REG_DRIVE_HEAD) (u8 (0xE0 .| (slave drv .<< 4) .| ((lba .>> 24) .& 0x0F))) d in
  let d := ata_delay (ctrl drv) d in
  let d := snd (poll 1000000 (ctrl drv) (fun s => if negb (set_in s (STATUS_BSY .| STATUS_DRQ)) then Some tt else None) d) in
  let d := outb (b + REG_ERROR) 0 d in
  let d := outb (b + REG_SECCOUNT) count d in
  let d := outb (b + REG_LBA_LO) (u8 lba) d in
  let d := outb (b + REG_LBA_MID) (u8 (lba .>> 8)) d in
  outb (b + REG_LBA_HI) (u8 (lba .>> 16)) d.

(** [for (i = 0; i < 256; i++) dst[s * 256 + i] = inw(base + REG_DATA);] *)
Definition read_words (base s : Z) (bd : gmap Z Z * D) : gmap Z Z * D :=
  for_range 0 256 (fun i bd => let '(w, d) := inw (base + REG_DATA) (snd bd) in (<[u32 (s * 256 + i) := w]> (fst bd), d)) bd.

Definition write_words (base s : Z) (src : gmap Z Z) (d : D) : D :=
  for_range 0 256 (fun i d => outw (base + REG_DATA) (default 0 (src !! u32 (s * 256 + i))) d) d.

(** The body of the loop over attempts; the result is [ok]. *)
Definition read_attempt (drv : ATADrive) (lba s : Z) (bd : gmap Z Z * D) : bool * (gmap Z Z * D) :=
  let '(buf, d) := bd in
  let '(clear, d) := wait_bsy_clear (ctrl drv) d in
  if negb clear then (false, (buf, d)) else
  let d := setup_lba28 drv (u64 (lba + s)) 1 d in
  let d := outb (base drv + REG_COMMAND) CMD_READ_SECTORS d in
  let d := ata_delay (ctrl drv) d in
  let '(drq, d) := wait_drq_or_err (base drv) d in
  if negb drq then (false, (buf, d)) else
  let '(buf, d) := read_words (base drv) s (buf, d) in
  let '(st, d) := inb (base drv + REG_STATUS) d in
  (negb (set_in st (STATUS_ERR .| STATUS_DF)), (buf, d)).

Definition write_attempt (drv : ATADrive) (lba s : Z) (src : gmap Z Z) (d : D) : bool * D :=
  let '(clear, d) := wait_bsy_clear (ctrl drv) d in
  if negb clear then (false, d) else
  let d := setup_lba28 drv (u64 (lba + s)) 1 d in
  let d := outb (base drv + REG_COMMAND) CMD_WRITE_SECTORS d in
  let d := ata_delay (ctrl drv) d in
  let '(drq, d) := wait_drq_or_err (base drv) d in
  if negb drq then (false, d) else
  let d := write_words (base drv) s src d in
  let d := ata_delay (ctrl drv) d in
  let '(clear, d) := wait_bsy_clear (ctrl drv) d in
  if negb clear then (false, d) else
  let '(st, d) := inb (base drv + REG_STATUS) d in
  (negb (set_in st (STATUS_ERR .| STATUS_DF)), d).

(** [for (attempt = 0; attempt < 4 && !ok; attempt++)] *)
Definition attempts {S} (try : S -> bool * S) (s : S) : bool * S :=
  let '(r, s) := for_exit 0 4 (fun _ s => let '(ok, s) := try s in (if ok : bool then Some tt else None, s)) s in
  (match r with Some _ => true | None => false end, s).

(** ** Many sectors *)

Definition drive (drives : list ATADrive) (idx : Z) : ATADrive := default no_drive (drives !! Z.to_nat idx).

Definition read_sectors (drives : list ATADrive) (drive_idx lba count : Z) (bd : gmap Z Z * D) : kResult Z * (gmap Z Z * D) :=
  if (4 <=? drive_idx) || negb (present (drive drives drive_idx)) then (Err DeviceNotReady, bd) else
  if count =? 0 then (Ok 0, bd) else
  let drv := drive drives drive_idx in
  match for_exit 0 count (fun s bd => let '(ok, bd) := attempts (read_attempt drv lba s) bd in (if ok : bool then None else Some tt, bd)) bd with
  | (Some _, bd) => (Err IOError, bd)
  | (None, bd) => (Ok count, bd)
  end.

Definition write_sectors (drives : list ATADrive) (drive_idx lba count : Z) (src : gmap Z Z) (d : D) : kResult Z * D :=
  if (4 <=? drive_idx) || negb (present (drive drives drive_idx)) then (Err DeviceNotReady, d) else
  if count =? 0 then (Ok 0, d) else
  let drv := drive drives drive_idx in
  match for_exit 0 count (fun s d => let '(ok, d) := attempts (write_attempt drv lba s src) d in (if ok : bool then None else Some tt, d)) d with
  | (Some _, d) => (Err IOError, d)
  | (None, d) =>
      let d := outb (base drv + REG_COMMAND) CMD_FLUSH_CACHE d in
      let '(clear, d) := wait_bsy_clear (ctrl drv) d in
      if negb clear then (Err IOError, d) else (Ok count, d)
  end.

(** ** The block device's two operations; [priv] holds the index *)

Definition bdev_read (drives : list ATADrive) (priv lba count : Z) (bd : gmap Z Z * D) : kResult Z * (gmap Z Z * D) :=
  read_sectors drives (u8 priv) lba count bd.

Definition bdev_write (drives : list ATADrive) (priv lba count : Z) (src : gmap Z Z) (d : D) : kStatus * D :=
  let '(res, d) := write_sectors drives (u8 priv) lba count src d in
  (match res with Err e => Err e | Ok _ => Ok tt end, d).

(** ** Finding drives *)

Definition identify (drv : ATADrive) (d : D) : bool * ATADrive * D :=
  let '(ready, d) := wait_ready (ctrl drv) d in
  if negb ready then (false, drv, d) else
  let b := base drv in
  let d := outb (b + REG_DRIVE_HEAD) (u8 (0xA0 .| (slave drv .<< 4))) d in
  let d := ata_delay (ctrl drv) d in
  let d := outb (b + REG_SECCOUNT) 0 d in
  let d := outb (b + REG_LBA_LO) 0 d in
  let d := outb (b + REG_LBA_MID) 0 d in
  let d := outb (b + REG_LBA_HI) 0 d in
  let d := outb (b + REG_COMMAND) CMD_IDENTIFY d in
  let d := ata_delay (ctrl drv) d in
  let '(st, d) := inb (b + REG_STATUS) d in
  if st =? 0 then (false, drv, d) else
  let d := snd (poll 100000 (b + REG_STATUS) (fun s => if negb (set_in s STATUS_BSY) then Some tt else None) d) in
  let '(mid, d) := inb (b + REG_LBA_MID) d in
  let '(hi, d) := if negb (mid =? 0) then (1, d) else inb (b + REG_LBA_HI) d in
  if negb (hi =? 0) then (false, drv, d) else
  match poll 100000 (b + REG_STATUS) (fun s => if set_in s STATUS_ERR then Some false else if set_in s STATUS_DRQ then Some true else None) d with
  | (Some false, d) => (false, drv, d)
  | (_, d) =>
      let '(ident, d) := read_words b 0 (∅, d) in
      let n := u32 (default 0 (ident !! 60)) .| u32 (default 0 (ident !! 61) .<< 16) in
      (0 <? n, Drive (base drv) (ctrl drv) (slave drv) n (0 <? n), d)
  end.

(** What [init] assigns to [drives]. *)
Definition probes : list ATADrive :=
  [Drive ATA_PRIMARY_BASE ATA_PRIMARY_CTRL 0 0 false; Drive ATA_PRIMARY_BASE ATA_PRIMARY_CTRL 1 0 false;
   Drive ATA_SECONDARY_BASE ATA_SECONDARY_CTRL 0 0 false; Drive ATA_SECONDARY_BASE ATA_SECONDARY_CTRL 1 0 false].

Definition names : list (list Z) := [txt "hda"; txt "hdb"; txt "hdc"; txt "hdd"].

(** The fields of a [BlockDevice] other than its two operations, which are always
    [bdev_read] and [bdev_write]; the name array is zero before the characters are
    stored. *)
Record BlockDev := Bdev { bd_name : list Z; bd_sectors : Z; bd_size : Z; bd_priv : Z }.

Definition no_bdev : BlockDev := Bdev [] 0 0 0.

(** The two static arrays, the registry of block devices, the messages on the serial
    port, and the machine. *)
Record found := Found { drives : list ATADrive; bdevs : list BlockDev; registry : Registry.state; messages : list call; machine : D }.

Definition found_message (i : Z) (drv : ATADrive) : list call :=
  [SText (txt "[ATA] found "); SText (default [] (names !! Z.to_nat i)); SText (txt " sectors="); SDec (sectors drv);
   SText (txt " ("); SDec (sectors drv / 2048); SText (txt " MiB)" ++ [10])].

(** One turn of the loop; [bdev_at i] is the address of [bdevs[i]]. *)
Definition probe (bdev_at : Z -> Z) (i : Z) (f : found) : found :=
  let '(ok, drv, d) := identify (drive (drives f) i) (machine f) in
  let ds := <[Z.to_nat i := drv]> (drives f) in
  if negb ok then Found ds (bdevs f) (registry f) (messages f) d else
  let bd := Bdev (take 15 (default [] (names !! Z.to_nat i))) (sectors drv) 512 i in
  Found ds (<[Z.to_nat i := bd]> (bdevs f)) (snd (Registry.register_device (bdev_at i) (registry f))) (messages f ++ found_message i drv) d.

Definition init (bdev_at : Z -> Z) (r : Registry.state) (d : D) : found :=
  for_range 0 4 (probe bdev_at) (Found probes (replicate 4 no_bdev) r [] d).
End driver.
Arguments found : clear implicits.

(** ** What [init] finds *)

Section probing.
Context {D : Type} `{!Ports D}.

(** A drive is found exactly when it is marked present, and then has sectors. *)
Lemma identify_present (drv : ATADrive) (d : D) : present drv = false ->
  let '(ok, drv', _) := identify drv d in present drv' = ok /\ (ok = true -> 0 < sectors drv' < 2 ^ 32).
Proof.
  assert (forall x y : Z, 0 < u32 x .| u32 y -> 0 < u32 x .| u32 y < 2 ^ 32) as Hu.
  { intros x y Hn. split; [done |]. apply lor_bound; [lia | apply u32_bound | apply u32_bound]. }
  intros Hp. unfold identify. destruct (wait_ready _ _) as [[] d1]; cbn [negb]; [| done]. destruct (inb _ _) as [st d2]. destruct (st =? 0); [done |].
  destruct (inb _ _) as [mid d3]. destruct (if negb (mid =? 0) then _ else _) as [hi d4]. destruct (negb (hi =? 0)); [done |].
  destruct (poll _ _ _ _) as [[[] |] d5]; [| done |]; destruct (read_words _ _ _) as [ident d6]; (split; [done | intros Hn; apply Hu, Z.ltb_lt, Hn]).
Qed.

(** The drives found so far. *)
Definition found_in (ds : list ATADrive) (n : Z) : list Z := base.filter (fun i => present (drive ds i) = true) (seqZ 0 n).

Lemma drive_insert ds i drv j : 0 <= i -> 0 <= j -> (Z.to_nat i < length ds)%nat -> drive (<[Z.to_nat i := drv]> ds) j = if decide (i = j) then drv else drive ds j.
Proof.
  intros. unfold drive. case_decide; [subst; by rewrite list_lookup_insert_eq |]. by rewrite list_lookup_insert_ne by lia.
Qed.

Lemma found_in_insert ds i drv : 0 <= i -> (Z.to_nat i < length ds)%nat ->
  found_in (<[Z.to_nat i := drv]> ds) (i + 1) = found_in ds i ++ (if present drv then [i] else []).
Proof.
  intros Hi Hl. unfold found_in. rewrite seqZ_app, filter_app by lia. f_equal.
  - assert (forall j, j ∈ seqZ 0 i -> drive (<[Z.to_nat i := drv]> ds) j = drive ds j) as Hd.
    { intros j Hj%elem_of_seqZ. by rewrite drive_insert, decide_False by lia. }
    clear Hl Hi. induction (seqZ 0 i) as [| j l IH]; [done |]. rewrite !filter_cons, (Hd j) by (by left). rewrite IH; [done |]. intros k Hk. apply Hd. by right.
  - change (seqZ (0 + i) 1) with [0 + i]. assert (drive (<[Z.to_nat i := drv]> ds) (0 + i) = drv) as E by (by rewrite drive_insert, decide_True by lia).
    rewrite filter_cons, filter_nil, E. by destruct (present drv).
Qed.

(** What has been set up after the turns below [n]. *)
Record probed (bdev_at : Z -> Z) (n : Z) (f : found D) : Prop := {
  pr_drives : length (drives f) = 4%nat;
  pr_bdevs : length (bdevs f) = 4%nat;
  pr_registry : Registry.registered (registry f) (bdev_at <$> found_in (drives f) n);
  pr_found : forall i, i ∈ found_in (drives f) n -> 0 < sectors (drive (drives f) i) < 2 ^ 32 /\
    bdevs f !! Z.to_nat i = Some (Bdev (default [] (names !! Z.to_nat i)) (sectors (drive (drives f) i)) 512 i);
  pr_rest : forall i, n <= i < 4 -> present (drive (drives f) i) = false;
}.

Lemma probe_step bdev_at i (f : found D) : 0 <= i < 4 -> probed bdev_at i f -> probed bdev_at (i + 1) (probe bdev_at i f).
Proof.
  intros Hi [Hd Hb Hr Hf Hn]. unfold probe. pose proof (identify_present (drive (drives f) i) (machine f) (Hn i ltac:(lia))) as Hid.
  destruct (identify _ _) as [[ok drv] d]. destruct Hid as [Hp Hs]. subst ok.
  assert (forall j, j ∈ found_in (drives f) i -> 0 <= j < i) as Hlt by (intros j (_ & Hj%elem_of_seqZ)%list_elem_of_filter; lia).
  pose proof (found_in_insert (drives f) i drv ltac:(lia) ltac:(lia)) as Hfi.
  assert (forall j, i + 1 <= j < 4 -> present (drive (<[Z.to_nat i := drv]> (drives f)) j) = false) as Hrest.
  { intros j Hj. rewrite drive_insert, decide_False by lia. apply Hn. lia. }
  destruct (present drv); cbn [negb].
  - split; cbn [drives bdevs registry]; [by rewrite length_insert | by rewrite length_insert | | | done].
    + rewrite Hfi, fmap_app. destruct (Registry.register_refines (bdev_at i) (registry f) _ Hr) as (r' & -> & Hr'). cbn [snd]. rewrite decide_True in Hr'; [done |].
      rewrite length_fmap. assert (length (found_in (drives f) i) <= length (seqZ 0 i))%nat as Hle by apply length_filter. rewrite length_seqZ in Hle. lia.
    + intros j. rewrite Hfi. intros [Hj | ->%list_elem_of_singleton]%elem_of_app.
      * specialize (Hlt j Hj). rewrite drive_insert, decide_False, list_lookup_insert_ne by lia. by apply Hf.
      * rewrite drive_insert, decide_True, list_lookup_insert_eq by lia. split; [by apply Hs |]. do 3 f_equal.
        assert (i = 0 \/ i = 1 \/ i = 2 \/ i = 3) as [-> | [-> | [-> | ->]]] by lia; reflexivity.
  - rewrite app_nil_r in Hfi. split; cbn [drives bdevs registry]; [by rewrite length_insert | done | by rewrite Hfi | | done].
    intros j. rewrite Hfi. intros Hj. specialize (Hlt j Hj). rewrite drive_insert, decide_False by lia. by apply Hf.
Qed.

(** The drives that answered are registered in order, under their names and with
    their sizes; the others are not present, so every access to them fails. *)
Lemma init_registers bdev_at r (d : D) : Registry.registered r [] -> probed bdev_at 4 (init bdev_at r d).
Proof.
  intros Hr. unfold init. apply (for_range_ind (probed bdev_at)); [lia | | intros i f Hi; by apply probe_step].
  split; cbn [drives bdevs registry]; [done | done | done | by intros i Hi%elem_of_nil |].
  intros i Hi. assert (i = 0 \/ i = 1 \/ i = 2 \/ i = 3) as [-> | [-> | [-> | ->]]] by lia; reflexivity.
Qed.
End probing.
