(* ===== verification/AtaDisk.v ===== *)
(** * The disk driver on a drive

    The register protocol of an ATA drive for programmed input and output as a class,
    the theorems about the driver of [Ata] on any drive that follows it, the driver as
    a [BlockDevice], so that the file system's theorems hold over it, and a drive in
    software that follows the protocol. *)
From S2P Require Import Prelude Bytes Ports Block Ata.

(** ** The drive

    The registers of a channel and what it is doing, as the specification describes
    programmed input and output: after a command the drive is busy for some status
    reads, then it has an error, or it offers or takes the 256 words of a sector. *)

Inductive phase :=
  | Idle (err : bool)
  | Sending (ws : list Z)
  | Taking (ws : list Z)
  | Busy (n : nat) (err : bool) (ws : option (list Z)) (taking : bool).

Record chan := Chan { r_count : Z; r_lo : Z; r_mid : Z; r_hi : Z; r_head : Z; ph : phase }.

(** What follows when the drive is no longer busy. *)
Definition after_busy (err : bool) (ws : option (list Z)) (taking : bool) : phase :=
  if err then Idle true else if taking then Taking [] else match ws with Some l => Sending l | None => Idle false end.

Definition status (p : phase) : Z :=
  match p with
  | Idle err => if err then STATUS_RDY .| STATUS_ERR else STATUS_RDY
  | Sending _ | Taking _ => STATUS_RDY .| STATUS_DRQ
  | Busy _ _ _ _ => STATUS_BSY
  end.

Definition tick (p : phase) : phase :=
  match p with
  | Busy (S n) err ws t => Busy n err ws t
  | Busy O err ws t => after_busy err ws t
  | _ => p
  end.

Definition set_ph (p : phase) (c : chan) : chan := Chan (r_count c) (r_lo c) (r_mid c) (r_hi c) (r_head c) p.

Definition put_reg (r v : Z) (c : chan) : chan :=
  if r =? REG_SECCOUNT then Chan v (r_lo c) (r_mid c) (r_hi c) (r_head c) (ph c)
  else if r =? REG_LBA_LO then Chan (r_count c) v (r_mid c) (r_hi c) (r_head c) (ph c)
  else if r =? REG_LBA_MID then Chan (r_count c) (r_lo c) v (r_hi c) (r_head c) (ph c)
  else if r =? REG_LBA_HI then Chan (r_count c) (r_lo c) (r_mid c) v (r_head c) (ph c)
  else if r =? REG_DRIVE_HEAD then Chan (r_count c) (r_lo c) (r_mid c) (r_hi c) v (ph c)
  else c.

(** The selected drive and the sector address in the registers. *)
Definition unit_of (c : chan) : Z := (r_head c .>> 4) .& 1.
Definition lba_of (c : chan) : Z := (r_head c mod 16) * 2 ^ 24 + r_hi c * 2 ^ 16 + r_mid c * 2 ^ 8 + r_lo c.

(** A status read shows a busy drive at most this often after a command. *)
Definition patience : Z := 90000.

Class AtaDevice (D : Type) `{!Ports D} (b c : Z) := {
  view : D -> chan;
  medium : D -> Z -> Z -> list Z;
  capacity : D -> Z -> Z;
  delay : D -> nat;
  fails : D -> bool;
  delay_bound : forall d, Z.of_nat (delay d) < patience;
  capacity_bound : forall d u, 0 <= capacity d u <= 2 ^ 28;
  medium_words : forall d u l, length (medium d u l) = 256%nat /\ Forall (fun w => 0 <= w < 2 ^ 16) (medium d u l);
  on_status : forall p d, p = b + REG_STATUS \/ p = c ->
    fst (inb p d) = status (ph (view d)) /\ view (snd (inb p d)) = set_ph (tick (ph (view d))) (view d) /\
    medium (snd (inb p d)) = medium d /\ capacity (snd (inb p d)) = capacity d;
  on_register : forall r v d e, 1 <= r <= 6 -> 0 <= v < 2 ^ 8 -> ph (view d) = Idle e ->
    view (outb (b + r) v d) = put_reg r v (view d) /\ medium (outb (b + r) v d) = medium d /\ capacity (outb (b + r) v d) = capacity d;
  on_read : forall d e, ph (view d) = Idle e -> r_count (view d) = 1 -> let d' := outb (b + REG_COMMAND) CMD_READ_SECTORS d in
    view d' = set_ph (Busy (delay d) (fails d || (capacity d (unit_of (view d)) <=? lba_of (view d)))
      (Some (medium d (unit_of (view d)) (lba_of (view d)))) false) (view d) /\ medium d' = medium d /\ capacity d' = capacity d;
  on_write : forall d e, ph (view d) = Idle e -> r_count (view d) = 1 -> let d' := outb (b + REG_COMMAND) CMD_WRITE_SECTORS d in
    view d' = set_ph (Busy (delay d) (fails d || (capacity d (unit_of (view d)) <=? lba_of (view d))) None true) (view d) /\
    medium d' = medium d /\ capacity d' = capacity d;
  on_flush : forall d e, ph (view d) = Idle e -> let d' := outb (b + REG_COMMAND) CMD_FLUSH_CACHE d in
    view d' = set_ph (Busy (delay d) (fails d) None false) (view d) /\ medium d' = medium d /\ capacity d' = capacity d;
  on_data_in : forall d w ws, ph (view d) = Sending (w :: ws) -> let d' := snd (inw (b + REG_DATA) d) in
    fst (inw (b + REG_DATA) d) = w /\ view d' = set_ph (match ws with [] => Idle (fails d) | _ => Sending ws end) (view d) /\
    medium d' = medium d /\ capacity d' = capacity d;
  on_data_out : forall d ws w, ph (view d) = Taking ws -> (length ws < 256)%nat -> Forall (fun w => 0 <= w < 2 ^ 16) (ws ++ [w]) -> let d' := outw (b + REG_DATA) w d in
    capacity d' = capacity d /\
    if decide (length ws = 255%nat) then
      view d' = set_ph (Busy (delay d) (fails d) None false) (view d) /\
      (forall u l, (u <> unit_of (view d) \/ l <> lba_of (view d)) -> medium d' u l = medium d u l) /\
      (fails d = false -> medium d' (unit_of (view d)) (lba_of (view d)) = ws ++ [w])
    else view d' = set_ph (Taking (ws ++ [w])) (view d) /\ medium d' = medium d;
}.

(** ** The driver on a drive *)

Section correct.
Context {D : Type} `{!Ports D} (b c : Z) `{!AtaDevice D b c}.

(** [d'] has the media of [d]. *)
Definition same (d d' : D) : Prop := medium d' = medium d /\ capacity d' = capacity d.

Lemma same_refl d : same d d.
Proof. done. Qed.
Lemma same_trans d1 d2 d3 : same d1 d2 -> same d2 d3 -> same d1 d3.
Proof. intros [H1 H2] [H3 H4]. split; congruence. Qed.

(** The number of status reads until the drive has settled, and where it settles. *)
Definition pending (p : phase) : nat := match p with Busy n _ _ _ => S n | _ => 0 end.
Definition settled (p : phase) : phase := match p with Busy _ e ws t => after_busy e ws t | _ => p end.

Lemma settled_idem p : settled (settled p) = settled p /\ pending (settled p) = 0%nat.
Proof. destruct p as [| | | n e ws t]; try done. cbn. unfold after_busy. destruct e, t, ws; done. Qed.

Lemma tick_spec p : settled (tick p) = settled p /\ pending (tick p) = Nat.pred (pending p).
Proof. destruct p as [| | | [| n] e ws t]; try done. cbn [tick settled pending]. by destruct (settled_idem (Busy 0 e ws t)). Qed.

Lemma pending_0 p : pending p = 0%nat -> settled p = p.
Proof. by destruct p. Qed.

Lemma status_busy p : pending p <> 0%nat -> status p = STATUS_BSY.
Proof. by destruct p. Qed.

Lemma set_ph_twice p q v : set_ph p (set_ph q v) = set_ph p v.
Proof. done. Qed.

(** A loop over the status ends at the first value that means something. *)
Lemma poll_spec {R} (f : Z -> option R) p d n r : p = b + REG_STATUS \/ p = c ->
  f STATUS_BSY = None -> f (status (settled (ph (view d)))) = Some r -> Z.of_nat (pending (ph (view d))) < n ->
  exists d', poll n p f d = (Some r, d') /\ view d' = set_ph (settled (ph (view d))) (view d) /\ same d d'.
Proof.
  intros Hp Hb Hr Hn. unfold poll. assert (forall i k d, pending (ph (view d)) = k -> f (status (settled (ph (view d)))) = Some r -> i + Z.of_nat k < n ->
    exists d', for_exit i n (fun _ d => let '(s, d) := inb p d in (f s, d)) d = (Some r, d') /\ view d' = set_ph (settled (ph (view d))) (view d) /\ same d d') as Hloop.
  { clear d Hr Hn. intros i k. revert i. induction k as [| k IH]; intros i d Hk Hr Hi; rewrite for_exit_cons by lia;
      destruct (on_status p d Hp) as (H1 & H2 & H3 & H4); destruct (inb p d) as [s d1]; cbn [fst snd] in *; subst s.
    - rewrite pending_0 in * by done. rewrite Hr. exists d1. split; [done |]. split; [| done]. rewrite H2. destruct (ph (view d)); done.
    - rewrite status_busy, Hb by lia. destruct (tick_spec (ph (view d))) as [T1 T2].
      assert (ph (view d1) = tick (ph (view d))) as E by (by rewrite H2).
      destruct (IH (i + 1) d1) as (d' & -> & Hv & Hs); [by rewrite E, T2, Hk | by rewrite E, T1 | lia |].
      exists d'. split; [done |]. split; [| by apply (same_trans d d1)]. by rewrite Hv, E, T1, H2, set_ph_twice. }
  apply (Hloop 0 (pending (ph (view d)))); [done | done | lia].
Qed.

(** The four reads of a delay. *)
Lemma delay_spec d : exists q, view (ata_delay c d) = set_ph q (view d) /\ settled q = settled (ph (view d)) /\
  (pending q <= pending (ph (view d)))%nat /\ same d (ata_delay c d).
Proof.
  unfold ata_delay. set (st := fun d => snd (inb c d)).
  assert (forall d, exists q, view (st d) = set_ph q (view d) /\ settled q = settled (ph (view d)) /\ (pending q <= pending (ph (view d)))%nat /\ same d (st d)) as Hst.
  { intros x. destruct (on_status c x (or_intror eq_refl)) as (_ & H2 & H3 & H4). destruct (tick_spec (ph (view x))) as [T1 T2].
    exists (tick (ph (view x))). split; [done |]. split; [done |]. split; [lia | done]. }
  change (inb c (inb c (inb c (inb c d).2).2).2).2 with (st (st (st (st d)))).
  destruct (Hst d) as (q1 & V1 & S1 & P1 & M1). destruct (Hst (st d)) as (q2 & V2 & S2 & P2 & M2).
  destruct (Hst (st (st d))) as (q3 & V3 & S3 & P3 & M3). destruct (Hst (st (st (st d)))) as (q4 & V4 & S4 & P4 & M4).
  exists q4. rewrite V3, V2, V1 in V4. rewrite V1 in S2, P2. rewrite V2 in S3, P3. rewrite V3 in S4, P4. cbn [ph set_ph] in *.
  split; [by rewrite V4, !set_ph_twice |]. split; [congruence |]. split; [lia |].
  apply (same_trans _ _ _ M1), (same_trans _ _ _ M2), (same_trans _ _ _ M3), M4.
Qed.

Definition reliable : Prop := forall d : D, fails d = false.

(** The drive is waiting for a command, or will be soon. *)
Definition idle (d : D) : Prop := (exists e, settled (ph (view d)) = Idle e) /\ Z.of_nat (pending (ph (view d))) <= patience.

Definition ready (d : D) : Prop := exists e, ph (view d) = Idle e.

Lemma ph_idle d e : ph (view d) = Idle e -> idle d.
Proof. intros He. unfold idle. rewrite He. split; [by exists e | done]. Qed.

Lemma busy_idle d v q x : view d = set_ph q v -> settled q = settled x -> (pending q <= pending x)%nat ->
  (exists e, settled x = Idle e) -> Z.of_nat (pending x) <= patience -> idle d.
Proof. intros Hv Hs Hp [e He] Hb. unfold idle. rewrite Hv. cbn [ph set_ph]. split; [exists e; congruence | lia]. Qed.

Lemma wait_bsy_spec d : Z.of_nat (pending (ph (view d))) <= patience ->
  exists d', wait_bsy_clear c d = (true, d') /\ view d' = set_ph (settled (ph (view d))) (view d) /\ same d d'.
Proof.
  intros Hp. unfold patience in Hp. unfold wait_bsy_clear. destruct (poll_spec (fun status => if negb (set_in status STATUS_BSY) then Some true else None) c d 100000 true) as (d' & -> & Hv & Hs);
    [by right | done | | lia |].
  - destruct (settled_idem (ph (view d))) as [_ Hp0]. destruct (settled (ph (view d))) as [[] | | | ]; done.
  - by exists d'.
Qed.

Lemma wait_idle d : idle d -> exists d' e, wait_bsy_clear c d = (true, d') /\ ph (view d') = Idle e /\ same d d'.
Proof. intros [[e He] Hp]. destruct (wait_bsy_spec d Hp) as (d' & Hw & Hv & Hs). exists d', e. split; [done |]. rewrite Hv, He. done. Qed.

(** After a command the driver sees an error or the request for data. *)
Lemma wait_drq_spec d : Z.of_nat (pending (ph (view d))) <= patience -> settled (ph (view d)) <> Idle false ->
  exists d', wait_drq_or_err b d = (match settled (ph (view d)) with Sending _ | Taking _ => true | _ => false end, d') /\
    view d' = set_ph (settled (ph (view d))) (view d) /\ same d d'.
Proof.
  intros Hp Hi. unfold patience in Hp. unfold wait_drq_or_err.
  set (f := fun s => if set_in s STATUS_BSY then None else if set_in s (STATUS_ERR .| STATUS_DF) then Some false else if set_in s STATUS_DRQ then Some true else None).
  pose proof (settled_idem (ph (view d))) as [_ Hp0].
  assert (forall r, f (status (settled (ph (view d)))) = Some r -> exists d', waited (poll 1000000 (b + REG_STATUS) f d) = (r, d') /\
    view d' = set_ph (settled (ph (view d))) (view d) /\ same d d') as Hr.
  { intros r Hf. destruct (poll_spec f (b + REG_STATUS) d 1000000 r) as (d' & -> & Hv & Hs); [by left | done | done | lia |]. by exists d'. }
  destruct (settled (ph (view d))) as [[] | | | ]; try done; by apply Hr.
Qed.

(** ** The address registers *)

Lemma head_bits lba sl : 0 <= lba -> sl = 0 \/ sl = 1 ->
  let h := u8 (0xE0 .| (sl .<< 4) .| ((lba .>> 24) .& 0x0F)) in (h .>> 4) .& 1 = sl /\ h mod 16 = (lba / 2 ^ 24) mod 16.
Proof.
  intros Hl Hs h. unfold h. change 0x0F with (Z.ones 4). rewrite Z.land_ones, (Z.shiftr_div_pow2 lba) by lia. change (2 ^ 4) with 16.
  assert (0 <= (lba / 2 ^ 24) mod 16 < 16) as Hx by (apply Z.mod_pos_bound; lia). set (x := (lba / 2 ^ 24) mod 16) in *. clearbody x.
  assert (x = 0 \/ x = 1 \/ x = 2 \/ x = 3 \/ x = 4 \/ x = 5 \/ x = 6 \/ x = 7 \/ x = 8 \/ x = 9 \/ x = 10 \/ x = 11 \/ x = 12 \/ x = 13 \/ x = 14 \/ x = 15) as Hc by lia.
  destruct Hs as [-> | ->]; repeat (destruct Hc as [-> | Hc]; [by vm_compute |]); subst x; by vm_compute.
Qed.

Lemma lba_bytes lba : 0 <= lba -> ((lba / 2 ^ 24) mod 16) * 2 ^ 24 + u8 (lba .>> 16) * 2 ^ 16 + u8 (lba .>> 8) * 2 ^ 8 + u8 lba = lba mod 2 ^ 28.
Proof.
  intros Hl. unfold u8, wrap. rewrite !Z.shiftr_div_pow2 by lia. change (2 ^ 28) with (2 ^ 8 * (2 ^ 8 * (2 ^ 8 * 16))).
  rewrite !Z.rem_mul_r by lia. rewrite !Z.div_div by lia. change (2 ^ 8 * 2 ^ 8) with (2 ^ 16). change (2 ^ 16 * 2 ^ 8) with (2 ^ 24). lia.
Qed.

(** The drive's place on the channel. *)
Definition on_channel (drv : ATADrive) : Prop := base drv = b /\ ctrl drv = c /\ (slave drv = 0 \/ slave drv = 1).

Lemma set_ph_id d e : ph (view d) = Idle e -> set_ph (Idle e) (view d) = view d.
Proof. intros <-. by destruct (view d). Qed.

Lemma delay_idle d e : ph (view d) = Idle e -> view (ata_delay c d) = view d /\ same d (ata_delay c d).
Proof.
  intros He. destruct (delay_spec d) as (q & Hv & Hs & Hp & Hsame). rewrite He in Hs, Hp. cbn [pending settled] in *.
  rewrite pending_0 in Hs by lia. subst q. by rewrite Hv, set_ph_id.
Qed.

Lemma setup_spec drv lba d e : on_channel drv -> 0 <= lba -> ph (view d) = Idle e -> let d' := setup_lba28 drv lba 1 d in
  ph (view d') = Idle e /\ r_count (view d') = 1 /\ unit_of (view d') = slave drv /\ lba_of (view d') = lba mod 2 ^ 28 /\ same d d'.
Proof.
  intros (Hb & Hc & Hsl) Hl He. unfold setup_lba28. cbv zeta. rewrite Hb, Hc. set (h := u8 (0xE0 .| _ .| _)). destruct (head_bits lba (slave drv) Hl Hsl) as [Hu Hh]. fold h in Hu, Hh.
  assert (U8 h) as Hh8 by apply u8_bound. clearbody h.
  destruct (on_register REG_DRIVE_HEAD h d e) as (V1 & M1 & C1); [done | done | done |]. set (d1 := outb _ h d) in *. clearbody d1.
  assert (ph (view d1) = Idle e) as E1 by (by rewrite V1).
  destruct (delay_idle d1 e E1) as [V2 S2]. set (d2 := ata_delay c d1) in *. clearbody d2. rewrite <- V2 in E1.
  destruct (poll_spec (fun s => if negb (set_in s (STATUS_BSY .| STATUS_DRQ)) then Some tt else None) c d2 1000000 tt) as (d3 & -> & V3 & S3);
    [by right | done | rewrite E1; by destruct e | rewrite E1; cbn; lia |]. cbn [snd]. rewrite E1 in V3. cbn [settled] in V3. rewrite set_ph_id in V3 by done.
  rewrite <- V3 in E1.
  destruct (on_register REG_ERROR 0 d3 e) as (V4 & M4 & C4); [done | done | done |]. set (d4 := outb _ _ d3) in *. clearbody d4. assert (ph (view d4) = Idle e) as E4 by (by rewrite V4).
  destruct (on_register REG_SECCOUNT 1 d4 e) as (V5 & M5 & C5); [done | done | done |]. set (d5 := outb _ _ d4) in *. clearbody d5. assert (ph (view d5) = Idle e) as E5 by (by rewrite V5).
  destruct (on_register REG_LBA_LO (u8 lba) d5 e) as (V6 & M6 & C6); [done | apply u8_bound | done |]. set (d6 := outb _ _ d5) in *. clearbody d6. assert (ph (view d6) = Idle e) as E6 by (by rewrite V6).
  destruct (on_register REG_LBA_MID (u8 (lba .>> 8)) d6 e) as (V7 & M7 & C7); [done | apply u8_bound | done |]. set (d7 := outb _ _ d6) in *. clearbody d7. assert (ph (view d7) = Idle e) as E7 by (by rewrite V7).
  destruct (on_register REG_LBA_HI (u8 (lba .>> 16)) d7 e) as (V8 & M8 & C8); [done | apply u8_bound | done |]. set (d8 := outb _ _ d7) in *. clearbody d8.
  assert (view d8 = Chan 1 (u8 lba) (u8 (lba .>> 8)) (u8 (lba .>> 16)) h (ph (view d))) as ->.
  { by rewrite V8, V7, V6, V5, V4, V3, V2, V1. }
  cbn zeta. unfold unit_of, lba_of. cbn [r_head r_hi r_mid r_lo r_count ph]. rewrite Hh, lba_bytes by done. split_and!; try done.
  destruct S2, S3. split; congruence.
Qed.

(** ** The words of a sector *)

Lemma for_range_last {S} a n (body : Z -> S -> S) s : a <= n -> for_range a (n + 1) body s = body n (for_range a n body s).
Proof.
  revert s. pattern a. apply range_ind with n; clear a.
  - intros a ? s Ha. assert (a = n) as -> by lia. by rewrite for_range_cons, !for_range_done by lia.
  - intros a ? IH s Ha. rewrite for_range_cons, (for_range_cons a n) by lia. apply IH. lia.
Qed.

(** [buf'] is [buf] with the words [ws] from index [k] on. *)
Definition with_words (k : Z) (ws : list Z) (buf buf' : gmap Z Z) : Prop :=
  forall j, buf' !! j = if decide (k <= j < k + Z.of_nat (length ws)) then ws !! Z.to_nat (j - k) else buf !! j.

Lemma with_words_cons k w ws buf buf' : with_words (k + 1) ws (<[k := w]> buf) buf' -> with_words k (w :: ws) buf buf'.
Proof.
  intros H j. rewrite (H j). cbn [length]. case_decide as H1; case_decide as H2; try lia.
  - replace (Z.to_nat (j - k)) with (S (Z.to_nat (j - (k + 1)))) by lia. done.
  - assert (j = k) as -> by lia. rewrite lookup_insert_eq, Z.sub_diag. done.
  - rewrite lookup_insert_ne by lia. done.
Qed.

Lemma read_words_spec s buf d ws : 0 <= s < 2 ^ 24 -> length ws = 256%nat -> ph (view d) = Sending ws ->
  exists buf' d' e, read_words b s (buf, d) = (buf', d') /\ with_words (s * 256) ws buf buf' /\ ph (view d') = Idle e /\ (reliable -> e = false) /\ same d d'.
Proof.
  intros Hs Hlen Hph. unfold read_words.
  assert (forall ws buf d i, 0 <= i -> i + Z.of_nat (length ws) = 256 -> ws <> [] -> ph (view d) = Sending ws ->
    exists buf' d' e, for_range i 256 (fun i bd => let '(w, d) := inw (b + REG_DATA) (snd bd) in (<[u32 (s * 256 + i) := w]> (fst bd), d)) (buf, d) = (buf', d') /\
      with_words (s * 256 + i) ws buf buf' /\ ph (view d') = Idle e /\ (reliable -> e = false) /\ same d d') as Hloop.
  { clear ws buf d Hlen Hph. induction ws as [| w ws IH]; intros buf d i Hi Hl Hne Hph; [done |]. cbn [length] in Hl. rewrite for_range_cons by lia. cbn [fst snd].
    destruct (on_data_in d w ws Hph) as (Hw & Hv & Hm & Hc). destruct (inw (b + REG_DATA) d) as [w' d1]. cbn [fst snd] in *. subst w'.
    rewrite u32_small by (unfold U32; lia). destruct ws as [| w2 ws].
    - cbn [length] in Hl. rewrite for_range_done by lia. exists (<[s * 256 + i := w]> buf), d1, (fails d). split; [done |]. split; [| split; [by rewrite Hv | split; [by intros Hr; apply Hr | done]]].
      apply with_words_cons. intros j. cbn [length]. rewrite decide_False by lia. done.
    - destruct (IH (<[s * 256 + i := w]> buf) d1 (i + 1)) as (buf' & d' & e & -> & Hww & Hp & Hr & Hsm); [lia | cbn [length] in *; lia | done | by rewrite Hv |].
      exists buf', d', e. split; [done |]. split; [apply with_words_cons; by rewrite <- Z.add_assoc |]. split; [done |]. split; [done |]. by apply (same_trans d d1). }
  destruct (Hloop ws buf d 0) as (buf' & d' & e & -> & H); [lia | lia | by intros -> | done |]. rewrite Z.add_0_r in H. eauto.
Qed.

Lemma write_words_spec s src d ws : 0 <= s < 2 ^ 24 -> length ws = 256%nat -> Forall (fun w => 0 <= w < 2 ^ 16) ws ->
  (forall i, 0 <= i < 256 -> src !! (s * 256 + i) = ws !! Z.to_nat i) -> ph (view d) = Taking [] ->
  exists d' e, write_words b s src d = d' /\ settled (ph (view d')) = Idle e /\ Z.of_nat (pending (ph (view d'))) <= patience /\ (reliable -> e = false) /\ capacity d' = capacity d /\
    (forall u l, (u <> unit_of (view d) \/ l <> lba_of (view d)) -> medium d' u l = medium d u l) /\
    (e = false -> medium d' (unit_of (view d)) (lba_of (view d)) = ws).
Proof.
  intros Hs Hlen Hws Hsrc Hph. unfold write_words. set (body := fun i d => outw _ _ d).
  assert (let d' := for_range 0 255 body d in view d' = set_ph (Taking (take 255 ws)) (view d) /\ same d d') as [Hv Hsm].
  { apply (for_range_ind (fun i d' => view d' = set_ph (Taking (take (Z.to_nat i) ws)) (view d) /\ same d d')); [lia | |].
    - split; [| apply same_refl]. rewrite take_0, <- Hph. by destruct (view d).
    - intros i x Hi [Hv [Hm Hc]]. unfold body. rewrite u32_small by (unfold U32; lia). rewrite Hsrc by lia.
      destruct (lookup_lt_is_Some_2 ws (Z.to_nat i)) as [w Hw]; [lia |]. rewrite Hw. cbn [from_option id].
      destruct (on_data_out x (take (Z.to_nat i) ws) w) as [Hc1 Hd]; [by rewrite Hv | rewrite length_take; lia | rewrite <- (take_S_r _ _ w) by done; by apply Forall_take |].
      rewrite decide_False in Hd by (rewrite length_take; lia). destruct Hd as [Hv1 Hm1]. split; [| split; congruence].
      rewrite Hv1, Hv, set_ph_twice. replace (Z.to_nat (i + 1)) with (S (Z.to_nat i)) by lia. by rewrite (take_S_r _ _ w). }
  change 256 with (255 + 1) at 1. rewrite for_range_last by lia. set (x := for_range 0 255 body d) in *. clearbody x. unfold body. rewrite u32_small by (unfold U32; lia). rewrite Hsrc by lia.
  destruct (lookup_lt_is_Some_2 ws (Z.to_nat 255)) as [w Hw]; [lia |]. rewrite Hw. cbn [from_option id].
  destruct (on_data_out x (take 255 ws) w) as [Hc1 Hd]; [by rewrite Hv | rewrite length_take; lia | rewrite <- (take_S_r _ _ w) by done; by apply Forall_take |].
  rewrite decide_True in Hd by (rewrite length_take; lia). destruct Hd as (Hv1 & Hm1 & Hf). destruct Hsm as [Hm Hc].
  eexists _, (fails x). split; [done |]. rewrite Hv1. cbn [ph set_ph settled pending after_busy]. split; [by destruct (fails x) |].
  pose proof (delay_bound x). split; [lia |]. split; [by intros Hr |]. split; [congruence |].
  rewrite Hv in Hm1, Hf. split; [intros u l Hul; rewrite Hm1 by done; by rewrite Hm |]. intros He. etransitivity; [by apply Hf |].
  rewrite <- (take_S_r _ _ w) by done. apply take_ge. lia.
Qed.

(** ** A sector *)

(** What a command leaves until the data request: [p] is the phase the drive settles in. *)
Lemma command_spec d v (n : nat) e ws t : view d = set_ph (Busy n e ws t) v -> Z.of_nat n < patience -> e = true \/ t = true \/ is_Some ws ->
  exists d', wait_drq_or_err b (ata_delay c d) = (negb e, d') /\ view d' = set_ph (after_busy e ws t) v /\ same d d'.
Proof.
  intros Hv Hn Hc. destruct (delay_spec d) as (q & Hv1 & Hs1 & Hp1 & Hm1). rewrite Hv in Hv1, Hs1, Hp1. cbn [ph set_ph settled pending] in *.
  destruct (wait_drq_spec (ata_delay c d)) as (d' & -> & Hv2 & Hm2); rewrite ?Hv1; cbn [ph set_ph]; rewrite ?Hs1.
  - lia.
  - unfold after_busy. destruct e, t, ws; naive_solver.
  - exists d'. rewrite Hv1 in Hv2. cbn [ph set_ph] in Hv2. rewrite Hs1 in Hv2. split; [| split; [by rewrite Hv2 | by apply (same_trans _ _ _ Hm1)]].
    f_equal. unfold after_busy. destruct e, t, ws; naive_solver.
Qed.

(** The status after a transfer. *)
Lemma final_status d e : ph (view d) = Idle e -> exists d', inb (b + REG_STATUS) d = (status (Idle e), d') /\ ph (view d') = Idle e /\ same d d'.
Proof.
  intros He. destruct (on_status (b + REG_STATUS) d (or_introl eq_refl)) as (H1 & H2 & H3 & H4). destruct (inb _ d) as [st d']. cbn [fst snd] in *.
  exists d'. rewrite H1, H2, He. done.
Qed.

Lemma status_ok e : negb (set_in (status (Idle e)) (STATUS_ERR .| STATUS_DF)) = negb e.
Proof. by destruct e. Qed.

Lemma read_attempt_spec drv lba s buf d : on_channel drv -> 0 <= lba -> lba + s < 2 ^ 64 -> 0 <= s < 2 ^ 24 -> idle d -> let l := (lba + s) mod 2 ^ 28 in
  exists ok buf' d', read_attempt drv lba s (buf, d) = (ok, (buf', d')) /\ idle d' /\ same d d' /\
    (buf' = buf /\ ok = false \/ with_words (s * 256) (medium d (slave drv) l) buf buf') /\
    (reliable -> l < capacity d (slave drv) -> ok = true) /\ (ok = true -> l < capacity d (slave drv)).
Proof.
  intros Hch Hl Hls Hs Hi l. pose proof Hch as (Hb & Hc & _). unfold read_attempt. rewrite Hb, Hc. destruct (wait_idle d Hi) as (d1 & e1 & -> & E1 & S1). cbn [negb].
  rewrite u64_small by (unfold U64; lia). destruct (setup_spec drv (lba + s) d1 e1 Hch ltac:(lia) E1) as (E2 & Hcnt & Hu & Hlb & S2).
  set (d2 := setup_lba28 drv (lba + s) 1 d1) in *. clearbody d2. fold l in Hlb. clearbody l.
  destruct (on_read d2 e1 E2 Hcnt) as (V3 & M3 & C3). rewrite Hu, Hlb in V3. set (d3 := outb _ _ d2) in *. clearbody d3.
  destruct (command_spec d3 _ _ _ _ _ V3 (delay_bound d2) ltac:(right; right; done)) as (d4 & -> & V4 & S4).
  assert (same d d2) as S02 by (by apply (same_trans _ _ _ S1)). assert (same d d4) as S04 by (destruct S02, S4; split; congruence).
  destruct S02 as [M02 C02]. rewrite C02, M02 in V4. rewrite C02. destruct (Z.leb_spec (capacity d (slave drv)) l) as [Hcap | Hcap].
  - rewrite orb_true_r in *. cbn [negb after_busy] in *. exists false, buf, d4. split_and!; try done; [by apply (ph_idle _ true); rewrite V4 | by left | lia].
  - rewrite orb_false_r in *. destruct (fails d2) eqn:Ef; cbn [negb after_busy] in *.
    { exists false, buf, d4. split_and!; try done; [by apply (ph_idle _ true); rewrite V4 | by left |]. intros Hr. by rewrite Hr in Ef. }
    destruct (read_words_spec s buf d4 (medium d (slave drv) l)) as (buf' & d5 & e5 & -> & Hww & E5 & Hr5 & S5); [done | by apply medium_words | by rewrite V4 |].
    destruct (final_status d5 e5 E5) as (d6 & -> & E6 & S6). rewrite status_ok. exists (negb e5), buf', d6.
    split; [done |]. split; [by apply (ph_idle _ e5) |]. split; [by apply (same_trans _ _ _ S04), (same_trans _ _ _ S5) |]. split; [by right |].
    split; [| done]. intros Hr _. by rewrite Hr5.
Qed.

(** ** Attempts *)

Lemma attempts_ind {S} (I Q : S -> Prop) (try : S -> bool * S) s : I s ->
  (forall s, I s -> I (try s).2 /\ ((try s).1 = true -> Q (try s).2)) -> I (attempts try s).2 /\ ((attempts try s).1 = true -> Q (attempts try s).2).
Proof.
  intros HI Ht. unfold attempts. set (body := fun (_ : Z) s => _). pose proof (for_exit_ind (fun _ s => I s) body 4 0 s ltac:(lia) HI) as H.
  destruct (for_exit 0 4 body s) as [[] s'] eqn:Ef; cbn [fst snd].
  - destruct H as (i & x & Hi & Hx & Hb).
    + intros i x x' _ Hx. unfold body. pose proof (Ht x Hx) as [H1 _]. destruct (try x) as [[] x'']; [done |]. by intros [= <-].
    + unfold body in Hb. destruct (Ht x Hx) as [H1 H2]. destruct (try x) as [[] x'']; [| done]. simplify_eq/=. split; [done |]. intros _. by apply H2.
  - split; [| done]. apply H. intros i x x' _ Hx. unfold body. pose proof (Ht x Hx) as [H1 _]. destruct (try x) as [[] x'']; [done |]. by intros [= <-].
Qed.

Lemma attempts_first {S} (try : S -> bool * S) s s' : try s = (true, s') -> attempts try s = (true, s').
Proof. intros Ht. unfold attempts. rewrite for_exit_cons by lia. by rewrite Ht. Qed.

Lemma with_words_again k ws buf buf' buf2 : with_words k ws buf buf' -> with_words k ws buf' buf2 -> with_words k ws buf buf2.
Proof. intros H1 H2 j. rewrite (H2 j). case_decide; [done |]. rewrite (H1 j). by rewrite decide_False. Qed.

Lemma read_sector_spec drv lba s buf d : on_channel drv -> 0 <= lba -> lba + s < 2 ^ 64 -> 0 <= s < 2 ^ 24 -> idle d -> let l := (lba + s) mod 2 ^ 28 in
  exists ok buf' d', attempts (read_attempt drv lba s) (buf, d) = (ok, (buf', d')) /\ idle d' /\ same d d' /\
    (buf' = buf /\ ok = false \/ with_words (s * 256) (medium d (slave drv) l) buf buf') /\
    (reliable -> l < capacity d (slave drv) -> ok = true) /\ (ok = true -> l < capacity d (slave drv)).
Proof.
  intros Hch Hl Hls Hs Hi l.
  destruct (attempts_ind (fun bd => idle (snd bd) /\ same d (snd bd) /\ (fst bd = buf \/ with_words (s * 256) (medium d (slave drv) l) buf (fst bd)))
    (fun bd => with_words (s * 256) (medium d (slave drv) l) buf (fst bd) /\ l < capacity d (slave drv)) (read_attempt drv lba s) (buf, d)) as [(I1 & I2 & I3) H].
  - split; [done |]. split; [apply same_refl |]. by left.
  - intros [buf1 d1] (J1 & J2 & J3). cbn [fst snd] in *. destruct (read_attempt_spec drv lba s buf1 d1 Hch Hl Hls Hs J1) as (ok & buf2 & d2 & -> & K1 & K2 & K3 & _ & K4).
    cbn [fst snd]. destruct J2 as [M2 C2]. fold l in K3, K4. rewrite M2 in K3. rewrite C2 in K4.
    assert (buf2 = buf1 /\ ok = false \/ with_words (s * 256) (medium d (slave drv) l) buf buf2) as K5.
    { destruct K3 as [? | K3]; [by left | right]. destruct J3 as [-> | J3]; [done |]. by apply (with_words_again _ _ _ buf1). }
    split; [| intros ->; destruct K5 as [[_ ?] | K5]; [done | by split; [| apply K4]]].
    split; [done |]. split; [destruct K2; split; congruence |]. destruct K5 as [[-> _] | K5]; [done | by right].
  - destruct (attempts (read_attempt drv lba s) (buf, d)) as [ok [buf' d']] eqn:Ea. cbn [fst snd] in *. exists ok, buf', d'. split; [done |]. split; [done |]. split; [done |].
    split; [destruct ok; [right; by apply H | destruct I3; [by left | by right]] |]. split; [| intros Hok; by apply H].
    intros Hr Hcap. destruct (read_attempt_spec drv lba s buf d Hch Hl Hls Hs Hi) as (ok1 & buf1 & d1 & Ht & _ & _ & _ & H1 & _).
    rewrite (H1 Hr Hcap) in Ht. rewrite (attempts_first _ _ _ Ht) in Ea. by injection Ea as <-.
Qed.

(** [d'] is [d] except for sector [l] of drive [u]. *)
Definition same_but (u l : Z) (d d' : D) : Prop :=
  capacity d' = capacity d /\ forall u' l', u' <> u \/ l' <> l -> medium d' u' l' = medium d u' l'.

Lemma same_same_but u l d1 d2 d3 : same d1 d2 -> same_but u l d2 d3 -> same_but u l d1 d3.
Proof. intros [H1 H2] [H3 H4]. split; [congruence |]. intros. rewrite H4 by done. by rewrite H1. Qed.

Lemma same_but_trans u l d1 d2 d3 : same_but u l d1 d2 -> same_but u l d2 d3 -> same_but u l d1 d3.
Proof. intros [H1 H2] [H3 H4]. split; [congruence |]. intros. rewrite H4 by done. by apply H2. Qed.

Lemma same_is_but u l d1 d2 : same d1 d2 -> same_but u l d1 d2.
Proof. intros [H1 H2]. split; [done |]. by rewrite H1. Qed.

(** The 256 words of [src] for sector [s]. *)
Definition source (src : gmap Z Z) (s : Z) (ws : list Z) : Prop :=
  length ws = 256%nat /\ Forall (fun w => 0 <= w < 2 ^ 16) ws /\ forall i, 0 <= i < 256 -> src !! (s * 256 + i) = ws !! Z.to_nat i.

Lemma write_attempt_spec drv lba s src ws d : on_channel drv -> 0 <= lba -> lba + s < 2 ^ 64 -> 0 <= s < 2 ^ 24 -> source src s ws -> idle d -> let l := (lba + s) mod 2 ^ 28 in
  exists ok d', write_attempt drv lba s src d = (ok, d') /\ idle d' /\ same_but (slave drv) l d d' /\
    (ok = true -> l < capacity d (slave drv) /\ medium d' (slave drv) l = ws /\ ready d') /\ (reliable -> l < capacity d (slave drv) -> ok = true).
Proof.
  intros Hch Hl Hls Hs (Hlen & Hws & Hsrc) Hi l. pose proof Hch as (Hb & Hc & _). unfold write_attempt. rewrite Hb, Hc. destruct (wait_idle d Hi) as (d1 & e1 & -> & E1 & S1). cbn [negb].
  rewrite u64_small by (unfold U64; lia). destruct (setup_spec drv (lba + s) d1 e1 Hch ltac:(lia) E1) as (E2 & Hcnt & Hu & Hlb & S2).
  set (d2 := setup_lba28 drv (lba + s) 1 d1) in *. clearbody d2. fold l in Hlb. clearbody l.
  destruct (on_write d2 e1 E2 Hcnt) as (V3 & M3 & C3). rewrite Hu, Hlb in V3. set (d3 := outb _ _ d2) in *. clearbody d3.
  destruct (command_spec d3 _ _ _ _ _ V3 (delay_bound d2) ltac:(by right; left)) as (d4 & -> & V4 & S4).
  assert (same d d2) as S02 by (by apply (same_trans _ _ _ S1)). assert (same d d4) as S04 by (destruct S02, S4; split; congruence).
  destruct S02 as [M02 C02]. rewrite C02 in V4. rewrite C02. destruct (Z.leb_spec (capacity d (slave drv)) l) as [Hcap | Hcap].
  - rewrite orb_true_r in *. cbn [negb after_busy] in *. exists false, d4.
    split; [done |]. split; [by apply (ph_idle _ true); rewrite V4 |]. split; [by apply same_is_but |]. split; [done | intros; lia].
  - rewrite orb_false_r in *. destruct (fails d2) eqn:Ef; cbn [negb after_busy] in *.
    { exists false, d4. split; [done |]. split; [by apply (ph_idle _ true); rewrite V4 |]. split; [by apply same_is_but |]. split; [done |]. intros Hr. by rewrite Hr in Ef. }
    destruct (write_words_spec s src d4 ws Hs Hlen Hws Hsrc ltac:(by rewrite V4)) as (d5 & e5 & -> & E5 & P5 & R5 & C5 & O5 & W5).
    assert (unit_of (view d4) = slave drv) as U4 by (by rewrite V4). assert (lba_of (view d4) = l) as L4 by (by rewrite V4). rewrite U4, L4 in *.
    destruct (delay_spec d5) as (q & V6 & Q6 & P6 & S6). set (d6 := ata_delay c d5) in *. clearbody d6.
    destruct (wait_bsy_spec d6) as (d7 & -> & V7 & S7); [rewrite V6; cbn [ph set_ph]; lia |]. cbn [negb].
    rewrite V6 in V7. cbn [ph set_ph] in V7. rewrite Q6, E5 in V7. destruct (final_status d7 e5) as (d8 & -> & E8 & S8); [by rewrite V7 |].
    rewrite status_ok. assert (same d5 d8) as S58 by (by apply (same_trans _ _ _ S6), (same_trans _ _ _ S7)). destruct S58 as [M58 C58].
    exists (negb e5), d8. split; [done |]. split; [by apply (ph_idle _ e5) |]. split; [| split].
    + apply (same_same_but _ _ _ _ _ S04). split; [congruence |]. intros. rewrite M58. by apply O5.
    + intros He. split; [done |]. split; [| by exists e5]. rewrite M58. apply W5. by destruct e5.
    + intros Hr _. by rewrite R5.
Qed.

Lemma write_sector_spec drv lba s src ws d : on_channel drv -> 0 <= lba -> lba + s < 2 ^ 64 -> 0 <= s < 2 ^ 24 -> source src s ws -> idle d -> let l := (lba + s) mod 2 ^ 28 in
  exists ok d', attempts (write_attempt drv lba s src) d = (ok, d') /\ idle d' /\ same_but (slave drv) l d d' /\
    (ok = true -> l < capacity d (slave drv) /\ medium d' (slave drv) l = ws /\ ready d') /\ (reliable -> l < capacity d (slave drv) -> ok = true).
Proof.
  intros Hch Hl Hls Hs Hsrc Hi l.
  destruct (attempts_ind (fun x => idle x /\ same_but (slave drv) l d x) (fun x => l < capacity d (slave drv) /\ medium x (slave drv) l = ws /\ ready x) (write_attempt drv lba s src) d) as [[I1 I2] H].
  - split; [done |]. apply same_is_but, same_refl.
  - intros d1 (J1 & J2). destruct (write_attempt_spec drv lba s src ws d1 Hch Hl Hls Hs Hsrc J1) as (ok & d2 & -> & K1 & K2 & K3 & _). cbn [fst snd].
    fold l in K2, K3. split; [split; [done | by apply (same_but_trans _ _ _ d1)] |]. destruct J2 as [C2 _]. by rewrite C2 in K3.
  - destruct (attempts (write_attempt drv lba s src) d) as [ok d'] eqn:Ea. cbn [fst snd] in *. exists ok, d'. split; [done |]. split; [done |]. split; [done |]. split; [done |].
    intros Hr Hcap. destruct (write_attempt_spec drv lba s src ws d Hch Hl Hls Hs Hsrc Hi) as (ok1 & d1 & Ht & _ & _ & _ & H1).
    rewrite (H1 Hr Hcap) in Ht. rewrite (attempts_first _ _ _ Ht) in Ea. by injection Ea as <-.
Qed.

(** ** Many sectors *)

(** The first [n] sectors of the buffer are those of the drive from [lba] on. *)
Definition filled (d : D) (u lba n : Z) (buf : gmap Z Z) : Prop :=
  forall s i, 0 <= s < n -> 0 <= i < 256 -> buf !! (s * 256 + i) = medium d u ((lba + s) mod 2 ^ 28) !! Z.to_nat i.

Definition untouched (n : Z) (buf buf' : gmap Z Z) : Prop := forall j, j < 0 \/ n * 256 <= j -> buf' !! j = buf !! j.

(** Every sector from [lba] on is on the drive. *)
Definition in_drive (d : D) (u lba n : Z) : Prop := forall s, 0 <= s < n -> (lba + s) mod 2 ^ 28 < capacity d u.

Lemma filled_next d u lba n buf buf' : 0 <= n -> filled d u lba n buf -> with_words (n * 256) (medium d u ((lba + n) mod 2 ^ 28)) buf buf' -> filled d u lba (n + 1) buf'.
Proof.
  intros Hn Hf Hw s i Hs Hi. rewrite (Hw (s * 256 + i)). destruct (medium_words d u ((lba + n) mod 2 ^ 28)) as [Hlen _]. rewrite Hlen. destruct (decide (s = n)) as [-> |].
  - rewrite decide_True by lia. f_equal. lia.
  - rewrite decide_False by lia. apply Hf; lia.
Qed.

Lemma for_exit_run {S R} (I : Z -> S -> Prop) (J : R -> S -> Prop) (body : Z -> S -> option R * S) a n s : a <= n -> I a s ->
  (forall i x, a <= i < n -> I i x -> match body i x with (None, x') => I (i + 1) x' | (Some r, x') => J r x' end) ->
  match for_exit a n body s with (None, s') => I n s' | (Some r, s') => J r s' end.
Proof.
  intros Ha H0 HS. pose proof (for_exit_ind I body n a s Ha H0) as H. destruct (for_exit a n body s) as [[r |] s'].
  - destruct H as (i & x & Hi & Hx & Hb); [| by pose proof (HS i x Hi Hx) as HJ; rewrite Hb in HJ].
    intros i x x' Hi Hx Hb. pose proof (HS i x Hi Hx) as HJ. by rewrite Hb in HJ.
  - apply H. intros i x x' Hi Hx Hb. pose proof (HS i x Hi Hx) as HJ. by rewrite Hb in HJ.
Qed.

Lemma read_sectors_spec drives idx lba count buf d : 0 <= idx < 4 -> let drv := drive drives idx in present drv = true -> on_channel drv ->
  0 < count <= 2 ^ 24 -> 0 <= lba -> lba + count <= 2 ^ 64 -> idle d ->
  exists r buf' d', read_sectors drives idx lba count (buf, d) = (r, (buf', d')) /\ idle d' /\ same d d' /\ untouched count buf buf' /\
    (r = Ok count /\ filled d (slave drv) lba count buf' /\ in_drive d (slave drv) lba count \/
     r = Err IOError /\ (reliable -> ~ in_drive d (slave drv) lba count)).
Proof.
  intros Hidx drv Hp Hch Hcount Hl Hlc Hi. unfold read_sectors. rewrite (proj2 (Z.leb_gt 4 idx)), (proj2 (Z.eqb_neq count 0)) by lia. fold drv. rewrite Hp. cbn [negb orb].
  set (body := fun (s : Z) (bd : gmap Z Z * D) => _). set (Q := fun bd : gmap Z Z * D => idle (snd bd) /\ same d (snd bd) /\ untouched count buf (fst bd)).
  pose proof (for_exit_run (fun s bd => Q bd /\ filled d (slave drv) lba s (fst bd) /\ in_drive d (slave drv) lba s)
    (fun _ bd => Q bd /\ (reliable -> ~ in_drive d (slave drv) lba count)) body 0 count (buf, d) ltac:(lia)) as H.
  destruct (for_exit 0 count body (buf, d)) as [r [buf' d']].
  lapply H; clear H; [intros H; lapply H; clear H |].
  - unfold Q. cbn [fst snd]. intros H. destruct r; destruct H as [(J1 & J2 & J3) J4]; eexists _, buf', d';
      (split; [done |]; split; [done |]; split; [done |]; split; [done |]); [by right | by left].
  - intros i [buf1 d1] Hi1 [(J1 & J2 & J3) [J4 J5]]. cbn [fst snd] in *. unfold body, Q.
    destruct (read_sector_spec drv lba i buf1 d1 Hch Hl ltac:(lia) ltac:(lia) J1) as (ok & buf2 & d2 & -> & K1 & K2 & K3 & K4 & K5). cbn [fst snd].
    destruct J2 as [M2 C2]. rewrite M2 in K3. rewrite C2 in K4, K5.
    assert (idle d2 /\ same d d2 /\ untouched count buf buf2) as HQ.
    { split; [done |]. split; [destruct K2; split; congruence |]. destruct K3 as [[-> _] | K3]; [done |]. intros j Hj. rewrite (K3 j).
      rewrite decide_False; [by apply J3 |]. destruct (medium_words d (slave drv) ((lba + i) mod 2 ^ 28)) as [-> _]. lia. }
    destruct ok; (split; [exact HQ |]).
    + destruct K3 as [[_ ?] | K3]; [done |]. split; [apply (filled_next _ _ _ _ buf1); [lia | done | done] |].
      intros s Hs. destruct (decide (s = i)) as [-> |]; [by apply K5 | apply J5; lia].
    + intros Hr Hin. discriminate (K4 Hr). apply Hin. lia.
  - split; [split; [done | split; [apply same_refl | done]] |]. split; intros ?; cbn; lia.
Qed.

(** [d'] holds the words of [src] from [lba] on, and is [d] elsewhere. *)
Definition written (d' : D) (u lba n : Z) (src : gmap Z Z) : Prop :=
  forall s i, 0 <= s < n -> 0 <= i < 256 -> src !! (s * 256 + i) = medium d' u (lba + s) !! Z.to_nat i.

Definition kept (d d' : D) (u lba n : Z) : Prop :=
  capacity d' = capacity d /\ forall u' l, u' <> u \/ l < lba \/ lba + n <= l -> medium d' u' l = medium d u' l.

Lemma mod_run lba i n : 0 <= lba -> 0 <= i < n -> lba mod 2 ^ 28 + n <= 2 ^ 28 -> (lba + i) mod 2 ^ 28 = lba mod 2 ^ 28 + i.
Proof. intros Hl Hi Hn. rewrite <- Zplus_mod_idemp_l. pose proof (Z.mod_pos_bound lba (2 ^ 28)). apply Z.mod_small. lia. Qed.

Lemma write_sectors_spec drives idx lba count src d : 0 <= idx < 4 -> let drv := drive drives idx in present drv = true -> on_channel drv ->
  0 < count <= 2 ^ 24 -> 0 <= lba -> lba + count <= 2 ^ 64 -> let l := lba mod 2 ^ 28 in l + count <= 2 ^ 28 ->
  (forall s, 0 <= s < count -> exists ws, source src s ws) -> idle d ->
  exists r d', write_sectors drives idx lba count src d = (r, d') /\ idle d' /\ kept d d' (slave drv) l count /\
    (r = Ok count /\ written d' (slave drv) l count src /\ l + count <= capacity d (slave drv) \/
     r = Err IOError /\ (reliable -> capacity d (slave drv) < l + count)).
Proof.
  intros Hidx drv Hp Hch Hcount Hl0 Hlc0 l Hlc Hsrc Hi. assert (0 <= l) as Hl by (apply Z.mod_pos_bound; lia). unfold write_sectors. rewrite (proj2 (Z.leb_gt 4 idx)), (proj2 (Z.eqb_neq count 0)) by lia. fold drv. rewrite Hp. cbn [negb orb].
  set (body := fun (s : Z) (d : D) => _). set (Q := fun x : D => idle x /\ kept d x (slave drv) l count).
  pose proof (for_exit_run (fun s x => Q x /\ written x (slave drv) l s src /\ (0 < s -> l + s <= capacity d (slave drv) /\ ready x))
    (fun _ x => Q x /\ (reliable -> capacity d (slave drv) < l + count)) body 0 count d ltac:(lia)) as H.
  destruct (for_exit 0 count body d) as [r d']. lapply H; clear H; [intros H; lapply H; clear H |].
  - unfold Q. intros H. pose proof Hch as (Hb & Hc & _). rewrite Hb, Hc. destruct r; [destruct H as [(J1 & J2) J3]; eexists _, d'; split; [done |]; split; [done |]; split; [done |]; by right |].
    destruct H as [(J1 & J2) [J3 J4]]. destruct (J4 ltac:(lia)) as [J5 [e He]]. destruct (on_flush d' e He) as (V1 & M1 & C1). set (d1 := outb _ _ d') in *. clearbody d1.
    assert (idle d1) as I1.
    { unfold idle. rewrite V1. cbn [ph set_ph settled pending after_busy]. pose proof (delay_bound d'). split; [destruct (fails d'); by eexists | lia]. }
    destruct (wait_idle d1 I1) as (d2 & e2 & -> & E2 & M2 & C2). cbn [negb]. eexists _, d2. split; [done |]. split; [by apply (ph_idle _ e2) |].
    destruct J2 as [C3 M3]. split; [split; [congruence | intros; rewrite M2, M1; by apply M3] |]. left. split; [done |]. split; [| done].
    intros s i Hs Hi1. rewrite M2, M1. by apply J3.
  - intros i d1 Hi1 [(J1 & J2) [J3 J4]]. unfold body, Q. destruct (Hsrc i ltac:(lia)) as [ws Hws].
    destruct (write_sector_spec drv lba i src ws d1 Hch Hl0 ltac:(lia) ltac:(lia) Hws J1) as (ok & d2 & -> & K1 & K2 & K3 & K4).
    rewrite (mod_run lba i count) in K2, K3, K4 by lia. fold l in K2, K3, K4. destruct J2 as [C2 M2]. rewrite C2 in K3, K4. destruct K2 as [C3 M3].
    assert (idle d2 /\ kept d d2 (slave drv) l count) as HQ.
    { split; [done |]. split; [congruence |]. intros u' l' Hul. rewrite M3 by lia. by apply M2. }
    destruct ok; (split; [exact HQ |]).
    + destruct (K3 eq_refl) as (Hcap & Hm & Hrd). split; [| split; [lia | done]]. intros s j Hs Hj. destruct (decide (s = i)) as [-> |].
      * rewrite Hm. destruct Hws as (_ & _ & Hws). by apply Hws.
      * rewrite M3 by lia. apply J3; lia.
    + intros Hr. destruct (Z.lt_ge_cases (l + i) (capacity d (slave drv))) as [Hlt |]; [| lia]. discriminate (K4 Hr Hlt).
  - split; [split; [done |]; split; done |]. split; [intros ?; cbn; lia | lia].
Qed.
End correct.

(** ** The driver as a block device

    For a drive of the driver's table on a channel that never fails: a call moves one
    sector, the buffer is its 512 bytes. *)

(** The words of a buffer and the bytes of a buffer of words. *)
Definition words (b : list Z) : list Z := (fun i => get16 b (2 * i)) <$> seqZ 0 256.
Definition word_map (b : list Z) : gmap Z Z := list_to_map ((fun i => (i, get16 b (2 * i))) <$> seqZ 0 256).
Definition bytes (buf : gmap Z Z) : list Z := seqZ 0 256 ≫= fun i => le_bytes 2 (default 0 (buf !! i)).

Lemma length_words b : length (words b) = 256%nat.
Proof. unfold words. by rewrite length_fmap, length_seqZ. Qed.

Lemma words_index b i : 0 <= i < 256 -> words b !! Z.to_nat i = Some (get16 b (2 * i)).
Proof. intros Hi. unfold words. rewrite list_lookup_fmap, lookup_seqZ_lt by lia. cbn [fmap option_fmap option_map]. by rewrite Z.add_0_l, Z2Nat.id by lia. Qed.

Lemma word_map_index b i : 0 <= i < 256 -> word_map b !! i = Some (get16 b (2 * i)).
Proof.
  intros Hi. unfold word_map. apply elem_of_list_to_map_1.
  - rewrite <- list_fmap_compose. cbn. rewrite list_fmap_id. apply NoDup_seqZ.
  - apply list_elem_of_fmap. exists i. split; [done |]. apply elem_of_seqZ. lia.
Qed.

Lemma words_source b : source (word_map b) 0 (words b).
Proof.
  split; [apply length_words |]. split.
  - unfold words. apply Forall_fmap, Forall_true. intros i. apply (read_le_bound _ 2).
  - intros i Hi. rewrite Z.add_0_l, word_map_index by done. by rewrite words_index.
Qed.

Lemma bytes_size buf : length (bytes buf) = 512%nat /\ Forall U8 (bytes buf).
Proof.
  unfold bytes. split.
  - assert (forall l, length (l ≫= fun i => le_bytes 2 (default 0 (buf !! i))) = (2 * length l)%nat) as H.
    { induction l as [| x l IH]; [done |]. rewrite bind_cons, length_app, IH, length_le_bytes. cbn. lia. }
    by rewrite H, length_seqZ.
  - apply Forall_bind, Forall_true. intros i. apply le_bytes_U8.
Qed.

Lemma bytes_ext buf buf' : (forall i, 0 <= i < 256 -> buf !! i = buf' !! i) -> bytes buf = bytes buf'.
Proof.
  intros H. unfold bytes. assert (forall l, (forall i, i ∈ l -> 0 <= i < 256) ->
    (l ≫= fun i => le_bytes 2 (default 0 (buf !! i))) = l ≫= fun i => le_bytes 2 (default 0 (buf' !! i))) as Hl.
  { induction l as [| x l IH]; intros Hin; [done |]. rewrite !bind_cons, IH by (intros; apply Hin; by right). rewrite H; [done |]. apply Hin. by left. }
  apply Hl. intros i Hi. apply elem_of_seqZ in Hi. lia.
Qed.

Lemma le_bytes_two x y : U8 x -> U8 y -> le_bytes 2 (u8 x .| ((u8 y .| (0 .<< 8)) .<< 8)) = [x; y].
Proof.
  intros Hx Hy. rewrite !u8_small, Z.shiftl_0_l, Z.lor_0_r, Z.shiftl_mul_pow2, Z.lor_comm by (done || lia). unfold U8 in *.
  rewrite (lor_disjoint 8) by (first [lia | by apply Z.mod_mul]). unfold le_bytes. cbn [seq fmap list_fmap]. unfold u8, wrap. f_equal; [| f_equal].
  - rewrite Z.shiftr_0_r, Z.add_comm, Z.mod_add by done. apply Z.mod_small. lia.
  - change (8 * Z.of_nat 1) with 8. rewrite Z.shiftr_div_pow2, Z.add_comm, Z.div_add, Z.div_small by lia. apply Z.mod_small. lia.
Qed.

Lemma bytes_words b : length b = 512%nat -> Forall U8 b -> bytes (word_map b) = b.
Proof.
  intros Hlen Hb. unfold bytes.
  assert (forall n k, (k + n = 256)%nat -> (seqZ (Z.of_nat k) (Z.of_nat n) ≫= fun i => le_bytes 2 (default 0 (word_map b !! i))) = drop (2 * k) b) as H.
  { induction n as [| n IH]; intros k Hk.
    - cbn. rewrite drop_ge by lia. done.
    - rewrite seqZ_cons by lia. rewrite bind_cons. replace (Z.succ (Z.of_nat k)) with (Z.of_nat (S k)) by lia. replace (Z.pred (Z.of_nat (S n))) with (Z.of_nat n) by lia.
      rewrite IH by lia. rewrite word_map_index by lia. cbn [from_option id].
      destruct (lookup_lt_is_Some_2 b (2 * k)) as [x Hx]; [lia |]. destruct (lookup_lt_is_Some_2 b (S (2 * k))) as [y Hy]; [lia |].
      rewrite (drop_S b x (2 * k)), (drop_S b y (S (2 * k))) by done. replace (2 * S k)%nat with (S (S (2 * k))) by lia.
      unfold get16. cbn [read_le]. unfold at_index. replace (Z.to_nat (2 * Z.of_nat k)) with (2 * k)%nat by lia. replace (Z.to_nat (2 * Z.of_nat k + 1)) with (S (2 * k)) by lia.
      rewrite Hx, Hy. cbn [from_option id]. pose proof (Forall_lookup_1 _ _ _ _ Hb Hx) as Ux. pose proof (Forall_lookup_1 _ _ _ _ Hb Hy) as Uy.
      by rewrite le_bytes_two. }
  apply (H 256%nat 0%nat). lia.
Qed.

Lemma zip_index ws i w : length ws = 256%nat -> 0 <= i < 256 -> ws !! Z.to_nat i = Some w -> (list_to_map (zip (seqZ 0 256) ws) : gmap Z Z) !! i = Some w.
Proof.
  intros Hlen Hi Hw. apply elem_of_list_to_map_1; [rewrite fst_zip by (rewrite length_seqZ; lia); apply NoDup_seqZ |].
  apply (list_elem_of_lookup_2 _ (Z.to_nat i)). rewrite lookup_zip_with, lookup_seqZ_lt, Hw by lia. cbn [mbind option_bind]. rewrite Z.add_0_l, Z2Nat.id by lia. done.
Qed.

Section block.
Context {D : Type} `{!Ports D} (b c : Z) `{!AtaDevice D b c} (drives : list ATADrive) (idx : Z).
Hypothesis Hidx : 0 <= idx < 4.
Hypothesis Hpresent : present (drive drives idx) = true.
Hypothesis Hchannel : on_channel b c (drive drives idx).
Hypothesis Hreliable : reliable b c.

Notation sl := (slave (drive drives idx)).

Record quiet := Quiet { dev : D; dev_idle : idle b c dev }.

Definition block_read (x : quiet) (lba : Z) : kResult (list Z) :=
  let '(r, (buf, _)) := bdev_read drives idx (u64 lba) 1 (∅, dev x) in
  match r with Ok _ => Ok (bytes buf) | Err e => Err e end.

Lemma one_write x lba bs : exists r d', write_sectors drives idx (u64 lba) 1 (word_map bs) (dev x) = (r, d') /\ idle b c d' /\ kept b c (dev x) d' sl (u64 lba mod 2 ^ 28) 1 /\
    (r = Ok 1 /\ written b c d' sl (u64 lba mod 2 ^ 28) 1 (word_map bs) /\ u64 lba mod 2 ^ 28 + 1 <= capacity (dev x) sl \/
     r = Err IOError /\ (reliable b c -> capacity (dev x) sl < u64 lba mod 2 ^ 28 + 1)).
Proof.
  pose proof (u64_bound lba) as Hl. unfold U64 in Hl. pose proof (Z.mod_pos_bound (u64 lba) (2 ^ 28) ltac:(lia)) as Hm.
  apply (write_sectors_spec b c drives idx (u64 lba) 1 (word_map bs) (dev x)); try done; try lia; [| apply dev_idle].
  intros s Hs. assert (s = 0) as -> by lia. exists (words bs). apply words_source.
Qed.

Lemma write_idle x lba bs : idle b c (bdev_write drives idx (u64 lba) 1 (word_map bs) (dev x)).2.
Proof.
  unfold bdev_write. rewrite u8_small by (unfold U8; lia). destruct (one_write x lba bs) as (r & d' & -> & Hi & _). done.
Qed.

Definition block_write (x : quiet) (lba : Z) (bs : list Z) : kStatus * quiet :=
  ((bdev_write drives idx (u64 lba) 1 (word_map bs) (dev x)).1, Quiet _ (write_idle x lba bs)).

(** What a call does to the sectors of the drive. *)
Lemma block_read_spec x lba : 0 <= lba < 2 ^ 28 ->
  block_read x lba = if lba <? capacity (dev x) sl then Ok (bytes (list_to_map (zip (seqZ 0 256) (medium (dev x) sl lba)))) else Err IOError.
Proof.
  intros Hl. unfold block_read, bdev_read. rewrite u8_small, u64_small by (unfold U8, U64; lia).
  destruct (read_sectors_spec b c drives idx lba 1 ∅ (dev x)) as (r & buf & d' & -> & _ & _ & _ & H); try done; try lia; [apply dev_idle |].
  assert (in_drive b c (dev x) sl lba 1 <-> lba < capacity (dev x) sl) as Hin.
  { unfold in_drive. split; intros H1; [specialize (H1 0 ltac:(lia)); rewrite Z.add_0_r, Z.mod_small in H1; lia |].
    intros s Hs. assert (s = 0) as -> by lia. by rewrite Z.add_0_r, Z.mod_small by lia. }
  rewrite Hin in H. destruct H as [(-> & Hf & Hc) | (-> & Hc)].
  - rewrite (proj2 (Z.ltb_lt _ _) Hc). f_equal. apply bytes_ext. intros i Hi. specialize (Hf 0 i ltac:(lia) Hi).
    rewrite Z.mul_0_l, Z.add_0_l, Z.add_0_r, Z.mod_small in Hf by lia. rewrite Hf. symmetry.
    destruct (medium_words (dev x) sl lba) as [Hlen _]. destruct (lookup_lt_is_Some_2 (medium (dev x) sl lba) (Z.to_nat i)) as [w Hw]; [lia |]. rewrite Hw.
    by apply zip_index.
  - rewrite (proj2 (Z.ltb_ge _ _)); [done |]. specialize (Hc Hreliable). lia.
Qed.

#[local] Instance ata_device : BlockDevice quiet.
Proof.
  refine {| Block.read := block_read; Block.write := block_write; Block.sector_count := fun x => capacity (dev x) sl |}.
  - intros x lba bs. unfold block_read. destruct (bdev_read _ _ _ _ _) as [[] [buf d']]; [| done]. intros [= <-]. apply bytes_size.
  - intros x lba Hl. pose proof (capacity_bound (dev x) sl). rewrite block_read_spec by lia. rewrite (proj2 (Z.ltb_lt _ _)) by lia. by eexists.
  - intros x lba Hl. pose proof (capacity_bound (dev x) sl). rewrite block_read_spec by lia. rewrite (proj2 (Z.ltb_ge _ _)) by lia. by eexists.
  - intros x lba bs Hl Hlen Hb. pose proof (capacity_bound (dev x) sl) as Hcb. exists (block_write x lba bs).2.
    assert (lba = u64 lba mod 2 ^ 28) as El by (rewrite u64_small, Z.mod_small by (unfold U64; lia); done).
    destruct (one_write x lba bs) as (r & d' & Hw & _ & [Hk1 Hk2] & H). rewrite <- El in *.
    assert (bdev_write drives idx (u64 lba) 1 (word_map bs) (dev x) = (match r with Ok _ => Ok tt | Err e => Err e end, d')) as Hbw.
    { unfold bdev_write. rewrite u8_small by (unfold U8; lia). rewrite Hw. by destruct r. }
    destruct H as [(-> & Hwr & Hcap) | (_ & Hcap)]; [| specialize (Hcap Hreliable); lia].
    assert (dev (block_write x lba bs).2 = d') as Ed by (cbn [block_write snd dev]; by rewrite Hbw).
    split; [unfold block_write at 1; cbn [snd]; apply (f_equal2 pair); [by rewrite Hbw | done] |]. intros l Hrange.
    rewrite !block_read_spec, Ed, Hk1, (proj2 (Z.ltb_lt _ _)) by lia. case_decide as Ell; [| rewrite Hk2 by lia; done].
    subst l. f_equal. rewrite <- (bytes_words bs) at 1 by done. symmetry. apply bytes_ext. intros i Hi. specialize (Hwr 0 i ltac:(lia) Hi).
    rewrite Z.mul_0_l, Z.add_0_l, Z.add_0_r in Hwr. rewrite Hwr.
    destruct (medium_words d' sl lba) as [Hlen' _]. destruct (lookup_lt_is_Some_2 (medium d' sl lba) (Z.to_nat i)) as [w Hw']; [lia |]. rewrite Hw'.
    symmetry. by apply zip_index.
  - intros x lba bs. cbn [block_write snd dev]. destruct (one_write x lba bs) as (r & d' & Hw & _ & [Hk1 _] & _). unfold bdev_write. rewrite u8_small by (unfold U8; lia). rewrite Hw. by rewrite <- Hk1.
Defined.
End block.

(** ** A drive in software

    The protocol can be met: a drive on the primary channel, with faults that spoil the
    next commands. *)
Module Sim.

Record drive := Sim { chn : chan; media : gmap (Z * Z) (list Z); size : Z; faults : list bool }.

Definition full (ws : list Z) : list Z := (fun i => u16 (default 0 (ws !! i))) <$> seq 0 256.
Definition sector_of (d : drive) (u l : Z) : list Z := full (default [] (media d !! (u, l))).
Definition room (d : drive) (u : Z) : Z := if u =? 0 then size d mod 2 ^ 28 else 0.
Definition fault (d : drive) : bool := default false (head (faults d)).

Definition with_chan (f : chan -> chan) (d : drive) : drive := Sim (f (chn d)) (media d) (size d) (faults d).
Definition command (d : drive) (p : phase) : drive := Sim (set_ph p (chn d)) (media d) (size d) (tail (faults d)).
Definition beyond (d : drive) : bool := fault d || (room d (unit_of (chn d)) <=? lba_of (chn d)).

Definition on_inb (p : Z) (d : drive) : Z * drive :=
  if (p =? ATA_PRIMARY_BASE + REG_STATUS) || (p =? ATA_PRIMARY_CTRL) then (status (ph (chn d)), with_chan (fun c => set_ph (tick (ph c)) c) d) else (0, d).
Definition on_outb (p v : Z) (d : drive) : drive :=
  let r := p - ATA_PRIMARY_BASE in
  if (1 <=? r) && (r <=? 6) then with_chan (put_reg r v) d
  else if r =? REG_COMMAND then
    if v =? CMD_READ_SECTORS then command d (Busy 2 (beyond d) (Some (sector_of d (unit_of (chn d)) (lba_of (chn d)))) false)
    else if v =? CMD_WRITE_SECTORS then command d (Busy 2 (beyond d) None true)
    else if v =? CMD_FLUSH_CACHE then command d (Busy 2 (fault d) None false) else d
  else d.
Definition on_inw (p : Z) (d : drive) : Z * drive :=
  match ph (chn d) with
  | Sending (w :: ws) => (w, with_chan (set_ph (match ws with [] => Idle (fault d) | _ => Sending ws end)) d)
  | _ => (0, d)
  end.
Definition on_outw (p w : Z) (d : drive) : drive :=
  match ph (chn d) with
  | Taking ws =>
      if decide (length ws = 255%nat) then
        Sim (set_ph (Busy 2 (fault d) None false) (chn d)) (<[(unit_of (chn d), lba_of (chn d)) := ws ++ [w]]> (media d)) (size d) (tail (faults d))
      else with_chan (set_ph (Taking (ws ++ [w]))) d
  | _ => d
  end.

#[global] Instance ports : Ports drive := {| inb := on_inb; outb := on_outb; inw := on_inw; outw := on_outw; inl := fun _ d => (0, d); outl := fun _ _ d => d |}.

Lemma full_words ws : length ws = 256%nat -> Forall (fun w => 0 <= w < 2 ^ 16) ws -> full ws = ws.
Proof.
  intros Hl Hb. apply list_eq. intros i. unfold full. rewrite list_lookup_fmap. destruct (decide (i < 256)%nat).
  - rewrite lookup_seq_lt by done. cbn [fmap option_fmap option_map Nat.add]. destruct (lookup_lt_is_Some_2 ws i) as [x Hx]; [lia |].
    rewrite Hx. cbn [from_option id]. unfold u16. by rewrite wrap_small by apply (Forall_lookup_1 _ _ _ _ Hb Hx).
  - rewrite lookup_seq_ge by lia. by rewrite lookup_ge_None_2 by lia.
Qed.

#[global] Instance protocol : AtaDevice drive ATA_PRIMARY_BASE ATA_PRIMARY_CTRL.
Proof.
  refine {| view := chn; medium := sector_of; capacity := room; delay := fun _ => 2%nat; fails := fault |}.
  - done.
  - intros d u. unfold room. destruct (u =? 0); [| done]. pose proof (Z.mod_pos_bound (size d) (2 ^ 28)). lia.
  - intros d u l. unfold sector_of, full. split; [by rewrite length_fmap, length_seq |]. apply Forall_fmap, Forall_true. intros i. apply (wrap_bound 16). lia.
  - intros p d [-> | ->]; done.
  - intros r v d e Hr Hv He. cbn [outb ports]. unfold on_outb. replace (ATA_PRIMARY_BASE + r - ATA_PRIMARY_BASE) with r by lia.
    rewrite (proj2 (Z.leb_le 1 r)), (proj2 (Z.leb_le r 6)) by lia. done.
  - intros d e He Hc. done.
  - intros d e He Hc. done.
  - intros d e He. done.
  - intros d w ws Hw. cbn [inw ports]. unfold on_inw. rewrite Hw. done.
  - intros d ws w Hw Hl Hf. cbn [outw ports]. unfold on_outw. rewrite Hw. case_decide as Hlen; [| done].
    split; [done |]. split; [done |]. split.
    + intros u l Hul. unfold sector_of. cbn [media]. rewrite lookup_insert_ne; [done |]. intros [= E1 E2]. destruct Hul; congruence.
    + intros _. unfold sector_of. cbn [media]. rewrite lookup_insert_eq. cbn [from_option id]. apply full_words; [rewrite length_app; cbn; lia | done].
Defined.

(** A disk of 64 sectors as the driver finds it, and one that fails three times. *)
Definition fresh : drive := Sim (Chan 0 0 0 0 0 (Idle false)) ∅ 64 [].
Definition faulty : drive := Sim (Chan 0 0 0 0 0 (Idle false)) {[(0, 5) := [7; 8; 9]]} 64 [true; true; true].
Definition table : list ATADrive := <[0%nat := Drive ATA_PRIMARY_BASE ATA_PRIMARY_CTRL 0 64 true]> probes.
End Sim.

(** ** Transfers *)





(** ** What the driver does not check *)

(** A sector address beyond 28 bits reads another sector and reports success. *)
Example address_wraps : exists buf' d', bdev_read Sim.table 0 (2 ^ 28 + 5) 1 (∅, Sim.faulty) = (Ok 1, (buf', d')) /\ buf' !! 0 = Some 7.
Proof. eexists _, _. split; [vm_compute; reflexivity | vm_compute; reflexivity]. Qed.

(** A failed flush is reported as success. *)
Example flush_failure_ignored : exists d', bdev_write Sim.table 0 9 1 (word_map []) (Sim.Sim (Chan 0 0 0 0 0 (Idle false)) ∅ 64 [false; false; true]) = (Ok tt, d') /\
  status (ph (view (b := ATA_PRIMARY_BASE) (c := ATA_PRIMARY_CTRL) d')) = STATUS_RDY .| STATUS_ERR.
Proof. eexists. split; [vm_compute; reflexivity | vm_compute; reflexivity]. Qed.
