(* ===== verification/Desc.v ===== *)
(** * drivers/gdt.cpp, drivers/idt.cpp: segments, gates and interrupts

    The two descriptor tables as the code fills them, and what the processor reads in
    them: the fields of a descriptor are taken from its bytes as the manual lays them
    out, so the theorems relate what the code stores to what the processor does.  The
    addresses of the tables, the stacks and the assembly stubs are parameters.  The
    reports of exceptions are in [Fault]. *)
From Stdlib Require Import String.
From S2P Require Import Prelude Monad Bytes Sched Syscall SyscallRun Vga Ports Serial.

Module Gdt.

Definition KERNEL_CODE : Z := 0x08.
Definition KERNEL_DATA : Z := 0x10.
Definition TSS_SEG : Z := 0x28.
Definition PRESENT : Z := 1 .<< 7.
Definition DPL0 : Z := 0 .<< 5.
Definition DPL3 : Z := 3 .<< 5.
Definition NONSYSTEM : Z := 1 .<< 4.
Definition EXEC : Z := 1 .<< 3.
Definition RW : Z := 1 .<< 1.
Definition TSS_TYPE : Z := 0x09.
Definition GRAN_4K : Z := 1 .<< 7.
Definition LONG_MODE : Z := 1 .<< 5.
Definition SIZE_32 : Z := 1 .<< 6.

Record Entry := { limit_low : Z; base_low : Z; base_mid : Z; access : Z; granularity : Z; base_high : Z }.
Record SystemEntry := { low : Entry; base_upper : Z; reserved : Z }.
Record Table := { null : Entry; kernel_code : Entry; kernel_data : Entry; user_data : Entry; user_code : Entry; tss_desc : SystemEntry }.
(** The fields of the task state that are not always zero. *)
Record TSS := { rsp0 : Z; ist : list Z; iopb_offset : Z }.
Record Pointer := { limit : Z; base : Z }.
(** The static storage and the two registers loaded. *)
Record state := State { gdt : Table; tss : TSS; gdtr : Pointer; task_register : Z }.

Definition sizeof_TSS : Z := 104.
Definition sizeof_Table : Z := 56.

Definition make_entry (base limit access gran : Z) : Entry :=
  {| limit_low := u16 (limit .& 0xFFFF); base_low := u16 (base .& 0xFFFF); base_mid := u8 ((base .>> 16) .& 0xFF);
     access := access; granularity := u8 ((gran .& 0xF0) .| ((limit .>> 16) .& 0x0F)); base_high := u8 ((base .>> 24) .& 0xFF) |}.

Definition tss_descriptor (base limit : Z) : SystemEntry :=
  {| low := make_entry (u32 (base .& 0xFFFFFFFF)) limit (PRESENT .| TSS_TYPE) 0; base_upper := u32 (base .>> 32); reserved := 0 |}.

Definition init (gdt_at tss_at ist1_stack ist2_stack : Z) : state :=
  let table := {|
    null := make_entry 0 0 0 0;
    kernel_code := make_entry 0 0xFFFFF (PRESENT .| DPL0 .| NONSYSTEM .| EXEC .| RW) (GRAN_4K .| LONG_MODE);
    kernel_data := make_entry 0 0xFFFFF (PRESENT .| DPL0 .| NONSYSTEM .| RW) (GRAN_4K .| SIZE_32);
    user_data := make_entry 0 0xFFFFF (PRESENT .| DPL3 .| NONSYSTEM .| RW) (GRAN_4K .| SIZE_32);
    user_code := make_entry 0 0xFFFFF (PRESENT .| DPL3 .| NONSYSTEM .| EXEC .| RW) (GRAN_4K .| LONG_MODE);
    tss_desc := tss_descriptor tss_at (sizeof_TSS - 1) |} in
  let tss := {| rsp0 := 0; ist := <[1%nat := ist2_stack + 4096]> (<[0%nat := ist1_stack + 4096]> (replicate 7 0)); iopb_offset := sizeof_TSS |} in
  State table tss {| limit := sizeof_Table - 1; base := gdt_at |} TSS_SEG.

Definition set_kernel_stack (sp : Z) (s : state) : state :=
  State (gdt s) {| rsp0 := sp; ist := ist (tss s); iopb_offset := iopb_offset (tss s) |} (gdtr s) (task_register s).

Definition get_ist1_addr (ist1_stack : Z) : Z := ist1_stack + 4096.
Definition get_tss_ist0 (s : state) : Z := at_index (ist (tss s)) 0.

(** ** The bytes of the table *)

Definition entry_bytes (e : Entry) : list Z :=
  le_bytes 2 (limit_low e) ++ le_bytes 2 (base_low e) ++ [base_mid e; access e; granularity e; base_high e].
Definition table_bytes (t : Table) : list Z :=
  entry_bytes (null t) ++ entry_bytes (kernel_code t) ++ entry_bytes (kernel_data t) ++ entry_bytes (user_data t) ++ entry_bytes (user_code t) ++
  entry_bytes (low (tss_desc t)) ++ le_bytes 4 (base_upper (tss_desc t)) ++ le_bytes 4 (reserved (tss_desc t)).

(** ** What the processor reads: the descriptor a selector names *)

Record segment := Segment { s_base : Z; s_limit : Z; s_present : bool; s_dpl : Z; s_system : bool; s_type : Z; s_long : bool; s_4k : bool }.

Definition segment_at (b : list Z) (off : Z) : segment :=
  Segment (get16 b (off + 2) + at_index b (off + 4) * 2 ^ 16 + at_index b (off + 7) * 2 ^ 24)
    (get16 b off + (at_index b (off + 6) mod 16) * 2 ^ 16) (Z.testbit (at_index b (off + 5)) 7) ((at_index b (off + 5) / 32) mod 4)
    (negb (Z.testbit (at_index b (off + 5)) 4)) (at_index b (off + 5) mod 16) (Z.testbit (at_index b (off + 6)) 5) (Z.testbit (at_index b (off + 6)) 7).

(** The bytes of a selector, its requested privilege left out, inside the limit. *)
Definition load (b : list Z) (lim selector : Z) : option segment :=
  let off := selector - selector mod 8 in
  if off + 7 <=? lim then Some (segment_at b off) else None.

(** The base address of a system descriptor has its upper half after it. *)
Definition system_base (b : list Z) (selector : Z) : Z := s_base (segment_at b selector) + get32 b (selector + 8) * 2 ^ 32.

(** ** The segments after [init] *)

Definition code_segment (dpl : Z) : segment := Segment 0 0xFFFFF true dpl false 10 true true.
Definition data_segment (dpl : Z) : segment := Segment 0 0xFFFFF true dpl false 2 false true.

Section loaded.
Context (gdt_at tss_at ist1 ist2 : Z).
Notation table := (table_bytes (gdt (init gdt_at tss_at ist1 ist2))).
Notation lim := (limit (gdtr (init gdt_at tss_at ist1 ist2))).

Lemma table_length : Z.of_nat (length table) = lim + 1.
Proof. reflexivity. Qed.

Lemma flat_segments sel r : 0 <= r < 8 ->
  (sel = KERNEL_CODE -> load table lim (sel + r) = Some (code_segment 0)) /\ (sel = KERNEL_DATA -> load table lim (sel + r) = Some (data_segment 0)) /\
  (sel = USER_CODE -> load table lim (sel + r) = Some (code_segment 3)) /\ (sel = USER_DATA -> load table lim (sel + r) = Some (data_segment 3)).
Proof.
  intros Hr. assert (r = 0 \/ r = 1 \/ r = 2 \/ r = 3 \/ r = 4 \/ r = 5 \/ r = 6 \/ r = 7) as Hc by lia.
  split_and!; intros ->; (repeat (destruct Hc as [-> | Hc]; [vm_compute; reflexivity |])); rewrite Hc; vm_compute; reflexivity.
Qed.

(** The three parts of an address and its upper half. *)
Lemma base_parts x : U64 x -> u16 (u32 (x .& 0xFFFFFFFF) .& 0xFFFF) + u8 ((u32 (x .& 0xFFFFFFFF) .>> 16) .& 0xFF) * 2 ^ 16 +
  u8 ((u32 (x .& 0xFFFFFFFF) .>> 24) .& 0xFF) * 2 ^ 24 + u32 (x .>> 32) * 2 ^ 32 = x.
Proof.
  intros Hx. unfold U64 in Hx. change 0xFFFFFFFF with (Z.ones 32). change 0xFFFF with (Z.ones 16). change 0xFF with (Z.ones 8). rewrite !Z.land_ones, !Z.shiftr_div_pow2 by lia.
  unfold u16, u32, u8, wrap. rewrite !Z.mod_mod by lia. rewrite (Z.mod_small (x / 2 ^ 32)) by divlia.
  rewrite (Z.div_mod x (2 ^ 32)) at 5 by lia. pose proof (Z.mod_pos_bound x (2 ^ 32) ltac:(lia)) as Hy. set (y := x mod 2 ^ 32) in *. clearbody y.
  rewrite (Z.mod_small (y / 2 ^ 24)) by divlia. rewrite (Z.div_mod y (2 ^ 16)) at 4 by lia. rewrite (Z.div_mod (y / 2 ^ 16) (2 ^ 8)) at 2 by lia.
  rewrite Z.div_div by lia. change (2 ^ 16 * 2 ^ 8) with (2 ^ 24). lia.
Qed.

Lemma tss_segment : U64 tss_at -> system_base table TSS_SEG = tss_at /\
  exists sg, load table lim TSS_SEG = Some sg /\ s_limit sg = sizeof_TSS - 1 /\ s_present sg = true /\ s_system sg = true /\ s_type sg = TSS_TYPE /\ s_dpl sg = 0 /\ s_4k sg = false.
Proof.
  intros Ht. split; [| exists (segment_at table TSS_SEG); split; [reflexivity |]; split_and!; reflexivity].
  rewrite <- (base_parts tss_at Ht) at 2. unfold system_base, segment_at. cbn [s_base].
  assert (forall n w off, 0 <= w -> (forall i, 0 <= i < Z.of_nat n -> at_index table (off + i) = u8 (w .>> (8 * i))) -> w < 2 ^ (8 * Z.of_nat n) -> read_le (at_index table) off n = w) as Hle.
  { intros n w off Hw Hi Hb. rewrite (read_le_spec _ w) by done. apply Z.mod_small. lia. }
  unfold get16, get32. rewrite (Hle 2%nat (u16 (u32 (tss_at .& 0xFFFFFFFF) .& 0xFFFF))), (Hle 4%nat (u32 (tss_at .>> 32))).
  - reflexivity.
  - apply u32_bound.
  - intros i Hi. assert (i = 0 \/ i = 1 \/ i = 2 \/ i = 3) as Hc by (cbn in Hi; lia). destruct Hc as [-> | [-> | [-> | ->]]]; reflexivity.
  - apply u32_bound.
  - apply (wrap_bound 16). lia.
  - intros i Hi. assert (i = 0 \/ i = 1) as Hc by (cbn in Hi; lia). destruct Hc as [-> | ->]; reflexivity.
  - apply (wrap_bound 16). lia.
Qed.
End loaded.

Lemma msrs_wrmsr {H : Type} r v (k : @kstate H) : msrs (wrmsr r v k) = <[r := v]> (msrs k).
Proof. done. Qed.

Lemma star_value {H : Type} entry gs (k : @kstate H) : default 0 (msrs (Syscall.init entry gs k) !! MSR_STAR) = (0x0008 .<< 32) .| (0x0010 .<< 48).
Proof. unfold Syscall.init. cbv zeta. rewrite !msrs_wrmsr. rewrite !lookup_insert_ne by (intros He; discriminate He). by rewrite lookup_insert_eq. Qed.


End Gdt.

Module Idt.

Definition INTERRUPT_GATE : Z := 0x8E.

Record Entry := { offset_low : Z; selector : Z; ist : Z; type_attr : Z; offset_mid : Z; offset_high : Z; reserved : Z }.

Definition sizeof_Entry : Z := 16.

Definition no_entry : Entry := {| offset_low := 0; selector := 0; ist := 0; type_attr := 0; offset_mid := 0; offset_high := 0; reserved := 0 |}.

(** The table and the handlers of the interrupt lines, 0 for none. *)
Record state := State { idt_entries : list Entry; irq_handlers : list Z }.

Definition gate (handler type_attr : Z) : Entry :=
  {| offset_low := u16 (handler .& 0xFFFF); selector := 0x08; ist := 0; type_attr := type_attr;
     offset_mid := u16 ((handler .>> 16) .& 0xFFFF); offset_high := u32 ((handler .>> 32) .& 0xFFFFFFFF); reserved := 0 |}.

Definition set_handler (vector handler type_attr : Z) (s : state) : state :=
  State (<[Z.to_nat (u8 vector) := gate handler type_attr]> (idt_entries s)) (irq_handlers s).

Definition set_ist (vector n : Z) (s : state) : state :=
  State (alter (fun e => {| offset_low := offset_low e; selector := selector e; ist := n; type_attr := type_attr e;
    offset_mid := offset_mid e; offset_high := offset_high e; reserved := reserved e |}) (Z.to_nat vector) (idt_entries s)) (irq_handlers s).

Section stubs.
(** The addresses of the stubs and of the double-fault handler. *)
Context (isr_stub_table irq_stub_table : list Z) (df_handler : Z).

(** What [idt_flush] loads: the table's size in bytes less one, and its address. *)
Definition idt_ptr (idt_at : Z) : Gdt.Pointer := {| Gdt.limit := 256 * sizeof_Entry - 1; Gdt.base := idt_at |}.

Definition init (s : state) : state :=
  let s := State (replicate 256 no_entry) (irq_handlers s) in
  let s := for_range 0 32 (fun i s => set_handler i (at_index isr_stub_table i) INTERRUPT_GATE s) s in
  set_ist 8 1 (set_handler 8 df_handler INTERRUPT_GATE s).

Definition set_irq_handler (irq handler : Z) (s : state) : state :=
  if 16 <=? irq then s else
  set_handler (32 + irq) (at_index irq_stub_table irq) INTERRUPT_GATE (State (idt_entries s) (<[Z.to_nat irq := handler]> (irq_handlers s))).

(** The handler that is called, if one is. *)
Definition irq_dispatch (s : state) (vector : Z) : option Z :=
  let irq := u8 (vector - 32) in
  if (irq <? 16) && negb (at_index (irq_handlers s) irq =? 0) then Some (at_index (irq_handlers s) irq) else None.
End stubs.

(** ** The processor's view of a gate *)

Record target := Target { t_offset : Z; t_selector : Z; t_ist : Z; t_present : bool; t_dpl : Z; t_interrupt : bool }.

Definition decode (e : Entry) : target :=
  Target (offset_low e + offset_mid e * 2 ^ 16 + offset_high e * 2 ^ 32) (selector e) (ist e mod 8)
    (Z.testbit (type_attr e) 7) ((type_attr e / 32) mod 4) (type_attr e mod 16 =? 14).

(** An interrupt gate to a kernel address that user code cannot call. *)
Definition kernel_gate (a i : Z) : target := Target a Gdt.KERNEL_CODE i true 0 true.

Lemma decode_gate a : U64 a -> decode (gate a INTERRUPT_GATE) = kernel_gate a 0.
Proof.
  intros Ha. unfold U64 in Ha. unfold decode, gate, kernel_gate. cbn [offset_low offset_mid offset_high selector ist type_attr]. f_equal.
  change 0xFFFFFFFF with (Z.ones 32). change 0xFFFF with (Z.ones 16). rewrite !Z.land_ones, !Z.shiftr_div_pow2 by lia.
  unfold u16, u32, wrap. rewrite !Z.mod_mod by lia. rewrite (Z.mod_small (a / 2 ^ 32)) by divlia.
  rewrite (Z.div_mod a (2 ^ 16)) at 4 by lia. rewrite (Z.div_mod (a / 2 ^ 16) (2 ^ 16)) at 2 by lia. rewrite Z.div_div by lia. change (2 ^ 16 * 2 ^ 16) with (2 ^ 32). lia.
Qed.

(** What entry [v] sends the processor to. *)
Definition vector_of (s : state) (v : Z) : option target := decode <$> idt_entries s !! Z.to_nat v.

Section routing.
Context (isr : list Z) (df : Z).
Hypothesis Hisr : length isr = 32%nat /\ Forall U64 isr.
Hypothesis Hdf : U64 df.

Lemma vector_set v h s v' : 0 <= v < 256 -> 0 <= v' -> length (idt_entries s) = 256%nat -> U64 h ->
  vector_of (set_handler v h INTERRUPT_GATE s) v' = if decide (v' = v) then Some (kernel_gate h 0) else vector_of s v'.
Proof.
  intros Hv Hv' Hl Hh. unfold vector_of, set_handler. cbn [idt_entries]. rewrite u8_small by (unfold U8; lia). case_decide as Hd.
  - subst v'. rewrite list_lookup_insert_eq by lia. cbn. by rewrite decode_gate.
  - by rewrite list_lookup_insert_ne by lia.
Qed.

Lemma length_set v h t s : length (idt_entries (set_handler v h t s)) = length (idt_entries s).
Proof. apply length_insert. Qed.

(** The gates of the exceptions. *)
Definition exceptions_ok (s : state) : Prop := length (idt_entries s) = 256%nat /\ length (irq_handlers s) = 16%nat /\
  forall v, 0 <= v < 32 -> vector_of s v = Some (if v =? 8 then kernel_gate df 1 else kernel_gate (at_index isr v) 0).

Definition absent : target := Target 0 0 0 false 0 false.

Lemma init_gates s : length (irq_handlers s) = 16%nat -> exceptions_ok (init isr df s) /\ irq_handlers (init isr df s) = irq_handlers s /\
  forall v, 32 <= v < 256 -> vector_of (init isr df s) v = Some absent.
Proof using Hisr Hdf.
  intros Hh. unfold init. set (s0 := State _ _). set (body := fun i s => _).
  assert (let s1 := for_range 0 32 body s0 in length (idt_entries s1) = 256%nat /\ irq_handlers s1 = irq_handlers s /\
    forall v, 0 <= v < 256 -> vector_of s1 v = Some (if v <? 32 then kernel_gate (at_index isr v) 0 else absent)) as (L1 & H1 & V1).
  { apply (for_range_ind (fun i x => length (idt_entries x) = 256%nat /\ irq_handlers x = irq_handlers s /\
      forall v, 0 <= v < 256 -> vector_of x v = Some (if v <? i then kernel_gate (at_index isr v) 0 else absent))); [lia | |].
    - split; [reflexivity |]. split; [done |]. intros v Hv. rewrite (proj2 (Z.ltb_ge v 0)) by lia. unfold vector_of, s0. cbn [idt_entries]. by rewrite lookup_replicate_2 by lia.
    - intros i x Hi (L & Hx & Vx). unfold body. split; [by rewrite length_set |]. split; [done |]. intros v Hv.
      rewrite vector_set; [| lia | lia | done |].
      + case_decide as Hd; [subst v; by rewrite (proj2 (Z.ltb_lt i (i + 1))) by lia |]. rewrite Vx by done. by destruct (Z.ltb_spec v i), (Z.ltb_spec v (i + 1)); try lia.
      + destruct Hisr as [Hl Hf]. unfold at_index. destruct (lookup_lt_is_Some_2 isr (Z.to_nat i)) as [a Ha]; [lia |]. rewrite Ha. apply (Forall_lookup_1 _ _ _ _ Hf Ha). }
  set (s1 := for_range 0 32 body s0) in *. clearbody s1.
  assert (forall v, 0 <= v < 256 -> vector_of (set_ist 8 1 (set_handler 8 df INTERRUPT_GATE s1)) v = if decide (v = 8) then Some (kernel_gate df 1) else vector_of s1 v) as Hv.
  { intros v Hv. unfold vector_of, set_ist. cbn [idt_entries]. destruct (decide (v = 8)) as [-> |].
    - rewrite list_lookup_alter_eq. cbn [idt_entries set_handler]. change (Z.to_nat (u8 8)) with (Z.to_nat 8). rewrite list_lookup_insert_eq by lia.
      cbn [fmap option_fmap option_map]. f_equal. pose proof (decode_gate df Hdf) as Hg. revert Hg. unfold decode, kernel_gate. cbn. by intros [= ->].
    - rewrite list_lookup_alter_ne by lia. cbn [idt_entries set_handler]. change (Z.to_nat (u8 8)) with (Z.to_nat 8). by rewrite list_lookup_insert_ne by lia. }
  split; [| split; [done |]].
  - split; [cbn [idt_entries set_ist set_handler]; by rewrite length_alter, length_insert |]. split; [cbn [irq_handlers set_ist set_handler]; congruence |].
    intros v Hr. rewrite Hv by lia. case_decide as Hd; [by subst v |]. rewrite (proj2 (Z.eqb_neq v 8)) by done. rewrite V1 by lia. by rewrite (proj2 (Z.ltb_lt v 32)) by lia.
  - intros v Hr. rewrite Hv, decide_False, V1 by lia. by rewrite (proj2 (Z.ltb_ge v 32)) by lia.
Qed.

(** ** Interrupt lines *)

Context (irq : list Z).
Hypothesis Hirq : length irq = 16%nat /\ Forall U64 irq.

(** The handlers of a series of registrations: the last for each line. *)
Definition install (l : list (Z * Z)) (s : state) : state := foldl (fun s p => set_irq_handler irq p.1 p.2 s) s l.
Definition last_handler (l : list (Z * Z)) (n : Z) : option Z := foldl (fun a p => if p.1 =? n then Some p.2 else a) None l.

Lemma install_snoc l p s : install (l ++ [p]) s = set_irq_handler irq p.1 p.2 (install l s).
Proof. unfold install. by rewrite foldl_app. Qed.
Lemma last_snoc l p n : last_handler (l ++ [p]) n = if p.1 =? n then Some p.2 else last_handler l n.
Proof. unfold last_handler. by rewrite foldl_app. Qed.

Lemma irq_stub_U64 n : 0 <= n < 16 -> U64 (at_index irq n).
Proof using Hirq.
  clear Hisr. intros Hn. destruct Hirq as [Hl Hf]. unfold at_index. destruct (lookup_lt_is_Some_2 irq (Z.to_nat n)) as [a Ha]; [lia |]. rewrite Ha. apply (Forall_lookup_1 _ _ _ _ Hf Ha).
Qed.

Lemma install_spec l s : Forall (fun p => 0 <= p.1) l -> let s0 := init isr df (State (idt_entries s) (replicate 16 0)) in let s' := install l s0 in
  exceptions_ok s' /\
  (forall n, 0 <= n < 16 -> vector_of s' (32 + n) = Some (match last_handler l n with Some _ => kernel_gate (at_index irq n) 0 | None => absent end) /\
     at_index (irq_handlers s') n = default 0 (last_handler l n)) /\
  (forall v, 48 <= v < 256 -> vector_of s' v = Some absent).
Proof using Hisr Hdf Hirq.
  cbv zeta. set (s0 := init _ _ _). destruct (init_gates (State (idt_entries s) (replicate 16 0))) as (He & Hi & Hv); [done |]. fold s0 in He, Hi, Hv. cbn [irq_handlers] in Hi. clearbody s0.
  induction l as [| p l IH] using rev_ind; intros Hl.
  - split; [done |]. split; [| intros v Hr; apply Hv; lia]. intros n Hn. cbn. rewrite Hv by lia. split; [done |]. rewrite Hi. unfold at_index. by rewrite lookup_replicate_2 by lia.
  - apply Forall_app in Hl as [Hl Hp]. apply Forall_cons_1 in Hp as [Hp _]. destruct (IH Hl) as ((L1 & L2 & Hx) & Hn & Hr). clear IH. rewrite install_snoc. set (s1 := install l s0) in *. clearbody s1.
    unfold set_irq_handler. destruct (Z.leb_spec 16 p.1) as [Hge | Hlt].
    + split; [done |]. split; [| done]. intros n Hn'. rewrite last_snoc, (proj2 (Z.eqb_neq p.1 n)) by lia. by apply Hn.
    + set (s2 := State (idt_entries s1) _). assert (forall v, 0 <= v < 256 -> vector_of (set_handler (32 + p.1) (at_index irq p.1) INTERRUPT_GATE s2) v =
        if decide (v = 32 + p.1) then Some (kernel_gate (at_index irq p.1) 0) else vector_of s1 v) as Hset.
      { intros v Hv'. rewrite vector_set; [done | lia | lia | exact L1 | apply irq_stub_U64; lia]. }
      split; [| split].
      * split; [by rewrite length_set |]. split; [cbn [irq_handlers set_handler s2]; by rewrite length_insert |]. intros v Hv'. rewrite Hset, decide_False by lia. by apply Hx.
      * intros n Hn'. rewrite Hset by lia. rewrite last_snoc. cbn [irq_handlers set_handler]. destruct (Z.eqb_spec p.1 n) as [<- | Hne].
        -- rewrite decide_True by done. split; [done |]. unfold at_index, s2. cbn [irq_handlers]. by rewrite list_lookup_insert_eq by lia.
        -- rewrite decide_False by lia. destruct (Hn n Hn') as [H1 H2]. split; [done |]. rewrite <- H2. unfold at_index, s2. cbn [irq_handlers]. by rewrite list_lookup_insert_ne by lia.
      * intros v Hv'. rewrite Hset, decide_False by lia. by apply Hr.
Qed.
End routing.

(** C25: After [idt::init] and any series of [set_irq_handler] calls, whatever the lines and
    handlers: every exception goes to its stub, the double fault to its own handler on
    its own stack, through gates user code cannot call; a line's vector goes to its
    stub exactly when a handler was registered, and the dispatcher calls the handler
    registered last, if it is not null; no other vector is present, and the dispatcher
    ignores it.  The limit loaded covers all 256 gates. *)
Theorem interrupts_routed isr df irq l s : length isr = 32%nat /\ Forall U64 isr -> length irq = 16%nat /\ Forall U64 irq -> U64 df -> Forall (fun p => 0 <= p.1) l ->
  let s' := install irq l (init isr df (State (idt_entries s) (replicate 16 0))) in
  (forall v, 0 <= v < 32 -> vector_of s' v = Some (if v =? 8 then kernel_gate df 1 else kernel_gate (at_index isr v) 0)) /\
  (forall n, 0 <= n < 16 -> vector_of s' (32 + n) = Some (match last_handler l n with Some _ => kernel_gate (at_index irq n) 0 | None => absent end) /\
     irq_dispatch s' (32 + n) = match last_handler l n with Some h => if h =? 0 then None else Some h | None => None end) /\
  (forall v, 48 <= v < 256 -> vector_of s' v = Some absent /\ irq_dispatch s' v = None) /\
  (forall idt_at v, 0 <= v < 256 -> (v + 1) * sizeof_Entry - 1 <= Gdt.limit (idt_ptr idt_at)).
Proof.
  intros Hisr Hirq Hdf Hl s'. destruct (install_spec isr df Hisr Hdf irq Hirq l s Hl) as ((_ & _ & Hx) & Hn & Hr). fold s' in Hx, Hn, Hr.
  assert (forall v, 32 <= v < 256 -> u8 (v - 32) = v - 32) as Hu by (intros; apply u8_small; unfold U8; lia).
  split; [done |]. split.
  - intros n Hn'. destruct (Hn n Hn') as [H1 H2]. split; [done |]. unfold irq_dispatch. rewrite Hu by lia. replace (32 + n - 32) with n by lia.
    rewrite (proj2 (Z.ltb_lt n 16)), H2 by lia. cbn [andb]. destruct (last_handler l n) as [h |]; cbn [from_option id]; [by destruct (h =? 0) | done].
  - split; [| intros idt_at v Hv; unfold idt_ptr, sizeof_Entry; cbn; lia].
    intros v Hv. split; [by apply Hr |]. unfold irq_dispatch. rewrite Hu by lia. by rewrite (proj2 (Z.ltb_ge (v - 32) 16)) by lia.
Qed.

Lemma interrupts_routed_witness : irq_dispatch (install (replicate 16 0x5000) [(0, 0x7000); (7, 0x7100); (0, 0x7200); (99, 1)] (init (replicate 32 0x4000) 0x6000 (State [] (replicate 16 0)))) 32 = Some 0x7200.
Proof.
  destruct (interrupts_routed (replicate 32 0x4000) 0x6000 (replicate 16 0x5000) [(0, 0x7000); (7, 0x7100); (0, 0x7200); (99, 1)] (State [] [])) as (_ & H & _).
  - split; [reflexivity |]. apply Forall_replicate. unfold U64. lia.
  - split; [reflexivity |]. apply Forall_replicate. unfold U64. lia.
  - unfold U64. lia.
  - repeat constructor; cbn; lia.
  - apply (H 0). lia.
Defined.
End Idt.
