(* ===== verification/Fault.v ===== *)
(** * drivers/idt.cpp: the reports of exceptions

    [exception_handler] and [df_handler] print the frame and halt; each is the list of
    the calls it makes.  [cr2] and [cr3] are the control registers. *)
From Stdlib Require Import String.
From S2P Require Import Prelude Monad Ports Vga Serial.

Record Frame := {
  r15 : Z; r14 : Z; r13 : Z; r12 : Z; r11 : Z; r10 : Z; r9 : Z; r8 : Z;
  rbp : Z; rdi : Z; rsi : Z; rdx : Z; rcx : Z; rbx : Z; rax : Z;
  vector : Z; error_code : Z; rip : Z; cs : Z; rflags : Z; rsp : Z; ss : Z;
}.

Definition exception_names : list (list Z) :=
  [txt "#DE Divide Error"; txt "#DB Debug"; txt "Non-Maskable Interrupt"; txt "#BP Breakpoint"; txt "#OF Overflow";
   txt "#BR Bound Range Exceeded"; txt "#UD Invalid Opcode"; txt "#NM Device Not Available"; txt "#DF Double Fault";
   txt "Coprocessor Segment Overrun"; txt "#TS Invalid TSS"; txt "#NP Segment Not Present";
   txt "#SS Stack-Segment Fault"; txt "#GP General Protection Fault"; txt "#PF Page Fault"; txt "Reserved";
   txt "#MF x87 Floating-Point"; txt "#AC Alignment Check"; txt "#MC Machine Check"; txt "#XM SIMD Floating-Point";
   txt "#VE Virtualisation"; txt "#CP Control Protection"; txt "Reserved"; txt "Reserved"; txt "Reserved";
   txt "Reserved"; txt "Reserved"; txt "Reserved"; txt "Reserved"; txt "Reserved"; txt "#SX Security Exception";
   txt "Reserved"].

Definition df_handler (cr2 cr3 : Z) (f : Frame) : list call :=
  [VColor White Red; VLine (txt "                                                                                ");
   VLine (txt "  *** DOUBLE FAULT — SYSTEM HALTED ***                                         ");
   VLine (txt "                                                                                ");
   VColor LightRed Black; VText (txt "  rip="); VHex (rip f); VText (txt "  rsp="); VHex (rsp f);
   VText (txt "  rbp="); VHex (rbp f); VLine (txt ""); VText (txt "  cs="); VHex (cs f); VText (txt "  ss=");
   VHex (ss f); VText (txt "  rflags="); VHex (rflags f); VLine (txt ""); VText (txt "  cr2="); VHex cr2;
   VText (txt "  cr3="); VHex cr3; VLine (txt ""); VText (txt "  rax="); VHex (rax f); VText (txt "  rbx=");
   VHex (rbx f); VText (txt "  rcx="); VHex (rcx f); VText (txt "  rdx="); VHex (rdx f); VLine (txt "");
   VText (txt "  rsi="); VHex (rsi f); VText (txt "  rdi="); VHex (rdi f); VText (txt "  r8="); VHex (r8 f);
   VText (txt "  r9="); VHex (r9 f); VLine (txt ""); SLine (10 :: txt "=== DOUBLE FAULT ==="); SText (txt "rip=");
   SHex (rip f); SText (txt " rsp="); SHex (rsp f); SText (txt " rbp="); SHex (rbp f); SLine (txt "");
   SText (txt "cr2="); SHex cr2; SText (txt " cr3="); SHex cr3; SLine (txt ""); SText (txt "rax="); SHex (rax f);
   SText (txt " rbx="); SHex (rbx f); SText (txt " rcx="); SHex (rcx f); SText (txt " rdx="); SHex (rdx f);
   SLine (txt ""); SLine (txt "System halted.")].

Definition exception_handler (cr2 : Z) (f : Frame) : list call :=
  let name := if vector f <? 32 then default [] (exception_names !! Z.to_nat (vector f)) else txt "Unknown" in
  [VColor White Red; VLine (txt "                                                                                ");
   VText (txt "  KNAIL PANIC - "); VText name;
   VLine (txt "                                                          ");
   VLine (txt "                                                                                ");
   VColor LightRed Black; VText (txt "  vector="); VDec (vector f); VText (txt "  err="); VHex (error_code f);
   VText (txt "  rip="); VHex (rip f); VText (txt "  cs="); VHex (cs f); VLine (txt ""); VText (txt "  rsp=");
   VHex (rsp f); VText (txt "  rbp="); VHex (rbp f); VText (txt "  rflags="); VHex (rflags f); VLine (txt "");
   VText (txt "  rax="); VHex (rax f); VText (txt "  rbx="); VHex (rbx f); VText (txt "  rcx="); VHex (rcx f);
   VText (txt "  rdx="); VHex (rdx f); VLine (txt ""); VText (txt "  rsi="); VHex (rsi f); VText (txt "  rdi=");
   VHex (rdi f); VText (txt "  r8="); VHex (r8 f); VText (txt "  r9="); VHex (r9 f); VLine (txt "")] ++
  (if vector f =? 14 then
    [VText (txt "  #PF cr2="); VHex cr2; VText (txt "  [");
     VText (txt (if set_in (error_code f) 1 then "protection " else "not-present "));
     VText (txt (if set_in (error_code f) 2 then "write " else "read "));
     VText (txt (if set_in (error_code f) 4 then "user" else "kernel")); VLine (txt "]")]
  else []) ++
  [VColor Yellow Black; VLine (10 :: txt "  System halted."); SLine (10 :: txt "--- EXCEPTION ---");
   SText (txt "vector="); SDec (vector f); SText (txt " err="); SHex (error_code f); SText (txt " rip=");
   SHex (rip f); SText (txt " cs="); SHex (cs f); SLine (txt ""); SText (txt "rsp="); SHex (rsp f);
   SText (txt " rflags="); SHex (rflags f); SLine (txt "")] ++
  (if vector f =? 14 then
    [SText (txt "#PF cr2="); SHex cr2; SText (txt " err="); SHex (error_code f); SLine (txt "")]
  else []).

(** ** The reports *)

Lemma frame_calls cr2 cr3 f : U64 (vector f) -> Forall call_ok (exception_handler cr2 f) /\ Forall call_ok (df_handler cr2 cr3 f).
Proof.
  intros Hv. unfold exception_handler, df_handler. cbv zeta. split; [| repeat constructor].
  rewrite !Forall_app. split_and!; [repeat constructor | case_match; repeat constructor | repeat (constructor; [exact I || exact Hv |]); constructor | case_match; repeat constructor].
Qed.

(** A hexadecimal number as it is printed. *)
Lemma hex_string_parse n : U64 n -> exists ds, hex_string n = 48 :: 120 :: ds /\ length ds = 16%nat /\ parse_hex ds = n.
Proof.
  intros Hn. exists (hex_loop 16 n []). split; [done |]. split; [by rewrite hex_loop_length |]. unfold parse_hex. rewrite hex_loop_value; [done |].
  change (16 ^ Z.of_nat 16) with (2 ^ 64). done.
Qed.

(** An exception is reported: the handler comes to its end with the screen in order,
    whatever the registers held, and the vector, error code and instruction address can
    be read back from what the port sent; for a page fault the address too. *)
Lemma exception_reported {D} `{!Ports D} base_port `{!Serial.Uart D base_port} fuel cr2 f v d : (Serial.slow < fuel)%nat -> wf v ->
  U64 (vector f) -> U64 (error_code f) -> U64 (rip f) -> U64 cr2 ->
  exists v' d' pre mid rest dv de dr, report fuel base_port (exception_handler cr2 f) (v, d) = Some (tt, (v', d')) /\ wf v' /\
    Serial.sent d' = Serial.sent d ++ pre ++ txt "vector=" ++ dv ++ txt " err=0x" ++ de ++ txt " rip=0x" ++ dr ++ mid ++ rest /\
    parse_dec dv = vector f /\ parse_hex de = error_code f /\ parse_hex dr = rip f /\
    (vector f = 14 -> exists da end_, rest = txt "#PF cr2=0x" ++ da ++ end_ /\ parse_hex da = cr2).
Proof.
  intros Hf Hw Hv He Hr Hc. destruct (report_ok base_port fuel (exception_handler cr2 f) v d Hf) as (v' & d' & E & W & S); [by apply (frame_calls cr2 0) | done |].
  destruct (dec_string_spec (vector f) Hv) as (Dv & _). destruct (hex_string_parse (error_code f) He) as (de & Ee & _ & Pe). destruct (hex_string_parse (rip f) Hr) as (dr & Er & _ & Pr).
  destruct (hex_string_parse cr2 Hc) as (da & Ea & _ & Pa).
  set (e4 := (if vector f =? 14 then [SText (txt "#PF cr2="); SHex cr2; SText (txt " err="); SHex (error_code f); SLine (txt "")] else []) ≫= port_text).
  exists v', d', (Serial.crlf (10 :: txt "--- EXCEPTION ---") ++ [13; 10]),
    (txt " cs=" ++ hex_string (cs f) ++ [13; 10] ++ txt "rsp=" ++ hex_string (rsp f) ++ txt " rflags=" ++ hex_string (rflags f) ++ [13; 10]), e4, (dec_string (vector f)), de, dr.
  split; [done |]. split; [done |]. split; [| split; [done |]; split; [done |]; split; [done |]].
  - rewrite S. f_equal. unfold exception_handler. cbv zeta. rewrite !bind_app. fold e4.
    replace ((if vector f =? 14 then _ else []) ≫= port_text) with (@nil Z) by (by destruct (vector f =? 14)).
    cbn [mbind list_bind port_text]. rewrite Ee, Er. rewrite <- !app_assoc. cbn. reflexivity.
  - intros H14. unfold e4. rewrite H14, Z.eqb_refl. cbn [mbind list_bind port_text]. rewrite Ea. eexists da, _. split; [cbn; reflexivity | done].
Qed.
