(* ===== verification/Irq.v ===== *)
(** * kernel/pic.cpp, kernel/timer.cpp, drivers/rtc.cpp: interrupts and time

    The drivers over any device with ports.  What they rely on is the behaviour of the
    two interrupt controllers: an initialisation sequence of command words, a mask, and
    the interrupts in service, which the end-of-interrupt command clears by priority. *)
From S2P Require Import Prelude Bytes Ports Desc.

Module Pic.

Definition PIC1_CMD : Z := 0x20.
Definition PIC1_DATA : Z := 0x21.
Definition PIC2_CMD : Z := 0xA0.
Definition PIC2_DATA : Z := 0xA1.
Definition ICW1_INIT : Z := 0x10.
Definition ICW1_ICW4 : Z := 0x01.
Definition ICW4_8086 : Z := 0x01.
Definition IRQ_BASE_MASTER : Z := 32.
Definition IRQ_BASE_SLAVE : Z := 40.

Section driver.
Context {D : Type} `{!Ports D}.

Definition io_wait (d : D) : D := outb 0x80 0 d.
Definition read_cmos (reg : Z) (d : D) : Z * D := inb 0x71 (outb 0x70 reg d).

Definition init (d : D) : D :=
  let d := snd (inb PIC1_DATA d) in
  let d := snd (inb PIC2_DATA d) in
  let d := io_wait (outb PIC1_CMD (ICW1_INIT .| ICW1_ICW4) d) in
  let d := io_wait (outb PIC2_CMD (ICW1_INIT .| ICW1_ICW4) d) in
  let d := io_wait (outb PIC1_DATA IRQ_BASE_MASTER d) in
  let d := io_wait (outb PIC2_DATA IRQ_BASE_SLAVE d) in
  let d := io_wait (outb PIC1_DATA 0x04 d) in
  let d := io_wait (outb PIC2_DATA 0x02 d) in
  let d := io_wait (outb PIC1_DATA ICW4_8086 d) in
  let d := io_wait (outb PIC2_DATA ICW4_8086 d) in
  let d := outb PIC1_DATA 0xFF d in
  outb PIC2_DATA 0xFF d.

Definition enable_irq (irq : Z) (d : D) : D :=
  let '(port, irq, d) :=
    if irq <? 8 then (PIC1_DATA, irq, d) else
    let '(m, d) := inb PIC1_DATA d in (PIC2_DATA, irq - 8, outb PIC1_DATA (u8 (m .& Z.lnot (1 .<< 2))) d) in
  let '(mask, d) := inb port d in
  outb port (u8 (mask .& Z.lnot (1 .<< irq))) d.

Definition disable_irq (irq : Z) (d : D) : D :=
  let '(port, irq) := if irq <? 8 then (PIC1_DATA, irq) else (PIC2_DATA, irq - 8) in
  let '(mask, d) := inb port d in
  outb port (u8 (mask .| (1 .<< irq))) d.

Definition eoi (irq : Z) (d : D) : D :=
  let d := if 8 <=? irq then outb PIC2_CMD 0x20 d else d in
  outb PIC1_CMD 0x20 d.
End driver.

(** ** The controllers *)

(** [step] command words are still expected; the vectors start at [offset]; [imr] masks
    lines, [isr] has those in service. *)
Record chip := Chip { step : nat; offset : Z; wiring : Z; mode : Z; imr : Z; isr : list Z }.

Definition on_command (v : Z) (c : chip) : chip :=
  if Z.testbit v 4 then Chip 3 (offset c) (wiring c) (mode c) 0 (isr c)
  else if v =? 0x20 then Chip (step c) (offset c) (wiring c) (mode c) (imr c) (tail (isr c)) else c.

Definition on_data (v : Z) (c : chip) : chip :=
  match step c with
  | 3%nat => Chip 2 (v - v mod 8) (wiring c) (mode c) (imr c) (isr c)
  | 2%nat => Chip 1 (offset c) v (mode c) (imr c) (isr c)
  | 1%nat => Chip 0 (offset c) (wiring c) v (imr c) (isr c)
  | _ => Chip (step c) (offset c) (wiring c) (mode c) v (isr c)
  end.

(** [isr] is ordered by priority, the highest first. *)
Class Controllers (D : Type) `{!Ports D} := {
  master : D -> chip;
  slave : D -> chip;
  imr_byte : forall d, U8 (imr (master d)) /\ U8 (imr (slave d));
  on_read1 : forall d, let '(v, d') := inb PIC1_DATA d in v = imr (master d) /\ master d' = master d /\ slave d' = slave d;
  on_read2 : forall d, let '(v, d') := inb PIC2_DATA d in v = imr (slave d) /\ master d' = master d /\ slave d' = slave d;
  on_cmd1 : forall d v, U8 v -> let d' := outb PIC1_CMD v d in master d' = on_command v (master d) /\ slave d' = slave d;
  on_cmd2 : forall d v, U8 v -> let d' := outb PIC2_CMD v d in master d' = master d /\ slave d' = on_command v (slave d);
  on_data1 : forall d v, U8 v -> let d' := outb PIC1_DATA v d in master d' = on_data v (master d) /\ slave d' = slave d;
  on_data2 : forall d v, U8 v -> let d' := outb PIC2_DATA v d in master d' = master d /\ slave d' = on_data v (slave d);
  on_wait : forall d, let d' := outb 0x80 0 d in master d' = master d /\ slave d' = slave d;
}.

Section correct.
Context {D : Type} `{!Ports D, !Controllers D}.

(** Line [n] can interrupt: it is not masked, nor is the line of the slave. *)
Definition masked (c : chip) (n : Z) : bool := Z.testbit (imr c) n.
Definition enabled (d : D) (irq : Z) : bool :=
  if irq <? 8 then negb (masked (master d) irq) else negb (masked (slave d) (irq - 8)) && negb (masked (master d) 2).

(** The vector of a line. *)
Definition vector (d : D) (irq : Z) : Z := if irq <? 8 then offset (master d) + irq else offset (slave d) + (irq - 8).

Definition ready (d : D) : Prop := step (master d) = 0%nat /\ step (slave d) = 0%nat.

Lemma wait_same d : master (io_wait d) = master d /\ slave (io_wait d) = slave d.
Proof. apply on_wait. Qed.

Lemma init_chips d : master (init d) = Chip 0 32 4 1 0xFF (isr (master d)) /\ slave (init d) = Chip 0 40 2 1 0xFF (isr (slave d)).
Proof.
  unfold init. cbv zeta.
  pose proof (on_read1 d) as R1. destruct (inb PIC1_DATA d) as [m1 d1]. destruct R1 as (_ & M1 & S1). cbn [snd].
  pose proof (on_read2 d1) as R2. destruct (inb PIC2_DATA d1) as [m2 d2]. destruct R2 as (_ & M2 & S2). cbn [snd].
  repeat match goal with
  | |- context [master (outb PIC1_DATA ?v ?x)] => destruct (on_data1 x v ltac:(unfold U8; done)) as [-> ->]
  | |- context [master (outb PIC2_DATA ?v ?x)] => destruct (on_data2 x v ltac:(unfold U8; done)) as [-> ->]
  | |- context [master (outb PIC1_CMD ?v ?x)] => destruct (on_cmd1 x v ltac:(unfold U8; done)) as [-> ->]
  | |- context [master (outb PIC2_CMD ?v ?x)] => destruct (on_cmd2 x v ltac:(unfold U8; done)) as [-> ->]
  | |- context [master (io_wait ?x)] => destruct (wait_same x) as [-> ->]
  end.
  by rewrite M2, M1, S2, S1.
Qed.

(** Bits of a mask with one cleared or set. *)
Lemma clear_bit m k n : U8 m -> 0 <= k < 8 -> 0 <= n < 8 -> Z.testbit (u8 (m .& Z.lnot (1 .<< k))) n = Z.testbit m n && negb (n =? k).
Proof.
  intros Hm Hk Hn. unfold u8, wrap. rewrite Z.mod_pow2_bits_low by lia. rewrite Z.land_spec, Z.lnot_spec, shiftl_1, testbit_pow2 by lia. done.
Qed.

Lemma set_bit m k n : U8 m -> 0 <= k < 8 -> 0 <= n < 8 -> Z.testbit (u8 (m .| (1 .<< k))) n = Z.testbit m n || (n =? k).
Proof.
  intros Hm Hk Hn. unfold u8, wrap. rewrite Z.mod_pow2_bits_low by lia. rewrite Z.lor_spec, shiftl_1, testbit_pow2 by lia. done.
Qed.

Lemma on_data_mask c v : step c = 0%nat -> on_data v c = Chip 0 (offset c) (wiring c) (mode c) v (isr c).
Proof. intros Hs. unfold on_data. by rewrite Hs. Qed.

(** A controller with another mask. *)
Definition with_mask (c : chip) (m : Z) : chip := Chip 0 (offset c) (wiring c) (mode c) m (isr c).

Lemma update_master d m : ready d -> U8 m -> master (outb PIC1_DATA m d) = with_mask (master d) m /\ slave (outb PIC1_DATA m d) = slave d.
Proof. intros [H1 _] Hm. destruct (on_data1 d m Hm) as [-> ->]. by rewrite on_data_mask. Qed.

Lemma update_slave d m : ready d -> U8 m -> master (outb PIC2_DATA m d) = master d /\ slave (outb PIC2_DATA m d) = with_mask (slave d) m.
Proof. intros [_ H2] Hm. destruct (on_data2 d m Hm) as [-> ->]. by rewrite on_data_mask. Qed.

Lemma enable_chips irq d : ready d -> 0 <= irq < 16 -> let d' := enable_irq irq d in
  master d' = with_mask (master d) (u8 (imr (master d) .& Z.lnot (1 .<< (if irq <? 8 then irq else 2)))) /\
  slave d' = if irq <? 8 then slave d else with_mask (slave d) (u8 (imr (slave d) .& Z.lnot (1 .<< (irq - 8)))).
Proof.
  intros Hr Hi. unfold enable_irq. destruct (irq <? 8).
  - pose proof (on_read1 d) as R. destruct (inb PIC1_DATA d) as [m d1]. destruct R as (-> & M1 & S1).
    destruct (update_master d1 (u8 (imr (master d) .& Z.lnot (1 .<< irq)))) as [-> ->]; [unfold ready; by rewrite M1, S1 | apply u8_bound |]. by rewrite M1, S1.
  - pose proof (on_read1 d) as R. destruct (inb PIC1_DATA d) as [m d1]. destruct R as (-> & M1 & S1).
    destruct (update_master d1 (u8 (imr (master d) .& Z.lnot (1 .<< 2)))) as [M2 S2]; [unfold ready; by rewrite M1, S1 | apply u8_bound |].
    set (d2 := outb PIC1_DATA _ d1) in *. clearbody d2. pose proof (on_read2 d2) as R. destruct (inb PIC2_DATA d2) as [m2 d3]. destruct R as (-> & M3 & S3).
    destruct (update_slave d3 (u8 (imr (slave d2) .& Z.lnot (1 .<< (irq - 8))))) as [-> ->]; [unfold ready; rewrite M3, S3, M2, S2, S1; by destruct Hr | apply u8_bound |].
    by rewrite S3, M3, M2, S2, S1, M1.
Qed.

Lemma disable_chips irq d : ready d -> 0 <= irq < 16 -> let d' := disable_irq irq d in
  master d' = (if irq <? 8 then with_mask (master d) (u8 (imr (master d) .| (1 .<< irq))) else master d) /\
  slave d' = if irq <? 8 then slave d else with_mask (slave d) (u8 (imr (slave d) .| (1 .<< (irq - 8)))).
Proof.
  intros Hr Hi. unfold disable_irq. destruct (irq <? 8).
  - pose proof (on_read1 d) as R. destruct (inb PIC1_DATA d) as [m d1]. destruct R as (-> & M1 & S1).
    destruct (update_master d1 (u8 (imr (master d) .| (1 .<< irq)))) as [-> ->]; [unfold ready; by rewrite M1, S1 | apply u8_bound |]. by rewrite M1, S1.
  - pose proof (on_read2 d) as R. destruct (inb PIC2_DATA d) as [m d1]. destruct R as (-> & M1 & S1).
    destruct (update_slave d1 (u8 (imr (slave d) .| (1 .<< (irq - 8))))) as [-> ->]; [unfold ready; by rewrite M1, S1 | apply u8_bound |]. by rewrite M1, S1.
Qed.

Lemma enable_masks irq d : ready d -> 0 <= irq < 16 -> let d' := enable_irq irq d in
  (forall n, 0 <= n < 8 -> masked (master d') n = masked (master d) n && negb (n =? (if irq <? 8 then irq else 2))) /\
  (forall n, 0 <= n < 8 -> masked (slave d') n = masked (slave d) n && negb (n + 8 =? irq)).
Proof.
  intros Hr Hi d'. destruct (enable_chips irq d Hr Hi) as [HM HS]. fold d' in HM, HS. destruct (imr_byte d) as [B1 B2]. split; intros n Hn; unfold masked.
  - rewrite HM. cbn [imr with_mask]. destruct (Z.ltb_spec irq 8); apply clear_bit; (done || lia).
  - rewrite HS. destruct (Z.ltb_spec irq 8).
    + rewrite (proj2 (Z.eqb_neq (n + 8) irq)) by lia. by rewrite andb_true_r.
    + cbn [imr with_mask]. rewrite clear_bit by (done || lia). do 2 f_equal. destruct (Z.eqb_spec n (irq - 8)), (Z.eqb_spec (n + 8) irq); (done || lia).
Qed.

Lemma disable_masks irq d : ready d -> 0 <= irq < 16 -> let d' := disable_irq irq d in
  (forall n, 0 <= n < 8 -> masked (master d') n = masked (master d) n || (n =? irq)) /\
  (forall n, 0 <= n < 8 -> masked (slave d') n = masked (slave d) n || (n + 8 =? irq)).
Proof.
  intros Hr Hi d'. destruct (disable_chips irq d Hr Hi) as [HM HS]. fold d' in HM, HS. destruct (imr_byte d) as [B1 B2]. split; intros n Hn; unfold masked.
  - rewrite HM. destruct (Z.ltb_spec irq 8); [apply set_bit; (done || lia) |]. rewrite (proj2 (Z.eqb_neq n irq)) by lia. by rewrite orb_false_r.
  - rewrite HS. destruct (Z.ltb_spec irq 8).
    + rewrite (proj2 (Z.eqb_neq (n + 8) irq)) by lia. by rewrite orb_false_r.
    + cbn [imr with_mask]. rewrite set_bit by (done || lia). f_equal. destruct (Z.eqb_spec n (irq - 8)), (Z.eqb_spec (n + 8) irq); (done || lia).
Qed.
End correct.


(** Two controllers in software. *)
Module Sim.
Record pair := Pair { first : chip; second : chip }.

Definition byte_mask (c : chip) : chip := Chip (step c) (offset c) (wiring c) (mode c) (u8 (imr c)) (isr c).

Definition on_inb (p : Z) (d : pair) : Z * pair :=
  (if p =? PIC1_DATA then u8 (imr (first d)) else if p =? PIC2_DATA then u8 (imr (second d)) else 0, d).
Definition on_outb (p v : Z) (d : pair) : pair :=
  if p =? PIC1_CMD then Pair (on_command v (first d)) (second d)
  else if p =? PIC1_DATA then Pair (on_data v (first d)) (second d)
  else if p =? PIC2_CMD then Pair (first d) (on_command v (second d))
  else if p =? PIC2_DATA then Pair (first d) (on_data v (second d)) else d.

#[global] Instance ports : Ports pair := {| inb := on_inb; outb := on_outb; inw := fun _ d => (0, d); outw := fun _ _ d => d; inl := fun _ d => (0, d); outl := fun _ _ d => d |}.

Lemma command_byte v c : byte_mask (on_command v c) = on_command v (byte_mask c).
Proof. unfold on_command, byte_mask. repeat case_match; done. Qed.

Lemma data_byte v c : U8 v -> byte_mask (on_data v c) = on_data v (byte_mask c).
Proof. intros Hv. unfold on_data, byte_mask. cbn [step]. destruct (step c) as [| [| [| [|]]]]; cbn [imr offset wiring mode isr step]; rewrite ?(u8_small v Hv); done. Qed.

#[global] Instance controllers : Controllers pair.
Proof.
  refine {| master := fun d => byte_mask (first d); slave := fun d => byte_mask (second d) |}.
  - intros d. split; apply u8_bound.
  - done.
  - done.
  - intros d v Hv. split; [apply command_byte | done].
  - intros d v Hv. split; [done | apply command_byte].
  - intros d v Hv. split; [by apply data_byte | done].
  - intros d v Hv. split; [done | by apply data_byte].
  - done.
Defined.

Definition off : pair := Pair (Chip 0 8 0 0 0 []) (Chip 0 112 0 0 0 []).
End Sim.

End Pic.

Module Timer.

Definition PIT_CHANNEL0 : Z := 0x40.
Definition PIT_CMD : Z := 0x43.
Definition PIT_BASE_HZ : Z := 1193182.
Definition IRQ_TIMER : Z := 0.

Record state := State { tick_count : Z; tick_hz : Z }.

(** 32-bit arithmetic; no value when the rate is 0. *)
Definition divisor (hz : Z) : Z :=
  let divisor := PIT_BASE_HZ / hz in
  let divisor := if 0xFFFF <? divisor then 0xFFFF else divisor in
  if divisor <? 1 then 1 else divisor.

(** [irq_stub_table] and [timer_handler] are addresses. *)
Definition init {D} `{!Ports D} (irq_stub_table : list Z) (timer_handler hz : Z) (idt : Desc.Idt.state) (d : D) : option (state * Desc.Idt.state * D) :=
  if hz =? 0 then None else
  let div := divisor hz in
  let d := outb PIT_CMD 0x36 d in
  let d := outb PIT_CHANNEL0 (u8 (div .& 0xFF)) d in
  let d := outb PIT_CHANNEL0 (u8 ((div .>> 8) .& 0xFF)) d in
  let idt := Desc.Idt.set_irq_handler irq_stub_table IRQ_TIMER timer_handler idt in
  Some (State 0 hz, idt, Pic.enable_irq IRQ_TIMER d).

Definition ticks (s : state) : Z := tick_count s.
Definition ms (s : state) : Z := u64 (tick_count s * 1000) / tick_hz s.

(** The channel's count after its command word and the two bytes of the count; the
    controllers are another device. *)
Class Pit (D : Type) `{!Ports D, !Pic.Controllers D} := {
  reload : D -> Z;
  on_program : forall d lo hi, U8 lo -> U8 hi -> let d' := outb PIT_CHANNEL0 hi (outb PIT_CHANNEL0 lo (outb PIT_CMD 0x36 d)) in
    reload d' = lo + hi * 256 /\ Pic.master d' = Pic.master d /\ Pic.slave d' = Pic.slave d;
  on_other : forall d p v, p <> PIT_CHANNEL0 -> p <> PIT_CMD -> reload (outb p v d) = reload d;
  on_input : forall d p, p <> PIT_CHANNEL0 -> reload (snd (inb p d)) = reload d;
}.

Lemma divisor_bound hz : 0 < hz -> 1 <= divisor hz <= 0xFFFF.
Proof. intros Hz. unfold divisor. repeat case_match; lia. Qed.

(** From 19 to the clock's own rate the count divides the clock to the rate asked for,
    rounded up by less than one step of the count. *)
Lemma divisor_rate hz : 19 <= hz <= PIT_BASE_HZ -> divisor hz * hz <= PIT_BASE_HZ < (divisor hz + 1) * hz.
Proof.
  unfold PIT_BASE_HZ, divisor. intros Hz. pose proof (Z.div_mod 1193182 hz ltac:(lia)) as Hd. pose proof (Z.mod_pos_bound 1193182 hz ltac:(lia)) as Hm.
  change PIT_BASE_HZ with 1193182. set (q := 1193182 / hz) in *. clearbody q. assert (1 <= q <= 0xFFFF) by nia.
  rewrite (proj2 (Z.ltb_ge 0xFFFF q)), (proj2 (Z.ltb_ge q 1)) by lia. nia.
Qed.

Lemma enable_reload {D} `{!Ports D, !Pic.Controllers D, !Pit D} irq (d : D) : reload (Pic.enable_irq irq d) = reload d.
Proof.
  unfold Pic.enable_irq. destruct (irq <? 8).
  - pose proof (on_input d Pic.PIC1_DATA ltac:(done)) as R. destruct (inb Pic.PIC1_DATA d) as [m d1]. by rewrite on_other by done.
  - pose proof (on_input d Pic.PIC1_DATA ltac:(done)) as R. destruct (inb Pic.PIC1_DATA d) as [m d1].
    pose proof (on_input (outb Pic.PIC1_DATA (u8 (m .& Z.lnot (1 .<< 2))) d1) Pic.PIC2_DATA ltac:(done)) as R2. destruct (inb Pic.PIC2_DATA _) as [m2 d2].
    rewrite on_other by done. cbn [snd] in *. rewrite R2, on_other by done. done.
Qed.

Lemma divisor_bytes hz : 0 < hz -> u8 (divisor hz .& 0xFF) + u8 ((divisor hz .>> 8) .& 0xFF) * 256 = divisor hz.
Proof.
  intros Hz. pose proof (divisor_bound hz Hz) as Hd. set (q := divisor hz) in *. clearbody q. change 0xFF with (Z.ones 8). rewrite !Z.land_ones, Z.shiftr_div_pow2 by lia.
  unfold u8, wrap. rewrite !Z.mod_mod by lia. rewrite (Z.mod_small (q / 2 ^ 8)) by divlia. pose proof (Z.div_mod q (2 ^ 8) ltac:(lia)). lia.
Qed.

(** Setting up the timer: for every rate but 0 it returns, the channel counts from a
    16-bit number that is not 0, line 0 is enabled and its interrupt reaches the timer's
    handler; from 19 interrupts per second to the clock's rate that number divides the
    clock to the rate asked for within one step; and the milliseconds are the ticks at
    that rate. *)
Theorem timer_programmed {D} `{!Ports D, !Pic.Controllers D, !Pit D} stubs handler hz idt (d : D) : 0 < hz -> handler <> 0 -> Pic.ready d ->
  length (Desc.Idt.irq_handlers idt) = 16%nat ->
  exists s idt' d', init stubs handler hz idt d = Some (s, idt', d') /\ reload d' = divisor hz /\ 1 <= reload d' <= 0xFFFF /\
    Pic.enabled d' IRQ_TIMER = true /\ Desc.Idt.irq_dispatch idt' 32 = Some handler /\ ticks s = 0 /\
    (19 <= hz <= PIT_BASE_HZ -> reload d' * hz <= PIT_BASE_HZ < (reload d' + 1) * hz) /\
    (forall n, 0 <= n * 1000 < 2 ^ 64 -> ms (State n (tick_hz s)) = n * 1000 / hz).
Proof.
  intros Hz Hh Hr Hl. unfold init. rewrite (proj2 (Z.eqb_neq hz 0)) by lia. cbv zeta.
  destruct (on_program d (u8 (divisor hz .& 0xFF)) (u8 ((divisor hz .>> 8) .& 0xFF)) (u8_bound _) (u8_bound _)) as (R & M & S). set (d1 := outb PIT_CHANNEL0 _ _) in *. clearbody d1.
  rewrite divisor_bytes in R by done. eexists _, _, _. split; [done |]. rewrite enable_reload, R. split; [done |]. split; [by apply divisor_bound |].
  assert (Pic.ready d1) as Hr1 by (unfold Pic.ready; by rewrite M, S). destruct (Pic.enable_masks IRQ_TIMER d1 Hr1 ltac:(unfold IRQ_TIMER; lia)) as [E _]. split; [| split; [| split; [done | split]]].
  - unfold Pic.enabled. change (IRQ_TIMER <? 8) with true. cbn iota. rewrite E by (unfold IRQ_TIMER; lia). by rewrite andb_false_r.
  - unfold Desc.Idt.set_irq_handler, Desc.Idt.irq_dispatch. change (16 <=? IRQ_TIMER) with false. cbn iota. cbn [Desc.Idt.irq_handlers Desc.Idt.set_handler].
    change (u8 (32 - 32)) with 0. unfold at_index. rewrite list_lookup_insert_eq by (unfold IRQ_TIMER; lia). cbn [from_option id]. by rewrite (proj2 (Z.eqb_neq handler 0) Hh).
  - apply divisor_rate.
  - intros n Hn. unfold ms. cbn [tick_count tick_hz]. by rewrite u64_small.
Qed.

(** Controllers and a timer in software. *)
Module Sim.
Record board := Board { pics : Pic.Sim.pair; low : Z; count : Z; second_byte : bool }.

#[global] Instance ports : Ports board := {|
  inb := fun p d => let '(v, x) := Pic.Sim.on_inb p (pics d) in (v, Board x (low d) (count d) (second_byte d));
  outb := fun p v d =>
    if p =? PIT_CMD then Board (pics d) (low d) (count d) false
    else if p =? PIT_CHANNEL0 then
      if second_byte d then Board (pics d) (low d) (low d + v * 256) false else Board (pics d) v (count d) true
    else Board (Pic.Sim.on_outb p v (pics d)) (low d) (count d) (second_byte d);
  inw := fun _ d => (0, d); outw := fun _ _ d => d; inl := fun _ d => (0, d); outl := fun _ _ d => d |}.

#[global] Instance controllers : Pic.Controllers board.
Proof.
  refine {| Pic.master := fun d => Pic.Sim.byte_mask (Pic.Sim.first (pics d)); Pic.slave := fun d => Pic.Sim.byte_mask (Pic.Sim.second (pics d)) |}.
  - intros d. split; apply u8_bound.
  - done.
  - done.
  - intros d v Hv. split; [apply Pic.Sim.command_byte | done].
  - intros d v Hv. split; [done | apply Pic.Sim.command_byte].
  - intros d v Hv. split; [by apply Pic.Sim.data_byte | done].
  - intros d v Hv. split; [done | by apply Pic.Sim.data_byte].
  - done.
Defined.

#[global] Instance pit : Pit board.
Proof.
  refine {| reload := count |}.
  - done.
  - intros d p v H1 H2. cbn [outb ports]. rewrite (proj2 (Z.eqb_neq p PIT_CMD) H2), (proj2 (Z.eqb_neq p PIT_CHANNEL0) H1). done.
  - done.
Defined.

Definition board0 : board := Board Pic.Sim.off 0 0 false.
End Sim.

(** The kernel's rate. *)
Lemma timer_programmed_witness : exists s idt' d', init (replicate 16 0x5000) 0x7000 100 (Desc.Idt.State [] (replicate 16 0)) (Pic.init Sim.board0) = Some (s, idt', d') /\
  reload d' = 11931 /\ Pic.enabled d' IRQ_TIMER = true /\ Desc.Idt.irq_dispatch idt' 32 = Some 0x7000 /\ ms (State 250 (tick_hz s)) = 2500.
Proof.
  destruct (timer_programmed (replicate 16 0x5000) 0x7000 100 (Desc.Idt.State [] (replicate 16 0)) (Pic.init Sim.board0)) as (s & idt' & d' & E & R & _ & H1 & H2 & _ & _ & H3).
  - lia.
  - lia.
  - split; reflexivity.
  - reflexivity.
  - exists s, idt', d'. split; [exact E |]. split; [rewrite R; reflexivity |]. split; [exact H1 |]. split; [exact H2 |]. rewrite H3 by lia. reflexivity.
Defined.

(** ** What [init] does not check *)

(** Below 19 interrupts per second the count saturates, so the interrupts come faster
    than the rate by which [ms] divides. *)
Lemma slow_rate_saturates hz : 0 < hz <= 18 -> divisor hz = 0xFFFF /\ (divisor hz + 1) * hz < PIT_BASE_HZ.
Proof.
  intros Hz. unfold divisor, PIT_BASE_HZ. assert (0xFFFF < 1193182 / hz) as Hd by (apply Z.lt_le_trans with (1193182 / 18); [done | apply Z.div_le_compat_l; lia]).
  rewrite (proj2 (Z.ltb_lt _ _) Hd). cbn. lia.
Qed.
End Timer.

(** ** drivers/rtc.cpp

    The file holds declarations and the conversion of the clock's decimal digits. *)
Module Rtc.

Definition bcd_decode (val : Z) : Z := u8 ((val .& 0x0F) + (val .>> 4) * 10).

(** Two decimal digits, as the clock stores them, decode to their number. *)
Lemma bcd_decodes n : 0 <= n < 100 -> bcd_decode (16 * (n / 10) + n mod 10) = n.
Proof.
  intros Hn. unfold bcd_decode. change 0x0F with (Z.ones 4). rewrite Z.land_ones, Z.shiftr_div_pow2 by lia. change (2 ^ 4) with 16.
  pose proof (Z.mod_pos_bound n 10 ltac:(lia)). pose proof (Z.div_mod n 10 ltac:(lia)).
  replace ((16 * (n / 10) + n mod 10) mod 16) with (n mod 10) by (apply (Z.mod_unique _ _ (n / 10)); lia).
  replace ((16 * (n / 10) + n mod 10) / 16) with (n / 10) by (apply (Z.div_unique _ _ _ (n mod 10)); lia).
  rewrite u8_small; [lia | unfold U8; lia].
Qed.
End Rtc.
