(* ===== verification/Cpuid.v ===== *)
(** * drivers/cpuid.cpp: identification of the processor

    [cpuid] is the instruction: the four registers for a leaf and a subleaf. *)
From Stdlib Require Import String.
From S2P Require Import Prelude Bytes Ports Vga Serial.

Record CpuInfo := {
  vendor : list Z; brand : list Z; family : Z; model : Z; stepping : Z; logical_cpus : Z; phys_cores : Z;
  has_apic : bool; has_x2apic : bool; has_htt : bool; has_sse : bool; has_sse2 : bool; has_sse3 : bool; has_ssse3 : bool;
  has_sse4_1 : bool; has_sse4_2 : bool; has_avx : bool; has_avx2 : bool; has_aes : bool; has_rdrand : bool;
  has_nx : bool; has_1gb_pages : bool; has_rdtscp : bool;
}.

Record regs := Regs { eax : Z; ebx : Z; ecx : Z; edx : Z }.

(** [(x >> n) & 1] as a condition. *)
Definition bit (x n : Z) : bool := negb ((x .>> n) .& 1 =? 0).

(** [cpu_info] and [detected]. *)
Record state := State { cpu_info : CpuInfo; detected : bool }.

Section detect.
Context (cpuid : Z -> Z -> regs).

(** [put4] and [put]: the four bytes of a register. *)
Definition put4 (v : Z) : list Z := [u8 (v .& 0xFF); u8 ((v .>> 8) .& 0xFF); u8 ((v .>> 16) .& 0xFF); u8 ((v .>> 24) .& 0xFF)].

Definition copy_str (dst : list Z) (a b c d pos : Z) : list Z * Z :=
  (store pos (put4 a ++ put4 b ++ put4 c ++ put4 d) dst, pos + 16).

Definition read_vendor (l0 : regs) : list Z := put4 (ebx l0) ++ put4 (edx l0) ++ put4 (ecx l0) ++ [0].

Definition read_brand (max_ext : Z) : list Z :=
  if 0x80000004 <=? max_ext then
    let '(b, _) := for_range 0x80000002 0x80000005 (fun leaf bp =>
      let r := cpuid leaf 0 in copy_str (fst bp) (eax r) (ebx r) (ecx r) (edx r) (snd bp)) (replicate 49 0, 0) in
    <[48%nat := 0]> b
  else <[1%nat := 0]> (<[0%nat := 63]> (replicate 49 0)).

Definition read_family (x : Z) : Z :=
  let family_id := (x .>> 8) .& 0xF in let ext_family := (x .>> 20) .& 0xFF in
  if family_id =? 0xF then u8 (family_id + ext_family) else u8 family_id.

Definition read_model (x : Z) : Z :=
  let model_id := (x .>> 4) .& 0xF in let family_id := (x .>> 8) .& 0xF in let ext_model := (x .>> 16) .& 0xF in
  if (family_id =? 0x6) || (family_id =? 0xF) then u8 ((ext_model .<< 4) .| model_id) else u8 model_id.

Definition read_logical (l1 : regs) : Z :=
  let n := if bit (edx l1) 28 then (ebx l1 .>> 16) .& 0xFF else 1 in if n =? 0 then 1 else n.

Definition read_cores (max_leaf : Z) : Z :=
  if 4 <=? max_leaf then
    let cores := ((eax (cpuid 4 0) .>> 26) .& 0x3F) + 1 in if 0 <? cores then cores else 1
  else 1.

(** A leaf below the largest one; the fields it sets are zero otherwise. *)
Definition detect (s : state) : CpuInfo * state :=
  if detected s then (cpu_info s, s) else
  let l0 := cpuid 0 0 in
  let max_leaf := eax l0 in
  let l1 := if 1 <=? max_leaf then cpuid 1 0 else Regs 0 0 0 0 in
  let l7 := if 7 <=? max_leaf then cpuid 7 0 else Regs 0 0 0 0 in
  let max_ext := eax (cpuid 0x80000000 0) in
  let x1 := if 0x80000001 <=? max_ext then cpuid 0x80000001 0 else Regs 0 0 0 0 in
  let info := {|
    vendor := read_vendor l0; brand := read_brand max_ext;
    family := read_family (eax l1); model := read_model (eax l1); stepping := u8 (eax l1 .& 0xF);
    logical_cpus := if 1 <=? max_leaf then read_logical l1 else 0; phys_cores := read_cores max_leaf;
    has_apic := bit (edx l1) 9; has_x2apic := bit (ecx l1) 21; has_htt := bit (edx l1) 28; has_sse := bit (edx l1) 25; has_sse2 := bit (edx l1) 26;
    has_sse3 := bit (ecx l1) 0; has_ssse3 := bit (ecx l1) 9; has_sse4_1 := bit (ecx l1) 19; has_sse4_2 := bit (ecx l1) 20;
    has_avx := bit (ecx l1) 28; has_avx2 := bit (ebx l7) 5; has_aes := bit (ecx l1) 25; has_rdrand := bit (ecx l1) 30;
    has_nx := bit (edx x1) 20; has_1gb_pages := bit (edx x1) 26; has_rdtscp := bit (edx x1) 27 |} in
  (info, State info true).
End detect.

Definition get (s : state) : CpuInfo := cpu_info s.

(** A string in an array, up to its terminator. *)
Fixpoint c_str (l : list Z) : list Z :=
  match l with
  | [] => []
  | c :: l' => if c =? 0 then [] else schar c :: c_str l'
  end.

Definition feature (b : bool) (s : string) : list call := if b then [SText (txt s)] else [].
Arguments feature b s%_string.

Definition print (info : CpuInfo) : list call :=
  [VColor LightCyan Black; SText (txt "[CPU] "); SText (c_str (vendor info)); SText (txt " Family="); SDec (family info);
   SText (txt " Model="); SDec (model info); SText (txt " Step="); SDec (stepping info); SLine (txt "");
   SText (txt "[CPU] "); SText (c_str (brand info)); SLine (txt "");
   SText (txt "[CPU] Cores="); SDec (phys_cores info); SText (txt " Logical="); SDec (logical_cpus info); SLine (txt "");
   SText (txt "[CPU] Features:")] ++
  feature (has_sse info) " SSE" ++ feature (has_sse2 info) " SSE2" ++ feature (has_sse3 info) " SSE3" ++ feature (has_ssse3 info) " SSSE3" ++
  feature (has_sse4_1 info) " SSE4.1" ++ feature (has_sse4_2 info) " SSE4.2" ++ feature (has_avx info) " AVX" ++ feature (has_avx2 info) " AVX2" ++
  feature (has_aes info) " AES" ++ feature (has_rdrand info) " RDRAND" ++ feature (has_rdtscp info) " RDTSCP" ++ feature (has_nx info) " NX" ++
  feature (has_apic info) " APIC" ++ feature (has_x2apic info) " x2APIC" ++ feature (has_1gb_pages info) " 1GB-pages" ++
  [SLine (txt ""); VText (txt "[CPU] "); VText (c_str (vendor info)); VLine (txt ""); VText (txt "[CPU] "); VText (c_str (brand info)); VLine (txt ""); VColor White Black].

(** ** Bounds *)

Lemma field_bound x n k : 0 <= k -> 0 <= n -> 0 <= (x .>> n) .& Z.ones k < 2 ^ k.
Proof. intros Hk Hn. rewrite Z.land_ones by lia. apply Z.mod_pos_bound. lia. Qed.

Lemma bit_testbit x n : 0 <= n -> bit x n = Z.testbit x n.
Proof. intros Hn. unfold bit. rewrite land_1_testbit by lia. by destruct (Z.testbit x n). Qed.

(** The bytes of a register, lowest first. *)
Lemma put4_bytes v : put4 v = le_bytes 4 v.
Proof.
  unfold put4, le_bytes. cbn [seq fmap list_fmap]. change 0xFF with (Z.ones 8). rewrite !Z.land_ones by lia.
  unfold u8, wrap. rewrite !Z.mod_mod by lia. by rewrite Z.shiftr_0_r.
Qed.

Lemma brand_size cpuid max_ext : length (read_brand cpuid max_ext) = 49%nat /\ Forall U8 (read_brand cpuid max_ext) /\
  exists i, (i <= 48)%nat /\ read_brand cpuid max_ext !! i = Some 0.
Proof.
  unfold read_brand. destruct (0x80000004 <=? max_ext).
  - set (body := fun leaf bp => _). assert (let bp := for_range 0x80000002 0x80000005 body (replicate 49 0, 0) in length bp.1 = 49%nat /\ Forall U8 bp.1) as [Hl Hf].
    { apply (for_range_ind (fun _ bp => length bp.1 = 49%nat /\ Forall U8 bp.1)); [lia | |].
      - split; [done |]. apply Forall_replicate. unfold U8. lia.
      - intros i [b p] Hi [Hl Hf]. unfold body, copy_str. cbn [fst snd] in *. split; [by rewrite length_store |]. apply store_U8; [| done].
        rewrite !Forall_app, !put4_bytes. split_and!; apply le_bytes_U8. }
    destruct (for_range _ _ body _) as [b p]. cbn [fst] in *. split; [by rewrite length_insert |]. split; [apply Forall_insert; [done | unfold U8; lia] |].
    exists 48%nat. split; [lia |]. apply list_lookup_insert_eq. lia.
  - split; [done |]. split; [repeat constructor; unfold U8; lia |]. exists 1%nat. split; [lia | done].
Qed.

Lemma stepping_bound x : 0 <= u8 (x .& 0xF) < 16.
Proof. pose proof (field_bound x 0 4 ltac:(lia) ltac:(lia)) as H. rewrite Z.shiftr_0_r in H. change (Z.ones 4) with 0xF in H. rewrite u8_small by (unfold U8; lia). lia. Qed.

Lemma logical_bound l1 : 1 <= read_logical l1 <= 255.
Proof.
  unfold read_logical. cbv zeta. pose proof (field_bound (ebx l1) 16 8 ltac:(lia) ltac:(lia)) as H. change (Z.ones 8) with 0xFF in H. change (2 ^ 8) with 256 in H.
  destruct (bit (edx l1) 28); [| done]. destruct (Z.eqb_spec ((ebx l1 .>> 16) .& 0xFF) 0); lia.
Qed.

Lemma cores_bound cpuid n : 1 <= read_cores cpuid n <= 64.
Proof.
  unfold read_cores. cbv zeta. pose proof (field_bound (eax (cpuid 4 0)) 26 6 ltac:(lia) ltac:(lia)) as H. change (Z.ones 6) with 0x3F in H. change (2 ^ 6) with 64 in H.
  destruct (4 <=? n); [| done]. destruct (Z.ltb_spec 0 (((eax (cpuid 4 0) .>> 26) .& 0x3F) + 1)); lia.
Qed.

(** Whatever the instruction answers, what is kept of it is in bounds: the vendor is the
    twelve bytes of EBX, EDX and ECX and a terminator in its array, the brand is
    terminated inside its array, family, model and stepping are bytes, the counts of
    processors fit and are not zero once leaf 1 exists, the feature flags are the bits
    of their registers; and a second call returns the first result without asking
    again, whatever the instruction would answer. *)
Theorem cpu_detected cpuid cpuid' s : detected s = false -> let '(info, s1) := detect cpuid s in
  let max_leaf := eax (cpuid 0 0) in
  vendor info = le_bytes 4 (ebx (cpuid 0 0)) ++ le_bytes 4 (edx (cpuid 0 0)) ++ le_bytes 4 (ecx (cpuid 0 0)) ++ [0] /\ length (vendor info) = 13%nat /\
  length (brand info) = 49%nat /\ (exists i, (i <= 48)%nat /\ brand info !! i = Some 0) /\
  U8 (family info) /\ U8 (model info) /\ 0 <= stepping info < 16 /\ 0 <= logical_cpus info <= 255 /\ (1 <= max_leaf -> 1 <= logical_cpus info) /\ 1 <= phys_cores info <= 64 /\
  (1 <= max_leaf -> has_avx info = Z.testbit (ecx (cpuid 1 0)) 28 /\ has_sse2 info = Z.testbit (edx (cpuid 1 0)) 26) /\
  get s1 = info /\ detect cpuid' s1 = (info, s1).
Proof.
  intros Hd. unfold detect. rewrite Hd. cbv zeta. cbn [vendor brand family model stepping logical_cpus phys_cores has_avx has_sse2 get cpu_info detected].
  destruct (brand_size cpuid (eax (cpuid 0x80000000 0))) as (B1 & _ & B2).
  split; [unfold read_vendor; by rewrite !put4_bytes |]. split; [done |]. split; [done |]. split; [done |].
  split; [unfold read_family; cbv zeta; case_match; apply u8_bound |]. split; [unfold read_model; cbv zeta; case_match; apply u8_bound |].
  split; [apply stepping_bound |]. pose proof (logical_bound (cpuid 1 0)) as HL. split; [destruct (Z.leb_spec 1 (eax (cpuid 0 0))); lia |].
  split; [intros Hm; rewrite (proj2 (Z.leb_le 1 _) Hm); lia |]. split; [apply cores_bound |]. split; [| done].
  intros Hm. rewrite (proj2 (Z.leb_le 1 _) Hm). by rewrite !bit_testbit by lia.
Qed.

Definition demo_cpu (leaf sub : Z) : regs :=
  if leaf =? 0 then Regs 13 0x756e6547 0x6c65746e 0x49656e69
  else if leaf =? 1 then Regs 0x000806EA 0x00080800 (1 .<< 28) ((1 .<< 26) .| (1 .<< 28)) else Regs 0 0 0 0.

(** The static storage at boot. *)
Definition before : state := State (Build_CpuInfo (replicate 13 0) (replicate 49 0) 0 0 0 0 0 false false false false false false false false false false false false false false false false) false.

Lemma cpu_detected_witness : let info := fst (detect demo_cpu before) in
  vendor info = txt "GenuineIntel" ++ [0] /\ 1 <= logical_cpus info /\ model info = 0x8E /\ has_avx info = true.
Proof.
  pose proof (cpu_detected demo_cpu demo_cpu before eq_refl) as H. destruct (detect demo_cpu before) as [info s1] eqn:E. cbv zeta in H. destruct H as (H1 & _ & _ & _ & _ & _ & _ & _ & H2 & _ & H3 & _).
  cbn [fst]. cbv zeta. split; [rewrite H1; vm_compute; reflexivity |]. split; [apply H2; vm_compute; congruence |].
  assert (info = fst (detect demo_cpu before)) as -> by (by rewrite E). split; [vm_compute; reflexivity |]. vm_compute. reflexivity.
Defined.
