(* ===== verification/TaskList.v ===== *)
(** * kernel/scheduler.cpp: the listing of tasks

    [sched::dump] walks the run queue from the idle task, at most 65 tasks; it is the
    list of the calls that print. *)
From Stdlib Require Import String.
From S2P Require Import Prelude Monad Alloc Vfs FdTable Paging Sched Ports Vga Serial.

Section listing.
Context {H : Type}.
Notation sstate := (Sched.sstate (H := H)).

(** The tasks of the [do] loop: [if (!t || seen > 64) break; ... while (t && t != start)]. *)
Fixpoint visit (n : nat) (s : sstate) (start t : Z) : list Z :=
  match n with
  | O => []
  | S n' =>
      if t =? 0 then [] else
      let t' := next (task s t) in
      t :: (if (t' =? 0) || (t' =? start) then [] else visit n' s start t')
  end.

Definition state_name (x : TState') : list Z :=
  txt match x with Ready => "Ready" | Running => "Running" | Blocked => "Blocked" | Dead => "Dead" end.

Definition dump_task (s : sstate) (t : Z) : list call :=
  let k := task s t in
  [VText (txt "  tid="); VDec (tid k); VText (txt "  ["); VText (state_name (st k)); VText (txt "]"); VText (txt "  slice="); VDec (timeslice k);
   VText (txt "  next="); VHex (next k); VText (txt "  ")] ++ ((fun c => VText [c]) <$> take 31 (tname k)) ++ [VLine (txt "");
   SText (txt "  tid="); SDec (tid k); SText (txt "  ["); SText (state_name (st k)); SText (txt "] next="); SHex (next k); SLine (txt "")].

Definition dump (s : sstate) : list call :=
  [VColor LightCyan Black; VLine (txt "--- Task list ---"); SLine (txt "--- Task list ---")] ++
  if run_queue s =? 0 then [VLine (txt "  (empty)")] else visit 65 s idle_ptr idle_ptr ≫= dump_task s.

Lemma visit_path n s start t l : path s t l start -> l <> [] -> start ∉ drop 1 l -> start <> 0 -> 0 ∉ l -> (length l <= n)%nat -> visit n s start t = l.
Proof.
  revert n t. induction l as [| x l IH]; intros n t Hp Hne Hs H0 Hz Hn; [done |]. destruct n as [| n]; [simpl in Hn; lia |]. destruct Hp as (-> & _ & Hp). cbn [visit].
  rewrite (proj2 (Z.eqb_neq x 0)) by (intros ->; apply Hz; by left). cbv zeta. f_equal. destruct l as [| y l].
  - simpl in Hp. by rewrite Hp, Z.eqb_refl, orb_true_r.
  - pose proof Hp as (Hy & _). rewrite Hy in Hp |- *. rewrite (proj2 (Z.eqb_neq y 0)) by (intros ->; apply Hz; right; by left).
    rewrite (proj2 (Z.eqb_neq y start)) by (intros ->; apply Hs; by left). cbn [orb]. apply IH; [exact Hp | done | | done | | simpl in *; lia].
    + intros Hin. apply Hs. by right.
    + intros Hin. apply Hz. by right.
Qed.

(** The listing has every task of the run queue once, the idle task first. *)
Lemma dump_lists s r l zl : queues s r l zl -> (length l < 65)%nat -> exists l', visit 65 s idle_ptr idle_ptr = idle_ptr :: l' /\ idle_ptr :: l' ≡ₚ r :: l.
Proof.
  intros Hq Hlen. pose proof (q_idle _ _ _ _ Hq) as Hi. apply list_elem_of_split in Hi as (l1 & l2 & E). destruct (q_ring _ _ _ _ Hq) as [_ Hp Hn H0].
  exists (l2 ++ l1). assert (idle_ptr :: l2 ++ l1 ≡ₚ r :: l) as Hperm by (rewrite E; change (idle_ptr :: l2 ++ l1) with ((idle_ptr :: l2) ++ l1); apply Permutation_app_comm). split; [| done].
  rewrite E in Hp, Hn, H0. apply path_app in Hp as (c & Hp1 & Hp2). assert (c = idle_ptr) as -> by (by destruct Hp2 as (-> & _)).
  apply (visit_path 65 s idle_ptr idle_ptr (idle_ptr :: l2 ++ l1)).
  - change (idle_ptr :: l2 ++ l1) with ((idle_ptr :: l2) ++ l1). apply path_app. exists r. split; [done |]. done.
  - done.
  - rewrite <- E, <- Hperm in Hn. apply NoDup_cons in Hn as [Hn _]. done.
  - done.
  - rewrite <- E, <- Hperm in H0. done.
  - apply Permutation_length in Hperm. cbn [length] in *. lia.
Qed.
End listing.
