(* ===== verification/Shell.v ===== *)
(** * shell.c: the shell

    The line editor, the argument parser and the commands of the user program.  The
    editor reads a list of characters, [None] for a call of [read] that returned none;
    it has no value when the list ends before the line does.  What it writes is a list
    of characters.  The commands run over the system calls as a class. *)
From Stdlib Require Import String.
From S2P Require Import Prelude Monad Bytes Vga Ports Serial.

Definition ESC : Z := 27.

(** ** Strings *)

(** The characters from an address of a buffer to the terminator. *)
Fixpoint until_nul (l : list Z) : list Z :=
  match l with
  | [] => []
  | c :: l' => if c =? 0 then [] else c :: until_nul l'
  end.
Definition str_at (line : list Z) (p : Z) : list Z := until_nul (drop (Z.to_nat p) line).

(** On strings without their terminators. *)
Fixpoint strcmp (a b : list Z) : Z :=
  match a, b with
  | x :: a', y :: b' => if x =? y then strcmp a' b' else x - y
  | x :: _, [] => x
  | [], y :: _ => - y
  | [], [] => 0
  end.

Fixpoint strncmp (n : nat) (a b : list Z) : Z :=
  match n, a, b with
  | O, _, _ => 0
  | S n', x :: a', y :: b' => if x =? y then strncmp n' a' b' else x - y
  | S _, x :: _, [] => x
  | S _, [], y :: _ => - y
  | S _, [], [] => 0
  end.

(** ** Numbers *)

(** [while (n > 0)] fills the buffer from its start, then it is printed backwards; a
    [long] has at most 19 digits. *)
Fixpoint dec_digits (i : nat) (n : Z) (acc : list Z) : list Z :=
  match i with
  | O => acc
  | S i' => if 0 <? n then dec_digits i' (n / 10) (48 + n mod 10 :: acc) else acc
  end.

(** [-n] of the least number is itself. *)
Definition print_dec (n : Z) : list Z :=
  let sign := if n <? 0 then [45] else [] in
  let n := if n <? 0 then i64 (- n) else n in
  if n =? 0 then sign ++ [48] else sign ++ dec_digits 32 n [].

Definition itoa_back (n : Z) : list Z :=
  (if 100 <=? n then [48 + n / 100] else []) ++ (if 10 <=? n then [48 + (n / 10) mod 10] else []) ++ [48 + n mod 10].

(** ** The line editor *)

Definition move_cursor (n dir : Z) : list Z := if n <=? 0 then [] else [ESC; 91] ++ itoa_back n ++ [dir].

Definition redraw (buf : list Z) (len cur : Z) : list Z :=
  [ESC; 91; 117] ++ [ESC; 91; 75] ++ (if 0 <? len then take (Z.to_nat len) buf else []) ++
  (if cur <? len then move_cursor (len - cur) 68 else []).

(** [buf], [len], [cur], and what was written. *)
Record editor := Editor { buf : list Z; len : Z; cur : Z; out : list Z }.

Definition set_at (b : list Z) (i v : Z) : list Z := <[Z.to_nat i := v]> b.
Definition emit (l : list Z) (e : editor) : editor := Editor (buf e) (len e) (cur e) (out e ++ l).

Definition backspace (e : editor) : editor :=
  if 0 <? cur e then
    let cur := cur e - 1 in
    let len := len e - 1 in
    let b := for_range cur len (fun i b => set_at b i (at_index b (i + 1))) (buf e) in
    let e := Editor b len cur (out e) in
    if cur =? len then emit [8; 32; 8] e else emit (redraw b len cur) e
  else e.

Definition delete_key (e : editor) : editor :=
  if cur e <? len e then
    let b := for_range (cur e) (len e - 1) (fun i b => set_at b i (at_index b (i + 1))) (buf e) in
    let len := len e - 1 in
    emit (redraw b len (cur e)) (Editor b len (cur e) (out e))
  else e.

Definition arrow (k : Z) (e : editor) : editor :=
  let move n dir c := Editor (buf e) (len e) c (out e ++ move_cursor n dir) in
  if k =? 67 then if cur e <? len e then move 1 67 (cur e + 1) else e
  else if k =? 68 then if 0 <? cur e then move 1 68 (cur e - 1) else e
  else if k =? 72 then if 0 <? cur e then move (cur e) 68 0 else e
  else if k =? 70 then if cur e <? len e then move (len e - cur e) 67 (len e) else e
  else e.

(** [for (int i = len; i > cur; i--) buf[i] = buf[i - 1];] *)
Definition shift_right (a b : Z) (l : list Z) : list Z :=
  for_range 0 (b - a) (fun j l => set_at l (b - j) (at_index l (b - j - 1))) l.

Definition insert_char (max c : Z) (e : editor) : editor :=
  if len e <? max - 1 then
    let b := set_at (shift_right (cur e) (len e) (buf e)) (cur e) c in
    let cur := cur e + 1 in
    let len := len e + 1 in
    let e := Editor b len cur (out e) in
    if cur =? len then emit [c] e else emit (redraw b len cur) e
  else e.

(** The loop; [junk] is what [tmp] holds when its read fails.  The value is the state at
    the return, whose [len] is returned, and the characters not read. *)
Fixpoint read_line (max junk : Z) (ins : list (option Z)) (e : editor) : option (editor * list (option Z)) :=
  match ins with
  | [] => None
  | None :: ins => read_line max junk ins e
  | Some c :: ins =>
      if (c =? 13) || (c =? 10) then Some (Editor (set_at (buf e) (len e) 0) (len e) (cur e) (out e ++ [13; 10]), ins)
      else if (c =? 8) || (c =? 127) then read_line max junk ins (backspace e)
      else if c =? ESC then
        match ins with
        | [] => None
        | None :: ins => read_line max junk ins e
        | Some s0 :: ins =>
            if negb (s0 =? 91) then read_line max junk ins e else
            match ins with
            | [] => None
            | None :: ins => read_line max junk ins e
            | Some s1 :: ins =>
                if (48 <=? s1) && (s1 <=? 57) then
                  match ins with
                  | [] => None
                  | t :: ins =>
                      if (s1 =? 51) && (default junk t =? 126) then read_line max junk ins (delete_key e) else read_line max junk ins e
                  end
                else read_line max junk ins (arrow s1 e)
            end
        end
      else if c <? 32 then read_line max junk ins e
      else read_line max junk ins (insert_char max c e)
  end.

(** ** Arguments *)

(** [while (P( *p )) p++;]; a line has a terminator, where [P] fails. *)
Fixpoint scan (n : nat) (P : Z -> bool) (line : list Z) (p : Z) : Z :=
  match n with
  | O => p
  | S n' => if P (at_index line p) then scan n' P line (p + 1) else p
  end.

(** The loop: [argc] is the length of [argv].  Every turn moves past a character. *)
Fixpoint parse_loop (fuel : nat) (line : list Z) (p : Z) (argv : list Z) (max_args : Z) : list Z * list Z :=
  match fuel with
  | O => (line, argv)
  | S fuel' =>
      if negb (at_index line p =? 0) && (Z.of_nat (length argv) <? max_args) then
        let p := scan (length line) (fun c => c =? 32) line p in
        if at_index line p =? 0 then (line, argv) else
        let argv := argv ++ [p] in
        let p := scan (length line) (fun c => negb (c =? 0) && negb (c =? 32)) line p in
        if negb (at_index line p =? 0) then parse_loop fuel' (set_at line p 0) (p + 1) argv max_args
        else parse_loop fuel' line p argv max_args
      else (line, argv)
  end.

(** The line with its terminators, and [argv]. *)
Definition parse_args (line : list Z) (max_args : Z) : list Z * list Z := parse_loop (S (length line)) line 0 [] max_args.

(** ** The commands

    The system calls as the program makes them: the result of each, and what it stores
    for the caller. *)

Class Kernel (W : Type) := {
  sys_write : Z -> list Z -> W -> Z * W;
  sys_read : Z -> Z -> W -> Z * list Z * W;
  sys_open : list Z -> Z -> W -> Z * W;
  sys_close : Z -> W -> Z * W;
  sys_mkdir : list Z -> W -> Z * W;
  sys_unlink : list Z -> W -> Z * W;
  sys_chdir : list Z -> W -> Z * W;
  sys_getcwd : Z -> W -> Z * list Z * W;
  sys_readdir : Z -> W -> Z * (list Z * Z) * W;
  sys_gettid : W -> Z * W;
  sys_reboot : Z -> Z -> Z -> W -> Z * W;
}.

Definition O_RDONLY : Z := 0.
Definition O_WRONLY : Z := 1.
Definition O_CREAT : Z := 0x40.
Definition O_TRUNC : Z := 0x200.
Definition VFS_TYPE_DIR : Z := 2.
Definition REBOOT_MAGIC1 : Z := 0xfee1dead.
Definition REBOOT_MAGIC2 : Z := 0x28121969.
Definition REBOOT_CMD_POWEROFF : Z := 0x4321fedc.
Definition REBOOT_CMD_RESTART : Z := 0x01234567.

Section commands.
Context {W : Type} `{!Kernel W} (fuel : nat).

Definition call {A} (f : W -> A * W) : St W A := fun w => Some (f w).
Definition write_fd (fd : Z) (s : list Z) : St W unit := call (sys_write fd s) ;; skip.
Definition puts (s : list Z) : St W unit := write_fd 1 s.
Definition puts_line (s : list Z) : St W unit := puts (s ++ [13; 10]).
Definition putchar (c : Z) : St W unit := write_fd 1 [c].

Definition arg (argv : list (list Z)) (i : nat) : list Z := default [] (argv !! i).

Definition cmd_help : St W unit :=
  puts ([txt "Knail shell commands:"; txt "  help              - show this"; txt "  echo [args...]    - print arguments"; txt "  pwd               - print working directory";
    txt "  cd <path>         - change directory"; txt "  ls [path]         - list directory"; txt "  cat <file>        - print file contents"; txt "  mkdir <path>      - create directory";
    txt "  rm <file>         - remove file"; txt "  write <f> <text>  - write text to file"; txt "  tid               - print task ID"; txt "  poweroff          - shut down";
    txt "  reboot            - restart"; txt "  clear             - clear screen"] ≫= fun s => s ++ [13; 10]).

(** [for (i = 1; i < argc; i++)] *)
Fixpoint echo_args (first : bool) (args : list (list Z)) : St W unit :=
  match args with
  | [] => skip
  | a :: args' => when (negb first) (putchar 32) ;; puts a ;; echo_args false args'
  end.
Definition cmd_echo (argv : list (list Z)) : St W unit := echo_args true (drop 1 argv) ;; puts [13; 10].

Definition cmd_pwd : St W unit :=
  '(r, b) ← (fun w => let '(r, b, w) := sys_getcwd 256 w in Some ((r, b), w));
  puts (if 0 <? r then until_nul b else txt "/") ;; puts [13; 10].

Definition cmd_cd (argv : list (list Z)) : St W unit :=
  if Z.of_nat (length argv) <? 2 then puts_line (txt "usage: cd <path>") else
  r ← call (sys_chdir (arg argv 1));
  when (r <? 0) (puts (txt "cd: no such directory: ") ;; puts (arg argv 1) ;; puts [13; 10]).

(** [while (1)] until [readdir] fails. *)
Fixpoint ls_loop (n : nat) (fd : Z) : St W unit :=
  match n with
  | O => halt
  | S n' =>
      '(r, d) ← (fun w => let '(r, d, w) := sys_readdir fd w in Some ((r, d), w));
      if r <? 0 then skip else
      puts (if snd d =? VFS_TYPE_DIR then ESC :: txt "[1;36m" else ESC :: txt "[0m") ;;
      puts (until_nul (fst d)) ;; puts (txt "    ") ;; ls_loop n' fd
  end.
Definition cmd_ls (argv : list (list Z)) : St W unit :=
  '(_, cwd) ← (fun w => let '(r, b, w) := sys_getcwd 128 w in Some ((r, b), w));
  let path := if 2 <=? Z.of_nat (length argv) then arg argv 1 else until_nul cwd in
  r ← call (sys_open path O_RDONLY);
  let fd := i32 r in
  if fd <? 0 then puts_line (txt "ls: cannot open") else
  ls_loop fuel fd ;; puts [13; 10] ;; call (sys_close fd) ;; skip.

Fixpoint cat_loop (n : nat) (fd : Z) : St W unit :=
  match n with
  | O => halt
  | S n' =>
      '(r, b) ← (fun w => let '(r, b, w) := sys_read fd 512 w in Some ((r, b), w));
      if 0 <? r then write_fd 1 (take (Z.to_nat r) b) ;; cat_loop n' fd else skip
  end.
Definition cmd_cat (argv : list (list Z)) : St W unit :=
  if Z.of_nat (length argv) <? 2 then puts_line (txt "usage: cat <file>") else
  r ← call (sys_open (arg argv 1) O_RDONLY);
  let fd := i32 r in
  if fd <? 0 then puts (txt "cat: cannot open: ") ;; puts (arg argv 1) ;; puts [13; 10] else
  cat_loop fuel fd ;; call (sys_close fd) ;; puts [13; 10].

Definition cmd_mkdir (argv : list (list Z)) : St W unit :=
  if Z.of_nat (length argv) <? 2 then puts_line (txt "usage: mkdir <path>") else
  r ← call (sys_mkdir (arg argv 1));
  when (r <? 0) (puts_line (txt "mkdir: failed") ;; putchar (schar (u8 (48 - r))) ;; puts [13; 10]).

Definition cmd_rm (argv : list (list Z)) : St W unit :=
  if Z.of_nat (length argv) <? 2 then puts_line (txt "usage: rm <file>") else
  r ← call (sys_unlink (arg argv 1));
  when (r <? 0) (puts_line (txt "rm: failed")).

Definition cmd_write (argv : list (list Z)) : St W unit :=
  if Z.of_nat (length argv) <? 3 then puts_line (txt "usage: write <file> <text>") else
  r ← call (sys_open (arg argv 1) (O_WRONLY .| O_CREAT .| O_TRUNC));
  let fd := i32 r in
  if fd <? 0 then puts_line (txt "write: cannot open") else
  write_fd fd (arg argv 2) ;; write_fd fd [10] ;; call (sys_close fd) ;; skip.

(** [print_dec] writes its characters one at a time. *)
Fixpoint put_each (l : list Z) : St W unit :=
  match l with
  | [] => skip
  | c :: l' => putchar c ;; put_each l'
  end.
Definition cmd_tid : St W unit := puts (txt "tid=") ;; r ← call sys_gettid; put_each (print_dec r) ;; puts [13; 10].
Definition cmd_clear : St W unit := puts ((ESC :: txt "[2J") ++ ESC :: txt "[H").

Definition print_prompt : St W unit :=
  '(r, b) ← (fun w => let '(r, b, w) := sys_getcwd 256 w in Some ((r, b), w));
  puts ((ESC :: txt "[32mknail") ++ ESC :: txt "[0m:") ;;
  puts (if 0 <? r then until_nul b else txt "/") ;;
  puts ((ESC :: txt "[34m$") ++ ESC :: txt "[0m ") ;;
  puts (ESC :: txt "[s").

Definition poweroff : St W unit := call (sys_reboot REBOOT_MAGIC1 REBOOT_MAGIC2 REBOOT_CMD_POWEROFF) ;; skip.
Definition reboot : St W unit := call (sys_reboot REBOOT_MAGIC1 REBOOT_MAGIC2 REBOOT_CMD_RESTART) ;; skip.

(** What [_start] prints first. *)
Definition greet : St W unit :=
  puts ((ESC :: txt "[1;36mKnail Shell") ++ (ESC :: txt "[0m") ++ [13; 10]) ;; puts (txt "Type 'help' for commands." ++ [13; 10; 13; 10]).

(** A turn of the loop of [_start] after [read_line] returned [len]. *)
Definition run_line (line : list Z) (len : Z) : St W unit :=
  if len =? 0 then skip else
  let '(line, ps) := parse_args line 16 in
  let argv := map (str_at line) ps in
  let cmd := arg argv 0 in
  let named s := strcmp cmd (txt s) =? 0 in
  if Z.of_nat (length argv) =? 0 then skip
  else if named "help"%string then cmd_help
  else if named "echo"%string then cmd_echo argv
  else if named "pwd"%string then cmd_pwd
  else if named "cd"%string then cmd_cd argv
  else if named "ls"%string then cmd_ls argv
  else if named "cat"%string then cmd_cat argv
  else if named "mkdir"%string then cmd_mkdir argv
  else if named "rm"%string then cmd_rm argv
  else if named "write"%string then cmd_write argv
  else if named "tid"%string then cmd_tid
  else if named "clear"%string then cmd_clear
  else if named "poweroff"%string then poweroff
  else if named "reboot"%string then reboot
  else puts (txt "unknown command: ") ;; puts cmd ;; puts [13; 10].
End commands.
