(* ===== verification/ShellEdit.v ===== *)
(** * The shell's line editor

    The editor keeps its buffer and implements an editor of a text with a cursor, and
    the console of [Vga] shows this text with its cursor on it. *)
From Stdlib Require Import String.
From S2P Require Import Prelude Monad Bytes Vga Ports Serial Shell.

(** ** The text being edited

    The characters before the cursor, the nearest first, and those from the cursor on. *)
Record zipper := Zip { before : list Z; after : list Z }.

Definition text (z : zipper) : list Z := rev (before z) ++ after z.

Inductive key := KBack | KDelete | KRight | KLeft | KHome | KEnd | KChar (c : Z).

Definition edit (max : Z) (z : zipper) (k : key) : zipper :=
  match k, z with
  | KBack, Zip b a => Zip (tail b) a
  | KDelete, Zip b a => Zip b (tail a)
  | KRight, Zip b (x :: a) => Zip (x :: b) a
  | KLeft, Zip (x :: b) a => Zip b (x :: a)
  | KHome, Zip b a => Zip [] (rev b ++ a)
  | KEnd, Zip b a => Zip (rev a ++ b) []
  | KChar c, Zip b a => if Z.of_nat (length (text z)) <? max - 1 then Zip (c :: b) a else z
  | _, _ => z
  end.

(** The keys of a line and what follows the line. *)
Fixpoint keys (junk : Z) (ins : list (option Z)) : option (list key * list (option Z)) :=
  let and_then k r := match r with Some (ks, rest) => Some (k :: ks, rest) | None => None end in
  match ins with
  | [] => None
  | None :: ins => keys junk ins
  | Some c :: ins =>
      if (c =? 13) || (c =? 10) then Some ([], ins)
      else if (c =? 8) || (c =? 127) then and_then KBack (keys junk ins)
      else if c =? ESC then
        match ins with
        | Some s0 :: ins =>
            if negb (s0 =? 91) then keys junk ins else
            match ins with
            | Some s1 :: ins =>
                if (48 <=? s1) && (s1 <=? 57) then
                  match ins with
                  | [] => None
                  | t :: ins => if (s1 =? 51) && (default junk t =? 126) then and_then KDelete (keys junk ins) else keys junk ins
                  end
                else if s1 =? 67 then and_then KRight (keys junk ins)
                else if s1 =? 68 then and_then KLeft (keys junk ins)
                else if s1 =? 72 then and_then KHome (keys junk ins)
                else if s1 =? 70 then and_then KEnd (keys junk ins)
                else keys junk ins
            | None :: ins => keys junk ins
            | [] => None
            end
        | None :: ins => keys junk ins
        | [] => None
        end
      else if c <? 32 then keys junk ins
      else and_then (KChar c) (keys junk ins)
  end.

(** ** The buffer holds the text *)

(** [l] starts with [t]. *)
Definition starts (l t : list Z) : Prop := (length t <= length l)%nat /\ forall i, 0 <= i < Z.of_nat (length t) -> at_index l i = at_index t i.

Lemma starts_take l t : starts l t -> take (length t) l = t.
Proof.
  intros [Hl Hi]. apply list_eq. intros i. destruct (decide (i < length t)%nat) as [Hlt |].
  - rewrite lookup_take_lt by done. specialize (Hi (Z.of_nat i) ltac:(lia)). unfold at_index in Hi. rewrite Nat2Z.id in Hi.
    destruct (lookup_lt_is_Some_2 l i) as [x Hx]; [lia |]. destruct (lookup_lt_is_Some_2 t i) as [y Hy]; [done |]. rewrite Hx, Hy in *. cbn in Hi. congruence.
  - rewrite lookup_take_ge by lia. by rewrite lookup_ge_None_2 by lia.
Qed.

Lemma at_app_l (a b : list Z) i : 0 <= i < Z.of_nat (length a) -> at_index (a ++ b) i = at_index a i.
Proof. intros Hi. unfold at_index. by rewrite lookup_app_l by lia. Qed.

Lemma at_app_r (a b : list Z) i : Z.of_nat (length a) <= i -> at_index (a ++ b) i = at_index b (i - Z.of_nat (length a)).
Proof. intros Hi. unfold at_index. rewrite lookup_app_r by lia. do 2 f_equal. lia. Qed.

Lemma at_set l i v j : 0 <= i < Z.of_nat (length l) -> 0 <= j -> at_index (set_at l i v) j = if decide (j = i) then v else at_index l j.
Proof.
  intros Hi Hj. unfold at_index, set_at. case_decide as Hd; [subst; by rewrite list_lookup_insert_eq by lia | by rewrite list_lookup_insert_ne by lia].
Qed.

Lemma length_set_at l i v : length (set_at l i v) = length l.
Proof. apply length_insert. Qed.

(** [for (i = a; i < n; i++) buf[i] = buf[i + 1];] *)
Lemma shift_left_spec l a n : 0 <= a -> n < Z.of_nat (length l) -> let l' := for_range a n (fun i b => set_at b i (at_index b (i + 1))) l in
  length l' = length l /\ forall j, 0 <= j -> at_index l' j = if decide (a <= j < n) then at_index l (j + 1) else at_index l j.
Proof.
  intros Ha Hn. destruct (Z.le_gt_cases a n) as [Han |]; cbv zeta; [| rewrite for_range_done by lia; split; [done |]; intros j Hj; by rewrite decide_False by lia].
  set (body := fun i b => _). enough (let l' := for_range a n body l in length l' = length l /\ forall j, 0 <= j -> at_index l' j = if (a <=? j) && (j <? n) then at_index l (j + 1) else at_index l j) as [H1 H2].
  { split; [done |]. intros j Hj. rewrite H2 by done. destruct (Z.leb_spec a j), (Z.ltb_spec j n); cbn; (by rewrite decide_True by lia) || by rewrite decide_False by lia. }
  apply (for_range_ind (fun m l' => length l' = length l /\ forall j, 0 <= j -> at_index l' j = if (a <=? j) && (j <? m) then at_index l (j + 1) else at_index l j)); [lia | |].
  - split; [done |]. intros j Hj. by destruct (Z.leb_spec a j), (Z.ltb_spec j a); try lia.
  - intros i l' Hi [Hl Hx]. unfold body. split; [by rewrite length_set_at |]. intros j Hj. rewrite at_set by lia. case_decide as Hd.
    + subst j. rewrite Hx by lia. by destruct (Z.leb_spec a (i + 1)), (Z.ltb_spec (i + 1) i), (Z.leb_spec a i), (Z.ltb_spec i (i + 1)); try lia.
    + rewrite Hx by lia. by destruct (Z.leb_spec a j), (Z.ltb_spec j i), (Z.ltb_spec j (i + 1)); try lia.
Qed.

Lemma shift_right_spec l a b : 0 <= a <= b -> b < Z.of_nat (length l) -> length (shift_right a b l) = length l /\
  forall j, 0 <= j -> at_index (shift_right a b l) j = if decide (a < j <= b) then at_index l (j - 1) else at_index l j.
Proof.
  intros Ha Hb. unfold shift_right. set (body := fun j l => _).
  enough (let l' := for_range 0 (b - a) body l in length l' = length l /\ forall j, 0 <= j -> at_index l' j = if (b - (b - a) <? j) && (j <=? b) then at_index l (j - 1) else at_index l j) as [H1 H2].
  { split; [done |]. intros j Hj. rewrite H2 by done. destruct (Z.ltb_spec (b - (b - a)) j), (Z.leb_spec j b); cbn; (by rewrite decide_True by lia) || by rewrite decide_False by lia. }
  apply (for_range_ind (fun m l' => length l' = length l /\ forall j, 0 <= j -> at_index l' j = if (b - m <? j) && (j <=? b) then at_index l (j - 1) else at_index l j)); [lia | |].
  - split; [done |]. intros j Hj. by destruct (Z.ltb_spec (b - 0) j), (Z.leb_spec j b); try lia.
  - intros i l' Hi [Hl Hx]. unfold body. split; [by rewrite length_set_at |]. intros j Hj. rewrite at_set by lia. case_decide as Hd.
    + subst j. rewrite Hx by lia. by destruct (Z.ltb_spec (b - i) (b - i - 1)), (Z.leb_spec (b - i - 1) b), (Z.ltb_spec (b - (i + 1)) (b - i)), (Z.leb_spec (b - i) b); try lia.
    + rewrite Hx by lia. by destruct (Z.ltb_spec (b - i) j), (Z.leb_spec j b), (Z.ltb_spec (b - (i + 1)) j); try lia.
Qed.

Lemma at_middle (l1 l2 : list Z) x j : 0 <= j -> at_index (l1 ++ x :: l2) j =
  if decide (j < Z.of_nat (length l1)) then at_index (l1 ++ l2) j else if decide (j = Z.of_nat (length l1)) then x else at_index (l1 ++ l2) (j - 1).
Proof.
  intros Hj. case_decide; [by rewrite !at_app_l by lia |]. case_decide as Hd.
  - subst j. rewrite at_app_r by lia. by rewrite Z.sub_diag.
  - rewrite !at_app_r by lia. unfold at_index. replace (Z.to_nat (j - Z.of_nat (length l1))) with (S (Z.to_nat (j - 1 - Z.of_nat (length l1)))) by lia. done.
Qed.

Definition printable (c : Z) : Prop := 32 <= c < 127.

(** The state of the editor and the text it edits. *)
Record holds (max : Z) (e : editor) (z : zipper) : Prop := {
  h_size : Z.of_nat (length (buf e)) = max;
  h_len : len e = Z.of_nat (length (text z));
  h_cur : cur e = Z.of_nat (length (before z));
  h_room : len e <= max - 1;
  h_text : starts (buf e) (text z);
  h_chars : Forall printable (text z);
}.

Lemma length_text z : length (text z) = (length (before z) + length (after z))%nat.
Proof. unfold text. by rewrite length_app, length_rev. Qed.

(** Taking the character at [rev b] out of the buffer. *)
Lemma starts_remove l b x a : starts l (rev b ++ x :: a) ->
  starts (for_range (Z.of_nat (length b)) (Z.of_nat (length b + length a)) (fun i b => set_at b i (at_index b (i + 1))) l) (rev b ++ a) /\
  length (for_range (Z.of_nat (length b)) (Z.of_nat (length b + length a)) (fun i b => set_at b i (at_index b (i + 1))) l) = length l.
Proof.
  intros [Hl Hi]. rewrite length_app, length_rev in Hl. cbn [length] in Hl.
  destruct (shift_left_spec l (Z.of_nat (length b)) (Z.of_nat (length b + length a)) ltac:(lia) ltac:(lia)) as [L H]. cbv zeta in *. split; [| done]. split; [rewrite L, length_app, length_rev; lia |].
  intros j Hj. rewrite length_app, length_rev in Hj. rewrite H by lia. rewrite length_app, length_rev in Hi. cbn [length] in Hi. case_decide.
  - rewrite Hi by lia. rewrite at_middle by lia. rewrite length_rev, !decide_False by lia. f_equal. lia.
  - rewrite Hi by lia. rewrite at_middle by lia. by rewrite length_rev, decide_True by lia.
Qed.

Lemma starts_insert l b a c : starts l (rev b ++ a) -> (length b + length a < length l)%nat ->
  let l' := set_at (shift_right (Z.of_nat (length b)) (Z.of_nat (length b + length a)) l) (Z.of_nat (length b)) c in starts l' (rev b ++ c :: a) /\ length l' = length l.
Proof.
  intros [Hl Hi] Hr l'. destruct (shift_right_spec l (Z.of_nat (length b)) (Z.of_nat (length b + length a)) ltac:(lia) ltac:(lia)) as [L H].
  assert (length l' = length l) as L' by (unfold l'; by rewrite length_set_at). split; [| done]. rewrite length_app, length_rev in Hi. split.
  - rewrite L', length_app, length_rev. cbn [length]. lia.
  - intros j Hj. rewrite length_app, length_rev in Hj. cbn [length] in Hj. unfold l'. rewrite at_set by lia. rewrite at_middle by lia. rewrite length_rev. rewrite H by lia.
    repeat case_decide; try lia; try done; apply Hi; lia.
Qed.

(** ** The screen *)

Definition glyph (attr c : Z) : Z := u16 c .| u16 (u16 attr .<< 8).

(** On row [r0], from the saved position [c0] on, the screen has the text and blanks
    after it, and the cursor is where the next character goes. *)
Record shows (attr c0 r0 : Z) (z : zipper) (s : Vga.state) : Prop := {
  sh_esc : esc_state s = Normal;
  sh_attr : color s = attr;
  sh_saved : saved_row s = r0 /\ saved_col s = c0;
  sh_pos : row s = r0 /\ col s = c0 + Z.of_nat (length (before z));
  sh_range : 0 <= r0 < HEIGHT /\ 0 <= c0 /\ c0 + Z.of_nat (length (text z)) < WIDTH;
  sh_cells : forall x, c0 <= x < WIDTH -> cell s x r0 = if decide (x < c0 + Z.of_nat (length (text z))) then glyph attr (at_index (text z) (x - c0)) else blank attr;
}.

(** What a piece of output leaves alone. *)
Definition steady (s s' : Vga.state) : Prop := esc_state s' = Normal /\ color s' = color s /\ saved_row s' = saved_row s /\ saved_col s' = saved_col s.

Lemma steady_trans s1 s2 s3 : steady s1 s2 -> steady s2 s3 -> steady s1 s3.
Proof. intros (H1 & H2 & H3 & H4) (K1 & K2 & K3 & K4). unfold steady. split_and!; congruence. Qed.

Lemma put_plain c s : esc_state s = Normal -> printable c -> 0 <= col s < WIDTH - 1 -> let s' := _put_char c s in
  steady s s' /\ row s' = row s /\ col s' = col s + 1 /\
  forall x, 0 <= x < WIDTH -> cell s' x (row s) = if decide (x = col s) then glyph (color s) c else cell s x (row s).
Proof.
  unfold printable. intros He Hc Hcol. unfold _put_char, render. rewrite He.
  rewrite (proj2 (Z.eqb_neq c 27)), (proj2 (Z.eqb_neq c 10)), (proj2 (Z.eqb_neq c 13)), (proj2 (Z.eqb_neq c 8)) by lia. cbv zeta.
  change (col (set_pos ?r ?k ?y)) with k. rewrite (proj2 (Z.leb_gt WIDTH (col (put_entry c (color s) (col s) (row s) s) + 1))) by (cbn [col put_entry set_buffer]; lia).
  split; [done |]. split; [done |]. split; [done |]. intros x Hx. rewrite cell_update_cursor, cell_set_pos. unfold put_entry. rewrite cell_insert. unfold WIDTH in *.
  destruct (decide (x = col s)) as [-> |]; [by rewrite decide_True by lia | by rewrite decide_False by lia].
Qed.

Lemma write_row str s : esc_state s = Normal -> Forall printable str -> 0 <= col s -> col s + Z.of_nat (length str) < WIDTH -> let s' := Vga.write str s in
  steady s s' /\ row s' = row s /\ col s' = col s + Z.of_nat (length str) /\
  forall x, 0 <= x < WIDTH -> cell s' x (row s) = if decide (col s <= x < col s + Z.of_nat (length str)) then glyph (color s) (at_index str (x - col s)) else cell s x (row s).
Proof.
  intros He Hp. revert s He. induction Hp as [| c str Hc _ IH]; intros s He Hl Hw; cbv zeta; cbn [length] in *.
  - change (Vga.write [] s) with s. split; [done |]. split; [done |]. split; [lia |]. intros x Hx. by rewrite decide_False by lia.
  - rewrite write_cons. destruct (put_plain c s He Hc ltac:(lia)) as (S1 & R1 & C1 & K1). set (s1 := _put_char c s) in *. clearbody s1. pose proof S1 as (E1 & A1 & _).
    destruct (IH s1 E1 ltac:(lia) ltac:(lia)) as (S2 & R2 & C2 & K2). cbv zeta in *. split; [by apply (steady_trans _ s1) |]. split; [congruence |]. split; [lia |].
    intros x Hx. rewrite <- R1, K2, R1, K1, C1, A1 by done. case_decide as H1.
    + rewrite decide_True by lia. f_equal. unfold at_index. replace (Z.to_nat (x - col s)) with (S (Z.to_nat (x - (col s + 1)))) by lia. done.
    + case_decide as H2; [subst x; rewrite decide_True by lia; by rewrite Z.sub_diag | by rewrite decide_False by lia].
Qed.

(** Backspace away from the margin. *)
Lemma put_back s : esc_state s = Normal -> 0 < col s < WIDTH -> let s' := _put_char 8 s in
  steady s s' /\ row s' = row s /\ col s' = col s - 1 /\
  forall x, 0 <= x < WIDTH -> cell s' x (row s) = if decide (x = col s - 1) then blank (color s) else cell s x (row s).
Proof.
  intros He Hcol. unfold _put_char, render. rewrite He. change (8 =? 27) with false. change (8 =? 10) with false. change (8 =? 13) with false. change (8 =? 8) with true. cbv zeta. cbn iota.
  rewrite (proj2 (Z.ltb_lt 0 (col s))) by lia. split; [done |]. split; [done |]. split; [done |]. intros x Hx. rewrite cell_update_cursor. unfold put_entry. rewrite cell_insert.
  change (col (set_pos (row s) (col s - 1) s)) with (col s - 1). change (row (set_pos (row s) (col s - 1) s)) with (row s). change (color (set_pos (row s) (col s - 1) s)) with (color s). unfold WIDTH in *.
  destruct (decide (x = col s - 1)) as [-> |]; [by rewrite decide_True by lia | by rewrite decide_False by lia].
Qed.

(** A sequence with one number, or with none for 0. *)
Lemma write_sequence ds n f s : esc_state s = Normal -> Forall digit ds -> parse_dec ds = n -> 0 <= n < 256 -> 64 <= f -> 
  Vga.write ([ESC; 91] ++ ds ++ [f]) s = final_byte f (set_params [n; 0; 0; 0; 0; 0; 0; 0] 1 (set_esc Params s)).
Proof.
  intros He Hd Hn Hr Hf. rewrite write_app, !write_cons. assert (_put_char 91 (_put_char ESC s) = set_params (replicate 8 0) 0 (set_esc Bracket s)) as -> by (unfold _put_char at 2; rewrite He; done).
  change (Vga.write [] ?x) with x.
  assert (forall c, _put_char c (set_params (replicate 8 0) 0 (set_esc Bracket s)) = _put_char c (set_params (replicate 8 0) 0 (set_esc Params s))) as Hb by done.
  assert (Vga.write (ds ++ [f]) (set_params (replicate 8 0) 0 (set_esc Bracket s)) = Vga.write (ds ++ [f]) (set_params (replicate 8 0) 0 (set_esc Params s))) as -> by (by destruct ds).
  rewrite write_app, (feed_digits ds _ 0); try done. change (foldl dec_step (param _ 0) ds) with (parse_dec ds). rewrite Hn, u8_small by (unfold U8; lia).
  rewrite write_cons. change (Vga.write [] ?x) with x. unfold _put_char. change (esc_state (set_params ?a ?b ?y)) with (esc_state y). cbn [esc_state set_esc]. unfold param_byte.
  rewrite (proj2 (Z.leb_gt f 57)), andb_false_r by lia. rewrite (proj2 (Z.eqb_neq f 59)) by lia. done.
Qed.

Lemma itoa_digits n : 0 <= n < 1000 -> Forall digit (itoa_back n) /\ parse_dec (itoa_back n) = n.
Proof.
  intros Hn. unfold itoa_back, parse_dec, digit. destruct (Z.leb_spec 100 n), (Z.leb_spec 10 n); try lia; cbn [app foldl]; unfold dec_step; (split; [repeat constructor; divlia | divlia]).
Qed.

(** The same cells, and the cursor moved. *)
Definition moved (r k : Z) (s s' : Vga.state) : Prop := steady s s' /\ row s' = r /\ col s' = k /\ forall x y, cell s' x y = cell s x y.

Lemma move_back n s : esc_state s = Normal -> 0 <= n <= col s -> col s < WIDTH -> moved (row s) (col s - n) s (Vga.write (move_cursor n 68) s).
Proof.
  intros He Hn Hw. unfold WIDTH in Hw. unfold move_cursor. destruct (Z.leb_spec n 0); [change (Vga.write [] s) with s; by replace (col s - n) with (col s) by lia |].
  destruct (itoa_digits n ltac:(lia)) as [Hd Hp]. rewrite (write_sequence _ n 68) by (done || lia). change (final_byte 68 ?y) with (set_esc Normal (cursor_back y)).
  unfold cursor_back, count_or_1, param. cbn [esc_params set_params]. change (default 0 ([n; 0; 0; 0; 0; 0; 0; 0] !! Z.to_nat 0)) with n. rewrite (proj2 (Z.eqb_neq n 0)) by lia.
  cbn [col set_params set_esc]. rewrite (proj2 (Z.leb_le n (col s))) by lia. done.
Qed.

Lemma move_forward n s : esc_state s = Normal -> 0 <= n -> 0 <= col s -> col s + n < WIDTH -> moved (row s) (col s + n) s (Vga.write (move_cursor n 67) s).
Proof.
  intros He Hn Hc Hw. unfold move_cursor. destruct (Z.leb_spec n 0); [change (Vga.write [] s) with s; by replace (col s + n) with (col s) by lia |].
  assert (n < 256) by (unfold WIDTH in Hw; lia). destruct (itoa_digits n ltac:(lia)) as [Hd Hp]. rewrite (write_sequence _ n 67) by (done || lia). change (final_byte 67 ?y) with (set_esc Normal (cursor_forward y)).
  unfold cursor_forward, count_or_1, param. cbn [esc_params set_params]. change (default 0 ([n; 0; 0; 0; 0; 0; 0; 0] !! Z.to_nat 0)) with n. rewrite (proj2 (Z.eqb_neq n 0)) by lia.
  cbn [col set_params set_esc]. rewrite (proj2 (Z.ltb_lt (col s + n) WIDTH)) by lia. done.
Qed.

Lemma restore_sequence s : esc_state s = Normal -> moved (saved_row s) (saved_col s) s (Vga.write [ESC; 91; 117] s).
Proof.
  intros He. change [ESC; 91; 117] with ([ESC; 91] ++ [] ++ [117]). by rewrite (write_sequence [] 0 117).
Qed.

Lemma blank_row_spec a s x : 0 <= a <= WIDTH -> 0 <= x < WIDTH -> let s' := blank_row a WIDTH s in
  cell s' x (row s) = (if decide (a <= x) then blank (color s) else cell s x (row s)) /\ row s' = row s /\ col s' = col s /\ esc_state s' = esc_state s /\ color s' = color s /\
  saved_row s' = saved_row s /\ saved_col s' = saved_col s.
Proof.
  intros Ha Hx. unfold blank_row. set (body := fun x s => _).
  enough (let s' := for_range a WIDTH body s in (forall x, 0 <= x < WIDTH -> cell s' x (row s) = (if (a <=? x) && (x <? WIDTH) then blank (color s) else cell s x (row s))) /\
    row s' = row s /\ col s' = col s /\ esc_state s' = esc_state s /\ color s' = color s /\ saved_row s' = saved_row s /\ saved_col s' = saved_col s) as [H1 H2].
  { split; [| done]. rewrite H1 by done. rewrite (proj2 (Z.ltb_lt x WIDTH)) by lia. destruct (Z.leb_spec a x); [by rewrite decide_True | by rewrite decide_False by lia]. }
  apply (for_range_ind (fun n s' => (forall x, 0 <= x < WIDTH -> cell s' x (row s) = (if (a <=? x) && (x <? n) then blank (color s) else cell s x (row s))) /\
    row s' = row s /\ col s' = col s /\ esc_state s' = esc_state s /\ color s' = color s /\ saved_row s' = saved_row s /\ saved_col s' = saved_col s)); [lia | |].
  - split; [| done]. intros y Hy. by destruct (Z.leb_spec a y), (Z.ltb_spec y a); try lia.
  - intros i s' Hi (Hc & R & C & E & A & SR & SC). unfold body. split; [| done]. intros y Hy. unfold put_entry. rewrite cell_insert, R, A. unfold WIDTH in *. case_decide as Hd.
    + assert (y = i) as -> by lia. by destruct (Z.leb_spec a i), (Z.ltb_spec i (i + 1)); try lia.
    + rewrite Hc by done. by destruct (Z.leb_spec a y), (Z.ltb_spec y i), (Z.ltb_spec y (i + 1)); try lia.
Qed.

Lemma erase_sequence s x : esc_state s = Normal -> 0 <= col s < WIDTH -> 0 <= x < WIDTH -> let s' := Vga.write [ESC; 91; 75] s in
  steady s s' /\ row s' = row s /\ col s' = col s /\ cell s' x (row s) = if decide (col s <= x) then blank (color s) else cell s x (row s).
Proof.
  intros He Hc Hx. change [ESC; 91; 75] with ([ESC; 91] ++ [] ++ [75]). rewrite (write_sequence [] 0 75) by (done || lia).
  change (final_byte 75 ?y) with (set_esc Normal (blank_row (col y) WIDTH y)). set (y := set_params _ _ _).
  destruct (blank_row_spec (col y) y x) as (H1 & R & C & _ & A & SR & SC); [cbn; lia | done |]. cbv zeta in *. unfold steady.
  change (cell (set_esc Normal ?w)) with (cell w). change (row (set_esc Normal ?w)) with (row w). change (col (set_esc Normal ?w)) with (col w). change (color (set_esc Normal ?w)) with (color w).
  change (saved_row (set_esc Normal ?w)) with (saved_row w). change (saved_col (set_esc Normal ?w)) with (saved_col w). rewrite R, C, A, SR, SC. done.
Qed.

(** A redraw shows the text, whatever was to the right of the saved position. *)
Lemma redraw_shows attr c0 r0 z b s : esc_state s = Normal -> color s = attr -> saved_row s = r0 -> saved_col s = c0 -> 0 <= r0 < HEIGHT -> 0 <= c0 ->
  c0 + Z.of_nat (length (text z)) < WIDTH -> starts b (text z) -> Forall printable (text z) ->
  shows attr c0 r0 z (Vga.write (redraw b (Z.of_nat (length (text z))) (Z.of_nat (length (before z)))) s).
Proof.
  intros He Ha Hsr Hsc Hr Hc Hw Hb Hp. unfold redraw. rewrite !write_app.
  destruct (restore_sequence s He) as (S1 & R1 & C1 & K1). set (s1 := Vga.write [ESC; 91; 117] s) in *. clearbody s1. pose proof S1 as (E1 & A1 & SR1 & SC1).
  pose proof (fun x => erase_sequence s1 x E1 ltac:(lia)) as H2. set (s2 := Vga.write [ESC; 91; 75] s1) in *. clearbody s2. cbv zeta in H2.
  destruct (H2 c0 ltac:(lia)) as (S2 & R2 & C2 & _). pose proof S2 as (E2 & A2 & SR2 & SC2).
  assert ((if 0 <? Z.of_nat (length (text z)) then take (Z.to_nat (Z.of_nat (length (text z)))) b else []) = text z) as ->.
  { rewrite Nat2Z.id. destruct (Z.ltb_spec 0 (Z.of_nat (length (text z)))); [by apply starts_take |]. symmetry. apply length_zero_iff_nil. lia. }
  destruct (write_row (text z) s2 E2 Hp ltac:(lia) ltac:(lia)) as (S3 & R3 & C3 & K3). set (s3 := Vga.write (text z) s2) in *. clearbody s3. cbv zeta in *. pose proof S3 as (E3 & A3 & SR3 & SC3).
  set (n := Z.of_nat (length (text z)) - Z.of_nat (length (before z))). pose proof (length_text z) as Hlt.
  assert ((if Z.of_nat (length (before z)) <? Z.of_nat (length (text z)) then move_cursor n 68 else []) = move_cursor n 68) as ->.
  { destruct (Z.ltb_spec (Z.of_nat (length (before z))) (Z.of_nat (length (text z)))); [done |]. unfold move_cursor. by rewrite (proj2 (Z.leb_le n 0)) by lia. }
  destruct (move_back n s3 E3 ltac:(lia) ltac:(lia)) as (S4 & R4 & C4 & K4). pose proof S4 as (E4 & A4 & SR4 & SC4). split; try congruence.
  - split; congruence.
  - split; [congruence | lia].
  - done.
  - intros x Hx. rewrite K4. assert (row s2 = r0) as Er by congruence. rewrite <- Er, K3 by lia. rewrite C2, C1, Hsc. assert (color s2 = attr) as -> by congruence.
    destruct (decide (x < c0 + Z.of_nat (length (text z)))); [rewrite decide_True by lia; done |]. rewrite decide_False by lia.
    destruct (H2 x ltac:(lia)) as (_ & _ & _ & H2x). rewrite <- R2 in H2x. rewrite H2x, decide_True by lia. congruence.
Qed.

(** ** Every key *)

Definition apply_key (max : Z) (e : editor) (k : key) : editor :=
  match k with
  | KBack => backspace e
  | KDelete => delete_key e
  | KRight => arrow 67 e
  | KLeft => arrow 68 e
  | KHome => arrow 72 e
  | KEnd => arrow 70 e
  | KChar c => insert_char max c e
  end.

(** [o] is written and brings the screen from [z] to [z']. *)
Definition draws (z z' : zipper) (o : list Z) : Prop := forall attr c0 r0 s, shows attr c0 r0 z s -> c0 + Z.of_nat (length (text z')) < WIDTH -> shows attr c0 r0 z' (Vga.write o s).

Definition follows (max : Z) (e e' : editor) (z z' : zipper) : Prop := holds max e' z' /\ exists o, out e' = out e ++ o /\ draws z z' o.

Lemma follows_same max e z : holds max e z -> follows max e e z z.
Proof. intros H. split; [done |]. exists []. split; [by rewrite app_nil_r |]. intros attr c0 r0 s Hs _. exact Hs. Qed.

(** A redraw from any text. *)
Lemma draws_redraw z z' b len cur : len = Z.of_nat (length (text z')) -> cur = Z.of_nat (length (before z')) -> starts b (text z') -> Forall printable (text z') -> draws z z' (redraw b len cur).
Proof.
  intros -> -> Hs Hp attr c0 r0 s [E A [SR SC] _ (R & C & _) _] Hw. by apply redraw_shows.
Qed.

(** The same text with the cursor elsewhere. *)
Lemma draws_move z z' o : text z' = text z -> (forall s, esc_state s = Normal -> 0 <= col s - Z.of_nat (length (before z)) -> col s - Z.of_nat (length (before z)) + Z.of_nat (length (text z)) < WIDTH ->
    moved (row s) (col s - Z.of_nat (length (before z)) + Z.of_nat (length (before z'))) s (Vga.write o s)) -> draws z z' o.
Proof.
  intros Ht Ho attr c0 r0 s [E A SV [PR PC] RG CE] Hw. rewrite Ht in Hw. destruct (Ho s E ltac:(lia) ltac:(lia)) as ((E' & A' & SR' & SC') & R' & C' & K). destruct SV. split; try congruence.
  - split; congruence.
  - split; [congruence | lia].
  - intros x Hx. rewrite K, Ht. by apply CE.
Qed.

Lemma holds_move max e z z' c o : holds max e z -> text z' = text z -> c = Z.of_nat (length (before z')) -> holds max (Editor (buf e) (len e) c o) z'.
Proof. intros [H1 H2 H3 H4 H5 H6] Ht Hc. split; cbn [buf len cur]; rewrite ?Ht; done. Qed.

Lemma arrow_ok max e z k : holds max e z -> k ∈ [KRight; KLeft; KHome; KEnd] -> follows max e (apply_key max e k) z (edit max z k).
Proof.
  intros H Hk. pose proof H as [_ HL HC _ _ _]. rewrite length_text in HL. destruct z as [b a]. cbn [before after] in *.
  assert (forall n dir z', text z' = text (Zip b a) -> draws (Zip b a) z' (move_cursor n dir) ->
    follows max e (Editor (buf e) (len e) (Z.of_nat (length (before z'))) (out e ++ move_cursor n dir)) (Zip b a) z') as Hf.
  { intros n dir z' Ht Hd. split; [by apply (holds_move max e (Zip b a)) |]. by exists (move_cursor n dir). }
  repeat (apply elem_of_cons in Hk as [-> | Hk]); [| | | | by apply elem_of_nil in Hk]; cbn [apply_key]; unfold arrow; cbv zeta.
  - change (67 =? 67) with true. cbn iota. destruct (Z.ltb_spec (cur e) (len e)).
    + destruct a as [| x a]; [cbn [length] in HL; lia |]. cbn [edit]. replace (cur e + 1) with (Z.of_nat (length (before (Zip (x :: b) a)))) by (cbn; lia). apply Hf.
      * unfold text. cbn [before after rev]. by rewrite <- app_assoc.
      * apply draws_move; [unfold text; cbn [before after rev]; by rewrite <- app_assoc |]. intros s He H1 H2. cbn [before length] in *. rewrite length_text in H2. cbn [before after length] in H2.
        replace (col s - Z.of_nat (length b) + Z.of_nat (S (length b))) with (col s + 1) by lia. apply move_forward; (done || lia).
    + destruct a as [| x a]; [by apply follows_same | cbn [length] in HL; lia].
  - change (68 =? 67) with false. change (68 =? 68) with true. cbn iota. destruct (Z.ltb_spec 0 (cur e)).
    + destruct b as [| x b]; [cbn [length] in HC; lia |]. cbn [edit]. replace (cur e - 1) with (Z.of_nat (length (before (Zip b (x :: a))))) by (cbn in *; lia). apply Hf.
      * unfold text. cbn [before after rev]. by rewrite <- app_assoc.
      * apply draws_move; [unfold text; cbn [before after rev]; by rewrite <- app_assoc |]. intros s He H1 H2. cbn [before length] in *. rewrite length_text in H2. cbn [before after length] in H2.
        replace (col s - Z.of_nat (S (length b)) + Z.of_nat (length b)) with (col s - 1) by lia. apply move_back; (done || lia).
    + destruct b as [| x b]; [by apply follows_same | cbn [length] in HC; lia].
  - change (72 =? 67) with false. change (72 =? 68) with false. change (72 =? 72) with true. cbn iota. cbn [edit]. destruct (Z.ltb_spec 0 (cur e)).
    + apply (Hf (cur e) 68 (Zip [] (rev b ++ a))); [done |]. apply draws_move; [done |]. intros s He H1 H2. cbn [before length] in *. rewrite length_text in H2. cbn [before after length] in H2.
      rewrite HC. replace (col s - Z.of_nat (length b) + Z.of_nat 0) with (col s - Z.of_nat (length b)) by lia. apply move_back; (done || lia).
    + destruct b as [| x b]; [by apply follows_same | cbn [length] in HC; lia].
  - change (70 =? 67) with false. change (70 =? 68) with false. change (70 =? 72) with false. change (70 =? 70) with true. cbn iota. cbn [edit].
    assert (text (Zip (rev a ++ b) []) = text (Zip b a)) as Ht by (unfold text; cbn [before after]; by rewrite rev_app_distr, rev_involutive, app_nil_r). destruct (Z.ltb_spec (cur e) (len e)).
    + replace (len e) with (Z.of_nat (length (before (Zip (rev a ++ b) [])))) at 2 by (cbn [before]; rewrite length_app, length_rev; lia). apply Hf; [done |].
      apply draws_move; [done |]. intros s He H1 H2. cbn [before] in *. rewrite length_text in H2. cbn [before after] in H2. rewrite length_app, length_rev.
      replace (col s - Z.of_nat (length b) + Z.of_nat (length a + length b)) with (col s + (len e - cur e)) by lia. apply move_forward; (done || lia).
    + destruct a as [| x a]; [cbn [rev app]; by apply follows_same | cbn [length] in HL; lia].
Qed.

Lemma text_cons_before x b a : text (Zip (x :: b) a) = rev b ++ x :: a.
Proof. unfold text. cbn [before after rev]. by rewrite <- app_assoc. Qed.

(** Rubbing out the last character of the line. *)
Lemma draws_rubout x b : draws (Zip (x :: b) []) (Zip b []) [8; 32; 8].
Proof.
  intros attr c0 r0 s [E A SV [PR PC] (R & C & W) CE] _. rewrite length_text in W. cbn [before after length] in *. rewrite !write_cons. change (Vga.write [] ?y) with y.
  destruct (put_back s E ltac:(lia)) as (S1 & R1 & C1 & K1). cbv zeta in *. set (s1 := _put_char 8 s) in *. clearbody s1. pose proof S1 as (E1 & A1 & _).
  destruct (put_plain 32 s1 E1 ltac:(unfold printable; lia) ltac:(lia)) as (S2 & R2 & C2 & K2). cbv zeta in *. set (s2 := _put_char 32 s1) in *. clearbody s2. pose proof S2 as (E2 & A2 & _).
  destruct (put_back s2 E2 ltac:(lia)) as (S3 & R3 & C3 & K3). cbv zeta in *. set (s3 := _put_char 8 s2) in *. clearbody s3.
  pose proof (steady_trans _ _ _ (steady_trans _ _ _ S1 S2) S3) as (E' & A' & SR & SC). destruct SV.
  assert (length (text (Zip b [])) = length b) as Lt by (rewrite length_text; cbn; lia). split; try congruence.
  - split; congruence.
  - cbn [before]. split; [congruence | lia].
  - rewrite Lt. split; [done |]. lia.
  - intros y Hy. rewrite Lt. replace (cell s3 y r0) with (cell s3 y (row s2)) by congruence. rewrite K3 by lia. replace (cell s2 y (row s2)) with (cell s2 y (row s1)) by congruence. rewrite K2 by lia.
    replace (cell s1 y (row s1)) with (cell s1 y (row s)) by congruence. rewrite K1 by lia. rewrite A2, A1, A, PR, CE by lia. rewrite length_text. cbn [before after length]. rewrite text_cons_before. unfold text. cbn [before after]. rewrite app_nil_r.
    repeat case_decide; try lia; try done. f_equal. rewrite at_app_l by (rewrite length_rev; lia). done.
Qed.

(** Adding a character to the end of the line. *)
Lemma draws_append c b : printable c -> draws (Zip b []) (Zip (c :: b) []) [c].
Proof.
  intros Hc attr c0 r0 s [E A SV [PR PC] (R & C & W) CE] Hw. rewrite length_text in W, Hw. cbn [before after length] in *. rewrite !write_cons. change (Vga.write [] ?y) with y.
  destruct (put_plain c s E Hc ltac:(lia)) as (S1 & R1 & C1 & K1). cbv zeta in *. set (s1 := _put_char c s) in *. clearbody s1. destruct S1 as (E1 & A1 & SR & SC). destruct SV.
  assert (length (text (Zip (c :: b) [])) = S (length b)) as Lt by (rewrite length_text; cbn; lia). split; try congruence.
  - split; congruence.
  - cbn [before length]. split; [congruence | lia].
  - rewrite Lt. split; [done |]. lia.
  - intros y Hy. rewrite Lt, text_cons_before. replace (cell s1 y r0) with (cell s1 y (row s)) by congruence. rewrite K1 by lia. rewrite PR, CE, A by lia.
    rewrite length_text. cbn [before after length]. unfold text. cbn [before after]. rewrite app_nil_r. destruct (decide (y = col s)) as [Hy' |].
    + rewrite decide_True by lia. f_equal. rewrite at_app_r by (rewrite length_rev; lia). rewrite length_rev. replace (y - c0 - Z.of_nat (length b)) with 0 by lia. done.
    + repeat case_decide; try lia; try done. f_equal. rewrite at_app_l by (rewrite length_rev; lia). done.
Qed.

Lemma backspace_ok max e z : holds max e z -> follows max e (backspace e) z (edit max z KBack).
Proof.
  intros H. pose proof H as [HS HL HC HR HT HP]. destruct z as [b a]. rewrite length_text in HL. unfold backspace. cbn [edit before after] in *. destruct (Z.ltb_spec 0 (cur e)).
  - destruct b as [| x b]; [cbn [length] in HC; lia |]. cbn [tail length] in *. cbv zeta. rewrite text_cons_before in HT, HP. destruct (starts_remove (buf e) b x a HT) as [HT' HL'].
    replace (cur e - 1) with (Z.of_nat (length b)) by lia. replace (len e - 1) with (Z.of_nat (length b + length a)) by lia. set (b' := for_range _ _ _ (buf e)) in *. clearbody b'.
    assert (Forall printable (text (Zip b a))) as HP' by (unfold text; cbn [before after]; apply Forall_app in HP as [? HP]; apply Forall_cons_1 in HP as [_ ?]; apply Forall_app; done).
    assert (holds max (Editor b' (Z.of_nat (length b + length a)) (Z.of_nat (length b)) (out e)) (Zip b a)) as Hh.
    { split; cbn [buf len cur]; rewrite ?length_text; cbn [before after]; (done || lia). }
    case_match eqn:Ec; (split; [by destruct Hh; split |]); eexists; (split; [reflexivity |]).
    + apply Z.eqb_eq in Ec. destruct a as [| y a]; [apply draws_rubout | cbn [length] in Ec; lia].
    + apply draws_redraw; [rewrite length_text; done | done | done | done].
  - destruct b as [| x b]; [by apply follows_same | cbn [length] in HC; lia].
Qed.

Lemma delete_ok max e z : holds max e z -> follows max e (delete_key e) z (edit max z KDelete).
Proof.
  intros H. pose proof H as [HS HL HC HR HT HP]. destruct z as [b a]. rewrite length_text in HL. unfold delete_key. cbn [edit before after] in *. destruct (Z.ltb_spec (cur e) (len e)).
  - destruct a as [| x a]; [cbn [length] in HL; lia |]. cbn [tail length] in *. cbv zeta. destruct (starts_remove (buf e) b x a HT) as [HT' HL'].
    rewrite HC. replace (len e - 1) with (Z.of_nat (length b + length a)) by lia. set (b' := for_range _ _ _ (buf e)) in *. clearbody b'.
    assert (Forall printable (text (Zip b a))) as HP' by (unfold text in *; cbn [before after] in *; apply Forall_app in HP as [? HP]; apply Forall_cons_1 in HP as [_ ?]; apply Forall_app; done).
    split; [split; cbn [buf len cur emit]; rewrite ?length_text; cbn [before after]; (done || lia) |]. eexists. split; [reflexivity |]. apply draws_redraw; [rewrite length_text; done | done | done | done].
  - destruct a as [| x a]; [by apply follows_same | cbn [length] in HL; lia].
Qed.

Lemma insert_ok max e z c : holds max e z -> printable c -> follows max e (insert_char max c e) z (edit max z (KChar c)).
Proof.
  intros H Hc. pose proof H as [HS HL HC HR HT HP]. unfold insert_char. destruct z as [b a]. cbn [edit]. rewrite <- HL. destruct (Z.ltb_spec (len e) (max - 1)); [| by apply follows_same].
  rewrite length_text in HL. cbn [before after] in *. cbv zeta. destruct (starts_insert (buf e) b a c HT ltac:(lia)) as [HT' HL']. cbv zeta in *.
  rewrite HC. replace (len e) with (Z.of_nat (length b + length a)) by lia. set (b' := set_at _ _ c) in *. clearbody b'.
  assert (Forall printable (text (Zip (c :: b) a))) as HP' by (rewrite text_cons_before; unfold text in HP; cbn [before after] in HP; apply Forall_app in HP as [? ?]; apply Forall_app; split; [done | by constructor]).
  assert (length (text (Zip (c :: b) a)) = S (length b + length a)) as Lt by (rewrite length_text; cbn; lia).
  assert (forall o, holds max (Editor b' (Z.of_nat (length b + length a) + 1) (Z.of_nat (length b) + 1) o) (Zip (c :: b) a)) as Hh.
  { intros o. split; cbn [buf len cur]; rewrite ?Lt; cbn [before length]; try lia; [by rewrite text_cons_before | done]. }
  case_match eqn:Ec; (split; [apply Hh |]); eexists; (split; [reflexivity |]).
  - apply Z.eqb_eq in Ec. destruct a as [| y a]; [by apply draws_append | cbn [length] in Ec; lia].
  - apply draws_redraw; [rewrite Lt; lia | cbn [before length]; lia | by rewrite text_cons_before | done].
Qed.

Lemma key_ok max e z k : holds max e z -> (forall c, k = KChar c -> printable c) -> follows max e (apply_key max e k) z (edit max z k).
Proof.
  intros H Hk. destruct k; try (apply arrow_ok; [done | set_solver]); cbn [apply_key]; [by apply backspace_ok | by apply delete_ok | apply insert_ok; [done | by apply Hk]].
Qed.

(** ** The loop *)

Definition finish (e : editor) : editor := Editor (set_at (buf e) (len e) 0) (len e) (cur e) (out e ++ [13; 10]).

Lemma read_line_keys max junk ins e : read_line max junk ins e =
  match keys junk ins with Some (ks, rest) => Some (finish (foldl (apply_key max) e ks), rest) | None => None end.
Proof.
  remember (length ins) as n eqn:Hn. revert ins Hn e. induction n as [n IH] using lt_wf_ind. intros ins Hn e.
  assert (forall ins' e', (length ins' < n)%nat -> read_line max junk ins' e' = match keys junk ins' with Some (ks, rest) => Some (finish (foldl (apply_key max) e' ks), rest) | None => None end) as IH' by (intros; by eapply IH).
  clear IH. assert (forall k ins', (length ins' < n)%nat -> read_line max junk ins' (apply_key max e k) =
    match (match keys junk ins' with Some (ks, rest) => Some (k :: ks, rest) | None => None end) with Some (ks, rest) => Some (finish (foldl (apply_key max) e ks), rest) | None => None end) as Hk.
  { intros k ins' Hl. rewrite IH' by done. by destruct (keys junk ins') as [[ks rest] |]. }
  destruct ins as [| [c |] ins]; [done | | cbn; apply IH'; subst n; cbn; lia]. cbn [length] in Hn. cbn [read_line keys].
  destruct ((c =? 13) || (c =? 10)); [done |]. destruct ((c =? 8) || (c =? 127)); [apply (Hk KBack); lia |]. destruct (c =? ESC).
  - destruct ins as [| [s0 |] ins]; [done | | apply IH'; cbn in Hn; lia]. cbn [length] in Hn. destruct (negb (s0 =? 91)); [apply IH'; lia |].
    destruct ins as [| [s1 |] ins]; [done | | apply IH'; cbn in Hn; lia]. cbn [length] in Hn. destruct ((48 <=? s1) && (s1 <=? 57)).
    + destruct ins as [| t ins]; [done |]. cbn [length] in Hn. destruct ((s1 =? 51) && (default junk t =? 126)); [apply (Hk KDelete); lia | apply IH'; lia].
    + destruct (Z.eqb_spec s1 67) as [-> |]; [apply (Hk KRight); lia |]. destruct (Z.eqb_spec s1 68) as [-> |]; [apply (Hk KLeft); lia |].
      destruct (Z.eqb_spec s1 72) as [-> |]; [apply (Hk KHome); lia |]. destruct (Z.eqb_spec s1 70) as [-> |]; [apply (Hk KEnd); lia |].
      assert (arrow s1 e = e) as -> by (unfold arrow; cbv zeta; by rewrite !(proj2 (Z.eqb_neq s1 _)) by done). apply IH'. lia.
  - destruct (c <? 32); [apply IH'; lia | apply (Hk (KChar c)); lia].
Qed.

(** The characters typed are printable, and no more than were read. *)
Lemma keys_typed junk ins ks rest : Forall (fun x => -128 <= default 0 x < 128) ins -> keys junk ins = Some (ks, rest) ->
  Forall (fun k => forall c, k = KChar c -> printable c) ks /\ (length ks < length ins)%nat.
Proof.
  remember (length ins) as n eqn:Hn. revert ins Hn ks. induction n as [n IH] using lt_wf_ind. intros ins Hn ks Hf.
  assert (forall ins' ks', (length ins' < n)%nat -> Forall (fun x => -128 <= default 0 x < 128) ins' -> keys junk ins' = Some (ks', rest) ->
    Forall (fun k => forall c, k = KChar c -> printable c) ks' /\ (length ks' < n)%nat) as IH'.
  { intros ins' ks' Hl Hf' Hk. destruct (IH (length ins') Hl ins' eq_refl ks' Hf' Hk). split; [done | lia]. }
  assert (forall k ins', (S (length ins') <= n)%nat -> Forall (fun x => -128 <= default 0 x < 128) ins' -> (forall c, k = KChar c -> printable c) ->
    match keys junk ins' with Some (ks, rest) => Some (k :: ks, rest) | None => None end = Some (ks, rest) -> Forall (fun k => forall c, k = KChar c -> printable c) ks /\ (length ks < n)%nat) as Hk.
  { intros k ins' Hl Hf' Hp He. destruct (keys junk ins') as [[ks' rest'] |] eqn:Ek; [| done]. injection He as <- ->. destruct (IH (length ins') ltac:(lia) ins' eq_refl ks' Hf' Ek) as [H1 H2].
    split; [by constructor | cbn; lia]. }
  clear IH. destruct ins as [| [c |] ins]; [done | | apply Forall_cons_1 in Hf as [_ Hf]; cbn; apply IH'; [cbn in Hn; lia | done]].
  apply Forall_cons_1 in Hf as [Hc Hf]. cbn [from_option id] in Hc. cbn [length] in Hn. cbn [keys]. destruct ((c =? 13) || (c =? 10)); [intros [= <- ->]; split; [constructor | cbn; lia] |].
  destruct (Z.eqb_spec c 8), (Z.eqb_spec c 127); cbn [orb]; try (apply Hk; [lia | done | done]). destruct (c =? ESC).
  - destruct ins as [| [s0 |] ins]; [done | | apply Forall_cons_1 in Hf as [_ Hf]; apply IH'; [cbn in Hn; lia | done]]. apply Forall_cons_1 in Hf as [_ Hf]. cbn [length] in Hn. destruct (negb (s0 =? 91)); [apply IH'; [lia | done] |].
    destruct ins as [| [s1 |] ins]; [done | | apply Forall_cons_1 in Hf as [_ Hf]; apply IH'; [cbn in Hn; lia | done]]. apply Forall_cons_1 in Hf as [_ Hf]. cbn [length] in Hn. destruct ((48 <=? s1) && (s1 <=? 57)).
    + destruct ins as [| t ins]; [done |]. apply Forall_cons_1 in Hf as [_ Hf]. cbn [length] in Hn. destruct ((s1 =? 51) && (default junk t =? 126)); [apply Hk; [lia | done | done] | apply IH'; [lia | done]].
    + repeat (case_match; [apply Hk; [lia | done | done] |]). apply IH'; [lia | done].
  - destruct (Z.ltb_spec c 32); [apply IH'; [lia | done] |]. apply Hk; [lia | done |]. intros c' [= <-]. unfold printable. lia.
Qed.

Lemma edit_grows max z k : (length (text (edit max z k)) <= S (length (text z)))%nat.
Proof.
  destruct z as [b a]. rewrite !length_text. destruct k; cbn [edit before after]; try (destruct b; cbn; lia); try (destruct a; cbn; lia); cbn [before after length]; try (rewrite ?length_app, ?length_rev; lia).
  case_match; cbn; lia.
Qed.

(** The whole series. *)
Lemma keys_ok max ks e z : holds max e z -> Forall (fun k => forall c, k = KChar c -> printable c) ks ->
  let e' := foldl (apply_key max) e ks in let z' := foldl (edit max) z ks in holds max e' z' /\ exists o, out e' = out e ++ o /\
  forall attr c0 r0 s, shows attr c0 r0 z s -> c0 + Z.of_nat (length (text z)) + Z.of_nat (length ks) < WIDTH -> shows attr c0 r0 z' (Vga.write o s).
Proof.
  intros H Hk. revert e z H. induction Hk as [| k ks Hc _ IH]; intros e z H; cbn [foldl length].
  - split; [done |]. exists []. split; [by rewrite app_nil_r |]. intros attr c0 r0 s Hs _. exact Hs.
  - destruct (key_ok max e z k H Hc) as (H1 & o1 & E1 & D1). destruct (IH _ _ H1) as (H2 & o2 & E2 & D2). split; [done |]. exists (o1 ++ o2). split; [by rewrite E2, E1, app_assoc |].
    intros attr c0 r0 s Hs Hw. pose proof (edit_grows max z k). rewrite write_app. apply D2; [apply D1; [done | lia] | lia].
Qed.

Lemma until_nul_app t l : Forall printable t -> until_nul (t ++ 0 :: l) = t.
Proof. induction 1 as [| c t Hc _ IH]; [done |]. cbn [app until_nul]. unfold printable in Hc. rewrite (proj2 (Z.eqb_neq c 0)), IH by lia. done. Qed.

Lemma finish_string max e z : holds max e z -> str_at (buf (finish e)) 0 = text z.
Proof.
  intros [HS HL HC HR HT HP]. unfold str_at, finish. cbn [buf]. change (drop (Z.to_nat 0) ?l) with l. unfold set_at. rewrite HL, Nat2Z.id.
  rewrite insert_take_drop by lia. rewrite (starts_take _ _ HT). by apply until_nul_app.
Qed.


(** A row of blanks with the prompt's saved position at its start. *)
Definition demo_row : Vga.state := blank_row 0 WIDTH demo.

Lemma demo_shows : shows 7 0 0 (Zip [] []) demo_row.
Proof.
  assert (forall x, 0 <= x < WIDTH -> cell demo_row x 0 = blank 7) as Hc by (intros x Hx; destruct (blank_row_spec 0 demo x ltac:(done) Hx) as [H _]; rewrite decide_True in H by lia; exact H).
  destruct (blank_row_spec 0 demo 0 ltac:(done) ltac:(done)) as (_ & H1 & H2 & H3 & H4 & H5 & H6). cbv zeta in *. fold demo_row in H1, H2, H3, H4, H5, H6.
  split; [done | done | done | done | done |]. intros x Hx. cbn [text before after length rev app]. rewrite decide_False by lia. by apply Hc.
Qed.

(** [lx], left, [s], return. *)
Definition demo_keys : list (option Z) := Some <$> [108; 120; 27; 91; 68; 115; 13].

