(* ===== verification/ShellArgs.v ===== *)
(** * The shell's argument parser

    [parse_args] splits a line into its words; the strings and numbers of the program. *)
From Stdlib Require Import String.
From S2P Require Import Prelude Monad Bytes Vga Ports Serial Shell ShellEdit.

(** ** The words of a line *)

Fixpoint words (w str : list Z) : list (list Z) :=
  match str with
  | [] => if bool_decide (w = []) then [] else [w]
  | c :: str' => if c =? 32 then if bool_decide (w = []) then words [] str' else w :: words [] str' else words (w ++ [c]) str'
  end.

(** The longest part that satisfies [P] and the rest. *)
Fixpoint span (P : Z -> bool) (l : list Z) : list Z * list Z :=
  match l with
  | [] => ([], [])
  | x :: l' => if P x then (x :: (span P l').1, (span P l').2) else ([], l)
  end.

Lemma span_spec P l : l = (span P l).1 ++ (span P l).2 /\ Forall (fun x => P x = true) (span P l).1 /\ match (span P l).2 with [] => True | x :: _ => P x = false end.
Proof.
  induction l as [| x l (IH1 & IH2 & IH3)]; [done |]. cbn [span]. destruct (P x) eqn:Ex; cbn [fst snd]; [| by split; [| split; [constructor |]]].
  split; [cbn; by rewrite <- IH1 |]. split; [by constructor | done].
Qed.

Lemma scan_span n P pre a b : Forall (fun x => P x = true) a -> match b with [] => False | x :: _ => P x = false end -> (length a < n)%nat ->
  scan n P (pre ++ a ++ b) (Z.of_nat (length pre)) = Z.of_nat (length pre + length a).
Proof.
  intros Ha Hb. revert n pre. induction Ha as [| x a Hx _ IH]; intros n pre Hn; (destruct n as [| n]; [cbn [length] in Hn; lia |]); cbn [scan].
  - destruct b as [| y b]; [done |]. rewrite at_app_r by lia. rewrite Z.sub_diag. change (at_index ([] ++ y :: b) 0) with y. rewrite Hb. f_equal. cbn. lia.
  - rewrite at_app_r by lia. rewrite Z.sub_diag. change (at_index ((x :: a) ++ b) 0) with x. rewrite Hx.
    replace (pre ++ (x :: a) ++ b) with ((pre ++ [x]) ++ a ++ b) by (by rewrite <- app_assoc). replace (Z.of_nat (length pre) + 1) with (Z.of_nat (length (pre ++ [x]))) by (rewrite length_app; cbn; lia).
    rewrite IH by (cbn in Hn; lia). rewrite length_app. cbn. lia.
Qed.

Lemma words_spaces a str : Forall (fun x => (x =? 32) = true) a -> words [] (a ++ str) = words [] str.
Proof. induction 1 as [| x a Hx _ IH]; [done |]. cbn [app words]. by rewrite Hx, bool_decide_eq_true_2. Qed.

Lemma words_word w str w0 : Forall (fun x => (x =? 32) = false) w -> words w0 (w ++ str) = words (w0 ++ w) str.
Proof.
  intros Hw. revert w0. induction Hw as [| x w Hx _ IH]; intros w0; [by rewrite app_nil_r |]. cbn [app words]. rewrite Hx, IH. by rewrite <- app_assoc.
Qed.

Lemma str_at_word pre w tl : Forall (fun c => c <> 0) w -> str_at (pre ++ w ++ 0 :: tl) (Z.of_nat (length pre)) = w.
Proof.
  intros Hw. unfold str_at. rewrite Nat2Z.id, drop_app_length. induction Hw as [| c w Hc _ IH]; [done |]. cbn [app until_nul]. by rewrite (proj2 (Z.eqb_neq c 0) Hc), IH.
Qed.

Lemma at_head (pre l : list Z) x : at_index (pre ++ x :: l) (Z.of_nat (length pre)) = x.
Proof. rewrite at_app_r by lia. by rewrite Z.sub_diag. Qed.

Lemma set_middle (pre : list Z) x y l : set_at (pre ++ x :: l) (Z.of_nat (length pre)) y = pre ++ y :: l.
Proof. unfold set_at. rewrite Nat2Z.id. by rewrite insert_app_r_alt, Nat.sub_diag by lia. Qed.

(** Spaces, a word, and then the end of the line or another space. *)
Definition spaces (l : list Z) : Prop := Forall (fun x => (x =? 32) = true) l.
Definition wordy (w : list Z) : Prop := w <> [] /\ Forall (fun c => negb (c =? 0) && negb (c =? 32) = true) w.

Lemma line_cases str : Forall (fun c => c <> 0) str ->
  spaces str \/ exists sp w r, spaces sp /\ wordy w /\ (str = sp ++ w /\ r = [] \/ str = sp ++ w ++ 32 :: r) /\ Forall (fun c => c <> 0) r.
Proof.
  intros Hs. destruct (span_spec (fun c => c =? 32) str) as (E1 & F1 & G1). set (sp := (span _ str).1) in *. set (s1 := (span _ str).2) in *. clearbody sp s1.
  destruct s1 as [| c1 s1]; [left; by rewrite E1, app_nil_r |]. right. rewrite E1 in Hs. apply Forall_app in Hs as [_ Hs]. pose proof Hs as Hs'. apply Forall_cons_1 in Hs' as [Hc1 _].
  destruct (span_spec (fun c => negb (c =? 0) && negb (c =? 32)) (c1 :: s1)) as (E2 & F2 & G2).
  assert ((span (fun c => negb (c =? 0) && negb (c =? 32)) (c1 :: s1)).1 <> []) as Hne by (cbn [span]; rewrite G1, (proj2 (Z.eqb_neq c1 0) Hc1); done).
  set (w := (span _ (c1 :: s1)).1) in *. set (r := (span _ (c1 :: s1)).2) in *. clearbody w r. rewrite E2 in Hs. apply Forall_app in Hs as [_ Hr]. exists sp, w. destruct r as [| c2 r].
  - exists []. rewrite app_nil_r in E2. split; [done |]. split; [done |]. split; [left; by rewrite E1, E2 | done].
  - apply Forall_cons_1 in Hr as [Hc2 Hr]. exists r. split; [done |]. split; [done |]. split; [| done]. right. rewrite (proj2 (Z.eqb_neq c2 0) Hc2) in G2. cbn in G2. apply negb_false_iff, Z.eqb_eq in G2. by rewrite E1, E2, G2.
Qed.

Lemma wordy_plain w : wordy w -> Forall (fun x => (x =? 32) = false) w /\ Forall (fun c => c <> 0) w.
Proof.
  intros [_ Hw]. split; (eapply Forall_impl; [exact Hw |]); intros x Hx; cbn in Hx; destruct (Z.eqb_spec x 0), (Z.eqb_spec x 32); done.
Qed.

Lemma parse_stop fuel pre l argv max : parse_loop fuel (pre ++ 0 :: l) (Z.of_nat (length pre)) argv max = (pre ++ 0 :: l, argv).
Proof. destruct fuel; [done |]. cbn [parse_loop]. by rewrite at_head. Qed.

(** A turn of the loop: at spaces before the end, and at a word. *)
Lemma parse_spaces fuel pre sp post argv max : spaces sp -> parse_loop (S fuel) (pre ++ sp ++ 0 :: post) (Z.of_nat (length pre)) argv max = (pre ++ sp ++ 0 :: post, argv).
Proof.
  intros Hs. cbn [parse_loop]. destruct (negb _ && _); [| done]. rewrite (scan_span _ _ pre sp (0 :: post)); [| done | done | rewrite !length_app; cbn; lia].
  rewrite app_assoc. replace (Z.of_nat (length pre + length sp)) with (Z.of_nat (length (pre ++ sp))) by (rewrite length_app; lia). by rewrite at_head.
Qed.

Lemma parse_word fuel pre sp w b l argv max : spaces sp -> wordy w -> b = 0 \/ b = 32 -> Z.of_nat (length argv) < max ->
  let line := pre ++ sp ++ w ++ b :: l in let p := Z.of_nat (length (pre ++ sp ++ w)) in let argv' := argv ++ [Z.of_nat (length (pre ++ sp))] in
  parse_loop (S fuel) line (Z.of_nat (length pre)) argv max = if b =? 0 then parse_loop fuel line p argv' max else parse_loop fuel (set_at line p 0) (p + 1) argv' max.
Proof.
  intros Hs Hw Hb Hm. cbv zeta. pose proof (wordy_plain w Hw) as [_ Hw0]. destruct Hw as [Hne Hw]. cbn [parse_loop].
  assert (at_index (pre ++ sp ++ w ++ b :: l) (Z.of_nat (length pre)) =? 0 = false) as ->.
  { destruct sp as [| x sp]; cbn [app]; [destruct w as [| y w]; [done |]; cbn [app]; rewrite at_head; apply Forall_cons_1 in Hw0 as [? _]; by apply Z.eqb_neq |].
    rewrite at_head. apply Forall_cons_1 in Hs as [Hx _]. by destruct (Z.eqb_spec x 32) as [-> |]. }
  rewrite (proj2 (Z.ltb_lt _ _) Hm). cbn [negb andb].
  rewrite (scan_span _ _ pre sp (w ++ b :: l)); [| done | destruct w as [| y w]; [done |]; cbn [app]; apply Forall_cons_1 in Hw as [Hy _]; by destruct (y =? 32); rewrite ?andb_false_r in Hy | rewrite !length_app; cbn; lia].
  replace (Z.of_nat (length pre + length sp)) with (Z.of_nat (length (pre ++ sp))) by (rewrite length_app; lia). rewrite (app_assoc pre sp).
  assert (at_index ((pre ++ sp) ++ w ++ b :: l) (Z.of_nat (length (pre ++ sp))) =? 0 = false) as ->.
  { destruct w as [| y w]; [done |]. cbn [app]. rewrite at_head. apply Forall_cons_1 in Hw0 as [? _]. by apply Z.eqb_neq. }
  rewrite (scan_span _ _ (pre ++ sp) w (b :: l)); [| done | by destruct Hb as [-> | ->] | rewrite !length_app; cbn; lia].
  replace (Z.of_nat (length (pre ++ sp) + length w)) with (Z.of_nat (length (pre ++ sp ++ w))) by (rewrite !length_app; lia).
  assert (at_index ((pre ++ sp) ++ w ++ b :: l) (Z.of_nat (length (pre ++ sp ++ w))) = b) as -> by (rewrite (app_assoc (pre ++ sp) w), <- (app_assoc pre sp w); apply at_head).
  by destruct (b =? 0).
Qed.

(** The loop from position [length pre] of a line with the text [str] left. *)
Lemma parse_words fuel pre str post argv max : Forall (fun c => c <> 0) str -> (length str < fuel)%nat ->
  exists tl new, parse_loop fuel (pre ++ str ++ 0 :: post) (Z.of_nat (length pre)) argv max = (pre ++ tl, argv ++ new) /\ length tl = length (str ++ 0 :: post) /\
    map (str_at (pre ++ tl)) new = take (Z.to_nat (max - Z.of_nat (length argv))) (words [] str).
Proof.
  revert pre str argv. induction fuel as [| fuel IH]; intros pre str argv Hs Hf; [lia |]. destruct (Z.lt_ge_cases (Z.of_nat (length argv)) max) as [Hm | Hm].
  2: { exists (str ++ 0 :: post), []. rewrite app_nil_r. replace (Z.to_nat (max - Z.of_nat (length argv))) with 0%nat by lia. split; [| done]. cbn [parse_loop]. by rewrite (proj2 (Z.ltb_ge _ _) Hm), andb_false_r. }
  destruct (line_cases str Hs) as [Hsp | (sp & w & r & Hsp & Hw & Hstr & Hr)].
  - exists (str ++ 0 :: post), []. rewrite app_nil_r, parse_spaces by done. split; [done |]. split; [done |]. pose proof (words_spaces str [] Hsp) as Hws. rewrite app_nil_r in Hws. rewrite Hws. cbn [words]. rewrite bool_decide_eq_true_2 by done. by rewrite take_nil.
  - destruct (wordy_plain w Hw) as [Hw32 Hw0]. pose proof Hw as [Hne _]. replace (Z.to_nat (max - Z.of_nat (length argv))) with (S (Z.to_nat (max - Z.of_nat (length (argv ++ [Z.of_nat (length (pre ++ sp))]))))) by (rewrite length_app; cbn; lia).
    destruct Hstr as [[-> _] | ->].
    + exists ((sp ++ w) ++ 0 :: post), [Z.of_nat (length (pre ++ sp))]. rewrite <- !app_assoc, parse_word by (done || by left). change (0 =? 0) with true. cbn iota. split; [| split; [done |]].
      * rewrite !app_assoc. apply parse_stop.
      * rewrite words_spaces by done. rewrite <- (app_nil_r w) at 2. rewrite words_word by done. cbn [app words]. rewrite bool_decide_eq_false_2 by done. cbn [take map]. rewrite take_nil.
        rewrite (app_assoc pre sp). by rewrite str_at_word.
    + set (pre1 := pre ++ sp ++ w ++ [0]). assert (length (sp ++ w ++ 32 :: r) = (length sp + length w + S (length r))%nat) as Hlen by (rewrite !length_app; cbn; lia).
      destruct (IH pre1 r (argv ++ [Z.of_nat (length (pre ++ sp))]) Hr ltac:(lia)) as (tl & new & E & L & M).
      exists (sp ++ w ++ [0] ++ tl), (Z.of_nat (length (pre ++ sp)) :: new). rewrite <- !app_assoc. cbn [app]. rewrite parse_word by (done || by right). change (32 =? 0) with false. cbn iota.
      replace (pre ++ sp ++ w ++ 32 :: r ++ 0 :: post) with ((pre ++ sp ++ w) ++ 32 :: r ++ 0 :: post) by (by rewrite <- !app_assoc). rewrite set_middle.
      replace ((pre ++ sp ++ w) ++ 0 :: r ++ 0 :: post) with (pre1 ++ r ++ 0 :: post) by (unfold pre1; by rewrite <- !app_assoc).
      replace (Z.of_nat (length (pre ++ sp ++ w)) + 1) with (Z.of_nat (length pre1)) by (unfold pre1; rewrite !length_app; cbn; lia). rewrite E.
      assert (pre1 ++ tl = pre ++ sp ++ w ++ 0 :: tl) as Ep by (unfold pre1; by rewrite <- !app_assoc). rewrite Ep in *. split; [by rewrite <- app_assoc |].
      split; [rewrite !length_app in *; cbn in *; rewrite !length_app in *; cbn in *; lia |].
      rewrite words_spaces, words_word by done. cbn [app words]. change (32 =? 32) with true. cbn iota. rewrite bool_decide_eq_false_2 by done. cbn [take map]. f_equal; [| exact M].
      rewrite (app_assoc pre sp). by rewrite str_at_word.
Qed.

(** C40: [parse_args] splits a line at its spaces: whatever the line, the strings that [argv]
    points to afterwards are its words, in order, up to the given number of them; the
    line keeps its length. *)
Theorem args_parsed str post max : Forall (fun c => c <> 0) str -> let '(line', argv) := parse_args (str ++ 0 :: post) max in
  map (str_at line') argv = take (Z.to_nat max) (words [] str) /\ length line' = length (str ++ 0 :: post).
Proof.
  intros Hs. unfold parse_args. destruct (parse_words (S (length (str ++ 0 :: post))) [] str post [] max Hs) as (tl & new & E & L & M); [rewrite length_app; lia |].
  cbn [app length] in *. change (Z.of_nat 0) with 0 in *. rewrite E. split; [| done]. by rewrite Z.sub_0_r in M.
Qed.

Lemma args_parsed_witness : let '(line', argv) := parse_args (txt "  write  a.txt hello " ++ [0; 7]) 16 in
  map (str_at line') argv = [txt "write"; txt "a.txt"; txt "hello"].
Proof.
  pose proof (args_parsed (txt "  write  a.txt hello ") [7] 16) as H. change (txt "  write  a.txt hello " ++ [0; 7]) with (txt "  write  a.txt hello " ++ 0 :: [7]).
  destruct (parse_args (txt "  write  a.txt hello " ++ 0 :: [7]) 16) as [line' argv]. destruct H as [H _]; [repeat constructor; discriminate |]. exact H.
Defined.

(** ** Strings and numbers *)

Lemma strcmp_eq a b : Forall (fun c => c <> 0) a -> Forall (fun c => c <> 0) b -> (strcmp a b =? 0) = bool_decide (a = b).
Proof.
  intros Ha. revert b. induction Ha as [| x a Hx _ IH]; intros b Hb; destruct Hb as [| y b Hy Hb]; cbn [strcmp]; [done | | |].
  - rewrite bool_decide_eq_false_2 by done. apply Z.eqb_neq. lia.
  - rewrite bool_decide_eq_false_2 by done. by apply Z.eqb_neq.
  - destruct (Z.eqb_spec x y) as [-> | Hne].
    + rewrite IH by done. apply bool_decide_ext. split; [by intros -> | by intros [= ->]].
    + rewrite bool_decide_eq_false_2 by (by intros [= ? ?]). apply Z.eqb_neq. lia.
Qed.

(** A number is printed, but for the least one, of which only the sign is. *)
Lemma dec_digits_loop i n acc : 0 <= n -> dec_digits i n acc = dec_loop i n acc.
Proof.
  revert n acc. induction i as [| i IH]; intros n acc Hn; [done |]. cbn [dec_digits dec_loop]. destruct (Z.ltb_spec 0 n), (Z.eqb_spec n 0); try lia; [apply IH; divlia | done].
Qed.

Lemma print_dec_spec n : - 2 ^ 63 < n < 2 ^ 63 -> exists ds, print_dec n = (if n <? 0 then [45] else []) ++ ds /\ parse_dec ds = Z.abs n /\ Forall digit ds.
Proof.
  intros Hn. unfold print_dec. cbv zeta. assert ((if n <? 0 then i64 (- n) else n) = Z.abs n) as -> by (destruct (Z.ltb_spec n 0); [rewrite i64_small by lia; lia | lia]).
  destruct (Z.eqb_spec (Z.abs n) 0) as [E | E].
  - exists [48]. split; [done |]. split; [by rewrite E |]. constructor; [unfold digit; lia | constructor].
  - exists (dec_digits 32 (Z.abs n) []). split; [done |]. rewrite dec_digits_loop by lia. split; [| apply dec_loop_digits; [lia | constructor]].
    unfold parse_dec. rewrite dec_loop_value; [done |]. change (10 ^ Z.of_nat 32) with 100000000000000000000000000000000. lia.
Qed.

Example least_number_printed : print_dec (- 2 ^ 63) = [45].
Proof. reflexivity. Qed.
