(* ===== verification/UserInit.v ===== *)
(** * init.c: the first user program

    Over the system calls of [Shell]; the mode that [mkdir] ignores is left out. *)
From Stdlib Require Import String.
From S2P Require Import Prelude Monad Bytes Vga Ports Serial Shell.

Section init.
Context {W : Type} `{!Kernel W}.

Definition write_str (s : list Z) : St W unit := puts s.

(** [while (n > 0)] fills the buffer of 20 from its end; a [long] has at most 19 digits. *)
Definition write_long (n : Z) : St W unit :=
  when (n <? 0) (write_fd 1 [45]) ;;
  let n := if n <? 0 then i64 (- n) else n in
  if n =? 0 then write_fd 1 [48] else write_fd 1 (dec_digits 19 n []).

Definition maybe_mkdir (path : list Z) : St W unit := call (sys_mkdir path) ;; skip.

Definition write_file (path content : list Z) : St W unit :=
  fd ← call (sys_open path (O_CREAT .| O_TRUNC .| 2));
  if 3 <=? fd then write_fd fd content ;; call (sys_close fd) ;; skip
  else write_str (txt "Failed to open file: ") ;; write_str path ;; write_str (txt "; Error nr: ") ;; write_long (i64 (- fd)) ;; write_str [10].

(** [_start] up to the call of [exit]. *)
Definition start : St W unit :=
  write_str (txt "[init] starting setup" ++ [10]) ;;
  maybe_mkdir (txt "/disk/etc") ;;
  maybe_mkdir (txt "/disk/tmp") ;;
  maybe_mkdir (txt "/disk/var") ;;
  maybe_mkdir (txt "/disk/var/log") ;;
  maybe_mkdir (txt "/disk/home") ;;
  write_file (txt "/disk/etc/motd") (txt "Welcome to Knail." ++ [10]) ;;
  write_file (txt "/disk/etc/profile") (txt "PATH=/disk" ++ [10] ++ txt "TERM=knail" ++ [10]) ;;
  write_file (txt "/disk/var/log/boot.log") (txt "Knail init completed bootstrap." ++ [10]) ;;
  '(r, cwd) ← (fun w => let '(r, b, w) := sys_getcwd 64 w in Some ((r, b), w));
  when (0 <=? r) (write_str (txt "[init] cwd=") ;; write_str (until_nul cwd) ;; write_str [10]) ;;
  call (sys_chdir (txt "/")) ;;
  write_str (txt "[init] setup done, exiting" ++ [10]).

(** The program makes its calls and comes to its end whatever they return. *)
Lemma start_ends w : exists w', start w = Some (tt, w').
Proof.
  assert (forall m1 m2 : St W unit, (forall w, exists w', m1 w = Some (tt, w')) -> (forall w, exists w', m2 w = Some (tt, w')) -> forall w, exists w', (m1 ;; m2) w = Some (tt, w')) as Hb.
  { intros m1 m2 H1 H2 w0. destruct (H1 w0) as [w1 E1]. destruct (H2 w1) as [w2 E2]. exists w2. unfold mbind, St_bind. by rewrite E1. }
  assert (forall fd s w, exists w', write_fd fd s w = Some (tt, w')) as Hw by (intros; unfold write_fd, call; step_st; destruct (sys_write _ _ _); by eexists).
  assert (forall s w, exists w', write_str s w = Some (tt, w')) as Hs by (intros; apply Hw).
  assert (forall w, exists w', (skip : St W unit) w = Some (tt, w')) as Hk by (intros w0; by exists w0).
  assert (forall b (m : St W unit), (forall w, exists w', m w = Some (tt, w')) -> forall w, exists w', when b m w = Some (tt, w')) as Hwhen by (intros [] m Hm w0; [apply Hm | apply Hk]).
  assert (forall n w, exists w', write_long n w = Some (tt, w')) as Hl by (intros n; unfold write_long; apply Hb; [apply Hwhen, Hw | cbv zeta; case_match; apply Hw]).
  assert (forall p w, exists w', maybe_mkdir p w = Some (tt, w')) as Hm by (intros; unfold maybe_mkdir, call; step_st; destruct (sys_mkdir _ _); by eexists).
  assert (forall p t w, exists w', write_file p t w = Some (tt, w')) as Hf.
  { intros p t w0. unfold write_file. unfold mbind at 1, St_bind at 1, call at 1. destruct (sys_open _ _ _) as [fd w1]. cbv beta iota. destruct (3 <=? fd).
    - apply Hb; [apply Hw |]. intros w2. unfold call. step_st. destruct (sys_close _ _). by eexists.
    - revert w1. do 4 (apply Hb; [first [apply Hs | apply Hl] |]). apply Hs. }
  unfold start. revert w. repeat (apply Hb; [solve [auto] |]). intros w. unfold mbind at 1, St_bind at 1. destruct (sys_getcwd 64 w) as [[r b] w1]. cbv beta iota. revert w1.
  apply Hb; [apply Hwhen; repeat apply Hb; auto |]. intros w2. unfold mbind, St_bind, call. destruct (sys_chdir _ _) as [r2 w3]. apply Hs.
Qed.
End init.
