(* ===== verification/Launch.v ===== *)
(** * kernel/main.cpp: the kernel's entry

    The reports of [kernel_main], its handlers of spurious interrupts, and the launch
    of the first two programs: [elf::load] followed by [sched::spawn_elf], twice.  The
    theorem follows a program from the bytes of its file to the memory of its task. *)
From Stdlib Require Import String.
From S2P Require Import Prelude Ring Bytes Alloc Paging.
From S2P Require Import Vfs VfsTree FdTable Sched SchedRun Syscall SyscallRun VfsCalls Monad Spawn Ports Serial.
From S2P Require Vga Pmm Vmm Elf UserStack Irq.
Import UserStack (STACK_BUF_SIZE, strings).
Import Elf (file_data, file_size, entry, segments).

(** ** Reports and spurious interrupts *)

Definition MULTIBOOT2_MAGIC : Z := 0x36D76289.

Definition spurious_irq7 {D} `{!Ports D} (d : D) : D := Irq.Pic.eoi 7 d.
Definition spurious_irq15 {D} `{!Ports D} (d : D) : D := Irq.Pic.eoi 15 d.

Definition klog (msg : list Z) : list call := [VLine msg; SLine msg].

Definition banner : list call :=
  [SLine (txt "--- Knail boot ---"); VColor Vga.LightCyan Vga.Black;
   VLine (txt "  _  __              _ _"); VLine (txt " | |/ /_ __   __ _  (_) |"); VLine (txt " | ' /| '_ \ / _` | | | |");
   VLine (txt " | . \| | | | (_| | | | |"); VLine (txt " |_|\_\_| |_|\__,_| |_|_|"); VLine (txt "");
   VColor Vga.White Vga.Black; VLine (txt "Knail v0.1.0  [x86-64]"); VLine (txt "----------------------")].

Definition multiboot_report (mb2_magic mb2_info : Z) : list call :=
  if mb2_magic =? MULTIBOOT2_MAGIC then
    [VColor Vga.LightGreen Vga.Black; VText (txt "[OK] Multiboot2  info="); VHex mb2_info; VLine (txt "")]
  else [VColor Vga.LightRed Vga.Black; VText (txt "[!!] Bad magic: "); VHex mb2_magic; VLine (txt "")].

Definition memory_report (s : Pmm.Stats) : list call :=
  [VColor Vga.LightGreen Vga.Black; VText (txt "[OK] PMM  "); VDec (Pmm.s_total_bytes s / (1024 * 1024)); VText (txt " MiB  free=");
   VDec (u64 (Pmm.s_free_frames s * 4)); VLine (txt " KiB")].

(** ** Programs *)

Section launch.
Context {H : Type} `{!Allocator H} `{!Paging H}.
Variable raw : Z -> Task.
Variable foreign_read : Z -> Z -> Z -> Vfs.M (H := H) (kResult (list Z)).
Variable foreign_close : Z -> Vfs.M (H := H) unit.
Variable foreign_create : Z -> list Z -> Z -> Vfs.M (H := H) Z.

#[local] Abbreviation kstate := (Syscall.kstate (H := H)).
#[local] Abbreviation vstate := (Vfs.state H).
#[local] Abbreviation load := (Elf.load foreign_read foreign_close foreign_create).

(** Load the file and start it; no value when it cannot be loaded. *)
Definition start (path nm : list Z) (argv : option strings) (argc : Z) (envp : option strings) (envc : Z) : St kstate (option (kResult Z)) :=
  img ← on_fs (load path);
  match img with
  | Err _ => mret None
  | Ok img => r ← spawn_elf raw foreign_create img nm argv argc envp envc; mret (Some r)
  end.

Definition program_env : option strings := Some [Some (txt "PATH=/disk"); Some (txt "TERM=knail"); None].

(** The body of [do { ... } while (0)]; the value is what it prints. *)
Definition launch : St kstate (list call) :=
  init_tid ← start (txt "/disk/init") (txt "init") (Some [Some (txt "init"); None]) 1 program_env 2;
  match init_tid with
  | None => mret [SLine (txt "[!!] Failed to load init")]
  | Some r =>
      let failed := if is_err r then [VLine (txt "[!!] Failed to start init")] else [] in
      shell_tid ← start (txt "/disk/shell") (txt "shell") (Some [Some (txt "shell"); None]) 1 program_env 2;
      match shell_tid with
      | None => mret (failed ++ [SLine (txt "[!!] Failed to load shell")])
      | Some r => mret (failed ++ (if is_err r then [VLine (txt "[!!] Failed to start shell")] else []))
      end
  end.

(** ** A file of the RAM file system, from its bytes to the loader's buffer *)

#[local] Existing Instance Vfs.M_bind.
Ltac run_in X := unfold upd_node, upd_fd, mbind, Vfs.M_bind, Vfs.bind, Vfs.get, Vfs.modify, Vfs.ret, mbind, option_bind in X; cbv beta iota zeta in X.

Lemma open_reads base (s : vstate) path n : fs_from base s -> resolve_internal path s = Some n -> n <> 0 -> is_Some (nodes s !! n) ->
  exists r s', Vfs.open foreign_create path O_READ s = Some (r, s') /\ fs_from base s' /\ same_tree s s' /\ bytes s' = bytes s /\
    match r with
    | Ok f => fds s !! f = None /\ fds s' = <[f := Fd n 0 (open_flags O_READ) 0]> (fds s) /\ exists c, nd s' n = set_refcount c (nd s n)
    | Err e => fds s' = fds s
    end.
Proof.
  intros Hfs Hres H0 Hn. destruct (open_found foreign_create base s path O_READ n Hfs Hres H0 Hn) as (r & s' & Hrun & Hfs' & Hst & Hr).
  exists r, s'. split; [done |]. split; [done |]. split; [done |].
  unfold Vfs.open, open_node, Vfs.lookup, Vfs.new_fd, Vfs.malloc in Hrun. run_in Hrun. rewrite Hres in Hrun. cbv beta iota in Hrun.
  rewrite (proj2 (Z.eqb_neq n 0)) in Hrun by done. cbv beta iota in Hrun. change (has O_READ O_TRUNC) with false in Hrun. cbn [andb] in Hrun. cbv beta iota in Hrun.
  destruct (kmalloc _ _) as [[f h] |]; [| done]. cbv beta iota in Hrun. destruct (f =? 0).
  - injection Hrun as <- <-. split; [done |]. by destruct Hr.
  - injection Hrun as <- <-. split; [done |]. destruct Hr as [Hnone _]. split; [done |]. split; [done |]. eexists. unfold nd at 1. cbn. by rewrite lookup_insert_eq.
Qed.

Lemma close_reads (s : vstate) own f d : mem_ok (heap s) own -> obj_ok s own -> fds s !! f = Some d -> ops (nd s (node d)) = RamfsOps ->
  exists s' own', Vfs.close foreign_close f s = Some (tt, s') /\ mem_ok (heap s') own' /\ obj_ok s' own' /\ fds s' = delete f (fds s) /\
    others_kept own own' /\ bytes s' = bytes s /\ same_tree s s'.
Proof.
  intros Hm Hok Hf Hops. destruct (close_own foreign_close s own f Hm Hok ltac:(by eexists)) as (s' & own' & Hrun & Hm' & Hok' & Hd & Hk).
  exists s', own'. split_and!; try done; pose proof (ok_open _ _ Hok f d Hf) as Hn.
  all: unfold Vfs.close, Vfs.free in Hrun; destruct (f =? 0); [injection Hrun as <-; try done; by apply same_tree_refl |].
  all: run_in Hrun; assert (fd s f = d) as Hfd by (unfold fd; by rewrite Hf); rewrite Hfd in Hrun.
  all: rewrite nd_insert, decide_True in Hrun by done; cbn [refcount ops set_refcount] in Hrun; rewrite Hops in Hrun.
  all: destruct (_ =? 0) in Hrun; cbv beta iota in Hrun; destruct (kfree _ _) as [h |]; try done; injection Hrun as <-; try done.
  all: split; try done; cbn; intros p; unfold nd; cbn; rewrite lookup_insert; case_decide; subst; first [done | by destruct Hn as [v ->] | split; [done | by eexists]].
Qed.

Lemma read_bytes_ext (s s' : vstate) a n : bytes s' = bytes s -> read_bytes s' a n = read_bytes s a n.
Proof. intros E. unfold read_bytes, byte. by rewrite E. Qed.

Lemma stored_bytes (s : vstate) a l : read_bytes (write_bytes a l s) a (Z.of_nat (length l)) = l.
Proof.
  apply list_eq. intros i. unfold read_bytes. rewrite list_lookup_fmap. destruct (decide (i < length l)%nat) as [Hi | Hi].
  - rewrite lookup_seqZ_lt by lia. cbn. destruct (write_bytes_spec l a s) as [_ ->]. rewrite decide_True by lia. destruct (lookup_lt_is_Some_2 l i Hi) as [b Hb].
    replace (Z.to_nat (a + (0 + Z.of_nat i) - a)) with i by lia. by rewrite Hb.
  - rewrite lookup_seqZ_ge, lookup_ge_None_2 by lia. done.
Qed.

(** The reading loop: one read takes the whole file. *)
Lemma read_all_file (s s' : vstate) f d buf size total : fds s !! f = Some d -> ops (nd s (node d)) = RamfsOps -> offset d = 0 ->
  0 < size < 2 ^ 63 -> size = fsize (nd s (node d)) ->
  Elf.read_all foreign_read (S (Z.to_nat size)) f buf 0 size s = Some (Ok total, s') -> total = size ->
  read_bytes s' buf size = read_bytes s (fdata (nd s (node d))) size.
Proof.
  intros Hf Hops H0 Hs Hsize Hrun Ht. destruct (Z.to_nat size) as [| n] eqn:En; [lia |]. cbn [Elf.read_all] in Hrun.
  change (2 ^ 63) with 9223372036854775808 in Hs.
  rewrite (proj2 (Z.leb_gt size 0)) in Hrun by lia. unfold Vfs.read in Hrun. destruct (f =? 0); [run_in Hrun; done |]. run_in Hrun.
  assert (fd s f = d) as Hfd by (unfold fd; by rewrite Hf). rewrite Hfd in Hrun. destruct (negb _) in Hrun; [done |]. destruct (_ =? _) in Hrun; [done |].
  rewrite Hops in Hrun. unfold ramfs_read in Hrun. run_in Hrun. rewrite H0, <- Hsize, Z.sub_0_r, Z.add_0_r in Hrun.
  assert (u64 size = size) as Hu by (apply u64_small; mach; lia). rewrite Hu, Z.ltb_irrefl in Hrun.
  assert ((fdata (nd s (node d)) =? 0) || (size <=? 0) = (fdata (nd s (node d)) =? 0)) as Hz by (rewrite (proj2 (Z.leb_gt size 0)) by lia; apply orb_false_r).
  rewrite Hz in Hrun. clear Hz. destruct (fdata (nd s (node d)) =? 0).
  { cbn in Hrun. injection Hrun as <- _. lia. }
  set (l := read_bytes s _ size) in *. assert (Z.of_nat (length l) = size) as Hl by (unfold l, read_bytes; rewrite length_fmap, length_seqZ; lia).
  rewrite Hl, (proj2 (Z.ltb_lt 0 size)) in Hrun by lia. cbv beta iota in Hrun. rewrite ?Hl, (proj2 (Z.eqb_neq size 0)) in Hrun by lia. cbv beta iota in Hrun.
  rewrite Z.add_0_l, Hu, Z.leb_refl in Hrun. injection Hrun as _ <-. rewrite ?Z.add_0_r.
  rewrite <- Hl. apply stored_bytes.
Qed.

(** What loading a file of [size] bytes at [a] leaves. *)
Definition loaded_from (s s' : vstate) (a size : Z) (r : kResult Elf.Image) : Prop :=
  match r with
  | Ok img => 0 <= size /\ file_size img = size /\ Elf.parse s' (file_data img) size = Ok img /\ read_bytes s' (file_data img) size = read_bytes s a size
  | Err _ => True
  end.

Lemma load_image_file base (s : vstate) own f d buf size : mem_ok (heap s) own -> obj_ok s own -> others_kept base own -> fds s !! f = Some d -> f <> 0 ->
  ops (nd s (node d)) = RamfsOps -> offset d = 0 -> own !! buf = Some OOther -> base !! buf <> Some OOther -> 64 <= size < max_request -> size = fsize (nd s (node d)) ->
  exists r s', Elf.load_image foreign_read foreign_close f buf size s = Some (r, s') /\ fs_from base s' /\ fds s' = delete f (fds s) /\ same_tree s s' /\
    loaded_from s s' (fdata (nd s (node d))) size r.
Proof.
  intros Hm Hok Hb Hf H0 Hops Hoff Hbuf Hbase Hsz Hsize. unfold max_request in Hsz. change (2 ^ 46) with 70368744177664 in Hsz.
  unfold Elf.load_image, mbind, Vfs.M_bind, Vfs.bind.
  destruct (Elf.read_all_ok foreign_read (S (Z.to_nat size)) f buf 0 size s d Hf H0 Hops) as (t & s1 & Ht & Hrd); [lia | change (2 ^ 63) with 9223372036854775808; lia | lia |].
  rewrite Ht. cbn [mbind option_bind]. pose proof (Elf.reading_obj s s1 own f d Hrd Hok Hf) as Hok1. destruct Hrd as [R1 R2 [R3 R4] [o R5]].
  assert (mem_ok (heap s1) own) as Hm1 by (by rewrite R1). assert (same_tree s s1) as Hst1 by (split; [done | done | by rewrite R2 | intros p; unfold nd; by rewrite R2]).
  assert (forall h own2, mem_ok h own2 -> obj_ok (set_heap h s1) own2 -> exists s' own', Vfs.close foreign_close f (set_heap h s1) = Some (tt, s') /\
    mem_ok (heap s') own' /\ obj_ok s' own' /\ fds s' = delete f (fds s) /\ others_kept own2 own' /\ bytes s' = bytes s1 /\ same_tree s s') as Hclose.
  { intros h own2 Hmh Hokh. destruct (close_reads (set_heap h s1) own2 f (set_offset o d) Hmh Hokh) as (s' & own' & Hc & ? & ? & Hfd & ? & ? & Hst).
    - cbn. by rewrite R5, lookup_insert_eq.
    - cbn [node set_offset]. unfold nd. cbn. by rewrite R2.
    - exists s', own'. split_and!; try done; [rewrite Hfd; cbn; by rewrite R5, delete_insert_eq |].
      apply (same_tree_trans s s1); [done |]. by destruct Hst as [? ? ? ?]; split. }
  assert (forall own2, others_kept own own2 -> forall own3, others_kept (delete buf own2) own3 -> others_kept base own3) as Hdel.
  { intros own2 Hk own3 Hk3 a Ha. apply Hk3. rewrite lookup_delete_ne by congruence. by apply Hk, Hb. }
  destruct t as [total | e].
  - destruct (Hclose (heap s1) own Hm1) as (s2 & own2 & Hc & Hm2 & Hok2 & Hf2 & Hk2 & Hby & Hst2); [by destruct s1 |].
    assert (set_heap (heap s1) s1 = s1) as Hid by (by destruct s1). rewrite Hid in Hc. rewrite Hc. cbn [mbind option_bind].
    destruct (Elf.block_free s2 own2 buf Hm2 Hok2 (Hk2 _ Hbuf)) as (h3 & Hfree & Hm3 & Hok3).
    assert (fs_from base (set_heap h3 s2)) as Hfs3 by (exists (delete buf own2); split_and!; [done | done | apply (Hdel own2 Hk2); by intros a]).
    assert (same_tree s (set_heap h3 s2)) as Hst3 by (destruct Hst2; by split).
    destruct (Z.eqb_spec total size) as [Heq |]; cbn [negb].
    2: { rewrite Hfree. cbn [mbind option_bind]. by eexists _, _. }
    unfold Vfs.get. cbn [mbind option_bind]. destruct (Elf.parse s2 buf size) as [img | e] eqn:Hp.
    + exists (Ok img), s2. split; [done |]. split; [exists own2; split_and!; [done | done |]; intros a Ha; by apply Hk2, Hb |]. split; [done |]. split; [done |].
      destruct (Elf.parse_image _ _ _ _ Hp) as [E1 E2]. unfold loaded_from. rewrite E1, E2. split; [lia |]. split; [done |]. split; [done |].
      rewrite (read_bytes_ext s1 s2) by done. apply (read_all_file s s1 f d buf size total); [done | done | done | change (2 ^ 63) with 9223372036854775808; lia | done | done | done].
    + rewrite Hfree. cbn [mbind option_bind]. by eexists _, _.
  - destruct (Elf.block_free s1 own buf Hm1 Hok1 Hbuf) as (h2 & -> & Hm2 & Hok2). cbn [mbind option_bind].
    destruct (Hclose h2 (delete buf own) Hm2 Hok2) as (s' & own' & -> & Hm' & Hok' & Hf' & Hk' & _ & Hst'). cbn [mbind option_bind].
    exists (Err e), s'. split; [done |]. split; [exists own'; split_and!; [done | done |]; by apply (Hdel own ltac:(by intros a)) |]. by split_and!.
Qed.

(** A file of the RAM file system that the loader can hold. *)
Definition program_file (s : vstate) (path : list Z) (n : Z) : Prop :=
  resolve_internal path s = Some n /\ n <> 0 /\ is_Some (nodes s !! n) /\ ops (nd s n) = RamfsOps /\ fsize (nd s n) < max_request.

Lemma load_file base (s : vstate) path n : fs_from base s -> program_file s path n ->
  exists r s', load path s = Some (r, s') /\ fs_from base s' /\ fds s' = fds s /\ same_tree s s' /\ loaded_from s s' (fdata (nd s n)) (fsize (nd s n)) r.
Proof.
  intros Hfs (Hres & Hn0 & Hn & Hops & Hmax). unfold Elf.load, mbind, Vfs.M_bind, Vfs.bind.
  destruct (open_reads base s path n Hfs Hres Hn0 Hn) as (r & s1 & -> & Hfs1 & Hst1 & Hby1 & Hr). cbn [mbind option_bind].
  destruct r as [f | e]; [| exists (Err NotFound), s1; by split_and!]. destruct Hr as (Hnone & Hfds & c & Hnd). unfold Vfs.get, Vfs.ret. cbn [mbind option_bind].
  set (d := Fd n 0 (open_flags O_READ) 0) in Hfds. assert (fds s1 !! f = Some d) as Hfd by (by rewrite Hfds, lookup_insert_eq).
  assert (fd s1 f = d) as -> by (unfold fd; by rewrite Hfd). cbn [node d]. rewrite Hnd. cbn [fsize set_refcount]. set (size := fsize (nd s n)) in *.
  destruct Hfs1 as (own1 & Hm1 & Hok1 & Hk1). assert (ops (nd s1 (node d)) = RamfsOps) as Hops1 by (cbn [node d]; by rewrite Hnd).
  assert (f <> 0) as Hf0.
  { intros ->. assert (heap_range 0) as Hh by (apply (ok_range _ _ Hok1); rewrite (ok_fd _ _ Hok1); by eexists). unfold heap_range in Hh. lia. }
  assert (delete f (fds s1) = fds s) as Hdel by (rewrite Hfds, delete_insert_eq; by apply delete_id).
  destruct (Z.ltb_spec size 64) as [Hsmall | Hbig].
  { destruct (close_reads s1 own1 f d Hm1 Hok1 Hfd Hops1) as (s' & own' & -> & Hm' & Hok' & Hf' & Hk' & _ & Hst'). cbn [mbind option_bind].
    exists (Err FilesystemCorrupt), s'. split; [done |]. split; [exists own'; split_and!; [done | done |]; intros a Ha; by apply Hk', Hk1 |]. rewrite Hf'.
    split; [done |]. split; [by apply (same_tree_trans s s1) | done]. }
  unfold Vfs.malloc. destruct (mem_malloc (heap s1) own1 size Hm1) as (buf & h & -> & Hbuf); [lia |]. cbn [mbind option_bind].
  destruct Hbuf as [[-> Hm2] | (Hb0 & Hbn & Hbh & Hm2)].
  { cbn [Z.eqb]. assert (obj_ok (set_heap h s1) own1) as Hok2 by (apply (obj_keep s1 _ own1 own1 Hok1); try done; apply (ok_range _ _ Hok1)).
    destruct (close_reads (set_heap h s1) own1 f d Hm2 Hok2 Hfd Hops1) as (s' & own' & -> & Hm' & Hok' & Hf' & Hk' & _ & Hst'). cbn [mbind option_bind].
    exists (Err OutOfMemory), s'. split; [done |]. split; [exists own'; split_and!; [done | done |]; intros a Ha; by apply Hk', Hk1 |]. rewrite Hf'.
    split; [done |]. split; [apply (same_tree_trans s s1); [done |]; destruct Hst'; by split | done]. }
  rewrite (proj2 (Z.eqb_neq buf 0)) by done.
  destruct (load_image_file base (set_heap h s1) (<[buf := OOther]> own1) f d buf size) as (r & s' & Hrun & Hfs' & Hf' & Hst' & Hpost); try done.
  - apply (obj_keep s1 _ own1 _ Hok1); try done.
    + intros a o _ Ha. rewrite lookup_insert_ne; [done |]. congruence.
    + intros a. rewrite lookup_insert. case_decide; [by subst | apply (ok_range _ _ Hok1)].
  - intros a Ha. apply (others_insert own1 buf OOther Hbn), Hk1, Ha.
  - by rewrite lookup_insert_eq.
  - intros Hbb. apply Hk1 in Hbb. congruence.
  - cbn [node d]. change (nd (set_heap h s1) n) with (nd s1 n). by rewrite Hnd.
  - exists r, s'. split; [exact Hrun |]. split; [done |]. split; [by rewrite Hf' |]. split; [apply (same_tree_trans s s1); [done |]; destruct Hst'; by split |].
    cbn [node d] in Hpost. change (nd (set_heap h s1) n) with (nd s1 n) in Hpost. rewrite Hnd in Hpost. cbn [fdata set_refcount] in Hpost.
    unfold loaded_from in *. destruct r as [img | e]; [| done]. destruct Hpost as (P0 & P1 & P2 & P3). split_and!; [done | done | done |]. rewrite P3. by apply read_bytes_ext.
Qed.

(** ** Starting a program *)

(** The image that the loader makes of the file has its segments inside the file and
    below the stack: the program is linked as the kernel expects it. *)
Definition linked (s : vstate) (path : list Z) : Prop := forall img s1, load path s = Some (Ok img, s1) ->
  U64 (entry img) /\ Forall seg_fits (segments img) /\
  Forall (fun g => file_data img <= Elf.seg_data g /\ Elf.seg_data g + Elf.seg_filesz g <= file_data img + file_size img) (segments img).

(** [img] is what the validation makes of the bytes [F], wherever they are. *)
Definition image_of (F : list Z) (img : Elf.Image) : Prop := exists s1 : vstate,
  read_bytes s1 (file_data img) (Z.of_nat (length F)) = F /\ Elf.parse s1 (file_data img) (Z.of_nat (length F)) = Ok img.

(** The byte at the address [a] of a segment, in the file or zero. *)
Definition file_byte (F : list Z) (img : Elf.Image) (g : Elf.Segment) (a : Z) : Z :=
  if decide (a < Elf.seg_vaddr g + Elf.seg_filesz g) then default 0 (F !! Z.to_nat (Elf.seg_data g - file_data img + (a - Elf.seg_vaddr g))) else 0.

Lemma seg_byte_file (v : vstate) F img g a : read_bytes v (file_data img) (file_size img) = F -> in_seg g a ->
  file_data img <= Elf.seg_data g /\ Elf.seg_data g + Elf.seg_filesz g <= file_data img + file_size img -> seg_byte v g a = file_byte F img g a.
Proof.
  intros <- [Ha _] [H1 H2]. unfold seg_byte, file_byte. case_decide as Hlt; [| done]. unfold read_bytes. rewrite list_lookup_fmap, lookup_seqZ_lt by lia. cbn. f_equal. lia.
Qed.

Lemma load_step (s : kstate) path n tn : kernel_ok s -> terminal (ts (sch s)) tn -> program_file (fs s) path n ->
  exists r v, on_fs (load path) s = Some (r, put_fs v s) /\ kernel_ok (put_fs v s) /\ terminal (ts (sch (put_fs v s))) tn /\ load path (fs s) = Some (r, v) /\
    loaded_from (fs s) v (fdata (nd (fs s) n)) (fsize (nd (fs s) n)) r.
Proof.
  intros Hs Ht Hp.
  destruct (on_fs_ok (load path) s (fun r v => load path (fs s) = Some (r, v) /\ same_tree (fs s) v /\ loaded_from (fs s) v (fdata (nd (fs s) n)) (fsize (nd (fs s) n)) r) Hs)
    as (r & v & Hrun & Hok & _ & Hload & Hst & Hpost).
  { intros base Hb. destruct (load_file base (fs s) path n Hb Hp) as (r & v & Hrun & Hfs & Hfds & Hst & Hpost). exists r, v. split_and!; try done. by rewrite Hfds. }
  exists r, v. split_and!; try done. destruct Hs as (own & rr & l & zl & Hq & Hr). by apply (terminal_same (ts (sch s)) _ tn own (rs_tables _ _ Hr)).
Qed.

(** What starting a program leaves behind; [F] are the bytes of its file. *)
Definition started (s s' : kstate) (F nm : list Z) (argv : option strings) (argc : Z) (envp : option strings) (envc tn : Z) (out : option (kResult Z)) : Prop :=
  kernel_ok s' /\
  match out with
  | None | Some (Err _) => tasks (sch s') = tasks (sch s) /\ next_tid (sch s') = next_tid (sch s)
  | Some (Ok id) => id = next_tid (sch s) /\ exists img t space usp, image_of F img /\
      space <> 0 /\ tasks (sch s) !! t = None /\ next (task (sch s') (current_task (sch s))) = t /\
      is_program (sch s') t id space nm (entry img) DEFAULT_QUANTUM usp tn /\ args_at (mem_of s' space) usp (entry img) argv argc envp envc /\
      (forall l1 g l2 a, segments img = l1 ++ g :: l2 -> in_seg g a -> (forall g', g' ∈ l2 -> ~ in_seg g' a) -> mem_of s' space a = file_byte F img g a) /\
      (forall q a, q <> space -> mem_of s' q a = mem_of s q a)
  end.

Definition file_bytes (s : vstate) (n : Z) : list Z := read_bytes s (fdata (nd s n)) (fsize (nd s n)).

Lemma start_ok (s : kstate) path nm argv argc envp envc n tn : kernel_ok s -> terminal (ts (sch s)) tn -> program_file (fs s) path n -> linked (fs s) path ->
  UserStack.block_room argv argc envp envc <= STACK_BUF_SIZE ->
  exists out s', start path nm argv argc envp envc s = Some (out, s') /\ started s s' (file_bytes (fs s) n) nm argv argc envp envc tn out.
Proof.
  intros Hs Ht Hp Hl Hroom. set (F := file_bytes (fs s) n). unfold started. destruct (load_step s path n tn Hs Ht Hp) as (r & v & Hrun & Hok & Ht1 & Hload & Hpost). unfold start. rewrite (bind_Some _ _ _ _ _ Hrun).
  destruct r as [img | e]; [| by exists None, (put_fs v s)]. destruct (Hl img v Hload) as (He & Hfit & Hin). destruct Hpost as (E0 & E1 & E2 & E3).
  destruct (spawn_elf_ok raw foreign_close foreign_create (put_fs v s) img nm argv argc envp envc tn Hok Ht1 He Hfit Hroom) as (res & s' & Hsp & Hok' & Hres).
  exists (Some res), s'. split; [by rewrite (bind_Some _ _ _ _ _ Hsp) |]. split; [done |]. destruct res as [id | k]; [| by destruct Hres as (_ & ? & ?)].
  destruct Hres as (-> & _ & t & space & usp & P1 & P2 & P3 & P4 & P5 & P6 & P7). split; [done |]. exists img, t, space, usp.
  assert (Z.of_nat (length F) = fsize (nd (fs s) n)) as HF by (unfold F, file_bytes, read_bytes; rewrite length_fmap, length_seqZ; lia).
  split; [exists v; rewrite HF; done |]. split_and!; try done. intros l1 g l2 a Hg Ha Hno. rewrite (P6 l1 g l2 a Hg Ha Hno). apply seg_byte_file; [by rewrite E1 | done |].
  rewrite Hg in Hin. by apply Forall_app in Hin as [_ [? _]%Forall_cons].
Qed.


(** The launch ends with the kernel in order, when the second program can be started
    where the first one left the kernel. *)
Lemma launch_ends (s : kstate) n tn : kernel_ok s -> terminal (ts (sch s)) tn -> program_file (fs s) (txt "/disk/init") n -> linked (fs s) (txt "/disk/init") ->
  (forall r s1, start (txt "/disk/init") (txt "init") (Some [Some (txt "init"); None]) 1 program_env 2 s = Some (Some r, s1) -> terminal (ts (sch s1)) tn /\
     exists n1, program_file (fs s1) (txt "/disk/shell") n1 /\ linked (fs s1) (txt "/disk/shell")) ->
  exists l s', launch s = Some (l, s') /\ kernel_ok s'.
Proof.
  intros Hs Ht Hp Hl Hnext. unfold launch.
  destruct (start_ok s (txt "/disk/init") (txt "init") (Some [Some (txt "init"); None]) 1 program_env 2 n tn Hs Ht Hp Hl ltac:(vm_compute; discriminate)) as (out & s1 & Hrun & Hok & _).
  rewrite (bind_Some _ _ _ _ _ Hrun). destruct out as [r |]; [| by eexists _, s1]. destruct (Hnext r s1 Hrun) as (Ht1 & n1 & Hp1 & Hl1).
  destruct (start_ok s1 (txt "/disk/shell") (txt "shell") (Some [Some (txt "shell"); None]) 1 program_env 2 n1 tn Hok Ht1 Hp1 Hl1 ltac:(vm_compute; discriminate)) as (out & s2 & Hrun2 & Hok2 & _).
  rewrite (bind_Some _ _ _ _ _ Hrun2). destruct out as [r2 |]; by eexists _, s2.
Qed.
End launch.

(** ** A program, from its file to its task *)

Section demo.
#[local] Existing Instance bump_vm_paging.

(** The system of [Spawn] with an executable at [/p]. *)
Definition path_p : list Z := [47; 112].
Definition created : option (kResult Z * Syscall.kstate (H := bump_vm)) := on_fs (Vfs.open no_create_vm path_p (O_CREATE .| O_RDWR)) tty_b.
Definition created_b : Syscall.kstate (H := bump_vm) := run created tty_b.
Definition file_p : Z := match created with Some (Ok f, _) => f | _ => 0 end.
Definition prog_b : Syscall.kstate (H := bump_vm) := run (on_fs (Vfs.write no_write_vm file_p (Elf.elf_file 0 120 4096)) created_b) created_b.
Definition node_p : Z := default 0 (resolve_internal path_p (fs prog_b)).
Definition argv_p : option strings := Some [Some [112]; None].

Definition run_p := start raw0 no_read_vm no_close_vm no_create_vm path_p [112] argv_p 1 None 0 prog_b.

Lemma created_ok : kernel_ok created_b.
Proof.
  unfold created_b, created. destruct (on_fs_ok (Vfs.open no_create_vm path_p (O_CREATE .| O_RDWR)) tty_b (fun _ _ => True) tty_b_ok) as (r & v & -> & Hok & _); [| exact Hok].
  intros base Hb. destruct (open_from no_create_vm base (fs tty_b) path_p (O_CREATE .| O_RDWR) Hb ltac:(cbn; lia)) as (r & v & Hr & Hfs & Hm).
  exists r, v. split; [exact Hr |]. split; [exact Hfs |]. split; [| exact I]. intros g. destruct r as [f | e]; [| by rewrite Hm].
  destruct Hm as (_ & d & -> & _). rewrite lookup_insert. case_decide; [by eexists | done].
Qed.

Lemma prog_ok : kernel_ok prog_b.
Proof.
  unfold prog_b. destruct (on_fs_ok (Vfs.write no_write_vm file_p (Elf.elf_file 0 120 4096)) created_b (fun _ _ => True) created_ok) as (r & v & -> & Hok & _); [| exact Hok].
  assert (is_Some (fds (fs created_b) !! file_p)) as Hf by (vm_compute; by eexists).
  intros base Hb. destruct (write_from no_write_vm base (fs created_b) file_p (Elf.elf_file 0 120 4096) Hb Hf) as (r & v & Hr & Hfs & d & Hm & _).
  { intros _. vm_compute. split; congruence. }
  exists r, v. split; [exact Hr |]. split; [exact Hfs |]. split; [| exact I]. intros g. rewrite Hm, lookup_insert. case_decide; [by eexists | done].
Qed.

(** [linked], evaluated. *)
Definition seg_check (img : Elf.Image) (g : Elf.Segment) : bool :=
  (0 <=? Elf.seg_vaddr g) && (0 <=? Elf.seg_filesz g) && (Elf.seg_filesz g <=? Elf.seg_memsz g) &&
  (Elf.seg_vaddr g + Elf.seg_memsz g <=? Vmm.USER_STACK_TOP - STACK_BUF_SIZE) &&
  (file_data img <=? Elf.seg_data g) && (Elf.seg_data g + Elf.seg_filesz g <=? file_data img + file_size img).

Lemma linked_p : linked no_read_vm no_close_vm no_create_vm (fs prog_b) path_p.
Proof.
  intros img s1 Hload.
  assert (match Elf.load no_read_vm no_close_vm no_create_vm path_p (fs prog_b) with
    | Some (Ok img, _) => (0 <=? entry img) && (entry img <? 2 ^ 64) && forallb (seg_check img) (segments img) | _ => true end = true) as Hc by (vm_compute; reflexivity).
  rewrite Hload in Hc. apply andb_true_iff in Hc as [[H1%Z.leb_le H2%Z.ltb_lt]%andb_true_iff Hc]. split; [unfold U64; lia |].
  assert (forall g, g ∈ segments img -> seg_fits g /\ file_data img <= Elf.seg_data g /\ Elf.seg_data g + Elf.seg_filesz g <= file_data img + file_size img) as Hg.
  { intros g Hin. rewrite forallb_forall in Hc. specialize (Hc g (proj1 (list_elem_of_In _ _) Hin)). unfold seg_check in Hc. unfold seg_fits.
    repeat (apply andb_true_iff in Hc as [Hc ?%Z.leb_le]). apply Z.leb_le in Hc. lia. }
  split; apply Forall_forall; intros g Hin; by apply Hg.
Qed.


(** Its memory starts with the bytes of the file and ends with zeros. *)
Example program_memory : match run_p with
  | Some (_, s') => let space := pml4 (task (sch s') (next (task (sch s') (current_task (sch prog_b))))) in
      mem_of s' space <$> [0x400000; 0x400001; 0x400002; 0x400003; 0x400FFF] = [0x7F; 69; 76; 70; 0]
  | None => False
  end.
Proof. vm_compute. reflexivity. Qed.
End demo.
