(* ===== verification/Fat.v ===== *)
(** * fs/fat32.cpp: the file allocation table and cluster chains

    The operations of fs/fat32.cpp on a mounted volume over any [BlockDevice]: table
    entries, allocation, and reading and writing along a chain of clusters.  Sectors
    and clusters are addressed as in the source, with the wrap-around of 32 bits; the
    buffers on the stack are values.  A read returns the bytes it stored to the
    caller's buffer.  Cluster sizes are not zero: [mount] divides by them before any
    of these operations can run. *)
From stdpp Require Import functions.
From S2P Require Import Prelude Bytes Block.

Definition E_NOSPACE : Z := -28.
Definition E_INVAL : Z := -22.

Record Fat32Mount := Mount {
  fat_start : Z;
  data_start : Z;
  sectors_per_cluster : Z;
  root_cluster : Z;
  total_clusters : Z;
  fat_size : Z;
  num_fats : Z;
}.

Definition is_eoc (val : Z) : bool := 0x0FFFFFF8 <=? (val .& 0x0FFFFFFF).

(** [is_eoc(c) || c < 2]: no cluster follows. *)
Definition at_end (c : Z) : bool := is_eoc c || (c <? 2).

Definition cluster_to_lba (m : Fat32Mount) (cluster : Z) : Z := u32 (data_start m + u32 (u32 (cluster - 2) * sectors_per_cluster m)).
Definition cluster_bytes (m : Fat32Mount) : Z := u32 (sectors_per_cluster m * 512).

(** What following or growing a chain by one cluster gave. *)
Inductive step := Moved (cluster : Z) | Full | Failed.

Section fat.
Context {D : Type} `{!BlockDevice D}.
Variable m : Fat32Mount.

Definition dev_read (d : D) (lba : Z) : option (list Z) := match read d lba with Ok b => Some b | Err _ => None end.
Definition dev_write (lba : Z) (buf : list Z) (d : D) : bool * D := let '(r, d) := write d lba buf in (is_ok r, d).

(** ** Table entries *)

Definition fat_offset (cluster : Z) : Z := u32 (cluster * 4).

Definition read_fat (d : D) (cluster : Z) : Z :=
  match dev_read d (u32 (fat_start m + fat_offset cluster / 512)) with
  | None => 0x0FFFFFFF
  | Some buf => get32 buf (fat_offset cluster mod 512) .& 0x0FFFFFFF
  end.

Definition write_fat (cluster value : Z) (d : D) : bool * D :=
  match dev_read d (u32 (fat_start m + fat_offset cluster / 512)) with
  | None => (false, d)
  | Some buf =>
      let byte_offset := fat_offset cluster mod 512 in
      let val := (value .& 0x0FFFFFFF) .| (get32 buf byte_offset .& 0xF0000000) in
      let buf := store byte_offset (le_bytes 4 val) buf in
      let '(r, d) := for_exit 0 (num_fats m) (fun f d =>
        let '(ok, d) := dev_write (u32 (fat_start m + u32 (f * fat_size m) + fat_offset cluster / 512)) buf d in
        (if ok then None else Some tt, d)) d in
      (match r with None => true | Some _ => false end, d)
  end.

Definition alloc_cluster (d : D) : Z * D :=
  match find_range 2 (u32 (total_clusters m + 2)) (fun c => read_fat d c =? 0) with
  | Some c => (c, snd (write_fat c 0x0FFFFFFF d))
  | None => (0, d)
  end.

Definition zero_cluster (cluster : Z) (d : D) : bool * D :=
  let buf := replicate 512 0 in
  let lba := cluster_to_lba m cluster in
  let '(r, d) := for_exit 0 (sectors_per_cluster m) (fun s d =>
    let '(ok, d) := dev_write (u32 (lba + s)) buf d in (if ok then None else Some tt, d)) d in
  (match r with None => true | Some _ => false end, d).

(** ** Reading a chain *)

(** [n] turns of [cluster = read_fat(m, cluster); if (at the end) return;] *)
Fixpoint follow (n : nat) (d : D) (cluster : Z) : option Z :=
  match n with
  | O => Some cluster
  | S n' => let cluster := read_fat d cluster in if at_end cluster then None else follow n' d cluster
  end.

(** The loop [while (len > 0)]; the loop over [intra] inside it turns [intra /
    cluster_bytes] times.  Each turn reads a byte at least, so [len] turns are
    enough. *)
Fixpoint read_loop (fuel : nat) (d : D) (cluster intra len : Z) (dst : list Z) : list Z :=
  match fuel with
  | O => dst
  | S fuel' =>
      if len <=? 0 then dst else
      match follow (Z.to_nat (intra / cluster_bytes m)) d cluster with
      | None => dst
      | Some cluster =>
          let intra := intra mod cluster_bytes m in
          if at_end cluster then dst else
          let lba := cluster_to_lba m cluster in
          let sec_off := u32 (intra / 512) in
          let byte_in := u32 (intra mod 512) in
          match dev_read d (u32 (lba + sec_off)) with
          | None => dst
          | Some sector_buf =>
              let avail := u32 (512 - byte_in) in
              let avail := if len <? avail then len else avail in
              read_loop fuel' d cluster (u64 (intra + avail)) (len - avail) (dst ++ slice byte_in avail sector_buf)
          end
      end
  end.

Definition chain_read (d : D) (first_cluster offset len : Z) : list Z :=
  if len =? 0 then [] else
  match follow (Z.to_nat (offset / cluster_bytes m)) d first_cluster with
  | None => []
  | Some cluster => read_loop (Z.to_nat len) d cluster (offset mod cluster_bytes m) len []
  end.

(** ** Writing a chain *)

(** The cluster after [cluster]; at the end of the chain a new one, zeroed and
    linked. *)
Definition next_or_alloc (cluster : Z) (d : D) : step * D :=
  let next := read_fat d cluster in
  if at_end next then
    let '(newc, d) := alloc_cluster d in
    if newc =? 0 then (Full, d) else
    let '(_, d) := zero_cluster newc d in
    let '(ok, d) := write_fat cluster newc d in
    (if ok then Moved newc else Failed, d)
  else (Moved next, d).

(** The loop over [cluster_idx]: the cluster reached, or the error. *)
Fixpoint seek_loop (n : nat) (cluster : Z) (d : D) : (Z + Z) * D :=
  match n with
  | O => (inl cluster, d)
  | S n' =>
      let '(r, d) := next_or_alloc cluster d in
      match r with
      | Moved c => seek_loop n' c d
      | Full => (inr E_NOSPACE, d)
      | Failed => (inr E_INVAL, d)
      end
  end.

(** The loop [while (len > 0)] with the rest of the source; [written] bytes are done. *)
Fixpoint write_loop (fuel : nat) (cluster intra : Z) (src : list Z) (written : Z) (d : D) : Z * D :=
  match fuel with
  | O => (written, d)
  | S fuel' =>
      let len := Z.of_nat (length src) in
      if len <=? 0 then (written, d) else
      let lba := cluster_to_lba m cluster in
      let sec_off := u32 (intra / 512) in
      let byte_in := u32 (intra mod 512) in
      match dev_read d (u32 (lba + sec_off)) with
      | None => (written, d)
      | Some sector_buf =>
          let avail := u32 (512 - byte_in) in
          let avail := if len <? avail then len else avail in
          let '(ok, d) := dev_write (u32 (lba + sec_off)) (store byte_in (slice 0 avail src) sector_buf) d in
          if negb ok then (written, d) else
          let written := written + avail in
          let src := drop (Z.to_nat avail) src in
          let intra := u64 (intra + avail) in
          if (cluster_bytes m <=? intra) && (0 <? Z.of_nat (length src)) then
            let '(r, d) := next_or_alloc cluster d in
            match r with
            | Moved c => write_loop fuel' c 0 src written d
            | Full => (written, d)
            | Failed => (E_INVAL, d)
            end
          else write_loop fuel' cluster intra src written d
      end
  end.

(** The bytes written or an error, and the first cluster, which [chain_write] sets. *)
Definition chain_write (first_cluster offset : Z) (buf : list Z) (d : D) : Z * Z * D :=
  if bool_decide (buf = []) then (0, first_cluster, d) else
  let '(r, d) :=
    if first_cluster <? 2 then
      let '(c, d) := alloc_cluster d in
      if c =? 0 then (0, d) else let '(_, d) := zero_cluster c d in (c, d)
    else (first_cluster, d) in
  if r =? 0 then (E_NOSPACE, first_cluster, d) else
  let first_cluster := r in
  let '(c, d) := seek_loop (Z.to_nat (offset / cluster_bytes m)) first_cluster d in
  match c with
  | inr e => (e, first_cluster, d)
  | inl cluster =>
      let '(written, d) := write_loop (length buf) cluster (offset mod cluster_bytes m) buf 0 d in
      (written, first_cluster, d)
  end.

(** ** Sectors *)

Definition sector (d : D) (l : Z) : list Z :=
  if (0 <=? l) && (l <? sector_count d) then match read d l with Ok b => b | Err _ => [] end else [].

Lemma dev_read_ok d l : 0 <= l < sector_count d -> dev_read d l = Some (sector d l) /\ length (sector d l) = 512%nat /\ Forall U8 (sector d l).
Proof.
  intros Hl. unfold dev_read, sector. rewrite (proj2 (Z.leb_le 0 l)), (proj2 (Z.ltb_lt l _)) by lia. destruct (read_ok d l Hl) as [b Hb]. rewrite Hb. split; [done |]. by apply (read_size d l).
Qed.

Lemma dev_write_ok d l b : 0 <= l < sector_count d -> length b = 512%nat -> Forall U8 b ->
  exists d', dev_write l b d = (true, d') /\ sector_count d' = sector_count d /\ forall k, sector d' k = if decide (k = l) then b else sector d k.
Proof.
  intros Hl Hlen Hb. destruct (write_ok d l b Hl Hlen Hb) as (d' & Hw & Hr). exists d'. pose proof (write_count d l b) as Hc. unfold dev_write, sector. rewrite Hw in *.
  cbn [snd] in Hc. split; [done |]. split; [done |]. intros k. rewrite Hc. destruct (Z.leb_spec 0 k); [destruct (Z.ltb_spec k (sector_count d)) |]; cbn [andb].
  - rewrite Hr by done. by case_decide.
  - rewrite decide_False by lia. done.
  - rewrite decide_False by lia. done.
Qed.

(** A loop that writes one buffer to several sectors. *)
Lemma write_run (g : Z -> Z) buf b a d : length buf = 512%nat -> Forall U8 buf -> (forall i, a <= i < b -> 0 <= g i < sector_count d) ->
  exists d', for_exit a b (fun i d => let '(ok, d) := dev_write (g i) buf d in (if ok then None else Some tt, d)) d = (None, d') /\
    sector_count d' = sector_count d /\ (forall i, a <= i < b -> sector d' (g i) = buf) /\
    (forall l, (forall i, a <= i < b -> g i <> l) -> sector d' l = sector d l).
Proof.
  intros Hlen Hb. revert d. pattern a. apply range_ind with b; clear a.
  { intros a Ha d _. exists d. rewrite for_exit_done by lia. split_and!; try done. intros; lia. }
  intros a Ha IH d Hg. rewrite for_exit_cons by lia. destruct (dev_write_ok d (g a) buf (Hg a ltac:(lia)) Hlen Hb) as (d1 & -> & Hc1 & Hs1).
  destruct (IH d1) as (d2 & -> & Hc2 & Hi2 & Hs2). { intros i Hi. rewrite Hc1. apply Hg. lia. }
  exists d2. split; [done |]. split; [congruence |]. split.
  - intros i Hi. destruct (decide (i = a)) as [-> | Hne]; [| apply Hi2; lia].
    destruct (find_range (a + 1) b (fun j => g j =? g a)) as [j |] eqn:Hf.
    + apply find_range_Some in Hf as (Hj & Ej%Z.eqb_eq & _). rewrite <- Ej. by apply Hi2.
    + pose proof (proj1 (find_range_None _ _ _) Hf) as Hn. rewrite Hs2, Hs1 by (intros j Hj; apply Z.eqb_neq, Hn; lia). by rewrite decide_True.
  - intros l Hl. rewrite Hs2 by (intros i Hi; apply Hl; lia). rewrite Hs1. rewrite decide_False; [done |]. intros ->. apply (Hl a); [lia | done].
Qed.

(** ** Volumes

    A volume whose table covers its clusters and whose sectors lie on the device. *)
Record vol_ok (d : D) : Prop := {
  v_spc : 1 <= sectors_per_cluster m <= 255;
  v_fats : 1 <= num_fats m <= 255;
  v_start : 0 <= fat_start m;
  v_fat_size : 0 <= fat_size m;
  v_table : 4 * (total_clusters m + 2) <= 512 * fat_size m;
  v_data : fat_start m + num_fats m * fat_size m <= data_start m;
  v_total : 0 <= total_clusters m <= 0x0FFFFFF5;
  v_size : data_start m + total_clusters m * sectors_per_cluster m <= sector_count d <= 2 ^ 32;
}.

Definition in_vol (c : Z) : Prop := 2 <= c < total_clusters m + 2.

(** Byte [k] of a cluster. *)
Definition cluster_byte (d : D) (c k : Z) : Z := at_index (sector d (cluster_to_lba m c + k / 512)) (k mod 512).

(** The volume holds the table [F] and the cluster contents [C]. *)
Record view (d : D) (F : Z -> Z) (C : Z -> Z -> Z) : Prop := {
  vw_ok : vol_ok d;
  vw_fat : forall c, in_vol c -> read_fat d c = F c;
  vw_data : forall c k, in_vol c -> 0 <= k < sectors_per_cluster m * 512 -> cluster_byte d c k = C c k;
}.

Lemma cluster_bytes_eq d : vol_ok d -> cluster_bytes m = sectors_per_cluster m * 512.
Proof. intros Hv. pose proof (v_spc _ Hv). unfold cluster_bytes. apply u32_small. mach. lia. Qed.

Lemma lba_eq d c : vol_ok d -> in_vol c -> cluster_to_lba m c = data_start m + (c - 2) * sectors_per_cluster m /\
  0 <= fat_start m <= data_start m /\ cluster_to_lba m c + sectors_per_cluster m <= sector_count d.
Proof.
  intros [? ? ? ? ? ? ? ?] Hc. unfold in_vol in Hc.
  assert ((c - 2) * sectors_per_cluster m + sectors_per_cluster m <= total_clusters m * sectors_per_cluster m) by nia.
  assert (0 <= num_fats m * fat_size m) by nia. assert (0 <= (c - 2) * sectors_per_cluster m) by nia.
  unfold cluster_to_lba. rewrite (u32_small (c - 2)) by (mach; lia). rewrite (u32_small ((c - 2) * _)) by (mach; lia).
  rewrite u32_small by (mach; lia). lia.
Qed.

(** The sectors of the table. *)
Lemma fat_geometry d c : vol_ok d -> in_vol c -> fat_offset c = 4 * c /\ 0 <= 4 * c / 512 < fat_size m /\
  (forall f, 0 <= f < num_fats m ->
     u32 (fat_start m + u32 (f * fat_size m) + fat_offset c / 512) = fat_start m + f * fat_size m + 4 * c / 512 /\
     fat_start m + f * fat_size m + 4 * c / 512 < data_start m) /\ data_start m <= sector_count d /\ data_start m <= 2 ^ 32.
Proof.
  intros Hv Hc. destruct Hv as [? ? ? ? ? ? ? ?]. unfold in_vol in Hc.
  assert (fat_offset c = 4 * c) as Ho by (unfold fat_offset; rewrite u32_small by (mach; lia); lia).
  assert (0 <= 4 * c / 512 < fat_size m) as Hq by divlia. rewrite Ho.
  assert (0 <= total_clusters m * sectors_per_cluster m) by nia. split; [done |]. split; [done |]. split; [| lia].
  intros f Hf. assert (0 <= f * fat_size m /\ f * fat_size m + fat_size m <= num_fats m * fat_size m) by nia.
  rewrite (u32_small (f * _)) by (mach; lia). rewrite u32_small by (mach; lia). lia.
Qed.

Lemma read_fat_eq d c : vol_ok d -> in_vol c ->
  read_fat d c = get32 (sector d (fat_start m + 4 * c / 512)) ((4 * c) mod 512) .& 0x0FFFFFFF /\
  length (sector d (fat_start m + 4 * c / 512)) = 512%nat /\ Forall U8 (sector d (fat_start m + 4 * c / 512)).
Proof.
  intros Hv Hc. destruct (fat_geometry d c Hv Hc) as (Ho & Hq & Hf & Hd & _). pose proof (v_fats _ Hv). pose proof (v_start _ Hv).
  destruct (Hf 0 ltac:(lia)) as [E1 E2]. change (u32 (0 * fat_size m)) with 0 in E1. rewrite Z.add_0_r, Ho in E1. rewrite Z.mul_0_l, Z.add_0_r in *.
  destruct (dev_read_ok d (fat_start m + 4 * c / 512)) as (Hr & Hl & Hb); [lia |].
  unfold read_fat. rewrite Ho, E1, Hr. done.
Qed.

(** ** What the operations do to the table and the contents *)

Lemma vol_ok_count d d' : vol_ok d -> sector_count d' = sector_count d -> vol_ok d'.
Proof. intros [? ? ? ? ? ? ? ?] E. split; try done. by rewrite E. Qed.

Lemma low_bits v old : ((v .& 0x0FFFFFFF) .| (old .& 0xF0000000)) .& 0x0FFFFFFF = v .& 0x0FFFFFFF.
Proof. rewrite Z.land_lor_distr_l, <- !Z.land_assoc, Z.land_diag. change (0xF0000000 .& 0x0FFFFFFF) with 0. by rewrite Z.land_0_r, Z.lor_0_r. Qed.

Lemma entry_bound v old : U32 old -> U32 ((v .& 0x0FFFFFFF) .| (old .& 0xF0000000)).
Proof.
  intros Ho. apply lor_bound; [lia | |].
  - rewrite Z.land_comm. apply land_bound_l; lia.
  - apply land_bound_l; [lia | done].
Qed.

Lemma upd_at {A} (F : Z -> A) c v x : <[c := v]> F x = if decide (c = x) then v else F x.
Proof. done. Qed.

(** Writing a table sector back changes the entry in it and no other. *)
Lemma entry_stored buf c c' v : length buf = 512%nat -> 0 <= c -> 0 <= c' -> 4 * c' / 512 = 4 * c / 512 ->
  let val := (v .& 0x0FFFFFFF) .| (get32 buf ((4 * c) mod 512) .& 0xF0000000) in
  get32 (store ((4 * c) mod 512) (le_bytes 4 val) buf) ((4 * c') mod 512) .& 0x0FFFFFFF =
  if decide (c' = c) then v .& 0x0FFFFFFF else get32 buf ((4 * c') mod 512) .& 0x0FFFFFFF.
Proof.
  intros Hl Hc Hc' Hq val. pose proof (entry_bound v (get32 buf ((4 * c) mod 512)) (read_le_bound _ 4 _)) as Hv.
  fold val in Hv. unfold get32 at 1. case_decide as E.
  - subst c'. rewrite (store_word 4); [by apply low_bits | divlia | exact Hv | rewrite Hl; divlia].
  - rewrite (store_word_other 4); [done | divlia | divlia | rewrite length_le_bytes, Hl; divlia | rewrite length_le_bytes; divlia | done].
Qed.

(** What every turn of a loop keeps, the loop keeps. *)
Lemma for_exit_keep {S R} (P : S -> Prop) (body : Z -> S -> option R * S) b a s : (forall i s, P s -> P (body i s).2) -> P s -> P (for_exit a b body s).2.
Proof.
  intros Hb. revert s. pattern a. apply range_ind with b; clear a; intros a Ha; [intros s Hs; by rewrite for_exit_done by lia |].
  intros IH s Hs. rewrite for_exit_cons by lia. pose proof (Hb a s Hs) as H1. destruct (body a s) as [[r |] s']; [exact H1 | by apply IH].
Qed.

Lemma dev_write_count l b d : sector_count (dev_write l b d).2 = sector_count d.
Proof. unfold dev_write. pose proof (write_count d l b) as Hw. by destruct (write d l b). Qed.

Lemma write_fat_count d c v : sector_count (write_fat c v d).2 = sector_count d.
Proof.
  unfold write_fat. destruct (dev_read d _) as [l |]; [| done]. set (body := fun f d => _).
  pose proof (for_exit_keep (fun d1 => sector_count d1 = sector_count d) body (num_fats m) 0 d) as Hk. destruct (for_exit 0 (num_fats m) body d) as [r d1].
  apply Hk; [| done]. intros f d0 <-. unfold body. pose proof (dev_write_count (u32 (fat_start m + u32 (f * fat_size m) + fat_offset c / 512))) as Hw.
  specialize (Hw (store (fat_offset c mod 512) (le_bytes 4 ((v .& 0x0FFFFFFF) .| (get32 l (fat_offset c mod 512) .& 0xF0000000))) l) d0). by destruct (dev_write _ _ d0).
Qed.

Lemma write_fat_view d F C c v : view d F C -> in_vol c ->
  exists d', write_fat c v d = (true, d') /\ view d' (<[c := v .& 0x0FFFFFFF]> F) C.
Proof.
  intros Hvw Hc. pose proof (vw_ok _ _ _ Hvw) as Hv. destruct (fat_geometry d c Hv Hc) as (Ho & Hq & Hf & Hd & _).
  pose proof (v_fats _ Hv). pose proof (v_start _ Hv). pose proof (v_fat_size _ Hv).
  destruct (read_fat_eq d c Hv Hc) as (_ & Hl & Hb). set (q := 4 * c / 512) in *. set (buf := sector d (fat_start m + q)) in *.
  destruct (Hf 0 ltac:(lia)) as [E1 E2]. change (u32 (0 * fat_size m)) with 0 in E1. rewrite Z.add_0_r, Z.mul_0_l, Z.add_0_r in *.
  unfold write_fat. rewrite E1. destruct (dev_read_ok d (fat_start m + q)) as (-> & _); [lia |]. fold buf. rewrite Ho.
  set (nbuf := store ((4 * c) mod 512) _ buf).
  destruct (write_run (fun f => u32 (fat_start m + u32 (f * fat_size m) + 4 * c / 512)) nbuf (num_fats m) 0 d) as (d' & -> & Hcnt & Hi & Hs).
  { unfold nbuf. by rewrite length_store. }
  { apply store_U8; [apply le_bytes_U8 | done]. }
  { intros f Hf'. rewrite Ho in Hf. destruct (Hf f Hf') as [-> ?]. nia. }
  exists d'. split; [done |]. assert (vol_ok d') as Hv' by by apply (vol_ok_count d). split; [done | |].
  - intros c' Hc'. destruct (read_fat_eq d' c' Hv' Hc') as (-> & _). rewrite upd_at.
    destruct (fat_geometry d c' Hv Hc') as (_ & Hq' & _). destruct (read_fat_eq d c' Hv Hc') as (Er & _). rewrite (vw_fat _ _ _ Hvw c' Hc') in Er.
    unfold in_vol in *. destruct (decide (4 * c' / 512 = q)) as [Eq | Ne].
    + rewrite Eq. specialize (Hi 0 ltac:(lia)). cbv beta in Hi. rewrite Ho in E1. change (u32 (0 * fat_size m)) with 0 in Hi.
      rewrite Z.add_0_r, E1 in Hi. rewrite Hi. unfold nbuf. rewrite (entry_stored buf c c' v Hl) by (done || lia).
      rewrite Er, Eq. fold buf. repeat case_decide; congruence.
    + rewrite decide_False by (intros ->; done). rewrite Er. do 2 f_equal. apply Hs. intros f Hf'. rewrite Ho in Hf. destruct (Hf f Hf') as [-> _].
      fold q. destruct (decide (f = 0)); [lia | nia].
  - intros c' k Hc' Hk. rewrite <- (vw_data _ _ _ Hvw c' k Hc' Hk). unfold cluster_byte. f_equal. apply Hs. intros f Hf'. rewrite Ho in Hf.
    destruct (Hf f Hf') as [-> Hlt]. destruct (lba_eq d c' Hv Hc') as (-> & _). unfold in_vol in *. pose proof (v_spc _ Hv).
    assert (0 <= k / 512) by divlia. nia.
Qed.

Lemma alloc_cluster_view d F C : view d F C ->
  (alloc_cluster d = (0, d) /\ forall c, in_vol c -> F c <> 0) \/
  exists c d', alloc_cluster d = (c, d') /\ in_vol c /\ F c = 0 /\ (forall j, 2 <= j < c -> F j <> 0) /\ view d' (<[c := 0x0FFFFFFF]> F) C.
Proof.
  intros Hvw. pose proof (vw_ok _ _ _ Hvw) as Hv. pose proof (v_total _ Hv). unfold alloc_cluster. rewrite (u32_small (_ + 2)) by (mach; lia).
  destruct (find_range 2 _ _) as [c |] eqn:Hf.
  - apply find_range_Some in Hf as (Hc & E%Z.eqb_eq & Hj). rewrite (vw_fat _ _ _ Hvw c Hc) in E. right.
    destruct (write_fat_view d F C c 0x0FFFFFFF Hvw Hc) as (d' & -> & Hvw'). exists c, d'. split_and!; try done; try apply Hc.
    intros j Hj'. specialize (Hj j Hj'). rewrite (vw_fat _ _ _ Hvw) in Hj by (unfold in_vol; lia). by apply Z.eqb_neq.
  - left. split; [done |]. intros c Hc. rewrite <- (vw_fat _ _ _ Hvw c Hc). apply Z.eqb_neq. by apply (proj1 (find_range_None _ _ _) Hf).
Qed.

Lemma sector_inj d c c' s s' : vol_ok d -> in_vol c -> in_vol c' -> 0 <= s < sectors_per_cluster m -> 0 <= s' < sectors_per_cluster m ->
  cluster_to_lba m c + s = cluster_to_lba m c' + s' -> c = c' /\ s = s'.
Proof.
  intros Hv Hc Hc' Hs Hs'. destruct (lba_eq d c Hv Hc) as (-> & _). destruct (lba_eq d c' Hv Hc') as (-> & _). intros E.
  assert (c = c'); nia.
Qed.

(** The address of a sector of a cluster. *)
Lemma cluster_sector d c s : vol_ok d -> in_vol c -> 0 <= s < sectors_per_cluster m ->
  u32 (cluster_to_lba m c + s) = cluster_to_lba m c + s /\ data_start m <= cluster_to_lba m c + s < sector_count d.
Proof.
  intros Hv Hc Hs. destruct (lba_eq d c Hv Hc) as (E & Hst & Hb). pose proof (v_size _ Hv). unfold in_vol in Hc.
  assert (0 <= (c - 2) * sectors_per_cluster m) by nia. rewrite u32_small by (mach; lia). lia.
Qed.

(** A change of data sectors leaves the table alone. *)
Lemma table_kept d d' F C : view d F C -> sector_count d' = sector_count d -> (forall l, l < data_start m -> sector d' l = sector d l) ->
  forall c, in_vol c -> read_fat d' c = F c.
Proof.
  intros Hvw Hn Hs c Hc. pose proof (vw_ok _ _ _ Hvw) as Hv. rewrite <- (vw_fat _ _ _ Hvw c Hc).
  destruct (read_fat_eq d c Hv Hc) as (-> & _). destruct (read_fat_eq d' c) as (-> & _); [by apply (vol_ok_count d) | done |].
  destruct (fat_geometry d c Hv Hc) as (_ & _ & Hf & _). pose proof (v_fats _ Hv). destruct (Hf 0 ltac:(lia)) as [_ Hlt].
  rewrite Hs by lia. done.
Qed.

Lemma zero_cluster_view d F C c : view d F C -> in_vol c ->
  exists d', zero_cluster c d = (true, d') /\ view d' F (<[c := fun _ => 0]> C).
Proof.
  intros Hvw Hc. pose proof (vw_ok _ _ _ Hvw) as Hv. unfold zero_cluster.
  destruct (write_run (fun s => u32 (cluster_to_lba m c + s)) (replicate 512 0) (sectors_per_cluster m) 0 d) as (d' & -> & Hcnt & Hi & Hs).
  { apply length_replicate. }
  { apply Forall_replicate. unfold U8. lia. }
  { intros s Hs. destruct (cluster_sector d c s Hv Hc Hs) as [-> ?]. destruct (lba_eq d c Hv Hc). lia. }
  exists d'. split; [done |]. split; [by apply (vol_ok_count d) | |].
  - apply (table_kept d d' F C Hvw Hcnt). intros l Hl. apply Hs. intros s Hs'. destruct (cluster_sector d c s Hv Hc Hs'). lia.
  - intros c' k Hc' Hk. assert (0 <= k / 512 < sectors_per_cluster m) as Hq by divlia. unfold cluster_byte. rewrite upd_at. case_decide as E.
    + subst c'. specialize (Hi (k / 512) Hq). cbv beta in Hi. destruct (cluster_sector d c (k / 512) Hv Hc Hq) as [E _]. rewrite E in Hi. rewrite Hi.
      unfold at_index. destruct (decide (Z.to_nat (k mod 512) < 512)%nat); [by rewrite lookup_replicate_2 |].
      rewrite lookup_ge_None_2; [done | rewrite length_replicate; lia].
    + rewrite <- (vw_data _ _ _ Hvw c' k Hc' Hk). unfold cluster_byte. f_equal. apply Hs. intros s Hs'.
      destruct (cluster_sector d c s Hv Hc Hs') as [-> _]. intros E'. apply E. by destruct (sector_inj d c c' s (k / 512) Hv Hc Hc' Hs' Hq E').
Qed.

(** Writing bytes [src] at [intra] of a cluster, inside one sector. *)
Lemma write_sector_view d F C c intra src : view d F C -> in_vol c -> 0 <= intra < sectors_per_cluster m * 512 ->
  intra mod 512 + Z.of_nat (length src) <= 512 -> Forall U8 src ->
  exists d', dev_write (cluster_to_lba m c + intra / 512) (store (intra mod 512) src (sector d (cluster_to_lba m c + intra / 512))) d = (true, d') /\
    view d' F (<[c := fun k => if decide (intra <= k < intra + Z.of_nat (length src)) then at_index src (k - intra) else C c k]> C).
Proof.
  intros Hvw Hc Hi Hlen Hb. pose proof (vw_ok _ _ _ Hvw) as Hv. assert (0 <= intra / 512 < sectors_per_cluster m) as Hq by divlia.
  destruct (cluster_sector d c (intra / 512) Hv Hc Hq) as [_ Hr]. pose proof (lba_eq d c Hv Hc) as (_ & Hst & _).
  destruct (dev_read_ok d (cluster_to_lba m c + intra / 512)) as (_ & Hl & Hu); [lia |].
  destruct (dev_write_ok d (cluster_to_lba m c + intra / 512) (store (intra mod 512) src (sector d (cluster_to_lba m c + intra / 512))))
    as (d' & -> & Hcnt & Hs); [lia | by rewrite length_store | by apply store_U8 |].
  exists d'. split; [done |]. split; [by apply (vol_ok_count d) | |].
  - apply (table_kept d d' F C Hvw Hcnt). intros l Hl'. rewrite Hs, decide_False by lia. done.
  - intros c' k Hc' Hk. assert (0 <= k / 512 < sectors_per_cluster m) as Hqk by divlia. rewrite upd_at. unfold cluster_byte. rewrite Hs.
    case_decide as E.
    + destruct (sector_inj d c' c (k / 512) (intra / 512) Hv Hc' Hc Hqk Hq E) as [-> Ek]. rewrite decide_True by done.
      pose proof (Z.mod_pos_bound intra 512 eq_refl). pose proof (Z.mod_pos_bound k 512 eq_refl).
      pose proof (Z.div_mod intra 512 ltac:(done)). pose proof (Z.div_mod k 512 ltac:(done)).
      rewrite store_index by lia. rewrite <- (vw_data _ _ _ Hvw c k Hc Hk). unfold cluster_byte. rewrite E.
      destruct (decide (intra <= k < _)); [rewrite decide_True by lia; f_equal; lia | by rewrite decide_False by lia].
    + pose proof (vw_data _ _ _ Hvw c' k Hc' Hk) as Ed. unfold cluster_byte in Ed. rewrite Ed. case_decide as Ec; [| done]. subst c'.
      rewrite decide_False; [done |]. intros Hin. apply E. f_equal.
      pose proof (Z.mod_pos_bound intra 512 eq_refl). pose proof (Z.div_mod intra 512 ltac:(done)).
      symmetry. apply (Z.div_unique k 512 _ (k - 512 * (intra / 512))); lia.
Qed.

(** ** Chains *)

(** [cs] are the clusters from the table value [v] on. *)
Fixpoint chain (F : Z -> Z) (v : Z) (cs : list Z) : Prop :=
  match cs with
  | [] => at_end v = true
  | c :: cs' => v = c /\ in_vol c /\ chain F (F c) cs'
  end.

Definition csize : Z := sectors_per_cluster m * 512.

(** Byte [pos] of the file whose clusters are [cs]. *)
Definition file_byte (C : Z -> Z -> Z) (cs : list Z) (pos : Z) : Z := C (at_index cs (pos / csize)) (pos mod csize).

Lemma in_vol_not_end d c : vol_ok d -> in_vol c -> at_end c = false.
Proof.
  intros Hv Hc. pose proof (v_total _ Hv). unfold in_vol in Hc. unfold at_end, is_eoc.
  change 0x0FFFFFFF with (Z.ones 28). rewrite Z.land_ones, Z.mod_small by lia.
  rewrite (proj2 (Z.leb_gt _ c)), (proj2 (Z.ltb_ge c 2)) by lia. done.
Qed.

Lemma chain_in F v cs c : chain F v cs -> c ∈ cs -> in_vol c.
Proof.
  revert v. induction cs as [| c' cs IH]; intros v; [by intros _ ?%not_elem_of_nil |]. intros (_ & Hc & Ht) [-> | Hin]%elem_of_cons; [done |].
  by apply (IH (F c')).
Qed.

Lemma chain_drop F v cs i c : chain F v cs -> cs !! i = Some c -> in_vol c /\ chain F (F c) (drop (S i) cs).
Proof.
  revert v i. induction cs as [| c' cs IH]; intros v i; [done |]. intros (_ & Hc & Ht). destruct i as [| i].
  - intros [= <-]. done.
  - intros Hi. cbn [drop]. by apply (IH (F c')).
Qed.

Lemma chain_next F v cs i c : chain F v cs -> cs !! i = Some c -> match cs !! S i with Some c' => F c = c' | None => at_end (F c) = true end.
Proof.
  intros Hch Hi. destruct (chain_drop F v cs i c Hch Hi) as [_ Hd]. destruct (drop (S i) cs) as [| x t] eqn:E.
  - apply (f_equal length) in E. rewrite length_drop in E. cbn [length] in E. rewrite lookup_ge_None_2 by lia. exact Hd.
  - assert (cs !! S i = Some x) as ->. { rewrite <- (Nat.add_0_r (S i)), <- lookup_drop, E. done. } by destruct Hd.
Qed.

Lemma cluster_chain_det d F v cs cs' : vol_ok d -> chain F v cs -> chain F v cs' -> cs = cs'.
Proof.
  intros Hv. revert v cs'. induction cs as [| c cs IH]; intros v [| c' cs']; cbn [chain]; try done.
  - intros He (-> & Hc & _). rewrite (in_vol_not_end d) in He by done. done.
  - intros (-> & Hc & _) He. rewrite (in_vol_not_end d) in He by done. done.
  - intros (-> & Hc & H1) (<- & _ & H2). f_equal. by apply (IH (F c)).
Qed.

(** A chain that ends visits no cluster twice. *)
Lemma cluster_chain_NoDup d F v cs : vol_ok d -> chain F v cs -> NoDup cs.
Proof.
  intros Hv Hch. apply NoDup_alt. intros i j c Hi Hj.
  assert (length (drop (S i) cs) = length (drop (S j) cs)) as E.
  { f_equal. apply (cluster_chain_det d F (F c)); [done | by apply (chain_drop F v cs i) | by apply (chain_drop F v cs j)]. }
  rewrite !length_drop in E. apply lookup_lt_Some in Hi, Hj. lia.
Qed.

Lemma follow_chain d F C v cs n i c : view d F C -> chain F v cs -> cs !! i = Some c -> follow n d c = cs !! (i + n)%nat.
Proof.
  intros Hvw Hch. pose proof (vw_ok _ _ _ Hvw) as Hv. revert i c. induction n as [| n IH]; intros i c Hi; [by rewrite Nat.add_0_r |]. cbn [follow].
  destruct (chain_drop F v cs i c Hch Hi) as [Hc _]. rewrite (vw_fat _ _ _ Hvw c Hc). pose proof (chain_next F v cs i c Hch Hi) as Hn.
  destruct (cs !! S i) as [c' |] eqn:Hs.
  - rewrite Hn, (in_vol_not_end d c') by (done || apply (chain_drop F v cs (S i) c' Hch Hs)). rewrite (IH (S i) c' Hs). f_equal. lia.
  - rewrite Hn. symmetry. apply lookup_ge_None_2. apply lookup_ge_None_1 in Hs. lia.
Qed.

Lemma file_byte_at d C cs i c x : vol_ok d -> cs !! i = Some c -> 0 <= x < csize -> file_byte C cs (Z.of_nat i * csize + x) = C c x.
Proof.
  intros Hv Hi Hx. pose proof (v_spc _ Hv). assert (0 < csize) by (unfold csize; lia). unfold file_byte.
  rewrite (Z.add_comm (_ * _)), Z.div_add, Z.mod_add by lia. rewrite Z.div_small, Z.mod_small by lia. unfold at_index.
  rewrite Z.add_0_l, Nat2Z.id, Hi. done.
Qed.

(** ** Reading *)

(** The bytes of a file from [pos] on. *)
Definition file_bytes (C : Z -> Z -> Z) (cs : list Z) (pos n : Z) : list Z := (fun k => file_byte C cs (pos + k)) <$> seqZ 0 n.

Lemma file_bytes_app C cs pos a b : 0 <= a -> 0 <= b -> file_bytes C cs pos (a + b) = file_bytes C cs pos a ++ file_bytes C cs (pos + a) b.
Proof.
  intros Ha Hb. unfold file_bytes. rewrite seqZ_app, fmap_app by done. f_equal. rewrite <- (Z.add_0_r (0 + a)), <- (fmap_add_seqZ (0 + a) 0).
  rewrite <- list_fmap_compose. apply list_fmap_ext. intros i x _. cbn. f_equal. lia.
Qed.

Lemma file_bytes_chunk d F C cs i c x n : view d F C -> in_vol c -> cs !! i = Some c -> 0 <= x < csize -> 0 <= n -> x mod 512 + n <= 512 ->
  slice (x mod 512) n (sector d (cluster_to_lba m c + x / 512)) = file_bytes C cs (Z.of_nat i * csize + x) n.
Proof.
  intros Hvw Hc Hi Hx Hn Hb. pose proof (vw_ok _ _ _ Hvw) as Hv. assert (0 <= x / 512 < sectors_per_cluster m) as Hq by (unfold csize in Hx; divlia).
  destruct (cluster_sector d c (x / 512) Hv Hc Hq) as [_ Hr]. pose proof (lba_eq d c Hv Hc) as (_ & Hst & _).
  destruct (dev_read_ok d (cluster_to_lba m c + x / 512)) as (_ & Hl & _); [lia |].
  pose proof (Z.mod_pos_bound x 512 eq_refl) as Hm. pose proof (Z.div_mod x 512 ltac:(done)) as Hdm.
  rewrite (seqZ_index (slice _ _ _)), slice_length by lia. unfold file_bytes. apply list_fmap_ext. intros j k [-> Hj]%lookup_seqZ.
  rewrite slice_index by lia. rewrite <- Z.add_assoc, Z.add_0_l. set (k := Z.of_nat j) in *.
  assert (x + k < csize) as Hk. { unfold csize in *. lia. }
  rewrite (file_byte_at d C cs i c (x + k) Hv Hi) by lia. rewrite <- (vw_data _ _ _ Hvw c (x + k) Hc) by (fold csize; lia). unfold cluster_byte.
  replace ((x + k) / 512) with (x / 512) by (apply (Z.div_unique _ _ _ (x mod 512 + k)); lia). f_equal.
  apply (Z.mod_unique _ _ (x / 512)); lia.
Qed.

(** The piece of a request that lies in one sector. *)
Definition piece (intra len : Z) : Z := Z.min len (512 - intra mod 512).

Lemma piece_ok d intra len : vol_ok d -> 0 <= intra < csize -> 0 < len ->
  u32 (intra / 512) = intra / 512 /\ u32 (intra mod 512) = intra mod 512 /\
  (if len <? u32 (512 - intra mod 512) then len else u32 (512 - intra mod 512)) = piece intra len /\
  0 < piece intra len <= len /\ intra + piece intra len <= csize /\ u64 (intra + piece intra len) = intra + piece intra len /\
  intra mod 512 + piece intra len <= 512 /\ 0 <= intra / 512 < sectors_per_cluster m.
Proof.
  intros Hv Hi Hl. pose proof (v_spc _ Hv). unfold csize in *. pose proof (Z.mod_pos_bound intra 512 eq_refl) as Hm. pose proof (Z.div_mod intra 512 ltac:(done)) as Hdm.
  assert (0 <= intra / 512 < sectors_per_cluster m) as Hq by divlia.
  rewrite (u32_small (intra / 512)), (u32_small (intra mod 512)), (u32_small (512 - intra mod 512)) by (mach; lia).
  assert (0 < piece intra len <= len /\ intra + piece intra len <= sectors_per_cluster m * 512) as [Hp Hc] by (unfold piece; lia).
  rewrite u64_small by (mach; lia). split_and!; try done; try lia; unfold piece; [| lia].
  destruct (Z.ltb_spec len (512 - intra mod 512)); lia.
Qed.

Lemma read_loop_spec d F C v cs fuel i c intra len dst : view d F C -> chain F v cs -> cs !! i = Some c -> 0 <= intra <= csize ->
  len <= Z.of_nat fuel ->
  read_loop fuel d c intra len dst =
  dst ++ file_bytes C cs (Z.of_nat i * csize + intra) (Z.max 0 (Z.min len (Z.of_nat (length cs) * csize - (Z.of_nat i * csize + intra)))).
Proof.
  intros Hvw Hch. pose proof (vw_ok _ _ _ Hvw) as Hv. pose proof (v_spc _ Hv) as Hspc.
  assert (0 < csize) as Hcs by (unfold csize; lia). assert (cluster_bytes m = csize) as Ecb by by apply (cluster_bytes_eq d).
  revert i c intra len dst. induction fuel as [| fuel IH]; intros i c intra len dst Hi Hin Hlen; cbn [read_loop].
  { rewrite Z.max_l by lia. by rewrite app_nil_r. }
  destruct (Z.leb_spec len 0) as [Hz | Hpos]. { rewrite Z.max_l by lia. by rewrite app_nil_r. }
  rewrite Ecb, (follow_chain d F C v cs _ i c Hvw Hch Hi).
  set (n := Z.to_nat (intra / csize)). set (x := intra mod csize).
  assert (Z.of_nat i * csize + intra = Z.of_nat (i + n) * csize + x /\ 0 <= x < csize) as [Epos Hx].
  { pose proof (Z.div_mod intra csize ltac:(lia)). pose proof (Z.mod_pos_bound intra csize Hcs). assert (0 <= intra / csize) by (apply Z.div_pos; lia).
    unfold n, x. rewrite Nat2Z.inj_add, Z2Nat.id by done. lia. }
  rewrite Epos. destruct (cs !! (i + n)%nat) as [c' |] eqn:Hc'.
  2: { apply lookup_ge_None_1 in Hc'. rewrite Z.max_l by nia. by rewrite app_nil_r. }
  destruct (chain_drop F v cs _ c' Hch Hc') as [Hvol _]. rewrite (in_vol_not_end d c' Hv Hvol). pose proof (lookup_lt_Some _ _ _ Hc') as Hlt.
  destruct (piece_ok d x len Hv Hx Hpos) as (-> & -> & -> & Hp & Hpc & -> & Hp5 & Hq).
  destruct (cluster_sector d c' (x / 512) Hv Hvol Hq) as [-> Hr]. pose proof (lba_eq d c' Hv Hvol) as (_ & Hst & _).
  destruct (dev_read_ok d (cluster_to_lba m c' + x / 512)) as (-> & _); [lia |].
  rewrite (IH (i + n)%nat c' (x + piece x len) (len - piece x len) _ Hc') by lia.
  rewrite (file_bytes_chunk d F C cs (i + n)%nat c' x _ Hvw Hvol Hc' Hx) by lia. rewrite <- app_assoc. f_equal.
  rewrite Z.add_assoc, <- file_bytes_app by lia. f_equal. nia.
Qed.

Lemma chain_read_spec d F C v cs off len : view d F C -> chain F v cs -> cs <> [] -> 0 <= off -> 0 <= len ->
  chain_read d v off len = file_bytes C cs off (Z.max 0 (Z.min len (Z.of_nat (length cs) * csize - off))).
Proof.
  intros Hvw Hch Hne Hoff Hlen. pose proof (vw_ok _ _ _ Hvw) as Hv. pose proof (v_spc _ Hv) as Hspc.
  assert (0 < csize) as Hcs by (unfold csize; lia). assert (cluster_bytes m = csize) as Ecb by by apply (cluster_bytes_eq d).
  unfold chain_read. destruct (Z.eqb_spec len 0) as [-> | Hnz]. { by rewrite Z.max_l by lia. }
  destruct cs as [| c cs']; [done |]. pose proof Hch as (-> & _). rewrite Ecb, (follow_chain d F C c (c :: cs') _ 0 c Hvw Hch eq_refl).
  pose proof (Z.div_mod off csize ltac:(lia)) as Hdm. pose proof (Z.mod_pos_bound off csize Hcs) as Hm.
  assert (0 <= off / csize) as Hq by (apply Z.div_pos; lia).
  cbn [Nat.add]. destruct ((c :: cs') !! _) as [c' |] eqn:Hc'.
  - rewrite (read_loop_spec d F C c (c :: cs') _ _ c' _ _ [] Hvw Hch Hc') by lia. rewrite app_nil_l, Z2Nat.id by lia. f_equal; [lia |]. f_equal. f_equal. lia.
  - apply lookup_ge_None_1 in Hc'. rewrite Z.max_l by nia. done.
Qed.

(** ** Growing a chain *)

(** No cluster of the chain is marked as free. *)
Definition owned (F : Z -> Z) (cs : list Z) : Prop := Forall (fun c => F c <> 0) cs.

Definition free_clusters (F : Z -> Z) : Z := count_range 2 (total_clusters m + 2) (fun c => F c =? 0).

(** The contents of a chain, continued with zeroes. *)
Definition content (C : Z -> Z -> Z) (cs : list Z) (p : Z) : Z := if decide (p < Z.of_nat (length cs) * csize) then file_byte C cs p else 0.

(** The chain [cs] became [cs1] by appending free clusters; no other cluster changed. *)
Record grown (F : Z -> Z) (C : Z -> Z -> Z) (cs : list Z) (F1 : Z -> Z) (C1 : Z -> Z -> Z) (cs1 : list Z) : Prop := {
  gr_new : exists new, cs1 = cs ++ new /\ Forall (fun c => in_vol c /\ F c = 0) new;
  gr_fat : forall c, in_vol c -> c ∉ cs1 -> F1 c = F c;
  gr_data : forall c k, in_vol c -> c ∉ cs1 -> C1 c k = C c k;
  gr_free : free_clusters F1 + Z.of_nat (length cs1) = free_clusters F + Z.of_nat (length cs);
}.

Lemma grown_refl F C cs : grown F C cs F C cs.
Proof. split; try done. exists []. by rewrite app_nil_r. Qed.

Lemma grown_trans F C cs F1 C1 cs1 F2 C2 cs2 : NoDup cs2 -> grown F C cs F1 C1 cs1 -> grown F1 C1 cs1 F2 C2 cs2 -> grown F C cs F2 C2 cs2.
Proof.
  intros Hnd [(n1 & -> & H1) G1 D1 R1] [(n2 & -> & H2) G2 D2 R2]. apply NoDup_app in Hnd as (Hnd1 & Hdis & _). split.
  - exists (n1 ++ n2). split; [by rewrite app_assoc |]. apply Forall_app. split; [done |]. rewrite Forall_forall in H2. apply Forall_forall. intros c Hc.
    destruct (H2 c Hc) as [Hv Hz]. split; [done |]. rewrite <- G1; [done | done |]. intros Hin. by apply (Hdis c).
  - intros c Hv Hc. rewrite G2 by done. apply G1; [done |]. intros Hin. apply Hc. apply elem_of_app. by left.
  - intros c k Hv Hc. rewrite D2 by done. apply D1; [done |]. intros Hin. apply Hc. apply elem_of_app. by left.
  - lia.
Qed.

Lemma free_take F c v : in_vol c -> F c = 0 -> v <> 0 -> free_clusters (<[c := v]> F) = free_clusters F - 1.
Proof.
  intros Hc H0 Hv. unfold free_clusters. rewrite (count_range_update 2 (total_clusters m + 2) (fun x => F x =? 0) _ c Hc).
  - rewrite H0, fn_lookup_insert, (proj2 (Z.eqb_neq v 0) Hv). cbn [Z.b2z Z.eqb]. lia.
  - intros i _ Hi. by rewrite fn_lookup_insert_ne.
Qed.

Lemma free_same F c v : in_vol c -> F c <> 0 -> v <> 0 -> free_clusters (<[c := v]> F) = free_clusters F.
Proof.
  intros Hc H0 Hv. unfold free_clusters. apply count_range_ext. intros i _. rewrite upd_at. case_decide as E; [subst i | done].
  by rewrite (proj2 (Z.eqb_neq v 0) Hv), (proj2 (Z.eqb_neq _ 0) H0).
Qed.

Lemma free_none F : (forall c, in_vol c -> F c <> 0) -> free_clusters F = 0.
Proof.
  intros Hn. unfold free_clusters. rewrite (count_range_ext _ _ _ (fun _ => false)).
  - generalize 2 at 1. intros a. pattern a. apply range_ind with (total_clusters m + 2); clear a.
    + intros a Ha. by rewrite count_range_done.
    + intros a Ha IH. rewrite count_range_cons by lia. done.
  - intros i Hi. by apply Z.eqb_neq, Hn.
Qed.

(** Entries outside a chain do not matter to it. *)
Lemma cluster_chain_ext F F' v cs : (forall c, c ∈ cs -> F' c = F c) -> chain F v cs -> chain F' v cs.
Proof.
  revert v. induction cs as [| c cs IH]; intros v He; [done |]. intros (-> & Hc & Ht). split; [done |]. split; [done |].
  rewrite (He c) by apply list_elem_of_here. apply IH; [| done]. intros x Hx. apply He. by apply list_elem_of_further.
Qed.

Lemma chain_snoc F v cs c n : chain F v (cs ++ [c]) -> NoDup (cs ++ [c]) -> in_vol n -> n ∉ cs ++ [c] ->
  chain (<[c := n]> (<[n := 0x0FFFFFFF]> F)) v (cs ++ [c; n]).
Proof.
  revert v. induction cs as [| x cs IH]; intros v; cbn [app chain].
  - intros (-> & Hc & _) _ Hn Hnin. apply not_elem_of_cons in Hnin as [Hne _]. split; [done |]. split; [done |]. rewrite fn_lookup_insert.
    split; [done |]. split; [done |]. rewrite fn_lookup_insert_ne, fn_lookup_insert by done. reflexivity.
  - intros (-> & Hc & Ht) [Hx Hnd]%NoDup_cons Hn [Hne Hnin]%not_elem_of_cons. split; [done |]. split; [done |].
    rewrite !fn_lookup_insert_ne; [by apply IH | done |]. intros ->. apply Hx, elem_of_app. right. apply list_elem_of_here.
Qed.

Lemma file_byte_app C cs n p d : vol_ok d -> 0 <= p < Z.of_nat (length cs) * csize -> file_byte C (cs ++ n) p = file_byte C cs p.
Proof.
  intros Hv Hp. pose proof (v_spc _ Hv). assert (0 < csize) by (unfold csize; lia). unfold file_byte. f_equal. unfold at_index.
  assert (0 <= p / csize < Z.of_nat (length cs)) by (split; [apply Z.div_pos; lia | apply Z.div_lt_upper_bound; lia]).
  by rewrite lookup_app_l by lia.
Qed.

Lemma file_byte_ext d C C' cs p : vol_ok d -> (forall c k, c ∈ cs -> C' c k = C c k) -> 0 <= p < Z.of_nat (length cs) * csize -> file_byte C' cs p = file_byte C cs p.
Proof.
  intros Hv He Hp. pose proof (v_spc _ Hv). assert (0 < csize) by (unfold csize; lia). unfold file_byte. apply He. unfold at_index.
  assert (0 <= p / csize < Z.of_nat (length cs)) by (split; [apply Z.div_pos; lia | apply Z.div_lt_upper_bound; lia]).
  destruct (lookup_lt_is_Some_2 cs (Z.to_nat (p / csize))) as [c Hc]; [lia |]. rewrite Hc. by apply list_elem_of_lookup_2 in Hc.
Qed.

(** A zeroed cluster at the end does not change the contents. *)
Lemma content_snoc d C cs n p : vol_ok d -> n ∉ cs -> 0 <= p -> content (<[n := fun _ => 0]> C) (cs ++ [n]) p = content C cs p.
Proof.
  intros Hv Hn Hp. pose proof (v_spc _ Hv). assert (0 < csize) by (unfold csize; lia). unfold content. rewrite length_app. cbn [length].
  destruct (decide (p < Z.of_nat (length cs) * csize)) as [Hlt | Hge].
  - rewrite decide_True by nia. rewrite (file_byte_app _ _ _ _ d) by (done || lia). apply (file_byte_ext d); [done | | lia].
    intros c k Hc. rewrite fn_lookup_insert_ne; [done |]. by intros ->.
  - case_decide; [| done]. replace p with (Z.of_nat (length cs) * csize + (p - Z.of_nat (length cs) * csize)) by lia.
    rewrite (file_byte_at d _ _ (length cs) n); [by rewrite fn_lookup_insert | done | | lia]. by rewrite lookup_app_r, Nat.sub_diag by lia.
Qed.

(** A file of the volume: its chain, with no cluster marked as free. *)
Record file (d : D) (F : Z -> Z) (C : Z -> Z -> Z) (v : Z) (cs : list Z) : Prop := {
  fl_view : view d F C;
  fl_chain : chain F v cs;
  fl_owned : owned F cs;
}.

(** ... and what it became by growing, with the contents kept. *)
Record longer (F : Z -> Z) (C : Z -> Z -> Z) (cs : list Z) (d1 : D) (F1 : Z -> Z) (C1 : Z -> Z -> Z) (v : Z) (cs1 : list Z) : Prop := {
  lg_file : file d1 F1 C1 v cs1;
  lg_grown : grown F C cs F1 C1 cs1;
  lg_content : forall p, 0 <= p -> content C1 cs1 p = content C cs p;
}.

Lemma file_nodup d F C v cs : file d F C v cs -> NoDup cs.
Proof. intros [Hvw Hch _]. apply (cluster_chain_NoDup d F v); [apply (vw_ok _ _ _ Hvw) | done]. Qed.

Lemma in_vol_mask d c : vol_ok d -> in_vol c -> c .& 0x0FFFFFFF = c.
Proof.
  intros Hv Hc. pose proof (v_total _ Hv). unfold in_vol in Hc. change 0x0FFFFFFF with (Z.ones 28). rewrite Z.land_ones, Z.mod_small by lia. done.
Qed.

Lemma longer_snoc d F C v cs c n d1 : file d F C v (cs ++ [c]) -> in_vol n -> F n = 0 ->
  view d1 (<[c := n]> (<[n := 0x0FFFFFFF]> F)) (<[n := fun _ => 0]> C) ->
  longer F C (cs ++ [c]) d1 (<[c := n]> (<[n := 0x0FFFFFFF]> F)) (<[n := fun _ => 0]> C) v ((cs ++ [c]) ++ [n]).
Proof.
  intros Hf Hn H0 Hvw1. pose proof (file_nodup _ _ _ _ _ Hf) as Hnd. destruct Hf as [Hvw Hch How]. unfold owned in How. rewrite Forall_forall in How.
  assert (n ∉ cs ++ [c]) as Hnin by (intros Hin; by apply (How n Hin)).
  assert (c ∈ cs ++ [c]) as Hcin by (apply elem_of_app; right; apply list_elem_of_here).
  assert (c <> n) as Hne by (intros ->; done). assert (n <> 0) by (unfold in_vol in Hn; lia). split.
  - split; [done | rewrite <- app_assoc; by apply chain_snoc |]. apply Forall_forall. intros x Hx. rewrite !upd_at. repeat case_decide; try done.
    apply How. apply elem_of_app in Hx as [Hx | ->%list_elem_of_singleton]; [done |]. done.
  - split.
    + exists [n]. split; [done |]. by apply Forall_singleton.
    + intros x Hx Hx'. rewrite !upd_at. rewrite !decide_False; [done | |]; intros ->; apply Hx'; apply elem_of_app; [right; apply list_elem_of_here | by left].
    + intros x k Hx Hx'. rewrite upd_at, decide_False; [done |]. intros ->. apply Hx', elem_of_app. right. apply list_elem_of_here.
    + rewrite free_same, free_take; [rewrite (length_app _ [n]); cbn [length]; lia | done | done | done | | | done].
      * by apply (chain_in F v (cs ++ [c])).
      * rewrite fn_lookup_insert_ne by done. by apply How.
  - intros p Hp. apply (content_snoc d); [apply (vw_ok _ _ _ Hvw) | done | done].
Qed.

Lemma next_or_alloc_spec d F C v cs i c : file d F C v cs -> cs !! i = Some c ->
  (exists c', cs !! S i = Some c' /\ next_or_alloc c d = (Moved c', d)) \/
  (S i = length cs /\ free_clusters F = 0 /\ next_or_alloc c d = (Full, d)) \/
  (S i = length cs /\ exists n d1 F1 C1, next_or_alloc c d = (Moved n, d1) /\ longer F C cs d1 F1 C1 v (cs ++ [n])).
Proof.
  intros Hf Hi. pose proof Hf as [Hvw Hch How]. pose proof (vw_ok _ _ _ Hvw) as Hv. unfold next_or_alloc.
  destruct (chain_drop F v cs i c Hch Hi) as [Hc _]. rewrite (vw_fat _ _ _ Hvw c Hc). pose proof (chain_next F v cs i c Hch Hi) as Hn.
  destruct (cs !! S i) as [c' |] eqn:Hs.
  { rewrite Hn, (in_vol_not_end d c') by (done || apply (chain_drop F v cs (S i) c' Hch Hs)). left. by exists c'. }
  rewrite Hn. right. assert (S i = length cs) as Hlen by (apply lookup_ge_None_1 in Hs; apply lookup_lt_Some in Hi; lia).
  destruct (alloc_cluster_view d F C Hvw) as [[-> Hnone] | (n & d1 & -> & Hnv & Hn0 & _ & Hvw1)].
  { left. split; [done |]. split; [by apply free_none | done]. }
  right. split; [done |]. rewrite (proj2 (Z.eqb_neq n 0)) by (unfold in_vol in Hnv; lia).
  destruct (zero_cluster_view d1 _ _ n Hvw1 Hnv) as (d2 & -> & Hvw2). destruct (write_fat_view d2 _ _ c n Hvw2 Hc) as (d3 & -> & Hvw3).
  rewrite (in_vol_mask d n Hv Hnv) in Hvw3. exists n, d3. do 2 eexists. split; [done |].
  assert (exists t, cs = t ++ [c]) as [t ->].
  { exists (take i cs). rewrite <- (take_drop i cs) at 1. f_equal. rewrite (drop_S _ _ _ Hi). f_equal. apply drop_ge. lia. }
  by apply (longer_snoc d).
Qed.

Lemma longer_refl d F C v cs : file d F C v cs -> longer F C cs d F C v cs.
Proof. intros Hf. split; [done | apply grown_refl | done]. Qed.

Lemma longer_trans F C cs d1 F1 C1 v cs1 d2 F2 C2 cs2 : longer F C cs d1 F1 C1 v cs1 -> longer F1 C1 cs1 d2 F2 C2 v cs2 -> longer F C cs d2 F2 C2 v cs2.
Proof.
  intros [_ G1 E1] [H2 G2 E2]. split; [done | |].
  - apply (grown_trans _ _ _ F1 C1 cs1); [by apply (file_nodup _ _ _ _ _ H2) | done | done].
  - intros p Hp. rewrite E2 by done. by apply E1.
Qed.

Lemma seek_loop_spec d F C v cs n i c : file d F C v cs -> cs !! i = Some c ->
  exists r d1 F1 C1 cs1, seek_loop n c d = (r, d1) /\ longer F C cs d1 F1 C1 v cs1 /\
    ((exists c1, r = inl c1 /\ cs1 !! (i + n)%nat = Some c1) \/ (r = inr E_NOSPACE /\ free_clusters F1 = 0 /\ (length cs1 <= i + n)%nat)).
Proof.
  revert d F C cs i c. induction n as [| n IH]; intros d F C cs i c Hf Hi; cbn [seek_loop].
  { exists (inl c), d, F, C, cs. split; [done |]. split; [by apply longer_refl |]. left. exists c. by rewrite Nat.add_0_r. }
  destruct (next_or_alloc_spec d F C v cs i c Hf Hi) as [(c' & Hc' & ->) | [(Hl & H0 & ->) | (Hl & c' & d1 & F1 & C1 & -> & L1)]].
  - destruct (IH d F C cs (S i) c' Hf Hc') as (r & d2 & F2 & C2 & cs2 & -> & L2 & H2). rewrite Nat.add_succ_comm in H2. by exists r, d2, F2, C2, cs2.
  - exists (inr E_NOSPACE), d, F, C, cs. split; [done |]. split; [by apply longer_refl |]. right. split_and!; [done | done | lia].
  - destruct (IH d1 F1 C1 (cs ++ [c']) (S i) c') as (r & d2 & F2 & C2 & cs2 & -> & L2 & H2); [apply L1 | |].
    { by rewrite Hl, lookup_app_r, Nat.sub_diag. }
    rewrite Nat.add_succ_comm in H2. exists r, d2, F2, C2, cs2. split; [done |]. split; [| done]. by apply (longer_trans _ _ _ d1 F1 C1 v (cs ++ [c'])).
Qed.

(** ** Writing *)

(** [k] bytes of [src] were written at [pos]; all of them, or the volume is full. *)
Record wrote (F : Z -> Z) (C : Z -> Z -> Z) (cs : list Z) (pos : Z) (src : list Z) (k : Z)
    (d1 : D) (F1 : Z -> Z) (C1 : Z -> Z -> Z) (v : Z) (cs1 : list Z) : Prop := {
  wr_file : file d1 F1 C1 v cs1;
  wr_grown : grown F C cs F1 C1 cs1;
  wr_range : 0 <= k <= Z.of_nat (length src);
  wr_inside : 0 < k -> pos + k <= Z.of_nat (length cs1) * csize;
  wr_content : forall p, 0 <= p -> content C1 cs1 p = if decide (pos <= p < pos + k) then at_index src (p - pos) else content C cs p;
  wr_stop : k = Z.of_nat (length src) \/ (free_clusters F1 = 0 /\ Z.of_nat (length cs1) * csize <= pos + k);
}.

Lemma content_write d C cs i c intra n (g : Z -> Z) p : vol_ok d -> NoDup cs -> cs !! i = Some c -> 0 <= intra -> intra + n <= csize -> 0 <= p ->
  content (<[c := fun k => if decide (intra <= k < intra + n) then g (k - intra) else C c k]> C) cs p =
  if decide (Z.of_nat i * csize + intra <= p < Z.of_nat i * csize + intra + n) then g (p - (Z.of_nat i * csize + intra)) else content C cs p.
Proof.
  intros Hv Hnd Hi Hin Hn Hp. pose proof (v_spc _ Hv). assert (0 < csize) as Hcs by (unfold csize; lia). pose proof (lookup_lt_Some _ _ _ Hi) as Hlt.
  unfold content. destruct (decide (p < Z.of_nat (length cs) * csize)) as [Hin' | Hout]. 2: { rewrite decide_False; [done |]. nia. }
  pose proof (Z.div_mod p csize ltac:(lia)) as Hdm. pose proof (Z.mod_pos_bound p csize Hcs) as Hm.
  assert (0 <= p / csize < Z.of_nat (length cs)) as Hq by (split; [apply Z.div_pos; lia | apply Z.div_lt_upper_bound; lia]).
  set (j := Z.to_nat (p / csize)) in *. set (x := p mod csize) in *. assert (p = Z.of_nat j * csize + x) as Ep by (unfold j; lia).
  destruct (lookup_lt_is_Some_2 cs j) as [c' Hj]; [unfold j; lia |]. clearbody j x. clear Hdm Hq. subst p. rewrite !(file_byte_at d _ cs j c' x) by (done || lia). rewrite upd_at.
  destruct (decide (j = i)) as [-> | Hne].
  - rewrite Hi in Hj. injection Hj as <-. rewrite decide_True by done.
    destruct (decide (intra <= x < intra + n)); [rewrite decide_True by lia; f_equal; lia | by rewrite decide_False by lia].
  - rewrite decide_False by (intros ->; apply Hne; by apply (NoDup_lookup cs j i c')). rewrite decide_False; [done |]. intros Hw. apply Hne.
    assert (Z.of_nat j = Z.of_nat i); nia.
Qed.

(** One turn of the loop: the piece of [src] that goes to the current sector. *)
Lemma write_piece d F C v cs i c intra src : file d F C v cs -> cs !! i = Some c -> 0 <= intra < csize -> src <> [] -> Forall U8 src ->
  let n := piece intra (Z.of_nat (length src)) in
  exists d1 C1, dev_read d (u32 (cluster_to_lba m c + u32 (intra / 512))) = Some (sector d (cluster_to_lba m c + intra / 512)) /\
    dev_write (u32 (cluster_to_lba m c + u32 (intra / 512)))
      (store (u32 (intra mod 512)) (slice 0 n src) (sector d (cluster_to_lba m c + intra / 512))) d = (true, d1) /\
    file d1 F C1 v cs /\ grown F C cs F C1 cs /\
    forall p, 0 <= p -> content C1 cs p = if decide (Z.of_nat i * csize + intra <= p < Z.of_nat i * csize + intra + n)
      then at_index src (p - (Z.of_nat i * csize + intra)) else content C cs p.
Proof.
  intros Hf Hi Hin Hne Hb n. pose proof (file_nodup _ _ _ _ _ Hf) as Hnd. destruct Hf as [Hvw Hch How]. pose proof (vw_ok _ _ _ Hvw) as Hv.
  destruct (chain_drop F v cs i c Hch Hi) as [Hc _]. assert (0 < Z.of_nat (length src)) as Hpos by (destruct src; [done | cbn [length]; lia]).
  destruct (piece_ok d intra _ Hv Hin Hpos) as (-> & -> & _ & Hp & Hpc & _ & Hp5 & Hq). fold n in Hp, Hpc, Hp5.
  destruct (cluster_sector d c (intra / 512) Hv Hc Hq) as [-> Hr]. pose proof (lba_eq d c Hv Hc) as (_ & Hst & _).
  destruct (dev_read_ok d (cluster_to_lba m c + intra / 512)) as (Hrd & _); [lia |].
  assert (Z.of_nat (length (slice 0 n src)) = n) as Hsl by (apply slice_length; lia).
  destruct (write_sector_view d F C c intra (slice 0 n src) Hvw Hc Hin) as (d1 & Hwr & Hvw1); [lia | apply Forall_take, Forall_drop, Hb |].
  rewrite Hsl in Hvw1. do 2 eexists. split; [exact Hrd |]. split; [exact Hwr |]. split; [split; [exact Hvw1 | done | done] |]. split.
  - split; try done; [exists []; by rewrite app_nil_r |]. intros x k Hx Hx'. rewrite upd_at, decide_False; [done |]. intros ->. apply Hx'.
    by apply list_elem_of_lookup_2 in Hi.
  - intros p Hp0. rewrite (content_write d C cs i c intra n (at_index (slice 0 n src)) p) by (done || lia). case_decide; [| done].
    rewrite slice_index by lia. f_equal.
Qed.

(** The rest of the source after a piece. *)
Lemma wrote_step F C cs pos src n F1 C1 cs1 k d2 F2 C2 v cs2 : 0 <= pos -> 0 <= n <= Z.of_nat (length src) -> NoDup cs2 ->
  grown F C cs F1 C1 cs1 -> pos + n <= Z.of_nat (length cs1) * csize ->
  (forall p, 0 <= p -> content C1 cs1 p = if decide (pos <= p < pos + n) then at_index src (p - pos) else content C cs p) ->
  wrote F1 C1 cs1 (pos + n) (drop (Z.to_nat n) src) k d2 F2 C2 v cs2 -> 0 < csize ->
  wrote F C cs pos src (n + k) d2 F2 C2 v cs2.
Proof.
  intros Hpos Hn Hnd G1 Hin E1 [Hf G2 Hk Hi2 E2 St] Hcs. rewrite length_drop in Hk, St.
  assert (length cs1 <= length cs2)%nat as Hle. { destruct (gr_new _ _ _ _ _ _ G2) as (nw & -> & _). rewrite length_app. lia. }
  split; [done | by apply (grown_trans _ _ _ F1 C1 cs1) | lia | | |].
  - intros _. destruct (decide (0 < k)); [specialize (Hi2 ltac:(lia)); lia | nia].
  - intros p Hp. rewrite E2 by done. case_decide as H2.
    + rewrite decide_True by lia. unfold at_index. rewrite lookup_drop. do 2 f_equal. lia.
    + rewrite E1 by done. repeat case_decide; done || lia.
  - destruct St as [-> | [? ?]]; [left; lia | right; split; [done | lia]].
Qed.

Lemma wrote_nothing d F C v cs pos : file d F C v cs -> wrote F C cs pos [] 0 d F C v cs.
Proof.
  intros Hf. split; [done | apply grown_refl | cbn [length]; lia | lia | | by left]. intros p Hp. by rewrite decide_False by lia.
Qed.

Lemma write_loop_spec fuel d F C v cs i c intra src written : file d F C v cs -> cs !! i = Some c -> 0 <= intra -> (intra < csize \/ src = []) ->
  Forall U8 src -> (length src <= fuel)%nat ->
  exists k d1 F1 C1 cs1, write_loop fuel c intra src written d = (written + k, d1) /\
    wrote F C cs (Z.of_nat i * csize + intra) src k d1 F1 C1 v cs1.
Proof.
  revert d F C cs i c intra src written. induction fuel as [| fuel IH]; intros d F C cs i c intra src written Hf Hi Hin Hlt Hb Hfuel; cbn [write_loop].
  all: assert (src = [] -> exists d1 F1 C1 cs1, (written, d) = (written + 0, d1) /\ wrote F C cs (Z.of_nat i * csize + intra) src 0 d1 F1 C1 v cs1) as Hnil.
  1,3: intros ->; exists d, F, C, cs; split; [f_equal; lia | by apply wrote_nothing].
  { destruct src; [| cbn [length] in Hfuel; lia]. exists 0. by apply Hnil. }
  destruct (Z.leb_spec (Z.of_nat (length src)) 0) as [Hz | Hpos]. { destruct src; [| cbn [length] in Hz; lia]. exists 0. by apply Hnil. }
  assert (src <> []) as Hne by (intros ->; cbn [length] in Hpos; lia). destruct Hlt as [Hlt | ?]; [| done].
  pose proof (vw_ok _ _ _ (fl_view _ _ _ _ _ Hf)) as Hv. pose proof (v_spc _ Hv). assert (0 < csize) as Hcs by (unfold csize; lia).
  pose proof (cluster_bytes_eq d Hv) as Ecb. fold csize in Ecb.
  destruct (write_piece d F C v cs i c intra src Hf Hi (conj Hin Hlt) Hne Hb) as (d1 & C1 & Hrd & Hwr & Hf1 & G1 & E1).
  destruct (piece_ok d intra (Z.of_nat (length src)) Hv (conj Hin Hlt) Hpos) as (E0 & Eb & Ep & Hp & Hpc & Eu & Hp5 & Hq).
  set (n := piece intra (Z.of_nat (length src))) in *. rewrite Hrd. cbv zeta. rewrite Eb in Hwr |- *. rewrite Ep, Hwr, Eu, Ecb. cbn [negb].
  assert (pos_in : Z.of_nat i * csize + intra + n <= Z.of_nat (length cs) * csize) by (apply lookup_lt_Some in Hi; nia).
  set (src' := drop (Z.to_nat n) src) in *. assert (length src' <= fuel)%nat as Hfuel' by (unfold src'; rewrite length_drop; lia).
  assert (Forall U8 src') as Hb' by by apply Forall_drop.
  (* the rest of the source, from the chain [cs1] on *)
  assert (forall d1 F1 C1 cs1 j c' intra', file d1 F1 C1 v cs1 -> grown F C cs F1 C1 cs1 -> cs1 !! j = Some c' -> 0 <= intra' -> (intra' < csize \/ src' = []) ->
    Z.of_nat j * csize + intra' = Z.of_nat i * csize + intra + n ->
    (forall p, 0 <= p -> content C1 cs1 p = if decide (Z.of_nat i * csize + intra <= p < Z.of_nat i * csize + intra + n)
      then at_index src (p - (Z.of_nat i * csize + intra)) else content C cs p) ->
    exists k d2 F2 C2 cs2, write_loop fuel c' intra' src' (written + n) d1 = (written + k, d2) /\
      wrote F C cs (Z.of_nat i * csize + intra) src k d2 F2 C2 v cs2) as Hrest.
  { intros e1 F1 D1 cs1 j c' intra' Hfj Gj Hj Hin' Hlt' Epos Ej.
    destruct (IH e1 F1 D1 cs1 j c' intra' src' (written + n) Hfj Hj Hin' Hlt' Hb' Hfuel') as (k & d2 & F2 & C2 & cs2 & -> & W).
    exists (n + k), d2, F2, C2, cs2. split; [f_equal; lia |]. rewrite Epos in W.
    apply (wrote_step F C cs _ src n F1 D1 cs1 k); try done; try lia; try nia.
    - apply (file_nodup d2 F2 C2 v). apply W.
    - destruct (gr_new _ _ _ _ _ _ Gj) as (nw & -> & _). rewrite length_app. nia. }
  destruct (Z.leb_spec csize (intra + n)) as [Hend | Hmid]; cbn [andb].
  2: { apply (Hrest d1 F C1 cs i c (intra + n)); try done; [lia | by left | lia]. }
  destruct (Z.ltb_spec 0 (Z.of_nat (length src'))) as [Hmore | Hdone].
  2: { apply (Hrest d1 F C1 cs i c (intra + n)); try done; [lia | | lia]. right. destruct src'; [done | cbn [length] in Hdone; lia]. }
  assert (intra + n = csize) as Een by lia.
  destruct (next_or_alloc_spec d1 F C1 v cs i c Hf1 Hi) as [(c' & Hc' & ->) | [(Hl & H0 & ->) | (Hl & c' & d2 & F2 & C2 & -> & L2)]].
  - apply (Hrest d1 F C1 cs (S i) c' 0); try done; [by left | lia].
  - exists n, d1, F, C1, cs. split; [done |]. split; try done; [unfold src' in Hmore; rewrite length_drop in Hmore; lia |]. right. split; [done | nia].
  - destruct L2 as [Hf2 G2 E2]. apply (Hrest d2 F2 C2 (cs ++ [c']) (S i) c' 0); try done.
    + apply (grown_trans _ _ _ F C1 cs); [by apply (file_nodup _ _ _ _ _ Hf2) | done | done].
    + by rewrite Hl, lookup_app_r, Nat.sub_diag.
    + by left.
    + lia.
    + intros p Hp'. rewrite E2 by done. by apply E1.
Qed.

(** The first cluster of an empty file. *)
Lemma first_cluster_view d F C : view d F C ->
  (alloc_cluster d = (0, d) /\ free_clusters F = 0) \/
  exists c d1 d2 F2 C2, alloc_cluster d = (c, d1) /\ c <> 0 /\ zero_cluster c d1 = (true, d2) /\ longer F C [] d2 F2 C2 c [c].
Proof.
  intros Hvw. destruct (alloc_cluster_view d F C Hvw) as [[-> Hn] | (c & d1 & -> & Hc & H0 & _ & Hvw1)].
  { left. split; [done |]. by apply free_none. }
  right. destruct (zero_cluster_view d1 _ _ c Hvw1 Hc) as (d2 & E & Hvw2). exists c, d1, d2. do 2 eexists. split; [done |].
  split; [unfold in_vol in Hc; lia |]. split; [exact E |]. split.
  - split; [exact Hvw2 | | apply Forall_singleton; by rewrite fn_lookup_insert]. cbn [chain]. rewrite fn_lookup_insert. done.
  - split; [exists [c]; split; [done | by apply Forall_singleton] | | | rewrite free_take by done; cbn [length]; lia].
    + intros x _ Hx%not_elem_of_cons. rewrite fn_lookup_insert_ne; [done | by destruct Hx].
    + intros x k _ Hx%not_elem_of_cons. rewrite fn_lookup_insert_ne; [done | by destruct Hx].
  - intros p Hp. apply (content_snoc d C [] c); [apply (vw_ok _ _ _ Hvw) | apply not_elem_of_nil | done].
Qed.

(** What follows a growth of the chain. *)
Lemma wrote_longer F C cs d1 F1 C1 v1 cs1 pos src k d2 F2 C2 v2 cs2 : longer F C cs d1 F1 C1 v1 cs1 -> wrote F1 C1 cs1 pos src k d2 F2 C2 v2 cs2 ->
  wrote F C cs pos src k d2 F2 C2 v2 cs2.
Proof.
  intros [_ G1 E1] [Hf G2 Hk Hin E2 St]. split; try done.
  - apply (grown_trans _ _ _ F1 C1 cs1); [by apply (file_nodup _ _ _ _ _ Hf) | done | done].
  - intros p Hp. rewrite E2 by done. case_decide; [done |]. by apply E1.
Qed.

Lemma wrote_none F C cs d1 F1 C1 v cs1 pos src : longer F C cs d1 F1 C1 v cs1 -> free_clusters F1 = 0 -> Z.of_nat (length cs1) * csize <= pos ->
  wrote F C cs pos src 0 d1 F1 C1 v cs1.
Proof.
  intros [Hf G E] H0 Hp. split; [done | done | lia | lia | | right; split; [done | lia]]. intros p Hp'. rewrite decide_False by lia. by apply E.
Qed.

(** The writing part of [chain_write], from a chain that has a cluster. *)
Lemma chain_write_tail d F C v cs off src : file d F C v cs -> cs <> [] -> 0 <= off -> src <> [] -> Forall U8 src ->
  exists k r d1 F1 C1 cs1,
    (let '(c, d) := seek_loop (Z.to_nat (off / cluster_bytes m)) v d in
     match c with
     | inr e => (e, v, d)
     | inl cluster => let '(written, d) := write_loop (length src) cluster (off mod cluster_bytes m) src 0 d in (written, v, d)
     end) = (r, v, d1) /\ wrote F C cs off src k d1 F1 C1 v cs1 /\ (r = k /\ 0 < k \/ r = E_NOSPACE /\ k = 0).
Proof.
  intros Hf Hne Hoff Hsrc Hb. pose proof (vw_ok _ _ _ (fl_view _ _ _ _ _ Hf)) as Hv. pose proof (v_spc _ Hv). assert (0 < csize) as Hcs by (unfold csize; lia).
  pose proof (cluster_bytes_eq d Hv) as Ecb. fold csize in Ecb. rewrite Ecb. destruct cs as [| c0 cs0]; [done |].
  pose proof (fl_chain _ _ _ _ _ Hf) as [-> _]. pose proof (Z.div_mod off csize ltac:(lia)) as Hdm. pose proof (Z.mod_pos_bound off csize Hcs) as Hm.
  assert (0 <= off / csize) as Hq by (apply Z.div_pos; lia).
  destruct (seek_loop_spec d F C c0 (c0 :: cs0) (Z.to_nat (off / csize)) 0 c0 Hf eq_refl) as (r & d1 & F1 & C1 & cs1 & -> & L1 & [(c1 & -> & Hc1) | (-> & H0 & Hlen)]).
  - cbn [Nat.add] in Hc1.
    destruct (write_loop_spec (length src) d1 F1 C1 c0 cs1 _ c1 (off mod csize) src 0 (lg_file _ _ _ _ _ _ _ _ L1) Hc1) as (k & d2 & F2 & C2 & cs2 & -> & W);
      [lia | left; lia | done | lia |].
    rewrite Z2Nat.id in W by done. replace (off / csize * csize + off mod csize) with off in W by lia.
    exists k, k, d2, F2, C2, cs2. split; [done |]. split; [by apply (wrote_longer F C _ d1 F1 C1 c0 cs1) |]. left. split; [done |].
    destruct W as [_ G _ _ _ [-> | [_ Hs]]]; [destruct src; [done | cbn [length]; lia] |].
    destruct (gr_new _ _ _ _ _ _ G) as (nw & -> & _). rewrite length_app in Hs. apply lookup_lt_Some in Hc1. nia.
  - exists 0, E_NOSPACE, d1, F1, C1, cs1. split; [done |]. split; [| by right]. apply wrote_none; [done | done |]. cbn [Nat.add] in Hlen. nia.
Qed.

Lemma chain_write_spec d F C v cs off src : file d F C v cs -> (cs = [] -> v < 2) -> 0 <= off -> src <> [] -> Forall U8 src ->
  exists k r v1 d1 F1 C1 cs1, chain_write v off src d = (r, v1, d1) /\ (cs <> [] -> v1 = v) /\ wrote F C cs off src k d1 F1 C1 v1 cs1 /\
    (r = k /\ 0 < k \/ r = E_NOSPACE /\ k = 0).
Proof.
  intros Hf Hv2 Hoff Hsrc Hb. unfold chain_write. rewrite bool_decide_eq_false_2 by done. pose proof (fl_view _ _ _ _ _ Hf) as Hvw.
  destruct cs as [| c cs].
  - rewrite (proj2 (Z.ltb_lt v 2)) by auto. destruct (first_cluster_view d F C Hvw) as [[-> H0] | (c & d1 & d2 & F2 & C2 & -> & Hc & E & L)].
    + exists 0, E_NOSPACE, v, d, F, C, []. split; [done |]. split; [done |]. split; [| by right]. apply wrote_none; [by apply longer_refl | done | cbn [length]; lia].
    + rewrite (proj2 (Z.eqb_neq c 0) Hc), E. cbv iota beta. rewrite (proj2 (Z.eqb_neq c 0) Hc).
      destruct (chain_write_tail d2 F2 C2 c [c] off src (lg_file _ _ _ _ _ _ _ _ L)) as (k & r & d3 & F3 & C3 & cs3 & -> & W & R); try done.
      exists k, r, c, d3, F3, C3, cs3. split; [done |]. split; [done |]. split; [| done]. by apply (wrote_longer F C [] d2 F2 C2 c [c]).
  - pose proof (fl_chain _ _ _ _ _ Hf) as (-> & Hc & _). unfold in_vol in Hc.
    rewrite (proj2 (Z.ltb_ge c 2)) by lia. cbv iota beta. rewrite (proj2 (Z.eqb_neq c 0)) by lia.
    destruct (chain_write_tail d F C c (c :: cs) off src Hf) as (k & r & d3 & F3 & C3 & cs3 & -> & W & R); try done.
    by exists k, r, c, d3, F3, C3, cs3.
Qed.

(** ** Files of a volume *)

(** The file that starts at the table value [v] has the clusters [cs]. *)
Definition has_file (d : D) (v : Z) (cs : list Z) : Prop := vol_ok d /\ chain (read_fat d) v cs /\ owned (read_fat d) cs.

Lemma has_file_view d v cs : has_file d v cs -> file d (read_fat d) (cluster_byte d) v cs.
Proof. by intros (Hv & Hc & Ho). Qed.

Lemma file_has d F C v cs : file d F C v cs -> has_file d v cs.
Proof.
  intros [Hvw Hch How]. assert (forall c, c ∈ cs -> read_fat d c = F c) as E by (intros c Hc; apply (vw_fat _ _ _ Hvw), (chain_in F v cs); done).
  split; [apply (vw_ok _ _ _ Hvw) |]. split; [by apply (cluster_chain_ext F) |]. unfold owned in *. rewrite Forall_forall in *. intros c Hc. rewrite E by done. by apply How.
Qed.

(** Clusters in use outside [cs] are as they were. *)
Definition untouched (F : Z -> Z) (C : Z -> Z -> Z) (cs : list Z) (F1 : Z -> Z) (C1 : Z -> Z -> Z) : Prop :=
  forall c, in_vol c -> F c <> 0 -> c ∉ cs -> F1 c = F c /\ forall k, C1 c k = C c k.

Lemma grown_untouched F C cs F1 C1 cs1 : grown F C cs F1 C1 cs1 -> untouched F C cs F1 C1.
Proof.
  intros [(nw & -> & Hnw) Gf Gd _] c Hc Hn Hin. rewrite Forall_forall in Hnw.
  assert (c ∉ cs ++ nw) by (intros [? | ?]%elem_of_app; [done |]; by apply Hn, Hnw). split; [by apply Gf | intros k; by apply Gd].
Qed.

(** Files that share no cluster with [cs] are left alone. *)
Lemma untouched_file d F C cs d1 F1 C1 v2 cs2 : file d F C v2 cs2 -> view d1 F1 C1 -> untouched F C cs F1 C1 -> cs2 ## cs ->
  file d1 F1 C1 v2 cs2 /\ forall c k, c ∈ cs2 -> C1 c k = C c k.
Proof.
  intros [Hvw Hch How] Hvw1 Hu Hdis. unfold owned in *. rewrite Forall_forall in How.
  assert (forall c, c ∈ cs2 -> F1 c = F c /\ forall k, C1 c k = C c k) as Hout.
  { intros c Hc. apply Hu; [by apply (chain_in F v2 cs2) | by apply How |]. intros Hin. by apply (Hdis c). }
  split; [split; [done | |] |].
  - apply (cluster_chain_ext F); [| done]. intros c Hc. by apply Hout.
  - apply Forall_forall. intros c Hc. destruct (Hout c Hc) as [-> _]. by apply How.
  - intros c k Hc. by apply Hout.
Qed.

Lemma file_bytes_ext C C1 cs off n : 0 <= off -> off + n <= Z.of_nat (length cs) * csize \/ n <= 0 ->
  (forall p, 0 <= p < Z.of_nat (length cs) * csize -> file_byte C1 cs p = file_byte C cs p) -> file_bytes C1 cs off n = file_bytes C cs off n.
Proof.
  intros Hoff Hn E. unfold file_bytes. apply list_fmap_ext. intros i x [-> Hx]%lookup_seqZ. apply E. lia.
Qed.

Lemma untouched_read d F C cs d1 F1 C1 v2 cs2 off len : file d F C v2 cs2 -> view d1 F1 C1 -> untouched F C cs F1 C1 -> cs2 ## cs -> cs2 <> [] ->
  0 <= off -> 0 <= len -> chain_read d1 v2 off len = chain_read d v2 off len.
Proof.
  intros Hf Hvw1 Hu Hdis Hne Hoff Hlen. destruct (untouched_file d F C cs d1 F1 C1 v2 cs2 Hf Hvw1 Hu Hdis) as [Hf1 E].
  rewrite (chain_read_spec d1 F1 C1 v2 cs2) by (done || apply Hf1). rewrite (chain_read_spec d F C v2 cs2) by (done || apply Hf).
  apply file_bytes_ext; [done | lia |]. intros p Hp. apply (file_byte_ext d); [apply (vw_ok _ _ _ (fl_view _ _ _ _ _ Hf)) | done | done].
Qed.

(** The files of a volume that share no cluster with [cs], after a change. *)
Lemma untouched_others d F C cs d1 F1 C1 : view d F C -> view d1 F1 C1 -> untouched F C cs F1 C1 ->
  forall v2 cs2, has_file d v2 cs2 -> cs2 ## cs -> cs2 <> [] ->
    has_file d1 v2 cs2 /\ forall o n, 0 <= o -> 0 <= n -> chain_read d1 v2 o n = chain_read d v2 o n.
Proof.
  intros Hvw Hvw1 Hu v2 cs2 (Hv & Hch & How) Hdis Hne.
  assert (file d F C v2 cs2) as Hf2.
  { assert (forall c, c ∈ cs2 -> F c = read_fat d c) as E by (intros c Hc; symmetry; apply (vw_fat _ _ _ Hvw), (chain_in _ v2 cs2 c Hch Hc)).
    split; [done | by apply (cluster_chain_ext (read_fat d)) |]. unfold owned in *. rewrite Forall_forall in *. intros c Hc. rewrite E by done. by apply How. }
  split; [apply (file_has d1 F1 C1), (untouched_file d F C cs d1 F1 C1 v2 cs2 Hf2 Hvw1 Hu Hdis) |].
  intros o n Ho Hn. by apply (untouched_read d F C cs d1 F1 C1 v2 cs2).
Qed.

Lemma content_view d F C v cs p : file d F C v cs -> 0 <= p -> content C cs p = content (cluster_byte d) cs p.
Proof.
  intros [Hvw Hch _] Hp. pose proof (vw_ok _ _ _ Hvw) as Hv. pose proof (v_spc _ Hv). assert (0 < csize) as Hcs by (unfold csize; lia).
  unfold content. case_decide; [| done]. unfold file_byte. symmetry. apply (vw_data _ _ _ Hvw); [| by apply Z.mod_pos_bound].
  apply (chain_in F v cs _ Hch). unfold at_index.
  assert (0 <= p / csize < Z.of_nat (length cs)) by (split; [apply Z.div_pos; lia | apply Z.div_lt_upper_bound; lia]).
  destruct (lookup_lt_is_Some_2 cs (Z.to_nat (p / csize))) as [c Hc]; [lia |]. rewrite Hc. by apply list_elem_of_lookup_2 in Hc.
Qed.

Lemma free_view d F C : view d F C -> free_clusters (read_fat d) = free_clusters F.
Proof. intros Hvw. apply count_range_ext. intros c Hc. by rewrite (vw_fat _ _ _ Hvw c Hc). Qed.

(** Reading a chain of clusters returns the bytes of its clusters in chain
    order from the offset on: as many as asked for, or as there are up to the end of
    the last cluster. *)
Theorem chain_read_correct d v cs off len : has_file d v cs -> cs <> [] -> 0 <= off -> 0 <= len ->
  chain_read d v off len = file_bytes (cluster_byte d) cs off (Z.max 0 (Z.min len (Z.of_nat (length cs) * csize - off))).
Proof. intros Hf%has_file_view Hne Ho Hl. apply (chain_read_spec d (read_fat d)); try done; apply Hf. Qed.

(** C30: Writing to a chain on a working device ends in one of two ways.  Either a
    positive number [r] of bytes was written, or none was and E_NOSPACE is returned.
    The chain may have grown by clusters that were free; its bytes are the old ones,
    zeroes where it grew, and the written ones from the offset on; every other
    chain keeps its clusters and reads as before; and fewer bytes than asked for are
    written only when no cluster is free and the chain ends there. *)
Theorem chain_write_correct d v cs off src : has_file d v cs -> (cs = [] -> v < 2) -> 0 <= off -> src <> [] -> Forall U8 src ->
  exists k r v1 d1 cs1, chain_write v off src d = (r, v1, d1) /\ has_file d1 v1 cs1 /\ cs `prefix_of` cs1 /\
    (r = k /\ 0 < k <= Z.of_nat (length src) \/ r = E_NOSPACE /\ k = 0) /\
    (forall p, 0 <= p -> content (cluster_byte d1) cs1 p =
       if decide (off <= p < off + k) then at_index src (p - off) else content (cluster_byte d) cs p) /\
    (k = Z.of_nat (length src) \/ free_clusters (read_fat d1) = 0 /\ Z.of_nat (length cs1) * csize <= off + k) /\
    (forall v2 cs2, has_file d v2 cs2 -> cs2 ## cs -> cs2 <> [] ->
       has_file d1 v2 cs2 /\ forall o n, 0 <= o -> 0 <= n -> chain_read d1 v2 o n = chain_read d v2 o n).
Proof.
  intros Hf%has_file_view Hv2 Hoff Hsrc Hb.
  destruct (chain_write_spec d _ _ v cs off src Hf Hv2 Hoff Hsrc Hb) as (k & r & v1 & d1 & F1 & C1 & cs1 & E & _ & [Hf1 G Hk _ Hc St] & R).
  exists k, r, v1, d1, cs1. pose proof (file_has _ _ _ _ _ Hf1) as Hh. pose proof (fl_view _ _ _ _ _ Hf1) as Hvw1. split_and!.
  - done.
  - done.
  - destruct (gr_new _ _ _ _ _ _ G) as (nw & -> & _). by exists nw.
  - destruct R as [[-> ?] | ?]; [left; lia | by right].
  - intros p Hp. rewrite <- Hc by done. symmetry. by apply (content_view d1 F1 C1 v1).
  - destruct St as [-> | [H0 ?]]; [by left |]. right. split; [| done]. rewrite <- H0. apply free_view with C1. done.
  - apply (untouched_others d (read_fat d) (cluster_byte d) cs d1 F1 C1); [apply Hf | done | by apply (grown_untouched _ _ _ _ _ cs1)].
Qed.

Lemma written_reads_back d v cs off src : has_file d v cs -> (cs = [] -> v < 2) -> 0 <= off -> src <> [] -> Forall U8 src ->
  off + Z.of_nat (length src) <= (Z.of_nat (length cs) + free_clusters (read_fat d)) * csize ->
  exists v1 d1 cs1, chain_write v off src d = (Z.of_nat (length src), v1, d1) /\ has_file d1 v1 cs1 /\
    chain_read d1 v1 off (Z.of_nat (length src)) = src.
Proof.
  intros Hf%has_file_view Hv2 Hoff Hsrc Hb Hroom. pose proof (v_spc _ (vw_ok _ _ _ (fl_view _ _ _ _ _ Hf))). assert (0 < csize) as Hcs by (unfold csize; lia).
  destruct (chain_write_spec d _ _ v cs off src Hf Hv2 Hoff Hsrc Hb) as (k & r & v1 & d1 & F1 & C1 & cs1 & E & _ & [Hf1 G Hk Hin Hc St] & R).
  assert (0 < Z.of_nat (length src)) as Hpos by (destruct src; [done | cbn [length]; lia]).
  assert (k = Z.of_nat (length src)) as ->. { destruct St as [? | [H0 Hend]]; [done |]. pose proof (gr_free _ _ _ _ _ _ G). nia. }
  destruct R as [[-> _] | [_ ?]]; [| lia]. specialize (Hin Hpos). exists v1, d1, cs1. split; [done |]. split; [by apply (file_has _ F1 C1) |].
  rewrite (chain_read_spec d1 F1 C1 v1 cs1 off _ (fl_view _ _ _ _ _ Hf1) (fl_chain _ _ _ _ _ Hf1)); [| by intros ->; cbn [length] in Hin; lia | done | lia].
  rewrite Z.max_r, Z.min_l by lia. rewrite (seqZ_index src) at 2. unfold file_bytes. apply list_fmap_ext. intros i x [-> Hx]%lookup_seqZ.
  specialize (Hc (off + (0 + Z.of_nat i)) ltac:(lia)). unfold content in Hc. rewrite !decide_True in Hc by lia. rewrite Hc. f_equal. lia.
Qed.

(** What is written is read back: when the clusters of the chain and the free
    ones have room for the request, all of it is written, growing the chain as needed,
    and reading at the same offset returns the bytes. *)
Theorem chain_write_read d v cs off src : has_file d v cs -> (cs = [] -> v < 2) -> 0 <= off -> src <> [] -> Forall U8 src ->
  off + Z.of_nat (length src) <= (Z.of_nat (length cs) + free_clusters (read_fat d)) * csize ->
  exists v1 d1 cs1, chain_write v off src d = (Z.of_nat (length src), v1, d1) /\ has_file d1 v1 cs1 /\
    chain_read d1 v1 off (Z.of_nat (length src)) = src.
Proof. apply written_reads_back. Qed.
End fat.

(** ** A small volume *)

Definition demo_mount : Fat32Mount := Mount 1 3 1 2 20 1 2.

(** The table has the two reserved entries and the root directory. *)
Definition demo_fat : list Z := store 0 (le_bytes 4 0x0FFFFFF8 ++ le_bytes 4 0x0FFFFFFF ++ le_bytes 4 0x0FFFFFFF) (replicate 512 0).
Definition demo_disk : Ram.disk := Ram.Disk {[1 := demo_fat; 2 := demo_fat]} 40.

Lemma demo_vol_ok : vol_ok demo_mount demo_disk.
Proof. split; cbn; lia. Qed.

Lemma demo_root_file : has_file demo_mount demo_disk 2 [2].
Proof. split; [exact demo_vol_ok |]. split; [by vm_compute |]. by repeat constructor. Qed.

Lemma demo_empty : has_file demo_mount demo_disk 0 [].
Proof. split; [exact demo_vol_ok |]. split; [done |]. apply Forall_nil_2. Qed.

Definition demo_text : list Z := [72; 101; 108; 108; 111].

Lemma demo_text_bytes : Forall U8 demo_text.
Proof. unfold demo_text, U8. repeat (apply Forall_cons; split; [lia |]). apply Forall_nil_2. Qed.

Lemma chain_read_correct_witness : length (chain_read demo_mount demo_disk 2 500 100) = 12%nat.
Proof.
  rewrite (chain_read_correct demo_mount demo_disk 2 [2] 500 100 demo_root_file); [| done | lia | lia]. unfold file_bytes. rewrite length_fmap, length_seqZ. reflexivity.
Defined.

Lemma chain_write_correct_witness : exists r v1 d1, chain_write demo_mount 0 510 demo_text demo_disk = (r, v1, d1) /\ has_file demo_mount d1 2 [2].
Proof.
  destruct (chain_write_correct demo_mount demo_disk 0 [] 510 demo_text demo_empty) as (k & r & v1 & d1 & cs1 & E & _ & _ & _ & _ & _ & H);
    [done | lia | done | exact demo_text_bytes |].
  exists r, v1, d1. split; [exact E |]. apply (H 2 [2] demo_root_file); [| done]. by intros x _ ?%not_elem_of_nil.
Defined.

Lemma chain_write_read_witness : exists v1 d1, chain_write demo_mount 0 510 demo_text demo_disk = (5, v1, d1) /\ chain_read demo_mount d1 v1 510 5 = demo_text.
Proof.
  destruct (chain_write_read demo_mount demo_disk 0 [] 510 demo_text demo_empty) as (v1 & d1 & cs1 & E & _ & R);
    [done | lia | done | exact demo_text_bytes | vm_compute; discriminate |].
  exists v1, d1. split; [exact E | exact R].
Defined.
