(* ===== verification/FatName.v ===== *)
(** * fs/fat32.cpp: directory entries and 8.3 names

    The packed directory entry of FAT32 and its bytes, and the conversion of names:
    [decode_83], [encode_83] and [name_matches].  A character is a byte; a string is
    the list of its characters before the terminator. *)
From S2P Require Import Prelude Bytes.

Definition ATTR_VOLUME_ID : Z := 0x08.
Definition ATTR_DIR : Z := 0x10.
Definition ATTR_ARCHIVE : Z := 0x20.
Definition ATTR_LFN : Z := 0x0F.
Definition NTRES_LOWER_BASE : Z := 0x08.
Definition NTRES_LOWER_EXT : Z := 0x10.
Definition sizeof_DirEntry : Z := 32.

Record DirEntry := Entry {
  name : list Z;
  ext : list Z;
  attr : Z;
  reserved : Z;
  ctime_tenth : Z;
  ctime : Z;
  cdate : Z;
  adate : Z;
  cluster_hi : Z;
  mtime : Z;
  mdate : Z;
  cluster_lo : Z;
  size : Z;
}.

(** The packed structure at [off] of a sector. *)
Definition entry_at (buf : list Z) (off : Z) : DirEntry :=
  Entry (slice off 8 buf) (slice (off + 8) 3 buf) (at_index buf (off + 11)) (at_index buf (off + 12)) (at_index buf (off + 13))
    (get16 buf (off + 14)) (get16 buf (off + 16)) (get16 buf (off + 18)) (get16 buf (off + 20)) (get16 buf (off + 22)) (get16 buf (off + 24))
    (get16 buf (off + 26)) (get32 buf (off + 28)).

Definition entry_bytes (e : DirEntry) : list Z :=
  name e ++ ext e ++ [attr e; reserved e; ctime_tenth e] ++ le_bytes 2 (ctime e) ++ le_bytes 2 (cdate e) ++ le_bytes 2 (adate e) ++
  le_bytes 2 (cluster_hi e) ++ le_bytes 2 (mtime e) ++ le_bytes 2 (mdate e) ++ le_bytes 2 (cluster_lo e) ++ le_bytes 4 (size e).

(** [((u32)cluster_hi << 16) | cluster_lo] *)
Definition entry_cluster (e : DirEntry) : Z := u32 (cluster_hi e .<< 16) .| cluster_lo e.

(** ** 8.3 names *)

Definition space : Z := 32.
Definition period : Z := 46.
Definition is_upper (c : Z) : bool := (65 <=? c) && (c <=? 90).
Definition is_lower (c : Z) : bool := (97 <=? c) && (c <=? 122).
Definition to_lower (c : Z) : Z := if is_upper c then c + 32 else c.
Definition to_upper (c : Z) : Z := if is_lower c then c - 32 else c.

(** The characters up to trailing spaces. *)
Fixpoint trim (l : list Z) : list Z :=
  match l with
  | [] => []
  | c :: l' => match trim l' with [] => if c =? space then [] else [c] | t => c :: t end
  end.

(** A buffer read as a string. *)
Fixpoint c_string (l : list Z) : list Z :=
  match l with
  | [] => []
  | c :: l' => if c =? 0 then [] else c :: c_string l'
  end.

Definition decode_part (lower : bool) (l : list Z) : list Z := (fun c => if lower then to_lower c else c) <$> trim l.

Definition decode_83 (e : DirEntry) : list Z :=
  let lower_base := negb (reserved e .& NTRES_LOWER_BASE =? 0) in
  let lower_ext := negb (reserved e .& NTRES_LOWER_EXT =? 0) in
  let x := decode_part lower_ext (ext e) in
  c_string (decode_part lower_base (name e) ++ (if bool_decide (trim (ext e) = []) then [] else period :: x)).

(** [while (name[j] && name[j] != '.')] with room for [room] more characters: what is
    stored, whether a lower case letter was, and the rest of the name. *)
Fixpoint encode_base (room : nat) (nm : list Z) : list Z * bool * list Z :=
  match nm with
  | [] => ([], false, [])
  | c :: nm' =>
      if c =? period then ([], false, nm) else
      let '(out, saw, rest) := encode_base (pred room) nm' in
      match room with
      | O => (out, saw, rest)
      | S _ => (to_upper c :: out, is_lower c || saw, rest)
      end
  end.

(** [while (name[j] && k < 3)] *)
Fixpoint encode_ext (room : nat) (nm : list Z) : list Z * bool :=
  match room, nm with
  | S room', c :: nm' => let '(out, saw) := encode_ext room' nm' in (to_upper c :: out, is_lower c || saw)
  | _, _ => ([], false)
  end.

Definition pad (n : nat) (l : list Z) : list Z := l ++ replicate (n - length l) space.

(** [out_name], [out_ext] and [out_ntres]. *)
Definition encode_83 (nm : list Z) : list Z * list Z * Z :=
  let '(b, saw_base_lower, rest) := encode_base 8 nm in
  let '(x, saw_ext_lower) := match rest with [] => ([], false) | _ :: rest' => encode_ext 3 rest' end in
  (pad 8 b, pad 3 x, (if saw_base_lower then NTRES_LOWER_BASE else 0) .| (if saw_ext_lower then NTRES_LOWER_EXT else 0)).

Fixpoint same_name (a b : list Z) : bool :=
  match a, b with
  | ca :: a', cb :: b' => if to_lower ca =? to_lower cb then same_name a' b' else false
  | [], [] => true
  | _, _ => false
  end.

Definition name_matches (e : DirEntry) (nm : list Z) : bool := same_name (decode_83 e) nm.

(** The first character, and the entries that are neither deleted, part of a long name
    nor a volume label. *)
Definition first_char (e : DirEntry) : Z := at_index (name e) 0.
Definition skipped (e : DirEntry) : bool := (first_char e =? 0xE5) || (attr e =? ATTR_LFN) || negb (attr e .& ATTR_VOLUME_ID =? 0).

(** ** The bytes of an entry *)

Record entry_ok (e : DirEntry) : Prop := {
  eo_name : length (name e) = 8%nat /\ Forall U8 (name e);
  eo_ext : length (ext e) = 3%nat /\ Forall U8 (ext e);
  eo_bytes : U8 (attr e) /\ U8 (reserved e) /\ U8 (ctime_tenth e);
  eo_words : Forall (fun w => 0 <= w < 2 ^ 16) [ctime e; cdate e; adate e; cluster_hi e; mtime e; mdate e; cluster_lo e];
  eo_size : U32 (size e);
}.

Lemma length_entry_bytes e : entry_ok e -> length (entry_bytes e) = 32%nat.
Proof. intros [[Hn _] [He _] _ _ _]. unfold entry_bytes. rewrite !length_app, !length_le_bytes, Hn, He. done. Qed.

Lemma entry_bytes_U8 e : entry_ok e -> Forall U8 (entry_bytes e).
Proof.
  intros [[_ Hn] [_ He] (? & ? & ?) _ _]. unfold entry_bytes. repeat (apply Forall_app; split); try done; try apply le_bytes_U8.
  by repeat (apply Forall_cons; split).
Qed.

Lemma slice_ext o1 o2 n b1 b2 : 0 <= o1 -> 0 <= o2 -> 0 <= n -> o1 + n <= Z.of_nat (length b1) -> o2 + n <= Z.of_nat (length b2) ->
  (forall k, 0 <= k < n -> at_index b1 (o1 + k) = at_index b2 (o2 + k)) -> slice o1 n b1 = slice o2 n b2.
Proof.
  intros H1 H2 Hn L1 L2 He. rewrite (seqZ_index (slice o1 n b1)), (seqZ_index (slice o2 n b2)), !slice_length by done.
  apply list_fmap_ext. intros i x [-> Hx]%lookup_seqZ. rewrite !slice_index by lia. apply He. lia.
Qed.

(** An entry depends on its 32 bytes. *)
Lemma entry_at_ext o1 o2 b1 b2 : 0 <= o1 -> 0 <= o2 -> o1 + 32 <= Z.of_nat (length b1) -> o2 + 32 <= Z.of_nat (length b2) ->
  (forall k, 0 <= k < 32 -> at_index b1 (o1 + k) = at_index b2 (o2 + k)) -> entry_at b1 o1 = entry_at b2 o2.
Proof.
  intros H1 H2 L1 L2 He.
  assert (forall a n, 0 <= a -> a + Z.of_nat n <= 32 -> read_le (at_index b1) (o1 + a) n = read_le (at_index b2) (o2 + a) n) as Hr.
  { intros a n Ha Hn. apply read_le_ext. intros i Hi. rewrite <- !Z.add_assoc. apply He. lia. }
  unfold entry_at, get16, get32. rewrite !Hr by lia. rewrite !He by lia. f_equal.
  - apply slice_ext; try lia. intros k Hk. apply He. lia.
  - apply slice_ext; try lia. intros k Hk. rewrite <- !Z.add_assoc. apply He. lia.
Qed.

Lemma le_at (w : Z) n a l : 0 <= w < 2 ^ (8 * Z.of_nat n) -> 0 <= a -> (forall i, (i < n)%nat -> l !! (Z.to_nat a + i)%nat = le_bytes n w !! i) ->
  read_le (at_index l) a n = w.
Proof.
  intros Hw Ha He. rewrite (read_le_spec _ w); [by apply Z.mod_small | lia |]. intros i Hi. unfold at_index.
  replace (Z.to_nat (a + i)) with (Z.to_nat a + Z.to_nat i)%nat by lia. rewrite He, le_bytes_lookup by lia. cbn [default]. by rewrite Z2Nat.id by lia.
Qed.

Lemma entry_at_bytes e : entry_ok e -> entry_at (entry_bytes e) 0 = e.
Proof.
  intros [[Hn _] [He _] _ Hw Hs]. rewrite !Forall_cons in Hw. destruct Hw as (W1 & W2 & W3 & W4 & W5 & W6 & W7 & _).
  destruct e as [nm x at_ rs ctt ct cd ad hi mt md lo sz]. cbn [name ext attr reserved ctime_tenth ctime cdate adate cluster_hi mtime mdate cluster_lo size] in *.
  do 9 (destruct nm as [| ? nm]; try done). do 4 (destruct x as [| ? x]; try done).
  unfold entry_at, entry_bytes, get16, get32. cbn [name ext attr reserved ctime_tenth ctime cdate adate cluster_hi mtime mdate cluster_lo size app].
  f_equal; try reflexivity; apply le_at; try done; try lia; intros i Hi; repeat (destruct i as [| i]; [reflexivity |]); lia.
Qed.

(** What is stored is read back, and other entries of the sector are left alone. *)
Lemma entry_store e off off' buf : entry_ok e -> 0 <= off -> off + 32 <= Z.of_nat (length buf) -> 0 <= off' -> off' + 32 <= Z.of_nat (length buf) ->
  (off' = off \/ off' + 32 <= off \/ off + 32 <= off') ->
  entry_at (store off (entry_bytes e) buf) off' = if decide (off' = off) then e else entry_at buf off'.
Proof.
  intros He Ho Hl Ho' Hl' Hd. pose proof (length_entry_bytes e He) as H32. case_decide as E.
  - subst off'. rewrite <- (entry_at_bytes e He) at 2. apply entry_at_ext; try lia; [by rewrite length_store |].
    intros k Hk. rewrite store_index by lia. rewrite decide_True by lia. f_equal. lia.
  - apply entry_at_ext; try lia; [by rewrite length_store |]. intros k Hk. rewrite store_index by lia. by rewrite decide_False by lia.
Qed.

(** The entry read at any place of a sector of bytes is well formed. *)
Lemma entry_at_ok buf off : Forall U8 buf -> 0 <= off -> off + 32 <= Z.of_nat (length buf) -> entry_ok (entry_at buf off).
Proof.
  intros Hb Ho Hl. assert (forall a n, 0 <= a -> 0 <= n -> a + n <= 32 -> Z.of_nat (length (slice (off + a) n buf)) = n) as Hs by (intros; apply slice_length; lia).
  pose proof (Hs 0 8) as S8. pose proof (Hs 8 3) as S3. rewrite Z.add_0_r in S8. split; cbn [entry_at name ext attr reserved ctime_tenth ctime cdate adate cluster_hi mtime mdate cluster_lo size].
  - split; [lia |]. by apply Forall_take, Forall_drop.
  - split; [lia |]. by apply Forall_take, Forall_drop.
  - split_and!; by apply at_index_U8.
  - repeat (apply Forall_cons; split; [apply (read_le_bound (at_index buf) 2) |]). apply Forall_nil_2.
  - apply (read_le_bound (at_index buf) 4).
Qed.

(** ** Names that fit *)

(** A name of up to eight characters and an extension of up to three. *)
Definition plain_char (c : Z) : Prop := U8 c /\ c <> 0 /\ c <> space /\ c <> period.
Record short (b x : list Z) : Prop := {
  sh_base : (1 <= length b <= 8)%nat;
  sh_ext : (length x <= 3)%nat;
  sh_chars : Forall plain_char b /\ Forall plain_char x;
}.
Definition join (b x : list Z) : list Z := b ++ (if bool_decide (x = []) then [] else period :: x).

(** What becomes of the case of a part: lower case if it has a lower case letter. *)
Definition fold_case (l : list Z) : list Z := if existsb is_lower l then to_lower <$> l else l.

Lemma same_name_spec a b : same_name a b = bool_decide (to_lower <$> a = to_lower <$> b).
Proof.
  revert b. induction a as [| x a IH]; intros [| y b]; cbn [same_name]; try done. rewrite IH. destruct (Z.eqb_spec (to_lower x) (to_lower y)) as [E | E].
  - apply bool_decide_ext. cbn. rewrite E. split; [by intros -> | by intros [= ->]].
  - symmetry. apply bool_decide_eq_false_2. cbn. by intros [= ? ?].
Qed.

Lemma trim_pad n l : Forall plain_char l -> trim (pad n l) = l.
Proof.
  intros Hl. unfold pad. generalize (n - length l)%nat. intros k. induction Hl as [| c l (_ & _ & Hc & _) Hl IH]; cbn [app].
  - induction k as [| k IH]; [done |]. cbn [replicate trim]. by rewrite IH.
  - cbn [trim]. rewrite IH. destruct l; [by rewrite (proj2 (Z.eqb_neq c space)) | done].
Qed.

Ltac case_char := unfold to_lower, to_upper, is_upper, is_lower in *;
  repeat match goal with |- context [?a <=? ?b] => destruct (Z.leb_spec a b) | H : context [?a <=? ?b] |- _ => destruct (Z.leb_spec a b) end;
  cbn [andb orb] in *; try lia; try done.

Lemma to_upper_plain c : plain_char c -> plain_char (to_upper c).
Proof. unfold plain_char, U8, space, period. intros (? & ? & ? & ?). case_char. Qed.

Lemma lower_upper c : to_lower (to_upper c) = to_lower c.
Proof. case_char. Qed.

Lemma lower_idem c : to_lower (to_lower c) = to_lower c.
Proof. case_char. Qed.

Lemma upper_id l : existsb is_lower l = false -> to_upper <$> l = l.
Proof.
  induction l as [| c l IH]; [done |]. cbn [existsb]. intros [Hc Hl]%orb_false_iff. rewrite fmap_cons, IH by done. f_equal. unfold to_upper. by rewrite Hc.
Qed.

Lemma encode_base_spec n b rest : Forall plain_char b -> (length b <= n)%nat -> (rest = [] \/ exists r, rest = period :: r) ->
  encode_base n (b ++ rest) = (to_upper <$> b, existsb is_lower b, rest).
Proof.
  intros Hb. revert n. induction Hb as [| c b (_ & _ & _ & Hc) Hb IH]; intros n Hn Hr; cbn [app encode_base].
  - destruct Hr as [-> | [r ->]]; [done |]. cbn [encode_base]. by rewrite Z.eqb_refl.
  - rewrite (proj2 (Z.eqb_neq c period) Hc). cbn [length] in Hn. destruct n as [| n]; [lia |]. cbn [pred]. rewrite IH by (done || lia). done.
Qed.

Lemma encode_ext_spec n x : (length x <= n)%nat -> encode_ext n x = (to_upper <$> x, existsb is_lower x).
Proof.
  revert n. induction x as [| c x IH]; intros n Hn; [by destruct n |]. cbn [length] in Hn. destruct n as [| n]; [lia |]. cbn [encode_ext].
  rewrite IH by lia. done.
Qed.

Lemma encode_83_spec b x : short b x ->
  encode_83 (join b x) = (pad 8 (to_upper <$> b), pad 3 (to_upper <$> x),
    (if existsb is_lower b then NTRES_LOWER_BASE else 0) .| (if existsb is_lower x then NTRES_LOWER_EXT else 0)).
Proof.
  intros [Hb Hx [Cb Cx]]. unfold encode_83, join. rewrite encode_base_spec; [| done | lia |].
  - case_bool_decide as E; [by rewrite E |]. by rewrite encode_ext_spec.
  - case_bool_decide; [by left | right; by eexists].
Qed.

Lemma decode_part_spec l n : Forall plain_char l -> decode_part (existsb is_lower l) (pad n (to_upper <$> l)) = fold_case l.
Proof.
  intros Hl. unfold decode_part, fold_case. rewrite trim_pad.
  - destruct (existsb is_lower l) eqn:E; [| rewrite list_fmap_id; by apply upper_id]. rewrite <- list_fmap_compose. apply list_fmap_ext. intros; apply lower_upper.
  - apply Forall_fmap. apply (Forall_impl _ _ _ Hl). intros c. apply to_upper_plain.
Qed.

Lemma fold_case_plain l : Forall plain_char l -> Forall plain_char (fold_case l).
Proof.
  intros Hl. unfold fold_case. destruct (existsb is_lower l); [| done]. apply Forall_fmap. apply (Forall_impl _ _ _ Hl). intros c.
  unfold plain_char, U8, space, period. cbn. intros (? & ? & ? & ?). case_char.
Qed.

Lemma c_string_id l : Forall (fun c => c <> 0) l -> c_string l = l.
Proof. induction 1 as [| c l Hc _ IH]; [done |]. cbn [c_string]. rewrite (proj2 (Z.eqb_neq c 0) Hc), IH. done. Qed.

Lemma plain_nonzero l : Forall plain_char l -> Forall (fun c => c <> 0) l.
Proof. intros Hl. apply (Forall_impl _ _ _ Hl). by intros c (_ & ? & _). Qed.

Lemma fold_case_nil l : fold_case l = [] <-> l = [].
Proof. unfold fold_case. destruct l; [done |]. case_match; split; discriminate. Qed.

Lemma decode_encode b x de : short b x -> encode_83 (join b x) = (name de, ext de, reserved de) -> decode_83 de = join (fold_case b) (fold_case x).
Proof.
  intros Hs. rewrite encode_83_spec by done. destruct Hs as [Hb Hx [Cb Cx]]. intros [= En Ee Er]. unfold decode_83. rewrite <- En, <- Ee, <- Er.
  set (lb := existsb is_lower b). set (lx := existsb is_lower x).
  assert (negb (((if lb then NTRES_LOWER_BASE else 0) .| (if lx then NTRES_LOWER_EXT else 0)) .& NTRES_LOWER_BASE =? 0) = lb) as -> by by destruct lb, lx.
  assert (negb (((if lb then NTRES_LOWER_BASE else 0) .| (if lx then NTRES_LOWER_EXT else 0)) .& NTRES_LOWER_EXT =? 0) = lx) as -> by by destruct lb, lx.
  unfold lb, lx. rewrite !decode_part_spec by done. rewrite trim_pad by (apply Forall_fmap, (Forall_impl _ _ _ Cx); intros c; apply to_upper_plain).
  unfold join. rewrite (bool_decide_ext (to_upper <$> x = []) (fold_case x = [])) by (rewrite fold_case_nil; destruct x; done).
  apply c_string_id. apply Forall_app. split; [by apply plain_nonzero, fold_case_plain |]. case_bool_decide; [done |]. apply Forall_cons.
  split; [done |]. by apply plain_nonzero, fold_case_plain.
Qed.

Lemma fold_case_lower l : to_lower <$> fold_case l = to_lower <$> l.
Proof. unfold fold_case. case_match; [| done]. rewrite <- list_fmap_compose. apply list_fmap_ext. intros; apply lower_idem. Qed.

Lemma join_lower b x : to_lower <$> join (fold_case b) (fold_case x) = to_lower <$> join b x.
Proof.
  unfold join. rewrite !fmap_app, fold_case_lower. f_equal. rewrite (bool_decide_ext _ _ (fold_case_nil x)).
  case_bool_decide; [done |]. rewrite !fmap_cons, fold_case_lower. done.
Qed.

(** An entry made for a name is found under that name, in any case. *)
Lemma encoded_matches b x de nm : short b x -> encode_83 (join b x) = (name de, ext de, reserved de) ->
  name_matches de nm = bool_decide (to_lower <$> nm = to_lower <$> join b x).
Proof.
  intros Hs He. unfold name_matches. rewrite same_name_spec, (decode_encode b x de Hs He), join_lower. apply bool_decide_ext. done.
Qed.

(** C31: A name of at most eight characters and an extension of at most three survive
    the directory: the entry that [encode_83] makes decodes to the name, with a part of
    mixed case turned to lower case and every other part as it was, and it matches a
    name exactly if that is the same up to case. *)
Theorem short_name_roundtrip b x de : short b x -> encode_83 (join b x) = (name de, ext de, reserved de) ->
  decode_83 de = join (fold_case b) (fold_case x) /\
  (forall nm, name_matches de nm = true <-> to_lower <$> nm = to_lower <$> join b x) /\
  ((existsb is_lower b = true -> existsb is_upper b = false) -> (existsb is_lower x = true -> existsb is_upper x = false) -> decode_83 de = join b x).
Proof.
  intros Hs He. split; [by apply decode_encode |]. split.
  - intros nm. rewrite (encoded_matches b x de nm Hs He). apply bool_decide_eq_true.
  - intros Hb Hx. rewrite (decode_encode b x de Hs He).
    assert (forall l, (existsb is_lower l = true -> existsb is_upper l = false) -> fold_case l = l) as Hf.
    { clear. intros l Hl. unfold fold_case. destruct (existsb is_lower l); [| done]. specialize (Hl eq_refl). induction l as [| c l IH]; [done |].
      cbn [existsb] in Hl. apply orb_false_iff in Hl as [Hc Hl]. rewrite fmap_cons, IH by done. f_equal. unfold to_lower. by rewrite Hc. }
    by rewrite !Hf.
Qed.

Lemma short_name_roundtrip_witness :
  let de := Entry (pad 8 [82; 69; 65; 68; 77; 69]) (pad 3 [84; 88; 84]) 0x20 NTRES_LOWER_EXT 0 0 0 0 0 0 0 0 0 in
  decode_83 de = [82; 69; 65; 68; 77; 69; 46; 116; 120; 116].
Proof.
  intros de. destruct (short_name_roundtrip [82; 69; 65; 68; 77; 69] [116; 120; 116] de) as [H _]; [| reflexivity | exact H].
  split; [cbn; lia | cbn; lia |]. unfold plain_char, U8, space, period. split; repeat (apply Forall_cons; split; [lia |]); apply Forall_nil_2.
Defined.
