(* ===== verification/FatDir.v ===== *)
(** * fs/fat32.cpp: directories

    The operations of a FAT32 directory that only touch the disk: looking a name up,
    listing, finding room, storing and deleting an entry.  The walk along a
    directory's chain gets one step more than the volume has clusters: a longer walk
    is on a cycle, and does not return. *)
From stdpp Require Import functions.
From S2P Require Import Prelude Bytes Block Fat FatName.
From S2P Require Vfs.

Section dir.
Context {D : Type} `{!BlockDevice D}.
Variable m : Fat32Mount.

(** ** Walking a directory *)

Section walk.
Context {S R : Type}.
Variable visit : Z -> Z -> DirEntry -> S -> option R * S.

(** The entries of a sector; [visit] gets the sector, the offset and the entry. *)
Definition entries_loop (sec : Z) (buf : list Z) (s : S) : option R * S :=
  for_exit 0 (512 / sizeof_DirEntry) (fun e s => visit sec (e * sizeof_DirEntry) (entry_at buf (e * sizeof_DirEntry)) s) s.

Definition sectors_loop (io_error : R) (d : D) (cluster : Z) (s : S) : option R * S :=
  let lba := cluster_to_lba m cluster in
  for_exit 0 (sectors_per_cluster m) (fun i s =>
    match dev_read d (u32 (lba + i)) with
    | None => (Some io_error, s)
    | Some buf => entries_loop (u32 (lba + i)) buf s
    end) s.

(** [while (!is_eoc(cluster) && cluster >= 2)] *)
Fixpoint dir_walk (fuel : nat) (io_error : R) (d : D) (cluster : Z) (s : S) : option (option R * S) :=
  match fuel with
  | O => None
  | Datatypes.S fuel' =>
      if at_end cluster then Some (None, s) else
      match sectors_loop io_error d cluster s with
      | (Some r, s) => Some (Some r, s)
      | (None, s) => dir_walk fuel' io_error d (read_fat m d cluster) s
      end
  end.
End walk.

Definition walk_fuel : nat := 2 + Z.to_nat (total_clusters m).

Definition find_visit (nm : list Z) (sec off : Z) (de : DirEntry) (s : unit) : option (option (DirEntry * Z * Z)) * unit :=
  if first_char de =? 0 then (Some None, s)
  else if skipped de then (None, s)
  else if name_matches de nm then (Some (Some (de, sec, off)), s)
  else (None, s).

(** The entry, its sector and its offset. *)
Definition dir_find (d : D) (dir_cluster : Z) (nm : list Z) : option (option (DirEntry * Z * Z)) :=
  '(r, _) ← dir_walk (find_visit nm) walk_fuel None d dir_cluster tt;
  Some (default None r).

Definition readdir_visit (index : Z) (sec off : Z) (de : DirEntry) (real_idx : Z) : option (kResult Vfs.Dirent) * Z :=
  if first_char de =? 0 then (Some (Err EndOfFile), real_idx)
  else if skipped de || (first_char de =? period) then (None, real_idx)
  else if real_idx =? index then
    (Some (Ok (Vfs.MkDirent (decode_83 de) (if attr de .& ATTR_DIR =? 0 then Vfs.VFS_TYPE_FILE else Vfs.VFS_TYPE_DIR))), real_idx)
  else (None, u64 (real_idx + 1)).

Definition fat_readdir (d : D) (first_cluster index : Z) : option (kResult Vfs.Dirent) :=
  '(r, _) ← dir_walk (readdir_visit index) walk_fuel (Err IOError) d first_cluster 0;
  Some (default (Err EndOfFile) r).

(** ** Storing an entry *)

Definition write_dirent_at (sec off : Z) (de : DirEntry) (d : D) : bool * D :=
  match dev_read d sec with
  | None => (false, d)
  | Some buf => dev_write sec (store off (entry_bytes de) buf) d
  end.

Definition free_visit (sec off : Z) (de : DirEntry) (s : unit) : option (option (Z * Z)) * unit :=
  if (first_char de =? 0) || (first_char de =? 0xE5) then (Some (Some (sec, off)), s) else (None, s).

(** The loop of [find_free_dirent]: a slot or an error, or the last cluster. *)
Fixpoint free_loop (fuel : nat) (d : D) (cluster : Z) : option (option (Z * Z) + Z) :=
  match fuel with
  | O => None
  | S fuel' =>
      if cluster <? 2 then Some (inr cluster) else
      match sectors_loop free_visit None d cluster tt with
      | (Some r, _) => Some (inl r)
      | (None, _) =>
          let next := read_fat m d cluster in
          if at_end next then Some (inr cluster) else free_loop fuel' d next
      end
  end.

Definition find_free_dirent (d : D) (dir_cluster : Z) : option (option (Z * Z) * D) :=
  r ← free_loop walk_fuel d dir_cluster;
  match r with
  | inl slot => Some (slot, d)
  | inr cluster =>
      let '(newc, d) := alloc_cluster m d in
      if newc =? 0 then Some (None, d) else
      let '(ok, d) := zero_cluster m newc d in
      if negb ok then Some (None, d) else
      let '(ok, d) := write_fat m cluster newc d in
      if negb ok then Some (None, d) else
      Some (Some (cluster_to_lba m newc, 0), d)
  end.

Definition with_cluster (e : DirEntry) (c : Z) : DirEntry :=
  Entry (name e) (ext e) (attr e) (reserved e) (ctime_tenth e) (ctime e) (cdate e) (adate e)
    (u16 ((c .>> 16) .& 0xFFFF)) (mtime e) (mdate e) (u16 (c .& 0xFFFF)) (size e).

(** A directory entry with this name, and zeroes elsewhere. *)
Definition fresh_entry (nm x : list Z) (attr ntres : Z) : DirEntry := Entry nm x attr ntres 0 0 0 0 0 0 0 0 0.

(** The first sector of a new directory: [.] and [..]. *)
Definition dot_sector (first_cluster parent_cluster : Z) : list Z :=
  let dot := with_cluster (fresh_entry (pad 8 [period]) (pad 3 []) ATTR_DIR 0) first_cluster in
  let dotdot := with_cluster (fresh_entry (pad 8 [period; period]) (pad 3 []) ATTR_DIR 0) parent_cluster in
  store sizeof_DirEntry (entry_bytes dotdot) (store 0 (entry_bytes dot) (replicate 512 0)).

(** The first cluster of a new directory. *)
Definition new_dir (parent_cluster : Z) (d : D) : option Z * D :=
  let '(c, d) := alloc_cluster m d in
  if c =? 0 then (None, d) else
  let '(ok, d) := zero_cluster m c d in
  if negb ok then (None, d) else
  let '(ok, d) := dev_write (cluster_to_lba m c) (dot_sector c parent_cluster) d in
  (if ok then Some c else None, d).

(** The part of [fat_create] that touches the disk: the new entry and its place. *)
Definition create_dirent (dir_cluster : Z) (nm : list Z) (type : Z) (d : D) : option (option (DirEntry * Z * Z) * D) :=
  existing ← dir_find d dir_cluster nm;
  match existing with
  | Some _ => Some (None, d)
  | None =>
      '(slot, d) ← find_free_dirent d dir_cluster;
      match slot with
      | None => Some (None, d)
      | Some (sec, off) =>
          let '(n, x, ntres) := encode_83 nm in
          let is_dir := type =? Vfs.VFS_TYPE_DIR in
          let de := fresh_entry n x (if is_dir then ATTR_DIR else ATTR_ARCHIVE) ntres in
          let '(first_cluster, d) := if is_dir then new_dir dir_cluster d else (Some 0, d) in
          match first_cluster with
          | None => Some (None, d)
          | Some c =>
              let de := with_cluster de c in
              let '(ok, d) := write_dirent_at sec off de d in
              Some (if ok then Some (de, sec, off) else None, d)
          end
      end
  end.

(** ** Deleting an entry *)

(** [while (cl >= 2 && !is_eoc(cl))]: the value the walk ended at, or an error. *)
Fixpoint free_chain (fuel : nat) (cl : Z) (d : D) : option (option Z * D) :=
  match fuel with
  | O => None
  | S fuel' =>
      if at_end cl then Some (Some cl, d) else
      let next := read_fat m d cl in
      let '(ok, d) := write_fat m cl 0 d in
      if ok then free_chain fuel' next d else Some (None, d)
  end.

Definition fat_unlink (dir_cluster : Z) (nm : list Z) (d : D) : option (kStatus * D) :=
  found ← dir_find d dir_cluster nm;
  match found with
  | None => Some (Err NotFound, d)
  | Some (de, sec, off) =>
      if negb (attr de .& ATTR_DIR =? 0) then Some (Err IsDirectory, d) else
      match dev_read d sec with
      | None => Some (Err IOError, d)
      | Some buf =>
          let '(ok, d) := dev_write sec (store off [0xE5] buf) d in
          if negb ok then Some (Err IOError, d) else
          '(r, d) ← free_chain walk_fuel (entry_cluster de) d;
          match r with
          | None => Some (Err IOError, d)
          | Some cl =>
              if (2 <=? cl) && is_eoc cl then
                let '(ok, d) := write_fat m cl 0 d in
                Some (if ok then Ok tt else Err IOError, d)
              else Some (Ok tt, d)
          end
      end
  end.

(** ** Walks as scans of a list *)

(** The slots of a directory in order: sector, offset and entry. *)
Definition slot : Type := Z * Z * DirEntry.
Definition sector_slots (d : D) (sec : Z) : list slot := (fun e => (sec, e * 32, entry_at (sector d sec) (e * 32))) <$> seqZ 0 16.
Definition cluster_slots (d : D) (c : Z) : list slot := seqZ 0 (sectors_per_cluster m) ≫= fun i => sector_slots d (cluster_to_lba m c + i).
Definition slots (d : D) (cs : list Z) : list slot := cs ≫= cluster_slots d.

Fixpoint scan {A S R : Type} (body : A -> S -> option R * S) (l : list A) (s : S) : option R * S :=
  match l with
  | [] => (None, s)
  | x :: l' => match body x s with (Some r, s) => (Some r, s) | (None, s) => scan body l' s end
  end.

Lemma scan_app {A S R} (body : A -> S -> option R * S) l l' s :
  scan body (l ++ l') s = match scan body l s with (Some r, s) => (Some r, s) | (None, s) => scan body l' s end.
Proof. revert s. induction l as [| x l IH]; intros s; [done |]. cbn [app scan]. destruct (body x s) as [[r |] s']; [done |]. apply IH. Qed.

Lemma scan_bind {A B S R} (body : B -> S -> option R * S) (f : A -> list B) l s :
  scan body (l ≫= f) s = scan (fun x s => scan body (f x) s) l s.
Proof.
  revert s. induction l as [| x l IH]; intros s; [done |]. rewrite bind_cons, scan_app. cbn [scan]. destruct (scan body (f x) s) as [[r |] s']; [done |]. apply IH.
Qed.

Lemma scan_fmap {A B S R} (body : B -> S -> option R * S) (f : A -> B) l s : scan body (f <$> l) s = scan (fun x s => body (f x) s) l s.
Proof. revert s. induction l as [| x l IH]; intros s; [done |]. cbn. destruct (body (f x) s) as [[r |] s']; [done |]. apply IH. Qed.

Lemma scan_ext {A S R} (f g : A -> S -> option R * S) l s : (forall x s, x ∈ l -> f x s = g x s) -> scan f l s = scan g l s.
Proof.
  revert s. induction l as [| x l IH]; intros s He; [done |]. cbn [scan]. rewrite He by apply list_elem_of_here. destruct (g x s) as [[r |] s']; [done |].
  apply IH. intros y s'' Hy. apply He. by apply list_elem_of_further.
Qed.

Lemma for_exit_scan {S R} (body : Z -> S -> option R * S) b a s : for_exit a b body s = scan body (seqZ a (b - a)) s.
Proof.
  revert s. pattern a. apply range_ind with b; clear a.
  - intros a Ha s. rewrite for_exit_done by lia. by rewrite seqZ_nil by lia.
  - intros a Ha IH s. rewrite for_exit_cons, seqZ_cons by lia. cbn [scan]. destruct (body a s) as [[r |] s']; [done |].
    rewrite IH. replace (Z.succ a) with (a + 1) by lia. by replace (Z.pred (b - a)) with (b - (a + 1)) by lia.
Qed.

Section walks.
Context {S R : Type}.
Variable visit : Z -> Z -> DirEntry -> S -> option R * S.
Definition visit_slot (x : slot) (s : S) : option R * S := let '(sec, off, de) := x in visit sec off de s.

Lemma entries_scan d sec s : entries_loop visit sec (sector d sec) s = scan visit_slot (sector_slots d sec) s.
Proof. unfold entries_loop, sector_slots. change (512 / sizeof_DirEntry) with 16. by rewrite for_exit_scan, scan_fmap. Qed.

Lemma sectors_scan err d c s : vol_ok m d -> in_vol m c -> sectors_loop visit err d c s = scan visit_slot (cluster_slots d c) s.
Proof.
  intros Hv Hc. unfold sectors_loop, cluster_slots. rewrite for_exit_scan, scan_bind, Z.sub_0_r. apply scan_ext. intros i s' Hi%elem_of_seqZ.
  destruct (cluster_sector m d c i Hv Hc) as [-> Hr]; [lia |]. pose proof (lba_eq m d c Hv Hc) as (_ & Hst & _).
  destruct (dev_read_ok d (cluster_to_lba m c + i)) as (-> & _); [lia |]. apply entries_scan.
Qed.

Lemma walk_scan fuel err d v cs s : vol_ok m d -> chain m (read_fat m d) v cs -> (length cs < fuel)%nat ->
  dir_walk visit fuel err d v s = Some (scan visit_slot (slots d cs) s).
Proof.
  intros Hv. revert v fuel s. induction cs as [| c cs IH]; intros v fuel s Hch Hf; (destruct fuel as [| fuel]; [lia |]); cbn [dir_walk].
  - cbn [chain] in Hch. by rewrite Hch.
  - destruct Hch as (-> & Hc & Ht). rewrite (in_vol_not_end m d c Hv Hc). cbn [length] in Hf. rewrite (sectors_scan err d c s Hv Hc).
    change (slots d (c :: cs)) with (cluster_slots d c ++ slots d cs). rewrite scan_app. destruct (scan visit_slot (cluster_slots d c) s) as [[r |] s']; [done |].
    apply IH; [done | lia].
Qed.
End walks.

(** A chain is not longer than the volume. *)
Lemma chain_short d v cs : vol_ok m d -> chain m (read_fat m d) v cs -> (length cs < walk_fuel)%nat.
Proof.
  intros Hv Hch. pose proof (cluster_chain_NoDup m d _ v cs Hv Hch) as Hnd. pose proof (v_total _ _ Hv). unfold walk_fuel.
  assert (length cs <= length (seqZ 2 (total_clusters m)))%nat as Hl.
  { apply submseteq_length, NoDup_submseteq; [done |]. intros c Hc. apply elem_of_seqZ. pose proof (chain_in m _ v cs c Hch Hc). unfold in_vol in *. lia. }
  rewrite length_seqZ in Hl. lia.
Qed.

(** ** Looking up *)

(** The first live entry with the name, before the end marker. *)
Fixpoint lookup_name (nm : list Z) (l : list slot) : option (DirEntry * Z * Z) :=
  match l with
  | [] => None
  | (sec, off, de) :: l' =>
      if first_char de =? 0 then None
      else if negb (skipped de) && name_matches de nm then Some (de, sec, off) else lookup_name nm l'
  end.

Lemma find_scan nm l : default None (fst (scan (visit_slot (find_visit nm)) l tt)) = lookup_name nm l.
Proof.
  induction l as [| [[sec off] de] l IH]; [done |]. cbn [scan lookup_name visit_slot]. unfold find_visit at 1.
  destruct (first_char de =? 0); [done |]. destruct (skipped de); [exact IH |]. cbn [negb andb]. destruct (name_matches de nm); [done | exact IH].
Qed.

Lemma dir_find_spec d v cs nm : has_file m d v cs -> dir_find d v nm = Some (lookup_name nm (slots d cs)).
Proof.
  intros (Hv & Hch & _). unfold dir_find. rewrite (walk_scan _ _ _ d v cs) by (done || by apply (chain_short d v)). cbn [mbind option_bind].
  rewrite <- find_scan. by destruct (scan _ _ _).
Qed.

(** ** Free slots *)

Definition is_free (de : DirEntry) : bool := (first_char de =? 0) || (first_char de =? 0xE5).

Fixpoint first_free (l : list slot) : option (Z * Z) :=
  match l with
  | [] => None
  | (sec, off, de) :: l' => if is_free de then Some (sec, off) else first_free l'
  end.

Lemma free_scan l : fst (scan (visit_slot free_visit) l tt) = Some <$> first_free l.
Proof. induction l as [| [[sec off] de] l IH]; [done |]. cbn [scan first_free visit_slot]. unfold free_visit at 1. fold (is_free de). by destruct (is_free de). Qed.

Lemma first_free_app l l' : first_free (l ++ l') = match first_free l with Some p => Some p | None => first_free l' end.
Proof. induction l as [| [[sec off] de] l IH]; [done |]. cbn [app first_free]. by destruct (is_free de). Qed.

Lemma free_loop_spec fuel d c cs : vol_ok m d -> chain m (read_fat m d) c (c :: cs) -> (length cs < fuel)%nat ->
  free_loop fuel d c = Some (match first_free (slots d (c :: cs)) with Some p => inl (Some p) | None => inr (List.last (c :: cs) 0) end).
Proof.
  intros Hv. revert c fuel. induction cs as [| c' cs IH]; intros c fuel (_ & Hc & Ht) Hf; (destruct fuel as [| fuel]; [cbn [length] in Hf; lia |]); cbn [free_loop].
  all: pose proof Hc as Hc2; unfold in_vol in Hc2; rewrite (proj2 (Z.ltb_ge c 2)) by lia; rewrite (sectors_scan _ _ d c tt Hv Hc).
  all: change (slots d (c :: ?t)) with (cluster_slots d c ++ slots d t); rewrite first_free_app; pose proof (free_scan (cluster_slots d c)) as Hs.
  all: destruct (scan (visit_slot free_visit) (cluster_slots d c) tt) as [[r |] []]; cbn [fst] in Hs; destruct (first_free (cluster_slots d c)) as [p |]; cbn in Hs; try done;
    [by injection Hs as -> |].
  - cbn [chain] in Ht. by rewrite Ht.
  - destruct Ht as (E & Hc' & Ht). rewrite E, (in_vol_not_end m d c' Hv Hc'). cbn [length] in Hf.
    rewrite (IH c' fuel); [done | | lia]. by split.
Qed.

(** ** The bytes of the slots *)

Lemma sector_ext d d1 c i : vol_ok m d -> vol_ok m d1 -> in_vol m c -> 0 <= i < sectors_per_cluster m ->
  (forall k, 0 <= k < csize m -> cluster_byte m d1 c k = cluster_byte m d c k) -> sector d1 (cluster_to_lba m c + i) = sector d (cluster_to_lba m c + i).
Proof.
  intros Hv Hv1 Hc Hi He. destruct (cluster_sector m d c i Hv Hc Hi) as [_ Hr]. destruct (cluster_sector m d1 c i Hv1 Hc Hi) as [_ Hr1].
  pose proof (lba_eq m d c Hv Hc) as (_ & Hst & _).
  destruct (dev_read_ok d (cluster_to_lba m c + i)) as (_ & Hl & _); [lia |]. destruct (dev_read_ok d1 (cluster_to_lba m c + i)) as (_ & Hl1 & _); [lia |].
  rewrite (seqZ_index (sector d1 _)), (seqZ_index (sector d _)), Hl, Hl1. apply list_fmap_ext. intros j x [-> Hx]%lookup_seqZ.
  specialize (He (i * 512 + Z.of_nat j)). unfold cluster_byte, csize in He. rewrite Z.div_add_l, (Z.div_small (Z.of_nat j)), Z.add_0_r in He by lia.
  rewrite Z.add_comm, Z.mod_add, Z.mod_small in He by lia. rewrite Z.add_0_l. apply He. lia.
Qed.

Lemma slots_ext d d1 cs : vol_ok m d -> vol_ok m d1 -> (forall c, c ∈ cs -> in_vol m c) ->
  (forall c k, c ∈ cs -> 0 <= k < csize m -> cluster_byte m d1 c k = cluster_byte m d c k) -> slots d1 cs = slots d cs.
Proof.
  intros Hv Hv1 Hin He. unfold slots. induction cs as [| c cs IH]; [done |]. rewrite !bind_cons. f_equal.
  - assert (c ∈ c :: cs) as Hc by apply list_elem_of_here. unfold cluster_slots.
    assert (forall l, (forall i, i ∈ l -> 0 <= i < sectors_per_cluster m) -> l ≫= (fun i => sector_slots d1 (cluster_to_lba m c + i)) = l ≫= (fun i => sector_slots d (cluster_to_lba m c + i))) as Hb.
    { induction l as [| i l IHl]; intros Hi; [done |]. rewrite !bind_cons. f_equal.
      - unfold sector_slots. rewrite (sector_ext d d1 c i); [done | done | done | by apply Hin | apply Hi, list_elem_of_here |]. intros k. by apply He.
      - apply IHl. intros j Hj. apply Hi. by apply list_elem_of_further. }
    apply Hb. intros i Hi%elem_of_seqZ. lia.
  - apply IH; intros; [apply Hin | apply He; [| done]]; by apply list_elem_of_further.
Qed.

(** The place of a slot. *)
Lemma elem_of_slots d cs sec off de : (sec, off, de) ∈ slots d cs <->
  exists c i e, c ∈ cs /\ 0 <= i < sectors_per_cluster m /\ 0 <= e < 16 /\ sec = cluster_to_lba m c + i /\ off = e * 32 /\ de = entry_at (sector d sec) off.
Proof.
  unfold slots, cluster_slots, sector_slots. rewrite list_elem_of_bind. split.
  - intros (c & (i & (e & [= -> -> ->] & He%elem_of_seqZ)%list_elem_of_fmap & Hi%elem_of_seqZ)%list_elem_of_bind & Hc). exists c, i, e. split_and!; (done || lia).
  - intros (c & i & e & Hc & Hi & He & -> & -> & ->). exists c. split; [| done]. apply list_elem_of_bind. exists i. split; [| apply elem_of_seqZ; lia].
    apply list_elem_of_fmap. exists e. split; [done |]. apply elem_of_seqZ. lia.
Qed.

Lemma first_free_elem l sec off : first_free l = Some (sec, off) -> exists de, (sec, off, de) ∈ l /\ is_free de = true.
Proof.
  induction l as [| [[s o] e] l IH]; [done |]. cbn [first_free]. destruct (is_free e) eqn:E.
  - intros [= -> ->]. exists e. split; [apply list_elem_of_here | done].
  - intros H. destruct (IH H) as (de & Hin & Hf). exists de. split; [by apply list_elem_of_further | done].
Qed.

(** ** Finding room *)

Lemma longer_bytes d F C v cs d1 F1 C1 cs1 c k : file m d F C v cs -> longer m F C cs d1 F1 C1 v cs1 -> c ∈ cs -> 0 <= k < csize m -> C1 c k = C c k.
Proof.
  intros Hf [Hf1 G E] [i Hi]%list_elem_of_lookup Hk. pose proof (vw_ok _ _ _ _ (fl_view _ _ _ _ _ _ Hf)) as Hv.
  destruct (gr_new _ _ _ _ _ _ _ G) as (nw & -> & _). pose proof (lookup_lt_Some _ _ _ Hi) as Hlt.
  pose proof (v_spc _ _ Hv). assert (0 < csize m) by (unfold csize; lia).
  specialize (E (Z.of_nat i * csize m + k) ltac:(nia)). unfold content in E. rewrite length_app in E. rewrite !decide_True in E by nia.
  rewrite (file_byte_at m d C cs i c k) in E by done. rewrite (file_byte_at m d C1 _ i c k) in E; [done | done | by apply lookup_app_l_Some | done].
Qed.

Lemma view_bytes_slots d d1 F F1 C C1 cs : view m d F C -> view m d1 F1 C1 -> (forall c, c ∈ cs -> in_vol m c) ->
  (forall c k, c ∈ cs -> 0 <= k < csize m -> C1 c k = C c k) -> slots d1 cs = slots d cs.
Proof.
  intros Hvw Hvw1 Hin He. apply slots_ext; [apply (vw_ok _ _ _ _ Hvw) | apply (vw_ok _ _ _ _ Hvw1) | done |].
  intros c k Hc Hk. rewrite (vw_data _ _ _ _ Hvw) by auto. rewrite (vw_data _ _ _ _ Hvw1) by auto. by apply He.
Qed.

Lemma longer_slots d F C v cs d1 F1 C1 cs1 : file m d F C v cs -> longer m F C cs d1 F1 C1 v cs1 -> slots d1 cs = slots d cs.
Proof.
  intros Hf L. apply (view_bytes_slots d d1 F F1 C C1); [apply Hf | apply L | |].
  - intros c Hc. by apply (chain_in m F v cs); [apply Hf |].
  - intros c k Hc Hk. by apply (longer_bytes d F C v cs d1 F1 C1 cs1).
Qed.

Lemma lookup_name_app nm l l' : first_free l = None -> lookup_name nm (l ++ l') = match lookup_name nm l with Some x => Some x | None => lookup_name nm l' end.
Proof.
  induction l as [| [[s o] e] l IH]; [done |]. cbn [first_free app lookup_name]. unfold is_free at 1. destruct (first_char e =? 0); [done |].
  cbn [orb]. destruct (first_char e =? 0xE5); [done |]. intros H. destruct (negb (skipped e) && name_matches e nm); [done | by apply IH].
Qed.

(** A zeroed cluster starts with an end marker. *)
Lemma zero_slots d F C c : view m d F C -> in_vol m c -> (forall k, 0 <= k < csize m -> C c k = 0) ->
  exists de l, cluster_slots d c = (cluster_to_lba m c, 0, de) :: l /\ first_char de = 0.
Proof.
  intros Hvw Hc H0. pose proof (vw_ok _ _ _ _ Hvw) as Hv. pose proof (v_spc _ _ Hv) as Hspc. unfold cluster_slots.
  rewrite seqZ_cons, bind_cons by lia. rewrite Z.add_0_r. unfold sector_slots. do 2 eexists. split; [reflexivity |].
  unfold first_char. cbn [name entry_at]. rewrite slice_index by lia. change (at_index (sector d (cluster_to_lba m c)) 0 = 0).
  pose proof (vw_data _ _ _ _ Hvw c 0 Hc) as Hd. fold (csize m) in Hd. unfold csize in *. specialize (Hd ltac:(lia)). unfold cluster_byte in Hd.
  change (0 / 512) with 0 in Hd. rewrite Z.add_0_r in Hd. change (0 mod 512) with 0 in Hd. rewrite Hd. apply H0. lia.
Qed.

Lemma find_free_dirent_spec d F C v cs : file m d F C v cs -> cs <> [] ->
  (find_free_dirent d v = Some (None, d) /\ free_clusters m F = 0) \/
  exists sec off d1 F1 C1 cs1, find_free_dirent d v = Some (Some (sec, off), d1) /\ longer m F C cs d1 F1 C1 v cs1 /\
    first_free (slots d1 cs1) = Some (sec, off) /\ forall nm, lookup_name nm (slots d1 cs1) = lookup_name nm (slots d cs).
Proof.
  intros Hf Hne. pose proof Hf as [Hvw Hch How]. pose proof (vw_ok _ _ _ _ Hvw) as Hv. pose proof (file_has m d F C v cs Hf) as (_ & Hch' & _).
  pose proof (chain_short d v cs Hv Hch') as Hlen. destruct cs as [| c cs]; [done |]. assert (v = c) as -> by apply Hch. clear Hne.
  unfold find_free_dirent. rewrite (free_loop_spec _ d c cs Hv Hch') by (cbn [length] in Hlen; lia). cbn [mbind option_bind].
  destruct (first_free (slots d (c :: cs))) as [[sec off] |] eqn:Hff.
  { right. exists sec, off, d, F, C, (c :: cs). split; [done |]. split; [by apply longer_refl |]. done. }
  set (l := List.last (c :: cs) 0). assert (exists t, c :: cs = t ++ [l]) as [t Et] by (destruct (@exists_last _ (c :: cs)) as (t & x & E); [done |]; exists t; unfold l; by rewrite E, last_last).
  clearbody l. destruct (alloc_cluster_view m d F C Hvw) as [[-> Hn] | (n & d1 & -> & Hnv & Hn0 & _ & Hvw1)].
  { left. split; [done |]. by apply free_none. }
  right. rewrite (proj2 (Z.eqb_neq n 0)) by (unfold in_vol in Hnv; lia).
  assert (in_vol m l) as Hl. { apply (chain_in m F c (c :: cs) l Hch). rewrite Et. apply elem_of_app. right. apply list_elem_of_here. }
  destruct (zero_cluster_view m d1 _ _ n Hvw1 Hnv) as (d2 & -> & Hvw2). cbn [negb].
  destruct (write_fat_view m d2 _ _ l n Hvw2 Hl) as (d3 & -> & Hvw3). rewrite (in_vol_mask m d n Hv Hnv) in Hvw3. cbn [negb].
  rewrite Et in Hf. pose proof (longer_snoc m d F C c t l n d3 Hf Hnv Hn0 Hvw3) as L. rewrite <- Et in L, Hf.
  do 6 eexists. split; [reflexivity |]. split; [exact L |]. pose proof (longer_slots _ _ _ _ _ _ _ _ _ Hf L) as Es.
  destruct (zero_slots d3 _ _ n Hvw3 Hnv) as (de & rest & En & H0). { intros k _. by rewrite fn_lookup_insert. }
  assert (slots d3 ((c :: cs) ++ [n]) = slots d (c :: cs) ++ (cluster_to_lba m n, 0, de) :: rest) as ->.
  { unfold slots in *. rewrite bind_app. rewrite Es. f_equal. cbn. by rewrite En, app_nil_r. }
  split.
  - rewrite first_free_app, Hff. cbn [first_free]. unfold is_free. by rewrite H0.
  - intros nm. rewrite lookup_name_app by done. destruct (lookup_name nm _); [done |]. cbn [lookup_name]. by rewrite H0.
Qed.

(** ** Storing an entry *)

Definition set_slot (sec off : Z) (de : DirEntry) (x : slot) : slot :=
  let '(s, o, _) := x in if bool_decide (s = sec /\ o = off) then (sec, off, de) else x.

Lemma fmap_bind {A B E} (f : B -> E) (g : A -> list B) l : f <$> (l ≫= g) = l ≫= fun x => f <$> g x.
Proof. induction l as [| x l IH]; [done |]. by rewrite !bind_cons, fmap_app, IH. Qed.

Lemma slots_set d d1 cs sec e nbuf : 0 <= e < 16 ->
  (forall l, sector d1 l = if decide (l = sec) then nbuf else sector d l) ->
  (forall j, 0 <= j < 16 -> j <> e -> entry_at nbuf (j * 32) = entry_at (sector d sec) (j * 32)) ->
  slots d1 cs = set_slot sec (e * 32) (entry_at nbuf (e * 32)) <$> slots d cs.
Proof.
  intros He Hs Ho. unfold slots, cluster_slots. rewrite fmap_bind. apply list_bind_ext; [| done]. intros x. rewrite fmap_bind. apply list_bind_ext; [| done].
  intros y. set (s := cluster_to_lba m x + y). unfold sector_slots. rewrite <- list_fmap_compose. apply list_fmap_ext. intros j z [-> Hx]%lookup_seqZ.
  cbn [compose set_slot]. rewrite Hs, Z.add_0_l. case_decide as Es; [| by rewrite bool_decide_eq_false_2 by tauto]. destruct (decide (Z.of_nat j = e)) as [-> | Hne].
  - by rewrite bool_decide_eq_true_2, Es by done.
  - rewrite bool_decide_eq_false_2 by lia. rewrite Ho, Es by lia. done.
Qed.

Lemma write_dirent_spec d F C v cs c i e de : file m d F C v cs -> c ∈ cs -> 0 <= i < sectors_per_cluster m -> 0 <= e < 16 -> entry_ok de ->
  exists d1 C1, write_dirent_at (cluster_to_lba m c + i) (e * 32) de d = (true, d1) /\ file m d1 F C1 v cs /\ grown m F C cs F C1 cs /\
    slots d1 cs = set_slot (cluster_to_lba m c + i) (e * 32) de <$> slots d cs.
Proof.
  intros Hf Hcin Hi He Hde. destruct Hf as [Hvw Hch How]. pose proof (vw_ok _ _ _ _ Hvw) as Hv. assert (in_vol m c) as Hc by by apply (chain_in m F v cs).
  destruct (cluster_sector m d c i Hv Hc Hi) as [_ Hr]. pose proof (lba_eq m d c Hv Hc) as (_ & Hst & _).
  destruct (dev_read_ok d (cluster_to_lba m c + i)) as (Hrd & Hl & Hu); [lia |]. pose proof (length_entry_bytes de Hde) as H32.
  assert ((i * 512 + e * 32) / 512 = i /\ (i * 512 + e * 32) mod 512 = e * 32) as [Eq Em].
  { rewrite Z.div_add_l, (Z.add_comm (i * 512)), Z.mod_add by lia. rewrite Z.div_small, Z.mod_small by lia. lia. }
  destruct (write_sector_view m d F C c (i * 512 + e * 32) (entry_bytes de) Hvw Hc) as (d1 & Hwr & Hvw1); [nia | rewrite Em, H32; lia | by apply entry_bytes_U8 |].
  rewrite Eq, Em in Hwr. destruct (dev_write_ok d (cluster_to_lba m c + i) (store (e * 32) (entry_bytes de) (sector d (cluster_to_lba m c + i))))
    as (d1' & Hwr' & _ & Hs); [lia | by rewrite length_store | apply store_U8; [by apply entry_bytes_U8 | done] |].
  rewrite Hwr in Hwr'. injection Hwr' as <-. exists d1. eexists. unfold write_dirent_at. rewrite Hrd. split; [exact Hwr |]. split; [split; [exact Hvw1 | done | done] |]. split.
  - split; try done; [exists []; by rewrite app_nil_r |]. intros x k _ Hx. rewrite fn_lookup_insert_ne; [done |]. by intros ->.
  - assert (forall j, 0 <= j < 16 -> entry_at (store (e * 32) (entry_bytes de) (sector d (cluster_to_lba m c + i))) (j * 32) =
      if decide (j * 32 = e * 32) then de else entry_at (sector d (cluster_to_lba m c + i)) (j * 32)) as Hes by (intros j Hj; apply entry_store; (done || lia)).
    rewrite (slots_set d d1 cs _ e _ He Hs); [| intros j Hj Hne; rewrite Hes by done; by rewrite decide_False by lia].
    rewrite Hes by done. by rewrite decide_True by done.
Qed.

(** A slot is determined by its place. *)
Lemma slot_place d cs sec off e1 e2 : (sec, off, e1) ∈ slots d cs -> (sec, off, e2) ∈ slots d cs -> e1 = e2.
Proof. rewrite !elem_of_slots. intros (? & ? & ? & _ & _ & _ & _ & _ & ->) (? & ? & ? & _ & _ & _ & _ & _ & ->). done. Qed.

Lemma lookup_set nm sec off de l : first_free l = Some (sec, off) -> lookup_name nm l = None -> first_char de <> 0 -> skipped de = false -> name_matches de nm = true ->
  lookup_name nm (set_slot sec off de <$> l) = Some (de, sec, off).
Proof.
  intros Hff Hl H0 Hs Hm. assert (forall l, lookup_name nm ((sec, off, de) :: l) = Some (de, sec, off)) as Hhit.
  { intros l'. cbn [lookup_name]. by rewrite (proj2 (Z.eqb_neq _ 0) H0), Hs, Hm. }
  revert Hff Hl. induction l as [| [[s o] e] l IH]; [done |]. cbn [first_free lookup_name fmap list_fmap set_slot]. case_bool_decide as E; [intros; apply Hhit |].
  cbn [lookup_name]. unfold is_free. destruct (first_char e =? 0); cbn [orb]; [intros [= <- <-]; by destruct E |].
  destruct (first_char e =? 0xE5); [intros [= <- <-]; by destruct E |].
  destruct (negb (skipped e) && name_matches e nm); [done |]. exact IH.
Qed.

Lemma lookup_keep nm y sec off de l : (forall e, (sec, off, e) ∈ l -> is_free e = true) -> lookup_name nm l = Some y ->
  first_char de <> 0 -> name_matches de nm = false -> lookup_name nm (set_slot sec off de <$> l) = Some y.
Proof.
  intros Hfree Hl H0 Hm. revert Hfree Hl. induction l as [| [[s o] e] l IH]; [done |]. intros Hfree. cbn [lookup_name fmap list_fmap set_slot].
  assert (forall e, (sec, off, e) ∈ l -> is_free e = true) as Hfree' by (intros e' He'; apply Hfree; by apply list_elem_of_further).
  case_bool_decide as E.
  - destruct E as [-> ->]. specialize (Hfree e (list_elem_of_here _ _)). unfold is_free in Hfree. cbn [lookup_name].
    rewrite (proj2 (Z.eqb_neq _ 0) H0), Hm, andb_false_r. destruct (first_char e =? 0); [done |]. cbn [orb] in Hfree. unfold skipped at 1. rewrite Hfree. cbn [orb negb andb].
    by apply IH.
  - cbn [lookup_name]. destruct (first_char e =? 0); [done |]. destruct (negb (skipped e) && name_matches e nm); [done | by apply IH].
Qed.

(** The rest of a walk after the place of the entry found. *)
Lemma lookup_name_elem nm l de sec off : lookup_name nm l = Some (de, sec, off) -> (sec, off, de) ∈ l /\ first_char de <> 0 /\ skipped de = false /\ name_matches de nm = true.
Proof.
  induction l as [| [[s o] e] l IH]; [done |]. cbn [lookup_name]. destruct (Z.eqb_spec (first_char e) 0) as [| H0]; [done |].
  destruct (skipped e) eqn:Hs; cbn [negb andb]; [intros H; destruct (IH H) as (? & ?); split; [by apply list_elem_of_further | done] |].
  destruct (name_matches e nm) eqn:Hm; [intros [= -> -> ->]; split; [apply list_elem_of_here | done] |].
  intros H. destruct (IH H) as (? & ?). split; [by apply list_elem_of_further | done].
Qed.

(** ** Creating an entry *)

Lemma with_cluster_ok e c : entry_ok e -> entry_ok (with_cluster e c).
Proof.
  intros [Hn He Hb Hw Hs]. assert (forall x, 0 <= u16 x < 2 ^ 16) as H16 by (intros; apply wrap_bound; lia).
  rewrite !Forall_cons in Hw. destruct Hw as (W1 & W2 & W3 & W4 & W5 & W6 & W7 & _). split; try done.
  repeat (apply Forall_cons; split; [done || apply H16 |]). apply Forall_nil_2.
Qed.

Lemma with_cluster_spec e c : 0 <= c < 2 ^ 32 -> entry_cluster (with_cluster e c) = c.
Proof.
  intros Hc. unfold entry_cluster. cbn [with_cluster cluster_hi cluster_lo]. change 0xFFFF with (Z.ones 16). rewrite !Z.land_ones, Z.shiftr_div_pow2 by lia.
  unfold u16, u32, wrap. rewrite !Z.mod_mod by lia. assert (0 <= c / 2 ^ 16 < 2 ^ 16) as Hq by (split; [apply Z.div_pos; lia | apply Z.div_lt_upper_bound; lia]).
  rewrite (Z.mod_small (c / 2 ^ 16)) by done. rewrite Z.shiftl_mul_pow2 by lia. rewrite Z.mod_small by lia.
  rewrite (lor_disjoint 16); [| lia | apply Z.mod_mul; lia | apply Z.mod_pos_bound; lia]. rewrite Z.mul_comm. symmetry. apply Z.div_mod. lia.
Qed.

Lemma fresh_entry_ok n x a r : length n = 8%nat -> length x = 3%nat -> Forall U8 n -> Forall U8 x -> U8 a -> U8 r -> entry_ok (fresh_entry n x a r).
Proof.
  intros. split; cbn [fresh_entry name ext attr reserved ctime_tenth ctime cdate adate cluster_hi mtime mdate cluster_lo size]; try done.
  repeat (apply Forall_cons; split; [lia |]). apply Forall_nil_2.
Qed.

Lemma pad_ok n l : (length l <= n)%nat -> Forall U8 l -> length (pad n l) = n /\ Forall U8 (pad n l).
Proof.
  intros Hl Hb. unfold pad. rewrite length_app, length_replicate. split; [lia |]. apply Forall_app. split; [done |]. apply Forall_replicate. unfold U8, space. lia.
Qed.

Lemma dot_sector_ok c p : length (dot_sector c p) = 512%nat /\ Forall U8 (dot_sector c p).
Proof.
  assert (entry_ok (fresh_entry (pad 8 [period]) (pad 3 []) ATTR_DIR 0) /\ entry_ok (fresh_entry (pad 8 [period; period]) (pad 3 []) ATTR_DIR 0)) as [H1 H2].
  { unfold period, ATTR_DIR. split; (apply fresh_entry_ok; [done | done | | | unfold U8; lia | unfold U8; lia]); cbn [pad app replicate length Nat.sub];
      repeat (apply Forall_cons; split; [unfold U8, space; lia |]); apply Forall_nil_2. }
  unfold dot_sector. rewrite !length_store. split; [apply length_replicate |].
  apply store_U8; [by apply entry_bytes_U8, with_cluster_ok |]. apply store_U8; [by apply entry_bytes_U8, with_cluster_ok |]. apply Forall_replicate. unfold U8. lia.
Qed.

Lemma new_dir_spec d F C v cs p : file m d F C v cs ->
  (new_dir p d = (None, d) /\ free_clusters m F = 0) \/
  exists c d1 F1 C1, new_dir p d = (Some c, d1) /\ in_vol m c /\ file m d1 F1 C1 v cs /\ slots d1 cs = slots d cs /\ untouched m F C [] F1 C1.
Proof.
  intros Hf. pose proof Hf as [Hvw Hch How]. pose proof (vw_ok _ _ _ _ Hvw) as Hv. unfold new_dir.
  destruct (alloc_cluster_view m d F C Hvw) as [[-> Hn] | (c & d1 & -> & Hc & H0 & _ & Hvw1)]. { left. split; [done |]. by apply free_none. }
  right. rewrite (proj2 (Z.eqb_neq c 0)) by (unfold in_vol in Hc; lia). destruct (zero_cluster_view m d1 _ _ c Hvw1 Hc) as (d2 & -> & Hvw2). cbn [negb].
  pose proof (vw_ok _ _ _ _ Hvw2) as Hv2. destruct (dot_sector_ok c p) as [Hl Hu]. pose proof (v_spc _ _ Hv) as Hspc.
  destruct (write_sector_view m d2 _ _ c 0 (dot_sector c p) Hvw2 Hc) as (d3 & Hwr & Hvw3); [lia | rewrite Hl; done | done |].
  change (0 / 512) with 0 in Hwr. change (0 mod 512) with 0 in Hwr. rewrite Z.add_0_r in Hwr.
  destruct (cluster_sector m d2 c 0 Hv2 Hc) as [_ Hr]; [lia |]. rewrite Z.add_0_r in Hr. pose proof (lba_eq m d2 c Hv2 Hc) as (_ & Hst & _).
  destruct (dev_read_ok d2 (cluster_to_lba m c)) as (_ & Hl2 & _); [lia |].
  rewrite store_all in Hwr by (by rewrite Hl, Hl2). rewrite Hwr. exists c, d3. do 2 eexists. split; [done |]. split; [done |].
  unfold owned in How. rewrite Forall_forall in How. assert (c ∉ cs) as Hcn by (intros Hin; by apply (How c Hin)).
  assert (untouched m F C [] (<[c := 0x0FFFFFFF]> F) (<[c := fun k => if decide (0 <= k < 0 + Z.of_nat (length (dot_sector c p))) then at_index (dot_sector c p) (k - 0) else (<[c := fun _ => 0]> C) c k]> (<[c := fun _ => 0]> C))) as Hu'.
  { intros x Hx Hx0 _. assert (c <> x) by (intros ->; done). rewrite !fn_lookup_insert_ne by done. done. }
  assert (cs ## []) as Hdis by (intros x _ Hx; by apply not_elem_of_nil in Hx).
  destruct (untouched_file m d F C [] d3 _ _ v cs Hf Hvw3 Hu' Hdis) as [Hf3 E3]. split; [exact Hf3 |]. split; [| exact Hu'].
  apply (view_bytes_slots d d3 F _ C _ cs Hvw Hvw3); [intros x Hx; by apply (chain_in m F v cs) | intros x k Hx _; by apply E3].
Qed.

Lemma encoded_ok b x n y r : short b x -> at_index b 0 <> 0xE5 -> encode_83 (join b x) = (n, y, r) ->
  length n = 8%nat /\ length y = 3%nat /\ Forall U8 n /\ Forall U8 y /\ U8 r /\ at_index n 0 <> 0 /\ at_index n 0 <> 0xE5.
Proof.
  intros Hs HE5. rewrite encode_83_spec by done. destruct Hs as [Hb Hx [Cb Cx]]. intros [= <- <- <-].
  assert (forall l, Forall plain_char l -> Forall U8 (to_upper <$> l)) as Hu by (intros l Hl; apply Forall_fmap, (Forall_impl _ _ _ Hl); intros c Hc; apply (to_upper_plain c Hc)).
  destruct (pad_ok 8 (to_upper <$> b)) as [L8 U1]; [rewrite length_fmap; lia | by apply Hu |].
  destruct (pad_ok 3 (to_upper <$> x)) as [L3 U2]; [rewrite length_fmap; lia | by apply Hu |].
  split; [done |]. split; [done |]. split; [done |]. split; [done |]. split; [| split].
  - unfold U8, NTRES_LOWER_BASE, NTRES_LOWER_EXT. destruct (existsb is_lower b), (existsb is_lower x); by vm_compute.
  - destruct b as [| c b]; [cbn [length] in Hb; lia |]. apply Forall_cons in Cb as [Hc _]. apply (to_upper_plain c Hc).
  - destruct b as [| c b]; [cbn [length] in Hb; lia |]. change (to_upper c <> 0xE5). change (c <> 0xE5) in HE5. clear -HE5. case_char.
Qed.

Lemma untouched_trans F C cs F1 C1 cs1 F2 C2 : untouched m F C cs F1 C1 -> untouched m F1 C1 cs1 F2 C2 -> (forall c, c ∈ cs1 -> F c <> 0 -> c ∈ cs) ->
  untouched m F C cs F2 C2.
Proof.
  intros H1 H2 Hin c Hc Hn Hnot. destruct (H1 c Hc Hn Hnot) as [E1 D1]. destruct (H2 c Hc) as [E2 D2]; [by rewrite E1 | intros ?; by apply Hnot, Hin |].
  split; [congruence |]. intros k. by rewrite D2, D1.
Qed.

(** The entry goes to the free slot, and is found there. *)
Lemma create_entry d F C v cs b x de sec off nm : file m d F C v cs -> short b x -> nm = join b x -> entry_ok de -> first_char de <> 0 -> skipped de = false ->
  encode_83 nm = (name de, ext de, reserved de) -> first_free (slots d cs) = Some (sec, off) -> lookup_name nm (slots d cs) = None ->
  exists d1 C1, write_dirent_at sec off de d = (true, d1) /\ file m d1 F C1 v cs /\ grown m F C cs F C1 cs /\
    lookup_name nm (slots d1 cs) = Some (de, sec, off) /\ forall nm' y, lookup_name nm' (slots d cs) = Some y -> lookup_name nm' (slots d1 cs) = Some y.
Proof.
  intros Hf Hs -> Hde H0 Hsk Henc Hff Hnone. destruct (first_free_elem _ _ _ Hff) as (e0 & Hin & Hfree). pose proof Hin as Hin'.
  apply elem_of_slots in Hin' as (c & i & e & Hc & Hi & He & -> & -> & _).
  destruct (write_dirent_spec d F C v cs c i e de Hf Hc Hi He Hde) as (d1 & C1 & Hw & Hf1 & G & Es). exists d1, C1. split; [done |]. split; [done |]. split; [done |].
  rewrite Es. assert (name_matches de (join b x) = true) as Hm by (rewrite (encoded_matches b x de _ Hs Henc); by apply bool_decide_eq_true_2).
  split; [by apply lookup_set |]. intros nm' y Hy. apply lookup_keep; [| done | done |].
  - intros e' He'. by rewrite (slot_place d cs _ _ _ _ He' Hin).
  - rewrite (encoded_matches b x de _ Hs Henc). apply bool_decide_eq_false_2. intros E.
    assert (lookup_name nm' (slots d cs) = lookup_name (join b x) (slots d cs)) as E'; [| congruence].
    clear -E. induction (slots d cs) as [| [[s o] e'] l IH]; [done |]. cbn [lookup_name]. rewrite IH. unfold name_matches. rewrite !same_name_spec.
    by rewrite E.
Qed.

(** What a successful creation of [nm] means for the volume. *)
Record created (d : D) (v : Z) (cs nm : list Z) (de : DirEntry) (sec off : Z) (d1 : D) : Prop := {
  cr_absent : dir_find d v nm = Some None;
  cr_found : dir_find d1 v nm = Some (Some (de, sec, off));
  cr_kept : forall nm' y, dir_find d v nm' = Some (Some y) -> dir_find d1 v nm' = Some (Some y);
  cr_dir : exists cs1, has_file m d1 v cs1 /\ cs `prefix_of` cs1;
  cr_others : forall v2 cs2, has_file m d v2 cs2 -> cs2 ## cs -> cs2 <> [] ->
    has_file m d1 v2 cs2 /\ forall o n, 0 <= o -> 0 <= n -> chain_read m d1 v2 o n = chain_read m d v2 o n;
}.

(** The last step of a creation: the entry is written to the slot found before. *)
Lemma create_store d v cs b x de sec off d1 F1 C1 cs1 d2 F2 C2 : has_file m d v cs -> short b x -> lookup_name (join b x) (slots d cs) = None ->
  longer m (read_fat m d) (cluster_byte m d) cs d1 F1 C1 v cs1 -> first_free (slots d1 cs1) = Some (sec, off) ->
  (forall nm, lookup_name nm (slots d1 cs1) = lookup_name nm (slots d cs)) ->
  file m d2 F2 C2 v cs1 -> slots d2 cs1 = slots d1 cs1 -> untouched m F1 C1 [] F2 C2 ->
  entry_ok de -> first_char de <> 0 -> skipped de = false -> encode_83 (join b x) = (name de, ext de, reserved de) ->
  exists d3, write_dirent_at sec off de d2 = (true, d3) /\ created d v cs (join b x) de sec off d3.
Proof.
  intros Hhf Hs Hl L Hff Hln Hf2 Es2 Hu2 Hok H0 Hsk Henc. pose proof (lg_grown _ _ _ _ _ _ _ _ _ L) as G1.
  destruct (create_entry d2 F2 C2 v cs1 b x de sec off (join b x) Hf2 Hs eq_refl) as (d3 & C3 & -> & Hf3 & G3 & Hfind & Hkeep); try done;
    [by rewrite Es2 | by rewrite Es2, Hln |].
  pose proof (file_has m d3 F2 C3 v cs1 Hf3) as Hh3. exists d3. split; [done |]. split.
  - by rewrite (dir_find_spec d v cs _ Hhf), Hl.
  - by rewrite (dir_find_spec d3 v cs1 _ Hh3), Hfind.
  - intros nm z. rewrite (dir_find_spec d v cs nm Hhf), (dir_find_spec d3 v cs1 nm Hh3). intros [= Hz]. f_equal. apply Hkeep. by rewrite Es2, Hln.
  - exists cs1. split; [done |]. destruct (gr_new _ _ _ _ _ _ _ G1) as (nw & -> & _). by exists nw.
  - apply (untouched_others m d (read_fat m d) (cluster_byte m d) cs d3 F2 C3); [apply (has_file_view m d v cs Hhf) | apply Hf3 |].
    apply (untouched_trans _ _ _ F2 C2 cs1); [| by apply (grown_untouched m _ _ _ _ _ cs1) |].
    + apply (untouched_trans _ _ _ F1 C1 []); [by apply (grown_untouched m _ _ _ _ _ cs1) | done | by intros ? ?%not_elem_of_nil].
    + destruct (gr_new _ _ _ _ _ _ _ G1) as (nw & -> & Hnw). rewrite Forall_forall in Hnw. intros c [? | Hc]%elem_of_app Hn; [done |]. by destruct (Hnw c Hc).
Qed.


(** ** Deleting an entry *)

(** The table with the entries of [cs] cleared. *)
Definition cleared (F : Z -> Z) (cs : list Z) (c : Z) : Z := if decide (c ∈ cs) then 0 else F c.

Lemma view_ext d F F1 C : view m d F C -> (forall c, F1 c = F c) -> view m d F1 C.
Proof. intros [Hv Hf Hd] E. split; [done | | done]. intros c Hc. rewrite E. by apply Hf. Qed.

Lemma read_fat_bound d c : 0 <= read_fat m d c < 2 ^ 28.
Proof. unfold read_fat. case_match; [| lia]. rewrite Z.land_comm. apply land_bound_l; lia. Qed.

Lemma free_chain_spec fuel d F C v cs : view m d F C -> chain m F v cs -> NoDup cs -> (length cs < fuel)%nat ->
  exists cl d1, free_chain fuel v d = Some (Some cl, d1) /\ at_end cl = true /\ (cs = [] -> cl = v) /\ (cs <> [] -> 0 <= cl < 2 ^ 28) /\
    sector_count d1 = sector_count d /\ view m d1 (cleared F cs) C.
Proof.
  revert d F v fuel. induction cs as [| c cs IH]; intros d F v fuel Hvw Hch Hnd Hf; (destruct fuel as [| fuel]; [lia |]); cbn [free_chain].
  - cbn [chain] in Hch. rewrite Hch. exists v, d. do 5 (split; [done |]). apply (view_ext d F); [done |]. intros c. unfold cleared. by rewrite decide_False by apply not_elem_of_nil.
  - destruct Hch as (-> & Hc & Ht). rewrite (in_vol_not_end m d c (vw_ok _ _ _ _ Hvw) Hc), (vw_fat _ _ _ _ Hvw c Hc).
    destruct (write_fat_view m d F C c 0 Hvw Hc) as (d1 & Hw & Hvw1). pose proof (write_fat_count m d c 0) as Hcnt. rewrite Hw in Hcnt. cbn [snd] in Hcnt. rewrite Hw. rewrite Z.land_0_l in Hvw1. apply NoDup_cons in Hnd as [Hnin Hnd]. cbn [length] in Hf.
    destruct (IH d1 (<[c := 0]> F) (F c) fuel Hvw1) as (cl & d2 & -> & He & Hnil & Hb & Hcnt2 & Hvw2); [| done | lia |].
    + apply (cluster_chain_ext m F); [| done]. intros x Hx. rewrite fn_lookup_insert_ne; [done |]. by intros ->.
    + exists cl, d2. split; [done |]. split; [done |]. split; [done |]. split; [| split; [congruence |]].
      { intros _. destruct cs; [rewrite Hnil by done | by apply Hb]. rewrite <- (vw_fat _ _ _ _ Hvw c Hc). apply read_fat_bound. }
      apply (view_ext _ _ _ _ Hvw2). intros x. unfold cleared. rewrite upd_at.
      destruct (decide (x ∈ cs)) as [Hx | Hx]; [by rewrite decide_True by (by apply list_elem_of_further) |].
      destruct (decide (c = x)) as [-> | Hne]; [by rewrite decide_True by apply list_elem_of_here |]. rewrite decide_False; [done |]. intros [-> | ?]%elem_of_cons; done.
Qed.

(** Marking a slot as deleted. *)
Lemma mark_deleted d F C v cs c i e : file m d F C v cs -> c ∈ cs -> 0 <= i < sectors_per_cluster m -> 0 <= e < 16 ->
  let sec := cluster_to_lba m c + i in
  exists d1 C1 de, dev_read d sec = Some (sector d sec) /\ dev_write sec (store (e * 32) [0xE5] (sector d sec)) d = (true, d1) /\
    sector_count d1 = sector_count d /\ file m d1 F C1 v cs /\ grown m F C cs F C1 cs /\ first_char de = 0xE5 /\ slots d1 cs = set_slot sec (e * 32) de <$> slots d cs.
Proof.
  intros Hf Hcin Hi He sec. destruct Hf as [Hvw Hch How]. pose proof (vw_ok _ _ _ _ Hvw) as Hv. assert (in_vol m c) as Hc by by apply (chain_in m F v cs).
  destruct (cluster_sector m d c i Hv Hc Hi) as [_ Hr]. pose proof (lba_eq m d c Hv Hc) as (_ & Hst & _). fold sec in Hr.
  destruct (dev_read_ok d sec) as (Hrd & Hl & Hu); [lia |].
  assert ((i * 512 + e * 32) / 512 = i /\ (i * 512 + e * 32) mod 512 = e * 32) as [Eq Em].
  { rewrite Z.div_add_l, (Z.add_comm (i * 512)), Z.mod_add by lia. rewrite Z.div_small, Z.mod_small by lia. lia. }
  assert (Forall U8 [0xE5]) as H5 by (apply Forall_singleton; unfold U8; lia).
  destruct (write_sector_view m d F C c (i * 512 + e * 32) [0xE5] Hvw Hc) as (d1 & Hwr & Hvw1); [nia | rewrite Em; cbn [length]; lia | done |].
  rewrite Eq, Em in Hwr. fold sec in Hwr.
  destruct (dev_write_ok d sec (store (e * 32) [0xE5] (sector d sec))) as (d1' & Hwr' & Hcnt & Hs); [lia | by rewrite length_store | by apply store_U8 |].
  rewrite Hwr in Hwr'. injection Hwr' as <-. exists d1. do 2 eexists. split; [exact Hrd |]. split; [exact Hwr |]. split; [exact Hcnt |]. split; [split; [exact Hvw1 | done | done] |]. split; [| split].
  - split; try done; [exists []; by rewrite app_nil_r |]. intros x k _ Hx. rewrite fn_lookup_insert_ne; [done |]. by intros ->.
  - shelve.
  - apply (slots_set d d1 cs sec e _ He Hs). intros j Hj Hne. apply entry_at_ext; rewrite ?length_store, ?Hl; try lia.
    intros k Hk. rewrite store_index by (rewrite ?Hl; cbn [length]; lia). by rewrite decide_False by (cbn [length]; lia).
  Unshelve. unfold first_char. cbn [name entry_at]. rewrite slice_index, store_index by (rewrite ?Hl; cbn [length]; lia).
  rewrite decide_True by (cbn [length]; lia). by replace (e * 32 + 0 - e * 32) with 0 by lia.
Qed.

Lemma lookup_deleted nm sec off de l x s o : first_char de = 0xE5 -> lookup_name nm (set_slot sec off de <$> l) = Some (x, s, o) -> ~ (s = sec /\ o = off).
Proof.
  intros H5 Hl. apply lookup_name_elem in Hl as (Hin & _ & Hsk & _). apply list_elem_of_fmap in Hin as ([[s' o'] e'] & E & _). cbn [set_slot] in E.
  case_bool_decide as Hp; [| by injection E as -> -> ->]. injection E as -> -> ->. unfold skipped in Hsk. by rewrite H5 in Hsk.
Qed.

Lemma lookup_other nm sec off de l x s o : first_char de = 0xE5 -> lookup_name nm l = Some (x, s, o) -> ~ (s = sec /\ o = off) ->
  lookup_name nm (set_slot sec off de <$> l) = Some (x, s, o).
Proof.
  intros H5 Hl Hne. revert Hl. induction l as [| [[s' o'] e'] l IH]; [done |]. cbn [lookup_name fmap list_fmap set_slot]. case_bool_decide as Hp; cbn [lookup_name].
  - destruct Hp as [-> ->]. unfold skipped at 2. rewrite H5. cbn [Z.eqb orb negb andb Pos.eqb]. destruct (first_char e' =? 0); [done |].
    destruct (negb (skipped e') && name_matches e' nm); [intros [= -> -> ->]; by destruct Hne | exact IH].
  - destruct (first_char e' =? 0); [done |]. destruct (negb (skipped e') && name_matches e' nm); [done | exact IH].
Qed.

(** The table entry of an end marker lies far behind the table. *)
Lemma write_end_fails d cl : 0 <= cl < 2 ^ 28 -> is_eoc cl = true -> 0 <= fat_start m < 2 ^ 16 -> sector_count d <= fat_start m + 0x1FFFFF ->
  write_fat m cl 0 d = (false, d).
Proof.
  intros Hc He Hs Hn. unfold is_eoc in He. change 0x0FFFFFFF with (Z.ones 28) in He. rewrite Z.land_ones, Z.mod_small in He by lia. apply Z.leb_le in He.
  assert (fat_offset cl / 512 = 0x1FFFFF) as Eo.
  { unfold fat_offset. rewrite u32_small by (mach; change (2 ^ 28) with 268435456 in *; lia). symmetry. apply (Z.div_unique _ _ _ (cl * 4 - 0x1FFFFF * 512)); lia. }
  unfold write_fat. rewrite Eo. rewrite u32_small by (mach; lia). unfold dev_read. destruct (read_out d (fat_start m + 0x1FFFFF)) as [e ->]; [split; [done | lia] |]. done.
Qed.

(** What deleting the entry at [sec] and [off] with the clusters [fcs] did. *)
Record deleted (d : D) (v : Z) (cs fcs : list Z) (sec off : Z) (d1 : D) : Prop := {
  dl_dir : has_file m d1 v cs;
  dl_gone : forall nm de, dir_find d1 v nm <> Some (Some (de, sec, off));
  dl_kept : forall nm de s o, dir_find d v nm = Some (Some (de, s, o)) -> ~ (s = sec /\ o = off) -> dir_find d1 v nm = Some (Some (de, s, o));
  dl_freed : forall c, c ∈ fcs -> read_fat m d1 c = 0;
  dl_others : forall v2 cs2, has_file m d v2 cs2 -> cs2 ## cs ++ fcs -> cs2 <> [] ->
    has_file m d1 v2 cs2 /\ forall o n, 0 <= o -> 0 <= n -> chain_read m d1 v2 o n = chain_read m d v2 o n;
}.

Lemma cleared_untouched F C cs fcs C1 : grown m F C cs F C1 cs -> untouched m F C (cs ++ fcs) (cleared F fcs) C1.
Proof.
  intros G c Hc Hn Hnin. rewrite not_elem_of_app in Hnin. destruct Hnin as [H1 H2]. destruct (grown_untouched m _ _ _ _ _ _ G c Hc Hn H1) as [_ E].
  split; [| done]. unfold cleared. by rewrite decide_False.
Qed.

Lemma cleared_file d F C v cs fcs d1 C1 : file m d F C v cs -> view m d1 (cleared F fcs) C1 -> fcs ## cs -> file m d1 (cleared F fcs) C1 v cs.
Proof.
  intros [Hvw Hch How] Hvw1 Hdis. assert (forall c, c ∈ cs -> cleared F fcs c = F c) as E.
  { intros c Hc. unfold cleared. rewrite decide_False; [done |]. intros Hin. by apply (Hdis c). }
  split; [done | by apply (cluster_chain_ext m F) |]. unfold owned in *. rewrite Forall_forall in *. intros c Hc. rewrite E by done. by apply How.
Qed.

End dir.

(** ** A small directory *)

(** The names [hi] with extension [txt], and the volume of [Fat] with an entry of this
    name whose file has the cluster 3. *)
Definition demo_base : list Z := [104; 105].
Definition demo_ext : list Z := [116; 120; 116].

Lemma demo_short : short demo_base demo_ext.
Proof.
  split; [cbn; lia | cbn; lia |]. unfold plain_char, U8, space, period. split; repeat (apply Forall_cons; split; [lia |]); apply Forall_nil_2.
Qed.

Definition demo_entry : DirEntry := with_cluster (fresh_entry (pad 8 [72; 73]) (pad 3 [84; 88; 84]) ATTR_ARCHIVE 0x18) 3.
Definition demo_volume : Ram.disk := (write_dirent_at 3 0 demo_entry (alloc_cluster demo_mount demo_disk).2).2.

Lemma demo_volume_ok : vol_ok demo_mount demo_volume.
Proof. apply (vol_ok_count demo_mount demo_disk); [exact demo_vol_ok |]. vm_compute. reflexivity. Qed.
Lemma demo_volume_dir : has_file demo_mount demo_volume 2 [2].
Proof. split; [exact demo_volume_ok |]. split; [by vm_compute |]. apply Forall_singleton. vm_compute. discriminate. Qed.
Lemma demo_volume_file : has_file demo_mount demo_volume 3 [3].
Proof. split; [exact demo_volume_ok |]. split; [by vm_compute |]. apply Forall_singleton. vm_compute. discriminate. Qed.



(** The deletion succeeds and is reported as an error. *)
Lemma unlink_reports_error : match fat_unlink demo_mount 2 (join demo_base demo_ext) demo_volume with
  | Some (r, d1) => r = Err IOError /\ dir_find demo_mount d1 2 (join demo_base demo_ext) = Some None
  | None => False
  end.
Proof. vm_compute. split; reflexivity. Qed.

(** A name of nine characters is cut to eight when it is stored, and is not found
    afterwards. *)
Lemma long_name_lost : match create_dirent demo_mount 2 [97; 98; 99; 100; 101; 102; 103; 104; 105] 1 demo_disk with
  | Some (Some _, d1) => dir_find demo_mount d1 2 [97; 98; 99; 100; 101; 102; 103; 104; 105] = Some None
  | _ => False
  end.
Proof. vm_compute. reflexivity. Qed.

(** A directory whose only cluster links to itself and that has no end marker: looking
    up a name that it does not hold never ends. *)
Definition cyclic_disk : Ram.disk :=
  Ram.Disk {[1 := store 8 (le_bytes 4 2) (replicate 512 0); 3 := replicate 512 65]} 40.

Lemma cyclic_directory_hangs fuel : dir_walk demo_mount (find_visit [66]) fuel None cyclic_disk 2 tt = None.
Proof.
  induction fuel as [| fuel IH]; [done |]. cbn [dir_walk].
  assert (sectors_loop demo_mount (find_visit [66]) None cyclic_disk 2 tt = (None, tt)) as -> by (vm_compute; reflexivity).
  assert (read_fat demo_mount cyclic_disk 2 = 2) as -> by (vm_compute; reflexivity). exact IH.
Qed.
