(* ===== verification/FatFs.v ===== *)
(** * fs/fat32.cpp: the file system behind the virtual file system

    Mounting, the nodes of a mounted volume and the operations that the virtual file
    system calls through [fat_ops].  The private data of nodes and the disk are kept
    next to the heap: [store] is an allocator, so that the virtual file system of [Vfs]
    runs over it unchanged and the operations here are instances of its foreign
    operations.  There is one device. *)
From stdpp Require Import functions.
From S2P Require Import Prelude Bytes Alloc Block Fat FatName FatDir.
From S2P Require Vfs.

Record Fat32Node := FNode {
  fmount : Z;
  first_cluster : Z;
  is_dir : bool;
  dirent_sector : Z;
  dirent_offset : Z;
  has_dirent : bool;
}.

Definition sizeof_Fat32Mount : Z := 40.
Definition sizeof_Fat32Node : Z := 32.
Definition no_mount : Fat32Mount := Mount 0 0 0 0 0 0 0.
Definition no_fnode : Fat32Node := FNode 0 0 false 0 0 false.

(** The fields of the boot sector that [mount] reads. *)
Record BPB := MkBPB {
  bytes_per_sector : Z;
  bpb_sectors_per_cluster : Z;
  reserved_sectors : Z;
  bpb_num_fats : Z;
  total_sectors_32 : Z;
  fat_size_32 : Z;
  bpb_root_cluster : Z;
}.

Definition bpb_at (buf : list Z) : BPB :=
  MkBPB (get16 buf 11) (at_index buf 13) (get16 buf 14) (at_index buf 16) (get32 buf 32) (get32 buf 36) (get32 buf 44).

(** The mount state computed from the boot sector; the division by the cluster size
    traps when that is zero. *)
Definition geometry (b : BPB) : option Fat32Mount :=
  let data_start := u32 (reserved_sectors b + u32 (bpb_num_fats b * fat_size_32 b)) in
  if bpb_sectors_per_cluster b =? 0 then None else
  Some (Mount (reserved_sectors b) data_start (bpb_sectors_per_cluster b) (bpb_root_cluster b)
          (u32 (total_sectors_32 b - data_start) / bpb_sectors_per_cluster b) (fat_size_32 b) (bpb_num_fats b)).

(** The entry after a write: size and first cluster. *)
Definition touch_entry (off size cluster : Z) (buf : list Z) : list Z :=
  let buf := store (off + 28) (le_bytes 4 (u32 size)) buf in
  let buf := store (off + 20) (le_bytes 2 (u16 ((cluster .>> 16) .& 0xFFFF))) buf in
  store (off + 26) (le_bytes 2 (u16 (cluster .& 0xFFFF))) buf.

(** Instances are looked for at a known state only: the one below has itself as a
    premise. *)
#[global] Hint Mode Allocator ! : typeclass_instances.

Section fatfs.
Context {H : Type} `{!Allocator H} {D : Type} `{!BlockDevice D}.

Record disk_heap := Store {
  kheap : H;
  fnodes : gmap Z Fat32Node;
  fmounts : gmap Z Fat32Mount;
  disk : D;
}.

Definition set_kheap x s := Store x (fnodes s) (fmounts s) (disk s).
Definition set_fnodes x s := Store (kheap s) x (fmounts s) (disk s).
Definition set_fmounts x s := Store (kheap s) (fnodes s) x (disk s).
Definition set_disk x s := Store (kheap s) (fnodes s) (fmounts s) x.

(** The heap next to the disk is an allocator like the heap alone. *)
#[global] Instance disk_heap_allocator : Allocator disk_heap.
Proof.
  refine {| kmalloc := fun n s => '(p, h) ← kmalloc n (kheap s); Some (p, set_kheap h s);
            kfree := fun p s => h ← kfree p (kheap s); Some (set_kheap h s);
            blocks := fun s m => blocks (kheap s) m |}.
  - intros s m n Hb Hn. destruct (kmalloc_law (kheap s) m n Hb Hn) as (r & h & -> & Hr). by exists r, (set_kheap h s).
  - intros s m p Hb Hp. destruct (kfree_law (kheap s) m p Hb Hp) as (h & -> & Hb'). by exists (set_kheap h s).
  - intros s m Hb. destruct (kfree_null (kheap s) m Hb) as (h & -> & Hb'). by exists (set_kheap h s).
  - intros s. apply blocks_disjoint.
  - intros s. apply blocks_range.
Defined.

Definition M (A : Type) : Type := Vfs.M (H := disk_heap) A.
#[local] Instance M_ret : MRet M := @Vfs.ret disk_heap.
#[local] Instance M_bind : MBind M := fun A B k m => Vfs.bind m k.

Definition store_of (s : Vfs.state (H := disk_heap)) : disk_heap := Vfs.heap s.
Definition fnode (s : Vfs.state) (p : Z) : Fat32Node := default no_fnode (fnodes (store_of s) !! p).
Definition mount_of (s : Vfs.state) (p : Z) : Fat32Mount := default no_mount (fmounts (store_of s) !! p).
Definition upd_store (f : disk_heap -> disk_heap) : M unit := Vfs.modify (fun s => Vfs.set_heap (f (store_of s)) s).
Definition upd_fnode (p : Z) (f : Fat32Node -> Fat32Node) : M unit :=
  Vfs.modify (fun s => Vfs.set_heap (set_fnodes (<[p := f (fnode s p)]> (fnodes (store_of s))) (store_of s)) s).
Definition on_disk {A} (f : D -> option (A * D)) : M A := fun s =>
  match f (disk (store_of s)) with
  | Some (x, d) => Some (x, Vfs.set_heap (set_disk d (store_of s)) s)
  | None => None
  end.

Definition set_first_cluster (c : Z) (f : Fat32Node) : Fat32Node := FNode (fmount f) c (is_dir f) (dirent_sector f) (dirent_offset f) (has_dirent f).

(** ** The operations of a node *)

Definition fat_read (node offset len : Z) : M (kResult (list Z)) :=
  Vfs.get (fun s =>
    let v := Vfs.nd s node in
    let fn := fnode s (Vfs.priv v) in
    if Vfs.fsize v <=? offset then Ok [] else
    let avail := u64 (Vfs.fsize v - offset) in
    let len := if avail <? len then avail else len in
    Ok (chain_read (mount_of s (fmount fn)) (disk (store_of s)) (first_cluster fn) offset len)).

(** Size and first cluster go to the directory entry of the node. *)
Definition update_dirent (fn : Fat32Node) (size : Z) (d : D) : option (unit * D) :=
  match dev_read d (dirent_sector fn) with
  | Some buf => Some (tt, (dev_write (dirent_sector fn) (touch_entry (dirent_offset fn) size (first_cluster fn) buf) d).2)
  | None => Some (tt, d)
  end.

Definition fat_write (node offset : Z) (src : list Z) : M (kResult Z) :=
  p ← Vfs.get (fun s => Vfs.priv (Vfs.nd s node));
  fn ← Vfs.get (fun s => fnode s p);
  m ← Vfs.get (fun s => mount_of s (fmount fn));
  r ← on_disk (fun d => let '(written, c, d) := chain_write m (first_cluster fn) offset src d in Some ((written, c), d));
  let '(written, c) := r in
  upd_fnode p (set_first_cluster c) ;;
  if written <=? 0 then mret (Err IOError) else
  let wend := u64 (offset + written) in
  size ← Vfs.get (fun s => Vfs.fsize (Vfs.nd s node));
  (if size <? wend then Vfs.upd_node node (Vfs.set_fsize wend) else mret tt) ;;
  fn ← Vfs.get (fun s => fnode s p);
  size ← Vfs.get (fun s => Vfs.fsize (Vfs.nd s node));
  (if has_dirent fn then on_disk (update_dirent fn size) else mret tt) ;;
  mret (Ok written).

(** The node of an entry, or null. *)
Definition make_vnode (mp : Z) (de : DirEntry) (dirent_sector dirent_offset : Z) : M Z :=
  let nm := decode_83 de in
  let is_dir := negb (attr de .& ATTR_DIR =? 0) in
  node ← Vfs.malloc Vfs.sizeof_VNode;
  if node =? 0 then mret 0 else
  fp ← Vfs.malloc sizeof_Fat32Node;
  if fp =? 0 then (Vfs.free node ;; mret 0) else
  upd_fnode fp (fun _ => FNode mp (entry_cluster de) is_dir dirent_sector dirent_offset true) ;;
  Vfs.upd_node node (fun _ => Vfs.Node (take 127 nm) (if is_dir then Vfs.VFS_TYPE_DIR else Vfs.VFS_TYPE_FILE) (if is_dir then 0 else size de)
    0 0 0 Vfs.ForeignOps 0 0 0 fp) ;;
  mret node.

Definition fat_create (dir : Z) (nm : list Z) (type : Z) : M Z :=
  dfn ← Vfs.get (fun s => fnode s (Vfs.priv (Vfs.nd s dir)));
  m ← Vfs.get (fun s => mount_of s (fmount dfn));
  r ← on_disk (create_dirent m (first_cluster dfn) nm type);
  match r with
  | None => mret 0
  | Some (de, sec, off) => make_vnode (fmount dfn) de sec off
  end.

Definition fat_unlink (dir : Z) (nm : list Z) : M kStatus :=
  dfn ← Vfs.get (fun s => fnode s (Vfs.priv (Vfs.nd s dir)));
  m ← Vfs.get (fun s => mount_of s (fmount dfn));
  on_disk (FatDir.fat_unlink m (first_cluster dfn) nm).

Definition fat_readdir (node index : Z) : M (kResult Vfs.Dirent) :=
  fn ← Vfs.get (fun s => fnode s (Vfs.priv (Vfs.nd s node)));
  m ← Vfs.get (fun s => mount_of s (fmount fn));
  on_disk (fun d => r ← FatDir.fat_readdir m d (first_cluster fn) index; Some (r, d)).

Definition fat_close (node : Z) : M unit := mret tt.

(** ** Mounting *)

(** One entry of a directory: its node becomes the first child of [par], and a
    subdirectory is walked by [sub].  [None] in the state: a call did not return. *)
Definition populate_visit (sub : Z -> Z -> Vfs.state -> option Vfs.state) (mp par : Z) (sec off : Z) (de : DirEntry)
    (s : option (Vfs.state (H := disk_heap))) : option unit * option Vfs.state :=
  if first_char de =? 0 then (Some tt, s)
  else if skipped de || (first_char de =? period) then (None, s)
  else
    match s ≫= make_vnode mp de sec off with
    | None => (Some tt, None)
    | Some (child, s) =>
        if child =? 0 then (None, Some s) else
        match Vfs.add_child par child s with
        | None => (Some tt, None)
        | Some (_, s) =>
            if negb (attr de .& ATTR_DIR =? 0) then
              match sub (first_cluster (fnode s (Vfs.priv (Vfs.nd s child)))) child s with
              | None => (Some tt, None)
              | Some s => (None, Some s)
              end
            else (None, Some s)
        end
    end.

(** One step of [fuel] per level of directories. *)
Fixpoint populate_dir (fuel : nat) (mp dir_cluster par : Z) (s : Vfs.state) : option Vfs.state :=
  match fuel with
  | O => None
  | S fuel' =>
      let m := mount_of s mp in
      '(_, r) ← dir_walk m (populate_visit (populate_dir fuel' mp) mp par) (walk_fuel m) tt (disk (store_of s)) dir_cluster (Some s);
      r
  end.

Definition mount (fuel : nat) (vfs_path : list Z) : M kStatus :=
  boot ← Vfs.get (fun s => dev_read (disk (store_of s)) 0);
  match boot with
  | None => mret (Err IOError)
  | Some buf =>
      let bpb := bpb_at buf in
      if negb (bytes_per_sector bpb =? 512) then mret (Err DeviceError) else
      if fat_size_32 bpb =? 0 then mret (Err FilesystemCorrupt) else
      mp ← Vfs.malloc sizeof_Fat32Mount;
      if mp =? 0 then mret (Err OutOfMemory) else
      match geometry bpb with
      | None => fun _ => None
      | Some m =>
          upd_store (fun st => set_fmounts (<[mp := m]> (fmounts st)) st) ;;
          root ← Vfs.malloc Vfs.sizeof_VNode;
          if root =? 0 then (Vfs.free mp ;; mret (Err OutOfMemory)) else
          fp ← Vfs.malloc sizeof_Fat32Node;
          if fp =? 0 then (Vfs.free root ;; Vfs.free mp ;; mret (Err OutOfMemory)) else
          upd_fnode fp (fun _ => FNode mp (root_cluster m) true 0 0 false) ;;
          Vfs.upd_node root (fun _ => Vfs.Node [Vfs.slash] Vfs.VFS_TYPE_DIR 0 0 0 0 Vfs.ForeignOps 0 0 0 fp) ;;
          ((fun s => s ← populate_dir fuel mp (root_cluster m) root s; Some (tt, s)) : M unit) ;;
          Vfs.mount vfs_path root
      end
  end.

(** ** The geometry of a volume *)

(** A boot sector whose sizes fit together and fit the device. *)
Record bpb_ok (b : BPB) (d : D) : Prop := {
  bo_spc : 1 <= bpb_sectors_per_cluster b <= 255;
  bo_fats : 1 <= bpb_num_fats b <= 255;
  bo_reserved : 0 <= reserved_sectors b < 2 ^ 16;
  bo_fat : 0 <= fat_size_32 b;
  bo_total : reserved_sectors b + bpb_num_fats b * fat_size_32 b <= total_sectors_32 b <= sector_count d;
  bo_size : sector_count d <= 2 ^ 32 /\ total_sectors_32 b < 2 ^ 32;
  bo_clusters : (total_sectors_32 b - (reserved_sectors b + bpb_num_fats b * fat_size_32 b)) / bpb_sectors_per_cluster b <= 0x0FFFFFF5;
  bo_table : 4 * ((total_sectors_32 b - (reserved_sectors b + bpb_num_fats b * fat_size_32 b)) / bpb_sectors_per_cluster b + 2) <= 512 * fat_size_32 b;
}.

Lemma geometry_ok b d : bpb_ok b d -> exists m, geometry b = Some m /\ vol_ok m d /\ root_cluster m = bpb_root_cluster b /\ fat_start m = reserved_sectors b.
Proof.
  intros [? ? ? ? ? ? Hc Ht]. unfold geometry. rewrite (proj2 (Z.eqb_neq _ 0)) by lia. assert (0 <= bpb_num_fats b * fat_size_32 b) by nia.
  rewrite (u32_small (bpb_num_fats b * fat_size_32 b)) by (mach; lia). rewrite (u32_small (reserved_sectors b + _)) by (mach; lia).
  rewrite u32_small by (mach; lia). eexists. split; [done |]. split; [| done].
  set (n := total_sectors_32 b - (reserved_sectors b + bpb_num_fats b * fat_size_32 b)) in *.
  assert (0 <= n / bpb_sectors_per_cluster b) by (apply Z.div_pos; lia).
  assert (bpb_sectors_per_cluster b * (n / bpb_sectors_per_cluster b) <= n) by (apply Z.mul_div_le; lia).
  split; cbn [sectors_per_cluster num_fats fat_start fat_size total_clusters data_start]; lia.
Qed.


(** ** The directory entry after a write *)

Lemma touch_entry_ok off sz c buf : length buf = 512%nat -> Forall U8 buf -> 0 <= off -> off + 32 <= 512 -> 0 <= c < 2 ^ 32 ->
  let nbuf := touch_entry off sz c buf in
  length nbuf = 512%nat /\ Forall U8 nbuf /\ size (entry_at nbuf off) = u32 sz /\ entry_cluster (entry_at nbuf off) = c /\
  forall off', 0 <= off' -> off' + 32 <= 512 -> off' + 32 <= off \/ off + 32 <= off' -> entry_at nbuf off' = entry_at buf off'.
Proof.
  intros Hl Hb Ho Ho2 Hc nbuf. unfold nbuf, touch_entry. rewrite !length_store. split; [done |]. split; [by repeat apply store_U8; try apply le_bytes_U8 |].
  assert (forall x, 0 <= u16 x < 2 ^ (8 * Z.of_nat 2)) as H16 by (intros; apply wrap_bound; lia).
  split; [| split].
  - cbn [entry_at size]. unfold get32. rewrite !(store_word_other 4) by (rewrite ?length_store, ?length_le_bytes, ?Hl; lia).
    apply store_word; [lia | apply u32_bound | rewrite Hl; lia].
  - rewrite <- (with_cluster_spec (entry_at buf off) c Hc) at 3. unfold entry_cluster. cbn [entry_at cluster_hi cluster_lo with_cluster]. unfold get16. f_equal.
    + do 2 f_equal. rewrite (store_word_other 2) by (rewrite ?length_store, ?length_le_bytes, ?Hl; lia). apply store_word; [lia | apply H16 | rewrite length_store, Hl; lia].
    + apply store_word; [lia | apply H16 | rewrite !length_store, Hl; lia].
  - intros off' H1 H2 Hd. apply entry_at_ext; rewrite ?length_store, ?Hl; try lia. intros k Hk.
    rewrite !store_index by (rewrite ?length_store, ?length_le_bytes, ?Hl; lia). rewrite !length_le_bytes. by rewrite !decide_False by lia.
Qed.

(** Writing a whole sector of a directory, with one entry changed. *)
Lemma update_dirent_spec m d F C v cs fn de sz : file m d F C v cs -> (dirent_sector fn, dirent_offset fn, de) ∈ slots m d cs -> 0 <= first_cluster fn < 2 ^ 32 ->
  exists d1 C1, update_dirent fn sz d = Some (tt, d1) /\ file m d1 F C1 v cs /\ grown m F C cs F C1 cs /\
    exists de1, (dirent_sector fn, dirent_offset fn, de1) ∈ slots m d1 cs /\ size de1 = u32 sz /\ entry_cluster de1 = first_cluster fn.
Proof.
  intros Hf Hin Hfc. apply elem_of_slots in Hin as (c & i & e & Hcin & Hi & He & Esec & Eoff & _). destruct Hf as [Hvw Hch How].
  pose proof (vw_ok _ _ _ _ Hvw) as Hv. assert (in_vol m c) as Hc by by apply (chain_in m F v cs).
  destruct (cluster_sector m d c i Hv Hc Hi) as [_ Hr]. pose proof (lba_eq m d c Hv Hc) as (_ & Hst & _). rewrite <- Esec in Hr.
  destruct (dev_read_ok d (dirent_sector fn)) as (Hrd & Hl & Hu); [lia |].
  destruct (touch_entry_ok (dirent_offset fn) sz (first_cluster fn) _ Hl Hu) as (Nl & Nu & Ns & Nc & No); [lia | lia | done |].
  set (nbuf := touch_entry _ _ _ _) in *.
  destruct (write_sector_view m d F C c (i * 512) nbuf Hvw Hc) as (d1 & Hwr & Hvw1); [nia | rewrite Z.mod_mul, Nl by lia; lia | done |].
  rewrite Z.div_mul, Z.mod_mul, <- Esec in Hwr by lia. rewrite store_all in Hwr by congruence.
  destruct (dev_write_ok d (dirent_sector fn) nbuf) as (d1' & Hwr' & _ & Hs); [lia | done | done |]. rewrite Hwr in Hwr'. injection Hwr' as <-.
  exists d1. eexists. unfold update_dirent. rewrite Hrd. fold nbuf. rewrite Hwr. split; [done |]. split; [split; [exact Hvw1 | done | done] |]. split.
  - split; try done; [exists []; by rewrite app_nil_r |]. intros x k _ Hx. rewrite fn_lookup_insert_ne; [done |]. by intros ->.
  - exists (entry_at nbuf (dirent_offset fn)). split; [| done]. apply elem_of_slots. exists c, i, e. split_and!; try done; try lia.
    rewrite Hs, decide_True by done. done.
Qed.

(** ** Writing a file *)

(** A node of a mounted volume: its clusters, and its entry in the directory that
    starts at [v] and has the clusters [dcs]. *)
Record fat_node (s : Vfs.state (H := disk_heap)) (p : Z) (cs : list Z) (v : Z) (dcs : list Z) : Prop := {
  fn_file : has_file (mount_of s (fmount (fnode s (Vfs.priv (Vfs.nd s p))))) (disk (store_of s)) (first_cluster (fnode s (Vfs.priv (Vfs.nd s p)))) cs;
  fn_first : cs = [] -> 0 <= first_cluster (fnode s (Vfs.priv (Vfs.nd s p))) < 2;
  fn_dir : has_file (mount_of s (fmount (fnode s (Vfs.priv (Vfs.nd s p))))) (disk (store_of s)) v dcs;
  fn_apart : dcs ## cs;
  fn_dirent : has_dirent (fnode s (Vfs.priv (Vfs.nd s p))) = true;
  fn_slot : exists de, (dirent_sector (fnode s (Vfs.priv (Vfs.nd s p))), dirent_offset (fnode s (Vfs.priv (Vfs.nd s p))), de) ∈
    slots (mount_of s (fmount (fnode s (Vfs.priv (Vfs.nd s p))))) (disk (store_of s)) dcs;
}.

(** The disk part of a write: the chain, then the directory entry. *)
Lemma write_then_update m d fn cs v dcs off src sz : has_file m d (first_cluster fn) cs -> (cs = [] -> 0 <= first_cluster fn < 2) -> has_file m d v dcs -> dcs ## cs ->
  (exists de, (dirent_sector fn, dirent_offset fn, de) ∈ slots m d dcs) -> 0 <= off -> src <> [] -> Forall U8 src ->
  off + Z.of_nat (length src) <= (Z.of_nat (length cs) + free_clusters m (read_fat m d)) * csize m ->
  exists c1 d1 d2 cs1, chain_write m (first_cluster fn) off src d = (Z.of_nat (length src), c1, d1) /\
    update_dirent (set_first_cluster c1 fn) sz d1 = Some (tt, d2) /\ has_file m d2 c1 cs1 /\ has_file m d2 v dcs /\ dcs ## cs1 /\ cs1 <> [] /\
    chain_read m d2 c1 off (Z.of_nat (length src)) = src /\
    exists de, (dirent_sector fn, dirent_offset fn, de) ∈ slots m d2 dcs /\ size de = u32 sz /\ entry_cluster de = c1.
Proof.
  intros Hhf Hfirst Hdir Hdis [de0 Hslot] Hoff Hsrc Hb Hroom.
  destruct (written_reads_back m d _ cs off src Hhf) as (c1 & d1 & cs1' & E & Hh1 & Hrd); try done; [intros Hn; specialize (Hfirst Hn); lia |].
  pose proof (has_file_view m d _ cs Hhf) as Hf. pose proof (has_file_view m d v dcs Hdir) as Hfd.
  destruct (chain_write_spec m d _ _ _ cs off src Hf) as (k & r & c1' & d1' & F1 & C1 & cs1 & E' & _ & [Hf1 G _ Hin _ _] & R); try done; [intros Hn; specialize (Hfirst Hn); lia |].
  rewrite E in E'. injection E' as <- <- <-. assert (0 < k) as Hk by (destruct R as [[? ?] | [R ?]]; [done | unfold E_NOSPACE in R; lia]).
  pose proof (grown_untouched m _ _ _ _ _ _ G) as Hu. assert (dcs ## cs1) as Hdis1.
  { destruct (gr_new _ _ _ _ _ _ _ G) as (nw & -> & Hnw). rewrite Forall_forall in Hnw. pose proof (fl_owned _ _ _ _ _ _ Hfd) as How. unfold owned in How. rewrite Forall_forall in How.
    intros x Hx [Hx' | Hx']%elem_of_app; [by apply (Hdis x) |]. destruct (Hnw x Hx') as [_ H0]. by apply (How x Hx). }
  destruct (untouched_file m d _ _ cs d1 F1 C1 v dcs Hfd (fl_view _ _ _ _ _ _ Hf1) Hu Hdis) as [Hfd1 Ed].
  assert (slots m d1 dcs = slots m d dcs) as Es.
  { apply (view_bytes_slots m d d1 (read_fat m d) F1 (cluster_byte m d) C1); [apply Hfd | apply Hf1 | intros x Hx; by apply (chain_in m _ v dcs x (fl_chain _ _ _ _ _ _ Hfd)) | by intros; apply Ed]. }
  pose proof (fl_chain _ _ _ _ _ _ Hf1) as Hch1. assert (cs1 <> []) as Hne. { intros ->. specialize (Hin Hk). cbn [length] in Hin. lia. }
  assert (0 <= c1 < 2 ^ 32) as Hc1.
  { destruct cs1 as [| x t]; [done |]. destruct Hch1 as (-> & Hx & _). pose proof (v_total _ _ (proj1 Hhf)). unfold in_vol in Hx. lia. }
  destruct (update_dirent_spec m d1 F1 C1 v dcs (set_first_cluster c1 fn) de0 sz Hfd1) as (d2 & C2 & E2 & Hfd2 & G2 & de1 & Hin1 & Hs1 & Hc1'); [by rewrite Es | done |].
  pose proof (grown_untouched m _ _ _ _ _ _ G2) as Hu2. assert (cs1 ## dcs) as Hdis1' by (intros x Hx Hx'; by apply (Hdis1 x)).
  exists c1, d1, d2, cs1. split; [done |]. split; [done |].
  destruct (untouched_file m d1 F1 C1 dcs d2 F1 C2 c1 cs1 Hf1 (fl_view _ _ _ _ _ _ Hfd2) Hu2 Hdis1') as [Hf2 _].
  split; [by apply (file_has m d2 F1 C2) |]. split; [by apply (file_has m d2 F1 C2) |]. split; [done |]. split; [done |]. split; [| by exists de1].
  rewrite <- Hrd at 2. apply (untouched_read m d1 F1 C1 dcs d2 F1 C2 c1 cs1); try done; [apply Hfd2 | lia].
Qed.

(** The state after a write that succeeded. *)
Lemma fat_write_run s p off src n c1 d1 d2 : let v := Vfs.nd s p in let fn := fnode s (Vfs.priv v) in let sz := Z.max (Vfs.fsize v) (off + n) in
  chain_write (mount_of s (fmount fn)) (first_cluster fn) off src (disk (store_of s)) = (n, c1, d1) -> 0 < n -> 0 <= off -> off + n < 2 ^ 63 -> has_dirent fn = true ->
  update_dirent (set_first_cluster c1 fn) sz d1 = Some (tt, d2) ->
  exists s1, fat_write p off src s = Some (Ok n, s1) /\ Vfs.nd s1 p = Vfs.set_fsize sz v /\ fnode s1 (Vfs.priv v) = set_first_cluster c1 fn /\
    fmounts (store_of s1) = fmounts (store_of s) /\ disk (store_of s1) = d2.
Proof.
  intros v fn sz E1 Hn Hoff Hlt Hhas E2.
  unfold fat_write, mbind, M_bind, Vfs.bind, Vfs.get, on_disk, mret, M_ret, Vfs.ret. cbn [mbind option_bind]. fold v fn. rewrite E1. cbn [mbind option_bind].
  set (s2 := Vfs.set_heap (set_fnodes (<[Vfs.priv v := set_first_cluster c1 fn]> (fnodes (store_of s))) (set_disk d1 (store_of s))) s).
  change (upd_fnode (Vfs.priv v) (set_first_cluster c1) (Vfs.set_heap (set_disk d1 (store_of s)) s)) with (Some (tt, s2)). cbn [mbind option_bind].
  rewrite (proj2 (Z.leb_gt n 0)) by lia. rewrite u64_small by (mach; lia). change (Vfs.nd s2 p) with v.
  assert (fnode s2 (Vfs.priv v) = set_first_cluster c1 fn) as Efn by (unfold fnode, s2, store_of; cbn; by rewrite lookup_insert_eq).
  assert (Vfs.set_fsize (Vfs.fsize v) v = v) as Eta by by destruct v.
  destruct (Z.ltb_spec (Vfs.fsize v) (off + n)) as [Hs | Hs].
  - change (Vfs.upd_node p (Vfs.set_fsize (off + n)) s2) with (Some (tt, Vfs.set_nodes (<[p := Vfs.set_fsize (off + n) v]> (Vfs.nodes s2)) s2)). cbn [mbind option_bind].
    set (s3 := Vfs.set_nodes _ s2). change (fnode s3 (Vfs.priv v)) with (fnode s2 (Vfs.priv v)). rewrite Efn. change (has_dirent (set_first_cluster c1 fn)) with (has_dirent fn). rewrite Hhas.
    assert (Vfs.nd s3 p = Vfs.set_fsize sz v) as End by (unfold Vfs.nd, s3; cbn [Vfs.nodes Vfs.set_nodes]; rewrite lookup_insert_eq; cbn [default]; by replace (off + n) with sz by lia).
    rewrite End. change (disk (store_of s3)) with d1. cbn [Vfs.fsize Vfs.set_fsize]. rewrite E2. cbn [mbind option_bind]. eexists. split; [done |]. done.
  - cbn [mbind option_bind]. rewrite Efn. change (has_dirent (set_first_cluster c1 fn)) with (has_dirent fn). rewrite Hhas. change (Vfs.nd s2 p) with v. change (disk (store_of s2)) with d1.
    assert (sz = Vfs.fsize v) as Esz by (unfold sz; lia). rewrite Esz in E2. rewrite E2. cbn [mbind option_bind]. eexists. split; [done |]. rewrite Esz, Eta. done.
Qed.

(** C21: Writing to a file of a mounted volume that has room returns the number of
    bytes and leaves a consistent volume: reading at the same offset returns the bytes, the
    node has the larger of its old size and the end of the write, and the directory entry on
    the disk holds the size and the first cluster of the file, so that the file is found
    with its new contents after the next mount. *)
Theorem fat_write_persists s p cs v dcs off src : fat_node s p cs v dcs -> 0 <= off -> src <> [] -> Forall U8 src -> off + Z.of_nat (length src) < 2 ^ 63 ->
  U64 (Vfs.fsize (Vfs.nd s p)) ->
  off + Z.of_nat (length src) <= (Z.of_nat (length cs) + free_clusters (mount_of s (fmount (fnode s (Vfs.priv (Vfs.nd s p)))))
    (read_fat (mount_of s (fmount (fnode s (Vfs.priv (Vfs.nd s p))))) (disk (store_of s)))) * csize (mount_of s (fmount (fnode s (Vfs.priv (Vfs.nd s p))))) ->
  exists s1 cs1, fat_write p off src s = Some (Ok (Z.of_nat (length src)), s1) /\
    Vfs.fsize (Vfs.nd s1 p) = Z.max (Vfs.fsize (Vfs.nd s p)) (off + Z.of_nat (length src)) /\
    fat_read p off (Z.of_nat (length src)) s1 = Some (Ok src, s1) /\ fat_node s1 p cs1 v dcs /\
    exists de, (dirent_sector (fnode s1 (Vfs.priv (Vfs.nd s1 p))), dirent_offset (fnode s1 (Vfs.priv (Vfs.nd s1 p))), de) ∈
        slots (mount_of s1 (fmount (fnode s1 (Vfs.priv (Vfs.nd s1 p))))) (disk (store_of s1)) dcs /\
      size de = u32 (Vfs.fsize (Vfs.nd s1 p)) /\ entry_cluster de = first_cluster (fnode s1 (Vfs.priv (Vfs.nd s1 p))).
Proof.
  intros [Hfile Hfirst Hdir Hdis Hhas Hslot] Hoff Hsrc Hb Hlen Hsz Hroom. set (v0 := Vfs.nd s p) in *. set (fp := Vfs.priv v0) in *. set (fn := fnode s fp) in *. set (m := mount_of s (fmount fn)) in *.
  set (nsz := Z.max (Vfs.fsize v0) (off + Z.of_nat (length src))).
  destruct (write_then_update m (disk (store_of s)) fn cs v dcs off src nsz) as (c1 & d1 & d2 & cs1 & E1 & E2 & Hf1 & Hd1 & Hdis1 & Hne & Hrd & Hde); try done.
  assert (0 < Z.of_nat (length src)) as Hpos by (destruct src; [done | cbn [length]; lia]).
  destruct (fat_write_run s p off src _ c1 d1 d2 E1 Hpos Hoff Hlen Hhas E2) as (s1 & Hrun & Hnd & Hfn & Hms & Hdk). fold v0 fp fn nsz in Hnd, Hfn.
  assert (Vfs.priv (Vfs.nd s1 p) = fp) as Hpriv by by rewrite Hnd. assert (fnode s1 (Vfs.priv (Vfs.nd s1 p)) = set_first_cluster c1 fn) as Hfn1 by by rewrite Hpriv.
  assert (mount_of s1 (fmount (set_first_cluster c1 fn)) = m) as Hm by (unfold mount_of, m; by rewrite Hms).
  exists s1, cs1. split; [done |]. split; [by rewrite Hnd |]. split; [| split].
  - unfold fat_read, Vfs.get. rewrite Hfn1, Hm, Hdk, Hnd. cbn [Vfs.fsize Vfs.set_fsize first_cluster set_first_cluster].
    unfold nsz. rewrite (proj2 (Z.leb_gt _ off)) by lia. rewrite u64_small by (unfold U64 in Hsz; mach; lia).
    rewrite (proj2 (Z.ltb_ge _ (Z.of_nat (length src)))) by lia. by rewrite Hrd.
  - split; rewrite ?Hfn1, ?Hm, ?Hdk; [done | by intros ? | done | done | done |]. destruct Hde as (de & Hin & _). by exists de.
  - destruct Hde as (de & Hin & Hs & Hc). exists de. rewrite Hfn1, Hm, Hdk, Hnd. done.
Qed.
End fatfs.

(** ** A mounted volume *)
Section demo.
Import Bump.

Definition demo_boot : list Z :=
  store 11 (le_bytes 2 512) (store 13 [1] (store 14 (le_bytes 2 1) (store 16 [2]
    (store 32 (le_bytes 4 23) (store 36 (le_bytes 4 1) (store 44 (le_bytes 4 2) (replicate 512 0))))))).
Definition demo_device : Ram.disk := Ram.Disk (<[0 := demo_boot]> (Ram.sectors demo_volume)) 40.
Definition demo_before : Vfs.state (H := disk_heap) :=
  Vfs.State (Store Bump.empty ∅ ∅ demo_device) ∅ ∅ ∅ ∅ [] 0 0 [] ∅ 0 0 Vga.demo.

(** [/m], and the file in it. *)
Definition demo_point : list Z := [47; 109].
Definition demo_path : list Z := demo_point ++ 47 :: join demo_base demo_ext.

Definition demo_mounted : option (kStatus * Vfs.state) :=
  '(_, s) ← Vfs.init fat_create demo_before; '(_, s) ← Vfs.mkdir fat_create demo_point s; mount 3 demo_point s.
Definition demo_state : Vfs.state := match demo_mounted with Some (_, s) => s | None => demo_before end.
Definition demo_node : Z := match Vfs.lookup demo_path demo_state with Some (n, _) => n | None => 0 end.

(** Mounting the volume makes its file visible; what is written through the virtual file
    system is read back through it. *)
Example mount_write_read : fst <$> demo_mounted = Some (Ok tt) /\
  match Vfs.open fat_create demo_path 2 demo_state with
  | Some (Ok f, s) =>
      match Vfs.write fat_write f [1; 2; 3] s with
      | Some (Ok 3, s) => match Vfs.seek f 0 0 s with Some (_, s) => fst <$> Vfs.read fat_read f 10 s | None => None end
      | _ => None
      end
  | _ => None
  end = Some (Ok [1; 2; 3]).
Proof. vm_compute. split; reflexivity. Qed.


Lemma demo_fat_node : fat_node demo_state demo_node [3] 2 [2].
Proof.
  assert (mount_of demo_state (fmount (fnode demo_state (Vfs.priv (Vfs.nd demo_state demo_node)))) = demo_mount) as Em by (vm_compute; reflexivity).
  assert (first_cluster (fnode demo_state (Vfs.priv (Vfs.nd demo_state demo_node))) = 3) as Ec by (vm_compute; reflexivity).
  assert (disk (store_of demo_state) = demo_device) as Ed by (vm_compute; reflexivity).
  assert (vol_ok demo_mount demo_device) as Hv by (apply (vol_ok_count demo_mount demo_volume); [exact demo_volume_ok | vm_compute; reflexivity]).
  split; rewrite ?Em, ?Ec, ?Ed; clear Em Ec Ed.
  - split; [exact Hv |]. split; [by vm_compute |]. apply Forall_singleton. vm_compute. discriminate.
  - discriminate.
  - split; [exact Hv |]. split; [by vm_compute |]. apply Forall_singleton. vm_compute. discriminate.
  - intros c ->%list_elem_of_singleton Hc%list_elem_of_singleton. discriminate.
  - vm_compute. reflexivity.
  - eexists. apply (list_elem_of_lookup_2 _ 0%nat). vm_compute. reflexivity.
Qed.

Lemma fat_write_persists_witness : exists s1, fat_write demo_node 600 demo_text demo_state = Some (Ok 5, s1) /\ Vfs.fsize (Vfs.nd s1 demo_node) = 605.
Proof.
  destruct (fat_write_persists demo_state demo_node [3] 2 [2] 600 demo_text demo_fat_node) as (s1 & cs1 & E & Hs & _).
  - lia.
  - discriminate.
  - exact demo_text_bytes.
  - vm_compute. reflexivity.
  - by vm_compute.
  - vm_compute. discriminate.
  - exists s1. split; [exact E |]. rewrite Hs. vm_compute. reflexivity.
Defined.

(** A boot sector with fewer sectors than its tables take gives a volume of four
    billion sectors. *)
Lemma geometry_wraps : total_clusters <$> geometry (MkBPB 512 1 32 2 0 100 2) = Some (2 ^ 32 - 232).
Proof. vm_compute. reflexivity. Qed.
End demo.
